(* ===== verification/_CoqProject ===== *)
-Q . S2P
Prelude.v
GoStrings.v
Regexp.v
AdvisorSig.v
Pxe.v
PxeProps.v
Secret.v
Machines.v
Discovery.v
GoNet.v
ClusterModel.v
Generator.v
Storage.v
Interact.v
DeployModel.v
SelCodec.v
AgentSel.v
AgentPreflight.v
AgentRun.v
LegacyImage.v
AgentTopology.v
AgentInventory.v
AgentApply.v
GateWriter.v
BmcLock.v
Orchestrator.v
OrchestratorFrames.v
OrchestratorOps.v
DeployDemo.v
OrchestratorSafety.v
OrchestratorStart.v
OrchestratorConc.v
GateFlow.v
OrchestratorProps.v
OrchestratorStore.v
OrchestratorInspect.v
DeployApi.v
HostFs.v
DeployApiProps.v
DeployApiConc.v
AgentInstall.v
Routes.v
MachineApi.v
ClusterApi.v
Ipmi.v
EntModel.v
EntManifest.v
ManifestGen.v
EntPlan.v
EntRun.v
EntStats.v
EntApi.v
EntInv.v
EntProps.v
EntKeys.v
EntRemote.v
ClusterSsh.v
EntPreflight.v
