(* ===== verification/Prelude.v ===== *)
(** * cube-cos-driver: a verification development (root file)

    The driver bootstraps bare-metal clusters of Cube COS and installs the
    platform's modules on them.  An operator plans a cluster in a browser; the
    driver renders a snapshot per node, boots the nodes into an installer over
    PXE, and leads them through restore, reboot, apply and set-ready.  A program
    on each node, the phone-home agent, does the work there.  Two channels join
    them: the agent polls and reports over HTTP, and both sides read and write
    records in the event log (SEL) of the node's BMC, which works before and
    without a network.  This library models the core of both programs in Rocq and
    proves what makes them correct.

    ** The parts and how they interact

    - Cluster planning.  The definition and its validation: ClusterModel.v
      (internal/model), over Go's address functions, GoNet.v.  What a node is
      given: Generator.v (internal/generator).  Where it is kept: Storage.v
      (internal/storage).  The handlers that save, serve and delete it:
      ClusterApi.v (internal/api handlers.go).
    - Machines.  Machines.v (internal/inventory) keeps a file per machine with
      its sealed password, Secret.v (internal/secret); MachineApi.v
      (internal/api machines.go) edits, discovers, imports and assigns them.
    - Deploy, the driver's side.  DeployModel.v is the record
      (internal/orchestrator model.go, errcodes.go); Orchestrator.v the handlers
      of [Manager] (manager.go, store.go), OrchestratorInspect.v the hardware
      inspects; SelCodec.v the SEL records, anchor and observer (sel.go);
      GateWriter.v the read-after-write loop that puts a gate on a BMC and BmcLock.v
      any number of writers under the lock of their BMC (sel.go);
      Ipmi.v sessions, power and the install observer (ipmi.go, observer.go,
      executor.go).  DeployApi.v (internal/api deploy.go) is what the agents and
      the operator call: it joins the machine store, the cluster store and
      [Manager]; DeployApiConc.v takes its handlers apart at the locks they take.
    - Deploy, the node's side.  AgentPreflight.v (internal/agent preflight.go)
      waits for peers and measures skew before a restore, AgentRun.v
      (internal/agent agent.go) is the in-band boot; of cmd/phone-home-agent,
      AgentSel.v models the agent's half of the BMC log, AgentTopology.v the
      transient network (both preflight.go), AgentInventory.v the hardware report
      (inventory.go, cards.go), LegacyImage.v the workarounds for old images
      (legacy_markers.go, legacy_timezone.go), AgentApply.v apply, set-ready and the
      choice among the jobs of a boot, and AgentInstall.v what the installer
      phase leaves for it (both main.go).
    - PXE.  Pxe.v (internal/pxe) is the text of grub.cfg through the code's
      regular expressions (Regexp.v), the advisory lock and the flip that arms an
      entry and later undoes it, for any number of drivers on one server.
    - Enterprise modules.  EntModel.v the records, EntManifest.v manifests and the
      support matrix, EntPlan.v the steps of an install, EntRun.v the manager
      that runs them, EntRemote.v the work of a step over SSH, EntPreflight.v
      what is verified first (internal/enterprise).  AdvisorSig.v checks the
      signature of an advisor bundle, EntApi.v (internal/api enterprise.go) is
      what the browser calls, HostFs.v the folder of install images and the
      browsing and mounting of the driver's own disks (internal/enterprise dir.go,
      artifacts.go, internal/api fs.go), EntStats.v the dashboard's list and figures.
      ClusterSsh.v is the SSH client (internal/clusterssh), an instance of the
      interface EntRemote.v is written against; ManifestGen.v (cmd/manifestgen)
      makes the manifests that EntManifest.v reads.
    - The HTTP surface.  Routes.v (internal/api server.go, every register,
      internal/webui, cmd/cube-cos-driver) is the table that sends a request to one of
      the handlers above, and what the driver settles from its flags when it starts.
    - Discovery.  Discovery.v (internal/discovery) reads a machine's hardware out
      of its BMC's Redfish tree or its FRU.

    ** Files

    This file holds what all share: [result] (a Go [(T, error)]), lists,
    notation, tactics and the hint database [cube].  GoStrings.v, Regexp.v and
    GoNet.v are the parts of Go's library the code calls; Interact.v is the
    interaction trees of the agents' loops with a logic of monitors.  A model
    file translates source; its theorems are beside it where they are about one
    component, and in a file of its own where there are many:
    OrchestratorFrames.v (frame relations), OrchestratorOps.v (the transition
    system), DeployDemo.v (concrete deploys), OrchestratorSafety.v,
    OrchestratorStart.v, OrchestratorConc.v (sections interleaved), GateFlow.v (with writers
    and BMCs), OrchestratorProps.v and OrchestratorStore.v on [Manager];
    DeployApiProps.v and DeployApiConc.v (requests interleaved) on the deploy API; PxeProps.v
    on the flips; EntInv.v, EntProps.v and EntKeys.v on the installer's runs.

    ** How code is modelled

    - Names are the source's; a name that Rocq or another file has taken gets an
      underscore or a prefix.  Fields carry the prefix of their record.
    - Text is [string] (bytes), a Go map is a [gmap], an [int] is [Z] or [nat] where it
      only counts; a byte is a [Z] in [0, 256).
    - A function of type [(T, error)] returns [result]; a handler of the API a
      status and a body.  JSON text, HTTP framing and file paths are outside:
      a handler takes the decoded request, [None] where the body does not decode.
      Where a path is made of a name an operator chose (a snapshot's file), the
      joined path is modelled (Storage.v).
    - Disks and networks answer through inputs: whether a write worked, how far a
      save got, what a BMC returned.  A theorem that needs them to work says so.
    - Code not in the repository is an interface: [BMCClient] and
      [ChassisClient] (go-ipmi), the AEAD cipher of Secret.v, the SSH client,
      zip, time.Parse, md5.  Its laws are documented behaviour ([SELLaws] and
      [SELShows] of a BMC's log, [SessionLaws] of an SSH session's bytes), and every
      class has an instance that satisfies them; the instances ([MemBMC], [MegaRAC],
      [MemSession], ...) are for witnesses and examples, and no property of the
      driver is about them.
    - [Manager] (Orchestrator.v): a handler is one function of the manager's
      state, [go] appends to [m_jobs], and [Op] (OrchestratorOps.v) runs
      handlers, goroutine steps and changes of the disk and clock in any order.
      OrchestratorConc.v takes the handlers of several critical sections apart and
      interleaves the sections of all calls; BmcLock.v does so with the client calls
      of the gate writers; GateFlow.v puts both together with the BMCs' logs and the
      nodes' records, with [SELStore] for what a log does with a call.
      DeployApiConc.v does with whole API handlers what OrchestratorConc.v does with those
      of [Manager]: between two calls of a handler any section of another may run.
    - The installer (EntRun.v): every section under the lock is its own
      transition, so that all interleavings are covered; installs live in a heap
      because the code shares [*Install] between maps and goroutines.
    - The inspects (OrchestratorInspect.v) keep the store of [*InspectStatus]
      pointers, because runs are told apart by pointer.
    - The flips (Pxe.v): looking at the lock, removing it, creating it and every
      read and rewrite of the menu are steps of their own, interleaved over all
      drivers.
    - The agents' polling loops (Interact.v) are interaction trees; a theorem
      about every run of one is proved with a monitor.  AgentApply.v is instead a
      function of a node's disk and one boot's answers, folded over boots.

    ** What the theorems show

    - From end to end (GateFlow): a gate that an agent finds in its BMC's log is in the
      ledger of its node and was earned in the present run, if [Start] met quiet BMCs of its
      own and the wipe of this one was acknowledged.
    - Order of a deploy (OrchestratorSafety, OrchestratorStart, OrchestratorConc): over any
      run, with the critical sections of all calls interleaved, a gate a node
      was granted had its barrier behind it, a peer applies after its master has
      finished, and set-ready comes after all, as long as no [Start] registers a cluster
      while another one of it, or a handoff to its peers, is midway.  Ledgers never shrink and hold a
      stage once, and a restarted driver shows the same deploy
      (OrchestratorStore).  The manual cursor, the first barrier, the merge of the
      BMC's and the agent's view, and the trigger of set-ready are specified on
      every branch (OrchestratorProps).
    - The two ends of the BMC log agree: the agent reads the gates the driver
      wrote (AgentSel), and a write that returns success has read its gates back
      (GateWriter); writers that run at once
      are as good as one after the other and end, and a confirmed gate is lost only to a
      later wipe, by ClearSEL or by a writer the BMC told it is full (BmcLock).
      Power commands
      are verified and retried, within a bound, on any BMC (Ipmi).
    - The agents keep the protocol: no restore before the barrier and none with a
      failed check (AgentPreflight), no apply before the master's turn (AgentRun),
      a failure that stays, at most so many reboots (AgentApply), a topology a
      retry takes down whole (AgentTopology), labels the installer and the driver
      number alike (AgentInventory).
    - The deploy API tells only a chosen node of an active deploy to install, and
      an accepted start reaches the machines of its hosts (DeployApiProps).  With requests
      interleaved the order of a deploy stands, an appointment rests on states the request
      saw, and a request that runs alone does what its function says (DeployApiConc).  No two
      machines hold the same node, whatever each operation fails to write (Machines),
      registering and editing store a login only as the BMC accepted it
      (MachineApi), what is saved is what is
      served for names that are file names, and a deletion frees the machines (ClusterApi).
    - Every request has one handler, unknown API paths stay in the API, and what the agents
      send arrives where it is meant, for names the API takes in an address (Routes).
    - Planning: an accepted service range overlaps no network (ClusterModel); all
      nodes of a cluster are rendered the same controllers, line by line of the text, and
      who pings whom (Generator).
    - PXE: one driver at a time has the menu armed while no lock outlives its
      term, and an undone flip gives back the menu to the byte (PxeProps).
    - Modules: automatic installs run their steps in order, end, and are called
      done only when every step did its work, under all interleavings (EntInv,
      EntProps), and every run's own cleanup takes its provider key (EntKeys); the plan's steps and their conditions (EntPlan); success of remote work is read
      from the cluster and not from an exit code (EntRemote); a preflight that
      passes has checked everything (EntPreflight), and a bundle that verifies has every release in
      it, as far as its layers can be read, signed by both keys (AdvisorSig).  A request
      that reaches the installer has the parameters its module requires (EntApi).
    - The SSH client tells a lost connection from a failed command, and a push
      without error ran [scp -t] at the remote path and sent it the file (ClusterSsh); a row of the support matrix is
      what the installer's gate does (ManifestGen).
    - From the operator to the master: the parameters submitted for set_ready are
      those the master runs with, if they reach its disk, and the look for an inspection is bounded
      (AgentInstall).
    - Discovery: what an inspection offers to install on (Discovery), and what lsblk's
      devices are offered for mounting (HostFs).
    - Findings: where code and comment differ, or an interleaving breaks what the
      code means to keep, an [Example] computes it on a concrete state.

    ** Bounds and fuel

    Every bound is the code's own, or is proved enough.  [write_loop] has the
    5 passes of WriteGate; a dial its 6 attempts; a power transition its 6 commands
    with 5 looks each (Ipmi.v).  [registry_fuel] 21 is 300 s in steps of 15 s and one more,
    [poll_fuel] 121 is 3600 s by 30 s and one more (EntRemote.v), [waitBootstrap]
    601 the 600 s of its loop and one more (AgentApply.v).  [find_all] and
    [replace_all] (Regexp.v) have the length of the text and one more, since every round
    moves on; [human_exp] 6 has a unit for every 64-bit size.  A loop of the agent that
    may wait forever has no fuel: it is an interaction tree.

    ** What is not modelled, and why

    - Text and transport: JSON, YAML, zip bytes, HTTP, sockets, logging,
      CSV and XLSX decoding.
    - Cryptography, time.Parse and float formatting: third-party or standard
      library code the driver only calls; interfaces or arguments here.
    - Concurrent HTTP handlers outside the deploy API: each runs whole (the
      managers have locks, the files of machines and clusters have none).  The start of an inspection against other requests, the goroutine that narrates
      framework_create, the agent's air-gap simulation (a loop that re-applies a
      firewall block), dialling and the keepalive timer of the SSH client.
    - The ids of clusters, machines and installs are taken as file names that do not
      collide: two ids never give one path.
    - What runs on the other side of a channel: the sink of scp, a BMC's firmware, the
      loader of the policy files.
    - [ManualStep] of an install record, which the code declares and never uses.
    - The listener of the driver's HTTP server, the browser's pages, and the embedded
      scripts. *)
From stdpp Require Export base gmap strings list fin_maps sorting.
From Stdlib Require Export ZArith Lia.

(** Executable code never goes through opaque proofs; keep [cbn] readable. *)
Declare Scope go_scope.
Delimit Scope go_scope with go.
Open Scope go_scope.

(** ** Errors: a Go [(T, error)] pair *)

Inductive result (A : Type) : Type :=
| Ok (a : A)
| Err (msg : string).
Arguments Ok {A} a.
Arguments Err {A} msg.

Definition is_ok {A} (r : result A) : bool :=
  match r with Ok _ => true | Err _ => false end.

Definition result_bind {A B} (r : result A) (f : A → result B) : result B :=
  match r with Ok a => f a | Err e => Err e end.

Notation "'let?' x := r 'in' k" := (result_bind r (fun x => k))
  (at level 10, x binder, r at level 100, k at level 200) : go_scope.

#[export] Instance result_eq_dec {A} `{EqDecision A} : EqDecision (result A).
Proof. solve_decision. Defined.

Lemma result_bind_Ok {A B} (r : result A) (f : A → result B) b :
  result_bind r f = Ok b ↔ ∃ a, r = Ok a ∧ f a = Ok b.
Proof. destruct r; cbn; naive_solver. Qed.

(** [for range] with an early [return err]: run [f] over the elements. *)
Fixpoint first_err {A} (f : A → result unit) (l : list A) : result unit :=
  match l with
  | [] => Ok tt
  | x :: l' => let? _ := f x in first_err f l'
  end.

Lemma first_err_Ok {A} (f : A → result unit) l :
  first_err f l = Ok tt ↔ Forall (fun x => f x = Ok tt) l.
Proof.
  induction l as [|x l IH]; cbn; [by split|].
  rewrite Forall_cons, <- IH. destruct (f x) as [[]|e]; cbn; naive_solver.
Qed.

(** ** Go maps: [range] loops whose result does not depend on the order *)

Definition map_forallb {A} (f : string → A → bool) (m : gmap string A) : bool :=
  forallb (fun kv => f kv.1 kv.2) (map_to_list m).

Lemma map_forallb_true {A} (f : string → A → bool) m :
  map_forallb f m = true ↔ ∀ k v, m !! k = Some v → f k v = true.
Proof.
  unfold map_forallb. rewrite forallb_forall. split.
  - intros H k v Hk. apply (H (k, v)), list_elem_of_In, elem_of_map_to_list. done.
  - intros H [k v] Hin. apply H, elem_of_map_to_list, list_elem_of_In. done.
Qed.

Lemma map_forallb_false {A} (f : string → A → bool) m :
  map_forallb f m = false ↔ ∃ k v, m !! k = Some v ∧ f k v = false.
Proof.
  unfold map_forallb. rewrite <- not_true_iff_false, forallb_forall. split.
  - intros H. destruct (decide (Exists (fun kv => f kv.1 kv.2 = false) (map_to_list m)))
      as [He|Hn].
    + apply Exists_exists in He as ([k v] & Hin & Hf).
      exists k, v. by apply elem_of_map_to_list in Hin.
    + exfalso. apply H. intros kv Hin. apply list_elem_of_In in Hin.
      destruct (f kv.1 kv.2) eqn:E; [done|]. exfalso. apply Hn, Exists_exists. eauto.
  - intros (k & v & Hk & Hf) H.
    apply elem_of_map_to_list, list_elem_of_In, H in Hk. cbn in Hk. congruence.
Qed.

(** ** Membership tests ([slices.Contains]) *)

Definition contains {A} `{EqDecision A} (l : list A) (x : A) : bool :=
  bool_decide (x ∈ l).

Lemma contains_true {A} `{EqDecision A} (l : list A) x :
  contains l x = true ↔ x ∈ l.
Proof. apply bool_decide_eq_true. Qed.

Lemma contains_false {A} `{EqDecision A} (l : list A) x :
  contains l x = false ↔ x ∉ l.
Proof. apply bool_decide_eq_false. Qed.

(** ** The development's automation *)

Create HintDb cube discriminated.

#[export] Hint Rewrite @map_forallb_true @map_forallb_false
  @contains_true @contains_false andb_true_iff andb_false_iff orb_true_iff
  orb_false_iff negb_true_iff negb_false_iff bool_decide_eq_true
  bool_decide_eq_false Z.leb_le Z.leb_gt Z.ltb_lt Z.ltb_ge Z.eqb_eq Z.eqb_neq
  String.eqb_eq String.eqb_neq : cube_bool.

(** Turn every boolean test in the context and the goal into a proposition. *)
Ltac to_prop := autorewrite with cube_bool in *.

(** Split one [match]/[if] of a hypothesis or the goal, keeping equations. *)
Ltac split_match :=
  match goal with
  | H : context [match ?x with _ => _ end] |- _ =>
      lazymatch type of H with _ => destruct x eqn:? end
  | |- context [match ?x with _ => _ end] => destruct x eqn:?
  end.

(** Case analysis to the end, closing contradictory branches on the way. *)
Ltac go_cases := repeat (split_match; simplify_eq/=; try done).
