(* ===== verification/GoStrings.v ===== *)
(** * Go's string functions

    The part of Go's [strings], [strconv] and [path/filepath] the driver uses,
    on byte strings.  [is_space] and [ToLower] are the ASCII part of Go's
    Unicode tables: the driver applies them to host names, addresses, command
    output tokens and version stamps. *)
From S2P Require Import Prelude.
From Stdlib Require Import Ascii DecimalString DecimalZ OrdersEx.

Open Scope string_scope.

Definition is_empty (s : string) : bool := (s =? "")%string.

Lemma is_empty_true s : is_empty s = true ↔ s = "".
Proof. apply String.eqb_eq. Qed.
Lemma is_empty_false s : is_empty s = false ↔ s ≠ "".
Proof. apply String.eqb_neq. Qed.

#[export] Hint Rewrite is_empty_true is_empty_false : cube_bool.

(** ** Prefixes, suffixes, search *)

Definition HasPrefix (s p : string) : bool := String.prefix p s.

Fixpoint sdrop (n : nat) (s : string) : string :=
  match n, s with
  | S n', String _ s' => sdrop n' s'
  | _, _ => s
  end.

Fixpoint stake (n : nat) (s : string) : string :=
  match n, s with
  | S n', String c s' => String c (stake n' s')
  | _, _ => ""
  end.

Definition TrimPrefix (s p : string) : string :=
  if HasPrefix s p then sdrop (String.length p) s else s.

Definition HasSuffix (s p : string) : bool :=
  (String.length p <=? String.length s)%nat &&
  (sdrop (String.length s - String.length p) s =? p)%string.

Definition TrimSuffix (s p : string) : string :=
  if HasSuffix s p then stake (String.length s - String.length p) s else s.

(** [strings.Index], [None] for -1. *)
Fixpoint Index (s sub : string) : option nat :=
  if HasPrefix s sub then Some 0%nat else
  match s with
  | "" => None
  | String _ s' => S <$> Index s' sub
  end.

Definition Contains (s sub : string) : bool :=
  match Index s sub with Some _ => true | None => false end.

(** [strings.LastIndex] for a one-byte needle. *)
Fixpoint LastIndexByte (s : string) (c : ascii) : option nat :=
  match s with
  | "" => None
  | String a s' =>
      match LastIndexByte s' c with
      | Some n => Some (S n)
      | None => if Ascii.eqb a c then Some 0%nat else None
      end
  end.

(** ** [sort.Strings]: byte-wise order *)

Definition string_le (a b : string) : Prop := String.leb a b = true.
#[export] Instance string_le_dec : RelDecision string_le.
Proof. intros a b. unfold string_le. apply _. Defined.

Lemma compare_same x y : String.compare x y = String_as_OT.compare x y.
Proof. reflexivity. Qed.

Lemma leb_trans x y z : String.leb x y = true → String.leb y z = true → String.leb x z = true.
Proof.
  intros H1 H2. unfold String.leb in H1, H2.
  destruct (String.compare x y) eqn:E1; [|  |done].
  { apply String.compare_eq_iff in E1 as ->. exact H2. }
  destruct (String.compare y z) eqn:E2; [| |done].
  { apply String.compare_eq_iff in E2 as <-. unfold String.leb. by rewrite E1. }
  assert (String_as_OT.lt x z) as H by (transitivity y; [exact E1|exact E2]).
  unfold String_as_OT.lt in H. unfold String.leb. by rewrite compare_same, H.
Qed.

#[export] Instance string_le_total : Total string_le.
Proof. intros a b. unfold string_le. destruct (String.leb_total a b); auto. Qed.
#[export] Instance string_le_trans : Transitive string_le.
Proof. intros a b c. apply leb_trans. Qed.

Definition SortStrings (l : list string) : list string := merge_sort string_le l.

Lemma SortStrings_sorted l : StronglySorted string_le (SortStrings l).
Proof. apply (StronglySorted_merge_sort string_le). Qed.

Lemma SortStrings_perm l : SortStrings l ≡ₚ l.
Proof. apply merge_sort_Permutation. Qed.

(** ** Trimming and splitting *)

Definition is_space (c : ascii) : bool :=
  let n := nat_of_ascii c in ((9 <=? n) && (n <=? 13) || (n =? 32))%nat.

Fixpoint TrimLeftFunc (f : ascii → bool) (s : string) : string :=
  match s with
  | String c s' => if f c then TrimLeftFunc f s' else s
  | "" => ""
  end.

Fixpoint TrimRightFunc (f : ascii → bool) (s : string) : string :=
  match s with
  | "" => ""
  | String c s' =>
      match TrimRightFunc f s' with
      | "" => if f c then "" else String c ""
      | r => String c r
      end
  end.

Definition TrimSpace (s : string) : string :=
  TrimRightFunc is_space (TrimLeftFunc is_space s).

(** [strings.Fields]: the maximal runs of non-space bytes. *)
Fixpoint Fields_aux (acc s : string) : list string :=
  match s with
  | "" => if is_empty acc then [] else [acc]
  | String c s' =>
      if is_space c
      then (if is_empty acc then [] else [acc]) ++ Fields_aux "" s'
      else Fields_aux (acc +:+ String c "") s'
  end.
Definition Fields (s : string) : list string := Fields_aux "" s.

(** [strings.Split] for a one-byte separator: never empty. *)
Fixpoint Split (s : string) (sep : ascii) : list string :=
  match s with
  | "" => [""]
  | String c s' =>
      if Ascii.eqb c sep then "" :: Split s' sep
      else match Split s' sep with
           | w :: ws => String c w :: ws
           | [] => [String c ""]
           end
  end.

Fixpoint Join (l : list string) (sep : string) : string :=
  match l with
  | [] => ""
  | [x] => x
  | x :: l' => x +:+ sep +:+ Join l' sep
  end.

(** [strings.ReplaceAll] for a one-byte [old]. *)
Fixpoint ReplaceAll (s : string) (old : ascii) (new : string) : string :=
  match s with
  | "" => ""
  | String c s' =>
      if Ascii.eqb c old then new +:+ ReplaceAll s' old new
      else String c (ReplaceAll s' old new)
  end.

Definition lower (c : ascii) : ascii :=
  let n := nat_of_ascii c in
  if ((65 <=? n) && (n <=? 90))%nat then ascii_of_nat (n + 32) else c.

Fixpoint ToLower (s : string) : string :=
  match s with "" => "" | String c s' => String (lower c) (ToLower s') end.

(** ** Decimal numbers *)

Definition Itoa (z : Z) : string := NilZero.string_of_int (Z.to_int z).

Definition digit (c : ascii) : option Z :=
  let n := nat_of_ascii c in
  if ((48 <=? n) && (n <=? 57))%nat then Some (Z.of_nat n - 48)%Z else None.

(** Horner's rule, [None] on the first byte that is not a digit. *)
Fixpoint digits_val (acc : Z) (s : string) : option Z :=
  match s with
  | "" => Some acc
  | String c s' =>
      match digit c with
      | Some d => digits_val (10 * acc + d)%Z s'
      | None => None
      end
  end.

Definition MaxInt64 : Z := 9223372036854775807.
Definition MinInt64 : Z := -9223372036854775808.

(** The unsigned part: at least one digit. *)
Definition udigits (s : string) : option Z :=
  if is_empty s then None else digits_val 0 s.

Lemma digits_val_nonneg acc s v : (0 ≤ acc)%Z → digits_val acc s = Some v → (0 ≤ v)%Z.
Proof.
  revert acc. induction s as [|c s IH]; intros acc Ha; cbn; [congruence|].
  unfold digit. destruct (_ && _)%nat eqn:E; [|done]. intros Hv. eapply IH; [|exact Hv].
  apply andb_true_iff in E as [E _]. apply Nat.leb_le in E. lia.
Qed.

(** [strconv.ParseInt(s, 10, 64)]: the value Go returns and whether [err] is
    nil (a value out of range is clamped, a syntax error gives 0). *)
Definition ParseInt (s : string) : Z * bool :=
  let '(neg, body) :=
    match s with
    | String "-" r => (true, r)
    | String "+" r => (false, r)
    | _ => (false, s)
    end in
  match udigits body with
  | None => (0%Z, false)
  | Some v =>
      let v := if neg : bool then (- v)%Z else v in
      if (MaxInt64 <? v)%Z then (MaxInt64, false)
      else if (v <? MinInt64)%Z then (MinInt64, false) else (v, true)
  end.

Definition Atoi (s : string) : option Z :=
  let '(v, ok) := ParseInt s in if ok : bool then Some v else None.

(** ** Paths: [filepath.Base] of a relative or absolute name, [filepath.Ext] *)

Definition Base (p : string) : string :=
  match TrimRightFunc (fun c => Ascii.eqb c "/") p with
  | "" => if is_empty p then "." else "/"
  | q => match LastIndexByte q "/" with
         | Some i => sdrop (S i) q
         | None => q
         end
  end.

(** [filepath.Ext]: from the last dot of the last path element. *)
Definition Ext (p : string) : string :=
  let last := match LastIndexByte p "/" with Some i => sdrop (S i) p | None => p end in
  match LastIndexByte last "." with Some i => sdrop i last | None => "" end.

(** ** Lemmas shared by the components *)

Lemma append_cons c s t : String c s +:+ t = String c (s +:+ t).
Proof. done. Qed.
Lemma append_nil s : "" +:+ s = s.
Proof. done. Qed.
#[export] Hint Rewrite append_cons append_nil : cube_str.

(** Induction on a string that is the head of an append. *)
Ltac str_ind s :=
  induction s as [|?c s ?IH]; intros; autorewrite with cube_str; cbn;
  repeat match goal with H : _ = _ |- _ => rewrite H end; try done.

Lemma app_assoc_str (a b c : string) : (a +:+ b) +:+ c = a +:+ (b +:+ c).
Proof. str_ind a. Qed.

Lemma app_nil_r_str (a : string) : a +:+ "" = a.
Proof. str_ind a. Qed.

Lemma prefix_app (p s : string) : String.prefix p (p +:+ s) = true.
Proof.
  induction p as [|c p IH]; [by destruct s|]. rewrite append_cons. cbn.
  destruct (ascii_dec c c); [done|congruence].
Qed.

Lemma HasPrefix_app p s : HasPrefix (p +:+ s) p = true.
Proof. apply prefix_app. Qed.

Lemma sdrop_app p s : sdrop (String.length p) (p +:+ s) = s.
Proof. str_ind p. Qed.

Lemma TrimPrefix_app p s : TrimPrefix (p +:+ s) p = s.
Proof. unfold TrimPrefix. by rewrite HasPrefix_app, sdrop_app. Qed.

Lemma Index_prefix s sub : HasPrefix s sub = true → Index s sub = Some 0%nat.
Proof. destruct s; cbn; by intros ->. Qed.

Lemma length_app_str (a b : string) :
  String.length (a +:+ b) = (String.length a + String.length b)%nat.
Proof. str_ind a. Qed.

Lemma stake_app a s : stake (String.length a) (a +:+ s) = a.
Proof. str_ind a. Qed.

Lemma HasSuffix_app a s : HasSuffix (a +:+ s) s = true.
Proof.
  unfold HasSuffix. rewrite length_app_str.
  replace (String.length a + String.length s - String.length s)%nat with (String.length a) by lia.
  rewrite sdrop_app, String.eqb_refl, andb_true_r. apply Nat.leb_le. lia.
Qed.

Lemma TrimSuffix_app a s : TrimSuffix (a +:+ s) s = a.
Proof.
  unfold TrimSuffix. rewrite HasSuffix_app, length_app_str.
  replace (String.length a + String.length s - String.length s)%nat with (String.length a) by lia.
  apply stake_app.
Qed.

(** Splitting what [Join] put together gives the parts back. *)
Definition free_of (sep : ascii) (s : string) : Prop :=
  LastIndexByte s sep = None.

Lemma free_of_cons sep c s :
  free_of sep (String c s) ↔ c ≠ sep ∧ free_of sep s.
Proof.
  unfold free_of; cbn. destruct (LastIndexByte s sep); [naive_solver|].
  destruct (Ascii.eqb_spec c sep); naive_solver.
Qed.

Lemma free_of_app sep a b : free_of sep (a +:+ b) ↔ free_of sep a ∧ free_of sep b.
Proof.
  induction a as [|c a IH]; [by autorewrite with cube_str; split; [|intros []]|].
  autorewrite with cube_str. rewrite !free_of_cons, IH. tauto.
Qed.

Lemma Split_free sep s : free_of sep s → Split s sep = [s].
Proof.
  induction s as [|c s IH]; [done|]. intros [Hc Hs]%free_of_cons. cbn.
  destruct (Ascii.eqb_spec c sep); [done|]. by rewrite (IH Hs).
Qed.

Lemma Split_app sep s r :
  free_of sep s → Split (s +:+ String sep r) sep = s :: Split r sep.
Proof.
  induction s as [|c s IH]; autorewrite with cube_str; cbn.
  - intros _. by rewrite Ascii.eqb_refl.
  - intros [Hc Hs]%free_of_cons. destruct (Ascii.eqb_spec c sep); [done|].
    by rewrite (IH Hs).
Qed.

Lemma Split_Join sep l :
  l ≠ [] → Forall (free_of sep) l → Split (Join l (String sep "")) sep = l.
Proof.
  intros Hne Hl. induction Hl as [|x l Hx Hl IH]; [done|].
  destruct l as [|y l]; [by apply Split_free|].
  cbn [Join]. change (String sep "" +:+ ?r) with (String sep r).
  rewrite Split_app by done. f_equal. by apply IH.
Qed.

(** ** Printing a number and reading it back *)

(** Evaluate the value of a digit that is known. *)
Ltac eval_digit :=
  match goal with |- context [digit ?c] =>
    let v := eval vm_compute in (digit c) in change (digit c) with v; cbn iota end.

Lemma digits_val_acc u p :
  digits_val (Zpos p) (NilEmpty.string_of_uint u) = Some (Zpos (Pos.of_uint_acc u p)).
Proof.
  revert p. induction u; intros p; cbn -[Pos.mul Pos.add Z.mul Z.add]; [done|..]; eval_digit;
    (match goal with |- digits_val ?a _ = Some (Zpos (Pos.of_uint_acc _ ?q)) =>
       replace a with (Zpos q) by lia end; apply IHu).
Qed.

Lemma digits_val_uint u :
  digits_val 0 (NilEmpty.string_of_uint u) = Some (Z.of_N (Pos.of_uint u)).
Proof.
  induction u; cbn -[Z.mul Z.add]; [done|eval_digit; exact IHu|..]; eval_digit;
    apply digits_val_acc.
Qed.

Lemma udigits_Itoa z : (0 ≤ z)%Z → udigits (Itoa z) = Some z.
Proof.
  intros Hz. destruct z as [|p|p]; [done| |lia]. unfold udigits, Itoa. cbn [Z.to_int NilZero.string_of_int].
  pose proof (DecimalPos.Unsigned.to_uint_nonnil p) as Hn.
  assert (NilZero.string_of_uint (Pos.to_uint p) = NilEmpty.string_of_uint (Pos.to_uint p)) as ->
    by (by destruct (Pos.to_uint p)).
  assert (is_empty (NilEmpty.string_of_uint (Pos.to_uint p)) = false) as ->
    by (by destruct (Pos.to_uint p)).
  by rewrite digits_val_uint, DecimalPos.Unsigned.of_to.
Qed.

(** The first byte of a printed non-negative number is a digit. *)
Lemma Itoa_head z : (0 ≤ z)%Z → ∃ c s d, Itoa z = String c s ∧ digit c = Some d.
Proof.
  intros Hz. pose proof (udigits_Itoa z Hz) as H. unfold udigits in H.
  destruct (Itoa z) as [|c s]; [done|]. cbn in H. destruct (digit c) as [d|] eqn:E; [|done].
  by exists c, s, d.
Qed.

Lemma digits_val_free sep s acc v :
  digit sep = None → digits_val acc s = Some v → free_of sep s.
Proof.
  intros Hs. revert acc. induction s as [|c s IH]; intros acc; [done|]. cbn.
  destruct (digit c) as [d|] eqn:E; [|done]. intros Hv. apply free_of_cons.
  split; [congruence|by eapply IH].
Qed.

Lemma Itoa_free sep z : digit sep = None → (0 ≤ z)%Z → free_of sep (Itoa z).
Proof.
  intros Hs Hz. pose proof (udigits_Itoa z Hz) as H. unfold udigits in H.
  case_match; [done|]. by eapply digits_val_free.
Qed.

Lemma Atoi_Itoa z : (0 ≤ z ≤ MaxInt64)%Z → Atoi (Itoa z) = Some z.
Proof.
  intros Hz. destruct (Itoa_head z) as (c & s & d & Hs & Hd); [lia|].
  pose proof (udigits_Itoa z ltac:(lia)) as Hu. rewrite Hs in Hu.
  unfold Atoi, ParseInt. rewrite Hs.
  assert (c ≠ "-"%char ∧ c ≠ "+"%char) as [H1 H2] by (split; intros ->; discriminate Hd).
  assert ((match String c s with String "-" r => (true, r) | String "+" r => (false, r)
           | _ => (false, String c s) end) = (false, String c s)) as ->
    by (destruct c as [[] [] [] [] [] [] [] []]; try reflexivity; by (destruct H1 || destruct H2)).
  rewrite Hu. unfold MinInt64, MaxInt64 in *.
  rewrite (proj2 (Z.ltb_ge _ _)), (proj2 (Z.ltb_ge _ _)) by lia. done.
Qed.

Lemma LastIndexByte_app sep a b :
  free_of sep b → LastIndexByte (a +:+ String sep b) sep = Some (String.length a).
Proof.
  intros Hb. induction a as [|c a IH]; autorewrite with cube_str; cbn.
  - unfold free_of in Hb. by rewrite Hb, Ascii.eqb_refl.
  - by rewrite IH.
Qed.

Lemma sdrop_S_app a c b : sdrop (S (String.length a)) (a +:+ String c b) = b.
Proof. str_ind a. Qed.

(** ** Formatting *)

(** ** Texts without spaces *)

Fixpoint no_space (s : string) : bool :=
  match s with "" => true | String c s => negb (is_space c) && no_space s end.

Lemma no_space_app a b : no_space (a +:+ b) = no_space a && no_space b.
Proof. induction a as [|c a IH]; [done|]. rewrite append_cons. cbn. by rewrite IH, andb_assoc. Qed.

Lemma no_space_trim s : no_space s = true → TrimSpace s = s.
Proof.
  intros H. unfold TrimSpace. assert (TrimLeftFunc is_space s = s) as ->.
  { destruct s as [|c s]; [done|]. cbn in *. apply andb_true_iff in H as [Hc _]. apply negb_true_iff in Hc. by rewrite Hc. }
  induction s as [|c s IH]; [done|]. cbn in *. apply andb_true_iff in H as [Hc H]. apply negb_true_iff in Hc.
  rewrite (IH H), Hc. by destruct s.
Qed.

Definition quote_char : ascii := "034"%char.

(** [%q] of a string of printable ASCII characters. *)
Fixpoint escape (s : string) : string :=
  match s with
  | "" => ""
  | String c s' =>
      if Ascii.eqb c quote_char || Ascii.eqb c "\"%char
      then String "\" (String c (escape s')) else String c (escape s')
  end.
Definition Quote (s : string) : string :=
  String quote_char (escape s +:+ String quote_char "").

(** Source text that holds double quotes is written here with [@] for each of
    them. *)
Definition dq (s : string) : string := ReplaceAll s "@" (String quote_char "").

(** [strings.EqualFold], on ASCII. *)
Definition EqualFold (a b : string) : bool := (ToLower a =? ToLower b)%string.

(** [filepath.Clean] on the elements of a path. *)
Fixpoint clean_elems (rooted : bool) (acc : list string) (l : list string) : list string :=
  match l with
  | [] => rev acc
  | e :: l' =>
      if is_empty e || (e =? ".")%string then clean_elems rooted acc l'
      else if (e =? "..")%string then
        match acc with
        | a :: acc' =>
            if (a =? "..")%string then clean_elems rooted (e :: acc) l'
            else clean_elems rooted acc' l'
        | [] => if rooted then clean_elems rooted acc l' else clean_elems rooted [e] l'
        end
      else clean_elems rooted (e :: acc) l'
  end.

Definition Clean (p : string) : string :=
  let rooted := HasPrefix p "/" in
  let body := Join (clean_elems rooted [] (Split p "/")) "/" in
  if rooted then "/" +:+ body else if is_empty body then "." else body.

(** [filepath.Join]. *)
Definition PathJoin (elems : list string) : string :=
  match List.filter (fun e => negb (is_empty e)) elems with
  | [] => ""
  | l => Clean (Join l "/")
  end.
