(* ===== verification/Regexp.v ===== *)
(** * Go's regexp package, as far as the driver uses it

    Expressions of literals, classes, starred classes, groups and alternatives,
    matched the way Go does without [Longest]: leftmost, and of the matches that
    start there the one a backtracking search meets first.  Also
    [ReplaceAllString] with its template language. *)
From S2P Require Import Prelude GoStrings.
From Stdlib Require Import Ascii.

Open Scope string_scope.
Open Scope list_scope.
Open Scope nat_scope.

Inductive re : Type :=
| RLit (s : string)
| RSet (p : ascii → bool)
| RMany (p : ascii → bool) (greedy : bool)
| RSeq (a b : re)
| RAlt (a b : re)
| RGroup (n : nat) (r : re)
| RBol.                                  (* [^] under (?m) *)

Definition is_nl (c : ascii) : bool := Ascii.eqb c "010".
(** [\s] and [\S]: tab, newline, form feed, return, space. *)
Definition re_space (c : ascii) : bool :=
  let n := nat_of_ascii c in (n =? 9) || (n =? 10) || (n =? 12) || (n =? 13) || (n =? 32).
Definition re_not (p : ascii → bool) (c : ascii) : bool := negb (p c).
Definition RSome (p : ascii → bool) : re := RSeq (RSet p) (RMany p true).

Definition groups := list (nat * string).

Section Match.
Context {X : Type}.

(** [bol]: the text before ends a line. *)
Fixpoint greedy (p : ascii → bool) (k : bool → string → option X) (bol : bool) (s : string) : option X :=
  match s with
  | String c s' =>
      if p c then match greedy p k (is_nl c) s' with Some x => Some x | None => k bol s end
      else k bol s
  | "" => k bol s
  end.

Fixpoint reluctant (p : ascii → bool) (k : bool → string → option X) (bol : bool) (s : string) : option X :=
  match k bol s with
  | Some x => Some x
  | None => match s with String c s' => if p c then reluctant p k (is_nl c) s' else None | "" => None end
  end.

Fixpoint literal (l : string) (k : bool → string → option X) (bol : bool) (s : string) : option X :=
  match l with
  | "" => k bol s
  | String c l =>
      match s with String d s => if Ascii.eqb c d then literal l k (is_nl d) s else None | "" => None end
  end.

Fixpoint mt (r : re) (k : bool → string → groups → option X) (bol : bool) (s : string) (g : groups) : option X :=
  match r with
  | RLit l => literal l (fun b s => k b s g) bol s
  | RSet p => match s with String c s => if p c then k (is_nl c) s g else None | "" => None end
  | RMany p true => greedy p (fun b s => k b s g) bol s
  | RMany p false => reluctant p (fun b s => k b s g) bol s
  | RSeq a b => mt a (mt b k) bol s g
  | RAlt a b => match mt a k bol s g with Some x => Some x | None => mt b k bol s g end
  | RGroup n r => mt r (fun b s' g => k b s' ((n, stake (String.length s - String.length s') s) :: g)) bol s g
  | RBol => if bol then k bol s g else None
  end.

End Match.

Record found : Type := mkFound {
  fd_before : string;
  fd_match : string;
  fd_groups : groups;
  fd_rest : string
}.

(** The leftmost match. *)
Fixpoint search (r : re) (bol : bool) (s : string) : option found :=
  match mt r (fun _ s' g => Some (s', g)) bol s [] with
  | Some (rest, g) => Some (mkFound "" (stake (String.length s - String.length rest) s) g rest)
  | None =>
      match s with
      | "" => None
      | String c s' =>
          match search r (is_nl c) s' with
          | Some f => Some (mkFound (String c f.(fd_before)) f.(fd_match) f.(fd_groups) f.(fd_rest))
          | None => None
          end
      end
  end.

Definition group (n : nat) (g : groups) : string :=
  match find (fun ng => ng.1 =? n) g with Some ng => ng.2 | None => "" end.

Definition FindStringSubmatch (r : re) (s : string) : option groups := fd_groups <$> search r true s.
Definition MatchString (r : re) (s : string) : bool := match search r true s with Some _ => true | None => false end.

Definition ends_line (bol : bool) (m : string) : bool :=
  match String.rev m with String c _ => is_nl c | "" => bol end.

(** One match after the other; none of the driver's expressions matches the
    empty text, so the length of the text bounds their number. *)
Fixpoint find_all (fuel : nat) (r : re) (bol : bool) (s : string) : list groups :=
  match fuel with
  | O => []
  | S fuel =>
      match search r bol s with
      | None => []
      | Some f => f.(fd_groups) :: find_all fuel r (ends_line bol f.(fd_match)) f.(fd_rest)
      end
  end.

Definition FindAllStringSubmatch (r : re) (s : string) : list groups := find_all (S (String.length s)) r true s.

(** ** Templates *)

Definition word_char (c : ascii) : bool :=
  let n := nat_of_ascii c in
  ((48 <=? n) && (n <=? 57) || (65 <=? n) && (n <=? 90) || (97 <=? n) && (n <=? 122) || (n =? 95))%nat.

Fixpoint take_word (s : string) : string * string :=
  match s with
  | String c s' => if word_char c then let '(w, r) := take_word s' in (String c w, r) else ("", s)
  | "" => ("", "")
  end.

(** After a dollar: the name and what follows it. *)
Definition extract (s : string) : option (string * string) :=
  match s with
  | String "{" s =>
      match take_word s with
      | ("", _) => None
      | (w, String "}" r) => Some (w, r)
      | _ => None
      end
  | _ => match take_word s with ("", _) => None | (w, r) => Some (w, r) end
  end.

(** A name that is a number without leading zeros stands for that group; no
    expression of the driver names its groups. *)
Definition name_value (w : string) (g : groups) : string :=
  match digits_val 0 w with
  | Some n => if Prelude.contains ["0"%char] (default "a"%char (String.get 0 w)) && (1 <? String.length w) then ""
              else if (8 <? String.length w) then "" else group (Z.to_nat n) g
  | None => ""
  end.

Fixpoint expand (fuel : nat) (t : string) (g : groups) : string :=
  match fuel with
  | O => t
  | S fuel =>
      match t with
      | "" => ""
      | String "$" (String "$" t) => String "$" (expand fuel t g)
      | String "$" t =>
          match extract t with
          | None => String "$" (expand fuel t g)
          | Some (w, rest) => name_value w g +:+ expand fuel rest g
          end
      | String c t => String c (expand fuel t g)
      end
  end.

Definition Expand (t : string) (g : groups) : string := expand (S (String.length t)) t g.

Fixpoint replace_all (fuel : nat) (r : re) (template : string) (bol : bool) (s : string) : string :=
  match fuel with
  | O => s
  | S fuel =>
      match search r bol s with
      | None => s
      | Some f =>
          f.(fd_before) +:+ Expand template ((0, f.(fd_match)) :: f.(fd_groups))
          +:+ replace_all fuel r template (ends_line bol f.(fd_match)) f.(fd_rest)
      end
  end.

Definition ReplaceAllString (r : re) (s template : string) : string :=
  replace_all (S (String.length s)) r template true s.

(** ** Lemmas: literals, reluctant stars, searching *)

Lemma HasPrefix_split s w : HasPrefix s w = true → ∃ t, s = w +:+ t.
Proof.
  revert s. induction w as [|c w IH]; intros s; [by exists s|]. destruct s as [|d s]; [done|]. cbn.
  unfold HasPrefix in *. cbn. destruct (Ascii.ascii_dec c d) as [->|]; [|done]. intros (t & ->)%IH. by exists t.
Qed.

Lemma literal_app {X} l (k : bool → string → option X) bol s :
  literal l k bol (l +:+ s) = k (fold_left (fun _ c => is_nl c) (String.list_ascii_of_string l) bol) s.
Proof.
  revert bol. induction l as [|c l IH]; intros bol; [done|]. rewrite append_cons. cbn. by rewrite Ascii.eqb_refl, IH.
Qed.

Lemma literal_none {X} l (k : bool → string → option X) bol s : HasPrefix s l = false → literal l k bol s = None.
Proof.
  revert bol s. induction l as [|c l IH]; intros bol s; [by destruct s|]. destruct s as [|d s]; [done|]. cbn.
  unfold HasPrefix in *. cbn. destruct (Ascii.ascii_dec c d) as [->|Hne].
  - rewrite Ascii.eqb_refl. apply IH.
  - intros _. destruct (Ascii.eqb_spec c d); [done|done].
Qed.

(** The first [w] of [pre] followed by [w] is the one that follows. *)
Fixpoint none_before (w pre : string) : bool :=
  match pre with "" => true | String _ pre' => negb (HasPrefix (pre +:+ w) w) && none_before w pre' end.

Lemma HasPrefix_longer a s w : String.length w <= String.length a → HasPrefix (a +:+ s) w = HasPrefix a w.
Proof.
  revert a. unfold HasPrefix. induction w as [|c w IH]; intros a Hl; [by destruct a, s|].
  destruct a as [|d a]; [cbn in Hl; lia|]. rewrite append_cons. cbn in *. destruct (Ascii.ascii_dec c d); [|done]. apply IH. lia.
Qed.

Lemma none_before_cons w c pre t :
  none_before w (String c pre) = true → HasPrefix (String c pre +:+ w +:+ t) w = false ∧ none_before w pre = true.
Proof.
  cbn [none_before]. rewrite andb_true_iff, negb_true_iff. intros [H1 H2]. split; [|done].
  rewrite <- app_assoc_str, HasPrefix_longer; [done|]. rewrite length_app_str. lia.
Qed.

(** A reluctant star goes on exactly to the first place where the rest matches. *)
Lemma reluctant_app {X} p (k : bool → string → option X) w pre t x :
  (∀ b s, HasPrefix s w = false → k b s = None) → (∀ b, k b (w +:+ t) = Some x) →
  forallb p (String.list_ascii_of_string pre) = true → none_before w pre = true →
  ∀ bol, reluctant p k bol (pre +:+ w +:+ t) = Some x.
Proof.
  intros Hno Hyes. induction pre as [|c pre IH]; intros Hp Hn bol.
  - rewrite append_nil. destruct (w +:+ t) eqn:E; cbn; by rewrite Hyes.
  - cbn in Hp. apply andb_true_iff in Hp as [Hc Hp]. destruct (none_before_cons w c pre t Hn) as [Hf Hn'].
    rewrite append_cons in *. cbn [reluctant]. rewrite Hno by done. rewrite Hc. by apply IH.
Qed.

(** An expression that starts with [w] is found at the first [w]. *)
Section Search.
Context (r : re) (w : string).
Context (Hw : ∀ k bol s g, HasPrefix s w = false → mt (X := string * groups) r k bol s g = None).

Lemma search_none bol s : Contains s w = false → search r bol s = None.
Proof using Hw.
  unfold Contains. revert bol. induction s as [|c s IH]; intros bol; cbn [search Index].
  - destruct (HasPrefix "" w) eqn:Ep; [done|]. by rewrite Hw.
  - destruct (HasPrefix (String c s) w) eqn:Ep; [done|]. rewrite Hw by done. destruct (Index s w) eqn:Ei; [done|].
    intros _. by rewrite IH.
Qed.

Lemma search_app pre t rest g :
  none_before w pre = true →
  (∀ bol, mt (X := string * groups) r (fun _ s g => Some (s, g)) bol (w +:+ t) [] = Some (rest, g)) →
  ∀ bol, search r bol (pre +:+ w +:+ t)
    = Some (mkFound pre (stake (String.length (w +:+ t) - String.length rest) (w +:+ t)) g rest).
Proof using Hw.
  intros Hn Hm. induction pre as [|c pre IH]; intros bol.
  - rewrite append_nil. destruct (w +:+ t) eqn:E; cbn [search]; by rewrite Hm.
  - destruct (none_before_cons w c pre t Hn) as [Hf Hn']. rewrite append_cons in *. cbn [search].
    rewrite Hw by done. by rewrite IH.
Qed.

End Search.

(** ** Lemmas: templates *)

Lemma expand_char n c t g : c ≠ "$"%char → expand (S n) (String c t) g = String c (expand n t g).
Proof. intros Hc. destruct c as [[] [] [] [] [] [] [] []]; try done. Qed.

Lemma expand_plain m t g n :
  GoStrings.Contains m "$" = false → expand (String.length m + n) (m +:+ t) g = m +:+ expand n t g.
Proof.
  unfold Contains. induction m as [|c m IH]; [done|]. cbn [Index]. intros Hm.
  destruct (HasPrefix (String c m) "$") eqn:Ep; [done|]. rewrite !append_cons. cbn [String.length Nat.add].
  rewrite expand_char.
  - f_equal. apply IH. by destruct (Index m "$").
  - intros ->. by destruct m.
Qed.
