(* ===== verification/AdvisorSig.v ===== *)
(** * The signature of an advisor bundle (internal/enterprise/advisorsig.go)

    A bundle is a gzipped tar that holds a container image, itself a tar whose
    blobs are the image's layers, tars again.  Every agent release found in a
    layer has to be signed with both halves of the trust key.  The formats and the
    cryptography are Go's standard library and the package circl: what they
    answer are variables of the section. *)
From S2P Require Import Prelude GoStrings.
From Stdlib Require Import Ascii.

Open Scope string_scope.
Open Scope list_scope.

Definition releasesPrefix : string := "srv/advisor/releases/".

(** An [io.Reader]: the bytes it gives before it ends, and the error it ends in
    unless that is [io.EOF]. *)
Record reader : Type := mkReader { rd_data : string; rd_err : option string }.

Inductive typeflag := TypeReg | TypeOther.

#[export] Instance typeflag_eq_dec : EqDecision typeflag.
Proof. solve_decision. Defined.

(** A [tar.Header] with the entry's content. *)
Record tar_entry : Type := mkTarEntry { te_Name : string; te_Typeflag : typeflag; te_body : reader }.

(** [path.Split] *)
Definition path_Split (p : string) : string * string :=
  match LastIndexByte p "/"%char with
  | Some i => (stake (S i) p, sdrop (S i) p)
  | None => ("", p)
  end.

(** The release and the name of a file that lies directly in a release's
    directory. *)
Definition release_file (lh : tar_entry) : option (string * string) :=
  let name := TrimPrefix lh.(te_Name) "./" in
  if negb (HasPrefix name releasesPrefix) then None
  else
    let '(dir, file) := path_Split (TrimPrefix name releasesPrefix) in
    let v := TrimSuffix dir "/" in
    if is_empty v || Contains v "/" || is_empty file || negb (bool_decide (lh.(te_Typeflag) = TypeReg))
    then None else Some (v, file).

Notation releases := (gmap string (gmap string string)).

(** One layer, up to where it stops being a tar. *)
Fixpoint scan_layer (l : list tar_entry) (out : releases) : result releases :=
  match l with
  | [] => Ok out
  | lh :: l' =>
      match release_file lh with
      | None => scan_layer l' out
      | Some (v, file) =>
          let fs := default ∅ (out !! v) in
          if negb (HasPrefix file "manifest.txt") then scan_layer l' (<[v := fs]> out)
          else match lh.(te_body).(rd_err) with
               | Some e => Err e
               | None => scan_layer l' (<[v := <[file := lh.(te_body).(rd_data)]> fs]> out)
               end
      end
  end.

Definition is_blob (h : tar_entry) : bool :=
  HasPrefix h.(te_Name) "blobs/" && bool_decide (h.(te_Typeflag) = TypeReg).

(** [x509.ParsePKIXPublicKey]'s results, as far as they are told apart. *)
Inductive pkix (EC : Type) : Type := PkixP384 (k : EC) | PkixOther.
Arguments PkixP384 {EC} k.
Arguments PkixOther {EC}.

Section Bundle.
Context {EC ML : Type}.

(** What [tar.Reader.Next] gives, call by call: the entries, and the error that ends
    them unless it is [io.EOF]. *)
Variable untar : reader → list tar_entry * option string.
(** [gzip.NewReader] *)
Variable gunzip : reader → result reader.
Variable os_Open : string → result reader.
(** [pem.Decode]: the bytes of the first block. *)
Variable pem_Decode : string → option string.
Variable ParsePKIXPublicKey : string → result (pkix EC).
(** [asn1.Unmarshal] of a SubjectPublicKeyInfo: the algorithm, the key and the rest. *)
Variable asn1_Unmarshal : string → result (list Z * string * string).
Variable UnmarshalBinary : string → result ML.
Variable Sum384 : string → string.
Variable VerifyASN1 : EC → string → string → bool.
Variable mldsa87_Verify : ML → string → string → bool.

Fixpoint scan_image (l : list tar_entry) (err : option string) (out : releases) : result releases :=
  match l with
  | [] => match err with None => Ok out | Some e => Err e end
  | h :: l' =>
      if negb (is_blob h) then scan_image l' err out
      else let? out := scan_layer (untar h.(te_body)).1 out in scan_image l' err out
  end.

Definition scanImage (img : reader) : result releases :=
  let '(l, err) := untar img in scan_image l err ∅.

Fixpoint find_image (l : list tar_entry) (err : option string) : result tar_entry :=
  match l with
  | [] => Err (default "advisor bundle has no cube-advisor-api.tar" err)
  | h :: l' => if (h.(te_Name) =? "cube-advisor-api.tar")%string then Ok h else find_image l' err
  end.

Definition readBundleReleases (pigzPath : string) : result releases :=
  let? f := os_Open pigzPath in
  let? zr := gunzip f in
  let '(l, err) := untar zr in
  let? h := find_image l err in
  scanImage h.(te_body).

Definition mldsa87_oid : list Z := [2; 16; 840; 1; 101; 3; 4; 3; 19]%Z.

Definition parseTrustKey (k : string * string) : result (EC * ML) :=
  match pem_Decode k.1 with
  | None => Err "advisor trust key: bad P-384 PEM"
  | Some b =>
      let? pub := ParsePKIXPublicKey b in
      match pub with
      | PkixOther => Err "advisor trust key: not an ECDSA P-384 key"
      | PkixP384 ec =>
          match pem_Decode k.2 with
          | None => Err "advisor trust key: bad ML-DSA-87 PEM"
          | Some mb =>
              let? spki := asn1_Unmarshal mb in
              let '(oid, key, rest) := spki in
              if negb (is_empty rest) then Err "advisor trust key: trailing data after ML-DSA-87 key"
              else if negb (bool_decide (oid = mldsa87_oid)) then Err "advisor trust key: not an ML-DSA-87 key"
              else let? ml := UnmarshalBinary key in Ok (ec, ml)
          end
      end
  end.

(** One release: its manifest and both signatures. *)
Definition check_release (ecPub : EC) (mlPub : ML) (rels : releases) (v : string) : result unit :=
  let f := default ∅ (rels !! v) in
  match f !! "manifest.txt" with
  | None => Err ("release " +:+ v +:+ ": no manifest.txt")
  | Some msg =>
  match f !! "manifest.txt.sig" with
  | None => Err ("release " +:+ v +:+ ": no manifest.txt.sig")
  | Some ecSig =>
  match f !! "manifest.txt.mldsa87.sig" with
  | None => Err ("release " +:+ v +:+ ": no manifest.txt.mldsa87.sig")
  | Some mlSig =>
      if negb (VerifyASN1 ecPub (Sum384 msg) ecSig) then
        Err ("release " +:+ v +:+ ": ECDSA signature does not verify against this CubeCOS release's advisor key")
      else if negb (mldsa87_Verify mlPub msg mlSig) then
        Err ("release " +:+ v +:+ ": ML-DSA-87 signature does not verify against this CubeCOS release's advisor key")
      else Ok tt
  end end end.

Definition VerifyAdvisorBundle (pigzPath : string) (key : string * string) : result (list string) :=
  let? pubs := parseTrustKey key in
  let? rels := readBundleReleases pigzPath in
  let vs := SortStrings (map_to_list rels).*1 in
  if bool_decide (rels = ∅) then Err "no signed agent release found in the advisor bundle"
  else
    let? _ := first_err (check_release pubs.1 pubs.2 rels) vs in
    Ok vs.

(** ** The files of a bundle, without the walk *)

(** The image a bundle holds. *)
Definition bundle_image (pigzPath : string) : result reader :=
  let? f := os_Open pigzPath in
  let? zr := gunzip f in
  let? h := find_image (untar zr).1 (untar zr).2 in
  Ok h.(te_body).

(** A release's file: the release, its name, its content. *)
Definition layer_files (l : list tar_entry) : list (string * string * reader) :=
  omap (fun lh => (fun vf => (vf, lh.(te_body))) <$> release_file lh) l.

(** The files of all releases in what is read of the layers, in the order they are
    read. *)
Definition release_files (img : reader) : list (string * string * reader) :=
  mbind (fun h => if is_blob h then layer_files (untar h.(te_body)).1 else []) (untar img).1.

Definition is_manifest (file : string) : bool := HasPrefix file "manifest.txt".

(** The last content of a release's file. *)
Definition content (v file : string) (fs : list (string * string * reader)) : option string :=
  last (omap (fun x => if bool_decide (x.1 = (v, file)) then Some x.2.(rd_data) else None) fs).

Definition readable (x : string * string * reader) : Prop :=
  is_manifest x.1.2 = true → x.2.(rd_err) = None.

(** The image and the manifests in it can be read to their ends. *)
Definition intact (img : reader) : Prop :=
  (untar img).2 = None ∧ Forall readable (release_files img).

Definition signed (pubs : EC * ML) (fs : list (string * string * reader)) (v : string) : Prop :=
  ∃ msg ecSig mlSig,
    content v "manifest.txt" fs = Some msg
    ∧ content v "manifest.txt.sig" fs = Some ecSig
    ∧ content v "manifest.txt.mldsa87.sig" fs = Some mlSig
    ∧ VerifyASN1 pubs.1 (Sum384 msg) ecSig = true
    ∧ mldsa87_Verify pubs.2 msg mlSig = true.

Definition collect (out : releases) (x : string * string * reader) : releases :=
  let fs := default ∅ (out !! x.1.1) in
  <[x.1.1 := if is_manifest x.1.2 then <[x.1.2 := x.2.(rd_data)]> fs else fs]> out.

(** ** The walk gathers those files *)

Lemma scan_layer_record l out out' :
  scan_layer l out = Ok out' ↔ Forall readable (layer_files l) ∧ out' = foldl collect out (layer_files l).
Proof.
  revert out. induction l as [|lh l IH]; intros out; cbn; [naive_solver|].
  unfold layer_files in *. cbn [omap list_omap].
  destruct (release_file lh) as [[v file]|]; cbn [fmap option_fmap option_map]; [|apply IH].
  rewrite Forall_cons. cbn [foldl]. unfold readable at 1, collect at 2, is_manifest. cbn [fst snd].
  destruct (HasPrefix file "manifest.txt"); cbn [negb]; [|rewrite IH; naive_solver].
  destruct (rd_err (te_body lh)) as [e|]; [|rewrite IH; naive_solver].
  split; [done|]. intros [[H _] _]. discriminate (H eq_refl).
Qed.

Lemma scan_image_record l err out out' :
  let fs := mbind (fun h => if is_blob h then layer_files (untar h.(te_body)).1 else []) l in
  scan_image l err out = Ok out' ↔ err = None ∧ Forall readable fs ∧ out' = foldl collect out fs.
Proof.
  cbn zeta. revert out. induction l as [|h l IH]; intros out; cbn.
  { destruct err; naive_solver. }
  destruct (is_blob h); cbn [negb]; [|apply IH].
  rewrite result_bind_Ok, Forall_app, foldl_app. setoid_rewrite scan_layer_record.
  setoid_rewrite IH. naive_solver.
Qed.

Lemma scanImage_record img out :
  scanImage img = Ok out ↔ intact img ∧ out = foldl collect ∅ (release_files img).
Proof.
  unfold scanImage, intact, release_files. destruct (untar img) as [l err]. cbn [fst snd].
  rewrite scan_image_record. naive_solver.
Qed.

Lemma content_snoc v file fs x :
  content v file (fs ++ [x]) = if bool_decide (x.1 = (v, file)) then Some x.2.(rd_data) else content v file fs.
Proof.
  unfold content. rewrite omap_app. cbn. case_bool_decide; cbn; [by rewrite last_snoc|by rewrite app_nil_r].
Qed.

Lemma record_snoc fs v f r :
  let out := foldl collect ∅ fs in
  foldl collect ∅ (fs ++ [(v, f, r)])
  = <[v := if is_manifest f then <[f := r.(rd_data)]> (default ∅ (out !! v)) else default ∅ (out !! v)]> out.
Proof. cbn zeta. by rewrite foldl_app. Qed.

Lemma recorded_keys fs v : is_Some (foldl collect ∅ fs !! v) ↔ v ∈ (fs.*1).*1.
Proof.
  induction fs as [|x fs IH] using rev_ind.
  { cbn. split; [by intros [? ?%lookup_empty_Some]|by intros ?%elem_of_nil]. }
  rewrite !fmap_app, elem_of_app, <- IH.
  destruct x as [[w f] r]. rewrite record_snoc, lookup_insert_is_Some. cbn. rewrite list_elem_of_singleton.
  destruct (decide (w = v)); naive_solver.
Qed.

Lemma recorded_content fs v file :
  is_manifest file = true →
  default ∅ (foldl collect ∅ fs !! v) !! file = content v file fs.
Proof.
  intros Hf. induction fs as [|[[w f] r] fs IH] using rev_ind; [done|].
  rewrite record_snoc, content_snoc. cbn [fst snd].
  destruct (decide (w = v)) as [->|Hw].
  - rewrite lookup_insert_eq. cbn [default from_option id]. unfold id at 1.
    destruct (decide (f = file)) as [->|Hne].
    + rewrite Hf, lookup_insert_eq, bool_decide_eq_true_2; done.
    + rewrite bool_decide_eq_false_2 by congruence.
      destruct (is_manifest f); [rewrite lookup_insert_ne by done|]; done.
  - rewrite lookup_insert_ne, bool_decide_eq_false_2 by congruence. done.
Qed.

(** ** What a verified bundle is *)

Lemma check_release_Ok pubs rels fs v :
  rels = foldl collect ∅ fs →
  check_release pubs.1 pubs.2 rels v = Ok tt ↔ signed pubs fs v.
Proof.
  intros ->. unfold check_release, signed. rewrite !recorded_content by done. split.
  - intros H. go_cases. do 3 eexists. split_and!; try done; by apply negb_false_iff.
  - intros (msg & s1 & s2 & -> & -> & -> & -> & ->). done.
Qed.

Lemma readBundleReleases_image path :
  readBundleReleases path = (let? img := bundle_image path in scanImage img).
Proof.
  unfold readBundleReleases, bundle_image. destruct (os_Open path) as [f|]; cbn; [|done].
  destruct (gunzip f) as [zr|]; cbn; [|done]. destruct (untar zr) as [l err]. cbn.
  by destruct (find_image l err).
Qed.

(** The releases of a bundle, named in a list. *)
Definition names_releases (vs : list string) (fs : list (string * string * reader)) : Prop :=
  StronglySorted string_le vs ∧ NoDup vs ∧ ∀ v, v ∈ vs ↔ v ∈ (fs.*1).*1.

Lemma sorted_keys fs : names_releases (SortStrings (map_to_list (foldl collect ∅ fs)).*1) fs.
Proof.
  split_and!; [apply SortStrings_sorted| |].
  - rewrite SortStrings_perm. apply NoDup_fst_map_to_list.
  - intros v. rewrite SortStrings_perm, <- recorded_keys, list_elem_of_fmap. split.
    + intros ([w m] & -> & Hm%elem_of_map_to_list). by exists m.
    + intros [m Hm]. exists (v, m). by rewrite elem_of_map_to_list.
Qed.

Lemma names_releases_unique vs vs' fs : names_releases vs fs → names_releases vs' fs → vs = vs'.
Proof.
  intros (S1 & N1 & E1) (S2 & N2 & E2). apply (StronglySorted_unique_strong string_le); [|done..|].
  { intros a b _ _. apply String.leb_antisym. }
  apply NoDup_Permutation; [done..|]. intros v. by rewrite E1, E2.
Qed.

(** C32. A bundle passes exactly when its trust key parses, its image and the
    manifests read in it come to their ends, and every release with a file in what
    is read of the layers has a manifest that both the P-384 and the ML-DSA-87 key
    signed; there is at least one, and the releases are named in order.  A layer is
    read up to where it stops being a tar, so what a broken or compressed layer holds
    beyond that is not covered, which is a finding (broken_layer_passes).  The
    manifest that counts is the last one read. *)
Theorem bundle_verified path key vs :
  VerifyAdvisorBundle path key = Ok vs ↔
  ∃ pubs img,
    parseTrustKey key = Ok pubs ∧ bundle_image path = Ok img ∧ intact img
    ∧ vs ≠ [] ∧ names_releases vs (release_files img)
    ∧ Forall (signed pubs (release_files img)) vs.
Proof.
  unfold VerifyAdvisorBundle. rewrite result_bind_Ok. setoid_rewrite readBundleReleases_image.
  setoid_rewrite (result_bind_Ok (result_bind (bundle_image path) scanImage)).
  setoid_rewrite (result_bind_Ok (bundle_image path)). setoid_rewrite scanImage_record.
  assert (∀ pubs fs, first_err (check_release pubs.1 pubs.2 (foldl collect ∅ fs))
      (SortStrings (map_to_list (foldl collect ∅ fs)).*1) = Ok tt
    ↔ Forall (signed pubs fs) (SortStrings (map_to_list (foldl collect ∅ fs)).*1)) as Hc.
  { intros pubs fs. rewrite first_err_Ok. by apply Forall_iff; intros v; apply check_release_Ok. }
  split.
  - intros (pubs & Hk & rels & (img & Hi & Hin & ->) & H). exists pubs, img.
    case_bool_decide as He; [done|]. apply result_bind_Ok in H as ([] & H%Hc & [= <-]).
    do 3 (split; [done|]). split; [|split; [apply sorted_keys|done]].
    intros Hn%(f_equal length). rewrite SortStrings_perm, length_fmap in Hn.
    by apply nil_length_inv, map_to_list_empty_iff in Hn.
  - intros (pubs & img & Hk & Hi & Hin & Hne & Hn & Hs).
    pose proof (names_releases_unique _ _ _ Hn (sorted_keys _)) as ->.
    exists pubs. split; [done|]. eexists. split; [by eauto|].
    rewrite bool_decide_eq_false_2.
    + apply result_bind_Ok. exists tt. split; [by apply Hc|done].
    + intros He. apply Hne. by rewrite He.
Qed.
End Bundle.

(** ** A bundle *)

(** Toy formats: a reader's bytes name what is in it; a signature is the key with the
    message. *)
Module Demo.
Definition rd (s : string) : reader := mkReader s None.
Definition file (n s : string) : tar_entry := mkTarEntry n TypeReg (rd s).
Definition rel (v f : string) : string := "./srv/advisor/releases/" +:+ v +:+ "/" +:+ f.
Definition bundled (v msg sig : string) : list tar_entry :=
  [file (rel v "agent") "elf"; file (rel v "manifest.txt") msg;
   file (rel v "manifest.txt.sig") ("ec:" +:+ sig); file (rel v "manifest.txt.mldsa87.sig") ("ml:" +:+ sig)].

Definition untar (r : reader) : list tar_entry * option string :=
  if (r.(rd_data) =? "bundle")%string then ([file "VERSION" "1"; file "cube-advisor-api.tar" "image"], None)
  else if (r.(rd_data) =? "broken bundle")%string then ([file "cube-advisor-api.tar" "broken image"], None)
  else if (r.(rd_data) =? "image")%string then
    ([file "index.json" "{}"; file "blobs/sha256/aa" "layer 1"; file "blobs/sha256/bb" "{}"; file "blobs/sha256/cc" "layer 2"], None)
  else if (r.(rd_data) =? "broken image")%string then
    ([file "blobs/sha256/aa" "layer 1"; file "blobs/sha256/dd" "layer 3"], None)
  else if (r.(rd_data) =? "layer 1")%string then (bundled "1.2.0" "m12" "m12", None)
  else if (r.(rd_data) =? "layer 2")%string then
    (file (rel "1.0.0/lib" "x.so") "so" :: bundled "1.0.0" "m10" "m10", None)
  else if (r.(rd_data) =? "layer 3")%string then ([file "etc/passwd" ""], Some "unexpected EOF")
  else ([], Some "not a tar").

Definition gunzip (r : reader) : result reader := Ok r.
Definition OpenFile (p : string) : result reader :=
  if HasSuffix p ".pigz" then Ok (rd (TrimSuffix p ".pigz")) else Err "no such file".
Definition asn1 (b : string) : result (list Z * string * string) := Ok (mldsa87_oid, b, "").
Definition verify (k m s : string) : bool := (s =? k +:+ m)%string.
Definition VerifyBundle (p : string) : result (list string) :=
  VerifyAdvisorBundle untar gunzip OpenFile Some (fun b => Ok (PkixP384 b)) asn1 Ok (fun m => m) verify verify p ("ec:", "ml:").

Example signed_bundle : VerifyBundle "bundle.pigz" = Ok ["1.0.0"; "1.2.0"].
Proof. vm_compute. reflexivity. Qed.

(** A layer that breaks off is taken as read to its end: what it held of
    releases is not checked. *)
Example broken_layer_passes : VerifyBundle "broken bundle.pigz" = Ok ["1.2.0"].
Proof. vm_compute. reflexivity. Qed.
End Demo.
