(* ===== verification/Pxe.v ===== *)
(** * The PXE server's boot menu (internal/pxe pxe.go, flipper.go)

    The text of grub.cfg and what the driver reads from it and rewrites in it,
    and the flip of a deploy or an inspect: arm an entry under the advisory lock,
    undo it after the nodes have booted.  A double quote of the menu's text is
    written with [dq]. *)
From S2P Require Import Prelude GoStrings Regexp.
From Stdlib Require Import Ascii.

Open Scope string_scope.
Open Scope list_scope.
Open Scope Z_scope.

Record Entry : Type := mkEntry { en_Name : string; en_Default : bool }.

Definition nl : ascii := "010".
Definition nls : string := String nl "".
Definition dquote : ascii := "034".
Definition one_char (c : ascii) : ascii → bool := fun d => Ascii.eqb c d.
Definition spaces0 : re := RMany re_space true.
Definition spaces1 : re := RSome re_space.

Definition reMenu : re :=
  RSeq RBol (RSeq spaces0 (RSeq (RLit "menuentry") (RSeq spaces1
    (RSeq (RLit "'") (RSeq (RGroup 1 (RSome (re_not (one_char "'")))) (RLit "'")))))).

Definition reDefault : re :=
  RSeq RBol (RSeq spaces0 (RSeq (RLit "set") (RSeq spaces1 (RSeq (RLit "default=")
    (RAlt (RSeq (RLit "'") (RSeq (RGroup 1 (RMany (re_not (one_char "'")) true)) (RLit "'")))
    (RAlt (RSeq (RSet (one_char dquote)) (RSeq (RGroup 2 (RMany (re_not (one_char dquote)) true)) (RSet (one_char dquote))))
          (RGroup 3 (RSome (re_not re_space))))))))).

Definition reTimeout : re :=
  RSeq RBol (RSeq (RGroup 1 (RSeq spaces0 (RSeq (RLit "set") (RSeq spaces1 (RLit "timeout=")))))
    (RGroup 2 (RSome (re_not re_space)))).

Definition reMark : re := RSeq (RLit " pxe_") (RSeq (RAlt (RLit "via_nfs") (RLit "net_busid")) (RLit "=")).

Definition reEntryArgs : re :=
  RSeq (RGroup 1 (RLit "erst_disable")) (RSeq (RGroup 2 (RMany (fun c => negb (is_nl c)) false)) (RGroup 3 reMark)).

(** ** Reading and rewriting the text *)

Definition currentDefault (text : string) : string :=
  match FindStringSubmatch reDefault text with
  | None => ""
  | Some m => default "" (head (List.filter (fun g => negb (is_empty g)) [group 1 m; group 2 m; group 3 m]))
  end.

Definition menu_names (text : string) : list string := group 1 <$> FindAllStringSubmatch reMenu text.

Definition entries (text : string) : list Entry :=
  (fun name => mkEntry name (name =? currentDefault text)%string)
  <$> List.filter (fun name => negb (Contains (ToLower name) "local disk")) (menu_names text).

Definition set_default (text entry : string) : result string :=
  if negb (existsb (String.eqb entry) (menu_names text)) then Err ("no menuentry " +:+ Quote entry)
  else if negb (MatchString reDefault text) then Err "no 'set default=' line"
  else Ok (ReplaceAllString reDefault text ("set default='" +:+ entry +:+ "'")).

Definition current_timeout (text : string) : string :=
  match FindStringSubmatch reTimeout text with Some m => group 2 m | None => "" end.

Definition set_timeout (text value : string) : string :=
  if MatchString reTimeout text then ReplaceAllString reTimeout text ("${1}" +:+ value) else text.

Definition is_entry_line (entry line : string) : bool :=
  Contains line ("'" +:+ entry +:+ "'") && Contains line "linuxefi".

Fixpoint line_at (p : string → bool) (i : nat) (lines : list string) : option nat :=
  match lines with [] => None | l :: lines => if p l then Some i else line_at p (S i) lines end.

Definition entryLine (lines : list string) (entry : string) : option nat := line_at (is_entry_line entry) 0 lines.

Definition no_entry (entry : string) : string := "no menuentry " +:+ Quote entry.

Definition entry_args (text entry : string) : result string :=
  let lines := Split text nl in
  match entryLine lines entry with
  | None => Err (no_entry entry)
  | Some i =>
      match FindStringSubmatch reEntryArgs (default "" (lines !! i)) with
      | None => Ok ""
      | Some m => Ok (TrimSpace (group 2 m))
      end
  end.

Definition set_entry_args (text entry args : string) : result string :=
  let lines := Split text nl in
  match entryLine lines entry with
  | None => Err (no_entry entry)
  | Some i =>
      let line := default "" (lines !! i) in
      if negb (MatchString reEntryArgs line) then Err ("menuentry " +:+ Quote entry +:+ " has no erst_disable…pxe_ segment")
      else
        let mid := if is_empty args then "" else " " +:+ args in
        Ok (Join (<[i := ReplaceAllString reEntryArgs line ("${1}" +:+ mid +:+ "${3}")]> lines) nls)
  end.

(** ** The PXE root: grub.cfg and the lock *)

(** The lock's content; [lk_owner] tells apart the files the drivers created and
    is nothing the code sees. *)
Record lockfile : Type := mkLockfile { lk_mtime : Z; lk_owner : nat }.

(** A driver between two calls to the file system.  [f_target] is the entry that
    is armed, the other fields what to go back to. *)
Record flip : Type := mkFlip {
  f_target : string;
  f_arm : string;
  f_prevDefault : string;
  f_prevArgs : string;
  f_prevTimeout : string
}.

Inductive flip_pc : Type :=
| FReadDefault (image arm : string)
| FReadArgs (f : flip)
| FReadTimeout (f : flip)
| FAcquire (f : flip)
| FStat (f : flip)                    (* the lock is held: how old is it? *)
| FSteal (f : flip)                   (* stale: remove it *)
| FAgain (f : flip)
| FSetDefault (f : flip)
| FArm (f : flip)
| FSetTimeout (f : flip)
| FArmed (f : flip)                   (* [Flip] returned its restore function *)
| FUndoDefault (f : flip) (failed : bool)
| FUndoArgs (f : flip) (failed : bool)
| FUndoTimeout (f : flip) (failed : bool)
| FRelease (failed : bool)
| FDone (failed : bool).

Definition needs_default (f : flip) : bool := negb (f.(f_target) =? f.(f_prevDefault))%string.
Definition needs_timeout (f : flip) : bool := negb (is_empty f.(f_prevTimeout)) && negb (f.(f_prevTimeout) =? "0")%string.

Definition lockTTL : Z := 30 * 60 * 1000000000.

Record pxe : Type := mkPxe {
  px_grub : option string;            (* [None]: not readable *)
  px_lock : option lockfile;
  px_now : Z;
  px_flips : gmap nat flip_pc         (* the drivers' flips in progress *)
}.

Definition set_px_grub (g : option string) (x : pxe) : pxe := mkPxe g x.(px_lock) x.(px_now) x.(px_flips).
Definition set_px_lock (l : option lockfile) (x : pxe) : pxe := mkPxe x.(px_grub) l x.(px_now) x.(px_flips).
Definition set_px_now (t : Z) (x : pxe) : pxe := mkPxe x.(px_grub) x.(px_lock) t x.(px_flips).
Definition at_step (d : nat) (pc : flip_pc) (x : pxe) : pxe :=
  mkPxe x.(px_grub) x.(px_lock) x.(px_now) (<[d := pc]> x.(px_flips)).

(** The rewritten text lands if it could be made and written. *)
Definition rewrite (f : string → result string) (writable : bool) (x : pxe) : pxe * bool :=
  match x.(px_grub) with
  | None => (x, false)
  | Some text =>
      match f text with
      | Err _ => (x, false)
      | Ok text' => if writable then (set_px_grub (Some text') x, true) else (x, false)
      end
  end.

Definition SetDefault (entry : string) : bool → pxe → pxe * bool := rewrite (fun t => set_default t entry).
Definition SetEntryArgs (entry args : string) : bool → pxe → pxe * bool := rewrite (fun t => set_entry_args t entry args).

(** Without a timeout line nothing is written. *)
Definition SetTimeout (value : string) (writable : bool) (x : pxe) : pxe * bool :=
  match x.(px_grub) with
  | Some text => if MatchString reTimeout text then rewrite (fun t => Ok (set_timeout t value)) writable x else (x, true)
  | None => (x, false)
  end.

(** [O_CREATE|O_EXCL]. *)
Definition create_lock (d : nat) (f : flip) (busy : flip_pc) (x : pxe) : pxe :=
  match x.(px_lock) with
  | Some _ => at_step d busy x
  | None => at_step d (if needs_default f then FSetDefault f else FArm f) (set_px_lock (Some (mkLockfile x.(px_now) d)) x)
  end.

Definition undo_from (f : flip) (failed : bool) : flip_pc := if needs_default f then FUndoDefault f failed else FUndoArgs f failed.

(** One call of driver [d]; [w]: whether its write works.  A failed undo is only
    printed. *)
Definition flip_step (d : nat) (w : bool) (x : pxe) : option pxe :=
  pc ← x.(px_flips) !! d;
  match pc with
  | FReadDefault image arm =>
      Some match x.(px_grub) with
           | None => at_step d (FDone true) x
           | Some text =>
               let prev := currentDefault text in
               at_step d (FReadArgs (mkFlip (if is_empty image then prev else image) arm prev "" "")) x
           end
  | FReadArgs f =>
      Some match (let? t := match x.(px_grub) with Some t => Ok t | None => Err "open" end in entry_args t f.(f_target)) with
           | Err _ => at_step d (FDone true) x
           | Ok a => at_step d (FReadTimeout (mkFlip f.(f_target) f.(f_arm) f.(f_prevDefault) a "")) x
           end
  | FReadTimeout f =>
      Some match x.(px_grub) with
           | None => at_step d (FDone true) x
           | Some text =>
               at_step d (FAcquire (mkFlip f.(f_target) f.(f_arm) f.(f_prevDefault) f.(f_prevArgs) (current_timeout text))) x
           end
  | FAcquire f => Some (create_lock d f (FStat f) x)
  | FStat f =>
      Some match x.(px_lock) with
           | Some l => at_step d (if lockTTL <? x.(px_now) - l.(lk_mtime) then FSteal f else FDone true) x
           | None => at_step d (FDone true) x
           end
  | FSteal f => Some (at_step d (FAgain f) (set_px_lock None x))
  | FAgain f => Some (create_lock d f (FDone true) x)
  | FSetDefault f =>
      let '(x, ok) := SetDefault f.(f_target) w x in Some (at_step d (if ok : bool then FArm f else FRelease true) x)
  | FArm f =>
      let '(x, ok) := SetEntryArgs f.(f_target) f.(f_arm) w x in
      Some (at_step d (if ok : bool then FSetTimeout f else undo_from f true) x)
  | FSetTimeout f =>
      let '(x, ok) := SetTimeout "0" w x in Some (at_step d (if ok : bool then FArmed f else undo_from f true) x)
  | FArmed f => Some (at_step d (undo_from f false) x)
  | FUndoDefault f failed => Some (at_step d (FUndoArgs f failed) (SetDefault f.(f_prevDefault) w x).1)
  | FUndoArgs f failed =>
      Some (at_step d (if needs_timeout f then FUndoTimeout f failed else FRelease failed)
              (SetEntryArgs f.(f_target) f.(f_prevArgs) w x).1)
  | FUndoTimeout f failed => Some (at_step d (FRelease failed) (SetTimeout f.(f_prevTimeout) w x).1)
  | FRelease failed => Some (at_step d (FDone failed) (set_px_lock None x))
  | FDone _ => None
  end.

(** What happens at the PXE root: a driver begins a flip, makes its next call, or
    time passes. *)
Inductive pxe_ev : Type := PFlip (d : nat) (image arm : string) | PCall (d : nat) (w : bool) | PTime (t : Z).

Definition pxe_step (x : pxe) (e : pxe_ev) : option pxe :=
  match e with
  | PFlip d image arm =>
      match x.(px_flips) !! d with
      | None | Some (FDone _) => Some (at_step d (FReadDefault image arm) x)
      | Some _ => None
      end
  | PCall d w => flip_step d w x
  | PTime t => if x.(px_now) <=? t then Some (set_px_now t x) else None
  end.

Fixpoint pxe_run (x : pxe) (es : list pxe_ev) : option pxe :=
  match es with [] => Some x | e :: es => x' ← pxe_step x e; pxe_run x' es end.
