(* ===== verification/PxeProps.v ===== *)
(** * What the PXE flips promise

    The advisory lock keeps one driver at a time at the menu as long as nobody
    holds it beyond its time, and arming an entry is undone to the byte.  The
    examples show what the code does beyond these assumptions. *)
From S2P Require Import Prelude GoStrings Regexp Pxe.
From Stdlib Require Import Ascii.

Open Scope string_scope.
Open Scope list_scope.
Open Scope Z_scope.

(** ** The lock *)

(** From taking the lock to giving it back. *)
Definition critical (pc : flip_pc) : bool :=
  match pc with
  | FSetDefault _ | FArm _ | FSetTimeout _ | FArmed _ | FUndoDefault _ _ | FUndoArgs _ _ | FUndoTimeout _ _ | FRelease _ => true
  | _ => false
  end.
Definition stealing (pc : flip_pc) : bool := match pc with FSteal _ | FAgain _ => true | _ => false end.

(** Nobody steals, and who is at the menu has the lock. *)
Record held (x : pxe) : Prop := {
  held_none_steals : ∀ d pc, x.(px_flips) !! d = Some pc → stealing pc = false;
  held_by : ∀ d pc, x.(px_flips) !! d = Some pc → critical pc = true → lk_owner <$> x.(px_lock) = Some d
}.

Definition in_time (x : pxe) : Prop := ∀ l, x.(px_lock) = Some l → x.(px_now) - l.(lk_mtime) ≤ lockTTL.

(** The states a run goes through. *)
Fixpoint pxe_trace (x : pxe) (es : list pxe_ev) : list pxe :=
  x :: match es with [] => [] | e :: es => match pxe_step x e with Some x' => pxe_trace x' es | None => [] end end.

(** A driver moves on and the lock stays as it was. *)
Lemma held_move x x' d pc pc' :
  held x → x.(px_flips) !! d = Some pc → x'.(px_flips) = <[d := pc']> x.(px_flips) → x'.(px_lock) = x.(px_lock) →
  stealing pc' = false → (critical pc' = true → critical pc = true) → held x'.
Proof.
  intros [Hs Hh] Hd Hf Hl Hst Hcr. split; rewrite ?Hl; intros e q; rewrite Hf;
    intros [[<- <-]|[_ He]]%lookup_insert_Some; eauto.
Qed.

Lemma held_begin x d pc :
  held x → critical pc = false → stealing pc = false → held (at_step d pc x).
Proof.
  intros [Hs Hh] Hc Hst. split; cbn; intros e q [[<- <-]|[_ He]]%lookup_insert_Some; eauto. congruence.
Qed.

(** Creating the lock where there is none: nobody is at the menu. *)
Lemma held_create x d f busy :
  held x → stealing busy = false → critical busy = false → held (create_lock d f busy x).
Proof.
  intros Hx Hst Hc. unfold create_lock. destruct (px_lock x) as [l|] eqn:El; [by apply held_begin|].
  destruct Hx as [Hs Hh]. assert (∀ e q, px_flips x !! e = Some q → critical q = false) as Hno.
  { intros e q He. destruct (critical q) eqn:Eq; [|done]. specialize (Hh e q He Eq). by rewrite El in Hh. }
  split; cbn; intros e q [[<- <-]|[_ He]]%lookup_insert_Some; eauto.
  - by destruct (needs_default f).
  - intros Hq. by rewrite (Hno e q He) in Hq.
Qed.

Lemma held_release x d failed :
  held x → x.(px_flips) !! d = Some (FRelease failed) → held (at_step d (FDone failed) (set_px_lock None x)).
Proof.
  intros [Hs Hh] Hd. split; cbn; intros e q [[<- <-]|[Hne He]]%lookup_insert_Some; eauto; try done.
  intros Hq. pose proof (Hh e q He Hq) as H1. pose proof (Hh d _ Hd eq_refl) as H2. congruence.
Qed.

Lemma rewrite_frame f w x : (rewrite f w x).1.(px_flips) = x.(px_flips) ∧ (rewrite f w x).1.(px_lock) = x.(px_lock).
Proof. unfold rewrite. destruct (px_grub x); [|done]. destruct (f s); [|done]. by destruct w. Qed.

Lemma SetTimeout_frame v w x : (SetTimeout v w x).1.(px_flips) = x.(px_flips) ∧ (SetTimeout v w x).1.(px_lock) = x.(px_lock).
Proof. unfold SetTimeout. destruct (px_grub x); [|done]. destruct (MatchString _ _); [apply rewrite_frame|done]. Qed.

(** A step that only rewrites the menu. *)
Lemma held_rewrite x y d pc pc' :
  held x → x.(px_flips) !! d = Some pc → y.(px_flips) = x.(px_flips) ∧ y.(px_lock) = x.(px_lock) →
  critical pc = true → stealing pc' = false → held (at_step d pc' y).
Proof.
  intros Hx Hd [Hf Hl] Hc Hst. apply (held_move x _ d pc pc'); try done. cbn. by rewrite Hf.
Qed.

Lemma undo_from_steady f failed : stealing (undo_from f failed) = false.
Proof. unfold undo_from. by destruct (needs_default f). Qed.

Lemma held_call d w x x' : held x → in_time x → flip_step d w x = Some x' → held x'.
Proof.
  intros Hx Ht. unfold flip_step. destruct (px_flips x !! d) as [pc|] eqn:Hd; [|done]. cbn.
  pose proof (held_none_steals x Hx d pc Hd) as Hst.
  pose proof (fun y pc' => held_rewrite x y d pc pc' Hx Hd) as Hre.
  destruct pc as [image arm|f|f|f|f|f|f|f|f|f|f|f b|f b|f b|b|b]; try done.
  - intros [= <-]. destruct (px_grub x); by apply held_begin.
  - intros [= <-]. destruct (result_bind _ _); by apply held_begin.
  - intros [= <-]. destruct (px_grub x); by apply held_begin.
  - intros [= <-]. by apply held_create.
  - intros [= <-]. destruct (px_lock x) as [l|] eqn:El; [|by apply held_begin].
    rewrite (proj2 (Z.ltb_ge _ _)); [by apply held_begin|by apply Ht].
  - destruct (SetDefault _ _ x) as [y ok] eqn:Ey. intros [= <-]. apply Hre; [|done|by destruct ok].
    change y with (y, ok).1. rewrite <- Ey. apply rewrite_frame.
  - destruct (SetEntryArgs _ _ _ x) as [y ok] eqn:Ey. intros [= <-]. apply Hre; [|done|destruct ok; [done|apply undo_from_steady]].
    change y with (y, ok).1. rewrite <- Ey. apply rewrite_frame.
  - destruct (SetTimeout _ _ x) as [y ok] eqn:Ey. intros [= <-]. apply Hre; [|done|destruct ok; [done|apply undo_from_steady]].
    change y with (y, ok).1. rewrite <- Ey. apply SetTimeout_frame.
  - intros [= <-]. apply Hre; [done|done|apply undo_from_steady].
  - intros [= <-]. apply Hre; [apply rewrite_frame|done..].
  - intros [= <-]. apply Hre; [apply rewrite_frame|done|by destruct (needs_timeout f)].
  - intros [= <-]. apply Hre; [apply SetTimeout_frame|done..].
  - intros [= <-]. by apply held_release.
Qed.

Lemma held_step x e x' : held x → in_time x → pxe_step x e = Some x' → held x'.
Proof.
  intros Hx Ht. destruct e as [d image arm|d w|t]; cbn.
  - destruct (px_flips x !! d) as [pc|] eqn:Hd; [destruct pc; try done|]; intros [= <-]; by apply held_begin.
  - by apply held_call.
  - destruct (_ <=? _); [|done]. intros [= <-]. by destruct Hx.
Qed.

Lemma held_run x es x' : held x → Forall in_time (pxe_trace x es) → pxe_run x es = Some x' → held x'.
Proof.
  revert x. induction es as [|e es IH]; intros x Hx; cbn; [by intros _ [= <-]|].
  rewrite Forall_cons. intros [Ht Hf]. destruct (pxe_step x e) as [y|] eqn:Ey; [|done]. cbn.
  apply IH; [by eapply held_step|done].
Qed.

(** C16. The shared boot menu is rewritten by one driver at a time: over any
    interleaving of any number of drivers' flips, whichever of their writes fail,
    as long as nobody holds the lock beyond its thirty minutes, at most one
    driver is between taking the lock and giving it back, and the lock is its. *)
Theorem one_flip_armed x es x' d1 d2 pc1 pc2 :
  x.(px_flips) = ∅ → Forall in_time (pxe_trace x es) → pxe_run x es = Some x' →
  x'.(px_flips) !! d1 = Some pc1 → critical pc1 = true → x'.(px_flips) !! d2 = Some pc2 → critical pc2 = true →
  d1 = d2 ∧ lk_owner <$> x'.(px_lock) = Some d1.
Proof.
  intros H0 Ht Hr H1 Hc1 H2 Hc2. assert (held x') as [_ Hh].
  { eapply held_run; [|exact Ht|exact Hr]. split; intros d pc; by rewrite H0, lookup_empty. }
  pose proof (Hh _ _ H1 Hc1) as E1. pose proof (Hh _ _ H2 Hc2) as E2. split; [congruence|done].
Qed.

(** ** Arming an entry and undoing it *)

Definition arm_seg (args : string) : string := if is_empty args then "" else " " +:+ args.

(** A menu entry's line around its arguments. *)
Definition kernel_line (pre args mark post : string) : string :=
  pre +:+ "erst_disable" +:+ arm_seg args +:+ mark +:+ post.

(** Arguments the expressions and templates of the driver pass through: no
    dollar, no newline, no marker of what follows them, no spaces around. *)
Definition plain_args (args : string) : Prop :=
  Contains args "$" = false ∧ forallb (fun c => negb (is_nl c)) (String.list_ascii_of_string args) = true
  ∧ none_before " pxe_" (arm_seg args) = true ∧ TrimSpace args = args.

Definition is_mark (mark : string) : Prop := ∃ kind, kind ∈ ["via_nfs"; "net_busid"] ∧ mark = " pxe_" +:+ kind +:+ "=".

Record kernel_ok (entry pre mark post : string) : Prop := {
  ko_first : none_before "erst_disable" pre = true;
  ko_mark : is_mark mark;
  ko_last : Contains post "erst_disable" = false;
  ko_entry : is_entry_line entry pre = true
}.

Lemma Contains_extend a b w : Contains a w = true → Contains (a +:+ b) w = true.
Proof.
  unfold Contains. induction a as [|c a IH]; cbn [Index].
  - destruct (HasPrefix "" w) eqn:Ep; [|done]. destruct w; [|done]. intros _. by destruct b.
  - rewrite append_cons. destruct (HasPrefix (String c a) w) eqn:Ep.
    + intros _. destruct (HasPrefix_split _ _ Ep) as (t & Ht). cbn [Index].
      replace (String c (a +:+ b)) with (w +:+ (t +:+ b)) by (rewrite <- app_assoc_str, <- Ht; by rewrite append_cons).
      by rewrite HasPrefix_app.
    + intros Ha. cbn [Index]. destruct (HasPrefix (String c (a +:+ b)) w); [done|]. destruct (Index a w) eqn:Ei; [|done].
      specialize (IH eq_refl). by destruct (Index (a +:+ b) w).
Qed.

Lemma entry_line_extend entry a b : is_entry_line entry a = true → is_entry_line entry (a +:+ b) = true.
Proof. unfold is_entry_line. rewrite !andb_true_iff. intros [H1 H2]. split; by apply Contains_extend. Qed.

Lemma reEntryArgs_starts k bol s g :
  HasPrefix s "erst_disable" = false → mt (X := string * groups) reEntryArgs k bol s g = None.
Proof. intros Hs. unfold reEntryArgs. cbn [mt]. by apply literal_none. Qed.

Lemma stake_front a b : stake (String.length (a +:+ b) - String.length b) (a +:+ b) = a.
Proof. rewrite length_app_str, Nat.add_sub. apply stake_app. Qed.

Definition args_groups (args mark : string) : groups :=
  [(3%nat, mark); (2%nat, arm_seg args); (1%nat, "erst_disable")].

Lemma arm_seg_line args : plain_args args → forallb (fun c => negb (is_nl c)) (String.list_ascii_of_string (arm_seg args)) = true.
Proof. intros (_ & Hn & _). unfold arm_seg. by destruct (is_empty args). Qed.

Lemma mark_match mark post bol k g :
  is_mark mark → mt (X := string * groups) reMark k bol (mark +:+ post) g = k false post g.
Proof.
  intros (kind & Hk & ->). unfold reMark. rewrite !app_assoc_str. cbn [mt]. rewrite literal_app. apply elem_of_cons in Hk as [->|Hk].
  - rewrite !literal_app, (literal_none "net_busid") by done. cbn. by destruct (k false post g).
  - apply list_elem_of_singleton in Hk as ->. rewrite (literal_none "via_nfs") by done. by rewrite !literal_app.
Qed.

Lemma mark_starts k bol s g : HasPrefix s " pxe_" = false → mt (X := string * groups) reMark k bol s g = None.
Proof. intros Hs. unfold reMark. cbn [mt]. by apply literal_none. Qed.

Lemma kernel_match args mark post bol :
  plain_args args → is_mark mark →
  mt reEntryArgs (fun _ s g => Some (s, g)) bol ("erst_disable" +:+ arm_seg args +:+ mark +:+ post) []
  = Some (post, args_groups args mark).
Proof.
  intros Ha Hm. unfold reEntryArgs. cbn [mt]. rewrite literal_app, stake_front.
  pose proof Hm as (kind & _ & Hk). rewrite Hk, app_assoc_str. apply reluctant_app.
  - intros b s Hs. by apply mark_starts.
  - intros b. rewrite <- app_assoc_str, <- Hk, mark_match, !stake_front by done. done.
  - by apply arm_seg_line.
  - by apply Ha.
Qed.

(** The line with other arguments. *)
Lemma kernel_search entry pre args mark post bol :
  kernel_ok entry pre mark post → plain_args args →
  search reEntryArgs bol (kernel_line pre args mark post)
  = Some (mkFound pre ("erst_disable" +:+ arm_seg args +:+ mark) (args_groups args mark) post).
Proof.
  intros [Hf Hm _ _] Ha. unfold kernel_line.
  rewrite (search_app reEntryArgs "erst_disable" reEntryArgs_starts pre _ post (args_groups args mark) Hf); [|by intros; apply kernel_match].
  do 2 f_equal. rewrite <- !app_assoc_str. by rewrite stake_front, !app_assoc_str.
Qed.

Lemma expand_1 n t g : expand (S n) ("${1}" +:+ t) g = group 1 g +:+ expand n t g.
Proof. reflexivity. Qed.

Lemma expand_3 n g : expand (S (S n)) "${3}" g = group 3 g.
Proof. cbn. apply app_nil_r_str. Qed.

Lemma Expand_args args g :
  Contains args "$" = false → Expand ("${1}" +:+ arm_seg args +:+ "${3}") g = group 1 g +:+ arm_seg args +:+ group 3 g.
Proof.
  intros Ha. unfold Expand. assert (Contains (arm_seg args) "$" = false) as Hs.
  { unfold arm_seg. destruct (is_empty args); [done|]. unfold Contains in *. change (" " +:+ args) with (String " " args). cbn [Index]. by destruct (Index args "$"). }
  rewrite length_app_str, (expand_1 (String.length "${1}" + String.length (arm_seg args +:+ "${3}")) _ g).
  rewrite length_app_str. replace (_ + _)%nat with (String.length (arm_seg args) + S 7)%nat by (cbn; lia).
  by rewrite (expand_plain _ _ _ _ Hs), expand_3.
Qed.

Lemma kernel_replace entry pre prev args mark post :
  kernel_ok entry pre mark post → plain_args prev → plain_args args →
  ReplaceAllString reEntryArgs (kernel_line pre prev mark post) ("${1}" +:+ arm_seg args +:+ "${3}")
  = kernel_line pre args mark post.
Proof.
  intros Hk Hp Ha. unfold ReplaceAllString. cbn [replace_all]. rewrite (kernel_search entry) by done.
  cbn [fd_before fd_match fd_groups fd_rest]. rewrite Expand_args by apply Ha. cbn [group find Nat.eqb fst snd args_groups].
  unfold kernel_line. f_equal. rewrite !app_assoc_str. do 3 f_equal.
  destruct (String.length _) as [|n]; [done|]. cbn [replace_all].
  by rewrite (search_none reEntryArgs "erst_disable" reEntryArgs_starts _ _ (ko_last _ _ _ _ Hk)).
Qed.

Lemma line_at_app p i before line after :
  Forall (fun l => p l = false) before → p line = true → line_at p i (before ++ line :: after) = Some (i + length before)%nat.
Proof.
  intros Hb Hl. revert i. induction Hb as [|l before Hf _ IH]; intros i; cbn; [rewrite Hl; f_equal; lia|].
  rewrite Hf, IH. f_equal. lia.
Qed.

(** A menu with one line for [entry], by its lines. *)
Definition menu (before : list string) (line : string) (after : list string) : string := Join (before ++ line :: after) nls.

Record menu_ok (entry : string) (before after : list string) (pre mark post : string) : Prop := {
  mo_kernel : kernel_ok entry pre mark post;
  mo_first : Forall (fun l => is_entry_line entry l = false) before;
  mo_lines : Forall (free_of nl) (before ++ after);
  mo_line : free_of nl pre ∧ free_of nl post
}.

Lemma free_of_one_line c s : c = nl → forallb (fun d => negb (is_nl d)) (String.list_ascii_of_string s) = true → free_of c s.
Proof.
  intros ->. induction s as [|d s IH]; [done|]. cbn. rewrite andb_true_iff, negb_true_iff. intros [Hd Hs].
  apply free_of_cons. split; [by intros ->|by apply IH].
Qed.

Lemma kernel_line_free pre args mark post :
  is_mark mark → free_of nl pre → free_of nl post → plain_args args → free_of nl (kernel_line pre args mark post).
Proof.
  intros Hm Hp Hq Ha. unfold kernel_line. rewrite !free_of_app. split_and!; try done.
  - by apply free_of_one_line; [|apply arm_seg_line].
  - destruct Hm as (kind & Hk & ->). apply elem_of_cons in Hk as [->|Hk]; [done|]. by apply list_elem_of_singleton in Hk as ->.
Qed.

Section Menu.
Context (entry pre mark post : string) (before after : list string).
Context (Hok : menu_ok entry before after pre mark post).

Notation the_menu args := (menu before (kernel_line pre args mark post) after).

Lemma menu_split args : plain_args args → Split (the_menu args) nl = before ++ kernel_line pre args mark post :: after.
Proof using Hok.
  intros Ha. destruct Hok as [Hk _ Hl [Hp Hq]]. apply Split_Join; [by destruct before|].
  apply Forall_app in Hl as [Hb Hf]. apply Forall_app. split; [done|]. constructor; [|done].
  apply kernel_line_free; try done. apply Hk.
Qed.

Lemma menu_entry args : entryLine (before ++ kernel_line pre args mark post :: after) entry = Some (length before).
Proof using Hok.
  destruct Hok as [Hk Hf _ _]. unfold entryLine. rewrite line_at_app; [done|done|]. apply entry_line_extend, Hk.
Qed.

Lemma menu_args args : plain_args args → entry_args (the_menu args) entry = Ok args.
Proof using Hok.
  intros Ha. unfold entry_args. rewrite menu_split, menu_entry by done.
  rewrite list_lookup_middle by done. cbn [from_option]; unfold Datatypes.id. unfold FindStringSubmatch.
  rewrite (kernel_search entry) by (done || apply Hok). cbn. unfold arm_seg.
  destruct (is_empty args) eqn:Ee; [by apply is_empty_true in Ee as ->|].
  change (TrimSpace (" " +:+ args)) with (TrimSpace args). f_equal. apply Ha.
Qed.

Lemma menu_arm prev args : plain_args prev → plain_args args → set_entry_args (the_menu prev) entry args = Ok (the_menu args).
Proof using Hok.
  intros Hp Ha. unfold set_entry_args. rewrite menu_split, menu_entry by done.
  rewrite list_lookup_middle by done. cbn [from_option]; unfold Datatypes.id. unfold MatchString.
  rewrite (kernel_search entry) by (done || apply Hok). cbn [negb]. fold (arm_seg args).
  rewrite (kernel_replace entry) by (done || apply Hok). f_equal. unfold menu. f_equal. rewrite insert_app_r_alt by done. by rewrite Nat.sub_diag.
Qed.

End Menu.

(** C17. Arming an entry is undone to the byte: in a menu whose entry has its
    arguments between the two markers, arming replaces them by the driver's
    (what the armed entry then carries), touches no other line, and putting the
    previous arguments back gives the text of before, provided neither set of
    arguments holds a dollar, a newline, a marker or spaces around. *)
Theorem arm_then_undo entry pre mark post before after prev args :
  menu_ok entry before after pre mark post → plain_args prev → plain_args args →
  let text := menu before (kernel_line pre prev mark post) after in
  entry_args text entry = Ok prev
  ∧ ∃ armed, set_entry_args text entry args = Ok armed ∧ entry_args armed entry = Ok args
    ∧ Split armed nl = before ++ kernel_line pre args mark post :: after
    ∧ set_entry_args armed entry prev = Ok text.
Proof.
  intros Hok Hp Ha text. split; [by apply menu_args|]. exists (menu before (kernel_line pre args mark post) after).
  split_and!; [by apply menu_arm|by apply menu_args|by apply (menu_split entry)|by apply menu_arm].
Qed.

(** ** Concrete menus *)

Definition demo_before : list string := ["set timeout=-1"; "set default='Cube A'"].
Definition demo_pre : string := "menuentry 'Cube A' { linuxefi /a/bzImage rw quiet ".
Definition demo_post : string := "10.0.0.2:/vol/a ; initrdefi /a/initramfs.cgz }".
Definition demo_after : list string :=
  ["menuentry 'Cube B' { linuxefi /b/bzImage rw erst_disable pxe_net_busid=0 }"; "menuentry 'Boot local disk' { exit }"; ""].
Definition demo_menu : string := menu demo_before (kernel_line demo_pre "" " pxe_via_nfs=" demo_post) demo_after.
Definition demo_arm : string := "autoinstall driver_server=http://10.0.0.9:8080".

Lemma arm_then_undo_witness :
  ∃ armed, set_entry_args demo_menu "Cube A" demo_arm = Ok armed ∧ entry_args armed "Cube A" = Ok demo_arm
    ∧ set_entry_args armed "Cube A" "" = Ok demo_menu.
Proof.
  destruct (arm_then_undo "Cube A" demo_pre " pxe_via_nfs=" demo_post demo_before demo_after "" demo_arm)
    as (_ & armed & H1 & H2 & _ & H3).
  - split.
    + split; try reflexivity. exists "via_nfs". split; [by left|reflexivity].
    + repeat constructor.
    + repeat constructor.
    + split; reflexivity.
  - split_and!; reflexivity.
  - split_and!; vm_compute; reflexivity.
  - exists armed. split; [exact H1|]. split; [exact H2|exact H3].
Defined.

Definition demo_pxe : pxe := mkPxe (Some demo_menu) None 0 ∅.
Definition calls (d n : nat) : list pxe_ev := repeat (PCall d true) n.
Definition pc_of (d : nat) (o : option pxe) : option flip_pc := x ← o; x.(px_flips) !! d.
Definition default_of (o : option pxe) : option string := x ← o; currentDefault <$> x.(px_grub).

(** Driver 1 arms its default entry, driver 2 comes too early. *)
Definition demo_flips : list pxe_ev :=
  [PFlip 1 "" demo_arm] ++ calls 1 6 ++ [PFlip 2 "Cube B" demo_arm] ++ calls 2 5.

Definition in_timeb (x : pxe) : bool :=
  match x.(px_lock) with Some l => x.(px_now) - l.(lk_mtime) <=? lockTTL | None => true end.

Lemma in_timeb_all l : forallb in_timeb l = true → Forall in_time l.
Proof.
  rewrite forallb_forall, Forall_forall. intros H x Hx k Hk. apply list_elem_of_In, H in Hx.
  unfold in_timeb in Hx. rewrite Hk in Hx. by apply Z.leb_le.
Qed.

Lemma one_flip_armed_witness :
  ∃ x f, pxe_run demo_pxe demo_flips = Some x ∧ x.(px_flips) !! 1%nat = Some (FArmed f)
    ∧ x.(px_flips) !! 2%nat = Some (FDone true) ∧ lk_owner <$> x.(px_lock) = Some 1%nat.
Proof.
  destruct (pxe_run demo_pxe demo_flips) as [x|] eqn:E; [|vm_compute in E; discriminate E].
  assert (pc_of 1 (Some x) = Some (FArmed (mkFlip "Cube A" demo_arm "Cube A" "" "-1"))) as H1
    by (rewrite <- E; vm_compute; reflexivity).
  assert (pc_of 2 (Some x) = Some (FDone true)) as H2 by (rewrite <- E; vm_compute; reflexivity).
  destruct (one_flip_armed demo_pxe demo_flips x 1 1 _ _ eq_refl ltac:(apply in_timeb_all; vm_compute; reflexivity)
    E H1 eq_refl H1 eq_refl) as [_ Hl].
  eexists x, _. split; [reflexivity|]. split; [exact H1|]. split; [exact H2|exact Hl].
Defined.

(** ** Beyond the assumptions *)

(** What a flip goes back to is read before the lock is taken: a driver that
    reads while another has the menu armed takes the other's image for the
    default and its timeout for the menu's, and leaves both there after both
    drivers are done. *)
Example default_not_restored :
  let o := pxe_run demo_pxe
    ([PFlip 1 "Cube B" demo_arm] ++ calls 1 7 ++ [PFlip 2 "Cube A" demo_arm] ++ calls 2 3 ++ calls 1 5 ++ calls 2 8) in
  currentDefault demo_menu = "Cube A" ∧ current_timeout demo_menu = "-1"
  ∧ pc_of 1 o = Some (FDone false) ∧ pc_of 2 o = Some (FDone false)
  ∧ default_of o = Some "Cube B" ∧ (x ← o; current_timeout <$> x.(px_grub)) = Some "0".
Proof. vm_compute. auto 6. Qed.

Definition at_menu (d : nat) (o : option pxe) : bool :=
  match pc_of d o with Some pc => critical pc | None => false end.

(** Looking at a stale lock, removing it and creating one's own are three calls:
    of two drivers that found the same lock stale, the second removes the
    first's new one, and both are at the menu. *)
Example both_steal :
  let x := mkPxe (Some demo_menu) (Some (mkLockfile 0 0)) (lockTTL + 1) ∅ in
  let o := pxe_run x ([PFlip 1 "" demo_arm; PFlip 2 "" demo_arm] ++ calls 1 5 ++ calls 2 5
             ++ calls 1 2 ++ calls 2 2) in
  at_menu 1 o = true ∧ at_menu 2 o = true.
Proof. vm_compute. auto. Qed.

(** A driver that held the lock beyond its time removes, when it is done,
    whatever lock is there: the third driver walks in on the second. *)
Example late_release :
  let o := pxe_run demo_pxe ([PFlip 1 "" demo_arm] ++ calls 1 6 ++ [PTime (lockTTL + 1); PFlip 2 "" demo_arm] ++ calls 2 8
             ++ calls 1 4 ++ [PFlip 3 "" demo_arm] ++ calls 3 4) in
  at_menu 2 o = true ∧ at_menu 3 o = true.
Proof. vm_compute. auto. Qed.

(** The image's name goes into a replacement template: a dollar in it is
    expanded, and the default then points at no entry. *)
Example dollar_expanded :
  currentDefault <$> (match set_default ("set default='a'" +:+ nls +:+ "menuentry 'r$1' {" +:+ nls) "r$1" with
                      | Ok t => Some t | Err _ => None end)
  = Some "ra".
Proof. vm_compute. reflexivity. Qed.

(** The line's match begins at the blank lines before it, which go. *)
Example blank_lines_eaten :
  set_default ("set timeout=5" +:+ nls +:+ nls +:+ "  set default=0" +:+ nls +:+ "menuentry 'r' {" +:+ nls) "r"
  = Ok ("set timeout=5" +:+ nls +:+ "set default='r'" +:+ nls +:+ "menuentry 'r' {" +:+ nls).
Proof. vm_compute. reflexivity. Qed.
