(* ===== verification/Secret.v ===== *)
(** * Secrets at rest (internal/secret/secret.go)

    The key file, its two encodings and the sealed form of a BMC password.
    AES-GCM is an interface: a cipher per key that seals and opens, with the law
    that what was sealed opens again. *)
From S2P Require Import Prelude GoStrings.
From Stdlib Require Import Ascii.

Open Scope string_scope.
Open Scope list_scope.
Open Scope Z_scope.

Definition byte_val (c : ascii) : Z := Z.of_N (Ascii.N_of_ascii c).
Definition byte_chr (z : Z) : ascii := Ascii.ascii_of_N (Z.to_N z).

Lemma byte_val_range c : 0 <= byte_val c < 256.
Proof. unfold byte_val. pose proof (N_ascii_bounded c). lia. Qed.

Lemma byte_chr_val c : byte_chr (byte_val c) = c.
Proof. unfold byte_chr, byte_val. rewrite N2Z.id. apply ascii_N_embedding. Qed.

Lemma byte_chr_eq z c : z = byte_val c → byte_chr z = c.
Proof. intros ->. apply byte_chr_val. Qed.

(** A table lookup for finitely many values: all of [0, n) pass the test. *)
Lemma all_below (P : Z → Prop) `{∀ z, Decision (P z)} n z :
  forallb (fun z => bool_decide (P z)) (seqZ 0 n) = true → 0 <= z < n → P z.
Proof. rewrite forallb_forall. intros Hf Hz. eapply bool_decide_eq_true, Hf, list_elem_of_In, elem_of_seqZ. lia. Qed.

(** ** Hexadecimal *)

Definition hex_of (d : Z) : ascii := byte_chr (if d <? 10 then d + 48 else d + 87).
Definition of_hex (c : ascii) : option Z :=
  let n := byte_val c in
  if (48 <=? n) && (n <=? 57) then Some (n - 48)
  else if (97 <=? n) && (n <=? 102) then Some (n - 87)
  else if (65 <=? n) && (n <=? 70) then Some (n - 55)
  else None.

Fixpoint hex_EncodeToString (b : string) : string :=
  match b with
  | "" => ""
  | String c b => String (hex_of (byte_val c / 16)) (String (hex_of (byte_val c mod 16)) (hex_EncodeToString b))
  end.

Fixpoint hex_DecodeString (s : string) : option string :=
  match s with
  | "" => Some ""
  | String h (String l s) =>
      h ← of_hex h; l ← of_hex l; b ← hex_DecodeString s; Some (String (byte_chr (h * 16 + l)) b)
  | _ => None
  end.

Lemma of_hex_of d : 0 <= d < 16 → of_hex (hex_of d) = Some d.
Proof. apply (all_below (fun d => of_hex (hex_of d) = Some d)). vm_compute. reflexivity. Qed.

Lemma hex_roundtrip b : hex_DecodeString (hex_EncodeToString b) = Some b.
Proof.
  induction b as [|c b IH]; [done|]. cbn [hex_EncodeToString hex_DecodeString].
  pose proof (byte_val_range c). rewrite !of_hex_of by (Z.div_mod_to_equations; lia).
  cbn [mbind option_bind]. rewrite IH. cbn [mbind option_bind]. do 2 f_equal. apply byte_chr_eq.
  Z.div_mod_to_equations; lia.
Qed.

Lemma hex_length b : String.length (hex_EncodeToString b) = (2 * String.length b)%nat.
Proof. induction b as [|c b IH]; [done|]. cbn. rewrite IH. lia. Qed.

(** ** Base64 *)

Definition b64_char (n : Z) : ascii :=
  byte_chr (if n <? 26 then n + 65 else if n <? 52 then n + 71 else if n <? 62 then n - 4
            else if n =? 62 then 43 else 47).

Definition of_b64 (c : ascii) : option Z :=
  let n := byte_val c in
  if (65 <=? n) && (n <=? 90) then Some (n - 65)
  else if (97 <=? n) && (n <=? 122) then Some (n - 71)
  else if (48 <=? n) && (n <=? 57) then Some (n + 4)
  else if n =? 43 then Some 62
  else if n =? 47 then Some 63
  else None.

Definition pad : ascii := "=".

Fixpoint b64_Encode (s : string) : string :=
  match s with
  | "" => ""
  | String a "" =>
      let a := byte_val a in
      String (b64_char (a / 4)) (String (b64_char (a mod 4 * 16)) (String pad (String pad "")))
  | String a (String b "") =>
      let a := byte_val a in let b := byte_val b in
      String (b64_char (a / 4)) (String (b64_char (a mod 4 * 16 + b / 16))
        (String (b64_char (b mod 16 * 4)) (String pad "")))
  | String a (String b (String c s)) =>
      let a := byte_val a in let b := byte_val b in let c := byte_val c in
      String (b64_char (a / 4)) (String (b64_char (a mod 4 * 16 + b / 16))
        (String (b64_char (b mod 16 * 4 + c / 64)) (String (b64_char (c mod 64)) (b64_Encode s))))
  end.

(** [padded]: [StdEncoding]; without, [RawStdEncoding]. *)
Fixpoint b64_groups (padded : bool) (s : string) : option string :=
  match s with
  | "" => Some ""
  | String c1 (String c2 (String c3 (String c4 s))) =>
      n1 ← of_b64 c1; n2 ← of_b64 c2;
      if padded && Ascii.eqb c3 pad then
        if Ascii.eqb c4 pad && is_empty s then Some (String (byte_chr (n1 * 4 + n2 / 16)) "") else None
      else
        n3 ← of_b64 c3;
        let b1 := byte_chr (n1 * 4 + n2 / 16) in
        let b2 := byte_chr (n2 mod 16 * 16 + n3 / 4) in
        if padded && Ascii.eqb c4 pad then if is_empty s then Some (String b1 (String b2 "")) else None
        else
          n4 ← of_b64 c4; r ← b64_groups padded s;
          Some (String b1 (String b2 (String (byte_chr (n3 mod 4 * 64 + n4)) r)))
  | String c1 (String c2 (String c3 "")) =>
      if padded then None
      else
        n1 ← of_b64 c1; n2 ← of_b64 c2; n3 ← of_b64 c3;
        Some (String (byte_chr (n1 * 4 + n2 / 16)) (String (byte_chr (n2 mod 16 * 16 + n3 / 4)) ""))
  | String c1 (String c2 "") =>
      if padded then None
      else n1 ← of_b64 c1; n2 ← of_b64 c2; Some (String (byte_chr (n1 * 4 + n2 / 16)) "")
  | _ => None
  end.

(** The decoder passes over line breaks. *)
Fixpoint no_breaks (s : string) : string :=
  match s with
  | "" => ""
  | String c s => if (byte_val c =? 10) || (byte_val c =? 13) then no_breaks s else String c (no_breaks s)
  end.

Definition b64_Decode (padded : bool) (s : string) : option string := b64_groups padded (no_breaks s).

Lemma of_b64_char n : 0 <= n < 64 → of_b64 (b64_char n) = Some n.
Proof. apply (all_below (fun n => of_b64 (b64_char n) = Some n)). vm_compute. reflexivity. Qed.

Lemma b64_char_plain n : 0 <= n < 64 →
  Ascii.eqb (b64_char n) pad = false ∧ (byte_val (b64_char n) =? 10) || (byte_val (b64_char n) =? 13) = false.
Proof.
  apply (all_below (fun n => Ascii.eqb (b64_char n) pad = false
    ∧ (byte_val (b64_char n) =? 10) || (byte_val (b64_char n) =? 13) = false)). vm_compute. reflexivity.
Qed.

Lemma b64_char_pad n : 0 <= n < 64 → Ascii.eqb (b64_char n) pad = false.
Proof. intros H. apply (b64_char_plain n H). Qed.
Lemma b64_char_break n : 0 <= n < 64 → (byte_val (b64_char n) =? 10) || (byte_val (b64_char n) =? 13) = false.
Proof. intros H. apply (b64_char_plain n H). Qed.

(** Induction by groups of three bytes. *)
Lemma string_ind3 (P : string → Prop) :
  P "" → (∀ a, P (String a "")) → (∀ a b, P (String a (String b ""))) →
  (∀ a b c s, P s → P (String a (String b (String c s)))) → ∀ s, P s.
Proof.
  intros H0 H1 H2 H3. fix IH 1. intros [|a [|b [|c s]]]; [exact H0|apply H1|apply H2|]. apply H3, IH.
Qed.

Ltac byte_bounds :=
  repeat match goal with c : ascii |- _ =>
    lazymatch goal with H : 0 <= byte_val c < 256 |- _ => fail | _ => pose proof (byte_val_range c) end end.
Ltac byte_arith := byte_bounds; Z.div_mod_to_equations; lia.

Lemma b64_no_breaks s : no_breaks (b64_Encode s) = b64_Encode s.
Proof.
  induction s as [|a|a b|a b c s IH] using string_ind3; [done|..]; cbn [b64_Encode no_breaks];
    rewrite ?b64_char_break by byte_arith.
  - reflexivity.
  - reflexivity.
  - by rewrite IH.
Qed.

Lemma b64_roundtrip s : b64_Decode true (b64_Encode s) = Some s.
Proof.
  unfold b64_Decode. rewrite b64_no_breaks.
  induction s as [|a|a b|a b c s IH] using string_ind3; [done|..]; cbn [b64_Encode b64_groups andb];
    rewrite !of_b64_char by byte_arith; cbn [mbind option_bind];
    rewrite ?b64_char_pad by byte_arith; rewrite ?of_b64_char by byte_arith; cbn [mbind option_bind].
  - cbn. do 2 f_equal. apply byte_chr_eq. byte_arith.
  - cbn. f_equal. f_equal; [|f_equal]; apply byte_chr_eq; byte_arith.
  - rewrite IH. cbn [mbind option_bind]. f_equal. f_equal; [|f_equal; [|f_equal]]; apply byte_chr_eq; byte_arith.
Qed.

(** ** The key and the box *)

(** [cipher.AEAD] of a key: what it seals under a nonce it opens. *)
Class AEAD : Type := {
  Seal : string → string → string → string;
  Open : string → string → string → option string;
  Open_Seal : ∀ key nonce text, Open key nonce (Seal key nonce text) = Some text
}.

Definition keyLen : nat := 32.
Definition NonceSize : nat := 12.

Definition parseKey (s : string) : result string :=
  let s := TrimSpace s in
  let ok b := (String.length b =? keyLen)%nat in
  match (if (String.length s =? 2 * keyLen)%nat then hex_DecodeString s else None) with
  | Some b => Ok b
  | None =>
      match b64_Decode true s with
      | Some b => if ok b then Ok b else
                    match b64_Decode false s with
                    | Some b => if ok b then Ok b else Err "secret: key must be 32 bytes (hex or base64)"
                    | None => Err "secret: key must be 32 bytes (hex or base64)"
                    end
      | None =>
          match b64_Decode false s with
          | Some b => if ok b then Ok b else Err "secret: key must be 32 bytes (hex or base64)"
          | None => Err "secret: key must be 32 bytes (hex or base64)"
          end
      end
  end.

(** A box is the cipher of its key. *)
Definition newBox (key : string) : result string :=
  if (String.length key =? keyLen)%nat then Ok key else Err "secret: key must be 32 bytes".

Definition FromString (key : string) : result string := let? b := parseKey key in newBox b.

(** The key file: its content, or why it cannot be read. *)
Inductive keyfile : Type := Absent | Unreadable (msg : string) | Holds (content : string).

(** [fresh]: what [rand.Read] gave; [stored]: the error of writing the file, if any. *)
Definition Secret_Load (keyString : string) (fresh : string) (stored : option string) (f : keyfile)
    : keyfile * result string :=
  if negb (is_empty (TrimSpace keyString)) then (f, FromString keyString)
  else match f with
       | Holds data => (f, FromString data)
       | Unreadable e => (f, Err e)
       | Absent =>
           match stored with
           | Some e => (f, Err e)
           | None => (Holds (hex_EncodeToString fresh), newBox fresh)
           end
       end.

Section Box.
Context `{AEAD}.

Definition Encrypt (box nonce plaintext : string) : string := b64_Encode (nonce +:+ Seal box nonce plaintext).

Definition Decrypt (box encoded : string) : result string :=
  match b64_Decode true encoded with
  | None => Err "illegal base64 data"
  | Some sealed =>
      if (String.length sealed <? NonceSize)%nat then Err "secret: ciphertext too short"
      else match Open box (stake NonceSize sealed) (sdrop NonceSize sealed) with
           | Some text => Ok text
           | None => Err "cipher: message authentication failed"
           end
  end.

Lemma Decrypt_Encrypt box nonce text :
  String.length nonce = NonceSize → Decrypt box (Encrypt box nonce text) = Ok text.
Proof.
  intros Hn. unfold Decrypt, Encrypt. rewrite b64_roundtrip, length_app_str, <- Hn.
  destruct (Nat.ltb_spec (String.length nonce + String.length (Seal box nonce text)) (String.length nonce)); [lia|].
  by rewrite stake_app, sdrop_app, Open_Seal.
Qed.

Lemma hex_of_plain d : 0 <= d < 16 → is_space (hex_of d) = false.
Proof. apply (all_below (fun d => is_space (hex_of d) = false)). vm_compute. reflexivity. Qed.

Lemma hex_no_spaces b : no_space (hex_EncodeToString b) = true.
Proof.
  induction b as [|c b IH]; [done|]. cbn. pose proof (byte_val_range c).
  by rewrite !hex_of_plain, IH by (Z.div_mod_to_equations; lia).
Qed.

Lemma parseKey_hex key : String.length key = keyLen → parseKey (hex_EncodeToString key) = Ok key.
Proof.
  intros Hk. unfold parseKey. rewrite no_space_trim by apply hex_no_spaces. rewrite hex_length, Hk.
  cbn [Nat.eqb]. by rewrite Nat.eqb_refl, hex_roundtrip.
Qed.

(** A password sealed before a restart of the driver opens after it: the key
    drawn on the first start is the one every later start finds in the key file,
    and it opens what was sealed with it. *)
Theorem secrets_survive fresh fresh' stored' nonce text :
  String.length fresh = keyLen → String.length nonce = NonceSize →
  let '(file, first) := Secret_Load "" fresh None Absent in
  let '(file', later) := Secret_Load "" fresh' stored' file in
  file' = file ∧ ∃ box, first = Ok box ∧ later = Ok box ∧ Decrypt box (Encrypt box nonce text) = Ok text.
Proof.
  intros Hf Hn. cbn. split; [done|]. exists fresh. unfold FromString, newBox.
  rewrite parseKey_hex by done. cbn. rewrite Hf, Nat.eqb_refl. split_and!; try done. by apply Decrypt_Encrypt.
Qed.

End Box.

(** A cipher that hides nothing is enough to run the code. *)
#[local] Program Instance plain_aead : AEAD :=
  {| Seal key nonce text := text; Open key nonce text := Some text |}.
Next Obligation. done. Qed.

Definition demo_key : string := "0123456789abcdefghijklmnopqrstuv".

Lemma secrets_survive_witness :
  ∃ box, (Secret_Load "" demo_key None Absent).2 = Ok box
    ∧ Decrypt box (Encrypt box "abcdefghijkl" "changeme") = Ok "changeme".
Proof.
  destruct (secrets_survive demo_key "" None "abcdefghijkl" "changeme" eq_refl eq_refl) as (_ & box & H1 & _ & H2).
  by exists box.
Defined.

Example sealed_text : Encrypt demo_key "abcdefghijkl" "changeme" = "YWJjZGVmZ2hpamtsY2hhbmdlbWU=".
Proof. vm_compute. reflexivity. Qed.
