(* ===== verification/Machines.v ===== *)
(** * The machine store (internal/inventory model.go, store.go, importer.go)

    One file per machine: its BMC with the sealed password, the hardware facts
    last discovered, and the cluster nodes it is assigned to.  A file that does
    not decode is skipped where the store scans the directory and is an error
    where it is asked for.  Whether a write works is up to the disk.  The store has
    no lock; its operations are modelled one after the other, and
    [stale_write_back] shows what two at once can do. *)
From S2P Require Import Prelude GoStrings Secret.
From Stdlib Require Import Sorted Ascii.

Open Scope string_scope.
Open Scope list_scope.
Open Scope Z_scope.

Record BMC : Type := mkBMC { bmc_Address : string; bmc_Username : string; bmc_Cipher : Z }.

Record NIC : Type := mkNIC {
  nic_Name : string;
  nic_MAC : string;
  nic_PCIAddr : string;
  nic_PCIVendor : string;
  nic_SpeedMbps : Z;
  nic_Up : bool;
  nic_Carrier : option bool
}.

Record HwDisk : Type := mkHwDisk {
  disk_Name : string;
  disk_Model : string;
  disk_SizeBytes : Z;
  disk_Type : string;
  disk_Tran : string;
  disk_OSEligible : option bool
}.

Record Card : Type := mkCard { card_Slot : string; card_Name : string; card_Type : string }.

Record Inventory : Type := mkInventory {
  inv_FetchedAt : string;
  inv_Source : string;
  inv_Manufacturer : string;
  inv_Model : string;
  inv_Serial : string;
  inv_CPUModel : string;
  inv_CPUCount : Z;
  inv_CPUCores : Z;
  inv_MemoryBytes : Z;
  inv_NICs : list NIC;
  inv_Disks : list HwDisk;
  inv_Cards : list Card
}.

Record Assignment : Type := mkAssignment { as_ClusterID : string; as_Hostname : string; as_OSDisk : string }.
#[export] Instance Assignment_eq_dec : EqDecision Assignment.
Proof. solve_decision. Defined.

Inductive FetchState := FetchIdle | FetchFetching | FetchOK | FetchError.

(** The API's view: no password. *)
Record Machine : Type := mkMachine {
  mc_ID : string;
  mc_Label : string;
  mc_BMC : BMC;
  mc_HasPassword : bool;
  mc_Inventory : option Inventory;
  mc_FetchState : FetchState;
  mc_FetchError : string;
  mc_Assignment : option Assignment;
  mc_Assignments : list Assignment
}.

(** The file's content; an absent [fetchState] reads as idle. *)
Record record : Type := mkRecord {
  rc_ID : string;
  rc_Label : string;
  rc_BMC : BMC;
  rc_PasswordEnc : string;
  rc_Inventory : option Inventory;
  rc_FetchState : option FetchState;
  rc_FetchError : string;
  rc_Assignment : option Assignment;   (* the field of older files *)
  rc_Assignments : list Assignment
}.

Definition set_rc_assignments (l : list Assignment) (r : record) : record :=
  mkRecord r.(rc_ID) r.(rc_Label) r.(rc_BMC) r.(rc_PasswordEnc) r.(rc_Inventory) r.(rc_FetchState)
    r.(rc_FetchError) None l.
Definition set_rc_fetch (s : FetchState) (e : string) (r : record) : record :=
  mkRecord r.(rc_ID) r.(rc_Label) r.(rc_BMC) r.(rc_PasswordEnc) r.(rc_Inventory) (Some s) e
    r.(rc_Assignment) r.(rc_Assignments).
Definition set_rc_inventory (i : Inventory) (r : record) : record :=
  mkRecord r.(rc_ID) r.(rc_Label) r.(rc_BMC) r.(rc_PasswordEnc) (Some i) (Some FetchOK) ""
    r.(rc_Assignment) r.(rc_Assignments).
Definition set_rc_login (label : string) (b : BMC) (enc : string) (r : record) : record :=
  mkRecord r.(rc_ID) label b enc r.(rc_Inventory) r.(rc_FetchState) r.(rc_FetchError)
    r.(rc_Assignment) r.(rc_Assignments).

(** The list, or the older single field. *)
Definition assignments (r : record) : list Assignment :=
  match r.(rc_Assignments), r.(rc_Assignment) with
  | [], Some a => [a]
  | l, _ => l
  end.

Definition toMachine (r : record) : Machine :=
  mkMachine r.(rc_ID) r.(rc_Label) r.(rc_BMC) (negb (is_empty r.(rc_PasswordEnc))) r.(rc_Inventory)
    (default FetchIdle r.(rc_FetchState)) r.(rc_FetchError) (head (assignments r)) (assignments r).

Definition AssignmentFor (m : Machine) (clusterID : string) : option Assignment :=
  find (fun a => (a.(as_ClusterID) =? clusterID)%string) m.(mc_Assignments).

(** ** Files *)

(** By file name; [None]: a file that does not decode. *)
Notation machines := (gmap string (option record)).

Definition ErrMachineNotFound : string := "machine not found".

Definition readRecord (id : string) (s : machines) : result record :=
  match s !! id with
  | Some (Some r) => Ok r
  | Some None => Err "invalid record"
  | None => Err ErrMachineNotFound
  end.

(** [os.ReadDir]: in the order of the names. *)
Definition record_ids (s : machines) : list string := SortStrings (map_to_list s).*1.

Record Input : Type := mkInput {
  in_Label : string;
  in_Address : string;
  in_Username : string;
  in_Cipher : Z;
  in_Password : option string
}.

Definition validate_input (i : Input) : result unit :=
  if is_empty (TrimSpace i.(in_Label)) then Err "label is required"
  else if is_empty (TrimSpace i.(in_Address)) then Err "bmc address is required"
  else Ok tt.

Section Store.
Context `{AEAD} (box : string).
(** Which files can be written while an operation runs; it writes a file at most
    once. *)
Context (writable : string → bool).

(** A temporary file and a rename: the file has the old or the new content. *)
Definition writeRecord (r : record) (s : machines) : machines * result unit :=
  if writable r.(rc_ID) then (<[r.(rc_ID) := Some r]> s, Ok tt) else (s, Err "write failed").

(** Write, and answer with the API's view. *)
Definition save (r : record) (s : machines) : machines * result Machine :=
  let '(s, e) := writeRecord r s in (s, let? _ := e in Ok (toMachine r)).

(** [id], [nonce]: what the two [rand.Read] give. *)
Definition Machine_Create (id nonce : string) (i : Input) (s : machines) : machines * result Machine :=
  match validate_input i with
  | Err e => (s, Err e)
  | Ok _ =>
      let enc := match i.(in_Password) with
                 | Some p => if is_empty p then "" else Encrypt box nonce p
                 | None => ""
                 end in
      save (mkRecord id i.(in_Label) (mkBMC i.(in_Address) i.(in_Username) i.(in_Cipher)) enc None
              (Some FetchIdle) "" None []) s
  end.

Definition Machine_Update (nonce id : string) (i : Input) (s : machines) : machines * result Machine :=
  match validate_input i with
  | Err e => (s, Err e)
  | Ok _ =>
      match readRecord id s with
      | Err e => (s, Err e)
      | Ok r =>
          let enc := match i.(in_Password) with
                     | Some p => if is_empty p then "" else Encrypt box nonce p
                     | None => r.(rc_PasswordEnc)
                     end in
          save (set_rc_login i.(in_Label) (mkBMC i.(in_Address) i.(in_Username) i.(in_Cipher)) enc r) s
      end
  end.

Definition Machine_Delete (id : string) (s : machines) : machines * result unit :=
  match readRecord id s with
  | Err e => (s, Err e)
  | Ok _ => if writable id then (delete id s, Ok tt) else (s, Err "remove failed")
  end.

Definition Machine_Get (id : string) (s : machines) : result Machine :=
  let? r := readRecord id s in Ok (toMachine r).

Definition label_le (a b : Machine) : Prop := string_le a.(mc_Label) b.(mc_Label).
#[export] Instance label_le_dec : RelDecision label_le.
Proof. intros a b. unfold label_le. apply _. Defined.

(** [sort.Slice] leaves the order of equal labels open; here they stay in the
    order of the files. *)
Definition Machine_List (s : machines) : list Machine :=
  merge_sort label_le
    (omap (fun id => match readRecord id s with Ok r => Some (toMachine r) | Err _ => None end) (record_ids s)).

Definition Credentials (id : string) (s : machines) : result (string * string * string) :=
  let? r := readRecord id s in
  let b := r.(rc_BMC) in
  if is_empty r.(rc_PasswordEnc) then Ok (b.(bmc_Address), b.(bmc_Username), "")
  else match Decrypt box r.(rc_PasswordEnc) with
       | Ok p => Ok (b.(bmc_Address), b.(bmc_Username), p)
       | Err e => Err ("decrypt password: " +:+ e)
       end.

Definition SetFetchState (id : string) (st : FetchState) (fetchErr : string) (s : machines) : machines * result unit :=
  match readRecord id s with
  | Err e => (s, Err e)
  | Ok r => writeRecord (set_rc_fetch st fetchErr r) s
  end.

(** ** Assignments *)

Definition is_node (clusterID hostname : string) (a : Assignment) : bool :=
  (a.(as_ClusterID) =? clusterID)%string && (a.(as_Hostname) =? hostname)%string.

(** [removeAssignment] and the loop of [UnassignCluster]: the record without the
    bindings that [drop] selects, and whether there were any. *)
Definition drop_assignments (drop : Assignment → bool) (r : record) : record * bool :=
  (set_rc_assignments (List.filter (fun a => negb (drop a)) (assignments r)) r, existsb drop (assignments r)).

Definition removeAssignment (clusterID hostname : string) (r : record) : record * bool :=
  drop_assignments (is_node clusterID hostname) r.

(** Over the files, up to the first write that fails. *)
Fixpoint clear_files (clear : record → record * bool) (ids : list string) (s : machines) : machines * result unit :=
  match ids with
  | [] => (s, Ok tt)
  | id :: ids =>
      match readRecord id s with
      | Err _ => clear_files clear ids s
      | Ok other =>
          let '(other, changed) := clear other in
          if negb changed then clear_files clear ids s
          else match writeRecord other s with
               | (s, Err e) => (s, Err e)
               | (s, Ok _) => clear_files clear ids s
               end
      end
  end.

(** Update the node's disk, or add the binding at the end. *)
Fixpoint assign_in (clusterID hostname osDisk : string) (l : list Assignment) : list Assignment :=
  match l with
  | [] => [mkAssignment clusterID hostname osDisk]
  | a :: l =>
      if is_node clusterID hostname a then mkAssignment clusterID hostname osDisk :: l
      else a :: assign_in clusterID hostname osDisk l
  end.

Definition Assign (id clusterID hostname osDisk : string) (s : machines) : machines * result Machine :=
  match readRecord id s with
  | Err e => (s, Err e)
  | Ok target =>
      let others := List.filter (fun o => negb (o =? id)%string) (record_ids s) in
      match clear_files (removeAssignment clusterID hostname) others s with
      | (s, Err e) => (s, Err e)
      | (s, Ok _) => save (set_rc_assignments (assign_in clusterID hostname osDisk (assignments target)) target) s
      end
  end.

Definition Unassign (id : string) (s : machines) : machines * result Machine :=
  match readRecord id s with
  | Err e => (s, Err e)
  | Ok r => save (set_rc_assignments [] r) s
  end.

Definition UnassignCluster (clusterID : string) (s : machines) : machines * result unit :=
  clear_files (drop_assignments (fun a => (a.(as_ClusterID) =? clusterID)%string)) (record_ids s) s.

(** ** Inventory *)

Definition or_prev {A} (gone : bool) (next prev : A) : A := if gone then prev else next.
Definition no_items {A} (l : list A) : bool := match l with [] => true | _ => false end.

Definition mergeInventory (next prev : Inventory) : Inventory :=
  let text f := or_prev (is_empty (f next)) (f next) (f prev) in
  let num f := or_prev (f next =? 0) (f next) (f prev) in
  mkInventory next.(inv_FetchedAt) next.(inv_Source) (text inv_Manufacturer) (text inv_Model) (text inv_Serial)
    (text inv_CPUModel) (num inv_CPUCount) (num inv_CPUCores) (num inv_MemoryBytes)
    (or_prev (no_items next.(inv_NICs)) next.(inv_NICs) prev.(inv_NICs))
    (or_prev (no_items next.(inv_Disks)) next.(inv_Disks) prev.(inv_Disks))
    (or_prev (no_items next.(inv_Cards)) next.(inv_Cards) prev.(inv_Cards)).

Definition SetInventory (id : string) (inv : Inventory) (s : machines) : machines * result unit :=
  match readRecord id s with
  | Err e => (s, Err e)
  | Ok r =>
      let inv := match r.(rc_Inventory) with Some prev => mergeInventory inv prev | None => inv end in
      writeRecord (set_rc_inventory inv r) s
  end.

End Store.

(** ** Who holds which node *)

(** Machine [i] is bound to the node, with that system disk. *)
Definition bound (s : machines) (c h i d : string) : Prop :=
  ∃ r, s !! i = Some (Some r) ∧ mkAssignment c h d ∈ assignments r.

Definition node_of_assignment (a : Assignment) : string * string := (a.(as_ClusterID), a.(as_Hostname)).

(** Files are named by their machine, a machine has a node once, and no two
    machines have the same node. *)
Record well_assigned (s : machines) : Prop := {
  wa_named : ∀ i r, s !! i = Some (Some r) → r.(rc_ID) = i;
  wa_once : ∀ i r, s !! i = Some (Some r) → NoDup (node_of_assignment <$> assignments r);
  wa_apart : ∀ i j c h d e, bound s c h i d → bound s c h j e → i = j
}.

Lemma assignments_set l r : assignments (set_rc_assignments l r) = l.
Proof. by destruct l. Qed.

Lemma is_node_true c h a : is_node c h a = true ↔ node_of_assignment a = (c, h).
Proof.
  unfold is_node, node_of_assignment. rewrite andb_true_iff, !String.eqb_eq. split; [by intros [-> ->]|by intros [= -> ->]].
Qed.

Lemma readRecord_Ok id s r : readRecord id s = Ok r ↔ s !! id = Some (Some r).
Proof. unfold readRecord. destruct (s !! id) as [[r'|]|]; split; congruence. Qed.

Definition keeps_node (drop : Assignment → bool) (l : list Assignment) : list Assignment :=
  List.filter (fun a => negb (drop a)) l.

Lemma keeps_all drop l : existsb drop l = false → keeps_node drop l = l.
Proof.
  induction l as [|a l IH]; [done|]. cbn. intros [Ha Hl]%orb_false_iff. rewrite Ha. cbn. f_equal. by apply IH.
Qed.

Lemma elem_of_keeps drop l a : a ∈ keeps_node drop l ↔ a ∈ l ∧ drop a = false.
Proof. unfold keeps_node. by rewrite !list_elem_of_In, filter_In, negb_true_iff. Qed.

Lemma keeps_NoDup {B} (f : Assignment → B) drop l : NoDup (f <$> l) → NoDup (f <$> keeps_node drop l).
Proof.
  unfold keeps_node. induction l as [|a l IH]; [done|]. cbn. intros [Ha Hl]%NoDup_cons.
  destruct (drop a); cbn; [by apply IH|]. apply NoDup_cons. split; [|by apply IH]. intros Hin. apply Ha.
  apply list_elem_of_fmap in Hin as (x & -> & Hx). apply list_elem_of_In, filter_In in Hx as [Hx _].
  by apply list_elem_of_fmap_2, list_elem_of_In.
Qed.

Section Holding.
Context (writable : string → bool).

Lemma writeRecord_cases r s s' e :
  writeRecord writable r s = (s', e) →
  (s' = <[r.(rc_ID) := Some r]> s ∧ e = Ok tt) ∨ (s' = s ∧ e ≠ Ok tt).
Proof. unfold writeRecord. destruct (writable _); intros [= <- <-]; [by left|by right]. Qed.

Lemma clear_files_ok clear ids s s' e :
  (∀ i, writable i = true) → clear_files writable clear ids s = (s', e) → e = Ok tt.
Proof.
  intros Hwr. revert s. induction ids as [|j ids IH]; intros s; cbn; [by intros [= _ <-]|].
  destruct (readRecord j s) as [o|]; [|apply IH]. destruct (clear o) as [o' changed]. destruct changed; cbn; [|apply IH].
  unfold writeRecord. rewrite Hwr. apply IH.
Qed.

(** What clearing did to a machine's bindings; all of them once it came through. *)
Definition cleared (drop : Assignment → bool) (ids : list string) (e : result unit) (j : string)
    (o o' : option (option record)) : Prop :=
  match o with
  | Some (Some r) =>
      ∃ r', o' = Some (Some r') ∧ r'.(rc_ID) = r.(rc_ID)
      ∧ (assignments r' = assignments r ∨ assignments r' = keeps_node drop (assignments r))
      ∧ (e = Ok tt → j ∈ ids → assignments r' = keeps_node drop (assignments r))
      ∧ (j ∉ ids → r' = r)
  | o => o' = o
  end.

Lemma clear_files_spec drop ids s s' e :
  (∀ i r, s !! i = Some (Some r) → r.(rc_ID) = i) → NoDup ids →
  clear_files writable (drop_assignments drop) ids s = (s', e) →
  ∀ j, cleared drop ids e j (s !! j) (s' !! j).
Proof.
  revert s. induction ids as [|id ids IH]; intros s Hn Hd Hc j.
  - injection Hc as <- <-. unfold cleared. destruct (s !! j) as [[r|]|]; [|done..].
    exists r. split_and!; try done; [by left|]. intros _ Hj. by apply elem_of_nil in Hj.
  - apply NoDup_cons in Hd as [Hid Hd].
    assert (∀ j o o' r0, (j = id → o = Some (Some r0) → assignments r0 = keeps_node drop (assignments r0)) →
      (j = id → ∀ r, o = Some (Some r) → r = r0) →
      cleared drop ids e j o o' → cleared drop (id :: ids) e j o o') as Hmore.
    { intros k o o' r0 H1 H2 H. unfold cleared in *. destruct o as [[r|]|]; [|done..].
      destruct H as (r' & -> & Hi & Ha & Hok & Hout). exists r'. split_and!; try done.
      - intros He [->|Hk]%elem_of_cons; [|by apply Hok]. assert (r' = r) as -> by by apply Hout.
        assert (r = r0) as -> by by apply H2. by apply H1.
      - intros Hk. apply Hout. set_solver. }
    cbn [clear_files] in Hc. destruct (readRecord id s) as [r|m] eqn:Er.
    + apply readRecord_Ok in Er. unfold drop_assignments in Hc. cbv zeta in Hc. cbn iota in Hc.
      destruct (existsb drop (assignments r)) eqn:Ex; cbn [negb] in Hc.
      * set (r1 := set_rc_assignments _ r) in Hc. assert (rc_ID r1 = id) as Hr1 by exact (Hn _ _ Er).
        destruct (writeRecord writable r1 s) as [s1 [[]|msg]] eqn:Ew.
        -- apply writeRecord_cases in Ew as [[-> _]|[_ Hne]]; [|done]. rewrite Hr1 in Hc.
           assert (∀ i q, <[id := Some r1]> s !! i = Some (Some q) → rc_ID q = i) as Hn1.
           { intros i q [[<- [= <-]]|[_ Hq]]%lookup_insert_Some; [done|by apply Hn]. }
           specialize (IH _ Hn1 Hd Hc j). destruct (decide (j = id)) as [->|Hj].
           ++ rewrite lookup_insert_eq in IH. rewrite Er. cbn in IH |- *. destruct IH as (r' & -> & Hi & _ & _ & Hout).
              rewrite (Hout Hid). exists r1. split_and!; try done; [| |set_solver].
              ** right. apply assignments_set.
              ** intros. apply assignments_set.
           ++ rewrite lookup_insert_ne in IH by done. by apply (Hmore _ _ _ r).
        -- apply writeRecord_cases in Ew as [[_ ?]|[-> _]]; [done|]. injection Hc as <- <-.
           unfold cleared. destruct (s !! j) as [[q|]|]; [|done..]. exists q. split_and!; try done; by left.
      * apply (Hmore _ _ _ r); [|intros -> q; by rewrite Er; intros [= ->]|by apply (IH s)].
        intros _ _. by rewrite keeps_all.
    + specialize (IH s Hn Hd Hc j). destruct (decide (j = id)) as [->|Hj].
      * unfold cleared in *. destruct (s !! id) as [[q|]|] eqn:Eq; [|done..].
        apply readRecord_Ok in Eq. congruence.
      * unfold cleared in *. destruct (s !! j) as [[q|]|]; [|done..].
        destruct IH as (r' & -> & Hi & Ha & Hok & Hout). exists r'. split_and!; try done.
        -- intros He Hk. apply Hok; [done|set_solver].
        -- intros Hk. apply Hout. set_solver.
Qed.

End Holding.

Lemma elem_of_record_ids (s : machines) i : i ∈ record_ids s ↔ is_Some (s !! i).
Proof.
  unfold record_ids. rewrite SortStrings_perm, list_elem_of_fmap. split.
  - intros ([k v] & -> & Hk). apply elem_of_map_to_list in Hk. by exists v.
  - intros [v Hv]. exists (i, v). split; [done|]. by apply elem_of_map_to_list.
Qed.

Lemma record_ids_NoDup (s : machines) : NoDup (record_ids s).
Proof. unfold record_ids. rewrite SortStrings_perm. apply NoDup_fst_map_to_list. Qed.

Lemma assign_in_elem c h d l a :
  NoDup (node_of_assignment <$> l) →
  a ∈ assign_in c h d l ↔ if decide (node_of_assignment a = (c, h)) then a = mkAssignment c h d else a ∈ l.
Proof.
  induction l as [|b l IH]; cbn.
  - intros _. rewrite list_elem_of_singleton. destruct (decide _) as [|Hn]; [done|]. split; [|by intros ?%elem_of_nil].
    intros ->. by destruct Hn.
  - intros [Hb Hl]%NoDup_cons. specialize (IH Hl). destruct (is_node c h b) eqn:Eb.
    + apply is_node_true in Eb. rewrite !elem_of_cons. destruct (decide _) as [Ha|Ha].
      * split; [|by left]. intros [?|Hin]; [done|]. destruct Hb. rewrite Eb, <- Ha. by apply list_elem_of_fmap_2.
      * rewrite elem_of_cons. split; (intros [->|?]; [by destruct Ha|by right]).
    + rewrite !elem_of_cons, IH. apply not_true_iff_false in Eb. rewrite is_node_true in Eb.
      destruct (decide _) as [Ha|Ha]; [|by rewrite elem_of_cons]. split; [intros [->|?]; done|by right].
Qed.

Lemma assign_in_once c h d l : NoDup (node_of_assignment <$> l) → NoDup (node_of_assignment <$> assign_in c h d l).
Proof.
  induction l as [|b l IH]; cbn; [intros _; apply NoDup_singleton|]. intros [Hb Hl]%NoDup_cons.
  destruct (is_node c h b) eqn:Eb; cbn.
  - apply is_node_true in Eb. apply NoDup_cons. change (node_of_assignment (mkAssignment c h d)) with (c, h).
    by rewrite <- Eb.
  - apply NoDup_cons. split; [|by apply IH]. intros (a & Ha & Hin)%list_elem_of_fmap.
    apply assign_in_elem in Hin; [|done]. apply not_true_iff_false in Eb. rewrite is_node_true in Eb.
    destruct (decide _) as [Hd|_]; [congruence|]. apply Hb. rewrite Ha. by apply list_elem_of_fmap_2.
Qed.

(** A write that keeps, or takes away, a machine's bindings. *)
Lemma bound_insert (s : machines) r c h i d :
  bound (<[r.(rc_ID) := Some r]> s) c h i d
  ↔ (i = r.(rc_ID) ∧ mkAssignment c h d ∈ assignments r) ∨ (i ≠ r.(rc_ID) ∧ bound s c h i d).
Proof.
  unfold bound. destruct (decide (i = rc_ID r)) as [->|Hne].
  - rewrite lookup_insert_eq. split; [intros (q & [= <-] & Hq); by left|]. intros [[_ Hin]|[? _]]; [|done]. by exists r.
  - rewrite lookup_insert_ne by done. naive_solver.
Qed.

Section Spec.
Context (writable : string → bool).

(** Clearing keeps the store well assigned and only takes bindings away; it takes
    exactly the selected ones of the files it went through once it came through. *)
Lemma clear_bound drop ids s s' e :
  well_assigned s → NoDup ids → clear_files writable (drop_assignments drop) ids s = (s', e) →
  well_assigned s'
  ∧ (∀ c h i d, bound s' c h i d → bound s c h i d)
  ∧ (e = Ok tt → ∀ c h i d, bound s' c h i d ↔ bound s c h i d ∧ (i ∈ ids → drop (mkAssignment c h d) = false))
  ∧ (∀ j, j ∉ ids → s' !! j = s !! j).
Proof.
  intros [Hn Ho Ha] Hd Hc. pose proof (clear_files_spec writable drop ids s s' e Hn Hd Hc) as Hs.
  assert (∀ j r', s' !! j = Some (Some r') → ∃ r, s !! j = Some (Some r) ∧ r'.(rc_ID) = r.(rc_ID)
    ∧ (assignments r' = assignments r ∨ assignments r' = keeps_node drop (assignments r))
    ∧ (e = Ok tt → j ∈ ids → assignments r' = keeps_node drop (assignments r)) ∧ (j ∉ ids → r' = r)) as Hback.
  { intros j r' Hj. specialize (Hs j). unfold cleared in Hs. destruct (s !! j) as [[r|]|]; [|congruence..].
    destruct Hs as (q & Hq & Hrest). exists r. assert (q = r') as <- by congruence. by split. }
  assert (∀ c h i d, bound s' c h i d → bound s c h i d) as Hsub.
  { intros c h i d (r' & Hr' & Hin). destruct (Hback _ _ Hr') as (r & Hr & _ & [Heq|Heq] & _); exists r;
      (split; [done|]); rewrite Heq in Hin; [done|]. by apply elem_of_keeps in Hin as [? _]. }
  split_and!.
  - split.
    + intros i r' Hr'. destruct (Hback _ _ Hr') as (r & Hr & -> & _). by apply Hn.
    + intros i r' Hr'. destruct (Hback _ _ Hr') as (r & Hr & _ & [Heq|Heq] & _); rewrite Heq; [by eapply Ho|].
      apply keeps_NoDup. by eapply Ho.
    + intros i j c h d d' Hi Hj. eapply Ha; by apply Hsub.
  - done.
  - intros He c h i d. split.
    + intros Hb. split; [by apply Hsub|]. intros Hi. destruct Hb as (r' & Hr' & Hin).
      destruct (Hback _ _ Hr') as (r & Hr & _ & _ & Hok & _). rewrite (Hok He Hi) in Hin. by apply elem_of_keeps in Hin as [_ ?].
    + intros [(r & Hr & Hin) Hi]. specialize (Hs i). unfold cleared in Hs. rewrite Hr in Hs.
      destruct Hs as (r' & Hr' & _ & _ & Hok & Hout). exists r'. split; [done|].
      destruct (decide (i ∈ ids)) as [Hii|Hii]; [|by rewrite (Hout Hii)]. rewrite (Hok He Hii). apply elem_of_keeps. auto.
  - intros j Hj. specialize (Hs j). unfold cleared in Hs. destruct (s !! j) as [[r|]|]; [|done..].
    destruct Hs as (r' & -> & _ & _ & _ & Hout). by rewrite Hout.
Qed.

Lemma write_keeps r s s' e :
  well_assigned s → writeRecord writable r s = (s', e) →
  NoDup (node_of_assignment <$> assignments r) →
  (∀ c h d j e, mkAssignment c h d ∈ assignments r → bound s c h j e → j = r.(rc_ID)) →
  well_assigned s'.
Proof.
  intros Hw He Hnd Hin. apply writeRecord_cases in He as [[-> _]|[-> _]]; [|done]. split.
  - intros i q [[<- [= <-]]|[_ Hq]]%lookup_insert_Some; [done|by eapply wa_named].
  - intros i q [[<- [= <-]]|[_ Hq]]%lookup_insert_Some; [done|by eapply wa_once].
  - intros i j c h d d' [[-> Hi]|[Hni Hi]]%bound_insert [[-> Hj]|[Hnj Hj]]%bound_insert; try done.
    + symmetry. by eapply Hin.
    + by eapply Hin.
    + by eapply (wa_apart s Hw).
Qed.

(** A record that took over its bindings from the file of its name. *)
Lemma rewrite_keeps id r0 r s s' e :
  well_assigned s → s !! id = Some (Some r0) → r.(rc_ID) = r0.(rc_ID) →
  (assignments r = assignments r0 ∨ assignments r = []) → writeRecord writable r s = (s', e) → well_assigned s'.
Proof.
  intros Hw Hr Hid Ha He. pose proof (wa_named s Hw _ _ Hr) as Hn.
  apply (write_keeps r s s' e); [done|done| |].
  - destruct Ha as [-> | ->]; [by eapply wa_once|constructor].
  - intros c h d j d' Hin Hb. rewrite Hid, Hn. destruct Ha as [Ha|Ha]; rewrite Ha in Hin; [|by apply elem_of_nil in Hin].
    symmetry. eapply (wa_apart s Hw); [by exists r0|done].
Qed.

End Spec.

Section Assigning.
Context (writable : string → bool).

Lemma others_of id (s : machines) i :
  i ∈ List.filter (fun o => negb (o =? id)%string) (record_ids s) ↔ is_Some (s !! i) ∧ i ≠ id.
Proof.
  rewrite list_elem_of_In, filter_In, <- list_elem_of_In, elem_of_record_ids, negb_true_iff, String.eqb_neq. done.
Qed.

Lemma others_NoDup id (s : machines) : NoDup (List.filter (fun o => negb (o =? id)%string) (record_ids s)).
Proof. apply NoDup_ListNoDup, List.NoDup_filter, NoDup_ListNoDup, record_ids_NoDup. Qed.

(** What [Assign] does to every binding. *)
Definition reassigned (id c h d : string) (s s' : machines) (e : result Machine) : Prop :=
  match e with
  | Ok m => m.(mc_ID) = id ∧ ∀ c' h' i d',
      bound s' c' h' i d' ↔ if decide ((c', h') = (c, h)) then i = id ∧ d' = d else bound s c' h' i d'
  | Err _ => ∀ c' h' i d', bound s' c' h' i d' → bound s c' h' i d'
  end.

Lemma Assign_keeps id c h d s s' e :
  well_assigned s → Assign writable id c h d s = (s', e) → well_assigned s' ∧ reassigned id c h d s s' e.
Proof.
  intros Hw. unfold Assign. destruct (readRecord id s) as [target|m] eqn:Et; [|intros [= <- <-]; split; [done|]; cbn; auto].
  apply readRecord_Ok in Et. pose proof (wa_named s Hw _ _ Et) as Hid.
  destruct (clear_files _ _ _ s) as [s1 e1] eqn:Ec.
  destruct (clear_bound writable _ _ _ _ _ Hw (others_NoDup id s) Ec) as (Hw1 & Hsub & Hok & Hout).
  destruct e1 as [[]|m]; [|intros [= <- <-]; split; [done|]; exact Hsub].
  set (r1 := set_rc_assignments _ target). assert (s1 !! id = Some (Some target)) as Ht1.
  { rewrite Hout; [done|]. rewrite others_of. naive_solver. }
  pose proof (wa_once s Hw _ _ Et) as Hnd.
  unfold save. destruct (writeRecord writable r1 s1) as [s2 e2] eqn:Ew. intros [= <- <-].
  assert (well_assigned s2) as Hw2.
  { apply (write_keeps writable r1 s1 _ e2 Hw1 Ew).
    - unfold r1. rewrite assignments_set. by apply assign_in_once.
    - intros c' h' d' j d'' Hin Hb. unfold r1 in Hin. rewrite assignments_set in Hin.
      apply assign_in_elem in Hin; [|done]. change (rc_ID r1) with (rc_ID target). rewrite Hid.
      destruct (decide _) as [Hch|Hch].
      + injection Hin as -> -> ->. apply (Hok eq_refl) in Hb as [Hb Hj]. destruct (decide (j = id)) as [|Hne]; [done|].
        assert (is_node c h (mkAssignment c h d'') = false) as Hf.
        { apply Hj, others_of. split; [|done]. destruct Hb as (r & Hr & _). by eexists. }
        apply not_true_iff_false in Hf. rewrite is_node_true in Hf. by destruct Hf.
      + symmetry. eapply (wa_apart s1 Hw1); [by exists target|done]. }
  split; [done|]. apply writeRecord_cases in Ew as [[-> ->]|[-> Hne]]; cbn [result_bind].
  - split; [exact Hid|]. intros c' h' i d'. rewrite bound_insert. change (rc_ID r1) with (rc_ID target). rewrite Hid.
    unfold r1. rewrite assignments_set, assign_in_elem by done. cbn [node_of_assignment as_ClusterID as_Hostname].
    change (node_of_assignment (mkAssignment c' h' d')) with (c', h'). rewrite (Hok eq_refl), others_of.
    destruct (decide ((c', h') = (c, h))) as [[= -> ->]|Hch].
    + split.
      * intros [[-> [= ->]]|[Hi [Hb Hd]]]; [done|]. exfalso.
        assert (is_node c h (mkAssignment c h d') = false) as Hf.
        { apply Hd. split; [|done]. destruct Hb as (r & Hr & _). by eexists. }
        apply not_true_iff_false in Hf. rewrite is_node_true in Hf. by destruct Hf.
      * intros [-> ->]. by left.
    + split.
      * intros [[-> Hin]|[Hi [Hb _]]]; [|done]. by exists target.
      * intros Hb. destruct (decide (i = id)) as [->|Hi].
        -- left. split; [done|]. destruct Hb as (r & Hr & Hin). congruence.
        -- right. split_and!; [done|done|]. intros _. apply not_true_iff_false. rewrite is_node_true.
           intros [= -> ->]. by apply Hch.
  - destruct e2 as [[]|m]; [done|]. cbn. exact Hsub.
Qed.

(** Assigning a machine to a node moves that node and nothing else: on success
    the node belongs to this machine, with the chosen system disk, and to no
    other, while every other node of every cluster, this machine's included,
    stays with its machine and disk; when a write fails on the way, bindings may
    be missing but none was added or changed hands. *)
Theorem Assign_spec id c h d s s' e :
  well_assigned s → Assign writable id c h d s = (s', e) → reassigned id c h d s s' e.
Proof. intros Hw Ha. by destruct (Assign_keeps id c h d s s' e Hw Ha). Qed.

End Assigning.

(** ** Every operation keeps the assignments straight *)

Inductive mop : Type :=
| MCreate (id nonce : string) (i : Input)
| MUpdate (nonce id : string) (i : Input)
| MDelete (id : string)
| MSetFetchState (id : string) (st : FetchState) (fetchErr : string)
| MAssign (id clusterID hostname osDisk : string)
| MUnassign (id : string)
| MUnassignCluster (clusterID : string)
| MSetInventory (id : string) (inv : Inventory).

Section Operations.
Context `{AEAD} (box : string).

(** An operation with the files it can write. *)
Definition mstep (writable : string → bool) (s : machines) (o : mop) : machines :=
  match o with
  | MCreate id nonce i => (Machine_Create box writable id nonce i s).1
  | MUpdate nonce id i => (Machine_Update box writable nonce id i s).1
  | MDelete id => (Machine_Delete writable id s).1
  | MSetFetchState id st e => (SetFetchState writable id st e s).1
  | MAssign id c h d => (Assign writable id c h d s).1
  | MUnassign id => (Unassign writable id s).1
  | MUnassignCluster c => (UnassignCluster writable c s).1
  | MSetInventory id inv => (SetInventory writable id inv s).1
  end.

Lemma save_step writable r s : (save writable r s).1 = (writeRecord writable r s).1.
Proof. unfold save. by destruct (writeRecord writable r s). Qed.

Lemma rewrite_step writable id r0 r s :
  well_assigned s → readRecord id s = Ok r0 → r.(rc_ID) = r0.(rc_ID) →
  (assignments r = assignments r0 ∨ assignments r = []) → well_assigned (writeRecord writable r s).1.
Proof.
  intros Hw Hr Hid Ha. destruct (writeRecord writable r s) as [s1 e1] eqn:Ew. apply readRecord_Ok in Hr.
  by apply (rewrite_keeps writable id r0 r s s1 e1).
Qed.

Lemma delete_keeps i s : well_assigned s → well_assigned (delete i s).
Proof.
  intros [Hn Ho Ha]. assert (∀ c h j d, bound (delete i s) c h j d → bound s c h j d) as Hsub.
  { intros c h j d (r & Hr & Hin). apply lookup_delete_Some in Hr as [_ Hr]. by exists r. }
  split.
  - intros j r Hr. apply lookup_delete_Some in Hr as [_ Hr]. by apply Hn.
  - intros j r Hr. apply lookup_delete_Some in Hr as [_ Hr]. by eapply Ho.
  - intros j k c h d e Hj Hk. eapply Ha; by apply Hsub.
Qed.

Lemma mstep_keeps writable s o : well_assigned s → well_assigned (mstep writable s o).
Proof.
  intros Hw. destruct o; cbn.
  - unfold Machine_Create. destruct (validate_input i); [|done]. rewrite save_step.
    destruct (writeRecord writable _ s) as [s1 e1] eqn:Ew. apply (write_keeps writable _ _ _ _ Hw Ew); [constructor|].
    by intros ? ? ? ? ? ?%elem_of_nil.
  - unfold Machine_Update. destruct (validate_input i); [|done]. destruct (readRecord id s) eqn:Er; [|done].
    rewrite save_step. by apply (rewrite_step writable id a0); [..|left].
  - unfold Machine_Delete. destruct (readRecord id s); [|done]. destruct (writable id); [|done]. by apply delete_keeps.
  - unfold SetFetchState. destruct (readRecord id s) eqn:Er; [|done]. by apply (rewrite_step writable id a); [..|left].
  - destruct (Assign writable id clusterID hostname osDisk s) as [s1 e1] eqn:Ea. by eapply Assign_keeps.
  - unfold Unassign. destruct (readRecord id s) eqn:Er; [|done]. rewrite save_step. by apply (rewrite_step writable id a); [..|right].
  - unfold UnassignCluster. destruct (clear_files _ _ _ s) as [s1 e1] eqn:Ec.
    by eapply clear_bound; [..|apply Ec]; [done|apply record_ids_NoDup].
  - unfold SetInventory. destruct (readRecord id s) eqn:Er; [|done]. by apply (rewrite_step writable id a); [..|left].
Qed.

(** C15. Whatever operations the machine store goes through, one after the
    other, and whichever files each of them fails to write (a file that exists may refuse a
    later write; a write that fails leaves the file as it was), no two
    machines ever hold the same cluster node, and a machine's file lists a node
    once. *)
Theorem assignments_apart (os : list ((string → bool) * mop)) :
  let s := foldl (fun s o => mstep o.1 s o.2) ∅ os in
  (∀ c h i j d e, bound s c h i d → bound s c h j e → i = j)
  ∧ ∀ i r, s !! i = Some (Some r) → NoDup (node_of_assignment <$> assignments r).
Proof.
  intros s. assert (well_assigned s) as [_ H1 H2]; [|split; [intros ??????; apply H2|exact H1]]. unfold s. clear s.
  assert (well_assigned ∅) as H0.
  { split; [intros i r Hr|intros i r Hr|intros i j c h d e (r & Hr & _)]; by rewrite lookup_empty in Hr. }
  revert H0. generalize (∅ : machines). induction os as [|o os IH]; intros s Hw; [done|]. by apply IH, mstep_keeps.
Qed.
End Operations.

(** ** A concrete store *)

Definition demo_stored (id c h : string) : option record :=
  Some (mkRecord id id (mkBMC "10.0.0.1" "admin" 3) "" None None "" None [mkAssignment c h "/dev/sda"]).
Definition demo_store : machines := {["1" := demo_stored "1" "c" "a"; "2" := demo_stored "2" "c" "b"]}.

Lemma demo_store_ok : well_assigned demo_store.
Proof.
  assert (∀ i r, demo_store !! i = Some (Some r) →
    (i = "1" ∧ Some r = demo_stored "1" "c" "a") ∨ (i = "2" ∧ Some r = demo_stored "2" "c" "b")) as H.
  { intros i r. unfold demo_store. rewrite lookup_insert_Some, lookup_singleton_Some. naive_solver. }
  split.
  - intros i r [[-> [= ->]]|[-> [= ->]]]%H; done.
  - intros i r [[-> [= ->]]|[-> [= ->]]]%H; apply NoDup_singleton.
  - intros i j c h d e (r & Hr & Hin) (r' & Hr' & Hin').
    apply H in Hr as [[-> [= ->]]|[-> [= ->]]], Hr' as [[-> [= ->]]|[-> [= ->]]]; try done;
      apply list_elem_of_singleton in Hin, Hin'; congruence.
Qed.

(** Machine 1 takes over node b: machine 2 loses it, and machine 1 keeps node a. *)
Lemma Assign_spec_witness :
  let s' := (Assign (fun _ => true) "1" "c" "b" "/dev/sdb" demo_store).1 in
  bound s' "c" "b" "1" "/dev/sdb" ∧ ¬ bound s' "c" "b" "2" "/dev/sda" ∧ bound s' "c" "a" "1" "/dev/sda".
Proof.
  destruct (Assign (fun _ => true) "1" "c" "b" "/dev/sdb" demo_store) as [s' e] eqn:E.
  pose proof (Assign_spec (fun _ => true) "1" "c" "b" "/dev/sdb" demo_store s' e demo_store_ok E) as H.
  assert (is_ok e = true) as Hok by (change e with (s', e).2; rewrite <- E; vm_compute; reflexivity).
  destruct e as [m|]; [|discriminate Hok]. destruct H as [_ H]. cbn. rewrite !H. cbn. split_and!.
  - by rewrite decide_True.
  - rewrite decide_True by done. by intros [? _].
  - rewrite decide_False by done. eexists. split; [vm_compute; reflexivity|by left].
Defined.

(** The store has no lock.  A report of machine 2's hardware that read its file
    before node b moved to machine 1 and writes it back after that gives the
    node to both. *)
Example stale_write_back :
  let s := (Assign (fun _ => true) "1" "c" "b" "/dev/sdb" demo_store).1 in
  match readRecord "2" demo_store with
  | Ok old => let s := (writeRecord (fun _ => true) (set_rc_fetch FetchFetching "" old) s).1 in
              bound s "c" "b" "1" "/dev/sdb" ∧ bound s "c" "b" "2" "/dev/sda"
  | Err _ => False
  end.
Proof.
  cbn [readRecord]. vm_compute readRecord. cbv beta iota zeta. split.
  - eexists. split; [vm_compute; reflexivity|]. right. by left.
  - eexists. split; [vm_compute; reflexivity|by left].
Qed.

(** ** Import (importer.go) *)

Definition normHeader (s : string) : string := ReplaceAll (ToLower (TrimSpace s)) " "%char "_".

(** Of columns with the same name the last one counts. *)
Definition header_cols (header : list string) : gmap string nat :=
  foldl (fun m ih => <[normHeader ih.2 := ih.1]> m) ∅ (imap (fun i h => (i, h)) header).

Definition headerIndex (header : list string) : result (gmap string nat) :=
  let idx := header_cols header in
  match idx !! "label" with
  | None => Err ("missing " +:+ Quote "label" +:+ " column")
  | Some _ => match idx !! "bmc_address" with
              | None => Err ("missing " +:+ Quote "bmc_address" +:+ " column")
              | Some _ => Ok idx
              end
  end.

Definition cell (idx : gmap string nat) (cells : list string) (key : string) : string :=
  match idx !! key with Some i => TrimSpace (default "" (cells !! i)) | None => "" end.

(** [None] for a blank row. *)
Definition rowToInput (idx : gmap string nat) (cells : list string) : option Input :=
  let get := cell idx cells in
  let pw := match idx !! "bmc_password" with Some _ => Some (get "bmc_password") | None => None end in
  let cipher := match Atoi (get "bmc_cipher") with Some n => n | None => 0 end in
  if is_empty (get "label") && is_empty (get "bmc_address") then None
  else Some (mkInput (get "label") (get "bmc_address") (get "bmc_username") cipher pw).

Record RowError : Type := mkRowError { re_Row : Z; re_Message : string }.
Record ImportResult : Type := mkImportResult { ir_Machines : list Input; ir_Errors : list RowError }.

Fixpoint rows_result (idx : gmap string nat) (row : Z) (rows : list (list string)) : ImportResult :=
  match rows with
  | [] => mkImportResult [] []
  | cells :: rows =>
      let rest := rows_result idx (row + 1) rows in
      match rowToInput idx cells with
      | None => rest
      | Some i =>
          match validate_input i with
          | Err e => mkImportResult rest.(ir_Machines) (mkRowError row e :: rest.(ir_Errors))
          | Ok _ => mkImportResult (i :: rest.(ir_Machines)) rest.(ir_Errors)
          end
      end
  end.

Definition rowsToResult (idx : gmap string nat) (dataRows : list (list string)) (headerOffset : Z) : ImportResult :=
  rows_result idx (headerOffset + 1) dataRows.

(** [ParseCSV] and [ParseXLSX] on the rows their readers gave. *)
Definition parse_rows (empty : string) (records : list (list string)) : result ImportResult :=
  match records with
  | [] => Err empty
  | header :: rows => let? idx := headerIndex header in Ok (rowsToResult idx rows 1)
  end.

Section Importing.
Context `{AEAD} (box : string) (writable : string → bool).

(** [rands]: the id and nonce each machine draws. *)
Fixpoint create_all (rands : list (string * string)) (i : Z) (ins : list Input) (s : machines)
    : machines * Z * list RowError :=
  match ins, rands with
  | inp :: ins, (id, nonce) :: rands =>
      let '(s, r) := Machine_Create box writable id nonce inp s in
      let '(s, n, errs) := create_all rands (i + 1) ins s in
      match r with
      | Ok _ => (s, n + 1, errs)
      | Err e => (s, n, mkRowError (i + 2) e :: errs)
      end
  | _, _ => (s, 0, [])
  end.

Definition ImportMany (rands : list (string * string)) (res : ImportResult) (s : machines)
    : machines * Z * list RowError :=
  let '(s, n, errs) := create_all rands 0 res.(ir_Machines) s in (s, n, res.(ir_Errors) ++ errs).

End Importing.

(** Every row of the file is accounted for: a machine, an error under the row's own
    number, or nothing for a blank row. *)
Theorem import_rows idx rows off e :
  e ∈ (rowsToResult idx rows off).(ir_Errors) ↔
  ∃ (i : nat) cells inp, rows !! i = Some cells ∧ rowToInput idx cells = Some inp
    ∧ validate_input inp = Err e.(re_Message) ∧ e.(re_Row) = Z.of_nat i + off + 1.
Proof.
  unfold rowsToResult. enough (∀ row, e ∈ (rows_result idx row rows).(ir_Errors) ↔
    ∃ (i : nat) cells inp, rows !! i = Some cells ∧ rowToInput idx cells = Some inp
      ∧ validate_input inp = Err e.(re_Message) ∧ e.(re_Row) = Z.of_nat i + row) as H.
  { rewrite H. split; intros (i & c & inp & ? & ? & ? & ?); exists i, c, inp; split_and!; (done || lia). }
  induction rows as [|cells rows IH]; intros row; cbn.
  { split; [by intros ?%elem_of_nil|]. intros (i & c & inp & Hi & _). by rewrite lookup_nil in Hi. }
  assert (e ∈ (rows_result idx (row + 1) rows).(ir_Errors) ↔ ∃ (i : nat) c inp, (cells :: rows) !! S i = Some c
    ∧ rowToInput idx c = Some inp ∧ validate_input inp = Err e.(re_Message) ∧ e.(re_Row) = Z.of_nat (S i) + row) as Hr.
  { rewrite IH. split; intros (i & c & inp & ? & ? & ? & ?); exists i, c, inp; split_and!; (done || lia). }
  destruct (rowToInput idx cells) as [inp|] eqn:Ei.
  - destruct (validate_input inp) as [[]|m] eqn:Ev; cbn [ir_Errors].
    + rewrite Hr. split; [intros (i & ?); by exists (S i)|]. intros ([|i] & c & p & Hc & Hp & Hv & Hrow).
      * cbn in Hc. injection Hc as <-. congruence.
      * by exists i, c, p.
    + rewrite elem_of_cons, Hr. split.
      * intros [->|(i & ?)]; [|by exists (S i)]. exists 0%nat, cells, inp. split_and!; (done || cbn; lia).
      * intros ([|i] & c & p & Hc & Hp & Hv & Hrow).
        -- left. cbn in Hc. injection Hc as <-. destruct e as [er em]. cbn in *. f_equal; [lia|congruence].
        -- right. by exists i, c, p.
  - rewrite Hr. split; [intros (i & ?); by exists (S i)|]. intros ([|i] & c & p & Hc & Hp & Hv & Hrow).
    + cbn in Hc. congruence.
    + by exists i, c, p.
Qed.

(** An error of [Create] is numbered by the machine's place among the valid rows:
    here row 3 of the file, the second row of data, is reported as row 2. *)
Example create_error_row :
  let rows := [["label"; "bmc_address"]; [""; "10.0.0.1"]; ["b"; "10.0.0.2"]] in
  match parse_rows "empty file" rows with
  | Ok res => (ImportMany (H := plain_aead) "k" (fun _ => false) [("1", "n")] res ∅).2
              = [mkRowError 2 "label is required"; mkRowError 2 "write failed"]
  | Err _ => False
  end.
Proof. vm_compute. reflexivity. Qed.
