(* ===== verification/Discovery.v ===== *)
(** * Hardware discovery (internal/discovery discovery.go, redfish.go, ipmi.go)

    What the driver learns of a machine from its BMC: Redfish first, the FRU of IPMI
    where that says nothing.  The two clients are third-party code; a system and
    what hangs below it are the structures they decode, a volume is read from raw
    JSON by the code itself.  The three sections of a system are read at the same
    time into fields of their own, so their order does not matter. *)
From S2P Require Import Prelude GoStrings Secret Machines.
From Stdlib Require Import Ascii.

Open Scope string_scope.
Open Scope list_scope.
Open Scope Z_scope.

Record Target : Type := mkTarget { tg_Address : string; tg_Username : string; tg_Password : string }.

Definition Discoverer : Type := Target → result Inventory.

(** [hasCoreFacts] *)
Definition hasCoreFacts (inv : Inventory) : bool :=
  negb (is_empty inv.(inv_Serial)) || (0 <? inv.(inv_CPUCount))
  || negb (bool_decide (inv.(inv_NICs) = [])) || (0 <? inv.(inv_MemoryBytes)).

(** Each of the two may be missing. *)
Definition Combined (primary secondary : option Discoverer) : Discoverer := fun t =>
  let first := (fun d => d t) <$> primary in
  match first with
  | Some (Ok inv) =>
      if hasCoreFacts inv then Ok inv
      else match secondary with
           | Some d => d t
           | None => Err "discovery: no usable data from BMC"
           end
  | _ =>
      match (fun d => d t) <$> secondary with
      | Some (Ok inv) => Ok inv
      | second =>
          match first, second with
          | Some (Err e), _ => Err e
          | _, Some (Err e) => Err e
          | _, _ => Err "discovery: no usable data from BMC"
          end
      end
  end.

Definition Simulated : Discoverer := fun t => Ok
  (mkInventory "" "simulated" "Simulated" "cube-cos-driver-sim" ("SIM-" +:+ t.(tg_Address)) "Simulated Xeon"
     2 32 (128 * 1024 * 1024 * 1024)
     [mkNIC "eth0" "02:00:00:00:00:01" "" "" 10000 true None]
     [mkHwDisk "sda" "SIM-SSD" (480 * 1024 * 1024 * 1024) "SSD" "" None] []).

(** ** IPMI *)

Definition splitHostPort (addr : string) : string * Z :=
  match LastIndexByte addr ":"%char with
  | Some (S i) =>
      if Contains addr "://" then (addr, 623)
      else match Atoi (sdrop (S (S i)) addr) with
           | Some p => (stake (S i) addr, p)
           | None => (addr, 623)
           end
  | _ => (addr, 623)
  end.

Definition nul : ascii := "000"%char.

Definition fruStr (v : string) : string := TrimSpace (ReplaceAll v nul "").

(** An area of the FRU: manufacturer, product and serial number. *)
Record area : Type := mkArea { ar_Manufacturer : string; ar_Name : string; ar_SerialNumber : string }.

Record FRU : Type := mkFRU { ProductInfoArea : option area; BoardInfoArea : option area }.

Definition set_identity (maker model serial : string) (inv : Inventory) : Inventory :=
  mkInventory inv.(inv_FetchedAt) inv.(inv_Source) maker model serial inv.(inv_CPUModel)
    inv.(inv_CPUCount) inv.(inv_CPUCores) inv.(inv_MemoryBytes) inv.(inv_NICs) inv.(inv_Disks) inv.(inv_Cards).

Definition fru_inventory (now : string) (fru : FRU) : Inventory :=
  let inv := mkInventory now "ipmi" "" "" "" "" 0 0 0 [] [] [] in
  let inv := match fru.(ProductInfoArea) with
             | Some p => set_identity (fruStr p.(ar_Manufacturer)) (fruStr p.(ar_Name)) (fruStr p.(ar_SerialNumber)) inv
             | None => inv
             end in
  if is_empty inv.(inv_Serial) then
    match fru.(BoardInfoArea) with
    | Some b =>
        set_identity
          (if is_empty inv.(inv_Manufacturer) then fruStr b.(ar_Manufacturer) else inv.(inv_Manufacturer))
          (if is_empty inv.(inv_Model) then fruStr b.(ar_Name) else inv.(inv_Model))
          (fruStr b.(ar_SerialNumber)) inv
    | None => inv
    end
  else inv.

(** [read_fru]: connecting over lanplus and [GetFRU] *)
Definition IPMI_Discover (read_fru : string → Z → string → string → result FRU) (now : string) : Discoverer := fun t =>
  let '(host, port) := splitHostPort t.(tg_Address) in
  let? fru := read_fru host port t.(tg_Username) t.(tg_Password) in
  Ok (fru_inventory now fru).

(** ** Redfish *)

Record rfVolume : Type := mkRfVolume {
  v_ODataID : string;
  v_Name : string;
  v_DisplayName : string;
  v_Description : string;
  v_CapacityBytes : option Z;
  v_VolumeType : string;
  v_RAIDType : string;
  v_Drives : list string   (** [Links.Drives], their [@odata.id] *)
}.

Definition unresolved (v : rfVolume) : bool :=
  is_empty v.(v_Name) && is_empty v.(v_VolumeType) && is_empty v.(v_RAIDType).

Fixpoint firstNonEmpty (ss : list string) : string :=
  match ss with
  | [] => ""
  | s :: ss => if is_empty s then firstNonEmpty ss else s
  end.

Definition raidLabel (raidType volumeType : string) : string :=
  if negb (is_empty raidType) then raidType
  else if (volumeType =? "Mirrored")%string then "RAID1"
  else if (volumeType =? "NonRedundant")%string then "RAID0"
  else if (volumeType =? "StripedWithParity")%string then "RAID5"
  else if (volumeType =? "SpannedMirrors")%string then "RAID10"
  else if (volumeType =? "SpannedStripesWithParity")%string then "RAID60"
  else volumeType.

Record rf_drive : Type := mkRfDrive {
  dv_ODataID : string;
  dv_Name : string;
  dv_Model : string;
  dv_MediaType : string;
  dv_CapacityBytes : option Z
}.

Record rf_storage : Type := mkRfStorage { st_ODataID : string; st_Drives : result (list rf_drive) }.

Record rf_eth : Type := mkRfEth {
  et_Name : string;
  et_MACAddress : string;
  et_PermanentMACAddress : string;
  et_LinkStatus : string;
  et_SpeedMbps : option Z
}.

(** [GiB] is the type of the memory's size, a float in the code. *)
Record rf_system (GiB : Type) : Type := mkRfSystem {
  sy_Manufacturer : string;
  sy_Model : string;
  sy_SerialNumber : string;
  sy_CPUModel : string;
  sy_CPUCount : option Z;
  sy_CoreCount : option Z;
  sy_MemoryGiB : option GiB;
  sy_EthernetInterfaces : result (list rf_eth);
  sy_Storage : result (list rf_storage);
  sy_PCIeDevices : result (list (string * string))
}.
Arguments mkRfSystem {GiB}.
Arguments sy_Manufacturer {GiB}. Arguments sy_Model {GiB}. Arguments sy_SerialNumber {GiB}.
Arguments sy_CPUModel {GiB}. Arguments sy_CPUCount {GiB}. Arguments sy_CoreCount {GiB}.
Arguments sy_MemoryGiB {GiB}. Arguments sy_EthernetInterfaces {GiB}. Arguments sy_Storage {GiB}.
Arguments sy_PCIeDevices {GiB}.

(** A virtual disk, as the machine's inventory lists it. *)
Definition vd_disk (v : rfVolume) : HwDisk :=
  let raid := raidLabel v.(v_RAIDType) v.(v_VolumeType) in
  mkHwDisk (firstNonEmpty [v.(v_DisplayName); v.(v_Name); v.(v_Description)])
    (TrimSpace ("RAID virtual disk " +:+ raid)) (default 0 v.(v_CapacityBytes)) raid "" (Some true).

Definition is_vd (v : rfVolume) : bool :=
  negb (EqualFold v.(v_VolumeType) "RawDevice") && negb (unresolved v).

Section Redfish.
Context {GiB : Type}.
Variable bytes_of : GiB → Z.
(** [getJSON] of a collection of volumes, and of a volume onto what is known of it. *)
Variable getVolumes : string → result (list rfVolume).
Variable getVolume : string → rfVolume → rfVolume.
(** Connecting and [Service.Systems] *)
Variable Systems : string → string → string → result (list (rf_system GiB)).

Definition resolve (v : rfVolume) : rfVolume :=
  if unresolved v && negb (is_empty v.(v_ODataID)) then getVolume v.(v_ODataID) v else v.

(** The members of a storage's volume collection, inlined or fetched. *)
Definition volumes (storageURL : string) : list rfVolume :=
  if is_empty storageURL then []
  else
    let coll :=
      match getVolumes (storageURL +:+ "/Volumes?$expand=*($levels=1)") with
      | Ok (v :: vs) => Ok (v :: vs)
      | _ => getVolumes (storageURL +:+ "/Volumes")
      end in
    match coll with Ok vs => resolve <$> vs | Err _ => [] end.

Definition fetchVirtualDisks (storageURL : string) : list HwDisk * list string :=
  let vds := List.filter is_vd (volumes storageURL) in
  (vd_disk <$> vds, List.filter (fun m => negb (is_empty m)) (mbind v_Drives vds)).

Definition drive_disk (d : rf_drive) (eligible : option bool) : HwDisk :=
  mkHwDisk d.(dv_Name) d.(dv_Model) (default 0 d.(dv_CapacityBytes)) d.(dv_MediaType) "" eligible.

Definition storage_disks (st : rf_storage) : list HwDisk :=
  let '(vds, members) := fetchVirtualDisks st.(st_ODataID) in
  vds ++ match st.(st_Drives) with
         | Err _ => []
         | Ok drives =>
             (fun d => drive_disk d
                (if contains members d.(dv_ODataID) || (negb (bool_decide (vds = [])) && bool_decide (members = []))
                 then Some false else None)) <$> drives
         end.

Definition eth_nic (e : rf_eth) : NIC :=
  mkNIC e.(et_Name) (if is_empty e.(et_MACAddress) then e.(et_PermanentMACAddress) else e.(et_MACAddress))
    "" "" (default 0 e.(et_SpeedMbps)) (e.(et_LinkStatus) =? "LinkUp")%string None.

Definition or_none {A} (r : result (list A)) : list A := match r with Ok l => l | Err _ => [] end.

Definition system_inventory (now : string) (sys : rf_system GiB) : Inventory :=
  mkInventory now "redfish" sys.(sy_Manufacturer) sys.(sy_Model) sys.(sy_SerialNumber) sys.(sy_CPUModel)
    (default 0 sys.(sy_CPUCount)) (default 0 sys.(sy_CoreCount))
    (default 0 (bytes_of <$> sys.(sy_MemoryGiB)))
    (eth_nic <$> or_none sys.(sy_EthernetInterfaces))
    (mbind storage_disks (or_none sys.(sy_Storage)))
    ((fun d => mkCard "" d.1 d.2) <$> or_none sys.(sy_PCIeDevices)).

Definition errRedfishNoSystems : string := "redfish: no systems returned".

Definition endpoint (address : string) : string :=
  if HasPrefix address "http" then address else "https://" +:+ address.

Definition Redfish_Discover (now : string) : Discoverer := fun t =>
  let? systems := Systems (endpoint t.(tg_Address)) t.(tg_Username) t.(tg_Password) in
  match systems with
  | [] => Err errRedfishNoSystems
  | sys :: _ => Ok (system_inventory now sys)
  end.

(** The discoverer of production. *)
Definition Default (read_fru : string → Z → string → string → result FRU) (now : string) : Discoverer :=
  Combined (Some (Redfish_Discover now)) (Some (IPMI_Discover read_fru now)).

(** ** What an inspection offers to install on *)

(** The drives a virtual disk of the storage is made of, and whether anything is
    known of them. *)
Definition hidden (st : rf_storage) (d : rf_drive) : Prop :=
  let vs := volumes st.(st_ODataID) in
  (∃ v, v ∈ vs ∧ is_vd v = true ∧ d.(dv_ODataID) ≠ "" ∧ d.(dv_ODataID) ∈ v.(v_Drives))
  ∨ (∃ v, v ∈ vs ∧ is_vd v = true) ∧ (∀ v m, v ∈ vs → is_vd v = true → m ∈ v.(v_Drives) → m = "").

Lemma elem_of_filter_b {A} (f : A → bool) l x : x ∈ List.filter f l ↔ x ∈ l ∧ f x = true.
Proof. rewrite !list_elem_of_In. apply filter_In. Qed.

Lemma elem_of_members url m :
  m ∈ (fetchVirtualDisks url).2 ↔ ∃ v, v ∈ volumes url ∧ is_vd v = true ∧ m ≠ "" ∧ m ∈ v.(v_Drives).
Proof.
  cbn. rewrite elem_of_filter_b, list_elem_of_bind. setoid_rewrite elem_of_filter_b.
  rewrite negb_true_iff, is_empty_false. naive_solver.
Qed.

Lemma some_virtual_disk url : (fetchVirtualDisks url).1 ≠ [] ↔ ∃ v, v ∈ volumes url ∧ is_vd v = true.
Proof.
  cbn. setoid_rewrite <- elem_of_filter_b. destruct (List.filter is_vd (volumes url)) as [|v l]; cbn.
  - split; [done|intros (v & Hv)]. by apply elem_of_nil in Hv.
  - split; [|done]. intros _. exists v. by left.
Qed.

(** The mark of a drive. *)
Definition hidden_b (st : rf_storage) (d : rf_drive) : bool :=
  let '(vds, members) := fetchVirtualDisks st.(st_ODataID) in
  contains members d.(dv_ODataID) || (negb (bool_decide (vds = [])) && bool_decide (members = [])).

Lemma hidden_b_true st d : hidden_b st d = true ↔ hidden st d.
Proof.
  unfold hidden_b, hidden. destruct (fetchVirtualDisks (st_ODataID st)) as [vds members] eqn:E.
  pose proof (some_virtual_disk (st_ODataID st)) as Hv. pose proof (elem_of_members (st_ODataID st)) as Hm.
  rewrite E in Hv, Hm. cbn [fst snd] in Hv, Hm. to_prop. rewrite Hm, Hv.
  assert (members = [] ↔ ∀ v m, v ∈ volumes (st_ODataID st) → is_vd v = true → m ∈ v.(v_Drives) → m = "") as ->.
  { split.
    - intros -> v m H1 H2 H3. destruct (decide (m = "")) as [|Hne]; [done|]. exfalso.
      eapply not_elem_of_nil, Hm. by exists v.
    - intros H. destruct members as [|m l]; [done|]. exfalso.
      destruct (proj1 (Hm m)) as (v & H1 & H2 & H3 & H4); [by left|]. by apply H3, (H v). }
  naive_solver.
Qed.

Lemma elem_of_storage_disks st k :
  k ∈ storage_disks st ↔
  (∃ v, v ∈ volumes st.(st_ODataID) ∧ is_vd v = true ∧ k = vd_disk v)
  ∨ (∃ ds d, st.(st_Drives) = Ok ds ∧ d ∈ ds ∧ k = drive_disk d (if hidden_b st d then Some false else None)).
Proof.
  unfold storage_disks, hidden_b. destruct (fetchVirtualDisks _) as [vds members] eqn:E. rewrite elem_of_app.
  assert (k ∈ vds ↔ ∃ v, v ∈ volumes st.(st_ODataID) ∧ is_vd v = true ∧ k = vd_disk v) as ->.
  { change vds with (vds, members).1. rewrite <- E. cbn. rewrite list_elem_of_fmap.
    setoid_rewrite elem_of_filter_b. naive_solver. }
  destruct (st_Drives st) as [ds|e]; [rewrite list_elem_of_fmap|rewrite elem_of_nil]; naive_solver.
Qed.

(** C24. What an inspection over Redfish offers to install on: exactly the virtual
    disks of the system's storages are marked as targets; a drive is marked as none
    exactly when a virtual disk hides it from the system (or there are virtual
    disks and the BMC does not say of what); every other drive is listed
    without a mark. *)
Theorem install_targets now (sys : rf_system GiB) k :
  let sts := or_none sys.(sy_Storage) in
  let hides b := ∃ st ds d, st ∈ sts ∧ st.(st_Drives) = Ok ds ∧ d ∈ ds ∧ k = drive_disk d b ∧ hidden st d in
  let spares b := ∃ st ds d, st ∈ sts ∧ st.(st_Drives) = Ok ds ∧ d ∈ ds ∧ k = drive_disk d b ∧ ¬ hidden st d in
  k ∈ inv_Disks (system_inventory now sys) ↔
  match k.(disk_OSEligible) with
  | Some true => ∃ st v, st ∈ sts ∧ v ∈ volumes st.(st_ODataID) ∧ is_vd v = true ∧ k = vd_disk v
  | Some false => hides (Some false)
  | None => spares None
  end.
Proof.
  cbn zeta. cbn [inv_Disks system_inventory]. rewrite list_elem_of_bind. setoid_rewrite elem_of_storage_disks.
  split.
  - intros (st & [(v & H1 & H2 & ->)|(ds & d & H1 & H2 & ->)] & Hst); cbn [disk_OSEligible vd_disk drive_disk].
    + by exists st, v.
    + destruct (hidden_b st d) eqn:E; exists st, ds, d; split_and!; try done.
      * by apply hidden_b_true.
      * by rewrite <- hidden_b_true, E.
  - destruct (disk_OSEligible k) as [[]|] eqn:Ek.
    + intros (st & v & Hst & Hv & Hd & Hk). exists st. split; [left; by exists v|done].
    + intros (st & ds & d & Hst & Hds & Hd & Hk & Hh%hidden_b_true). exists st.
      split; [right; exists ds, d; by rewrite Hh|done].
    + intros (st & ds & d & Hst & Hds & Hd & Hk & Hh). exists st.
      rewrite <- hidden_b_true in Hh. apply not_true_is_false in Hh. split; [right; exists ds, d; by rewrite Hh|done].
Qed.
End Redfish.

(** ** The fallback *)

(** A result of the first discoverer counts only with facts in it; otherwise the second's
    counts, whatever it holds. *)
Lemma Combined_Ok primary secondary t inv :
  Combined primary secondary t = Ok inv ↔
  (∃ d, primary = Some d ∧ d t = Ok inv ∧ hasCoreFacts inv = true)
  ∨ (∀ d i, primary = Some d → d t = Ok i → hasCoreFacts i = false)
    ∧ ∃ d, secondary = Some d ∧ d t = Ok inv.
Proof.
  unfold Combined. split.
  - intros H. destruct primary as [d1|]; cbn in H; [destruct (d1 t) as [i|e1] eqn:E1|];
      [destruct (hasCoreFacts i) eqn:Ef| |].
    + simplify_eq. left. by exists d1.
    + destruct secondary as [d2|]; [|done]. right. split; [|by exists d2]. intros d i' [= <-] Hi. congruence.
    + destruct secondary as [d2|]; [cbn in H|done]. destruct (d2 t) eqn:E2; simplify_eq.
      right. split; [|by exists d2]. intros d i' [= <-] Hi. congruence.
    + destruct secondary as [d2|]; [cbn in H|done]. destruct (d2 t) eqn:E2; simplify_eq.
      right. split; [done|by exists d2].
  - intros [(d & -> & Hd & Hf)|(Hn & d & -> & Hd)]; [cbn; by rewrite Hd, Hf|].
    destruct primary as [d1|]; cbn; [|by rewrite Hd].
    destruct (d1 t) as [i|e] eqn:E1; [|by rewrite Hd]. by rewrite (Hn d1 i).
Qed.

(** The first failure is the one reported. *)
Lemma Combined_Err primary secondary t e :
  Combined primary secondary t = Err e →
  (∃ d, primary = Some d ∧ d t = Err e)
  ∨ (∃ d, secondary = Some d ∧ d t = Err e)
  ∨ secondary = None ∧ e = "discovery: no usable data from BMC".
Proof.
  unfold Combined. intros H.
  destruct primary as [d1|]; cbn in H; [destruct (d1 t) as [i|e1] eqn:E1|];
    [destruct (hasCoreFacts i)| |]; destruct secondary as [d2|]; cbn in H; repeat case_match; simplify_eq; eauto 10.
Qed.

(** A FRU field is padded with zero bytes; none of them is left. *)
Lemma ReplaceAll_free c s : free_of c (ReplaceAll s c "").
Proof.
  induction s as [|a s IH]; [done|]. cbn. destruct (Ascii.eqb_spec a c) as [->|Hne]; [done|].
  by apply free_of_cons.
Qed.

(** ** A Dell server whose controller mixes a mirror and single disks *)

Module Demo.
Definition drive (id name : string) : rf_drive := mkRfDrive id name "SSDSC2KG480G8R" "SSD" (Some 480103981056).
Definition bare (id : string) : rfVolume := mkRfVolume id "" "" "" None "" "" [].

Definition getVolumes (url : string) : result (list rfVolume) :=
  if (url =? "/S1/Storage/C1/Volumes")%string then Ok [bare "/vd0"; bare "/raw2"] else Err "404".
Definition getVolume (url : string) (v : rfVolume) : rfVolume :=
  if (url =? "/vd0")%string then mkRfVolume url "cubecos" "" "" (Some 479559942144) "Mirrored" "" ["/d0"; "/d1"]
  else if (url =? "/raw2")%string then mkRfVolume url "Solid State Disk 0:1:2" "" "" None "RawDevice" "" ["/d2"]
  else v.

Definition sys (storage : list rf_storage) : rf_system Z :=
  mkRfSystem "Dell" "R630" "SN1" "Xeon" (Some 2) (Some 32) (Some 128)
    (Ok [mkRfEth "NIC0" "" "02:00:00:00:00:00" "LinkUp" (Some 10000)]) (Ok storage) (Err "404").

Definition c1 : rf_storage :=
  mkRfStorage "/S1/Storage/C1" (Ok [drive "/d0" "0:1:0"; drive "/d1" "0:1:1"; drive "/d2" "0:1:2"; drive "/d3" "0:1:3"]).

Definition Systems (endpoint user pass : string) : result (list (rf_system Z)) :=
  if (endpoint =? "https://10.0.0.9")%string then Ok [sys [c1]] else Err "no route to host".

Definition read_fru (host : string) (port : Z) (user pass : string) : result FRU :=
  Ok (mkFRU (Some (mkArea ("Dell" +:+ String nul (String nul "")) "" "")) (Some (mkArea "x" "PowerEdge" (" SN9" +:+ String nul "")))).

Definition discover : Discoverer :=
  Default (fun gib => gib * 2 ^ 30) getVolumes getVolume Systems read_fru "09:00".

Example mirrored_disks :
  (fun inv => (fun k => (disk_Name k, disk_OSEligible k)) <$> inv_Disks inv)
    <$> match discover (mkTarget "10.0.0.9" "root" "pw") with Ok i => Some i | Err _ => None end
  = Some [("cubecos", Some true); ("0:1:0", Some false); ("0:1:1", Some false); ("0:1:2", None); ("0:1:3", None)].
Proof. by vm_compute. Qed.

(** Without Redfish the FRU is read: the padding goes, and what the product area
    leaves out the board's fills in. *)
Example fru_fallback :
  (fun inv => (inv_Source inv, inv_Manufacturer inv, inv_Model inv, inv_Serial inv))
    <$> match discover (mkTarget "10.0.0.8" "root" "pw") with Ok i => Some i | Err _ => None end
  = Some ("ipmi", "Dell", "PowerEdge", "SN9").
Proof. by vm_compute. Qed.
End Demo.
