(* ===== verification/GoNet.v ===== *)
(** * Go's net package

    The addresses the driver parses: [net.ParseIP], [To4], [net.ParseCIDR],
    masks, [IPNet.Contains] and [net.SplitHostPort].  An [IP] is the list of
    its 4 or 16 bytes. *)
From S2P Require Import Prelude GoStrings.
From Stdlib Require Import Ascii.

Open Scope string_scope.
Open Scope list_scope.
Open Scope Z_scope.

Definition IP : Type := list Z.

(** ** Parsing an address *)

(** One decimal field of a dotted address: no leading zero, at most 255. *)
Definition octet (s : string) : option Z :=
  match s with
  | String "0" (String _ _) => None
  | _ => match udigits s with
         | Some v => if v <=? 255 then Some v else None
         | None => None
         end
  end.

Definition parseIPv4 (s : string) : option (list Z) :=
  match Split s "."%char with
  | [a; b; c; d] =>
      a ← octet a; b ← octet b; c ← octet c; d ← octet d; Some [a; b; c; d]
  | _ => None
  end.

Definition hex_digit (c : ascii) : option Z :=
  let n := nat_of_ascii c in
  if ((48 <=? n) && (n <=? 57))%nat then Some (Z.of_nat n - 48)
  else if ((97 <=? n) && (n <=? 102))%nat then Some (Z.of_nat n - 87)
  else if ((65 <=? n) && (n <=? 70))%nat then Some (Z.of_nat n - 55)
  else None.

(** The leading hex digits of [s]: how many, their value, and the rest. *)
Fixpoint span_hex (n : nat) (acc : Z) (s : string) : nat * Z * string :=
  match s with
  | String c s' =>
      match hex_digit c with
      | Some d => span_hex (S n) (16 * acc + d) s'
      | None => (n, acc, s)
      end
  | "" => (n, acc, "")
  end.

(** The loop of the IPv6 parser, 16-bit group by group: [left] groups are
    free, [ip] holds the bytes so far, [ell] where the ellipsis stands.  The
    bytes, the ellipsis and the unread rest. *)
Fixpoint groups (left : nat) (ip : list Z) (ell : option nat) (s : string)
    : option (list Z * option nat * string) :=
  match left with
  | O => Some (ip, ell, s)
  | S left' =>
      let '(n, v, rest) := span_hex 0 0 s in
      if (4 <? n)%nat || (n =? 0)%nat then None
      else match rest with
      | String "." _ =>
          (* an IPv4 address in the last four bytes *)
          if match ell with None => negb (length ip =? 12)%nat | Some _ => false end then None
          else if (16 <? length ip + 4)%nat then None
          else v4 ← parseIPv4 s; Some (ip ++ v4, ell, "")
      | "" => Some (ip ++ [v / 256; v mod 256], ell, "")
      | String ":" rest =>
          let ip := ip ++ [v / 256; v mod 256] in
          match rest with
          | "" => None
          | String ":" rest =>
              match ell with
              | Some _ => None
              | None => if is_empty rest then Some (ip, Some (length ip), "")
                        else groups left' ip (Some (length ip)) rest
              end
          | _ => groups left' ip ell rest
          end
      | _ => None
      end
  end.

Definition parseIPv6 (s : string) : option (list Z) :=
  let '(ell, s, fin) :=
    match s with
    | String ":" (String ":" r) => (Some 0%nat, r, is_empty r)
    | _ => (None, s, false)
    end in
  if fin : bool then Some (replicate 16 0)
  else
    '(ip, ell, rest) ← groups 8 [] ell s;
    if negb (is_empty rest) then None
    else if (length ip <? 16)%nat then
      match ell with
      | None => None
      | Some e => Some (take e ip ++ replicate (16 - length ip) 0 ++ drop e ip)
      end
    else match ell with Some _ => None | None => Some ip end.

Definition v4prefix : list Z := replicate 10 0 ++ [255; 255].

(** The first dot or colon decides; a zone is refused. *)
Fixpoint addr_kind (s : string) : option bool :=
  match s with
  | String "." _ => Some false
  | String ":" _ => Some true
  | String "%" _ => None
  | String _ s' => addr_kind s'
  | "" => None
  end.

(** [netip.ParseAddr] without a zone: the bytes, 4 or 16 of them. *)
Definition parseAddr (s : string) : option (list Z) :=
  match addr_kind s with
  | None => None
  | Some false => parseIPv4 s
  | Some true => parseIPv6 s
  end.

(** [As16]. *)
Definition as16 (a : list Z) : list Z := if (length a =? 4)%nat then v4prefix ++ a else a.

Definition ParseIP (s : string) : option IP := as16 <$> parseAddr s.

Definition To4 (ip : IP) : option IP :=
  if (length ip =? 4)%nat then Some ip
  else if (length ip =? 16)%nat && bool_decide (take 12 ip = v4prefix) then Some (drop 12 ip)
  else None.

(** [net.ParseIP(s).To4()], which is nil for a nil [IP] too. *)
Definition ParseIP4 (s : string) : option IP := ParseIP s ≫= To4.

(** ** Masks and networks *)

(** [CIDRMask(ones, bits)], by bytes. *)
Fixpoint cidr_bytes (n : nat) (ones : Z) : list Z :=
  match n with
  | O => []
  | S n' =>
      (if 8 <=? ones then 255 else 255 - Z.shiftr 255 ones)
      :: cidr_bytes n' (Z.max 0 (ones - 8))
  end.
Definition CIDRMask (ones bits : Z) : list Z := cidr_bytes (Z.to_nat (bits / 8)) ones.

Definition and_bytes (a m : list Z) : list Z := zip_with Z.land a m.

(** [IP.Mask], [None] for nil. *)
Definition Mask (ip : IP) (mask : list Z) : option IP :=
  let mask := if (length mask =? 16)%nat && (length ip =? 4)%nat
                 && bool_decide (take 12 mask = replicate 12 255) then drop 12 mask else mask in
  let ip := if (length mask =? 4)%nat && (length ip =? 16)%nat
               && bool_decide (take 12 ip = v4prefix) then drop 12 ip else ip in
  if (length ip =? length mask)%nat then Some (and_bytes ip mask) else None.

(** [simpleMaskLength]: the leading ones of a canonical mask, [None] for -1. *)
Fixpoint byte_ones (k : nat) (v : Z) : option Z :=
  match k with
  | O => if v =? 0 then Some 0 else None
  | S k' => if v =? 256 - 2 ^ (8 - Z.of_nat k) then Some (Z.of_nat k) else byte_ones k' v
  end.

Fixpoint mask_ones (m : list Z) : option Z :=
  match m with
  | [] => Some 0
  | v :: m' =>
      if v =? 255 then (fun n => 8 + n) <$> mask_ones m'
      else n ← byte_ones 7 v;
           if forallb (fun b => b =? 0) m' then Some n else None
  end.

(** [IPMask.Size]. *)
Definition mask_Size (m : list Z) : Z * Z :=
  match mask_ones m with
  | Some n => (n, 8 * Z.of_nat (length m))
  | None => (0, 0)
  end.

Record IPNet : Type := mkIPNet { net_IP : IP; net_Mask : list Z }.

Definition networkNumberAndMask (n : IPNet) : option (list Z * list Z) :=
  let ip := match To4 n.(net_IP) with Some v4 => v4 | None => n.(net_IP) end in
  let m := n.(net_Mask) in
  if negb ((length ip =? 4)%nat || (length ip =? 16)%nat) then None
  else if (length m =? 4)%nat then (if (length ip =? 4)%nat then Some (ip, m) else None)
  else if (length m =? 16)%nat then Some (ip, if (length ip =? 4)%nat then drop 12 m else m)
  else None.

Definition Contains_IP (n : IPNet) (ip : IP) : bool :=
  let ip := match To4 ip with Some v4 => v4 | None => ip end in
  match networkNumberAndMask n with
  | Some (nn, m) => (length ip =? length nn)%nat && bool_decide (and_bytes nn m = and_bytes ip m)
  | None => false
  end.

(** [dtoi] on a whole string: only digits, below 0xFFFFFF. *)
Definition dtoi (s : string) : option Z :=
  match udigits s with
  | Some v => if v <? 16777215 then Some v else None
  | None => None
  end.

Definition ParseCIDR (s : string) : option (IP * IPNet) :=
  i ← Index s "/";
  a ← parseAddr (stake i s);
  n ← dtoi (sdrop (S i) s);
  let bits := 8 * Z.of_nat (length a) in
  if bits <? n then None
  else
    let m := CIDRMask n bits in
    Some (as16 a, mkIPNet (default [] (Mask (as16 a) m)) m).

(** ** Printing *)

Definition hex_char (d : Z) : ascii :=
  ascii_of_nat (Z.to_nat (if d <? 10 then 48 + d else 87 + d)).

(** A number below 2^16 in hex, without leading zeros. *)
Definition hex16 (v : Z) : string :=
  let h k := String (hex_char (Z.shiftr v k mod 16)) "" in
  (if 4096 <=? v then h 12 else "") +:+ (if 256 <=? v then h 8 else "")
  +:+ (if 16 <=? v then h 4 else "") +:+ h 0.

Definition hex_byte (v : Z) : string :=
  String (hex_char (v / 16)) (String (hex_char (v mod 16)) "").

(** The eight groups of 16 bytes. *)
Fixpoint words (l : list Z) : list Z :=
  match l with a :: b :: l => (256 * a + b) :: words l | _ => [] end.

(** How many groups from the head on are zero. *)
Fixpoint zero_run (l : list Z) : nat :=
  match l with w :: l => if w =? 0 then S (zero_run l) else O | [] => O end.

(** The first longest run of two zero groups or more: start and length. *)
Fixpoint longest_run (i : nat) (best : nat * nat) (l : list Z) : nat * nat :=
  match l with
  | [] => best
  | _ :: l' =>
      let n := zero_run l in
      longest_run (S i) (if (2 <=? n)%nat && (best.2 <? n)%nat then (i, n) else best) l'
  end.

Definition v6_string (ip : list Z) : string :=
  let g := words ip in
  let '(i, n) := longest_run 0 (0, 0)%nat g in
  if (n =? 0)%nat then Join (hex16 <$> g) ":"
  else Join (hex16 <$> take i g) ":" +:+ "::" +:+ Join (hex16 <$> drop (i + n) g) ":".

Definition ip_string (ip : IP) : string :=
  match To4 ip with
  | Some v4 => Join (Itoa <$> v4) "."
  | None => if (length ip =? 16)%nat then v6_string ip else "<nil>"
  end.

(** [IPNet.String]. *)
Definition net_string (n : IPNet) : string :=
  match networkNumberAndMask n with
  | None => "<nil>"
  | Some (nn, m) =>
      ip_string nn +:+ "/"
      +:+ match mask_ones m with Some l => Itoa l | None => Join (hex_byte <$> m) "" end
  end.

(** ** Host and port *)

Definition missingPort : string := "missing port in address".
Definition tooManyColons : string := "too many colons in address".

Definition addr_err (hostport why : string) : string :=
  (if is_empty hostport then "" else "address " +:+ hostport +:+ ": ") +:+ why.

Definition SplitHostPort (hostport : string) : result (string * string) :=
  let bad why := Err (addr_err hostport why) in
  match LastIndexByte hostport ":"%char with
  | None => bad missingPort
  | Some i =>
      let fin host j k :=
        if Contains (sdrop j hostport) "[" then bad "unexpected '[' in address"
        else if Contains (sdrop k hostport) "]" then bad "unexpected ']' in address"
        else Ok (host, sdrop (S i) hostport) in
      match hostport with
      | String "[" _ =>
          match Index hostport "]" with
          | None => bad "missing ']' in address"
          | Some e =>
              if (S e =? String.length hostport)%nat then bad missingPort
              else if (S e =? i)%nat then fin (sdrop 1 (stake e hostport)) 1%nat (S e)
              else if HasPrefix (sdrop (S e) hostport) ":" then bad tooManyColons
              else bad missingPort
          end
      | _ =>
          let host := stake i hostport in
          if Contains host ":" then bad tooManyColons else fin host 0%nat 0%nat
      end
  end.

(** ** Concrete addresses *)

Example parse_v4 : ParseIP4 "10.254.0.1" = Some [10; 254; 0; 1].
Proof. reflexivity. Qed.
Example parse_v4_zero : ParseIP "10.254.00.1" = None.
Proof. reflexivity. Qed.
Example parse_v6 : ParseIP "fe80::1:2" = Some [254; 128; 0; 0; 0; 0; 0; 0; 0; 0; 0; 0; 0; 1; 0; 2].
Proof. reflexivity. Qed.
Example parse_v6_v4 : ParseIP4 "::ffff:1.2.3.4" = Some [1; 2; 3; 4].
Proof. reflexivity. Qed.
Example parse_v6_bad : ParseIP "1:2:3:4:5:6:7" = None ∧ ParseIP "1::2::3" = None ∧ ParseIP "::" = Some (replicate 16 0)
  ∧ ParseIP "1:2:3:4:5:6:7::" = Some [0; 1; 0; 2; 0; 3; 0; 4; 0; 5; 0; 6; 0; 7; 0; 0].
Proof. split_and!; reflexivity. Qed.
Example parse_cidr : ParseCIDR "10.254.7.1/16"
  = Some ([0;0;0;0;0;0;0;0;0;0;255;255;10;254;7;1], mkIPNet [10; 254; 0; 0] [255; 255; 0; 0]).
Proof. reflexivity. Qed.
Example mask_sizes : mask_Size [255; 255; 240; 0] = (20, 32) ∧ mask_Size [255; 0; 255; 0] = (0, 0)
  ∧ mask_Size [0; 0; 0; 0] = (0, 32).
Proof. split_and!; reflexivity. Qed.
Example split_ok : SplitHostPort "10.0.0.1:8080" = Ok ("10.0.0.1", "8080")
  ∧ SplitHostPort "[::1]:80" = Ok ("::1", "80") ∧ is_ok (SplitHostPort "::1:80") = false.
Proof. split_and!; reflexivity. Qed.

Example net_strings : net_string (mkIPNet [10; 254; 0; 0] [255; 255; 0; 0]) = "10.254.0.0/16"
  ∧ net_string (mkIPNet [10; 0; 0; 0] [255; 0; 255; 0]) = "10.0.0.0/ff00ff00"
  ∧ v6_string [254; 128; 0; 0; 0; 0; 0; 0; 0; 0; 0; 0; 0; 1; 0; 2] = "fe80::1:2".
Proof. split_and!; reflexivity. Qed.

(** ** Networks that share an address *)

(** A mask is canonical: a run of ones, then zeros. *)
Definition canonical (m : list Z) : Prop := ∃ n, 0 <= n <= 32 ∧ m = CIDRMask n 32.

Definition masks32 : list (list Z) := (fun n => CIDRMask (Z.of_nat n) 32) <$> seq 0 33.

Lemma canonical_in m : canonical m → m ∈ masks32.
Proof.
  intros (n & Hn & ->). apply list_elem_of_fmap. exists (Z.to_nat n).
  rewrite Z2Nat.id by lia. split; [done|]. apply elem_of_seq. lia.
Qed.

(** Of two canonical masks one is the other's prefix. *)
Lemma canonical_nested m1 m2 :
  canonical m1 → canonical m2 → and_bytes m2 m1 = m1 ∨ and_bytes m1 m2 = m2.
Proof.
  intros H1%canonical_in H2%canonical_in.
  assert (Forall (fun m1 => Forall (fun m2 => and_bytes m2 m1 = m1 ∨ and_bytes m1 m2 = m2) masks32) masks32) as H.
  { apply (bool_decide_unpack _). vm_compute. exact I. }
  rewrite Forall_forall in H. specialize (H m1 H1). rewrite Forall_forall in H. by apply H.
Qed.

Lemma and_bytes_assoc a b c : and_bytes (and_bytes a b) c = and_bytes a (and_bytes b c).
Proof.
  unfold and_bytes. revert b c. induction a as [|x a IH]; intros [|y b] [|z c]; cbn; try done.
  by rewrite Z.land_assoc, IH.
Qed.

(** Two networks with canonical masks that have an address in common contain
    one another's base address. *)
Lemma nets_meet a ma b mb x :
  canonical ma → canonical mb →
  and_bytes x ma = and_bytes a ma → and_bytes x mb = and_bytes b mb →
  and_bytes a ma = and_bytes (and_bytes b mb) ma ∨ and_bytes b mb = and_bytes (and_bytes a ma) mb.
Proof.
  intros Ha Hb E1 E2. destruct (canonical_nested ma mb Ha Hb) as [H|H].
  - left. rewrite <- E1, <- E2, and_bytes_assoc, H. done.
  - right. rewrite <- E1, <- E2, and_bytes_assoc, H. done.
Qed.

Lemma byte_ones_inv k v n :
  (k <= 7)%nat → byte_ones k v = Some n → v = 256 - 2 ^ (8 - n) ∧ 0 <= n <= 7.
Proof.
  intros Hk. induction k as [|k IH]; cbn [byte_ones].
  - destruct (Z.eqb_spec v 0) as [->|]; [|done]. intros [= <-]. done.
  - destruct (Z.eqb_spec v (256 - 2 ^ (8 - Z.of_nat (S k)))) as [->|]; [|apply IH; lia].
    intros [= <-]. split; [done|lia].
Qed.

Lemma cidr_bytes_zero k : cidr_bytes k 0 = replicate k 0.
Proof.
  induction k as [|k IH]; [done|]. change (cidr_bytes (S k) 0) with (0 :: cidr_bytes k 0).
  by rewrite IH.
Qed.

Lemma forallb_zero l : forallb (fun b => b =? 0) l = true → l = replicate (length l) 0.
Proof.
  induction l as [|b l IH]; [done|]. cbn. intros [->%Z.eqb_eq H]%andb_true_iff. f_equal. by apply IH.
Qed.

Lemma mask_ones_cidr m n :
  mask_ones m = Some n → 0 <= n <= 8 * Z.of_nat (length m) ∧ m = cidr_bytes (length m) n.
Proof.
  revert n. induction m as [|v m IH]; intros n; cbn [mask_ones length cidr_bytes]; [intros [= <-]; done|].
  destruct (Z.eqb_spec v 255) as [->|Hv].
  - destruct (mask_ones m) as [n'|]; [|done]. intros [= <-]. destruct (IH n' eq_refl) as [Hn Hm].
    split; [lia|]. rewrite (proj2 (Z.leb_le _ _)) by lia. f_equal. by replace (Z.max 0 (8 + n' - 8)) with n' by lia.
  - destruct (byte_ones 7 v) as [k|] eqn:Ek; [|done]. cbn. destruct (forallb _ m) eqn:Ez; [|done].
    intros [= <-]. apply byte_ones_inv in Ek as [-> Hk]; [|lia]. split; [lia|].
    rewrite (proj2 (Z.leb_gt _ _)) by lia. replace (Z.max 0 (k - 8)) with 0 by lia.
    rewrite cidr_bytes_zero. f_equal; [|by apply forallb_zero].
    assert (k ∈ [0; 1; 2; 3; 4; 5; 6; 7]) as Hin by (rewrite !elem_of_cons; lia).
    repeat (apply elem_of_cons in Hin as [->|Hin]; [reflexivity|]). by apply elem_of_nil in Hin.
Qed.

Lemma mask_ones_canonical m n : length m = 4%nat → mask_ones m = Some n → canonical m.
Proof. intros Hl [Hn Hm]%mask_ones_cidr. rewrite Hl in *. exists n. split; [lia|exact Hm]. Qed.

(** ** Printing and parsing an IPv4 address *)

Definition dotted (a b c d : Z) : string := Join [Itoa a; Itoa b; Itoa c; Itoa d] ".".

Lemma octet_Itoa v : 0 <= v <= 255 → octet (Itoa v) = Some v.
Proof.
  intros Hv. assert (Forall (fun n => octet (Itoa (Z.of_nat n)) = Some (Z.of_nat n)) (seq 0 256)) as H.
  { apply (bool_decide_unpack _). vm_compute. exact I. }
  rewrite Forall_forall in H. specialize (H (Z.to_nat v)).
  rewrite Z2Nat.id in H by lia. apply H, elem_of_seq. lia.
Qed.

Lemma Contains_free s c : free_of c s → Contains s (String c "") = false.
Proof.
  unfold Contains. induction s as [|x s IH]; [done|]. intros [Hx Hs]%free_of_cons. cbn.
  destruct (ascii_dec c x) as [->|]; [done|]. specialize (IH Hs). cbn in IH.
  by destruct (Index s (String c "")).
Qed.

Lemma free_of_dotted sep a b c d :
  digit sep = None → sep ≠ "."%char → 0 <= a → 0 <= b → 0 <= c → 0 <= d → free_of sep (dotted a b c d).
Proof.
  intros Hs Hd Ha Hb Hc He. unfold dotted. cbn [Join]. rewrite !free_of_app.
  assert (free_of sep ".") as Hp by (apply free_of_cons; split; [congruence|done]).
  split_and!; try done; by apply Itoa_free.
Qed.

Lemma parseIPv4_dotted a b c d :
  0 <= a <= 255 → 0 <= b <= 255 → 0 <= c <= 255 → 0 <= d <= 255 →
  parseIPv4 (dotted a b c d) = Some [a; b; c; d].
Proof.
  intros Ha Hb Hc Hd. unfold parseIPv4, dotted. change "." with (String "." "") at 1.
  rewrite Split_Join; [|done|].
  - by rewrite !octet_Itoa by lia.
  - repeat constructor; apply Itoa_free; (done || lia).
Qed.

Lemma addr_kind_digits w r acc v :
  digits_val acc w = Some v → addr_kind (w +:+ String "." r) = Some false.
Proof.
  revert acc. induction w as [|c w IH]; intros acc H; [done|]. autorewrite with cube_str. cbn in H.
  destruct (digit c) as [x|] eqn:E; [|done]. apply IH in H.
  destruct c as [[] [] [] [] [] [] [] []]; try discriminate E; exact H.
Qed.

Lemma ParseIP4_dotted a b c d :
  0 <= a <= 255 → 0 <= b <= 255 → 0 <= c <= 255 → 0 <= d <= 255 →
  ParseIP4 (dotted a b c d) = Some [a; b; c; d].
Proof.
  intros Ha Hb Hc Hd. unfold ParseIP4, ParseIP, parseAddr.
  assert (addr_kind (dotted a b c d) = Some false) as ->.
  { unfold dotted. cbn [Join]. destruct (Itoa_head a) as (x & s & y & Hx & _); [lia|].
    pose proof (udigits_Itoa a ltac:(lia)) as Hu. unfold udigits in Hu. rewrite Hx in Hu |- *. cbn [is_empty] in Hu.
    eapply (addr_kind_digits (String x s)). exact Hu. }
  by rewrite parseIPv4_dotted.
Qed.

Lemma SplitHostPort_plain host port :
  free_of ":"%char host → free_of "["%char host → free_of "]"%char host → host ≠ "" →
  free_of ":"%char port → free_of "["%char port → free_of "]"%char port →
  SplitHostPort (host +:+ ":" +:+ port) = Ok (host, port).
Proof.
  intros H1 H2 H3 Hne P1 P2 P3. unfold SplitHostPort.
  change (host +:+ ":" +:+ port) with (host +:+ String ":" port).
  rewrite LastIndexByte_app by done. rewrite stake_app, (Contains_free host) by done.
  assert (∀ c, c ≠ ":"%char → free_of c host → free_of c port → free_of c (host +:+ String ":" port)) as Hf.
  { intros c Hc Hh Hp. apply free_of_app. split; [done|]. apply free_of_cons. by split. }
  rewrite sdrop_S_app. change (sdrop 0 ?x) with x.
  rewrite (Contains_free _ "["), (Contains_free _ "]") by (by apply Hf). destruct host as [|x host]; [done|]. autorewrite with cube_str.
  apply free_of_cons in H2 as [Hx _]. destruct x as [[] [] [] [] [] [] [] []]; try reflexivity. done.
Qed.
