(* ===== verification/ClusterModel.v ===== *)
(** * The cluster definition (internal/model/model.go)

    The document the planner edits, and what makes it valid: required fields,
    resolvable role interfaces, a control node where one is needed, and an
    internal service range that stays clear of every real network. *)
From S2P Require Import Prelude GoStrings GoNet.
From Stdlib Require Import Ascii.

Open Scope string_scope.
Open Scope list_scope.
Open Scope Z_scope.

(** ** The document *)

Record IF : Type := mkIF {
  if_ID : string;
  if_Type : string;
  if_Name : string;
  if_Enabled : bool;
  if_IPAddr : string;
  if_IPMask : string;
  if_Master : string;
  if_Slaves : list string
}.

Record IFInfo : Type := mkIFInfo { info_ID : string; info_Type : string }.

Definition Empty (i : IFInfo) : bool := is_empty i.(info_ID).

Record NodeRoleSettings : Type := mkNodeRoleSettings {
  rs_MgmtIF : IFInfo;
  rs_ProviderIF : IFInfo;
  rs_OverlayIF : IFInfo;
  rs_StorIF : IFInfo;
  rs_StorIFBackend : IFInfo
}.

Record NodeConfig : Type := mkNodeConfig {
  nc_ID : string;
  nc_Hostname : string;
  nc_InitIFs : list IF;
  nc_BondIFs : list IF;
  nc_VlanIFs : list IF;
  nc_DefaultIF : IFInfo;
  nc_DefaultGateway : string;
  nc_Role : string;
  nc_RoleSettings : NodeRoleSettings
}.

Record Timezone : Type := mkTimezone { tz_Name : string; tz_Offset : Z }.

Record ClusterRoleSettings : Type := mkClusterRoleSettings {
  cr_ExtIP : string;
  cr_Region : string;
  cr_SecretSeed : string;
  cr_MgmtCIDR : string
}.

Record HASettings : Type := mkHASettings { ha_VirtualIP : string; ha_VirtualHostname : string }.

Record SetReadySettings : Type := mkSetReadySettings {
  sr_CreateExternal : bool;
  sr_CIDR : string;
  sr_Gateway : string;
  sr_IPRange : string
}.

Record ClusterConfig : Type := mkClusterConfig {
  cc_DNS : list string;
  cc_Timezone : Timezone;
  cc_RoleSettings : ClusterRoleSettings;
  cc_HA : bool;
  cc_HASettings : HASettings;
  cc_SetReady : option SetReadySettings
}.

Record ClusterInfo : Type := mkClusterInfo { ci_ID : string; ci_Name : string }.

Record ClusterDetail : Type := mkClusterDetail {
  cd_ClusterInfo : ClusterInfo;
  cd_ClusterConfig : ClusterConfig;
  cd_NodeData : list NodeConfig
}.

Definition Roles : list string :=
  ["control"; "compute"; "storage"; "control-converged"; "edge-core"; "moderator"].

(** An unknown role needs no interface: the map has no entry for it. *)
Definition RoleNodeIFs (role : string) : list string :=
  if contains ["control"; "storage"; "moderator"] role then ["mgmtIF"; "storIF"]
  else if contains ["compute"; "control-converged"; "edge-core"] role
  then ["mgmtIF"; "providerIF"; "overlayIF"; "storIF"]
  else [].

Definition HasControlFunc (role : string) : bool :=
  contains ["control"; "control-converged"; "edge-core"; "moderator"] role.

Definition ValidRole (role : string) : bool := existsb (fun r => (r =? role)%string) Roles.

Definition ShortID (c : ClusterDetail) : string :=
  let id := c.(cd_ClusterInfo).(ci_ID) in
  if (String.length id <? 12)%nat then id else sdrop (String.length id - 12) id.

Definition AllIFs (n : NodeConfig) : list IF := n.(nc_InitIFs) ++ n.(nc_BondIFs) ++ n.(nc_VlanIFs).

Definition IFName (n : NodeConfig) (id : string) : string :=
  match find (fun f => (f.(if_ID) =? id)%string) (AllIFs n) with
  | Some f => f.(if_Name)
  | None => "None"
  end.

Definition roleIF (n : NodeConfig) (key : string) : IFInfo :=
  if (key =? "mgmtIF")%string then n.(nc_RoleSettings).(rs_MgmtIF)
  else if (key =? "providerIF")%string then n.(nc_RoleSettings).(rs_ProviderIF)
  else if (key =? "overlayIF")%string then n.(nc_RoleSettings).(rs_OverlayIF)
  else if (key =? "storIF")%string then n.(nc_RoleSettings).(rs_StorIF)
  else mkIFInfo "" "".

(** ** Validity *)

Definition invalidf {A} (msg : string) : result A := Err ("invalid clusterDetail: " +:+ msg).

Definition require (b : bool) (msg : string) : result unit := if b then Ok tt else invalidf msg.

(** The loop over the nodes: the hostnames seen, and whether a node has, or
    needs, the control function. *)
Definition check_role_if (n : NodeConfig) (key : string) : result unit :=
  let info := roleIF n key in
  require (negb (Empty info || (IFName n info.(info_ID) =? "None")%string))
    ("node " +:+ n.(nc_Hostname) +:+ ": " +:+ key +:+ " does not resolve to an interface").

Fixpoint check_nodes (seen : list string) (has needs : bool) (nodes : list NodeConfig)
    : result (bool * bool) :=
  match nodes with
  | [] => Ok (has, needs)
  | n :: nodes =>
      let h := n.(nc_Hostname) in
      let? _ := require (negb (is_empty h)) "node with empty hostname" in
      let? _ := require (negb (contains seen h)) ("duplicate hostname " +:+ Quote h) in
      let? _ := require (ValidRole n.(nc_Role)) ("node " +:+ h +:+ ": unknown role " +:+ Quote n.(nc_Role)) in
      let? _ := first_err (check_role_if n) (RoleNodeIFs n.(nc_Role)) in
      let backend := n.(nc_RoleSettings).(rs_StorIFBackend) in
      let? _ := require (Empty backend || negb (IFName n backend.(info_ID) =? "None")%string)
        ("node " +:+ h +:+ ": storIFBackend does not resolve to an interface") in
      if HasControlFunc n.(nc_Role) then check_nodes (h :: seen) true needs nodes
      else check_nodes (h :: seen) has true nodes
  end.

(** [host(s)], nil for a string that is not an address. *)
Definition host_net (s : string) : option IPNet :=
  (fun ip => mkIPNet ip (CIDRMask 128 128)) <$> ParseIP s.

(** The subnet of an interface. *)
Definition if_net (f : IF) : option IPNet :=
  match ParseIP4 f.(if_IPMask), host_net f.(if_IPAddr) with
  | Some m, Some sub => Some (mkIPNet (default [] (Mask sub.(net_IP) m)) m)
  | None, sub => sub
  | _, None => None
  end.

Definition overlaps (mgmt n : IPNet) : bool :=
  Contains_IP mgmt n.(net_IP) || Contains_IP n mgmt.(net_IP).

(** The closure [check]. *)
Definition check_net (cidr : string) (mgmt : IPNet) (what : string) (n : option IPNet) : result unit :=
  match n with
  | Some n =>
      require (negb (overlaps mgmt n))
        ("mgmtCIDR " +:+ cidr +:+ " overlaps " +:+ what +:+ " " +:+ net_string n
         +:+ "; it is CubeCOS's internal service range and must not overlap real networks (default 10.254.0.0/16)")
  | None => Ok tt
  end.

Definition check_if_net (cidr : string) (mgmt : IPNet) (n : NodeConfig) (f : IF) : result unit :=
  if is_empty f.(if_IPAddr) then Ok tt
  else check_net cidr mgmt ("node " +:+ n.(nc_Hostname) +:+ " " +:+ f.(if_Name) +:+ " subnet") (if_net f).

Definition check_node_nets (cidr : string) (mgmt : IPNet) (n : NodeConfig) : result unit :=
  let? _ := first_err (check_if_net cidr mgmt n) (AllIFs n) in
  check_net cidr mgmt ("node " +:+ n.(nc_Hostname) +:+ " default gateway") (host_net n.(nc_DefaultGateway)).

Definition validateMgmtCIDR (c : ClusterDetail) : result unit :=
  let cc := c.(cd_ClusterConfig) in
  let cidr := cc.(cc_RoleSettings).(cr_MgmtCIDR) in
  if is_empty cidr then Ok tt
  else
    let notv4 := invalidf ("mgmtCIDR " +:+ Quote cidr +:+ " is not an IPv4 CIDR") in
    match ParseCIDR cidr with
    | None => notv4
    | Some (ip, mgmt) =>
        match To4 ip with
        | None => notv4
        | Some _ =>
            let ones := (mask_Size mgmt.(net_Mask)).1 in
            let? _ := require ((ones =? 16) || (ones =? 8))
              ("mgmtCIDR " +:+ cidr +:+ " must be a /16 or /8 (CubeCOS internal service range, default 10.254.0.0/16)") in
            let check := check_net cidr mgmt in
            let? _ := first_err (check_node_nets cidr mgmt) c.(cd_NodeData) in
            let? _ := first_err (fun d => check "DNS server" (host_net d)) cc.(cc_DNS) in
            let? _ := check "external IP" (host_net cc.(cc_RoleSettings).(cr_ExtIP)) in
            let? _ := check "virtual IP" (host_net cc.(cc_HASettings).(ha_VirtualIP)) in
            match cc.(cc_SetReady) with
            | Some sr =>
                if sr.(sr_CreateExternal) && negb (is_empty sr.(sr_CIDR)) then
                  check "set-ready external network" (snd <$> ParseCIDR sr.(sr_CIDR))
                else Ok tt
            | None => Ok tt
            end
        end
    end.

Definition Validate (c : ClusterDetail) : result unit :=
  let cc := c.(cd_ClusterConfig) in
  let info := c.(cd_ClusterInfo) in
  let? _ := require (12 <=? String.length info.(ci_ID))%nat
    ("cluster id " +:+ Quote info.(ci_ID) +:+ " must be at least 12 characters") in
  let? _ := require (negb (is_empty info.(ci_Name))) "cluster name is empty" in
  let? _ := require (match cc.(cc_DNS) with d :: _ => negb (is_empty d) | [] => false end)
    "at least one DNS server is required" in
  let? _ := first_err (fun d => require (match ParseIP d with Some _ => true | None => false end)
    ("DNS " +:+ Quote d +:+ " is not a valid IP")) cc.(cc_DNS) in
  let? _ := require (negb cc.(cc_HA) || negb (is_empty cc.(cc_HASettings).(ha_VirtualIP)
                     || is_empty cc.(cc_HASettings).(ha_VirtualHostname)))
    "HA requires virtualIP and virtualHostname" in
  let? _ := require (match c.(cd_NodeData) with [] => false | _ => true end) "cluster has no nodes" in
  let? hn := check_nodes [] false false c.(cd_NodeData) in
  let? _ := require (negb (hn.2 && negb hn.1))
    "compute/storage nodes present but no control-function node" in
  validateMgmtCIDR c.

(** ** What the nodes of a valid cluster are *)

Lemma require_Ok b msg : require b msg = Ok tt ↔ b = true.
Proof. by destruct b. Qed.

Definition role_ifs_resolve (n : NodeConfig) : Prop :=
  Forall (fun key => (roleIF n key).(info_ID) ≠ "" ∧ IFName n (roleIF n key).(info_ID) ≠ "None")
    (RoleNodeIFs n.(nc_Role)).

Definition node_ok (n : NodeConfig) : Prop :=
  n.(nc_Hostname) ≠ "" ∧ n.(nc_Role) ∈ Roles ∧ role_ifs_resolve n
  ∧ (n.(nc_RoleSettings).(rs_StorIFBackend).(info_ID) ≠ "" →
     IFName n n.(nc_RoleSettings).(rs_StorIFBackend).(info_ID) ≠ "None").

Lemma ValidRole_spec r : ValidRole r = true ↔ r ∈ Roles.
Proof.
  unfold ValidRole. rewrite existsb_exists, list_elem_of_In. setoid_rewrite String.eqb_eq.
  split; [by intros (x & Hx & <-)|intros Hr; by exists r].
Qed.

Lemma bind_unit_Ok {A} (r : result unit) (k : result A) x :
  (let? _ := r in k) = Ok x ↔ r = Ok tt ∧ k = Ok x.
Proof. rewrite result_bind_Ok. split; [intros ([] & ? & ?); done|intros []; by exists tt]. Qed.

Lemma check_role_if_Ok n key :
  check_role_if n key = Ok tt ↔
    (roleIF n key).(info_ID) ≠ "" ∧ IFName n (roleIF n key).(info_ID) ≠ "None".
Proof.
  unfold check_role_if, Empty. rewrite require_Ok, negb_true_iff, orb_false_iff.
  by rewrite is_empty_false, String.eqb_neq.
Qed.

Lemma check_nodes_spec seen has needs nodes h' n' :
  check_nodes seen has needs nodes = Ok (h', n') ↔
    Forall node_ok nodes ∧ NoDup (nc_Hostname <$> nodes)
    ∧ (∀ n, n ∈ nodes → n.(nc_Hostname) ∉ seen)
    ∧ h' = has || existsb (fun n => HasControlFunc n.(nc_Role)) nodes
    ∧ n' = needs || existsb (fun n => negb (HasControlFunc n.(nc_Role))) nodes.
Proof.
  revert seen has needs. induction nodes as [|n nodes IH]; intros seen has needs; cbn [check_nodes].
  { cbn. rewrite !orb_false_r. split; [intros [= <- <-]|by intros (_ & _ & _ & -> & ->)].
    split_and!; try done; [constructor|by intros ? ?%elem_of_nil]. }
  rewrite !bind_unit_Ok, !require_Ok, first_err_Ok.
  setoid_rewrite check_role_if_Ok. rewrite !negb_true_iff, is_empty_false, contains_false, ValidRole_spec.
  assert (Empty (rs_StorIFBackend (nc_RoleSettings n))
      || negb (IFName n (info_ID (rs_StorIFBackend (nc_RoleSettings n))) =? "None")%string = true
    ↔ (info_ID (rs_StorIFBackend (nc_RoleSettings n)) ≠ "" →
       IFName n (info_ID (rs_StorIFBackend (nc_RoleSettings n))) ≠ "None")) as ->.
  { unfold Empty. rewrite orb_true_iff, negb_true_iff, is_empty_true, String.eqb_neq.
    destruct (decide (info_ID (rs_StorIFBackend (nc_RoleSettings n)) = "")); tauto. }
  assert ((if HasControlFunc (nc_Role n) then check_nodes (nc_Hostname n :: seen) true needs nodes
           else check_nodes (nc_Hostname n :: seen) has true nodes)
    = check_nodes (nc_Hostname n :: seen) (has || HasControlFunc (nc_Role n))
        (needs || negb (HasControlFunc (nc_Role n))) nodes) as ->.
  { destruct (HasControlFunc (nc_Role n)); cbn; by rewrite ?orb_false_r, ?orb_true_r. }
  rewrite IH. cbn [existsb fmap list_fmap]. rewrite !orb_assoc, Forall_cons, NoDup_cons.
  unfold node_ok, role_ifs_resolve. rewrite list_elem_of_fmap. split.
  - intros (H1 & H2 & H3 & H4 & H5 & H6 & H7 & H8 & -> & ->). split_and!; try done.
    + intros (m & Hm & Hin). apply (H8 m Hin). rewrite <- Hm. by left.
    + intros m [->|Hm]%elem_of_cons; [done|]. intros Hin. apply (H8 m Hm). by right.
  - intros (((H1 & H3 & H4 & H5) & H6) & (H7 & H8) & H9 & -> & ->). split_and!; try done.
    + apply H9. by left.
    + intros m Hm [E|Hin]%elem_of_cons; [|by apply (H9 m); [right|]]. apply H7. by exists m.
Qed.

(** What the generator and the store rely on of a valid cluster's nodes. *)
Lemma Validate_nodes c :
  Validate c = Ok tt →
  Forall node_ok c.(cd_NodeData) ∧ NoDup (nc_Hostname <$> c.(cd_NodeData))
  ∧ (∀ n, n ∈ c.(cd_NodeData) → HasControlFunc n.(nc_Role) = false →
       ∃ m, m ∈ c.(cd_NodeData) ∧ HasControlFunc m.(nc_Role) = true).
Proof.
  unfold Validate. rewrite !bind_unit_Ok. intros (_ & _ & _ & _ & _ & _ & Hk).
  apply result_bind_Ok in Hk as ([h w] & Hn & Hk). apply bind_unit_Ok in Hk as [Hk%require_Ok _].
  apply check_nodes_spec in Hn as (Hf & Hnd & _ & -> & ->). cbn in Hk. split_and!; [done|done|].
  intros n Hn Hc. apply negb_true_iff, andb_false_iff in Hk as [Hk|Hk].
  - exfalso. revert Hk. apply not_false_iff_true, existsb_exists. exists n.
    by rewrite <- list_elem_of_In, Hc.
  - apply negb_false_iff, existsb_exists in Hk as (m & Hm & Hc'). exists m. by rewrite list_elem_of_In.
Qed.

(** A cluster definition is accepted exactly when it describes a cluster that
    can be built: an id of twelve characters, a name, DNS servers that are
    addresses, the virtual IP and hostname when HA is on, at least one node,
    every node with its own hostname, a known role and an interface for each of
    the role's networks, a node with the control function if any node lacks it,
    and an internal service range that passes its own check. *)
Theorem Validate_spec c :
  let cc := c.(cd_ClusterConfig) in
  Validate c = Ok tt ↔
    (12 <= String.length c.(cd_ClusterInfo).(ci_ID))%nat
    ∧ c.(cd_ClusterInfo).(ci_Name) ≠ ""
    ∧ cc.(cc_DNS) ≠ [] ∧ Forall (fun d => is_Some (ParseIP d)) cc.(cc_DNS)
    ∧ (cc.(cc_HA) = true → cc.(cc_HASettings).(ha_VirtualIP) ≠ "" ∧ cc.(cc_HASettings).(ha_VirtualHostname) ≠ "")
    ∧ c.(cd_NodeData) ≠ [] ∧ Forall node_ok c.(cd_NodeData) ∧ NoDup (nc_Hostname <$> c.(cd_NodeData))
    ∧ ((∃ n, n ∈ c.(cd_NodeData) ∧ HasControlFunc n.(nc_Role) = false) →
       ∃ n, n ∈ c.(cd_NodeData) ∧ HasControlFunc n.(nc_Role) = true)
    ∧ validateMgmtCIDR c = Ok tt.
Proof.
  intros cc. unfold Validate. fold cc. rewrite !bind_unit_Ok, !require_Ok, first_err_Ok.
  setoid_rewrite require_Ok. rewrite Nat.leb_le, negb_true_iff, is_empty_false.
  rewrite (result_bind_Ok (check_nodes _ _ _ _)). setoid_rewrite bind_unit_Ok. setoid_rewrite require_Ok.
  assert (∀ f, existsb f c.(cd_NodeData) = true ↔ ∃ n, n ∈ c.(cd_NodeData) ∧ f n = true) as Hex.
  { intros f. rewrite existsb_exists. by setoid_rewrite list_elem_of_In. }
  assert (match cc_DNS cc with d :: _ => negb (is_empty d) | [] => false end = true
      ∧ Forall (fun d => match ParseIP d with Some _ => true | None => false end = true) (cc_DNS cc)
    ↔ cc_DNS cc ≠ [] ∧ Forall (fun d => is_Some (ParseIP d)) (cc_DNS cc)) as Hdns.
  { assert (∀ d, match ParseIP d with Some _ => true | None => false end = true ↔ is_Some (ParseIP d)) as Hip
      by (intros d; destruct (ParseIP d); split; [by eexists|done|done|by intros []]).
    setoid_rewrite Hip. destruct (cc_DNS cc) as [|d l]; [naive_solver|].
    rewrite Forall_cons, negb_true_iff, is_empty_false. split; [naive_solver|]. intros (_ & Hd & Hl).
    split_and!; try done. intros ->. by destruct Hd. }
  assert (negb (cc_HA cc) || negb (is_empty (ha_VirtualIP (cc_HASettings cc))
      || is_empty (ha_VirtualHostname (cc_HASettings cc))) = true
    ↔ (cc_HA cc = true → ha_VirtualIP (cc_HASettings cc) ≠ "" ∧ ha_VirtualHostname (cc_HASettings cc) ≠ "")) as ->.
  { rewrite orb_true_iff, !negb_true_iff, orb_false_iff, !is_empty_false. destruct (cc_HA cc); intuition congruence. }
  assert (match c.(cd_NodeData) with [] => false | _ => true end = true ↔ c.(cd_NodeData) ≠ []) as ->
    by (destruct (cd_NodeData c); naive_solver).
  split.
  - intros (H1 & H2 & H3 & H4 & H5 & H6 & [h n] & Hn & H7 & H8).
    apply check_nodes_spec in Hn as (Hf & Hnd & _ & -> & ->). destruct (proj1 Hdns (conj H3 H4)) as [? ?].
    split_and!; try done. intros Hx. cbn in H7. rewrite negb_true_iff, andb_false_iff, negb_false_iff in H7.
    apply Hex. destruct H7 as [H7|H7]; [|done]. exfalso. revert H7. apply not_false_iff_true, Hex.
    destruct Hx as (m & Hm & Hc). exists m. by rewrite Hc.
  - intros (H1 & H2 & H3 & H4 & H5 & H6 & Hf & Hnd & H7 & H8). destruct (proj2 Hdns (conj H3 H4)) as [? ?].
    split_and!; try done. eexists (_, _). split; [apply check_nodes_spec; split_and!; try done|].
    + by intros ? _ ?%elem_of_nil.
    + split; [|done]. cbn. rewrite negb_true_iff, andb_false_iff, negb_false_iff.
      destruct (existsb (fun n => negb (HasControlFunc (nc_Role n))) (cd_NodeData c)) eqn:E; [right|by left].
      apply Hex, H7. apply Hex in E as (m & Hm & Hc). exists m. by rewrite negb_true_iff in Hc.
Qed.

(** ** The internal service range *)

(** An IPv4 address, by its four bytes. *)
Definition v4 (a : IP) : Prop := length a = 4%nat.

Lemma To4_v4 a : v4 a → To4 a = Some a.
Proof. unfold v4, To4. by intros ->. Qed.

Lemma To4_as16 a : v4 a → To4 (as16 a) = Some a.
Proof. destruct a as [|x1 [|x2 [|x3 [|x4 [|x5 a]]]]]; done. Qed.

Lemma and_bytes_diag m : and_bytes m m = m.
Proof. unfold and_bytes. induction m as [|x m IH]; [done|]. cbn. by rewrite Z.land_diag, IH. Qed.

Lemma and_bytes_idem a m : and_bytes (and_bytes a m) m = and_bytes a m.
Proof. by rewrite and_bytes_assoc, and_bytes_diag. Qed.

Lemma and_bytes_length a m : length a = length m → length (and_bytes a m) = length m.
Proof. unfold and_bytes. rewrite length_zip_with. lia. Qed.

Lemma Contains_v4 b m x :
  v4 b → length m = 4%nat → v4 x →
  Contains_IP (mkIPNet b m) x = bool_decide (and_bytes b m = and_bytes x m).
Proof.
  intros Hb Hm Hx. unfold Contains_IP. rewrite To4_v4 by done. unfold networkNumberAndMask. cbn [net_IP net_Mask].
  rewrite To4_v4 by done. rewrite Hb, Hm. cbn [Nat.eqb orb negb]. by rewrite Hx, Hb.
Qed.

Lemma Contains_To4 n ip a : To4 ip = Some a → v4 a → Contains_IP n ip = Contains_IP n a.
Proof. intros H Ha. unfold Contains_IP. by rewrite H, To4_v4. Qed.

(** What [net.ParseIP(s).To4()] returns has four bytes, the last of the
    sixteen. *)
Lemma ParseIP4_inv s a :
  ParseIP4 s = Some a → v4 a ∧ ∃ ip, ParseIP s = Some ip ∧ To4 ip = Some a ∧ length ip = 16%nat
    ∧ take 12 ip = v4prefix ∧ drop 12 ip = a.
Proof.
  unfold ParseIP4, ParseIP. destruct (parseAddr s) as [b|]; [|done]. cbn. intros H.
  assert (length (as16 b) ≠ 4%nat) as Hne.
  { unfold as16. destruct (Nat.eqb_spec (length b) 4) as [E|]; [cbn; lia|done]. }
  pose proof H as H'. unfold To4 in H'. rewrite (proj2 (Nat.eqb_neq _ _) Hne) in H'.
  destruct (Nat.eqb_spec (length (as16 b)) 16) as [E|]; [|done]. cbn [andb] in H'.
  destruct (bool_decide_reflect (take 12 (as16 b) = v4prefix)) as [Et|]; [|done]. injection H' as <-.
  split; [unfold v4; rewrite length_drop; lia|]. by exists (as16 b).
Qed.

Lemma Mask_v4 ip m :
  length ip = 16%nat → take 12 ip = v4prefix → length m = 4%nat →
  Mask ip m = Some (and_bytes (drop 12 ip) m).
Proof.
  intros Hi Ht Hm. unfold Mask. rewrite Hm, Hi. cbn [Nat.eqb andb]. rewrite Hm. cbn [Nat.eqb andb].
  rewrite (bool_decide_eq_true_2 (take 12 ip = v4prefix)) by done. by rewrite length_drop, Hi.
Qed.

Lemma cidr_bytes_length n ones : length (cidr_bytes n ones) = n.
Proof. revert ones. induction n as [|n IH]; intros ones; cbn; [done|]. by rewrite IH. Qed.

(** The network of a plain IPv4 CIDR. *)
Lemma ParseCIDR_v4 s ip mgmt :
  ParseCIDR s = Some (ip, mgmt) → length mgmt.(net_Mask) = 4%nat →
  canonical mgmt.(net_Mask) ∧ v4 mgmt.(net_IP) ∧ and_bytes mgmt.(net_IP) mgmt.(net_Mask) = mgmt.(net_IP).
Proof.
  unfold ParseCIDR. destruct (Index s "/") as [i|]; [|done]. cbn [mbind option_bind].
  destruct (parseAddr (stake i s)) as [a|]; [|done]. cbn [mbind option_bind].
  destruct (dtoi _) as [n|] eqn:En; [|done]. cbn [mbind option_bind].
  destruct (Z.ltb_spec (8 * Z.of_nat (length a)) n) as [|Hle]; [done|]. intros [= <- <-]. cbn [net_IP net_Mask].
  unfold CIDRMask. rewrite cidr_bytes_length. intros Hl.
  assert (length a = 4%nat) as Ha by (rewrite (Z.mul_comm 8), Z.div_mul, Nat2Z.id in Hl by lia; exact Hl).
  clear Hl. rewrite Ha in *.
  change (Z.to_nat (8 * Z.of_nat 4 / 8)) with 4%nat. set (m := cidr_bytes 4 n).
  assert (length m = 4%nat) as Hm by apply cidr_bytes_length.
  pose proof (To4_as16 a Ha) as Hto. unfold To4 in Hto.
  assert (length (as16 a) = 16%nat ∧ take 12 (as16 a) = v4prefix ∧ drop 12 (as16 a) = a) as (H1 & H2 & H3).
  { destruct a as [|x1 [|x2 [|x3 [|x4 [|x5 a]]]]]; try discriminate Ha. done. }
  rewrite (Mask_v4 _ m H1 H2 Hm), H3. cbn [default]. split_and!.
  - exists n. split; [|done]. split; [|lia]. unfold dtoi, udigits in En. destruct (is_empty _); [done|].
    destruct (digits_val 0 _) as [v|] eqn:Ev; [|done]. apply digits_val_nonneg in Ev; [|done].
    destruct (v <? 16777215); [|done]. by injection En as <-.
  - change (length (and_bytes a m) = 4%nat). rewrite and_bytes_length; congruence.
  - change (and_bytes (and_bytes a m) m = and_bytes a m). apply and_bytes_idem.
Qed.

Lemma check_net_Ok cidr mgmt what n :
  check_net cidr mgmt what (Some n) = Ok tt ↔ overlaps mgmt n = false.
Proof. unfold check_net. by rewrite require_Ok, negb_true_iff. Qed.

(** The texts checked as single addresses. *)
Definition single_addrs (c : ClusterDetail) : list string :=
  (nc_DefaultGateway <$> c.(cd_NodeData)) ++ c.(cd_ClusterConfig).(cc_DNS)
  ++ [c.(cd_ClusterConfig).(cc_RoleSettings).(cr_ExtIP); c.(cd_ClusterConfig).(cc_HASettings).(ha_VirtualIP)].

(** C21. The internal service range stays clear of every real network: when the
    check accepts a plain IPv4 range, it is a /16 or a /8, no address of it
    lies in the subnet of any interface of any node (for every interface with
    an IPv4 address and a contiguous netmask), and no gateway, DNS server,
    external or virtual IP lies in it. *)
Theorem mgmt_range_disjoint c ip mgmt :
  let cidr := c.(cd_ClusterConfig).(cc_RoleSettings).(cr_MgmtCIDR) in
  validateMgmtCIDR c = Ok tt → cidr ≠ "" → ParseCIDR cidr = Some (ip, mgmt) →
  length mgmt.(net_Mask) = 4%nat →
  ((mask_Size mgmt.(net_Mask)).1 = 16 ∨ (mask_Size mgmt.(net_Mask)).1 = 8)
  ∧ (∀ n f a m k x, n ∈ c.(cd_NodeData) → f ∈ AllIFs n →
       ParseIP4 f.(if_IPAddr) = Some a → ParseIP4 f.(if_IPMask) = Some m → mask_ones m = Some k →
       v4 x → Contains_IP mgmt x = true → and_bytes x m ≠ and_bytes a m)
  ∧ (∀ s a, s ∈ single_addrs c → ParseIP4 s = Some a → Contains_IP mgmt a = false).
Proof.
  intros cidr Hv Hc Hp Hl. destruct (ParseCIDR_v4 _ _ _ Hp Hl) as (Hcan & Hb & Hidem).
  unfold validateMgmtCIDR in Hv. fold cidr in Hv. rewrite (proj2 (is_empty_false _) Hc), Hp in Hv.
  destruct (To4 ip); [|done]. rewrite !bind_unit_Ok, require_Ok, !first_err_Ok in Hv.
  destruct Hv as (Hones & Hnodes & Hdns & Hext & Hvip & _).
  assert (∀ s a what, check_net cidr mgmt what (host_net s) = Ok tt → ParseIP4 s = Some a →
    Contains_IP mgmt a = false) as Hhost.
  { intros s a what Hk Ha. destruct (ParseIP4_inv _ _ Ha) as (Hv4 & ip' & Hip & Hto & _).
    unfold host_net in Hk. rewrite Hip in Hk. cbn in Hk. apply check_net_Ok, orb_false_iff in Hk as [Hk _].
    cbn [net_IP] in Hk. by rewrite (Contains_To4 _ _ a) in Hk. }
  split_and!.
  - by rewrite orb_true_iff, !Z.eqb_eq in Hones.
  - intros n f a m k x Hn Hf Ha Hm Hk Hx Hin Heq. rewrite Forall_forall in Hnodes. specialize (Hnodes n Hn).
    unfold check_node_nets in Hnodes. rewrite bind_unit_Ok, first_err_Ok, Forall_forall in Hnodes.
    destruct Hnodes as [Hifs _]. specialize (Hifs f Hf). unfold check_if_net in Hifs.
    destruct (ParseIP4_inv _ _ Ha) as (Hv4 & ip' & Hip & Hto & Hlen & Htake & Hdrop).
    destruct (ParseIP4_inv _ _ Hm) as (Hmv4 & _).
    destruct (is_empty (if_IPAddr f)) eqn:Ee; [apply is_empty_true in Ee; rewrite Ee in Hip; discriminate Hip|].
    unfold if_net, host_net in Hifs. rewrite Hm, Hip in Hifs. cbn [fmap option_fmap option_map net_IP] in Hifs.
    rewrite (Mask_v4 _ m Hlen Htake Hmv4), Hdrop in Hifs. cbn [default] in Hifs.
    apply check_net_Ok, orb_false_iff in Hifs as [K1 K2]. cbn [net_IP] in K1.
    assert (v4 (and_bytes a m)) as Hsub by (unfold v4 in *; rewrite and_bytes_length; congruence).
    destruct mgmt as [B M]. cbn [net_IP net_Mask] in *.
    rewrite Contains_v4 in Hin, K1, K2 by done. apply bool_decide_eq_true in Hin.
    apply bool_decide_eq_false in K1, K2.
    destruct (nets_meet B M a m x) as [E|E]; try done.
    + by eapply mask_ones_canonical.
    + apply K2. change (id ?v) with v. by rewrite and_bytes_idem, E, Hidem.
  - intros s a Hs Ha. unfold single_addrs in Hs. rewrite !elem_of_app in Hs. destruct Hs as [Hs|[Hs|Hs]].
    + apply list_elem_of_fmap in Hs as (n & -> & Hn). rewrite Forall_forall in Hnodes. specialize (Hnodes n Hn).
      unfold check_node_nets in Hnodes. rewrite bind_unit_Ok in Hnodes. destruct Hnodes as [_ Hg].
      exact (Hhost _ _ _ Hg Ha).
    + rewrite Forall_forall in Hdns. exact (Hhost _ _ _ (Hdns s Hs) Ha).
    + apply elem_of_cons in Hs as [->|Hs]; [exact (Hhost _ _ _ Hext Ha)|].
      apply list_elem_of_singleton in Hs as ->. exact (Hhost _ _ _ Hvip Ha).
Qed.

(** ** A concrete cluster *)

Definition demo_if (id name ip mask : string) : IF := mkIF id "init" name true ip mask "" [].

Definition demo_nc (host ip : string) : NodeConfig :=
  mkNodeConfig "n1" host [demo_if "i1" "IF.1" ip "255.255.0.0"; demo_if "i2" "IF.2" "" ""] [] []
    (mkIFInfo "i1" "init") "10.1.0.1" "control-converged"
    (mkNodeRoleSettings (mkIFInfo "i1" "init") (mkIFInfo "i1" "init") (mkIFInfo "i2" "init")
       (mkIFInfo "i2" "init") (mkIFInfo "" "")).

Definition demo_detail (cidr : string) : ClusterDetail :=
  mkClusterDetail (mkClusterInfo "0123456789abcdef" "lab")
    (mkClusterConfig ["8.8.8.8"] (mkTimezone "UTC" 0) (mkClusterRoleSettings "" "" "" cidr) false
       (mkHASettings "" "") None)
    [demo_nc "cc1" "10.1.2.3"].

Lemma mgmt_range_disjoint_witness :
  ∃ ip mgmt, ParseCIDR "10.254.0.0/16" = Some (ip, mgmt) ∧ Contains_IP mgmt [10; 254; 3; 4] = true
    ∧ and_bytes [10; 254; 3; 4] [255; 255; 0; 0] ≠ and_bytes [10; 1; 2; 3] [255; 255; 0; 0].
Proof.
  eexists _, _. split; [vm_compute; reflexivity|]. split; [vm_compute; reflexivity|].
  refine (proj1 (proj2 (mgmt_range_disjoint (demo_detail "10.254.0.0/16") _ _ _ _ _ _))
    (demo_nc "cc1" "10.1.2.3") (demo_if "i1" "IF.1" "10.1.2.3" "255.255.0.0")
    [10; 1; 2; 3] [255; 255; 0; 0] 16 [10; 254; 3; 4] _ _ _ _ _ _ _);
    try (vm_compute; reflexivity); try discriminate; try (by left).
Defined.

(** An overlap is refused, and the check has a blind spot: a range written as an
    IPv4-mapped IPv6 CIDR with a /16 passes, whatever it overlaps. *)
Example overlap_refused : is_ok (validateMgmtCIDR (demo_detail "10.1.0.0/16")) = false.
Proof. vm_compute. reflexivity. Qed.

Example mapped_range_accepted : Validate (demo_detail "::ffff:10.1.0.0/16") = Ok tt.
Proof. vm_compute. reflexivity. Qed.
