(* ===== verification/Generator.v ===== *)
(** * What a node is given (internal/generator, model/preflight_bundle.go)

    The policy documents and the snapshot rendered for a node, and the plan of
    links and peers its installer checks before it restores.  A [doc] is the
    text its builder holds; a writer appends to it. *)
From S2P Require Import Prelude GoStrings GoNet ClusterModel.
From Stdlib Require Import Ascii.

Open Scope string_scope.
Open Scope list_scope.
Open Scope Z_scope.

(** ** validate.go *)

Definition validIPv4Mask (mask : string) : bool :=
  match ParseIP4 mask with
  | None => false
  | Some v4 => let '(ones, bits) := mask_Size v4 in (bits =? 32) && (0 <? ones)
  end.

Definition validate_if (f : IF) : result unit :=
  if negb f.(if_Enabled) then Ok tt
  else
    let addr := TrimSpace f.(if_IPAddr) in
    let mask := TrimSpace f.(if_IPMask) in
    if is_empty addr && is_empty mask then Ok tt
    else match ParseIP4 addr with
         | None => Err ("interface " +:+ f.(if_Name) +:+ ": invalid or missing IPv4 address " +:+ Quote f.(if_IPAddr))
         | Some _ =>
             if negb (validIPv4Mask mask) then
               Err ("interface " +:+ f.(if_Name) +:+ ": invalid or missing netmask " +:+ Quote f.(if_IPMask)
                    +:+ " — set a mask such as 255.255.0.0")
             else Ok tt
         end.

Definition ValidateNodeNetwork (n : NodeConfig) : result unit :=
  first_err validate_if (n.(nc_InitIFs) ++ n.(nc_BondIFs) ++ n.(nc_VlanIFs)).

(** ** model/preflight_bundle.go, preflight.go *)

Record PfLink : Type := mkPfLink {
  pl_Name : string;
  pl_Type : string;
  pl_Members : list string;
  pl_Parent : string;
  pl_VLANID : Z;
  pl_IP : string;
  pl_Roles : list string;
  pl_Gateway : string
}.

Record PfPeer : Type := mkPfPeer { pp_Hostname : string; pp_Role : string; pp_IP : string }.

Record PreflightBundle : Type := mkPreflightBundle {
  pb_Hostname : string;
  pb_Links : list PfLink;
  pb_Peers : list PfPeer
}.

Definition preflightRoles : list string := ["mgmt"; "provider"; "overlay"; "storage"].

Definition maskToPrefix (mask : string) : Z :=
  match ParseIP (TrimSpace mask) with
  | None => -1
  | Some ip => match To4 ip with Some v4 => (mask_Size v4).1 | None => -1 end
  end.

Definition cidr (ip mask : string) : string :=
  if is_empty ip then ""
  else let p := maskToPrefix mask in if 0 <=? p then ip +:+ "/" +:+ Itoa p else ip.

Definition vlanTag (name : string) : Z :=
  match LastIndexByte name "." with
  | None => 0
  | Some i => default 0 (Atoi (sdrop (S i) name))
  end.

(** The map's four keys; any other key reads as the empty string. *)
Definition roleIFIDs (n : NodeConfig) (role : string) : string :=
  let rs := n.(nc_RoleSettings) in
  if (role =? "mgmt")%string then rs.(rs_MgmtIF).(info_ID)
  else if (role =? "provider")%string then rs.(rs_ProviderIF).(info_ID)
  else if (role =? "overlay")%string then rs.(rs_OverlayIF).(info_ID)
  else if (role =? "storage")%string then rs.(rs_StorIF).(info_ID)
  else "".

Definition roleIP (n : NodeConfig) (role : string) : string :=
  let id := roleIFIDs n role in
  if is_empty id then ""
  else match find (fun f => (f.(if_ID) =? id)%string) (AllIFs n) with
       | Some f => f.(if_IPAddr)
       | None => ""
       end.

(** [rolesByIF[id]]: the roles an interface serves, in the order of the roles. *)
Definition rolesByIF (n : NodeConfig) (id : string) : list string :=
  List.filter (fun role => negb (is_empty (roleIFIDs n role)) && (roleIFIDs n role =? id)%string) preflightRoles.

Definition link_of (n : NodeConfig) (f : IF) : PfLink :=
  let bond := (f.(if_Type) =? "bond")%string in
  let vlan := (f.(if_Type) =? "vlan")%string in
  mkPfLink f.(if_Name) f.(if_Type)
    (if bond then IFName n <$> f.(if_Slaves) else [])
    (if vlan && negb (is_empty f.(if_Master)) then IFName n f.(if_Master) else "")
    (if vlan then vlanTag f.(if_Name) else 0)
    (cidr f.(if_IPAddr) f.(if_IPMask)) (rolesByIF n f.(if_ID))
    (if (f.(if_ID) =? n.(nc_DefaultIF).(info_ID))%string then n.(nc_DefaultGateway) else "").

Definition buildLinks (n : NodeConfig) : list PfLink :=
  link_of n <$> List.filter if_Enabled (AllIFs n).

Definition peer_of (self other : NodeConfig) (role : string) : list PfPeer :=
  if (other.(nc_Hostname) =? self.(nc_Hostname))%string then []
  else let ip := roleIP other role in
       if is_empty ip then [] else [mkPfPeer other.(nc_Hostname) role ip].

Definition buildPeers (self : NodeConfig) (all : list NodeConfig) : list PfPeer :=
  preflightRoles ≫= fun role =>
    if is_empty (roleIP self role) then [] else all ≫= fun other => peer_of self other role.

Definition BuildPreflightBundles (d : ClusterDetail) : gmap string PreflightBundle :=
  foldl (fun out n =>
    <[n.(nc_Hostname) := mkPreflightBundle n.(nc_Hostname) (buildLinks n) (buildPeers n d.(cd_NodeData))]> out)
    ∅ d.(cd_NodeData).

(** ** yamlwriter.go *)

(** The values [kv] is called with. *)
Inductive yval : Type := VNil | VStr (s : string) | VBool (b : bool) | VInt (z : Z).

Definition nl_char : ascii := "010"%char.
Definition nl : string := String nl_char "".

Definition doc : Type := string.

Definition header (comment : string) (d : doc) : doc := d +:+ "---" +:+ nl +:+ "# " +:+ comment +:+ nl.

Fixpoint indentOf (n : nat) : string := match n with O => "" | S n => String " " (indentOf n) end.

Definition yval_text (v : yval) : string :=
  match v with
  | VNil => " "
  | VStr v => if is_empty v then " " else " " +:+ v
  | VBool v => if v then " true" else " false"
  | VInt v => " " +:+ Itoa v
  end.

Definition kv (indent : nat) (key : string) (val : yval) (d : doc) : doc :=
  d +:+ indentOf indent +:+ (key +:+ ":") +:+ yval_text val +:+ nl.

Definition raw (indent : nat) (line : string) (d : doc) : doc := d +:+ indentOf indent +:+ line +:+ nl.

Notation "d '|>' f" := (f d) (at level 50, left associativity, only parsing) : go_scope.

(** ** render.go *)

Record ControlInfo : Type := mkControlInfo { ctl_Hostnames : list string; ctl_IPs : list string }.

Definition mgmt_ip (n : NodeConfig) : string :=
  match find (fun f => (f.(if_ID) =? n.(nc_RoleSettings).(rs_MgmtIF).(info_ID))%string
                       && negb (is_empty f.(if_IPAddr))) (AllIFs n) with
  | Some f => f.(if_IPAddr)
  | None => "None"
  end.

Definition GetControlInfo (nodes : list NodeConfig) : ControlInfo :=
  foldl (fun ctl n =>
    if negb (HasControlFunc n.(nc_Role)) then ctl
    else mkControlInfo (ctl.(ctl_Hostnames) ++ [n.(nc_Hostname)]) (ctl.(ctl_IPs) ++ [mgmt_ip n]))
    (mkControlInfo [] []) nodes.

(** A role the map has no entry for has no options. *)
Definition clusterOptions (role : string) : list string :=
  if contains ["control"; "control-converged"; "edge-core"; "moderator"] role
  then ["extIP"; "region"; "secretSeed"; "mgmtCIDR"]
  else if (role =? "compute")%string then ["ctrlHostname"; "ctrlIP"; "extIP"; "region"; "secretSeed"]
  else if (role =? "storage")%string then ["ctrlHostname"; "ctrlIP"; "region"; "secretSeed"]
  else [].

Definition nodeOptions (role : string) : list string :=
  if contains ["control"; "storage"; "moderator"] role then ["mgmtIF"; "storIF"]
  else if contains ["compute"; "control-converged"; "edge-core"] role
  then ["mgmtIF"; "providerIF"; "overlayIF"; "storIF"]
  else [].

Definition controller_of (n : NodeConfig) (cc : ClusterConfig) (ctl : ControlInfo) : yval :=
  foldl (fun controller opt =>
    if (opt =? "ctrlHostname")%string then
      if cc.(cc_HA) then VStr cc.(cc_HASettings).(ha_VirtualHostname)
      else match ctl.(ctl_Hostnames) with h :: _ => VStr h | [] => controller end
    else controller)
    (if cc.(cc_HA) then VStr cc.(cc_HASettings).(ha_VirtualHostname) else VNil)
    (clusterOptions n.(nc_Role)).

Definition cluster_opt (cc : ClusterConfig) (ctl : ControlInfo) (d : doc) (opt : string) : doc :=
  let rs := cc.(cc_RoleSettings) in
  if (opt =? "ctrlIP")%string then
    if cc.(cc_HA) then d |> kv 0 "controller-ip" (VStr cc.(cc_HASettings).(ha_VirtualIP))
    else match ctl.(ctl_IPs) with
         | ip :: _ => d |> kv 0 "controller-ip" (VStr ip)
         | [] => d |> kv 0 "controller-ip" VNil
         end
  else if (opt =? "extIP")%string then d |> kv 0 "external" (VStr rs.(cr_ExtIP))
  else if (opt =? "region")%string then d |> kv 0 "region" (VStr rs.(cr_Region))
  else if (opt =? "secretSeed")%string then d |> kv 0 "secret-seed" (VStr rs.(cr_SecretSeed))
  else if (opt =? "mgmtCIDR")%string then d |> kv 0 "mgmt-cidr" (VStr rs.(cr_MgmtCIDR))
  else d.

Definition node_opt (n : NodeConfig) (d : doc) (opt : string) : doc :=
  let rs := n.(nc_RoleSettings) in
  if (opt =? "mgmtIF")%string then d |> kv 0 "management" (VStr (IFName n rs.(rs_MgmtIF).(info_ID)))
  else if (opt =? "providerIF")%string then d |> kv 0 "provider" (VStr (IFName n rs.(rs_ProviderIF).(info_ID)))
  else if (opt =? "overlayIF")%string then d |> kv 0 "overlay" (VStr (IFName n rs.(rs_OverlayIF).(info_ID)))
  else if (opt =? "storIF")%string then
    let storage := IFName n rs.(rs_StorIF).(info_ID) in
    let storage := if Empty rs.(rs_StorIFBackend) then storage
                   else storage +:+ "," +:+ IFName n rs.(rs_StorIFBackend).(info_ID) in
    d |> kv 0 "storage" (VStr storage)
  else d.

Definition RenderCubesys (n : NodeConfig) (cc : ClusterConfig) (ctl : ControlInfo) : string :=
  let ha := cc.(cc_HASettings) in
  let d := ""
    |> header "cubesys/cubesys1_0.yml"
    |> kv 0 "name" (VStr "cubesys")
    |> kv 0 "version" (VStr "1.0")
    |> kv 0 "role" (VStr n.(nc_Role))
    |> kv 0 "domain" (VStr "default")
    |> kv 0 "ha" (VBool cc.(cc_HA))
    |> kv 0 "saltkey" (VBool true)
    |> kv 0 "controller" (controller_of n cc ctl) in
  let d := foldl (cluster_opt cc ctl) d (clusterOptions n.(nc_Role)) in
  let d := foldl (node_opt n) d (nodeOptions n.(nc_Role)) in
  if cc.(cc_HA) then
    let d := if HasControlFunc n.(nc_Role) then d |> kv 0 "control-vip" (VStr ha.(ha_VirtualIP)) else d in
    d |> kv 0 "control-hosts" (VStr (Join ctl.(ctl_Hostnames) ","))
      |> kv 0 "control-addrs" (VStr (Join ctl.(ctl_IPs) ","))
  else d.

Definition ifType (f : IF) : Z :=
  if (f.(if_Type) =? "vlan")%string then 3
  else if (f.(if_Type) =? "bond")%string then 1
  else if (f.(if_Type) =? "init")%string && is_empty f.(if_Master) then 0
  else 2.

Definition orDefault (s def : string) : string := if is_empty s then def else s.

Definition render_if (n : NodeConfig) (d : doc) (f : IF) : doc :=
  let d := d
    |> raw 2 ("- type: " +:+ Itoa (ifType f))
    |> kv 4 "enabled" (VBool f.(if_Enabled))
    |> kv 4 "label" (VStr f.(if_Name)) in
  let d := if is_empty f.(if_Master) then d else d |> kv 4 "master" (VStr (IFName n f.(if_Master))) in
  let d := d
    |> kv 4 "speed-duplex" (VStr "auto")
    |> raw 4 "ipv4:"
    |> kv 6 "dhcp" (VBool (negb f.(if_Enabled))) in
  let d := if f.(if_Enabled) then
      d |> kv 6 "ipaddr" (VStr (orDefault f.(if_IPAddr) "0.0.0.0"))
        |> kv 6 "netmask" (VStr (orDefault f.(if_IPMask) "0.0.0.0"))
        |> kv 6 "gateway" (if (f.(if_ID) =? n.(nc_DefaultIF).(info_ID))%string
                           then VStr n.(nc_DefaultGateway) else VNil)
    else d in
  d |> raw 4 "ipv6:" |> kv 6 "enabled" (VBool true) |> kv 6 "dhcp" (VBool true).

Definition RenderNetwork (n : NodeConfig) (cc : ClusterConfig) : string :=
  let d := ""
    |> header "network/network1_0.yml"
    |> kv 0 "name" (VStr "network")
    |> kv 0 "version" (VStr "1.0")
    |> kv 0 "hostname" (VStr n.(nc_Hostname))
    |> kv 0 "default-interface" (VStr (IFName n n.(nc_DefaultIF).(info_ID)))
    |> raw 0 "dns:"
    |> kv 2 "auto" (VBool false)
    |> kv 2 "primary" (match cc.(cc_DNS) with d0 :: _ => VStr d0 | [] => VNil end) in
  let d := match cc.(cc_DNS) with _ :: d1 :: _ => d |> kv 2 "secondary" (VStr d1) | _ => d end in
  foldl (render_if n) (d |> raw 0 "interfaces:") (AllIFs n).

Definition RenderTime (cc : ClusterConfig) : string :=
  "" |> header "time/time1_0.yml"
     |> kv 0 "name" (VStr "time")
     |> kv 0 "version" (VStr "1.0")
     |> kv 0 "timezone" (VStr cc.(cc_Timezone).(tz_Name)).

(** ** snapshot.go *)

(** A zip archive as its entries, in the order they are written. *)
Definition archive : Type := list (string * string).

(** The files of the embedded tree (template/), and what is in them. *)
Definition templateFS : list string :=
  ["template/Comment";
   "template/etc/appliance/state/configured";
   "template/etc/appliance/state/sla_accepted";
   "template/etc/policies/cubesys/cubesys1_0.yml";
   "template/etc/policies/network/network1_0.yml";
   "template/etc/policies/time/time1_0.yml"].

Section Snapshot.
Context (tree : list string) (bytes : string → string).

(** [stamp]: the time as [now.Format] prints it. *)
Definition rendered_files (n : NodeConfig) (d : ClusterDetail) (ctl : ControlInfo) (stamp : string)
    : gmap string string :=
  <["Comment" := "Generated for " +:+ d.(cd_ClusterInfo).(ci_Name) +:+ " on " +:+ stamp +:+ nl]>
  (<["etc/policies/cubesys/cubesys1_0.yml" := RenderCubesys n d.(cd_ClusterConfig) ctl]>
  (<["etc/policies/network/network1_0.yml" := RenderNetwork n d.(cd_ClusterConfig)]>
  (<["etc/policies/time/time1_0.yml" := RenderTime d.(cd_ClusterConfig)]> ∅))).

Definition snapshot_entry (rendered : gmap string string) (path : string) : string * string :=
  let rel := sdrop (String.length "template/") path in
  (rel, default (bytes path) (rendered !! rel)).

Definition BuildNodeSnapshot (n : NodeConfig) (d : ClusterDetail) (ctl : ControlInfo) (stamp : string)
    : result archive :=
  let? _ := ValidateNodeNetwork n in
  Ok (snapshot_entry (rendered_files n d ctl stamp) <$> SortStrings tree).

End Snapshot.

Definition BuildClusterZip (shortID detailJSON : string) (snapshots : gmap string string) : archive :=
  (shortID +:+ "/clusterDetail.json", detailJSON)
  :: ((fun h => (shortID +:+ "/" +:+ h +:+ ".snapshot", default "" (snapshots !! h)))
      <$> SortStrings (fst <$> map_to_list snapshots)).

(** ** What the network check guarantees *)

Definition no_static (f : IF) : Prop := TrimSpace f.(if_IPAddr) = "" ∧ TrimSpace f.(if_IPMask) = "".

(** An IPv4 address, and a netmask of [k] leading ones. *)
Definition static_ok (f : IF) (k : Z) : Prop :=
  is_Some (ParseIP4 (TrimSpace f.(if_IPAddr)))
  ∧ ParseIP4 (TrimSpace f.(if_IPMask)) = Some (CIDRMask k 32) ∧ 1 <= k <= 32.

Lemma mask_Size_cidr k : 0 <= k <= 32 → mask_Size (CIDRMask k 32) = (k, 32).
Proof.
  intros Hk. assert (Forall (fun n => mask_Size (CIDRMask (Z.of_nat n) 32) = (Z.of_nat n, 32)) (seq 0 33)) as H.
  { apply (bool_decide_unpack _). vm_compute. exact I. }
  rewrite Forall_forall in H. specialize (H (Z.to_nat k)). rewrite Z2Nat.id in H by lia.
  apply H, elem_of_seq. lia.
Qed.

Lemma validIPv4Mask_spec mask :
  validIPv4Mask mask = true ↔ ∃ k, ParseIP4 mask = Some (CIDRMask k 32) ∧ 1 <= k <= 32.
Proof.
  unfold validIPv4Mask. split.
  - destruct (ParseIP4 mask) as [v|] eqn:E; [|done]. apply ParseIP4_inv in E as [Hv _].
    unfold mask_Size. destruct (mask_ones v) as [k|] eqn:Ek; [|done].
    intros [_ Hpos%Z.ltb_lt]%andb_true_iff. apply mask_ones_cidr in Ek as [Hk Hm]. unfold v4 in Hv.
    rewrite Hv in *. exists k. split; [by rewrite Hm|lia].
  - intros (k & -> & Hk). rewrite mask_Size_cidr by lia. apply andb_true_iff.
    split; [done|]. apply Z.ltb_lt. lia.
Qed.

Lemma validate_if_Ok f :
  validate_if f = Ok tt ↔ (f.(if_Enabled) = true → no_static f ∨ ∃ k, static_ok f k).
Proof.
  unfold validate_if, no_static, static_ok. destruct (if_Enabled f); cbn; [|naive_solver].
  destruct (is_empty (TrimSpace (if_IPAddr f)) && is_empty (TrimSpace (if_IPMask f))) eqn:E.
  { apply andb_true_iff in E as [E1%is_empty_true E2%is_empty_true]. naive_solver. }
  assert (¬ (TrimSpace (if_IPAddr f) = "" ∧ TrimSpace (if_IPMask f) = "")) as Hne.
  { intros [H1 H2]. rewrite H1, H2 in E. discriminate E. }
  destruct (ParseIP4 (TrimSpace (if_IPAddr f))) as [a|].
  - destruct (validIPv4Mask (TrimSpace (if_IPMask f))) eqn:Em; cbn.
    + apply validIPv4Mask_spec in Em as (k & Hk & Hb). split; [|done]. intros _ _. right. by exists k.
    + split; [done|]. intros H. destruct (H eq_refl) as [|(k & _ & Hk & Hb)]; [done|].
      rewrite (proj2 (validIPv4Mask_spec _)) in Em; [done|]. by exists k.
  - split; [done|]. intros H. destruct (H eq_refl) as [|(k & [] & _)]; done.
Qed.

Lemma ValidateNodeNetwork_Ok n :
  ValidateNodeNetwork n = Ok tt ↔
    Forall (fun f => f.(if_Enabled) = true → no_static f ∨ ∃ k, static_ok f k) (AllIFs n).
Proof.
  unfold ValidateNodeNetwork. fold (AllIFs n). rewrite first_err_Ok.
  split; intros H; (eapply Forall_impl; [exact H|]); intros f; apply validate_if_Ok.
Qed.

Lemma maskToPrefix_ok f k : static_ok f k → maskToPrefix f.(if_IPMask) = k.
Proof.
  intros (_ & Hm & Hk). unfold maskToPrefix. unfold ParseIP4 in Hm.
  destruct (ParseIP (TrimSpace (if_IPMask f))) as [ip|]; [|done]. cbn in Hm. rewrite Hm.
  by rewrite mask_Size_cidr by lia.
Qed.

(** What the installer stands up is what the operator may save: when a node
    passes the network check, each link of its plan is one of its enabled
    interfaces, by name and type, and either that interface has no static
    address or the link carries its IPv4 address with the prefix length of its
    netmask, one to thirty-two: never a /0, never a bare address. *)
Theorem links_of_checked_node n :
  ValidateNodeNetwork n = Ok tt →
  Forall (fun l => ∃ f, f ∈ AllIFs n ∧ f.(if_Enabled) = true ∧ l.(pl_Name) = f.(if_Name)
    ∧ l.(pl_Type) = f.(if_Type)
    ∧ (no_static f ∨ ∃ k, static_ok f k ∧ l.(pl_IP) = f.(if_IPAddr) +:+ "/" +:+ Itoa k)) (buildLinks n).
Proof.
  rewrite ValidateNodeNetwork_Ok, !Forall_forall. intros Hn l (f & -> & Hf)%list_elem_of_fmap.
  rewrite list_elem_of_In, filter_In, <- list_elem_of_In in Hf. destruct Hf as [Hf He].
  exists f. split_and!; try done. destruct (Hn f Hf He) as [?|(k & Hk)]; [by left|right].
  exists k. split; [done|]. cbn [pl_IP link_of]. unfold cidr. rewrite (maskToPrefix_ok f k Hk).
  destruct (is_empty (if_IPAddr f)) eqn:E.
  - apply is_empty_true in E. destruct Hk as ([a Ha] & _). rewrite E in Ha. discriminate Ha.
  - destruct Hk as (_ & _ & Hk). by rewrite (proj2 (Z.leb_le _ _)) by lia.
Qed.

Lemma links_of_checked_node_witness :
  Forall (fun l => ∃ f, f ∈ AllIFs (demo_nc "cc1" "10.1.2.3") ∧ f.(if_Enabled) = true
    ∧ l.(pl_Name) = f.(if_Name) ∧ l.(pl_Type) = f.(if_Type)
    ∧ (no_static f ∨ ∃ k, static_ok f k ∧ l.(pl_IP) = f.(if_IPAddr) +:+ "/" +:+ Itoa k))
    (buildLinks (demo_nc "cc1" "10.1.2.3"))
  ∧ (pl_IP <$> buildLinks (demo_nc "cc1" "10.1.2.3")) = ["10.1.2.3/16"; ""].
Proof. split; [apply links_of_checked_node; vm_compute; reflexivity|vm_compute; reflexivity]. Defined.

(** A mask that is not contiguous reads as a /0, where the comment says -1; the
    network check is what keeps it out. *)
Example odd_mask_is_zero : cidr "10.1.2.3" "255.0.255.0" = "10.1.2.3/0".
Proof. vm_compute. reflexivity. Qed.

(** ** The ping matrix *)

Lemma elem_of_peers self all p :
  p ∈ buildPeers self all ↔
    p.(pp_Role) ∈ preflightRoles ∧ roleIP self p.(pp_Role) ≠ "" ∧ p.(pp_Hostname) ≠ self.(nc_Hostname)
    ∧ p.(pp_IP) ≠ "" ∧ ∃ o, o ∈ all ∧ o.(nc_Hostname) = p.(pp_Hostname) ∧ roleIP o p.(pp_Role) = p.(pp_IP).
Proof.
  unfold buildPeers. rewrite list_elem_of_bind. split.
  - intros (role & Hp & Hr). destruct (is_empty (roleIP self role)) eqn:E; [by apply elem_of_nil in Hp|].
    apply is_empty_false in E. apply list_elem_of_bind in Hp as (o & Hp & Ho). unfold peer_of in Hp.
    destruct (String.eqb_spec (nc_Hostname o) (nc_Hostname self)); [by apply elem_of_nil in Hp|].
    destruct (is_empty (roleIP o role)) eqn:E2; [by apply elem_of_nil in Hp|]. apply is_empty_false in E2.
    apply list_elem_of_singleton in Hp as ->. cbn. split_and!; try done. by exists o.
  - destruct p as [h role ip]. cbn. intros (Hr & Hs & Hh & Hi & o & Ho & Eh & Ei). subst h ip.
    exists role. split; [|done]. rewrite (proj2 (is_empty_false _) Hs). apply list_elem_of_bind.
    exists o. split; [|done]. unfold peer_of.
    rewrite (proj2 (String.eqb_neq _ _) Hh), (proj2 (is_empty_false _) Hi). by left.
Qed.

(** [m[k x] = v x] over a slice with distinct keys. *)
Lemma foldl_insert_lookup {A B} (k : A → string) (v : A → B) (l : list A) (m : gmap string B) x :
  NoDup (k <$> l) → x ∈ l → foldl (fun m x => <[k x := v x]> m) m l !! k x = Some (v x).
Proof.
  revert m. induction l as [|y l IH]; intros m Hnd Hx; [by apply elem_of_nil in Hx|].
  apply NoDup_cons in Hnd as [Hy Hnd]. cbn. apply elem_of_cons in Hx as [->|Hx]; [|by apply IH].
  clear IH. assert (∀ m : gmap string B, m !! k y = Some (v y) →
    foldl (fun m x => <[k x := v x]> m) m l !! k y = Some (v y)) as H.
  { clear m. induction l as [|z l IH]; intros m Hm; cbn; [done|]. cbn in Hy, Hnd.
    apply not_elem_of_cons in Hy as [Hz Hy]. apply NoDup_cons in Hnd as [_ Hnd].
    apply IH; [done|done|]. by rewrite lookup_insert_ne. }
  apply H. by rewrite lookup_insert_eq.
Qed.

(** The ping matrix is symmetric: in a cluster with distinct hostnames, every
    node has its own bundle, its peers are exactly the other nodes that share
    a role network with it, each at its address there, and a node that is to
    be pinged by another pings it back on the same network. *)
Theorem ping_matrix d self :
  NoDup (nc_Hostname <$> d.(cd_NodeData)) → self ∈ d.(cd_NodeData) →
  ∃ b, BuildPreflightBundles d !! self.(nc_Hostname) = Some b
    ∧ b.(pb_Hostname) = self.(nc_Hostname)
    ∧ (∀ o role, o ∈ d.(cd_NodeData) →
        mkPfPeer o.(nc_Hostname) role (roleIP o role) ∈ b.(pb_Peers) ↔
        role ∈ preflightRoles ∧ o ≠ self ∧ roleIP self role ≠ "" ∧ roleIP o role ≠ "")
    ∧ (∀ p, p ∈ b.(pb_Peers) → ∃ o b', o ∈ d.(cd_NodeData) ∧ p = mkPfPeer o.(nc_Hostname) p.(pp_Role) (roleIP o p.(pp_Role))
        ∧ BuildPreflightBundles d !! o.(nc_Hostname) = Some b'
        ∧ mkPfPeer self.(nc_Hostname) p.(pp_Role) (roleIP self p.(pp_Role)) ∈ b'.(pb_Peers)).
Proof.
  intros Hnd Hs. set (bundle n := mkPreflightBundle n.(nc_Hostname) (buildLinks n) (buildPeers n d.(cd_NodeData))).
  assert (∀ n, n ∈ d.(cd_NodeData) → BuildPreflightBundles d !! n.(nc_Hostname) = Some (bundle n)) as Hb.
  { intros n Hn. exact (foldl_insert_lookup nc_Hostname bundle _ ∅ n Hnd Hn). }
  assert (∀ x y, x ∈ d.(cd_NodeData) → y ∈ d.(cd_NodeData) → nc_Hostname x = nc_Hostname y → x = y) as Hinj.
  { intros x y (i & Hi)%list_elem_of_lookup (j & Hj)%list_elem_of_lookup Hxy.
    assert (i = j) as -> by (eapply NoDup_lookup; [exact Hnd| |]; rewrite list_lookup_fmap, ?Hi, ?Hj; reflexivity || (cbn; by rewrite Hxy)).
    congruence. }
  assert (∀ n, pb_Peers (bundle n) = buildPeers n d.(cd_NodeData)) as Hp by done.
  exists (bundle self). split_and!; [by apply Hb|done| |].
  - intros o role Ho. rewrite (Hp self), elem_of_peers. cbn [pp_Role pp_Hostname pp_IP]. split.
    + intros (H1 & H2 & H3 & H4 & _). split_and!; try done. congruence.
    + intros (H1 & H2 & H3 & H4). split_and!; try done; [|by exists o]. intros He. by apply H2, Hinj.
  - intros [h role ip]. rewrite (Hp self). cbn [pp_Role pp_Hostname pp_IP].
    intros (H1 & H2 & H3 & H4 & o & Ho & H5 & H6)%elem_of_peers. cbn [pp_Role pp_Hostname pp_IP] in *.
    exists o, (bundle o). split_and!; [done|congruence|by apply Hb|].
    rewrite (Hp o), elem_of_peers. cbn [pp_Role pp_Hostname pp_IP].
    split_and!; try done; [congruence|congruence|by exists self].
Qed.

Definition with_nodes (c : ClusterDetail) (nodes : list NodeConfig) : ClusterDetail :=
  mkClusterDetail c.(cd_ClusterInfo) c.(cd_ClusterConfig) nodes.

Definition demo_pair : ClusterDetail :=
  with_nodes (demo_detail "") [demo_nc "cc1" "10.1.2.3"; demo_nc "cc2" "10.1.2.4"].

Lemma ping_matrix_witness :
  ∃ b, BuildPreflightBundles demo_pair !! "cc1" = Some b ∧ mkPfPeer "cc2" "mgmt" "10.1.2.4" ∈ b.(pb_Peers).
Proof.
  destruct (ping_matrix demo_pair (demo_nc "cc1" "10.1.2.3")) as (b & Hb & _ & Hp & _).
  - apply (bool_decide_unpack _). vm_compute. exact I.
  - by left.
  - exists b. split; [exact Hb|]. apply (proj2 (Hp (demo_nc "cc2" "10.1.2.4") "mgmt" ltac:(by right; left))).
    split_and!; [by left|discriminate|vm_compute; discriminate|vm_compute; discriminate].
Defined.

(** A node's address counts for the matrix whether its interface is enabled or
    not, while a link is built for an enabled one only: the address of a
    disabled interface is pinged by every peer and stood up by nobody. *)
Definition disable_all (n : NodeConfig) : NodeConfig :=
  let off f := mkIF f.(if_ID) f.(if_Type) f.(if_Name) false f.(if_IPAddr) f.(if_IPMask) f.(if_Master) f.(if_Slaves) in
  mkNodeConfig n.(nc_ID) n.(nc_Hostname) (off <$> n.(nc_InitIFs)) (off <$> n.(nc_BondIFs)) (off <$> n.(nc_VlanIFs))
    n.(nc_DefaultIF) n.(nc_DefaultGateway) n.(nc_Role) n.(nc_RoleSettings).

Example disabled_is_pinged :
  let off := disable_all (demo_nc "cc2" "10.1.2.4") in
  buildLinks off = [] ∧ In (mkPfPeer "cc2" "mgmt" "10.1.2.4") (buildPeers (demo_nc "cc1" "10.1.2.3") [off]).
Proof. split; [vm_compute; reflexivity|by left]. Qed.

(** ** The lines of a document

    The documents are flat lists of "key: value" lines at their top level. *)

(** The lines of a text that set a key. *)
Definition key_lines (d : doc) (key : string) : list string :=
  List.filter (fun l => HasPrefix l (key +:+ ":")) (Split d nl_char).

Definition no_nl (s : string) : Prop := free_of nl_char s.

Definition line_of (e : string * yval) : string := (e.1 +:+ ":") +:+ yval_text e.2.

(** [d] is a document whose top-level lines are [es], after two lines of header. *)
Definition doc_of (d : doc) (es : list (string * yval)) : Prop :=
  ∃ c, Contains c ":" = false ∧
    Split d nl_char = "---" :: c :: (line_of <$> es) ++ [""].

Lemma Split_ne s sep : Split s sep ≠ [].
Proof. destruct s as [|c s]; cbn; [done|]. destruct (Ascii.eqb c sep); [done|]. by destruct (Split s sep). Qed.

Lemma Split_snoc sep a l b :
  free_of sep b → Split a sep = l ++ [""] → Split (a +:+ b +:+ String sep "") sep = l ++ [b; ""].
Proof.
  intros Hb. revert l. induction a as [|c a IH]; intros l H.
  - destruct l as [|x l]; [|by destruct l]. cbn. rewrite (append_nil (b +:+ _)), Split_app by done. done.
  - rewrite append_cons. cbn [Split] in *. destruct (Ascii.eqb c sep).
    + destruct l as [|x l]; cbn in H; [injection H as H; by apply Split_ne in H|].
      injection H as <- H. cbn. f_equal. by apply IH.
    + destruct (Split a sep) as [|w ws] eqn:E; [by apply Split_ne in E|]. destruct l as [|x l]; cbn in H; [done|].
      injection H as <- H. subst ws. rewrite (IH (w :: l)) by done. done.
Qed.

Definition emit (d : doc) (e : string * yval) : doc := kv 0 e.1 e.2 d.

Definition val_clean (v : yval) : Prop := match v with VStr s => no_nl s | _ => True end.

Lemma free_of_Itoa z : no_nl (Itoa z).
Proof.
  destruct (Z.leb_spec 0 z); [by apply Itoa_free|]. unfold no_nl, Itoa. destruct z as [|p|p]; [lia|lia|].
  cbn. apply free_of_cons. split; [done|]. pose proof (Itoa_free nl_char (Z.pos p) eq_refl ltac:(lia)) as Hp. exact Hp.
Qed.

Lemma yval_text_clean v : val_clean v → no_nl (yval_text v).
Proof.
  destruct v as [|s|[]|z]; cbn; intros H; try reflexivity.
  - destruct (is_empty s); [reflexivity|]. rewrite append_cons. by apply free_of_cons.
  - rewrite append_cons. apply free_of_cons. split; [done|apply free_of_Itoa].
Qed.

Lemma doc_of_kv d es k v :
  no_nl k → val_clean v → doc_of d es → doc_of (kv 0 k v d) (es ++ [(k, v)]).
Proof.
  intros Hk Hv (c & Hc & Hd). exists c. split; [done|]. unfold kv. cbn [indentOf]. rewrite append_nil.
  rewrite <- (app_assoc_str (k +:+ ":")). unfold nl.
  assert (no_nl ((k +:+ ":") +:+ yval_text v)) as Hl.
  { apply free_of_app. split; [apply free_of_app; split; [done|reflexivity]|by apply yval_text_clean]. }
  rewrite (Split_snoc nl_char d ("---" :: c :: (line_of <$> es)) _ Hl).
  - by rewrite fmap_app, <- app_assoc.
  - exact Hd.
Qed.

Lemma HasPrefix_byte c d s : HasPrefix (String c s) (String d "") = true → d = c.
Proof. unfold HasPrefix. cbn [String.prefix]. by destruct (ascii_dec d c). Qed.

Lemma HasPrefix_cons c s d p : HasPrefix (String c s) (String d p) = (d =? c)%char && HasPrefix s p.
Proof.
  unfold HasPrefix. cbn [String.prefix]. destruct (ascii_dec d c) as [->|Hne]; [by rewrite Ascii.eqb_refl|].
  by rewrite (proj2 (Ascii.eqb_neq d c)).
Qed.

(** A line sets the key it starts with and no other. *)
Lemma HasPrefix_key k key r :
  free_of ":" k → free_of ":" key → HasPrefix ((k +:+ ":") +:+ r) (key +:+ ":") = (k =? key)%string.
Proof.
  revert key. induction k as [|c k IH]; intros [|d key]; autorewrite with cube_str; rewrite ?HasPrefix_cons.
  - intros _ _. by destruct r.
  - intros _ [Hd _]%free_of_cons. by rewrite (proj2 (Ascii.eqb_neq d ":")).
  - intros [Hc _]%free_of_cons _. rewrite (proj2 (Ascii.eqb_neq ":" c)) by congruence. done.
  - intros [_ Hk]%free_of_cons [_ Hkey]%free_of_cons. specialize (IH key Hk Hkey).
    autorewrite with cube_str in IH. rewrite IH. cbn [String.eqb]. rewrite Ascii.eqb_sym.
    by destruct (Ascii.eqb c d).
Qed.

Lemma Contains_prefix c key sep : HasPrefix c (key +:+ String sep "") = true → Contains c (String sep "") = true.
Proof.
  unfold Contains. revert c. induction key as [|d key IH]; intros [|x c]; autorewrite with cube_str; try done.
  - intros H. cbn [Index]. by rewrite H.
  - rewrite HasPrefix_cons. intros [_ H]%andb_true_iff. specialize (IH c H). cbn [Index].
    destruct (HasPrefix (String x c) _); [done|]. revert IH. by destruct (Index c _).
Qed.

(** What the lines of a document set a key to. *)
Definition says (es : list (string * yval)) (key : string) : list string :=
  line_of <$> List.filter (fun e => (e.1 =? key)%string) es.

Lemma lines_doc d es key :
  Forall (fun e => free_of ":" e.1) es → free_of ":" key → doc_of d es → key_lines d key = says es key.
Proof.
  intros Hk Hkey (c & Hc & Hd). unfold key_lines, says. rewrite Hd.
  assert (∀ x, Contains x ":" = false → HasPrefix x (key +:+ ":") = false) as Hno.
  { intros x Hx. destruct (HasPrefix x (key +:+ ":")) eqn:E; [|done].
    apply (Contains_prefix x key ":") in E. congruence. }
  cbn [List.filter]. rewrite (Hno "---"), (Hno c) by done. rewrite List.filter_app. cbn [List.filter].
  rewrite (Hno "") by done. rewrite app_nil_r. clear -Hk Hkey.
  induction Hk as [|e es He Hk IH]; [done|]. cbn [fmap list_fmap List.filter].
  unfold line_of at 1. rewrite HasPrefix_key by done. destruct (e.1 =? key)%string; [|exact IH].
  cbn [fmap list_fmap]. f_equal. exact IH.
Qed.

Lemma line_str k s : line_of (k, VStr s) = (k +:+ ": ") +:+ s.
Proof.
  unfold line_of. cbn [fst snd yval_text]. rewrite !app_assoc_str. f_equal.
  destruct (is_empty s) eqn:E; [apply is_empty_true in E as ->|]; reflexivity.
Qed.

Lemma doc_of_header c : Contains ("# " +:+ c) ":" = false → no_nl c → doc_of (header c "") [].
Proof.
  intros Hc Hn. exists ("# " +:+ c). split; [done|]. unfold header. rewrite append_nil. unfold nl.
  change ("---" +:+ String nl_char "" +:+ "# " +:+ c +:+ String nl_char "")
    with ("---" +:+ String nl_char ("# " +:+ c +:+ String nl_char "")).
  rewrite Split_app by reflexivity. f_equal. rewrite <- app_assoc_str. rewrite Split_app; [done|].
  apply free_of_app. by split.
Qed.

(** ** What every node is told about the control plane *)

Definition node_texts (n : NodeConfig) : list string :=
  n.(nc_Hostname) :: (AllIFs n ≫= fun f => [f.(if_Name); f.(if_IPAddr)]).

(** The texts of a cluster that a policy document repeats. *)
Definition cluster_texts (c : ClusterDetail) : list string :=
  let cc := c.(cd_ClusterConfig) in
  [cc.(cc_HASettings).(ha_VirtualIP); cc.(cc_HASettings).(ha_VirtualHostname); cc.(cc_RoleSettings).(cr_ExtIP);
   cc.(cc_RoleSettings).(cr_Region); cc.(cc_RoleSettings).(cr_SecretSeed); cc.(cc_RoleSettings).(cr_MgmtCIDR)]
  ++ (c.(cd_NodeData) ≫= node_texts).

Definition controls (c : ClusterDetail) : list NodeConfig :=
  List.filter (fun n => HasControlFunc n.(nc_Role)) c.(cd_NodeData).

Lemma GetControlInfo_spec nodes :
  GetControlInfo nodes =
    let l := List.filter (fun n => HasControlFunc n.(nc_Role)) nodes in
    mkControlInfo (nc_Hostname <$> l) (mgmt_ip <$> l).
Proof.
  unfold GetControlInfo. cbv zeta.
  assert (∀ hs ips, foldl (fun ctl n => if negb (HasControlFunc n.(nc_Role)) then ctl
      else mkControlInfo (ctl.(ctl_Hostnames) ++ [n.(nc_Hostname)]) (ctl.(ctl_IPs) ++ [mgmt_ip n]))
      (mkControlInfo hs ips) nodes
    = mkControlInfo (hs ++ (nc_Hostname <$> List.filter (fun n => HasControlFunc n.(nc_Role)) nodes))
        (ips ++ (mgmt_ip <$> List.filter (fun n => HasControlFunc n.(nc_Role)) nodes))) as H.
  { induction nodes as [|n nodes IH]; intros hs ips; cbn; [by rewrite !app_nil_r|].
    destruct (HasControlFunc (nc_Role n)); cbn; rewrite IH; [|done]. cbn. by rewrite <- !app_assoc. }
  apply H.
Qed.

Lemma find_name_clean {A} (P : string → Prop) (t : A → string) (f : A → bool) (l : list A) dflt :
  P dflt → Forall (fun x => P (t x)) l → P (match find f l with Some x => t x | None => dflt end).
Proof.
  intros Hd Hl. destruct (find f l) as [x|] eqn:E; [|done]. apply find_some in E as [Hx _].
  rewrite <- list_elem_of_In in Hx. rewrite Forall_forall in Hl. by apply Hl.
Qed.

Lemma node_texts_clean n :
  Forall no_nl (node_texts n) →
  no_nl n.(nc_Hostname) ∧ (∀ id, no_nl (IFName n id)) ∧ no_nl (mgmt_ip n).
Proof.
  intros [Hh Hf]%Forall_cons. split_and!; [done| |].
  - intros id. apply (find_name_clean no_nl if_Name); [reflexivity|]. apply Forall_forall. intros f Hin.
    rewrite Forall_forall in Hf. apply Hf, list_elem_of_bind. exists f. split; [by left|done].
  - apply (find_name_clean no_nl if_IPAddr); [reflexivity|]. apply Forall_forall. intros f Hin.
    rewrite Forall_forall in Hf. apply Hf, list_elem_of_bind. exists f. split; [by right; left|done].
Qed.

Lemma Join_clean sep l : no_nl sep → Forall no_nl l → no_nl (Join l sep).
Proof.
  intros Hs. induction 1 as [|x l Hx Hl IH]; [reflexivity|]. cbn [Join]. destruct l; [done|].
  apply free_of_app. split; [done|]. apply free_of_app. by split.
Qed.

(** The documents' keys and values, written as their top-level lines. *)
Definition cubesys_lines (n : NodeConfig) (cc : ClusterConfig) (ctl : ControlInfo) : list (string * yval) :=
  let rs := cc.(cc_RoleSettings) in
  let ha := cc.(cc_HASettings) in
  let control := HasControlFunc n.(nc_Role) in
  let wide := contains ["compute"; "control-converged"; "edge-core"] n.(nc_Role) in
  let name i := VStr (IFName n i.(info_ID)) in
  let first l := match l with x :: _ => VStr x | [] => VNil end in
  let stor := n.(nc_RoleSettings).(rs_StorIF) in
  let backend := n.(nc_RoleSettings).(rs_StorIFBackend) in
  [("name", VStr "cubesys"); ("version", VStr "1.0"); ("role", VStr n.(nc_Role)); ("domain", VStr "default");
   ("ha", VBool cc.(cc_HA)); ("saltkey", VBool true);
   ("controller", if cc.(cc_HA) then VStr ha.(ha_VirtualHostname)
                  else if control then VNil else first ctl.(ctl_Hostnames))]
  ++ (if control then [] else
        [("controller-ip", if cc.(cc_HA) then VStr ha.(ha_VirtualIP) else first ctl.(ctl_IPs))])
  ++ (if (n.(nc_Role) =? "storage")%string then [] else [("external", VStr rs.(cr_ExtIP))])
  ++ [("region", VStr rs.(cr_Region)); ("secret-seed", VStr rs.(cr_SecretSeed))]
  ++ (if control then [("mgmt-cidr", VStr rs.(cr_MgmtCIDR))] else [])
  ++ [("management", name n.(nc_RoleSettings).(rs_MgmtIF))]
  ++ (if wide then [("provider", name n.(nc_RoleSettings).(rs_ProviderIF));
                    ("overlay", name n.(nc_RoleSettings).(rs_OverlayIF))] else [])
  ++ [("storage", VStr (IFName n stor.(info_ID)
         +:+ (if Empty backend then "" else "," +:+ IFName n backend.(info_ID))))]
  ++ (if cc.(cc_HA) then
        (if control then [("control-vip", VStr ha.(ha_VirtualIP))] else [])
        ++ [("control-hosts", VStr (Join ctl.(ctl_Hostnames) ",")); ("control-addrs", VStr (Join ctl.(ctl_IPs) ","))]
      else []).

Definition lines_clean (es : list (string * yval)) : Prop := Forall (fun e => val_clean e.2) es.

Lemma doc_of_emits d es0 es :
  Forall (fun e => no_nl e.1) es → lines_clean es → doc_of d es0 → doc_of (foldl emit d es) (es0 ++ es).
Proof.
  intros Hk Hv. revert d es0. induction es as [|[k v] es IH]; intros d es0 Hd; [by rewrite app_nil_r|].
  apply Forall_cons in Hk as [Hk Hks]. apply Forall_cons in Hv as [Hv Hvs]. cbn.
  replace (es0 ++ (k, v) :: es) with ((es0 ++ [(k, v)]) ++ es) by (by rewrite <- app_assoc).
  apply IH; [done|done|]. by apply doc_of_kv.
Qed.

(** The renderer writes those lines, in that order. *)
Lemma RenderCubesys_lines n cc ctl :
  n.(nc_Role) ∈ Roles →
  RenderCubesys n cc ctl = foldl emit (header "cubesys/cubesys1_0.yml" "") (cubesys_lines n cc ctl).
Proof.
  unfold Roles, RenderCubesys, cubesys_lines, controller_of, cluster_opt, node_opt. intros Hr.
  repeat (apply elem_of_cons in Hr as [->|Hr]; [
    destruct (cc_HA cc), (ctl_Hostnames ctl), (ctl_IPs ctl), (Empty (rs_StorIFBackend (nc_RoleSettings n))) eqn:E;
    cbn -[kv String.append header IFName Join];
    rewrite ?E, ?app_nil_r_str; reflexivity|]).
  by apply elem_of_nil in Hr.
Qed.

Definition line_ok (e : string * yval) : Prop := val_clean e.2 ∧ no_nl e.1 ∧ free_of ":" e.1.

Lemma cubesys_lines_ok n cc ctl :
  n.(nc_Role) ∈ Roles → Forall no_nl (node_texts n) →
  Forall no_nl [cc.(cc_HASettings).(ha_VirtualIP); cc.(cc_HASettings).(ha_VirtualHostname);
                cc.(cc_RoleSettings).(cr_ExtIP); cc.(cc_RoleSettings).(cr_Region);
                cc.(cc_RoleSettings).(cr_SecretSeed); cc.(cc_RoleSettings).(cr_MgmtCIDR)] →
  Forall no_nl ctl.(ctl_Hostnames) → Forall no_nl ctl.(ctl_IPs) →
  Forall line_ok (cubesys_lines n cc ctl).
Proof.
  intros Hr (_ & Hn & _)%node_texts_clean Hcc Hh Hi. rewrite !Forall_cons in Hcc.
  destruct Hcc as (C1 & C2 & C3 & C4 & C5 & C6 & _).
  assert (no_nl n.(nc_Role)) as Hrole.
  { unfold Roles in Hr. repeat (apply elem_of_cons in Hr as [->|Hr]; [reflexivity|]). by apply elem_of_nil in Hr. }
  assert (∀ k v, val_clean v → no_nl k → free_of ":" k → line_ok (k, v)) as Hline by done.
  unfold cubesys_lines. cbv zeta. rewrite !Forall_app. split_and!; repeat case_match;
    cbn [app]; rewrite ?Forall_app, ?Forall_cons; try (split_and!); try apply Forall_nil; try done;
    (apply Hline; [|reflexivity|reflexivity]); cbn [val_clean]; auto; try reflexivity;
    try (by apply Join_clean); try (by inversion Hh); try (by inversion Hi).
  - apply (proj2 (free_of_app _ _ _)). split; [apply Hn|reflexivity].
  - apply (proj2 (free_of_app _ _ _)). split; [apply Hn|].
    apply (proj2 (free_of_app nl_char "," _)). split; [reflexivity|apply Hn].
Qed.

Lemma lines_cubesys n cc ctl key :
  n.(nc_Role) ∈ Roles → Forall line_ok (cubesys_lines n cc ctl) → free_of ":" key →
  key_lines (RenderCubesys n cc ctl) key = says (cubesys_lines n cc ctl) key.
Proof.
  intros Hr [Hv [Hk Hc]%Forall_and]%Forall_and Hkey. rewrite RenderCubesys_lines by done.
  apply lines_doc; [done|done|]. apply (doc_of_emits _ [] _ Hk Hv), doc_of_header; reflexivity.
Qed.

(** C22. Every node of a valid cluster whose texts have no newline is told the
    same about the control plane.  In the text of its policy file these are the
    only lines that start with the key and a colon: its role and whether there is HA;
    under HA the virtual hostname as the controller and the names and management addresses
    (the word None for a node without one) of the control nodes, in the order of the definition, for the nodes
    with the control function also the virtual IP to hold, for the others the
    virtual IP as their controller's address; without HA a compute or storage
    node points at the first control node, which exists, by name and management
    address, and no line tells of a virtual IP. *)
Theorem nodes_agree_on_control c n :
  Validate c = Ok tt → Forall no_nl (cluster_texts c) → n ∈ c.(cd_NodeData) →
  let cc := c.(cd_ClusterConfig) in
  let ha := cc.(cc_HASettings) in
  let lines := key_lines (RenderCubesys n cc (GetControlInfo c.(cd_NodeData))) in
  let control := HasControlFunc n.(nc_Role) in
  lines "role" = ["role: " +:+ n.(nc_Role)]
  ∧ lines "ha" = [if cc.(cc_HA) then "ha: true" else "ha: false"]
  ∧ if cc.(cc_HA) then
      lines "controller" = ["controller: " +:+ ha.(ha_VirtualHostname)]
      ∧ lines "control-hosts" = ["control-hosts: " +:+ Join (nc_Hostname <$> controls c) ","]
      ∧ lines "control-addrs" = ["control-addrs: " +:+ Join (mgmt_ip <$> controls c) ","]
      ∧ lines "control-vip" = (if control then ["control-vip: " +:+ ha.(ha_VirtualIP)] else [])
      ∧ lines "controller-ip" = (if control then [] else ["controller-ip: " +:+ ha.(ha_VirtualIP)])
    else
      lines "control-hosts" = [] ∧ lines "control-addrs" = [] ∧ lines "control-vip" = []
      ∧ if control then lines "controller" = ["controller: "] ∧ lines "controller-ip" = []
        else ∃ m l, controls c = m :: l ∧ lines "controller" = ["controller: " +:+ m.(nc_Hostname)]
             ∧ lines "controller-ip" = ["controller-ip: " +:+ mgmt_ip m].
Proof.
  intros Hv Ht Hn cc ha lines control. destruct (Validate_nodes c Hv) as (Hok & _ & Hex).
  unfold cluster_texts in Ht. apply Forall_app in Ht as [Hc Hnt].
  assert (∀ m, m ∈ cd_NodeData c → Forall no_nl (node_texts m)) as Hm.
  { intros m Hin. rewrite Forall_forall in Hnt |- *. intros x Hx. apply Hnt, list_elem_of_bind. by exists m. }
  assert (nc_Role n ∈ Roles) as Hr by (rewrite Forall_forall in Hok; apply Hok, Hn).
  assert (∀ key, free_of ":" key →
    lines key = says (cubesys_lines n cc (GetControlInfo (cd_NodeData c))) key) as Hread.
  { intros key Hkey. apply lines_cubesys; [done| |done]. apply cubesys_lines_ok; auto.
    - rewrite GetControlInfo_spec. apply Forall_fmap, Forall_forall. intros m.
      rewrite list_elem_of_In, filter_In, <- list_elem_of_In. intros [Hin _].
      by apply (node_texts_clean m (Hm m Hin)).
    - rewrite GetControlInfo_spec. apply Forall_fmap, Forall_forall. intros m.
      rewrite list_elem_of_In, filter_In, <- list_elem_of_In. intros [Hin _].
      by apply (node_texts_clean m (Hm m Hin)). }
  rewrite !Hread by reflexivity. rewrite GetControlInfo_spec. cbn [ctl_Hostnames ctl_IPs]. fold (controls c).
  unfold cubesys_lines, says.
  fold cc. fold ha. fold control. cbn [ctl_Hostnames ctl_IPs].
  assert (control = false → ∃ m l, controls c = m :: l) as Hfirst.
  { intros Hf. destruct (Hex n Hn Hf) as (m & Hin & Hmc). destruct (controls c) as [|m' l] eqn:E; [|by eexists _, _].
    assert (m ∈ controls c) as Hx by (unfold controls; rewrite list_elem_of_In, filter_In, <- list_elem_of_In; done).
    rewrite E in Hx. by apply elem_of_nil in Hx. }
  clearbody control. clear -Hfirst.
  destruct (cc_HA cc), control; try destruct (Hfirst eq_refl) as (m & l & ->);
    destruct (nc_Role n =? "storage")%string, (contains _ (nc_Role n));
    cbn -[line_of Join]; rewrite ?line_str; split_and!; try done; by exists m, l.
Qed.

Lemma nodes_agree_on_control_witness :
  Forall no_nl (cluster_texts demo_pair)
  ∧ key_lines (RenderCubesys (demo_nc "cc1" "10.1.2.3") demo_pair.(cd_ClusterConfig)
            (GetControlInfo demo_pair.(cd_NodeData))) "role" = ["role: control-converged"].
Proof.
  assert (Forall no_nl (cluster_texts demo_pair)) as H.
  { repeat (apply Forall_cons; split; [reflexivity|]). apply Forall_nil. exact I. }
  split; [exact H|].
  exact (proj1 (nodes_agree_on_control demo_pair (demo_nc "cc1" "10.1.2.3") ltac:(vm_compute; reflexivity) H
    ltac:(by left))).
Defined.

(** Nothing keeps a newline out of a name: this valid pair's virtual hostname sets the
    role of every node a second time. *)
Example newline_injects :
  let cc := demo_pair.(cd_ClusterConfig) in
  let evil := "vip" +:+ nl +:+ "role: compute" in
  let cc' := mkClusterConfig cc.(cc_DNS) cc.(cc_Timezone) cc.(cc_RoleSettings) true
               (mkHASettings "10.1.2.9" evil) cc.(cc_SetReady) in
  Validate (mkClusterDetail demo_pair.(cd_ClusterInfo) cc' demo_pair.(cd_NodeData)) = Ok tt
  ∧ key_lines (RenderCubesys (demo_nc "cc1" "10.1.2.3") cc' (GetControlInfo demo_pair.(cd_NodeData))) "role"
    = ["role: control-converged"; "role: compute"].
Proof. split; vm_compute; reflexivity. Qed.

(** ** The archives *)

(** A node's snapshot is built exactly for a node that passes the network
    check, and then holds the embedded tree, file by file and in name order:
    the comment and the three policies as rendered for this node, the two
    state markers as they are embedded, nothing else. *)
Theorem snapshot_spec bytes n d ctl stamp :
  BuildNodeSnapshot templateFS bytes n d ctl stamp =
  match ValidateNodeNetwork n with
  | Err e => Err e
  | Ok _ => Ok
      [("Comment", "Generated for " +:+ d.(cd_ClusterInfo).(ci_Name) +:+ " on " +:+ stamp +:+ nl);
       ("etc/appliance/state/configured", bytes "template/etc/appliance/state/configured");
       ("etc/appliance/state/sla_accepted", bytes "template/etc/appliance/state/sla_accepted");
       ("etc/policies/cubesys/cubesys1_0.yml", RenderCubesys n d.(cd_ClusterConfig) ctl);
       ("etc/policies/network/network1_0.yml", RenderNetwork n d.(cd_ClusterConfig));
       ("etc/policies/time/time1_0.yml", RenderTime d.(cd_ClusterConfig))]
  end.
Proof.
  unfold BuildNodeSnapshot. destruct (ValidateNodeNetwork n); [|done]. cbn [result_bind]. f_equal.
Qed.

(** The cluster's archive: the definition first, then one snapshot per node, in
    name order, each under its host's name. *)
Theorem BuildClusterZip_spec shortID detail snaps :
  ∃ hosts, StronglySorted string_le hosts ∧ NoDup hosts ∧ (∀ h, h ∈ hosts ↔ is_Some (snaps !! h))
  ∧ BuildClusterZip shortID detail snaps =
    (shortID +:+ "/clusterDetail.json", detail)
    :: ((fun h => (shortID +:+ "/" +:+ h +:+ ".snapshot", default "" (snaps !! h))) <$> hosts).
Proof.
  exists (SortStrings (fst <$> map_to_list snaps)). split_and!; [apply SortStrings_sorted| | |done].
  - rewrite SortStrings_perm. apply NoDup_fst_map_to_list.
  - intros h. rewrite SortStrings_perm, list_elem_of_fmap. split.
    + intros ([h' v] & -> & Hin%elem_of_map_to_list). by exists v.
    + intros [v Hv]. exists (h, v). split; [done|]. by apply elem_of_map_to_list.
Qed.
