(* ===== verification/Storage.v ===== *)
(** * The cluster store (internal/storage/store.go)

    A directory per cluster with its definition and one snapshot per node, the
    cluster's archive beside it, and the flat mirror of the snapshots the nodes
    pull from.  A snapshot's file name is made of its host's name, which may hold
    separators: [file_at] is where the joined path ends up.  The JSON text of a
    definition and the bytes of a zip are what [Marshal] and [zip] give; how far the
    disk gets is an input. *)
From S2P Require Import Prelude GoStrings ClusterModel Generator.
From Stdlib Require Import Sorted Ascii.

Open Scope string_scope.
Open Scope list_scope.
Open Scope Z_scope.

Record clusterdir : Type := mkClusterdir {
  cdir_detail : option string;            (* clusterDetail.json *)
  cdir_snapshots : gmap string string     (* the other files, by name *)
}.

(** Paths are relative to [DataDir], those of the mirror to [ExportDir]. *)
Record filestore : Type := mkFilestore {
  fs_dirs : gmap string clusterdir;
  fs_zips : gmap string archive;
  fs_loose : gmap (string * string) string;  (* snapshots in no cluster's directory: where, and the name *)
  fs_exports : gmap string string;
  fs_has_export : bool                    (* ExportDir is set *)
}.

Definition set_fs_dirs (v : gmap string clusterdir) (s : filestore) : filestore :=
  mkFilestore v s.(fs_zips) s.(fs_loose) s.(fs_exports) s.(fs_has_export).
Definition set_fs_zips (v : gmap string archive) (s : filestore) : filestore :=
  mkFilestore s.(fs_dirs) v s.(fs_loose) s.(fs_exports) s.(fs_has_export).
Definition set_fs_loose (v : gmap (string * string) string) (s : filestore) : filestore :=
  mkFilestore s.(fs_dirs) s.(fs_zips) v s.(fs_exports) s.(fs_has_export).
Definition set_fs_exports (v : gmap string string) (s : filestore) : filestore :=
  mkFilestore s.(fs_dirs) s.(fs_zips) s.(fs_loose) v s.(fs_has_export).

Record Digest : Type := mkDigest { dg_ID : string; dg_Name : string; dg_Nodes : list string }.

Definition ErrStoreNotFound : string := "not found".

(** How far the disk gets in a [Save]: the files staged before one fails, a
    truncated archive, what a failed removal leaves of the directory, the mirror's
    files written before one fails. *)
Inductive fate : Type :=
| AllWritten
| StageFails (files : nat)
| ZipFails (torn : archive)
| RemoveFails (left_over : clusterdir)
| RenameFails
| ExportFails (files : nat).

(** What a [Save] meets: the time, the four random bytes, the orders in which Go
    ranges over the snapshots when it stages and when it mirrors them, which
    directories above [DataDir] take a file, and how far the disk gets. *)
Record saving : Type := mkSaving {
  sv_stamp : string;
  sv_suffix : string;
  sv_staged : list string;
  sv_mirrored : list string;
  sv_above : string → bool;
  sv_fate : fate
}.

(** [filepath.Join(dir, host+".snapshot")]: its directory and its name. *)
Definition file_at (dir host : string) : string * string :=
  let p := PathJoin [dir; host +:+ ".snapshot"] in
  match LastIndexByte p "/"%char with Some i => (stake i p, sdrop (S i) p) | None => (".", p) end.

(** The same below [ExportDir]. *)
Definition mirror_file (host : string) : string := PathJoin ["."; host +:+ ".snapshot"].

(** [os.WriteFile] of a snapshot: into a cluster's directory, [DataDir] itself, or
    one above it; [None] where there is no such directory. *)
Definition put_at (above : string → bool) (at_ : string * string) (b : string) (s : filestore) : option filestore :=
  match s.(fs_dirs) !! at_.1 with
  | Some cd => Some (set_fs_dirs (<[at_.1 := mkClusterdir cd.(cdir_detail) (<[at_.2 := b]> cd.(cdir_snapshots))]> s.(fs_dirs)) s)
  | None => if (at_.1 =? ".")%string || above at_.1 then Some (set_fs_loose (<[at_ := b]> s.(fs_loose)) s) else None
  end.

Definition get_at (at_ : string * string) (s : filestore) : option string :=
  match s.(fs_dirs) !! at_.1 with
  | Some cd => cd.(cdir_snapshots) !! at_.2
  | None => s.(fs_loose) !! at_
  end.

(** The loop that fills the temporary directory, and what a name takes out of it. *)
Fixpoint stage_files (above : string → bool) (tmp : string) (snaps : gmap string string) (hosts : list string)
    (staged : gmap string string) (s : filestore) : filestore * gmap string string * bool :=
  match hosts with
  | [] => (s, staged, true)
  | h :: hosts =>
      match snaps !! h with
      | None => stage_files above tmp snaps hosts staged s
      | Some b =>
          let at_ := file_at tmp h in
          if (at_.1 =? tmp)%string then stage_files above tmp snaps hosts (<[at_.2 := b]> staged) s
          else match put_at above at_ b s with
               | Some s => stage_files above tmp snaps hosts staged s
               | None => (s, staged, false)
               end
      end
  end.

Section Storage.
Context (Marshal : ClusterDetail → string) (Unmarshal : string → option ClusterDetail).
Context (zip : archive → string) (bytes : string → string).

Definition detailAt (s : filestore) (shortID : string) : result ClusterDetail :=
  match s.(fs_dirs) !! shortID with
  | Some (mkClusterdir (Some raw) _) =>
      match Unmarshal raw with Some d => Ok d | None => Err "invalid clusterDetail.json" end
  | _ => Err ErrStoreNotFound
  end.

Definition Cluster_Detail (shortID : string) (s : filestore) : result ClusterDetail := detailAt s shortID.

(** The snapshots of all nodes, or the first error. *)
Fixpoint build_snapshots (d : ClusterDetail) (ctl : ControlInfo) (stamp : string) (nodes : list NodeConfig)
    (acc : gmap string string) : result (gmap string string) :=
  match nodes with
  | [] => Ok acc
  | n :: nodes =>
      match BuildNodeSnapshot templateFS bytes n d ctl stamp with
      | Err e => Err ("node " +:+ n.(nc_Hostname) +:+ ": " +:+ e)
      | Ok b => build_snapshots d ctl stamp nodes (<[n.(nc_Hostname) := zip b]> acc)
      end
  end.

Definition hosts_of (d : ClusterDetail) : list string := nc_Hostname <$> d.(cd_NodeData).

Definition drop_exports (hosts : list string) (m : gmap string string) : gmap string string :=
  foldl (fun m h => delete (mirror_file h) m) m hosts.

Definition put_exports (hosts : list string) (snaps m : gmap string string) : gmap string string :=
  foldl (fun m h => match snaps !! h with Some b => <[mirror_file h := b]> m | None => m end) m hosts.

(** The mirror after the swap: hosts of the previous version that are gone are
    dropped, the new snapshots are written. *)
Definition export_after (stale : list string) (snaps : gmap string string) (written : list string)
    (m : gmap string string) : gmap string string :=
  put_exports written snaps (drop_exports (List.filter (fun h => negb (bool_decide (is_Some (snaps !! h)))) stale) m).

Definition Cluster_Save (d : ClusterDetail) (v : saving) (s : filestore) : filestore * result unit :=
  match Validate d with
  | Err e => (s, Err e)
  | Ok _ =>
      let shortID := ShortID d in
      let ctl := GetControlInfo d.(cd_NodeData) in
      let detailJSON := Marshal d in
      match build_snapshots d ctl v.(sv_stamp) d.(cd_NodeData) ∅ with
      | Err e => (s, Err e)
      | Ok snapshots =>
          let clusterZip := BuildClusterZip shortID detailJSON snapshots in
          let stale := match detailAt s shortID with Ok prev => hosts_of prev | Err _ => [] end in
          let tmp := ".tmp-" +:+ shortID +:+ "-" +:+ v.(sv_suffix) in
          let hosts := match v.(sv_fate) with StageFails n => take n v.(sv_staged) | _ => v.(sv_staged) end in
          let '(s, staged, ok) := stage_files v.(sv_above) tmp snapshots hosts ∅ s in
          let s1 := set_fs_zips (<[shortID := clusterZip]> s.(fs_zips)) s in
          let s2 := set_fs_dirs (<[shortID := mkClusterdir (Some detailJSON) staged]> s1.(fs_dirs)) s1 in
          let mirror written :=
            if s2.(fs_has_export) then set_fs_exports (export_after stale snapshots written s2.(fs_exports)) s2 else s2 in
          if negb ok then (s, Err "write failed") else
          match v.(sv_fate) with
          | StageFails _ => (s, Err "write failed")
          | ZipFails torn => (set_fs_zips (<[shortID := torn]> s.(fs_zips)) s, Err "write failed")
          | RemoveFails left_over => (set_fs_dirs (<[shortID := left_over]> s1.(fs_dirs)) s1, Err "remove failed")
          | RenameFails => (set_fs_dirs (delete shortID s1.(fs_dirs)) s1, Err "rename failed")
          | ExportFails n => (mirror (take n v.(sv_mirrored)), if s.(fs_has_export) then Err "write failed" else Ok tt)
          | AllWritten => (mirror v.(sv_mirrored), Ok tt)
          end
      end
  end.

Definition digest_le (a b : Digest) : Prop := string_le a.(dg_Name) b.(dg_Name).
#[export] Instance digest_le_dec : RelDecision digest_le.
Proof. intros a b. unfold digest_le. apply _. Defined.

Definition digest_of (s : filestore) (id : string) : option Digest :=
  if HasPrefix id "." then None
  else match detailAt s id with
       | Ok d => Some (mkDigest id d.(cd_ClusterInfo).(ci_Name) (SortStrings (hosts_of d)))
       | Err _ => None
       end.

Definition Cluster_List (s : filestore) : list Digest :=
  merge_sort digest_le (omap (digest_of s) (SortStrings (map_to_list s.(fs_dirs)).*1)).

(** Removals are best effort; here they work. *)
Definition Cluster_Delete (shortID : string) (s : filestore) : filestore * result unit :=
  match detailAt s shortID with
  | Err e => (s, Err e)
  | Ok d =>
      let s := if s.(fs_has_export) then set_fs_exports (drop_exports (hosts_of d) s.(fs_exports)) s else s in
      let s := set_fs_zips (delete shortID s.(fs_zips)) s in
      (set_fs_dirs (delete shortID s.(fs_dirs)) s, Ok tt)
  end.

(** The file, and the name it is downloaded under. *)
Definition ClusterZipPath (shortID : string) (s : filestore) : result (archive * string) :=
  match detailAt s shortID with
  | Err e => Err e
  | Ok d => match s.(fs_zips) !! shortID with
            | None => Err ErrStoreNotFound
            | Some z => Ok (z, d.(cd_ClusterInfo).(ci_Name) +:+ ".zip")
            end
  end.

Definition SnapshotPath (shortID hostname : string) (s : filestore) : result string :=
  match get_at (file_at shortID hostname) s with
  | Some b => Ok b
  | None => Err ErrStoreNotFound
  end.

End Storage.

(** ** Where a plain host's files are *)

(** A name without a separator. *)
Definition plain (h : string) : Prop := free_of "/"%char h.
Definition dirname (d : string) : Prop := plain d ∧ d ≠ "" ∧ d ≠ "." ∧ d ≠ "..".

Lemma snapshot_name h : (h +:+ ".snapshot" =? "")%string = false ∧ (h +:+ ".snapshot" =? ".")%string = false
  ∧ (h +:+ ".snapshot" =? "..")%string = false.
Proof.
  assert (∀ x, (String.length x < 9)%nat → (h +:+ ".snapshot" =? x)%string = false) as H.
  { intros x Hx. apply String.eqb_neq. intros He. apply (f_equal String.length) in He.
    rewrite length_app_str in He. cbn in He. lia. }
  split_and!; apply H; cbn; lia.
Qed.

Lemma PathJoin_plain d h :
  plain d → d ≠ "" → d ≠ ".." → plain h →
  PathJoin [d; h +:+ ".snapshot"]
  = if (d =? ".")%string then h +:+ ".snapshot" else d +:+ String "/" (h +:+ ".snapshot").
Proof.
  intros Hd H0 H2 Hh. unfold PathJoin. cbn [List.filter]. destruct (snapshot_name h) as (E0 & E1 & E2).
  unfold is_empty. rewrite (proj2 (String.eqb_neq d "")), E0 by done. cbn [negb Join].
  unfold Clean. assert (HasPrefix (d +:+ "/" +:+ h +:+ ".snapshot") "/" = false) as ->.
  { destruct d as [|c d]; [done|]. apply free_of_cons in Hd as [Hc _]. unfold HasPrefix. autorewrite with cube_str. cbn. case_match; [|done]. congruence. }
  change ("/" +:+ h +:+ ".snapshot") with (String "/" (h +:+ ".snapshot")).
  rewrite Split_app, Split_free by (done || by apply free_of_app). cbn [clean_elems].
  unfold is_empty. rewrite (proj2 (String.eqb_neq d "")), (proj2 (String.eqb_neq d "..")), E0, E1, E2 by done.
  cbn [orb]. destruct (String.eqb_spec d "."); cbn; [by rewrite E0|].
  destruct d; done.
Qed.

Lemma file_at_plain d h : dirname d → plain h → file_at d h = (d, h +:+ ".snapshot").
Proof.
  intros (Hd & H0 & H1 & H2) Hh. unfold file_at. rewrite PathJoin_plain by done.
  rewrite (proj2 (String.eqb_neq d ".")) by done.
  rewrite LastIndexByte_app by by apply free_of_app. by rewrite stake_app, sdrop_S_app.
Qed.

Lemma mirror_plain h : plain h → mirror_file h = h +:+ ".snapshot".
Proof. intros Hh. unfold mirror_file. by rewrite PathJoin_plain. Qed.

Lemma snapshot_inj h h' : h +:+ ".snapshot" = h' +:+ ".snapshot" → h = h'.
Proof.
  intros He. pose proof (f_equal String.length He) as Hl. rewrite !length_app_str in Hl.
  rewrite <- (stake_app h ".snapshot"), <- (stake_app h' ".snapshot"), He. f_equal. lia.
Qed.

(** Plain names stay in the temporary directory. *)
Lemma stage_plain above tmp snaps hosts staged s :
  dirname tmp → Forall plain hosts →
  let '(s', staged', ok) := stage_files above tmp snaps hosts staged s in
  s' = s ∧ ok = true
  ∧ (∀ h, plain h → staged' !! (h +:+ ".snapshot")
       = match snaps !! h with Some b => if decide (h ∈ hosts) then Some b else staged !! (h +:+ ".snapshot")
         | None => staged !! (h +:+ ".snapshot") end).
Proof.
  intros Ht. revert staged. induction hosts as [|x hosts IH]; intros staged Hp; cbn [stage_files].
  { split_and!; [done..|]. intros h _. destruct (snaps !! h); [|done]. by destruct (decide _) as [?%elem_of_nil|]. }
  apply Forall_cons in Hp as [Hx Hp]. destruct (snaps !! x) as [b|] eqn:Ex.
  - rewrite file_at_plain by done. cbn [fst snd]. rewrite String.eqb_refl. specialize (IH (<[x +:+ ".snapshot" := b]> staged) Hp).
    destruct (stage_files _ _ _ _ _ _) as [[s' st'] ok]. destruct IH as (-> & -> & IH). split_and!; [done..|].
    intros h Hh. rewrite IH by done. destruct (decide (h = x)) as [->|Hne].
    + rewrite Ex, lookup_insert_eq. destruct (decide (x ∈ hosts)), (decide (x ∈ x :: hosts)) as [|Hn]; try done; set_solver.
    + rewrite lookup_insert_ne by (intros He%snapshot_inj; congruence). destruct (snaps !! h); [|done].
      destruct (decide (h ∈ hosts)), (decide (h ∈ x :: hosts)); try done; set_solver.
  - specialize (IH staged Hp). destruct (stage_files _ _ _ _ _ _) as [[s' st'] ok]. destruct IH as (-> & -> & IH).
    split_and!; [done..|]. intros h Hh. rewrite IH by done. destruct (snaps !! h) eqn:Eh; [|done].
    assert (h ≠ x) by congruence. destruct (decide (h ∈ hosts)), (decide (h ∈ x :: hosts)); try done; set_solver.
Qed.

(** ** What saving does *)

Section SaveFacts.
Context (Marshal : ClusterDetail → string) (Unmarshal : string → option ClusterDetail).
Context (zip : archive → string) (bytes : string → string).

(** A node's snapshot as it is stored. *)
Definition node_snapshot (d : ClusterDetail) (stamp : string) (n : NodeConfig) : result string :=
  let? b := BuildNodeSnapshot templateFS bytes n d (GetControlInfo d.(cd_NodeData)) stamp in Ok (zip b).

Lemma build_snapshots_lookup d stamp nodes acc m :
  build_snapshots zip bytes d (GetControlInfo d.(cd_NodeData)) stamp nodes acc = Ok m → NoDup (nc_Hostname <$> nodes) →
  (∀ n, n ∈ nodes → ∃ b, node_snapshot d stamp n = Ok b ∧ m !! n.(nc_Hostname) = Some b)
  ∧ (∀ h, h ∉ nc_Hostname <$> nodes → m !! h = acc !! h).
Proof.
  revert acc. induction nodes as [|n nodes IH]; intros acc; cbn [build_snapshots].
  - intros [= <-] _. split; [by intros n ?%elem_of_nil|done].
  - destruct (BuildNodeSnapshot _ _ n _ _ _) as [b|e] eqn:Eb; [|done]. intros Hm [Hn Hd]%NoDup_cons.
    destruct (IH _ Hm Hd) as [H1 H2]. split.
    + intros n' [->|Hin]%elem_of_cons; [|by apply H1]. exists (zip b). unfold node_snapshot. rewrite Eb. split; [done|].
      rewrite H2 by done. apply lookup_insert_eq.
    + intros h Hh. rewrite fmap_cons in Hh. apply not_elem_of_cons in Hh as [Hh Hh']. rewrite H2 by done.
      by apply lookup_insert_ne.
Qed.

Lemma build_snapshots_ok d ctl stamp nodes acc :
  is_ok (build_snapshots zip bytes d ctl stamp nodes acc) = is_ok (first_err ValidateNodeNetwork nodes).
Proof.
  revert acc. induction nodes as [|n nodes IH]; intros acc; [done|]. cbn. unfold BuildNodeSnapshot.
  destruct (ValidateNodeNetwork n) as [[]|]; cbn; [apply IH|done].
Qed.

Lemma drop_exports_lookup hosts m h :
  Forall plain hosts → plain h →
  drop_exports hosts m !! (h +:+ ".snapshot") = if decide (h ∈ hosts) then None else m !! (h +:+ ".snapshot").
Proof.
  intros Hp Hh. revert m. induction Hp as [|x hosts Hx Hp IH]; intros m; [by destruct (decide _) as [?%elem_of_nil|]|].
  change (drop_exports (x :: hosts) m) with (drop_exports hosts (delete (mirror_file x) m)). rewrite IH, mirror_plain by done.
  destruct (decide (h ∈ hosts)), (decide (h ∈ x :: hosts)) as [Hin|]; try done; [set_solver| |].
  - apply elem_of_cons in Hin as [->|]; [apply lookup_delete_eq|done].
  - apply lookup_delete_ne. intros He%snapshot_inj. set_solver.
Qed.

Lemma put_exports_lookup hosts (snaps m : gmap string string) h :
  Forall plain hosts → plain h →
  put_exports hosts snaps m !! (h +:+ ".snapshot")
  = match snaps !! h with Some b => if decide (h ∈ hosts) then Some b else m !! (h +:+ ".snapshot")
    | None => m !! (h +:+ ".snapshot") end.
Proof.
  intros Hp Hh. revert m. induction Hp as [|x hosts Hx Hp IH]; intros m.
  { cbn. destruct (snaps !! h); [|done]. by destruct (decide _) as [?%elem_of_nil|]. }
  change (put_exports (x :: hosts) snaps m)
    with (put_exports hosts snaps (match snaps !! x with Some b => <[mirror_file x := b]> m | None => m end)).
  rewrite IH, mirror_plain by done. destruct (snaps !! h) as [b|] eqn:Eh.
  - destruct (decide (h ∈ hosts)), (decide (h ∈ x :: hosts)) as [Hin|]; try done; [set_solver| |].
    + apply elem_of_cons in Hin as [->|]; [|done]. rewrite Eh. apply lookup_insert_eq.
    + destruct (snaps !! x); [|done]. apply lookup_insert_ne. intros He%snapshot_inj. set_solver.
  - destruct (snaps !! x) eqn:Ex; [|done]. apply lookup_insert_ne. intros He%snapshot_inj. congruence.
Qed.

Lemma export_after_lookup stale snaps written m h :
  (∀ x, is_Some (snaps !! x) → x ∈ written) → Forall plain stale → Forall plain written → plain h →
  export_after stale snaps written m !! (h +:+ ".snapshot")
  = match snaps !! h with Some b => Some b | None => if decide (h ∈ stale) then None else m !! (h +:+ ".snapshot") end.
Proof.
  intros Hall Hs Hw Hh. unfold export_after.
  assert (Forall plain (List.filter (fun h => negb (bool_decide (is_Some (snaps !! h)))) stale)).
  { rewrite Forall_forall in Hs |- *. intros x. rewrite list_elem_of_In, filter_In, <- list_elem_of_In. intros [Hx _]. auto. }
  rewrite put_exports_lookup, drop_exports_lookup by done.
  destruct (snaps !! h) as [b|] eqn:Eh.
  - destruct (decide _) as [|Hn]; [done|]. destruct Hn. apply Hall. by exists b.
  - destruct (decide (h ∈ stale)), (decide (h ∈ List.filter _ stale)) as [Hin|Hn]; try done.
    + destruct Hn. rewrite list_elem_of_In, filter_In, <- list_elem_of_In. split; [done|]. rewrite Eh. done.
    + rewrite list_elem_of_In, filter_In, <- list_elem_of_In in Hin. naive_solver.
Qed.

(** The hosts of the version a save replaces. *)
Definition previous_hosts (s : filestore) (shortID : string) : list string :=
  match detailAt Unmarshal s shortID with Ok prev => hosts_of prev | Err _ => [] end.

Definition tmp_dir (d : ClusterDetail) (v : saving) : string := ".tmp-" +:+ ShortID d +:+ "-" +:+ v.(sv_suffix).

Lemma tmp_dirname d v : plain (ShortID d) → plain v.(sv_suffix) → dirname (tmp_dir d v).
Proof.
  intros Hi Hs. unfold tmp_dir. split; [apply free_of_app; split; [done|]; apply free_of_app; split; [done|]; by apply free_of_app|].
  assert (∀ x, (String.length x < 6)%nat → ".tmp-" +:+ ShortID d +:+ "-" +:+ sv_suffix v ≠ x) as H.
  { intros x Hx He. apply (f_equal String.length) in He. rewrite !length_app_str in He. cbn in He. lia. }
  split_and!; apply H; cbn; lia.
Qed.

(** Go ranges over every snapshot, whatever the order. *)
Definition ranged (d : ClusterDetail) (v : saving) : Prop :=
  v.(sv_staged) ≡ₚ hosts_of d ∧ v.(sv_mirrored) ≡ₚ hosts_of d.

(** What [Save] does, on success and on refusal. *)
Lemma Save_facts d v s s' e :
  Unmarshal (Marshal d) = Some d →
  Cluster_Save Marshal Unmarshal zip bytes d v s = (s', e) →
  match Validate d, first_err ValidateNodeNetwork d.(cd_NodeData) with
  | Ok _, Ok _ =>
      v.(sv_fate) = AllWritten → ranged d v →
      dirname (ShortID d) → plain v.(sv_suffix) → Forall plain (hosts_of d) →
      e = Ok tt ∧ Cluster_Detail Unmarshal (ShortID d) s' = Ok d
      ∧ (∀ n, n ∈ d.(cd_NodeData) → SnapshotPath (ShortID d) n.(nc_Hostname) s' = node_snapshot d v.(sv_stamp) n)
      ∧ (∀ h, plain h → h ∉ hosts_of d → SnapshotPath (ShortID d) h s' = Err ErrStoreNotFound)
      ∧ (∀ id, id ≠ ShortID d → s'.(fs_dirs) !! id = s.(fs_dirs) !! id ∧ s'.(fs_zips) !! id = s.(fs_zips) !! id)
      ∧ (s.(fs_has_export) = true → Forall plain (previous_hosts s (ShortID d)) → ∀ h, plain h →
           (∀ n, n ∈ d.(cd_NodeData) → n.(nc_Hostname) = h →
              Ok <$> s'.(fs_exports) !! (h +:+ ".snapshot") = Some (node_snapshot d v.(sv_stamp) n))
           ∧ (h ∉ hosts_of d →
              s'.(fs_exports) !! (h +:+ ".snapshot")
              = if decide (h ∈ previous_hosts s (ShortID d)) then None else s.(fs_exports) !! (h +:+ ".snapshot")))
  | _, _ => s' = s ∧ is_ok e = false
  end.
Proof.
  intros Hm Hs. unfold Cluster_Save in Hs. destruct (Validate d) as [[]|] eqn:Ev; [|by injection Hs as <- <-].
  pose proof (build_snapshots_ok d (GetControlInfo (cd_NodeData d)) v.(sv_stamp) (cd_NodeData d) ∅) as Hok. cbv zeta in Hs.
  destruct (build_snapshots _ _ _ _ _ _ _) as [snaps|] eqn:Eb; cbn in Hok;
    destruct (first_err ValidateNodeNetwork (cd_NodeData d)) as [[]|]; try done; [|by injection Hs as <- <-].
  intros Hf [Hst Hmi] Hid Hsuf Hpl. pose proof (tmp_dirname d v (proj1 Hid) Hsuf) as Htmp. rewrite Hf in Hs. fold (tmp_dir d v) in Hs.
  assert (Forall plain (sv_staged v)) as Hps by by rewrite Hst. assert (Forall plain (sv_mirrored v)) as Hpm by by rewrite Hmi.
  pose proof (stage_plain (sv_above v) (tmp_dir d v) snaps (sv_staged v) ∅ s Htmp Hps) as Hstage.
  destruct (stage_files _ _ _ _ _ _) as [[s0 staged] ok]. destruct Hstage as (-> & -> & Hstg). cbn [negb] in Hs.
  injection Hs as <- <-. destruct (Validate_nodes d Ev) as (_ & Hd & _).
  destruct (build_snapshots_lookup _ _ _ _ _ Eb Hd) as [Hin Hout].
  fold (previous_hosts s (ShortID d)).
  assert (∀ h, h ∉ hosts_of d → snaps !! h = None) as Hnone by (intros h Hh; by rewrite Hout, lookup_empty).
  assert (∀ h, plain h → staged !! (h +:+ ".snapshot") = snaps !! h) as Hlook.
  { intros h Hh. rewrite Hstg by done. destruct (snaps !! h) eqn:Eh; [|by rewrite lookup_empty].
    rewrite decide_True; [done|]. rewrite Hst. apply dec_stable. intros Hn. by rewrite (Hnone h Hn) in Eh. }
  set (s2 := set_fs_dirs _ _).
  assert (∀ m, (if fs_has_export s2 then set_fs_exports m s2 else s2).(fs_dirs) = s2.(fs_dirs)
    ∧ (if fs_has_export s2 then set_fs_exports m s2 else s2).(fs_zips) = s2.(fs_zips)) as Hfr
    by (intros m; by destruct (fs_has_export s2)).
  assert (∀ m h, plain h → SnapshotPath (ShortID d) h (if fs_has_export s2 then set_fs_exports m s2 else s2)
    = match snaps !! h with Some b => Ok b | None => Err ErrStoreNotFound end) as Hsp.
  { intros m h Hh. unfold SnapshotPath, get_at. rewrite file_at_plain by done. cbn [fst snd].
    rewrite (proj1 (Hfr _)). cbn. by rewrite lookup_insert_eq, <- Hlook. }
  assert (∀ n, n ∈ cd_NodeData d → plain n.(nc_Hostname)) as Hpn.
  { intros n Hn. eapply Forall_forall in Hpl; [exact Hpl|]. by apply list_elem_of_fmap_2. }
  split_and!; [done|..].
  - unfold Cluster_Detail, detailAt. rewrite (proj1 (Hfr _)). cbn. by rewrite lookup_insert_eq, Hm.
  - intros n Hn. rewrite Hsp by auto. destruct (Hin n Hn) as (b & Hb & ->). by rewrite Hb.
  - intros h Hp Hh. by rewrite Hsp, Hnone.
  - intros id Hne. rewrite (proj1 (Hfr _)), (proj2 (Hfr _)). cbn. by rewrite !lookup_insert_ne by done.
  - intros He Hpv h Hh. change (fs_has_export s2) with (fs_has_export s). rewrite He. cbn [set_fs_exports fs_exports].
    rewrite export_after_lookup; [..|done]; [| |done|done].
    2: { intros x [b Hb]. rewrite Hmi. apply dec_stable. intros Hn. by rewrite (Hnone x Hn) in Hb. }
    split.
    + intros n Hn <-. destruct (Hin n Hn) as (b & Hb & ->). by rewrite Hb.
    + intros Hn. by rewrite Hnone.
Qed.

(** Saving a cluster is all or nothing on its contents: a definition that fails
    its validation, or one of whose nodes fails the network check, leaves the
    store untouched wherever the disk would have failed; a good one whose hosts'
    names hold no separator, once written, is what the store gives back, with
    exactly its nodes' snapshots, each as built for that node, and no other
    cluster's files change; the mirror the nodes pull from then has this version's
    snapshots and no longer those of hosts this cluster dropped. *)
Theorem Save_spec d v s s' e :
  Unmarshal (Marshal d) = Some d →
  Cluster_Save Marshal Unmarshal zip bytes d v s = (s', e) →
  match Validate d, first_err ValidateNodeNetwork d.(cd_NodeData) with
  | Ok _, Ok _ =>
      v.(sv_fate) = AllWritten → ranged d v →
      dirname (ShortID d) → plain v.(sv_suffix) → Forall plain (hosts_of d) →
      e = Ok tt ∧ Cluster_Detail Unmarshal (ShortID d) s' = Ok d
      ∧ (∀ n, n ∈ d.(cd_NodeData) → SnapshotPath (ShortID d) n.(nc_Hostname) s' = node_snapshot d v.(sv_stamp) n)
      ∧ (∀ h, plain h → h ∉ hosts_of d → SnapshotPath (ShortID d) h s' = Err ErrStoreNotFound)
      ∧ (∀ id, id ≠ ShortID d → s'.(fs_dirs) !! id = s.(fs_dirs) !! id ∧ s'.(fs_zips) !! id = s.(fs_zips) !! id)
      ∧ (s.(fs_has_export) = true → Forall plain (previous_hosts s (ShortID d)) → ∀ h, plain h →
           (∀ n, n ∈ d.(cd_NodeData) → n.(nc_Hostname) = h →
              Ok <$> s'.(fs_exports) !! (h +:+ ".snapshot") = Some (node_snapshot d v.(sv_stamp) n))
           ∧ (h ∉ hosts_of d →
              s'.(fs_exports) !! (h +:+ ".snapshot")
              = if decide (h ∈ previous_hosts s (ShortID d)) then None else s.(fs_exports) !! (h +:+ ".snapshot")))
  | _, _ => s' = s ∧ is_ok e = false
  end.
Proof. apply Save_facts. Qed.

(** Deleting a cluster takes its files, its archive and its hosts' mirrored
    snapshots, and leaves the other clusters' files. *)
Theorem Delete_spec id s s' d :
  detailAt Unmarshal s id = Ok d → Cluster_Delete Unmarshal id s = (s', Ok tt) →
  Cluster_Detail Unmarshal id s' = Err ErrStoreNotFound ∧ s'.(fs_zips) !! id = None
  ∧ (∀ id', id' ≠ id → s'.(fs_dirs) !! id' = s.(fs_dirs) !! id')
  ∧ (s.(fs_has_export) = true → Forall plain (hosts_of d) → ∀ h, plain h →
       s'.(fs_exports) !! (h +:+ ".snapshot") = if decide (h ∈ hosts_of d) then None else s.(fs_exports) !! (h +:+ ".snapshot")).
Proof.
  intros Hd. unfold Cluster_Delete. rewrite Hd. intros [= <-]. unfold Cluster_Detail, detailAt. cbn.
  rewrite !lookup_delete_eq. split_and!; [done|done| |].
  - intros id' Hne. rewrite lookup_delete_ne by done. by destruct (fs_has_export s).
  - intros He Hp h Hh. rewrite He. cbn. by apply drop_exports_lookup.
Qed.

End SaveFacts.

(** ** Concrete saves *)

Definition demo_marshal (d : ClusterDetail) : string := d.(cd_ClusterInfo).(ci_ID).
Definition demo_unmarshal (raw : string) : option ClusterDetail := if is_empty raw then None else Some demo_pair.
Definition no_clusters : filestore := mkFilestore ∅ ∅ ∅ ∅ true.

(** A save of the hosts in [l], in that order. *)
Definition saves (l : list string) (f : fate) : saving := mkSaving "now" "00000000" l l (fun _ => false) f.
Definition save_of (d : ClusterDetail) (f : fate) : filestore → filestore * result unit :=
  Cluster_Save demo_marshal (fun raw => if is_empty raw then None else Some d) (fun a => Join a.*2 "|") (fun p => p) d
    (saves (hosts_of d) f).
Definition demo_save : fate → filestore → filestore * result unit := save_of demo_pair.

Lemma Save_spec_witness :
  Cluster_Detail demo_unmarshal (ShortID demo_pair) (demo_save AllWritten no_clusters).1 = Ok demo_pair.
Proof.
  pose proof (Save_spec demo_marshal demo_unmarshal (fun a => Join a.*2 "|") (fun p => p) demo_pair
    (saves (hosts_of demo_pair) AllWritten)
    no_clusters (demo_save AllWritten no_clusters).1 (demo_save AllWritten no_clusters).2) as H.
  specialize (H ltac:(vm_compute; reflexivity) (surjective_pairing _)).
  assert (Validate demo_pair = Ok tt) as Hv by (vm_compute; reflexivity).
  assert (first_err ValidateNodeNetwork demo_pair.(cd_NodeData) = Ok tt) as Hn by (vm_compute; reflexivity).
  rewrite Hv, Hn in H. destruct H as (_ & Hd & _); [reflexivity|done|split_and!; by vm_compute|by vm_compute| |done].
  repeat (apply Forall_cons; split; [by vm_compute|]). by apply Forall_nil.
Defined.

(** The directory is removed before its replacement is renamed into place: when
    the rename fails, the saved cluster is gone. *)
Example rename_loses :
  let s := (demo_save AllWritten no_clusters).1 in
  is_ok (Cluster_Detail demo_unmarshal (ShortID demo_pair) s) = true
  ∧ Cluster_Detail demo_unmarshal (ShortID demo_pair) (demo_save RenameFails s).1 = Err ErrStoreNotFound.
Proof. split; vm_compute; reflexivity. Qed.

(** The mirror is flat: with two clusters that have a host of the same name,
    deleting one takes the file the other's host pulls. *)
Example shared_mirror :
  let dir := mkClusterdir (Some "x") {["cc1.snapshot" := "snap"]} in
  let s := mkFilestore {["a" := dir; "b" := dir]} ∅ ∅ {["cc1.snapshot" := "snap"]} true in
  let s' := (Cluster_Delete demo_unmarshal "a" s).1 in
  SnapshotPath "b" "cc1" s' = Ok "snap" ∧ s'.(fs_exports) !! "cc1.snapshot" = None.
Proof. split; vm_compute; reflexivity. Qed.

(** Any hostname that is not empty validates, and becomes part of a path: two
    nodes whose names clean to one share its file, and a name that climbs out
    of the folder writes over another cluster's snapshot. *)
Definition named_pair (h1 h2 : string) : ClusterDetail := with_nodes demo_pair [demo_nc h1 "10.1.2.3"; demo_nc h2 "10.1.2.4"].

Example names_collide :
  let d := named_pair "cc1" "./cc1" in
  let s := (save_of d AllWritten no_clusters).1 in
  Validate d = Ok tt
  ∧ SnapshotPath (ShortID d) "cc1" s = node_snapshot (fun a => Join a.*2 "|") (fun p => p) d "now" (demo_nc "./cc1" "10.1.2.4")
  ∧ bool_decide (SnapshotPath (ShortID d) "cc1" s = node_snapshot (fun a => Join a.*2 "|") (fun p => p) d "now" (demo_nc "cc1" "10.1.2.3")) = false.
Proof. split_and!; vm_compute; reflexivity. Qed.

Example name_climbs_out :
  let d := named_pair "cc1" "../other/cc1" in
  let s := mkFilestore {["other" := mkClusterdir (Some "x") {["cc1.snapshot" := "theirs"]}]} ∅ ∅ ∅ false in
  let '(s', e) := save_of d AllWritten s in
  Validate d = Ok tt ∧ e = Ok tt ∧ SnapshotPath "other" "cc1" s = Ok "theirs"
  ∧ SnapshotPath "other" "cc1" s' = node_snapshot (fun a => Join a.*2 "|") (fun p => p) d "now" (demo_nc "../other/cc1" "10.1.2.4").
Proof. vm_compute. auto. Qed.
