(* ===== verification/Interact.v ===== *)
(** * Programs that talk to their surroundings

    The agent's polling loops are interaction trees: an event asks the node, the
    driver or the clock, and the answer continues the program.  A run is a
    finite prefix of such a conversation; [safe] reasons about every run with a
    monitor that follows the events, and an invariant for each loop. *)
From S2P Require Import Prelude.
From ITree Require Import ITree Eq.Shallow.
From Stdlib Require Import Eqdep.

#[export] Instance itree_bind {E} : MBind (itree E) := fun _ _ f t => ITree.bind t f.
#[export] Instance itree_ret {E} : MRet (itree E) := fun _ x => Ret x.

(** Two visible nodes are equal: so are their events and continuations. *)
Ltac inv_vis H :=
  inversion H; subst; clear H;
  repeat match goal with K : existT _ _ = existT _ _ |- _ => apply inj_pair2 in K; subst end.

Section Runs.
Context {E : Type → Type}.

(** An event with its answer. *)
Inductive obs : Type := Obs (X : Type) (e : E X) (x : X).

Arguments Obs {X} e x.

(** [runs n t l o]: in [n] steps the program says [l]; [o] is its result if it
    has ended. *)
Inductive runs {R} : nat → itree E R → list obs → option R → Prop :=
| runs_stop t : runs 0 t [] None
| runs_ret n t r : observe t = RetF r → runs n t [] (Some r)
| runs_tau n t u l o : observe t = TauF u → runs n u l o → runs (S n) t l o
| runs_vis n t X (e : E X) k x l o :
    observe t = VisF e k → runs n (k x) l o → runs (S n) t (Obs e x :: l) o.

(** A concrete run: the surroundings are a function over a state. *)
Fixpoint exec {St R} (h : ∀ X, E X → St → X * St) (n : nat) (s : St) (t : itree E R) : list obs * option R :=
  match n with
  | O => ([], None)
  | S n =>
      match observe t with
      | RetF r => ([], Some r)
      | TauF u => exec h n s u
      | VisF e k => let '(x, s) := h _ e s in let '(l, o) := exec h n s (k x) in (Obs e x :: l, o)
      end
  end.

Lemma exec_runs {St R} (h : ∀ X, E X → St → X * St) n s (t : itree E R) :
  runs n t (exec h n s t).1 (exec h n s t).2.
Proof.
  revert s t. induction n as [|n IH]; intros s t; cbn; [constructor|].
  destruct (observe t) as [r|u|X e k] eqn:Eo; cbn; [by apply runs_ret|by eapply runs_tau|].
  destruct (h X e s) as [x s']. specialize (IH s' (k x)). destruct (exec h n s' (k x)). cbn in *.
  by eapply runs_vis.
Qed.

Lemma runs_observe {R} n (t u : itree E R) l o : observe t = observe u → runs n t l o → runs n u l o.
Proof. intros Heq H. destruct H; [constructor|apply runs_ret|eapply runs_tau|eapply runs_vis]; try done; by rewrite <- Heq. Qed.

Lemma runs_bind {R R2} n (t : itree E R) (k : R → itree E R2) l o :
  runs n (ITree.bind t k) l o →
  (o = None ∧ ∃ m, m ≤ n ∧ runs m t l None)
  ∨ ∃ m1 m2 l1 l2 r, m1 + m2 ≤ n ∧ l = l1 ++ l2 ∧ runs m1 t l1 (Some r) ∧ runs m2 (k r) l2 o.
Proof.
  revert t l o. induction n as [n IH] using lt_wf_ind. intros t l o H.
  pose proof (observe_bind t k) as Ho.
  destruct (observe t) as [r|u|X e g] eqn:Et; cbn in Ho.
  - right. exists 0, n, [], l, r. split_and!; [lia|done|by apply runs_ret|]. by eapply runs_observe.
  - inversion H as [t0|n0 t0 r0 Hr|n0 t0 u0 l0 o0 Hu Hrun|n0 t0 X0 e0 k0 x0 l0 o0 Hv Hrun]; subst.
    + left. split; [done|]. exists 0. split; [done|constructor].
    + congruence.
    + rewrite Ho in Hu. injection Hu as <-. destruct (IH n0 ltac:(lia) u l o Hrun)
        as [[-> (m & Hm & Hr)]|(m1 & m2 & l1 & l2 & r & Hm & -> & H1 & H2)].
      * left. split; [done|]. exists (S m). split; [lia|by eapply runs_tau].
      * right. exists (S m1), m2, l1, l2, r. split_and!; [lia|done|by eapply runs_tau|done].
    + congruence.
  - inversion H as [t0|n0 t0 r0 Hr|n0 t0 u0 l0 o0 Hu Hrun|n0 t0 X0 e0 k0 x0 l0 o0 Hv Hrun]; subst.
    + left. split; [done|]. exists 0. split; [done|constructor].
    + congruence.
    + congruence.
    + rewrite Ho in Hv. inv_vis Hv. destruct (IH n0 ltac:(lia) (g x0) l0 o Hrun)
        as [[-> (m & Hm & Hr)]|(m1 & m2 & l1 & l2 & r & Hm & -> & H1 & H2)].
      * left. split; [done|]. exists (S m). split; [lia|by eapply runs_vis].
      * right. exists (S m1), m2, (Obs e0 x0 :: l1), l2, r. split_and!; [lia|done|by eapply runs_vis|done].
Qed.

(** ** Following a run with a monitor *)

Section Monitor.
Context {M : Type} (step : M → obs → option M).

Fixpoint mrun (m : M) (l : list obs) : option M :=
  match l with [] => Some m | x :: l => m' ← step m x; mrun m' l end.

Lemma mrun_app m l1 l2 : mrun m (l1 ++ l2) = m' ← mrun m l1; mrun m' l2.
Proof.
  revert m. induction l1 as [|x l1 IH]; intros m; [done|]. cbn.
  destruct (step m x); [apply IH|done].
Qed.

(** Every run of [t] keeps the monitor going, and one that ends leaves it where
    [Q] allows. *)
Definition safe {R} (m : M) (t : itree E R) (Q : M → R → Prop) : Prop :=
  ∀ n l o, runs n t l o →
  ∃ m', mrun m l = Some m' ∧ match o with Some r => Q m' r | None => True end.

Lemma safe_ret {R} m (r : R) (Q : M → R → Prop) : Q m r → safe m (Ret r) Q.
Proof.
  intros HQ n l o H. inversion H as [|n0 t0 r0 Hr|? ? u ? ? Hu|? ? ? ? ? ? ? ? Hv]; subst; try discriminate.
  - by exists m.
  - cbn in Hr. injection Hr as <-. by exists m.
Qed.

Lemma safe_trigger {X} m (e : E X) (Q : M → X → Prop) :
  (∀ x, ∃ m', step m (Obs e x) = Some m' ∧ Q m' x) → safe m (ITree.trigger e) Q.
Proof.
  intros HQ n l o H. inversion H as [|n0 t0 r0 Hr|? ? u ? ? Hu|n0 t0 X0 e0 k x l0 o0 Hv Hrun]; subst; try discriminate.
  - by exists m.
  - cbn in Hv. inv_vis Hv. destruct (HQ x) as (m' & Hm & Hq).
    destruct (safe_ret m' x Q Hq _ _ _ Hrun) as (m'' & Hm' & Ho).
    exists m''. split; [|done]. cbn. by rewrite Hm.
Qed.

Lemma safe_bind {R R2} m (t : itree E R) (k : R → itree E R2) (P : M → R → Prop) (Q : M → R2 → Prop) :
  safe m t P → (∀ m' r, P m' r → safe m' (k r) Q) → safe m (ITree.bind t k) Q.
Proof.
  intros Ht Hk n l o H. apply runs_bind in H as [(-> & n' & _ & Hr)|(n1 & n2 & l1 & l2 & r & _ & -> & H1 & H2)].
  - destruct (Ht _ _ _ Hr) as (m' & Hm & _). by exists m'.
  - destruct (Ht _ _ _ H1) as (m' & Hm & HP). destruct (Hk m' r HP _ _ _ H2) as (m'' & Hm' & Ho).
    exists m''. split; [|done]. by rewrite mrun_app, Hm.
Qed.

Lemma safe_mono {R} m (t : itree E R) (P Q : M → R → Prop) :
  safe m t P → (∀ m' r, P m' r → Q m' r) → safe m t Q.
Proof.
  intros Ht HPQ n l o H. destruct (Ht _ _ _ H) as (m' & Hm & Ho). exists m'. split; [done|].
  destruct o; [by apply HPQ|done].
Qed.

(** A loop keeps its invariant, however often it goes around. *)
Lemma safe_iter {I R} (Inv : I → M → Prop) (body : I → itree E (I + R)) (Q : M → R → Prop) i m :
  (∀ i m, Inv i m → safe m (body i) (fun m' r => match r with inl i' => Inv i' m' | inr b => Q m' b end)) →
  Inv i m → safe m (ITree.iter body i) Q.
Proof.
  intros Hbody Hi n. revert i m Hi. induction n as [n IH] using lt_wf_ind. intros i m Hi l o H.
  destruct (unfold_aloop_ body i) as [Heq]. apply (runs_observe _ _ _ _ _ Heq) in H. clear Heq.
  apply runs_bind in H as [(-> & n' & _ & Hr)|(n1 & n2 & l1 & l2 & [i'|b] & Hn & -> & H1 & H2)].
  - destruct (Hbody i m Hi _ _ _ Hr) as (m' & Hm & _). by exists m'.
  - destruct (Hbody i m Hi _ _ _ H1) as (m' & Hm & HI). cbn in H2.
    inversion H2 as [|n0 t0 r0 Hr|n0 t0 u l0 o0 Hu Hrun|n0 t0 X0 e0 k x l0 o0 Hv Hrun]; subst; try discriminate.
    + exists m'. split; [|done]. by rewrite mrun_app, Hm.
    + cbn in Hu. injection Hu as <-. destruct (IH n0 ltac:(lia) i' m' HI _ _ Hrun) as (m'' & Hm' & Ho).
      exists m''. split; [|done]. by rewrite mrun_app, Hm.
  - destruct (Hbody i m Hi _ _ _ H1) as (m' & Hm & HQ). cbn in H2.
    destruct (safe_ret m' b Q HQ _ _ _ H2) as (m'' & Hm' & Ho). exists m''.
    split; [|done]. by rewrite mrun_app, Hm.
Qed.

(** The rules in the shape programs have. *)
Lemma safe_call {X A} m (e : E X) (k : X → itree E A) Q :
  (∀ x, ∃ m', step m (Obs e x) = Some m' ∧ safe m' (k x) Q) → safe m (x ← ITree.trigger e; k x) Q.
Proof.
  intros H. apply (safe_bind m (ITree.trigger e) k (fun m' x => step m (Obs e x) = Some m')).
  - apply safe_trigger. intros x. destruct (H x) as (m' & Hm & _). by exists m'.
  - intros m' x Hm. destruct (H x) as (m'' & Hm' & Hs). rewrite Hm in Hm'. injection Hm' as <-. exact Hs.
Qed.

(** A call the monitor does not mind. *)
Lemma safe_skip {X A} m (e : E X) (k : X → itree E A) Q :
  (∀ x, step m (Obs e x) = Some m) → (∀ x, safe m (k x) Q) → safe m (x ← ITree.trigger e; k x) Q.
Proof. intros H Hk. apply safe_call. intros x. by exists m. Qed.

Lemma safe_done {A} m (a : A) (Q : M → A → Prop) : Q m a → safe m (mret a) Q.
Proof. apply safe_ret. Qed.

Lemma safe_seq {A B} m (t : itree E A) (k : A → itree E B) (R : M → A → Prop) (Q : M → B → Prop) :
  safe m t R → (∀ m' a, R m' a → safe m' (k a) Q) → safe m (a ← t; k a) Q.
Proof. apply safe_bind. Qed.

Lemma safe_mret {X A} m (a : X) (k : X → itree E A) Q : safe m (k a) Q → safe m (x ← mret a; k x) Q.
Proof. intros H. apply (safe_seq _ _ _ (fun m' x => m' = m ∧ x = a)); [by apply safe_done|]. by intros ? ? [-> ->]. Qed.

End Monitor.

End Runs.
Arguments Obs {E X} e x.
