(* ===== verification/DeployModel.v ===== *)
(** * The deploy record (internal/orchestrator/model.go, errcodes.go)

    A cluster's deploy, its nodes' states and the fields derived from them for
    the UI.  A Go [State] is a string type with named constants; the constants
    are constructors here and [StateRaw] carries any other text (the agent's
    report is converted with [State_of_string], never built with [StateRaw]
    directly; the zero value [""] is [StateRaw ""]). *)
From S2P Require Import Prelude GoStrings.
From Stdlib Require Import QArith.

Open Scope Z_scope.

Inductive State :=
| StatePending | StateBMCPreflight | StateSetBootPXE | StatePowerCycle
| StateNetbooting | StatePreflighting | StatePreflightOK | StateRestoring
| StateRebooting | StateImaging | StateImaged | StateCheckedIn
| StateNetPreflight | StateWaiting | StateApplying | StateApplied | StateDone
| StateError
| StateRaw (text : string).

#[export] Instance State_eq_dec : EqDecision State.
Proof. solve_decision. Defined.

Definition State_string (s : State) : string :=
  match s with
  | StatePending => "pending"
  | StateBMCPreflight => "bmc-preflight"
  | StateSetBootPXE => "set-boot-pxe"
  | StatePowerCycle => "power-cycle"
  | StateNetbooting => "netbooting"
  | StatePreflighting => "preflighting"
  | StatePreflightOK => "preflight-ok"
  | StateRestoring => "restoring"
  | StateRebooting => "rebooting"
  | StateImaging => "imaging"
  | StateImaged => "imaged"
  | StateCheckedIn => "checked-in"
  | StateNetPreflight => "net-preflight"
  | StateWaiting => "waiting-controller"
  | StateApplying => "applying"
  | StateApplied => "applied"
  | StateDone => "done"
  | StateError => "error"
  | StateRaw t => t
  end.

Definition named_states : list State :=
  [StatePending; StateBMCPreflight; StateSetBootPXE; StatePowerCycle;
   StateNetbooting; StatePreflighting; StatePreflightOK; StateRestoring;
   StateRebooting; StateImaging; StateImaged; StateCheckedIn;
   StateNetPreflight; StateWaiting; StateApplying; StateApplied; StateDone;
   StateError].

(** The conversion [State(text)]. *)
Definition State_of_string (text : string) : State :=
  match find (fun s => (State_string s =? text)%string) named_states with
  | Some s => s
  | None => StateRaw text
  end.

(** Install stages observed on the pxeserver. *)
Inductive Stage := StageNone | StageDHCP | StageImaging | StageDone.

#[export] Instance Stage_eq_dec : EqDecision Stage.
Proof. solve_decision. Defined.

Record Node : Type := mkNode {
  n_Hostname : string;
  n_MachineID : string;
  n_BMCAddress : string;
  n_BMCUser : string;
  n_BMCPass : string;
  n_BMCCipher : Z;
  n_MACs : list string;
  n_OSDisk : string
}.

Record PreflightResult : Type := mkPreflightResult {
  pr_Target : string;
  pr_OK : bool;
  pr_Detail : string
}.

(** [ClockSkewSec] is a float64 decoded from JSON, hence a finite binary
    rational: comparisons and negation on it are exact. *)
Record NodePreflight : Type := mkNodePreflight {
  pf_CarrierOK : bool;
  pf_ClockSkewSec : Q;
  pf_Matrix : list PreflightResult;
  pf_Passed : bool;
  pf_ReportedAt : string
}.

Definition set_pf_Passed (v : bool) (p : NodePreflight) : NodePreflight :=
  mkNodePreflight p.(pf_CarrierOK) p.(pf_ClockSkewSec) p.(pf_Matrix) v p.(pf_ReportedAt).
Definition set_pf_ReportedAt (v : string) (p : NodePreflight) : NodePreflight :=
  mkNodePreflight p.(pf_CarrierOK) p.(pf_ClockSkewSec) p.(pf_Matrix) p.(pf_Passed) v.

(** Failure codes: a string type whose prefix names the stage. *)
Definition ErrCode := string.
Definition ErrBMCUnreachable : ErrCode := "BMC_UNREACHABLE".
Definition ErrBMCAuth : ErrCode := "BMC_AUTH".
Definition ErrBMCBootdev : ErrCode := "BMC_BOOTDEV".
Definition ErrBMCPower : ErrCode := "BMC_POWER".
Definition ErrPXENoLease : ErrCode := "PXE_NO_LEASE".
Definition ErrPXETimeout : ErrCode := "PXE_TIMEOUT".
Definition ErrPFCarrier : ErrCode := "PF_CARRIER".
Definition ErrPFPing : ErrCode := "PF_PING".
Definition ErrPFSkew : ErrCode := "PF_CLOCK_SKEW".
Definition ErrPFTopo : ErrCode := "PF_TOPOLOGY".
Definition ErrPFTimeout : ErrCode := "PF_TIMEOUT".
Definition ErrApplyDownload : ErrCode := "APPLY_DOWNLOAD".
Definition ErrApplyFailed : ErrCode := "APPLY_FAILED".
Definition ErrApplyTimeout : ErrCode := "APPLY_TIMEOUT".
Definition ErrCancelled : ErrCode := "CANCELLED".
Definition ErrInternal : ErrCode := "INTERNAL".

Inductive CellStatus := CellPending | CellActive | CellDone | CellError.
Inductive Light := LightRed | LightYellow | LightGreen | LightOff.
Inductive Phase :=
| PhaseBoot | PhasePreflightNet | PhaseTimeSync | PhaseWaitMaster
| PhaseApplying | PhaseDone | PhaseError.

#[export] Instance CellStatus_eq_dec : EqDecision CellStatus.
Proof. solve_decision. Defined.
#[export] Instance Light_eq_dec : EqDecision Light.
Proof. solve_decision. Defined.

Record PhaseCell : Type := mkPhaseCell {
  pc_Name : string;
  pc_Status : CellStatus
}.

Record NodeDeploy : Type := mkNodeDeploy {
  nd_Hostname : string;
  nd_MachineID : string;
  nd_State : State;
  nd_Message : string;
  nd_ErrCode : ErrCode;
  nd_Preflight : list PreflightResult;
  nd_InstallerPreflight : option NodePreflight;
  nd_RekickSeq : Z;
  nd_Gates : list Z;
  nd_GateAck : list Z;
  nd_SELAnchor : Z;
  nd_UpdatedAt : string;
  nd_Light1 : Light;
  nd_Light2 : Light;
  nd_Phase : Phase;
  nd_Progress : list PhaseCell
}.

Definition set_nd_State (v : State) (x : NodeDeploy) : NodeDeploy :=
  mkNodeDeploy
    x.(nd_Hostname) x.(nd_MachineID) v x.(nd_Message) x.(nd_ErrCode)
    x.(nd_Preflight) x.(nd_InstallerPreflight) x.(nd_RekickSeq)
    x.(nd_Gates) x.(nd_GateAck) x.(nd_SELAnchor) x.(nd_UpdatedAt)
    x.(nd_Light1) x.(nd_Light2) x.(nd_Phase) x.(nd_Progress).
Definition set_nd_Message (v : string) (x : NodeDeploy) : NodeDeploy :=
  mkNodeDeploy
    x.(nd_Hostname) x.(nd_MachineID) x.(nd_State) v x.(nd_ErrCode)
    x.(nd_Preflight) x.(nd_InstallerPreflight) x.(nd_RekickSeq)
    x.(nd_Gates) x.(nd_GateAck) x.(nd_SELAnchor) x.(nd_UpdatedAt)
    x.(nd_Light1) x.(nd_Light2) x.(nd_Phase) x.(nd_Progress).
Definition set_nd_ErrCode (v : ErrCode) (x : NodeDeploy) : NodeDeploy :=
  mkNodeDeploy
    x.(nd_Hostname) x.(nd_MachineID) x.(nd_State) x.(nd_Message) v
    x.(nd_Preflight) x.(nd_InstallerPreflight) x.(nd_RekickSeq)
    x.(nd_Gates) x.(nd_GateAck) x.(nd_SELAnchor) x.(nd_UpdatedAt)
    x.(nd_Light1) x.(nd_Light2) x.(nd_Phase) x.(nd_Progress).
Definition set_nd_Preflight (v : list PreflightResult) (x : NodeDeploy) : NodeDeploy :=
  mkNodeDeploy
    x.(nd_Hostname) x.(nd_MachineID) x.(nd_State) x.(nd_Message)
    x.(nd_ErrCode) v x.(nd_InstallerPreflight) x.(nd_RekickSeq)
    x.(nd_Gates) x.(nd_GateAck) x.(nd_SELAnchor) x.(nd_UpdatedAt)
    x.(nd_Light1) x.(nd_Light2) x.(nd_Phase) x.(nd_Progress).
Definition set_nd_InstallerPreflight (v : option NodePreflight) (x : NodeDeploy) : NodeDeploy :=
  mkNodeDeploy
    x.(nd_Hostname) x.(nd_MachineID) x.(nd_State) x.(nd_Message)
    x.(nd_ErrCode) x.(nd_Preflight) v x.(nd_RekickSeq) x.(nd_Gates)
    x.(nd_GateAck) x.(nd_SELAnchor) x.(nd_UpdatedAt) x.(nd_Light1)
    x.(nd_Light2) x.(nd_Phase) x.(nd_Progress).
Definition set_nd_RekickSeq (v : Z) (x : NodeDeploy) : NodeDeploy :=
  mkNodeDeploy
    x.(nd_Hostname) x.(nd_MachineID) x.(nd_State) x.(nd_Message)
    x.(nd_ErrCode) x.(nd_Preflight) x.(nd_InstallerPreflight) v
    x.(nd_Gates) x.(nd_GateAck) x.(nd_SELAnchor) x.(nd_UpdatedAt)
    x.(nd_Light1) x.(nd_Light2) x.(nd_Phase) x.(nd_Progress).
Definition set_nd_Gates (v : list Z) (x : NodeDeploy) : NodeDeploy :=
  mkNodeDeploy
    x.(nd_Hostname) x.(nd_MachineID) x.(nd_State) x.(nd_Message)
    x.(nd_ErrCode) x.(nd_Preflight) x.(nd_InstallerPreflight)
    x.(nd_RekickSeq) v x.(nd_GateAck) x.(nd_SELAnchor) x.(nd_UpdatedAt)
    x.(nd_Light1) x.(nd_Light2) x.(nd_Phase) x.(nd_Progress).
Definition set_nd_GateAck (v : list Z) (x : NodeDeploy) : NodeDeploy :=
  mkNodeDeploy
    x.(nd_Hostname) x.(nd_MachineID) x.(nd_State) x.(nd_Message)
    x.(nd_ErrCode) x.(nd_Preflight) x.(nd_InstallerPreflight)
    x.(nd_RekickSeq) x.(nd_Gates) v x.(nd_SELAnchor) x.(nd_UpdatedAt)
    x.(nd_Light1) x.(nd_Light2) x.(nd_Phase) x.(nd_Progress).
Definition set_nd_SELAnchor (v : Z) (x : NodeDeploy) : NodeDeploy :=
  mkNodeDeploy
    x.(nd_Hostname) x.(nd_MachineID) x.(nd_State) x.(nd_Message)
    x.(nd_ErrCode) x.(nd_Preflight) x.(nd_InstallerPreflight)
    x.(nd_RekickSeq) x.(nd_Gates) x.(nd_GateAck) v x.(nd_UpdatedAt)
    x.(nd_Light1) x.(nd_Light2) x.(nd_Phase) x.(nd_Progress).
Definition set_nd_UpdatedAt (v : string) (x : NodeDeploy) : NodeDeploy :=
  mkNodeDeploy
    x.(nd_Hostname) x.(nd_MachineID) x.(nd_State) x.(nd_Message)
    x.(nd_ErrCode) x.(nd_Preflight) x.(nd_InstallerPreflight)
    x.(nd_RekickSeq) x.(nd_Gates) x.(nd_GateAck) x.(nd_SELAnchor) v
    x.(nd_Light1) x.(nd_Light2) x.(nd_Phase) x.(nd_Progress).
Definition set_nd_Light1 (v : Light) (x : NodeDeploy) : NodeDeploy :=
  mkNodeDeploy
    x.(nd_Hostname) x.(nd_MachineID) x.(nd_State) x.(nd_Message)
    x.(nd_ErrCode) x.(nd_Preflight) x.(nd_InstallerPreflight)
    x.(nd_RekickSeq) x.(nd_Gates) x.(nd_GateAck) x.(nd_SELAnchor)
    x.(nd_UpdatedAt) v x.(nd_Light2) x.(nd_Phase) x.(nd_Progress).
Definition set_nd_Light2 (v : Light) (x : NodeDeploy) : NodeDeploy :=
  mkNodeDeploy
    x.(nd_Hostname) x.(nd_MachineID) x.(nd_State) x.(nd_Message)
    x.(nd_ErrCode) x.(nd_Preflight) x.(nd_InstallerPreflight)
    x.(nd_RekickSeq) x.(nd_Gates) x.(nd_GateAck) x.(nd_SELAnchor)
    x.(nd_UpdatedAt) x.(nd_Light1) v x.(nd_Phase) x.(nd_Progress).
Definition set_nd_Phase (v : Phase) (x : NodeDeploy) : NodeDeploy :=
  mkNodeDeploy
    x.(nd_Hostname) x.(nd_MachineID) x.(nd_State) x.(nd_Message)
    x.(nd_ErrCode) x.(nd_Preflight) x.(nd_InstallerPreflight)
    x.(nd_RekickSeq) x.(nd_Gates) x.(nd_GateAck) x.(nd_SELAnchor)
    x.(nd_UpdatedAt) x.(nd_Light1) x.(nd_Light2) v x.(nd_Progress).
Definition set_nd_Progress (v : list PhaseCell) (x : NodeDeploy) : NodeDeploy :=
  mkNodeDeploy
    x.(nd_Hostname) x.(nd_MachineID) x.(nd_State) x.(nd_Message)
    x.(nd_ErrCode) x.(nd_Preflight) x.(nd_InstallerPreflight)
    x.(nd_RekickSeq) x.(nd_Gates) x.(nd_GateAck) x.(nd_SELAnchor)
    x.(nd_UpdatedAt) x.(nd_Light1) x.(nd_Light2) x.(nd_Phase) v.

(** [d_ref] is the identity of the [*Deploy] pointer: a fresh number per
    [Start], compared where the code compares the pointers. *)
Record Deploy : Type := mkDeploy {
  d_ref : nat;
  d_ClusterID : string;
  d_StartedAt : string;
  d_Master : string;
  d_Nodes : gmap string NodeDeploy;
  d_VerifyTargets : list string;
  d_ClusterReady : bool;
  d_Verify : list PreflightResult;
  d_SetReadyDone : bool;
  d_Manual : bool;
  d_ManualStep : Z;
  d_CanAdvance : bool;
  d_OptOutRepair : bool;
  d_SimulateAirgap : bool
}.

Definition set_d_Nodes (v : gmap string NodeDeploy) (x : Deploy) : Deploy :=
  mkDeploy
    x.(d_ref) x.(d_ClusterID) x.(d_StartedAt) x.(d_Master) v
    x.(d_VerifyTargets) x.(d_ClusterReady) x.(d_Verify) x.(d_SetReadyDone)
    x.(d_Manual) x.(d_ManualStep) x.(d_CanAdvance) x.(d_OptOutRepair)
    x.(d_SimulateAirgap).
Definition set_d_ClusterReady (v : bool) (x : Deploy) : Deploy :=
  mkDeploy
    x.(d_ref) x.(d_ClusterID) x.(d_StartedAt) x.(d_Master) x.(d_Nodes)
    x.(d_VerifyTargets) v x.(d_Verify) x.(d_SetReadyDone) x.(d_Manual)
    x.(d_ManualStep) x.(d_CanAdvance) x.(d_OptOutRepair)
    x.(d_SimulateAirgap).
Definition set_d_Verify (v : list PreflightResult) (x : Deploy) : Deploy :=
  mkDeploy
    x.(d_ref) x.(d_ClusterID) x.(d_StartedAt) x.(d_Master) x.(d_Nodes)
    x.(d_VerifyTargets) x.(d_ClusterReady) v x.(d_SetReadyDone)
    x.(d_Manual) x.(d_ManualStep) x.(d_CanAdvance) x.(d_OptOutRepair)
    x.(d_SimulateAirgap).
Definition set_d_SetReadyDone (v : bool) (x : Deploy) : Deploy :=
  mkDeploy
    x.(d_ref) x.(d_ClusterID) x.(d_StartedAt) x.(d_Master) x.(d_Nodes)
    x.(d_VerifyTargets) x.(d_ClusterReady) x.(d_Verify) v x.(d_Manual)
    x.(d_ManualStep) x.(d_CanAdvance) x.(d_OptOutRepair)
    x.(d_SimulateAirgap).
Definition set_d_ManualStep (v : Z) (x : Deploy) : Deploy :=
  mkDeploy
    x.(d_ref) x.(d_ClusterID) x.(d_StartedAt) x.(d_Master) x.(d_Nodes)
    x.(d_VerifyTargets) x.(d_ClusterReady) x.(d_Verify) x.(d_SetReadyDone)
    x.(d_Manual) v x.(d_CanAdvance) x.(d_OptOutRepair)
    x.(d_SimulateAirgap).
Definition set_d_CanAdvance (v : bool) (x : Deploy) : Deploy :=
  mkDeploy
    x.(d_ref) x.(d_ClusterID) x.(d_StartedAt) x.(d_Master) x.(d_Nodes)
    x.(d_VerifyTargets) x.(d_ClusterReady) x.(d_Verify) x.(d_SetReadyDone)
    x.(d_Manual) x.(d_ManualStep) v x.(d_OptOutRepair)
    x.(d_SimulateAirgap).

Definition set_nd_derived (l1 l2 : Light) (p : Phase) (c : list PhaseCell)
    (x : NodeDeploy) : NodeDeploy :=
  set_nd_Progress c (set_nd_Phase p (set_nd_Light2 l2 (set_nd_Light1 l1 x))).

Definition StepPreflight : Z := 1.
Definition StepRestore : Z := 2.
Definition StepReboot : Z := 3.
Definition StepApplyMaster : Z := 4.
Definition StepApplyRest : Z := 5.
Definition StepSetReady : Z := 6.

(** ** Derived fields *)

Definition lights (nd : NodeDeploy) : Light * Light :=
  if decide (nd.(nd_State) = StateError) then
    if HasPrefix nd.(nd_ErrCode) "APPLY_" then (LightGreen, LightRed)
    else (LightRed, LightOff)
  else
    let l1 := match nd.(nd_State) with
              | StatePending | StateBMCPreflight | StateSetBootPXE
              | StatePowerCycle | StateNetbooting => LightOff
              | StatePreflighting => LightYellow
              | _ => LightGreen
              end in
    let l2 := match nd.(nd_State) with
              | StateCheckedIn | StateWaiting | StateNetPreflight => LightYellow
              | StateApplying | StateApplied => LightYellow
              | StateDone => LightGreen
              | _ => LightOff
              end in
    (l1, l2).

Definition phase (nd : NodeDeploy) : Phase :=
  match nd.(nd_State) with
  | StatePending | StateBMCPreflight | StateSetBootPXE | StatePowerCycle
  | StateNetbooting | StateImaging | StateImaged => PhaseBoot
  | StatePreflighting | StatePreflightOK | StateRestoring | StateRebooting =>
      PhasePreflightNet
  | StateCheckedIn | StateWaiting => PhaseWaitMaster
  | StateNetPreflight | StateApplying | StateApplied => PhaseApplying
  | StateDone => PhaseDone
  | StateError => PhaseError
  | _ => PhaseBoot
  end.

Definition pipelineRank (s : State) : Z :=
  match s with
  | StatePreflighting => 1
  | StatePreflightOK => 2
  | StateRestoring => 3
  | StateRebooting => 4
  | StateCheckedIn | StateWaiting | StateNetPreflight => 5
  | StateApplying | StateApplied => 6
  | StateDone => 7
  | _ => 0
  end.

(** [progress]'s local [cell] closure. *)
Definition cell (nd : NodeDeploy) (name : string) (activeRank doneRank : Z) : PhaseCell :=
  let r := pipelineRank nd.(nd_State) in
  mkPhaseCell name
    (if doneRank <=? r then CellDone
     else if activeRank <=? r then CellActive else CellPending).

Definition set_pc_Status (st : CellStatus) (c : PhaseCell) : PhaseCell :=
  mkPhaseCell c.(pc_Name) st.

Definition progress (nd : NodeDeploy) (isMaster setReadyActive setReadyDone : bool)
    : list PhaseCell :=
  let pre := cell nd "preflight" 1 2 in
  let res := cell nd "restore" 3 4 in
  let reb := cell nd "reboot" 4 5 in
  let app := cell nd "apply" 5 7 in
  let cells :=
    if decide (nd.(nd_State) = StateError) then
      let ec := nd.(nd_ErrCode) in
      if HasPrefix ec "APPLY_" then
        [set_pc_Status CellDone pre; set_pc_Status CellDone res;
         set_pc_Status CellDone reb; set_pc_Status CellError app]
      else if HasPrefix ec "REBOOT_" then
        [set_pc_Status CellDone pre; set_pc_Status CellDone res;
         set_pc_Status CellError reb; app]
      else if HasPrefix ec "RESTORE_" then
        [set_pc_Status CellDone pre; set_pc_Status CellError res; reb; app]
      else [set_pc_Status CellError pre; res; reb; app]
    else [pre; res; reb; app] in
  if isMaster then
    cells ++ [mkPhaseCell "set-ready"
                (if setReadyDone then CellDone
                 else if setReadyActive then CellActive else CellPending)]
  else cells.

Definition isPreRestore (s : State) : bool :=
  match s with
  | StatePending | StateBMCPreflight | StateSetBootPXE | StatePowerCycle
  | StateNetbooting | StatePreflighting | StatePreflightOK | StateRestoring
  | StateRebooting => true
  | _ => false
  end.

Definition terminal (s : State) : bool :=
  bool_decide (s = StateError) || bool_decide (s = StateDone).

(** ** Orders on states (sel.go [stateRank], manager.go [agentDriven]) *)

Definition rank_order : list State :=
  [StatePending; StateBMCPreflight; StateSetBootPXE; StatePowerCycle; StateNetbooting;
   StatePreflighting; StatePreflightOK; StateRestoring; StateRebooting;
   StateImaging; StateImaged; StateCheckedIn; StateWaiting; StateNetPreflight;
   StateApplying; StateApplied; StateDone].

Fixpoint index_of (s : State) (i : Z) (l : list State) : Z :=
  match l with
  | [] => -1
  | o :: l' => if decide (o = s) then i else index_of s (i + 1) l'
  end.

Definition stateRank (s : State) : Z := index_of s 0 rank_order.

Definition agentDriven (s : State) : bool :=
  match s with
  | StatePreflighting | StatePreflightOK | StateRestoring | StateRebooting
  | StateCheckedIn | StateWaiting | StateNetPreflight | StateApplying
  | StateApplied | StateDone | StateError => true
  | _ => false
  end.

(** ** Lemmas *)

(** A state is determined by its text as long as it came through
    [State_of_string]. *)
Lemma State_of_string_string s :
  (∀ t, s = StateRaw t → False) → State_of_string (State_string s) = s.
Proof. by destruct s; intros H; try reflexivity; destruct (H text). Qed.

Lemma State_string_of_string text : State_string (State_of_string text) = text.
Proof.
  unfold State_of_string. destruct (find _ _) as [s|] eqn:E; [|done].
  apply find_some in E as [_ E]. by to_prop.
Qed.

(** A progress strip reads left to right: finished cells, then at most one
    that is active or failed, then cells not reached. *)
Fixpoint strip_rest (l : list PhaseCell) : bool :=
  match l with
  | [] => true
  | c :: l' => bool_decide (c.(pc_Status) = CellPending) && strip_rest l'
  end.

Fixpoint strip_ok (l : list PhaseCell) : bool :=
  match l with
  | [] => true
  | c :: l' =>
      match c.(pc_Status) with
      | CellDone => strip_ok l'
      | _ => strip_rest l'
      end
  end.

(** For every node state and error code the progress strip shown for a
    node is well formed: a run of finished cells, at most one active or failed
    cell, and nothing but pending cells after it.  For the master the trailing
    set-ready cell keeps the shape as long as set_ready is reported only for a
    node that finished applying. *)
Theorem progress_strip_ok nd isMaster sra srd :
  (isMaster = true → sra || srd = true → nd.(nd_State) = StateDone) →
  strip_ok (progress nd isMaster sra srd) = true.
Proof.
  intros Hm. unfold progress, cell. destruct (decide _) as [He|He].
  - rewrite He in *. cbn in *.
    destruct isMaster, sra, srd; cbn in *; try (specialize (Hm eq_refl eq_refl); done);
      by repeat (case_match; cbn).
  - destruct isMaster, sra, srd; cbn in Hm;
      try (rewrite (Hm eq_refl eq_refl); reflexivity);
      by destruct (nd_State nd).
Qed.


Definition nd_at (s : State) (code : ErrCode) : NodeDeploy :=
  mkNodeDeploy "a" "id" s "" code [] None 0 [] [] 0 "" LightOff LightOff PhaseBoot [].

Lemma progress_strip_ok_witness :
  strip_ok (progress (nd_at StateDone "") true true false) = true
  ∧ strip_ok (progress (nd_at StateError ErrApplyFailed) false false false) = true.
Proof. split; apply progress_strip_ok; [reflexivity|discriminate]. Defined.
