(* ===== verification/SelCodec.v ===== *)
(** * SEL records (internal/orchestrator/sel.go)

    The Cube OEM records on a node's BMC event log (SEL), their decoding into
    node states, the observer that reads them past an anchor, and the endpoint
    record.  Bytes are [Z] in [0, 256); a Go array [[6]byte] is a list of six
    of them.  Writing records is in GateWriter.v. *)
From S2P Require Import Prelude GoStrings GoNet DeployModel.
From Stdlib Require Import Ascii.

Open Scope string_scope.
Open Scope Z_scope.

Definition cubeManufacturerID : Z := 0x0BC0DE.
Definition cubeEndpointManufacturerID : Z := 0x0BC0DF.

Definition byte_of (z : Z) : Z := z mod 256.

(** [string(bs)] of a byte slice. *)
Fixpoint bytes_string (bs : list Z) : string :=
  match bs with
  | [] => ""
  | b :: bs' => String (Ascii.ascii_of_N (Z.to_N b)) (bytes_string bs')
  end.

Record SELOEMTimestamped : Type := mkOEM {
  oem_Timestamp : string;
  oem_ManufacturerID : Z;
  oem_OEMDefined : list Z
}.

(** A SEL entry as the code reads it; [None] for the nil pointers it tests. *)
Record SEL : Type := mkSEL {
  sel_RecordID : Z;
  sel_RecordType : Z;
  sel_OEMTimestamped : option SELOEMTimestamped
}.

Record SELStatus : Type := mkSELStatus {
  ss_Phase : string;
  ss_Result : string;
  ss_Detail : string;
  ss_At : string;
  ss_RecordID : Z
}.

(** Missing keys of a Go map read as the zero value [""]. *)
Definition selPhaseName (b : Z) : string :=
  if b =? 0x10 then "preflight" else if b =? 0x15 then "restoring"
  else if b =? 0x16 then "restore-done" else if b =? 0x18 then "rebooted"
  else if b =? 0x20 then "applying" else if b =? 0x21 then "applied"
  else if b =? 0x2f then "done" else if b =? 0x40 then "ready"
  else if b =? 0xff then "error" else "".

Definition gateStageRestore : Z := 1.
Definition gateStageReboot : Z := 2.
Definition gateStageApply : Z := 3.
Definition gateStageSetReady : Z := 4.

Definition selResultName (b : Z) : string :=
  if b =? 0x01 then "ok" else if b =? 0x02 then "degraded"
  else if b =? 0x03 then "unreachable" else if b =? 0x04 then "topology-error"
  else if b =? 0xff then "error" else "".

(** [oem[i]] on a [[6]byte]: in range by construction. *)
Definition oem_at (o : list Z) (i : nat) : Z := nth i o 0.

(** ** Decoding *)

(** The gate stages a log holds, as the loop of [gatesPresent] collects them. *)
Definition gate_of (e : option SEL) : option Z :=
  match e with
  | Some (mkSEL _ _ (Some o)) =>
      if negb (o.(oem_ManufacturerID) =? cubeManufacturerID) then None
      else if (oem_at o.(oem_OEMDefined) 0 =? 0x30) && (oem_at o.(oem_OEMDefined) 1 =? 0x05)
           then Some (oem_at o.(oem_OEMDefined) 2) else None
  | _ => None
  end.

Definition gates_in (entries : list (option SEL)) : list Z := omap gate_of entries.

Definition decodeCubeSEL (e : option SEL) : option SELStatus :=
  match e with
  | Some (mkSEL rid _ (Some o)) =>
      if negb (o.(oem_ManufacturerID) =? cubeManufacturerID) then None
      else Some (mkSELStatus
             (selPhaseName (oem_at o.(oem_OEMDefined) 0))
             (selResultName (oem_at o.(oem_OEMDefined) 1))
             (TrimRightFunc (fun c => Ascii.eqb c "000"%char)
                (bytes_string (drop 2 o.(oem_OEMDefined))))
             o.(oem_Timestamp) rid)
  | _ => None
  end.

(** [StateRaw ""] is Go's zero [State]: nothing to advance. *)
Definition selState (s : SELStatus) : State :=
  if (s.(ss_Result) =? "error")%string then StateError
  else if (s.(ss_Phase) =? "restoring")%string then StateRestoring
  else if (s.(ss_Phase) =? "restore-done")%string then StateRebooting
  else if (s.(ss_Phase) =? "rebooted")%string then StateWaiting
  else if (s.(ss_Phase) =? "applying")%string then StateApplying
  else if (s.(ss_Phase) =? "applied")%string || (s.(ss_Phase) =? "done")%string then StateDone
  else if (s.(ss_Phase) =? "ready")%string then StateDone
  else if (s.(ss_Phase) =? "error")%string then StateError
  else StateRaw "".

(** A record the observer keeps: one of ours that maps to a state. *)
Definition actionable (e : option SEL) : option SELStatus :=
  match decodeCubeSEL e with
  | Some s => if decide (selState s = StateRaw "") then None else Some s
  | None => None
  end.

(** The loop of [Observe]: [past] and [latest] are its two variables. *)
Fixpoint observe_loop (afterID : Z) (past : bool) (latest : option SELStatus)
    (entries : list (option SEL)) : option SELStatus :=
  match entries with
  | [] => latest
  | e :: rest =>
      if past then
        observe_loop afterID past
          (match actionable e with Some s => Some s | None => latest end) rest
      else
        let past' := match e with Some x => x.(sel_RecordID) =? afterID | None => false end in
        observe_loop afterID past' latest rest
  end.

Definition observe_entries (entries : list (option SEL)) (afterID : Z) : option SELStatus :=
  observe_loop afterID (afterID =? 0) None entries.

Definition anchor_entries (entries : list (option SEL)) : Z :=
  match last entries with Some (Some e) => e.(sel_RecordID) | _ => 0 end.

(** ** Encoding *)

Definition gateSEL (now : string) (stage : Z) : SEL :=
  mkSEL 0 0xC0 (Some (mkOEM now cubeManufacturerID [0x30; 0x05; stage; 0; 0; 0])).

(** [byte(port >> 8)], [byte(port)]. *)
Definition encodeEndpoint (ip : list Z) (port : Z) : list Z :=
  take 4 ip ++ [byte_of (Z.shiftr port 8); byte_of port].

(** [uint16(b[4])<<8 | uint16(b[5])]: the shift is at 16 bits. *)
Definition decodeEndpoint (b : list Z) : list Z * Z * bool :=
  let ip := take 4 b in
  let port := Z.lor (Z.shiftl (oem_at b 4) 8 mod 65536) (oem_at b 5) in
  if bool_decide (ip = [0; 0; 0; 0]) then (ip, port, false) else (ip, port, true).

Definition endpointSEL (now : string) (ip : list Z) (port : Z) : SEL :=
  mkSEL 0 0xC0 (Some (mkOEM now cubeEndpointManufacturerID (encodeEndpoint ip port))).

(** [ParseAdvertise]: an IPv4 address and a port. *)
Definition ParseAdvertise (s : string) : result (list Z * Z) :=
  let? hp := SplitHostPort s in
  let '(host, portStr) := hp in
  let badport := Err ("invalid port " +:+ Quote portStr) in
  match Atoi portStr with
  | None => badport
  | Some p =>
      if (p <? 1) || (65535 <? p) then badport
      else match ParseIP4 host with
           | None => Err ("not an IPv4 address: " +:+ Quote host)
           | Some v4 => Ok (v4, p)
           end
  end.

(** ** Codec lemmas *)

Definition is_byte (b : Z) : Prop := 0 <= b < 256.

Lemma lor_shift_byte hi lo :
  is_byte lo → 0 <= hi → Z.lor (Z.shiftl hi 8) lo = hi * 256 + lo.
Proof.
  intros [H0 H1] Hhi. rewrite Z.shiftl_mul_pow2 by lia. change (2 ^ 8) with 256.
  assert (Z.land (hi * 256) lo = 0) as Hl.
  { apply Z.bits_inj'. intros n Hn. rewrite Z.land_spec, Z.bits_0.
    destruct (decide (n < 8)).
    - change 256 with (2 ^ 8). rewrite Z.mul_pow2_bits_low by lia. done.
    - rewrite (Z.bits_above_log2 lo), andb_false_r; [done|lia|].
      destruct (decide (lo = 0)) as [->|]; [cbn; lia|].
      apply Z.lt_le_trans with 8; [|lia]. apply Z.log2_lt_pow2; lia. }
  rewrite <- Z.lxor_lor, <- Z.add_nocarry_lxor by done. done.
Qed.

Lemma bytes_shift port : Z.shiftr port 8 = port / 256.
Proof. by rewrite Z.shiftr_div_pow2 by lia. Qed.

(** Packing an advertise endpoint into the six OEM bytes and reading it
    back gives the same IPv4 address and the same 16-bit port, and the record
    is accepted exactly when the address is not 0.0.0.0. *)
Lemma endpoint_codec a b c d port :
  0 <= port < 65536 →
  decodeEndpoint (encodeEndpoint [a; b; c; d] port)
  = ([a; b; c; d], port, negb (bool_decide ([a; b; c; d] = [0; 0; 0; 0]))).
Proof.
  intros Hp. unfold decodeEndpoint, encodeEndpoint, oem_at. cbn [take app nth].
  assert (Z.lor (Z.shiftl (byte_of (Z.shiftr port 8)) 8 mod 65536) (byte_of port) = port) as ->.
  { unfold byte_of. rewrite bytes_shift.
    pose proof (Z.div_mod port 256 ltac:(lia)). pose proof (Z.mod_pos_bound port 256 ltac:(lia)).
    rewrite (Z.mod_small (port / 256) 256) by lia.
    rewrite (Z.mod_small (Z.shiftl (port / 256) 8)) by (rewrite Z.shiftl_mul_pow2; lia).
    rewrite lor_shift_byte; [lia|done|lia]. }
  by case_bool_decide.
Qed.

Lemma is_byte_255 b : is_byte b ↔ 0 <= b <= 255.
Proof. unfold is_byte. lia. Qed.

(** The address the operator advertises is the address the agent gets: for
    an IPv4 address and a port, [ParseAdvertise] reads the text, the endpoint
    record packs it into its six bytes, and decoding those gives the same
    address and port; the record counts exactly if the address is not 0.0.0.0. *)
Theorem advertise_roundtrip a b c d port :
  is_byte a → is_byte b → is_byte c → is_byte d → 1 <= port <= 65535 →
  ParseAdvertise (dotted a b c d +:+ ":" +:+ Itoa port) = Ok ([a; b; c; d], port)
  ∧ decodeEndpoint (encodeEndpoint [a; b; c; d] port)
    = ([a; b; c; d], port, negb (bool_decide ([a; b; c; d] = [0; 0; 0; 0]))).
Proof.
  rewrite !is_byte_255. intros Ha Hb Hc Hd Hp. split; [|apply endpoint_codec; lia].
  assert (dotted a b c d ≠ "") as Hne.
  { unfold dotted. cbn [Join]. destruct (Itoa_head a) as (x & s & y & -> & _); [lia|done]. }
  unfold ParseAdvertise.
  rewrite SplitHostPort_plain by first [exact Hne|apply free_of_dotted; (done || lia)|apply Itoa_free; (done || lia)].
  cbn [result_bind]. rewrite Atoi_Itoa by (unfold MaxInt64; lia).
  rewrite (proj2 (Z.ltb_ge _ _)), (proj2 (Z.ltb_ge _ _)) by lia. cbn [orb].
  by rewrite ParseIP4_dotted.
Qed.

Lemma advertise_roundtrip_witness :
  ParseAdvertise (dotted 192 168 1 150 +:+ ":" +:+ Itoa 3001) = Ok ([192; 168; 1; 150], 3001).
Proof. apply (advertise_roundtrip 192 168 1 150 3001); unfold is_byte; lia. Defined.

(** A gate record is read back as its stage, and it carries no node state: a
    gate written after a status cannot hide the status from the observer. *)
Lemma gateSEL_gate now stage : gate_of (Some (gateSEL now stage)) = Some stage.
Proof. done. Qed.

Lemma gateSEL_not_actionable now stage : actionable (Some (gateSEL now stage)) = None.
Proof. done. Qed.

Lemma endpointSEL_not_ours now ip port :
  gate_of (Some (endpointSEL now ip port)) = None
  ∧ decodeCubeSEL (Some (endpointSEL now ip port)) = None.
Proof. done. Qed.

#[export] Hint Resolve gateSEL_gate gateSEL_not_actionable : cube.

Lemma observe_loop_past id latest entries :
  observe_loop id true latest entries
  = match last (omap actionable entries) with Some s => Some s | None => latest end.
Proof.
  revert latest. induction entries as [|e es IH]; intros latest; [done|].
  cbn [observe_loop]. rewrite IH.
  change (omap actionable (e :: es))
    with (match actionable e with Some y => y :: omap actionable es | None => omap actionable es end).
  destruct (actionable e) as [s|]; [|done].
  rewrite last_cons. by destruct (last _).
Qed.

Lemma observe_loop_skip id pre e post :
  Forall (fun x => ∀ y, x = Some y → y.(sel_RecordID) ≠ id) pre →
  e.(sel_RecordID) = id →
  observe_loop id false None (pre ++ Some e :: post) = observe_loop id true None post.
Proof.
  intros Hpre He. induction Hpre as [|x pre Hx Hpre IH]; cbn.
  - rewrite He, Z.eqb_refl. done.
  - destruct x as [y|]; [|done]. by rewrite (proj2 (Z.eqb_neq _ _) (Hx y eq_refl)).
Qed.

(** The observer never replays a record from before the deploy: with a
    non-zero anchor that occurs in the log, what it returns is the last
    actionable record strictly after the anchor entry, whatever precedes it. *)
Theorem observe_after_anchor id pre e post :
  id ≠ 0 →
  Forall (fun x => ∀ y, x = Some y → y.(sel_RecordID) ≠ id) pre →
  e.(sel_RecordID) = id →
  observe_entries (pre ++ Some e :: post) id = last (omap actionable post).
Proof.
  intros Hid Hpre He. unfold observe_entries.
  rewrite (proj2 (Z.eqb_neq id 0) Hid), observe_loop_skip by done.
  rewrite observe_loop_past. by destruct (last _).
Qed.

Definition status_SEL (rid phase res : Z) : SEL :=
  mkSEL rid 0xC0 (Some (mkOEM "" cubeManufacturerID [phase; res; 0; 0; 0; 0])).

(** A stale "applied" before the anchor, a gate and a fresh "restoring" after. *)
Lemma observe_after_anchor_witness :
  observe_entries
    [Some (status_SEL 7 0x21 1); Some (status_SEL 9 0x10 1);
     Some (status_SEL 3 0x15 1); Some (gateSEL "" 1)] 9
  = last (omap actionable [Some (status_SEL 3 0x15 1); Some (gateSEL "" 1)]).
Proof.
  apply (observe_after_anchor 9 [Some (status_SEL 7 0x21 1)] (status_SEL 9 0x10 1));
    [lia| |reflexivity].
  constructor; [|constructor]. intros y [= <-]. vm_compute. discriminate.
Defined.

(** An anchor that is no longer in the log (the SEL was wiped or wrapped
    since it was captured) makes the observer return nothing at all, for every
    log: no record of this deploy is ever considered again. *)
Theorem observe_missing_anchor id entries :
  id ≠ 0 →
  Forall (fun x => ∀ y, x = Some y → y.(sel_RecordID) ≠ id) entries →
  observe_entries entries id = None.
Proof.
  intros Hid Hall. unfold observe_entries.
  rewrite (proj2 (Z.eqb_neq id 0) Hid).
  induction Hall as [|x l Hx Hl IH]; [done|]. cbn.
  destruct x as [y|]; [|done]. by rewrite (proj2 (Z.eqb_neq _ _) (Hx y eq_refl)).
Qed.

(** The deploy's own "applied" record is in the log, the anchor is not. *)
Lemma observe_missing_anchor_witness :
  actionable (Some (status_SEL 1 0x21 1)) ≠ None
  ∧ observe_entries [Some (status_SEL 1 0x21 1)] 9 = None.
Proof.
  split; [vm_compute; discriminate|].
  apply observe_missing_anchor; [lia|].
  constructor; [|constructor]. intros y [= <-]. vm_compute. discriminate.
Defined.
