(* ===== verification/AgentSel.v ===== *)
(** * The agent's side of the BMC log (cmd/phone-home-agent/preflight.go)

    The records the agent writes to its own BMC, the gate it waits for and the
    driver endpoint it looks up there, against the driver's side of the same
    log (SelCodec.v).  The in-band IPMI client is third-party and may wedge:
    reading the log gives its entries, or nothing when it fails or the deadline
    of [withIPMI] passes. *)
From S2P Require Import Prelude GoStrings GoNet DeployModel SelCodec.
From Stdlib Require Import Ascii.

Open Scope string_scope.
Open Scope list_scope.
Open Scope Z_scope.

(** ** Status records *)

Definition table : Type := list (string * Z).

(** A missing key of a Go map reads as zero. *)
Definition code (t : table) (k : string) : Z :=
  match find (fun e => (e.1 =? k)%string) t with Some e => e.2 | None => 0 end.

Definition phaseCode : table :=
  [("preflight", 0x10); ("restoring", 0x15); ("restore-done", 0x16); ("rebooted", 0x18);
   ("applying", 0x20); ("applied", 0x21); ("done", 0x2f); ("ready", 0x40); ("gate", 0x30); ("error", 0xff)].

Definition resultCode : table :=
  [("ok", 0x01); ("degraded", 0x02); ("unreachable", 0x03); ("topology-error", 0x04); ("go", 0x05); ("error", 0xff)].

Definition selGateGo : Z * Z := (code phaseCode "gate", code resultCode "go").

(** [[]byte(s)]. *)
Fixpoint string_bytes (s : string) : list Z :=
  match s with
  | "" => []
  | String c s => Z.of_N (Ascii.N_of_ascii c) :: string_bytes s
  end.

(** [copy(oem[2:], detail)]: the four bytes that are left, zero where the text is
    shorter. *)
Definition copy_detail (detail : string) : list Z :=
  take 4 (take 4 (string_bytes detail) ++ replicate 4 0).

Definition addSEL (now phase result detail : string) : SEL :=
  mkSEL 0 0xC0 (Some (mkOEM now cubeManufacturerID
    (code phaseCode phase :: code resultCode result :: copy_detail detail))).

(** ** Gates and endpoint, as the agent reads them *)

Section Reader.
(** What [client.GetSELEntries] gave: [None] for an error or a wedged KCS. *)
Definition log : Type := option (list (option SEL)).

Definition is_go (stage : Z) (e : option SEL) : bool :=
  match e with
  | Some (mkSEL _ _ (Some o)) =>
      (o.(oem_ManufacturerID) =? cubeManufacturerID)
      && (oem_at o.(oem_OEMDefined) 0 =? selGateGo.1) && (oem_at o.(oem_OEMDefined) 1 =? selGateGo.2)
      && (oem_at o.(oem_OEMDefined) 2 =? stage)
  | _ => false
  end.

Definition selGatePresent (l : log) (stage : Z) : bool :=
  match l with Some entries => existsb (is_go stage) entries | None => false end.

(** [time.Time.After] on the records' times. *)
Context (After : string → string → bool).

Definition endpoint_text (b : list Z) : option string :=
  if (oem_at b 0 =? 0) && (oem_at b 1 =? 0) && (oem_at b 2 =? 0) && (oem_at b 3 =? 0) then None
  else
    let port := Z.lor (Z.shiftl (oem_at b 4) 8) (oem_at b 5) in
    if port =? 0 then None
    else Some ("http://" +:+ Itoa (oem_at b 0) +:+ "." +:+ Itoa (oem_at b 1) +:+ "." +:+ Itoa (oem_at b 2)
               +:+ "." +:+ Itoa (oem_at b 3) +:+ ":" +:+ Itoa port).

(** One turn of the loop: [best] and the time it was stamped. *)
Definition endpoint_step (acc : string * string) (e : option SEL) : string * string :=
  match e with
  | Some (mkSEL _ _ (Some o)) =>
      if negb (o.(oem_ManufacturerID) =? cubeEndpointManufacturerID) then acc
      else match endpoint_text o.(oem_OEMDefined) with
           | None => acc
           | Some url =>
               if is_empty acc.1 || After o.(oem_Timestamp) acc.2 then (url, o.(oem_Timestamp)) else acc
           end
  | _ => acc
  end.

Definition driverEndpointFromSEL (l : log) : string :=
  match l with Some entries => (foldl endpoint_step ("", "") entries).1 | None => "" end.

End Reader.

(** ** Both sides read the log alike *)

Lemma gate_seen entries stage :
  selGatePresent (Some entries) stage = bool_decide (stage ∈ gates_in entries).
Proof.
  unfold selGatePresent, gates_in. induction entries as [|e es IH].
  { cbn. symmetry. apply bool_decide_eq_false. by intros ?%elem_of_nil. }
  cbn [existsb omap list_omap]. rewrite IH. clear IH.
  assert (is_go stage e = match gate_of e with Some g => g =? stage | None => false end) as ->.
  { destruct e as [[rid ty [o|]]|]; [|done|done]. unfold is_go, gate_of. cbn [fst snd selGateGo].
    change (code phaseCode "gate") with 0x30. change (code resultCode "go") with 0x05.
    destruct (oem_ManufacturerID o =? cubeManufacturerID); [|done]. cbn [negb andb].
    by destruct ((oem_at (oem_OEMDefined o) 0 =? 48) && (oem_at (oem_OEMDefined o) 1 =? 5)). }
  destruct (gate_of e) as [g|]; [|done]. destruct (Z.eqb_spec g stage) as [->|Hg]; cbn [orb].
  - symmetry. apply bool_decide_eq_true. by left.
  - apply bool_decide_ext. rewrite elem_of_cons. intuition congruence.
Qed.


Lemma string_bytes_string s : bytes_string (string_bytes s) = s.
Proof.
  induction s as [|c s IH]; [done|]. cbn [string_bytes bytes_string].
  by rewrite IH, N2Z.id, ascii_N_embedding.
Qed.

(** ** What the driver makes of a status record *)

Definition status_phases : list string :=
  ["preflight"; "restoring"; "restore-done"; "rebooted"; "applying"; "applied"; "done"; "ready"; "error"].
Definition status_results : list string := ["ok"; "degraded"; "unreachable"; "topology-error"; "error"].

Definition known (l : list string) (k : string) : string := if contains l k then k else "".

(** A table lookup is decided by the table's keys. *)
Lemma code_cases (t : table) (f : Z → string) (l : list string) k :
  Forall (fun e => f e.2 = known l e.1) t → Forall (fun x => x ∈ t.*1) l → f 0 = "" →
  f (code t k) = known l k.
Proof.
  intros Ht Hl H0. unfold code. destruct (find _ t) as [e|] eqn:E.
  - apply find_some in E as [Hin He%String.eqb_eq]. rewrite Forall_forall in Ht.
    rewrite (Ht e) by by apply list_elem_of_In. by rewrite He.
  - rewrite H0. unfold known. destruct (contains l k) eqn:Ec; [|done]. apply contains_true in Ec.
    rewrite Forall_forall in Hl. apply Hl, list_elem_of_fmap in Ec as (e & -> & Hin).
    apply list_elem_of_In in Hin. by rewrite (find_none _ _ E _ Hin), String.eqb_refl in *
      || (pose proof (find_none _ _ E _ Hin) as Hn; cbn in Hn; by rewrite String.eqb_refl in Hn).
Qed.

Lemma phase_decoded phase : selPhaseName (code phaseCode phase) = known status_phases phase.
Proof.
  apply code_cases; [| |done]; unfold phaseCode, status_phases;
    repeat (apply Forall_cons; split; [try (vm_compute; reflexivity)|]); try apply Forall_nil; try done;
    apply (bool_decide_unpack _); vm_compute; exact I.
Qed.

Lemma result_decoded result : selResultName (code resultCode result) = known status_results result.
Proof.
  apply code_cases; [| |done]; unfold resultCode, status_results;
    repeat (apply Forall_cons; split; [try (vm_compute; reflexivity)|]); try apply Forall_nil; try done;
    apply (bool_decide_unpack _); vm_compute; exact I.
Qed.

Definition NUL (c : ascii) : bool := Ascii.eqb c "000"%char.

Lemma bytes_string_app a b : bytes_string (a ++ b) = bytes_string a +:+ bytes_string b.
Proof. induction a as [|x a IH]; [done|]. cbn. by rewrite IH. Qed.

Lemma TrimRight_zeros s k : TrimRightFunc NUL (s +:+ bytes_string (replicate k 0)) = TrimRightFunc NUL s.
Proof.
  induction s as [|c s IH].
  - induction k as [|k IH]; [done|]. change (TrimRightFunc NUL (bytes_string (0 :: replicate k 0)) = "").
    cbn [bytes_string TrimRightFunc]. change ("" +:+ ?x) with x in IH. by rewrite IH.
  - rewrite append_cons. cbn [TrimRightFunc]. by rewrite IH.
Qed.

Lemma bytes_take n s : bytes_string (take n (string_bytes s)) = stake n s.
Proof.
  revert n. induction s as [|c s IH]; intros [|n]; [done|done|done|]. cbn.
  by rewrite IH, N2Z.id, ascii_N_embedding.
Qed.

Lemma copy_detail_read d :
  TrimRightFunc NUL (bytes_string (copy_detail d)) = TrimRightFunc NUL (stake 4 d).
Proof.
  unfold copy_detail. set (l := take 4 (string_bytes d)).
  assert (take 4 (l ++ replicate 4 0) = l ++ replicate (4 - length l) 0) as ->.
  { rewrite take_app, take_replicate. f_equal; [by rewrite take_ge by (unfold l; rewrite length_take; lia)|].
    f_equal. unfold l. rewrite length_take. lia. }
  by rewrite bytes_string_app, TrimRight_zeros, <- bytes_take.
Qed.

Lemma gate_code phase : code phaseCode phase = 0x30 → phase = "gate".
Proof.
  unfold code. destruct (find _ phaseCode) as [e|] eqn:E; [|done].
  apply find_some in E as [Hin He%String.eqb_eq]. apply list_elem_of_In in Hin. unfold phaseCode in Hin.
  intros H. rewrite <- He. clear He.
  repeat (apply elem_of_cons in Hin as [->|Hin]; [by try discriminate H|]). by apply elem_of_nil in Hin.
Qed.

Lemma decode_addSEL now phase result detail :
  decodeCubeSEL (Some (addSEL now phase result detail))
  = Some (mkSELStatus (known status_phases phase) (known status_results result)
            (TrimRightFunc NUL (stake 4 detail)) now 0).
Proof.
  unfold decodeCubeSEL, addSEL. cbn [oem_ManufacturerID oem_OEMDefined oem_Timestamp].
  change (oem_at (?a :: ?b :: ?l) 0) with a. change (oem_at (?a :: ?b :: ?l) 1) with b.
  change (drop 2 (?a :: ?b :: ?l)) with l.
  change (fun c => (c =? "000")%char) with NUL. by rewrite phase_decoded, result_decoded, copy_detail_read.
Qed.

(** The records the agent's own code writes, and the state each one stands for. *)
Definition agent_reports : list (string * string * State) :=
  [("preflight", "started", StateRaw ""); ("preflight", "topology-error", StateRaw "");
   ("preflight", "rekick", StateRaw ""); ("preflight", "ok", StateRaw ""); ("preflight", "carrier-fail", StateRaw "");
   ("restoring", "ok", StateRestoring); ("restore-done", "ok", StateRebooting); ("rebooted", "ok", StateWaiting);
   ("applying", "ok", StateApplying); ("apply", "reboot", StateRaw ""); ("applied", "ok", StateDone);
   ("error", "error", StateError); ("ready", "ok", StateDone); ("ready", "error", StateError)].

(** What the agent writes is what the driver reads: for every phase, result
    and text, the driver decodes the agent's record to the same phase and the
    same result when they have a code, the empty name (which maps to no state)
    when they have none, and the first four bytes of the text without trailing
    NULs; no status record is ever taken for a gate, by either side; and each
    record the agent's code writes stands for the state it reports. *)
Theorem status_roundtrip now phase result detail :
  decodeCubeSEL (Some (addSEL now phase result detail))
  = Some (mkSELStatus (known status_phases phase) (known status_results result)
            (TrimRightFunc NUL (stake 4 detail)) now 0)
  ∧ (phase ≠ "gate" → gate_of (Some (addSEL now phase result detail)) = None
     ∧ ∀ stage, is_go stage (Some (addSEL now phase result detail)) = false)
  ∧ Forall (fun e => selState <$> decodeCubeSEL (Some (addSEL now e.1.1 e.1.2 detail)) = Some e.2) agent_reports.
Proof.
  split_and!; [apply decode_addSEL| |].
  - intros Hp. assert (code phaseCode phase ≠ 0x30) as Hne by (intros ?%gate_code; done). split.
    + unfold gate_of, addSEL. cbn [oem_ManufacturerID oem_OEMDefined].
      change (oem_at (?a :: ?b :: ?l) 0) with a. by rewrite (proj2 (Z.eqb_neq _ _) Hne).
    + intros stage. unfold is_go, addSEL. cbn [oem_ManufacturerID oem_OEMDefined].
      change (oem_at (?a :: ?b :: ?l) 0) with a. change selGateGo.1 with 0x30.
      by rewrite (proj2 (Z.eqb_neq _ _) Hne).
  - unfold agent_reports. repeat (apply Forall_cons; split; [rewrite decode_addSEL; reflexivity|]).
    apply Forall_nil. exact I.
Qed.

Lemma status_roundtrip_witness :
  gate_of (Some (addSEL "t" "applying" "ok" "cube-1")) = None
  ∧ decodeCubeSEL (Some (addSEL "t" "applying" "ok" "cube-1")) = Some (mkSELStatus "applying" "ok" "cube" "t" 0).
Proof.
  split.
  - exact (proj1 (proj1 (proj2 (status_roundtrip "t" "applying" "ok" "cube-1")) ltac:(discriminate))).
  - exact (proj1 (status_roundtrip "t" "applying" "ok" "cube-1")).
Defined.

(** ** The driver the agent phones home to *)

(** When a record names a driver: its time. *)
Definition endpoint_stamp (e : option SEL) : option string :=
  match e with
  | Some (mkSEL _ _ (Some o)) =>
      if negb (o.(oem_ManufacturerID) =? cubeEndpointManufacturerID) then None
      else match endpoint_text o.(oem_OEMDefined) with Some _ => Some o.(oem_Timestamp) | None => None end
  | _ => None
  end.

Section Endpoint.
Context (After : string → string → bool).

Lemma endpoint_step_inv acc e :
  endpoint_step After acc e = acc
  ∨ ∃ t, endpoint_stamp e = Some t ∧ (endpoint_step After acc e).2 = t
         ∧ (is_empty acc.1 || After t acc.2) = true ∧ (endpoint_step After acc e).1 ≠ "".
Proof.
  unfold endpoint_step, endpoint_stamp. destruct e as [[rid ty [o|]]|]; [|by left|by left].
  destruct (negb _); [by left|]. destruct (endpoint_text (oem_OEMDefined o)) as [u|] eqn:E; [|by left].
  destruct (is_empty acc.1 || After (oem_Timestamp o) acc.2) eqn:E2; [|by left]. right. eexists.
  split_and!; try done. unfold endpoint_text in E. by repeat case_match; simplify_eq.
Qed.

Lemma endpoint_before now pre acc :
  (acc.1 = "" ∨ After now acc.2 = true) →
  Forall (fun e => ∀ t, endpoint_stamp e = Some t → After now t = true) pre →
  let r := foldl (endpoint_step After) acc pre in r.1 = "" ∨ After now r.2 = true.
Proof.
  intros Ha Hpre. revert acc Ha. induction Hpre as [|e pre He Hpre IH]; intros acc Ha; [done|].
  cbn. apply IH. destruct (endpoint_step_inv acc e) as [->|(t & Ht & Hs & _)]; [done|].
  right. rewrite Hs. by apply He.
Qed.

Lemma endpoint_after now post acc :
  acc.1 ≠ "" → acc.2 = now →
  Forall (fun e => ∀ t, endpoint_stamp e = Some t → After t now = false) post →
  foldl (endpoint_step After) acc post = acc.
Proof.
  intros Hne Hnow. induction 1 as [|e post He Hpost IH]; [done|]. cbn.
  destruct (endpoint_step_inv acc e) as [->|(t & Ht & Hs & Hacc & _)]; [done|].
  rewrite Hnow, (He t Ht), orb_false_r in Hacc. by apply is_empty_true in Hacc.
Qed.

Lemma endpoint_text_encode a b c d port :
  [a; b; c; d] ≠ [0; 0; 0; 0] → 1 <= port <= 65535 →
  endpoint_text (encodeEndpoint [a; b; c; d] port) = Some ("http://" +:+ dotted a b c d +:+ ":" +:+ Itoa port).
Proof.
  intros Hne Hp. unfold endpoint_text, encodeEndpoint, oem_at, byte_of. cbn [take app nth].
  assert (Z.lor (Z.shiftl (Z.shiftr port 8 mod 256) 8) (port mod 256) = port) as ->.
  { rewrite bytes_shift. pose proof (Z.div_mod port 256 ltac:(lia)). pose proof (Z.mod_pos_bound port 256 ltac:(lia)).
    rewrite (Z.mod_small (port / 256) 256) by lia. rewrite lor_shift_byte; [lia|split; lia|lia]. }
  destruct ((a =? 0) && (b =? 0) && (c =? 0) && (d =? 0)) eqn:E.
  { rewrite !andb_true_iff, !Z.eqb_eq in E. naive_solver. }
  rewrite (proj2 (Z.eqb_neq port 0)) by lia. unfold dotted. cbn [Join]. by rewrite !app_assoc_str.
Qed.

(** The agent phones home to the driver that powered its boot: when the
    driver has stamped its advertised address and port into the log, and every
    other driver's record there is older, what the agent looks up is the URL of
    exactly that address and port, wherever the record sits in the log and
    whatever else the log holds. *)
Theorem endpoint_reaches_agent now a b c d port pre post :
  [a; b; c; d] ≠ [0; 0; 0; 0] → 1 <= port <= 65535 →
  Forall (fun e => ∀ t, endpoint_stamp e = Some t → After now t = true) pre →
  Forall (fun e => ∀ t, endpoint_stamp e = Some t → After t now = false) post →
  driverEndpointFromSEL After (Some (pre ++ Some (endpointSEL now [a; b; c; d] port) :: post))
  = "http://" +:+ dotted a b c d +:+ ":" +:+ Itoa port.
Proof.
  intros Hne Hp Hpre Hpost. unfold driverEndpointFromSEL. rewrite foldl_app. cbn [foldl].
  destruct (endpoint_before now pre ("", "") (or_introl eq_refl) Hpre) as [Hb|Hb];
    set (acc := foldl _ _ pre) in *.
  all: assert (endpoint_step After acc (Some (endpointSEL now [a; b; c; d] port))
      = ("http://" +:+ dotted a b c d +:+ ":" +:+ Itoa port, now)) as ->
    by (unfold endpoint_step, endpointSEL; cbn [oem_ManufacturerID oem_OEMDefined oem_Timestamp];
        rewrite Z.eqb_refl; cbn [negb]; rewrite endpoint_text_encode by done;
        rewrite Hb; by rewrite ?orb_true_r).
  all: by rewrite (endpoint_after now).
Qed.

End Endpoint.

Lemma endpoint_reaches_agent_witness :
  driverEndpointFromSEL (fun a b => String.ltb b a)
    (Some [Some (endpointSEL "t1" [10; 0; 0; 9] 80); Some (gateSEL "t3" 1); Some (endpointSEL "t2" [192; 168; 1; 150] 3001)])
  = "http://192.168.1.150:3001".
Proof.
  refine (endpoint_reaches_agent (fun a b => String.ltb b a) "t2" 192 168 1 150 3001
    [Some (endpointSEL "t1" [10; 0; 0; 9] 80); Some (gateSEL "t3" 1)] [] _ _ _ _);
    [discriminate|lia| |by apply Forall_nil].
  repeat (apply Forall_cons; split; [intros t Ht; vm_compute in Ht; try discriminate Ht; injection Ht as <-; vm_compute; reflexivity|]).
  by apply Forall_nil.
Defined.
