(* ===== verification/AgentPreflight.v ===== *)
(** * The installer's preflight (internal/agent/preflight.go)

    The agent's conversation with the driver before a node is restored, as an
    interaction tree: its events are the injected side effects of
    [PreflightDeps] and the calls to the driver.  Times are nanoseconds; the
    residual skew is sent in seconds.  A hook that may be nil has a flag in
    [hooks]; logging is left out.  [agent.PreflightResult] has the fields of the
    orchestrator's record (DeployModel.v). *)
From S2P Require Import Prelude GoStrings DeployModel ClusterModel Generator Interact.
From ITree Require Import ITree.
From Stdlib Require Import QArith.

Open Scope string_scope.
Open Scope list_scope.
Open Scope Z_scope.

(** ** Requests and answers *)

Record CheckinRequest : Type := mkCheckinRequest { cq_MACs : list string; cq_Serial : string }.

Record PreflightCheckinResponse : Type := mkPreflightCheckinResponse {
  pc_Appointed : bool;
  pc_ClusterID : string;
  pc_Hostname : string;
  pc_ServerTimeUTC : string;
  pc_Bundle : PreflightBundle;
  pc_SnapshotURL : string;
  pc_IsMaster : bool;
  pc_OptOutRepair : bool;
  pc_SimulateAirgap : bool;
  pc_OSDisk : string;
  pc_Inspect : bool
}.

(** The answer of a node that is configured while it waits. *)
Definition unappointed : PreflightCheckinResponse :=
  mkPreflightCheckinResponse false "" "" "" (mkPreflightBundle "" [] []) "" false false false "" false.

Record PreflightReportRequest : Type := mkPreflightReportRequest {
  pq_ClusterID : string;
  pq_Hostname : string;
  pq_CarrierOK : bool;
  pq_ClockSkewSec : Q;
  pq_Matrix : list PreflightResult;
  pq_Passed : bool
}.

Record hooks : Type := mkHooks {
  has_Configured : bool;
  has_SetClock : bool;
  has_FetchSnapshot : bool;
  has_StampEnv : bool;
  has_FetchSetReady : bool;
  has_WriteSEL : bool;
  has_ConfigureTopology : bool;
  has_CarrierChecks : bool;
  has_Carrier : bool;
  has_SaveReport : bool;
  has_WaitGate : bool
}.

(** The injected side effects, and the calls to the driver.  A call to the
    driver answers [None] when it failed or its body did not decode. *)
Inductive pfE : Type → Type :=
| Identity : pfE (list string * string)
| Configured : pfE bool
| CtxDone : pfE (option string)
| Now : pfE Z
| SetClock (t : Z) : pfE (option string)
| FetchSnapshot (url : string) : pfE (option string)
| StampEnv (host cluster : string) (isMaster : bool) (osDisk : string) (optOutRepair simulateAirgap : bool) : pfE unit
| FetchSetReady (clusterID : string) : pfE (option string)
| WriteSEL (phase result detail : string) : pfE (option string)
| ConfigureTopology (b : PreflightBundle) : pfE (string * option string)
| CarrierChecks (b : PreflightBundle) : pfE (list PreflightResult)
| Carrier (b : PreflightBundle) : pfE (bool * string)
| Probe (target : string) : pfE bool
| SaveReport (r : PreflightReportRequest) : pfE unit
| WaitGate : pfE bool
| PostCheckin (req : CheckinRequest) : pfE (option PreflightCheckinResponse)
| PostReport (r : PreflightReportRequest) : pfE (option Z)
| PostGreenlight (clusterID hostname : string) : pfE (option bool)
| Sleep : pfE unit.

Notation P := (itree pfE).

Definition call {X} (e : pfE X) : P X := ITree.trigger e.

(** [d.F != nil && d.F()]. *)
Definition when (has : bool) {X} (dflt : X) (e : pfE X) : P X := if has then call e else mret dflt.

(** [fmt.Errorf]'s two sentinel results of [RunPreflight]. *)
Definition ErrInspect : string := "inspect boot".

Section Agent.
Context (d : hooks).
(** [time.Parse(RFC3339, _)] in nanoseconds, and the two numbers of the
    clock-skew row as [%+.2f] prints them. *)
Context (parseTime : string → option Z) (skewDetail : Z → Z → string).

Definition configured : P bool := when d.(has_Configured) false Configured.

Definition sel (phase result detail : string) : P unit :=
  if d.(has_WriteSEL) then _ ← call (WriteSEL phase result detail); mret () else mret ().

Definition saveReport (r : PreflightReportRequest) : P unit := when d.(has_SaveReport) () (SaveReport r).

(** ** [preflightCheckinUntilAppointed] *)

Definition checkin_turn (req : CheckinRequest) (_ : unit) : P (unit + result PreflightCheckinResponse) :=
  done ← call CtxDone;
  match done with
  | Some e => mret (inr (Err e))
  | None =>
      c ← configured;
      if c : bool then mret (inr (Ok unappointed))
      else
        resp ← call (PostCheckin req);
        match resp with
        | Some out =>
            if out.(pc_Appointed) || out.(pc_Inspect) then mret (inr (Ok out))
            else _ ← call Sleep; mret (inl ())
        | None => _ ← call Sleep; mret (inl ())
        end
  end.

Definition preflightCheckinUntilAppointed (req : CheckinRequest) : P (result PreflightCheckinResponse) :=
  ITree.iter (checkin_turn req) ().

(** ** [syncClock]: the skew that remains, and the offset that was corrected *)

Definition syncClock (serverTimeUTC : string) : P (Z * Z) :=
  match parseTime serverTimeUTC with
  | None => mret (0, 0)
  | Some t =>
      now ← call Now;
      let corrected := now - t in
      if negb d.(has_SetClock) then mret (corrected, 0)
      else
        e ← call (SetClock t);
        match e with
        | Some _ => mret (corrected, 0)
        | None => now ← call Now; mret (now - t, corrected)
        end
  end.

(** A duration in seconds, exactly. *)
Definition Seconds (ns : Z) : Q := Qmake ns 1000000000.

(** ** [pingTargets] *)

Record pingTarget : Type := mkPingTarget { pt_label : string; pt_ip : string }.

Definition pingTargets (b : PreflightBundle) : list pingTarget :=
  ((fun p => mkPingTarget ("peer " +:+ p.(pp_Hostname) +:+ " " +:+ p.(pp_Role) +:+ " " +:+ p.(pp_IP)) p.(pp_IP))
     <$> b.(pb_Peers))
  ++ (b.(pb_Links) ≫= fun l =>
        if is_empty l.(pl_Gateway) then [] else [mkPingTarget ("gateway " +:+ l.(pl_Gateway)) l.(pl_Gateway)]).

(** ** One round *)

(** What [RunPreflight] keeps of a check-in while it loops over rounds. *)
Record visit : Type := mkVisit {
  v_resp : PreflightCheckinResponse;
  v_skew : Z;
  v_corrected : Z;
  v_prefetch : PreflightResult;
  v_topoErr : string;
  v_topoDiag : string
}.

Definition carrier_check (b : PreflightBundle) : P (bool * string * list PreflightResult) :=
  if d.(has_CarrierChecks) then
    rows ← call (CarrierChecks b);
    mret (forallb pr_OK rows,
          match find (fun r => negb r.(pr_OK)) rows with Some r => r.(pr_Target) +:+ ": " +:+ r.(pr_Detail) | None => "" end,
          rows)
  else if d.(has_Carrier) then r ← call (Carrier b); mret (r.1, r.2, [])
  else mret (true, "", []).

Fixpoint probe_all (ts : list pingTarget) : P (bool * list PreflightResult) :=
  match ts with
  | [] => mret (true, [])
  | t :: ts =>
      ok ← call (Probe t.(pt_ip));
      r ← probe_all ts;
      mret (ok && r.1, mkPreflightResult t.(pt_label) ok (if ok : bool then "reachable" else "unreachable") :: r.2)
  end.

Definition topology_row (v : visit) : list PreflightResult :=
  if is_empty v.(v_topoDiag) && is_empty v.(v_topoErr) then []
  else
    let dd := if is_empty v.(v_topoErr) then v.(v_topoDiag) else v.(v_topoErr) +:+ " | " +:+ v.(v_topoDiag) in
    [mkPreflightResult "topology" (is_empty v.(v_topoErr)) dd].

(** [skew < 5 && skew > -5], in seconds. *)
Definition skew_row (v : visit) : PreflightResult :=
  mkPreflightResult "clock-skew" ((v.(v_skew) <? 5000000000) && (-5000000000 <? v.(v_skew)))
    (skewDetail v.(v_skew) v.(v_corrected)).

(** The outcome of a round: go around, check in again, or return. *)
Inductive next : Type := Again (baseline : Z) | Recheck (baseline : Z) | Return (err : option string).

Definition greenlight (v : visit) : P (option bool) :=
  call (PostGreenlight v.(v_resp).(pc_ClusterID) v.(v_resp).(pc_Hostname)).

(** After the report: green light 1, or what failed, then the pause. *)
Definition pass_gate (v : visit) (baseline : Z) : P next :=
  _ ← sel "preflight" "ok" "";
  _ ← greenlight v;
  if d.(has_WaitGate) then
    go ← call WaitGate;
    if go : bool then _ ← sel "restoring" "ok" ""; mret (Return None)
    else _ ← call Sleep; mret (Again baseline)
  else
    clear ← greenlight v;
    match clear with
    | Some true => mret (Return None)
    | _ => _ ← call Sleep; mret (Again baseline)
    end.

Definition round (v : visit) (baseline : Z) : P next :=
  let resp := v.(v_resp) in
  done ← call CtxDone;
  match done with
  | Some e => mret (Return (Some e))
  | None =>
      c ← configured;
      if c : bool then mret (Return None)
      else
        car ← carrier_check resp.(pc_Bundle);
        let '(carrierOK, cdetail, carrierRows) := car in
        probes ← probe_all (pingTargets resp.(pc_Bundle));
        let '(allReach, probeRows) := probes in
        let matrix := topology_row v ++ carrierRows ++ probeRows ++ [skew_row v; v.(v_prefetch)] in
        let passed := carrierOK && allReach && is_empty v.(v_topoErr) in
        let report := mkPreflightReportRequest resp.(pc_ClusterID) resp.(pc_Hostname) carrierOK
                        (Seconds v.(v_skew)) matrix passed in
        _ ← saveReport report;
        seq ← call (PostReport report);
        let rekicked := match seq with Some s => negb (baseline =? -1) && (baseline <? s) | None => false end in
        let baseline := match seq with
                        | Some s => if (baseline =? -1) || (baseline <? s) then s else baseline
                        | None => baseline
                        end in
        if rekicked then _ ← sel "preflight" "rekick" ""; mret (Recheck baseline)
        else if passed then pass_gate v baseline
        else
          _ ← (if negb carrierOK then sel "preflight" "carrier-fail" cdetail else mret ());
          _ ← call Sleep; mret (Again baseline)
  end.

(** The inner [for], until it returns or goes back to [recheck]. *)
Definition rounds (v : visit) (baseline : Z) : P (Z + option string) :=
  ITree.iter (fun baseline =>
    n ← round v baseline;
    mret (match n with
          | Again b => inl b
          | Recheck b => inr (inl b)
          | Return e => inr (inr e)
          end)) baseline.

(** ** [RunPreflight] *)

Definition prefetch (url : string) : P PreflightResult :=
  if d.(has_FetchSnapshot) && negb (is_empty url) then
    e ← call (FetchSnapshot url);
    mret (match e with
          | Some e => mkPreflightResult "snapshot-prefetch" false (e +:+ " (OS phase will retry the download)")
          | None => mkPreflightResult "snapshot-prefetch" true "staged to RAM"
          end)
  else mret (mkPreflightResult "snapshot-prefetch" true "not attempted").

(** The SEL self-test and the first report, while the first network is up. *)
Definition report_started (resp : PreflightCheckinResponse) (skew baseline : Z) : P Z :=
  e ← (if d.(has_WriteSEL) then call (WriteSEL "preflight" "started" "") else mret None);
  let selErr := default "" e in
  let started := mkPreflightReportRequest resp.(pc_ClusterID) resp.(pc_Hostname) false (Seconds skew)
                   [mkPreflightResult "preflight-started" true "";
                    mkPreflightResult "sel-capable" (is_empty selErr) selErr] false in
  _ ← saveReport started;
  seq ← call (PostReport started);
  mret (match seq with Some s => if baseline =? -1 then s else baseline | None => baseline end).

(** The transient topology: its diagnostic and its error. *)
Definition stand_up (b : PreflightBundle) : P (string * string) :=
  if d.(has_ConfigureTopology) then
    r ← call (ConfigureTopology b);
    match r.2 with
    | Some e => _ ← sel "preflight" "topology-error" e; mret (r.1, e)
    | None => mret (r.1, "")
    end
  else mret ("", "").

(** From one check-in to the next one, or to the end. *)
Definition recheck (req : CheckinRequest) (baseline : Z) : P (Z + option string) :=
  r ← preflightCheckinUntilAppointed req;
  match r with
  | Err e => mret (inr (Some e))
  | Ok resp =>
      if resp.(pc_Inspect) then mret (inr (Some ErrInspect))
      else if negb resp.(pc_Appointed) then mret (inr None)
      else
        sk ← syncClock resp.(pc_ServerTimeUTC);
        pre ← prefetch resp.(pc_SnapshotURL);
        _ ← when d.(has_StampEnv) () (StampEnv resp.(pc_Hostname) resp.(pc_ClusterID) resp.(pc_IsMaster)
               resp.(pc_OSDisk) resp.(pc_OptOutRepair) resp.(pc_SimulateAirgap));
        _ ← when d.(has_FetchSetReady) None (FetchSetReady resp.(pc_ClusterID));
        baseline ← report_started resp sk.1 baseline;
        topo ← stand_up resp.(pc_Bundle);
        rounds (mkVisit resp sk.1 sk.2 pre topo.2 topo.1) baseline
  end.

(** [None]: cleared to restore, or nothing to do. *)
Definition RunPreflight : P (option string) :=
  c ← configured;
  if c : bool then mret None
  else
    id ← call Identity;
    ITree.iter (recheck (mkCheckinRequest id.1 id.2)) (-1).

End Agent.

(** ** A monitor for the conversation

    It keeps what the agent has learnt since its last check-in and in the round
    at hand, and stops on a report or a gate that those facts do not support. *)

Record facts : Type := mkFacts {
  f_resp : option PreflightCheckinResponse;
  f_stood_up : bool;             (* [ConfigureTopology] was called in this visit *)
  f_topo : bool;                 (* ... and answered no error *)
  f_carrier : bool;              (* the links of this round are up *)
  f_probed : list (string * bool); (* the pings of this round, newest first *)
  f_passed : bool;               (* this round was reported as passed *)
  f_go : bool;                   (* ... and green light 1 was given *)
  f_off : bool                   (* the node is configured *)
}.

Definition start_facts : facts := mkFacts None false false false [] false false false.

Section Monitor.
Context (d : hooks).

Definition must (b : bool) (f : facts) : option facts := if b then Some f else None.

Definition all_reached (f : facts) : bool :=
  match f.(f_resp) with
  | Some r => bool_decide (f.(f_probed) = reverse ((fun t => (t.(pt_ip), true)) <$> pingTargets r.(pc_Bundle)))
  | None => false
  end.

Definition names_node (f : facts) (cluster host : string) : bool :=
  match f.(f_resp) with
  | Some r => (cluster =? r.(pc_ClusterID))%string && (host =? r.(pc_Hostname))%string
  | None => false
  end.

Definition observe_fact (f : facts) (o : obs (E := pfE)) : option facts :=
  let '(mkFacts resp up topo carr probed passed gl off) := f in
  match o with
  | Obs e x =>
      match e in pfE X return X → option facts with
      | Configured => fun c => Some (mkFacts resp up topo carr probed passed gl (off || c))
      | PostCheckin _ => fun r =>
          Some (match r with
                | Some r => mkFacts (Some r) false (negb d.(has_ConfigureTopology)) false [] false false off
                | None => f
                end)
      | CtxDone => fun _ =>
          Some (mkFacts resp up topo (negb (d.(has_CarrierChecks) || d.(has_Carrier))) [] false false off)
      | FetchSnapshot _ => fun _ => must (negb up) f
      | StampEnv host cluster _ _ _ _ => fun _ => must (negb up && names_node f cluster host) f
      | ConfigureTopology _ => fun r =>
          Some (mkFacts resp true (is_empty (default "" r.2)) carr probed passed gl off)
      | CarrierChecks _ => fun rows => Some (mkFacts resp up topo (forallb pr_OK rows) probed passed gl off)
      | Carrier _ => fun r => Some (mkFacts resp up topo r.1 probed passed gl off)
      | Probe t => fun ok => Some (mkFacts resp up topo carr ((t, ok) :: probed) passed gl off)
      | PostReport r => fun _ =>
          must (names_node f r.(pq_ClusterID) r.(pq_Hostname)
                && (negb r.(pq_Passed) || (topo && carr && all_reached f)))
               (mkFacts resp up topo carr probed r.(pq_Passed) gl off)
      | WaitGate => fun g => must (d.(has_WaitGate) && passed) (mkFacts resp up topo carr probed passed g off)
      | PostGreenlight _ _ => fun c =>
          must passed (mkFacts resp up topo carr probed passed
                         (negb d.(has_WaitGate) && match c with Some true => true | _ => false end) off)
      | WriteSEL phase _ _ => fun _ => must (negb (phase =? "restoring")%string || gl) f
      | _ => fun _ => Some f
      end x
  end.

Notation psafe := (safe observe_fact).

Context (parseTime : string → option Z) (skewDetail : Z → Z → string).

Lemma safe_configured {A} f (k : bool → P A) Q :
  psafe f (k false) Q →
  (∀ f', f'.(f_off) = true → psafe f' (k true) Q) →
  psafe f (c ← configured d; k c) Q.
Proof.
  intros Hf Ht. unfold configured, when. destruct (has_Configured d); [|by apply safe_mret].
  apply safe_call. destruct f as [resp up topo carr probed passed gl off]. intros [].
  - eexists. split; [done|]. apply Ht. cbn. by rewrite orb_true_r.
  - eexists. split; [cbn; by rewrite orb_false_r|done].
Qed.

(** A record of ours on the BMC is free, but "restoring" needs the gate. *)
Lemma safe_sel {A} f phase result detail (k : unit → P A) Q :
  (phase = "restoring" → f.(f_go) = true) → psafe f (k ()) Q →
  psafe f (x ← sel d phase result detail; k x) Q.
Proof.
  intros Hg Hk. unfold sel. destruct (has_WriteSEL d); [|by apply safe_mret].
  apply (safe_seq _ _ _ _ (fun f' _ => f' = f)); [|by intros ? [] ->].
  apply safe_skip; [|by intros; apply safe_done]. intros x. cbn. destruct f; cbn in *.
  destruct (String.eqb_spec phase "restoring"); [by rewrite Hg|done].
Qed.

Lemma safe_when {X A} f has (dflt : X) (e : pfE X) (k : X → P A) Q :
  (∀ x, observe_fact f (Obs e x) = Some f) → (∀ x, psafe f (k x) Q) →
  psafe f (x ← when has dflt e; k x) Q.
Proof. intros H Hk. unfold when. destruct has; [by apply safe_skip|by apply safe_mret]. Qed.

(** ** Each part, against the monitor *)

Lemma safe_checkin req (f : facts) :
  psafe f (preflightCheckinUntilAppointed d req)
    (fun f' r => match r with
                 | Err _ => True
                 | Ok resp => (resp.(pc_Appointed) = false ∧ resp.(pc_Inspect) = false ∧ f'.(f_off) = true)
                              ∨ (resp.(pc_Appointed) || resp.(pc_Inspect) = true
                                 ∧ ∃ off, f' = mkFacts (Some resp) false (negb d.(has_ConfigureTopology)) false [] false false off)
                 end).
Proof.
  apply (safe_iter _ (fun _ _ => True)); [|done]. intros [] [resp up topo carr probed passed gl off] _.
  unfold checkin_turn. apply safe_call. intros [e|]; (eexists; split; [reflexivity|]); [by apply safe_done|].
  apply safe_configured; [|by intros; apply safe_done; left].
  apply safe_call. intros [out|]; (eexists; split; [reflexivity|]).
  - destruct (pc_Appointed out || pc_Inspect out) eqn:Ho.
    + apply safe_done. right. split; [done|]. by eexists.
    + apply safe_skip; [done|]. intros. by apply safe_done.
  - apply safe_skip; [done|]. intros. by apply safe_done.
Qed.

Lemma safe_probes ts resp up topo carr probed passed gl off :
  psafe (mkFacts resp up topo carr probed passed gl off) (probe_all ts)
    (fun f' r => ∃ probed', f' = mkFacts resp up topo carr (probed' ++ probed) passed gl off
       ∧ (r.1 = true → probed' = reverse ((fun t => (t.(pt_ip), true)) <$> ts))).
Proof.
  revert probed. induction ts as [|t ts IH]; intros probed; cbn [probe_all].
  { apply safe_done. by exists []. }
  apply safe_call. intros ok. eexists. split; [reflexivity|].
  eapply safe_seq; [apply IH|]. intros f' r (probed' & -> & Hr). apply safe_done.
  exists (probed' ++ [(pt_ip t, ok)]). cbn [fst]. split; [by rewrite <- app_assoc|].
  intros [-> Hr1]%andb_true_iff. rewrite (Hr Hr1). by rewrite fmap_cons, reverse_cons.
Qed.

Lemma safe_carrier b resp up topo probed passed gl off :
  psafe (mkFacts resp up topo (negb (d.(has_CarrierChecks) || d.(has_Carrier))) probed passed gl off)
    (carrier_check d b)
    (fun f' r => f' = mkFacts resp up topo r.1.1 probed passed gl off).
Proof.
  unfold carrier_check. destruct (has_CarrierChecks d), (has_Carrier d); cbn [orb negb];
    try (apply safe_call; intros x; eexists; (split; [reflexivity|])); by apply safe_done.
Qed.

(** The facts of a visit, between two rounds. *)
Definition visiting (v : visit) (f : facts) : Prop :=
  f.(f_resp) = Some v.(v_resp) ∧ f.(f_topo) = is_empty v.(v_topoErr).

Definition round_post (v : visit) (f : facts) (n : next) : Prop :=
  match n with
  | Return None => f.(f_off) = true ∨ (f.(f_passed) = true ∧ f.(f_go) = true)
  | Return (Some _) => True
  | _ => visiting v f
  end.

Lemma safe_pass_gate v baseline resp up topo carr probed off :
  resp = Some v.(v_resp) → topo = is_empty v.(v_topoErr) →
  psafe (mkFacts resp up topo carr probed true false off) (pass_gate d v baseline) (round_post v).
Proof.
  intros -> ->. unfold pass_gate, greenlight. apply safe_sel; [done|].
  apply safe_call. intros c1. eexists. split; [reflexivity|]. destruct (has_WaitGate d) eqn:Hw; cbn [negb andb].
  - apply safe_call. intros []; (eexists; split; [cbn; rewrite Hw; reflexivity|]).
    + apply safe_sel; [done|]. apply safe_done. by right.
    + apply safe_skip; [done|]. intros. by apply safe_done.
  - apply safe_call. intros [[]|]; (eexists; split; [reflexivity|]); rewrite ?Hw.
    + apply safe_done. by right.
    + apply safe_skip; [done|]. intros. by apply safe_done.
    + apply safe_skip; [done|]. intros. by apply safe_done.
Qed.

Lemma safe_round v baseline f :
  visiting v f → psafe f (round d skewDetail v baseline) (round_post v).
Proof.
  destruct f as [resp up topo carr probed passed gl off]. intros [Hr Ht]. cbn in Hr, Ht. subst resp topo.
  unfold round. apply safe_call. intros [e|]; (eexists; split; [reflexivity|]); [by apply safe_done|].
  apply safe_configured; [|by intros; apply safe_done; left].
  eapply safe_seq; [apply safe_carrier|]. intros f' [[carrierOK cdetail] rows] ->.
  eapply safe_seq; [apply safe_probes|]. intros f' [allReach probeRows] (probed' & -> & Hp).
  rewrite app_nil_r. cbn [fst] in Hp |- *. cbv zeta. unfold saveReport. apply safe_when; [done|]. intros _.
  apply safe_call. intros seq. cbn [observe_fact pq_ClusterID pq_Hostname pq_Passed names_node f_resp].
  rewrite !String.eqb_refl. cbn [andb].
  assert (negb (carrierOK && allReach && is_empty (v_topoErr v))
      || (is_empty (v_topoErr v) && carrierOK
          && all_reached (mkFacts (Some (v_resp v)) up (is_empty (v_topoErr v)) carrierOK probed' false false off)) = true) as ->.
  { destruct carrierOK, allReach, (is_empty (v_topoErr v)); try done. cbn. rewrite (Hp eq_refl).
    by apply bool_decide_eq_true. }
  eexists. split; [reflexivity|]. destruct (match seq with Some s => _ | None => false end).
  - apply safe_sel; [done|]. by apply safe_done.
  - destruct (carrierOK && allReach && is_empty (v_topoErr v)); [by apply safe_pass_gate|].
    destruct carrierOK; cbn [negb].
    + apply safe_mret. apply safe_skip; [done|]. intros. by apply safe_done.
    + apply safe_sel; [done|]. apply safe_skip; [done|]. intros. by apply safe_done.
Qed.

Lemma safe_syncClock {A} f s (k : Z * Z → P A) Q :
  (∀ x, psafe f (k x) Q) → psafe f (x ← syncClock d parseTime s; k x) Q.
Proof.
  intros Hk. apply (safe_seq _ _ _ _ (fun f' _ => f' = f)); [|by intros ? ? ->]. unfold syncClock.
  destruct (parseTime s) as [t|]; [|by apply safe_done]. apply safe_skip; [by destruct f|]. intros now.
  destruct (has_SetClock d); cbn [negb]; [|by apply safe_done]. apply safe_skip; [by destruct f|].
  intros [e|]; [by apply safe_done|]. apply safe_skip; [by destruct f|]. intros. by apply safe_done.
Qed.

Definition ends_well (f : facts) (r : option string) : Prop :=
  r = None → f.(f_off) = true ∨ (f.(f_passed) = true ∧ f.(f_go) = true).

Lemma safe_rounds v baseline f :
  visiting v f →
  psafe f (rounds d skewDetail v baseline) (fun f' r => match r with inl _ => True | inr e => ends_well f' e end).
Proof.
  intros Hv. apply (safe_iter _ (fun _ => visiting v)); [|exact Hv]. intros b g Hg.
  eapply safe_seq; [by apply safe_round|]. intros f' n Hn. apply safe_done.
  destruct n as [b'|b'|[e|]]; cbn in *; [done|done|by intros ?|by intros _].
Qed.

Lemma safe_recheck req baseline f :
  psafe f (recheck d parseTime skewDetail req baseline)
    (fun f' r => match r with inl _ => True | inr e => ends_well f' e end).
Proof.
  unfold recheck. eapply safe_seq; [apply safe_checkin|]. intros f' [resp|e] Hr; [|by apply safe_done].
  destruct (pc_Inspect resp) eqn:Hi; [by apply safe_done|].
  destruct Hr as [(Ha & _ & Hoff)|(Ha & off & ->)].
  { rewrite Ha. cbn [negb]. apply safe_done. intros _. by left. }
  rewrite orb_false_r in Ha. rewrite Ha. cbn [negb]. apply safe_syncClock. intros sk.
  eapply (safe_seq _ _ _ _ (fun f' _ => f' = mkFacts (Some resp) false (negb d.(has_ConfigureTopology)) false [] false false off)).
  { unfold prefetch. destruct (_ && _); [|by apply safe_done]. apply safe_skip; [done|]. intros. by apply safe_done. }
  intros f' pre ->. apply safe_when.
  { intros []. cbn. by rewrite !String.eqb_refl. }
  intros _. apply safe_when; [done|]. intros _.
  eapply (safe_seq _ _ _ _ (fun f' _ => f' = mkFacts (Some resp) false (negb d.(has_ConfigureTopology)) false [] false false off)).
  { unfold report_started.
    apply (safe_seq _ _ _ _ (fun f' _ => f' = mkFacts (Some resp) false (negb d.(has_ConfigureTopology)) false [] false false off)).
    - destruct (has_WriteSEL d); [|by apply safe_done].
      intros n l o H. eapply (safe_trigger observe_fact); [|exact H]. intros x. by eexists.
    - intros f' e ->. unfold saveReport. apply safe_when; [done|]. intros _. apply safe_call. intros seq.
      eexists. split; [|by apply safe_done]. cbn. by rewrite !String.eqb_refl. }
  intros f' b ->.
  eapply (safe_seq _ _ _ _ (fun f' r => ∃ up, f' = mkFacts (Some resp) up (is_empty r.2) false [] false false off)).
  { unfold stand_up. destruct (has_ConfigureTopology d); [|apply safe_done; by eexists].
    apply safe_call. intros [diag [e|]]; (eexists; split; [reflexivity|]); cbn [fst snd].
    - apply safe_sel; [done|]. apply safe_done. by eexists.
    - apply safe_done. by eexists. }
  intros f' [diag err] [up ->]. by apply safe_rounds.
Qed.

Lemma safe_RunPreflight f : psafe f (RunPreflight d parseTime skewDetail) ends_well.
Proof.
  unfold RunPreflight. apply safe_configured.
  - apply safe_skip; [by destruct f|]. intros id. apply (safe_iter _ (fun _ _ => True)); [|done].
    intros b g _. apply safe_recheck.
  - intros f' Hf. apply safe_done. intros _. by left.
Qed.

End Monitor.

(** ** What the facts say of the conversation *)

Definition said {X} (e : pfE X) (x : X) (l : list obs) : Prop := In (Obs e x) l.

Definition cleared_by (d : hooks) (l : list obs) : Prop :=
  if d.(has_WaitGate) then said WaitGate true l else ∃ c h, said (PostGreenlight c h) (Some true) l.

Definition reported_passed (l : list obs) : Prop := ∃ r x, said (PostReport r) x l ∧ r.(pq_Passed) = true.

Definition explained (d : hooks) (f : facts) (l : list obs) : Prop :=
  (f.(f_off) = true → said Configured true l)
  ∧ (f.(f_go) = true → cleared_by d l)
  ∧ (f.(f_passed) = true → reported_passed l).

Lemma explained_more d f l l' :
  explained d f l → (∀ o, In o l → In o l') → explained d f l'.
Proof.
  intros (H1 & H2 & H3) Hl. unfold explained, cleared_by, reported_passed, said in *. split_and!.
  - auto.
  - intros Hg. specialize (H2 Hg). destruct (has_WaitGate d); [by apply Hl|].
    destruct H2 as (c & h & H2). exists c, h. by apply Hl.
  - intros Hp. destruct (H3 Hp) as (r & x & Hr & Hpr). exists r, x. split; [by apply Hl|done].
Qed.

Lemma explained_step d f o f' l :
  explained d f l → observe_fact d f o = Some f' → explained d f' (l ++ [o]).
Proof.
  intros He Hs. assert (In o (l ++ [o])) as Ho by (apply in_or_app; right; by left).
  assert (explained d f (l ++ [o])) as Hl.
  { eapply explained_more; [exact He|]. intros o' Ho'. apply in_or_app. by left. }
  clear He. generalize dependent (l ++ [o]). clear l. intros l Ho Hl.
  destruct Hl as (H1 & H2 & H3). destruct f as [resp up topo carr probed passed gl off], o as [X e x].
  cbn [f_off f_go f_passed] in H1, H2, H3.
  destruct e; cbn in Hs; unfold must in Hs; repeat case_match; simplify_eq; unfold explained;
    cbn [f_off f_go f_passed]; split_and!; try done.
  - destruct x; [intros _; exact Ho|rewrite orb_false_r; exact H1].
  - intros ->. unfold cleared_by. apply andb_true_iff in H as [-> _]. exact Ho.
  - intros Hp. by exists r, x.
  - intros [Hw _]%andb_true_iff. apply negb_true_iff in Hw. unfold cleared_by. rewrite Hw.
    by exists clusterID, hostname.
  - by rewrite andb_false_r.
  - by rewrite andb_false_r.
Qed.

Lemma explained_run d l f :
  mrun (observe_fact d) start_facts l = Some f → explained d f l.
Proof.
  revert f. induction l as [|o l IH] using rev_ind; intros f H.
  - cbn in H. injection H as <-. by split_and!.
  - rewrite mrun_app in H. destruct (mrun _ start_facts l) as [f1|]; [|done]. cbn in H.
    destruct (observe_fact d f1 o) as [f2|] eqn:E; [|done]. cbn in H. injection H as <-.
    eapply explained_step; [by apply IH|exact E].
Qed.

(** C5. The installer never goes on to restore unless the driver's gate is open
    and the node's network really works.  In every run of the agent's
    preflight, however long: each report names the node the last check-in
    appointed and says "passed" only if the topology of this visit came up
    without error, every link checked in this round is up and every peer and
    gateway of the bundle answered this round's ping; the gate is asked only
    after such a report, "restoring" is logged only after the gate opened, the
    snapshot is fetched before the network is reconfigured; and the agent
    returns "cleared" only if the node turned out to be configured already or
    the gate was opened, which with a BMC is the record on the BMC alone. *)
Theorem preflight_protocol d parseTime skewDetail n l o :
  runs n (RunPreflight d parseTime skewDetail) l o →
  (∃ f, mrun (observe_fact d) start_facts l = Some f)
  ∧ (o = Some None → said Configured true l ∨ (reported_passed l ∧ cleared_by d l)).
Proof.
  intros H. destruct (safe_RunPreflight d parseTime skewDetail start_facts n l o H) as (f & Hf & Ho).
  split; [by exists f|]. intros ->. destruct (explained_run _ _ _ Hf) as (H1 & H2 & H3).
  destruct (Ho eq_refl) as [Hoff|[Hp Hg]]; [left; by apply H1|right; split; [by apply H3|by apply H2]].
Qed.

(** ** A concrete conversation

    The driver appoints the node "cc1" of the pair; its peer does not answer the
    first round's ping and does from then on, and the gate opens at the second
    look.  The state counts pings and looks. *)

Definition all_hooks : hooks := mkHooks true true true true true true true true true true true.

Definition demo_answer : PreflightCheckinResponse :=
  mkPreflightCheckinResponse true "c" "cc1" "t" (default (mkPreflightBundle "" [] []) (BuildPreflightBundles demo_pair !! "cc1"))
    "http://d/cc1.snapshot" true false false "/dev/sda" false.

Definition demo_env (X : Type) (e : pfE X) (s : nat * nat) : X * (nat * nat) :=
  match e in pfE X return X * (nat * nat) with
  | Identity => (([], ""), s)
  | Configured => (false, s)
  | CtxDone => (None, s)
  | Now => (0, s)
  | SetClock _ => (None, s)
  | FetchSnapshot _ => (None, s)
  | StampEnv _ _ _ _ _ _ => ((), s)
  | FetchSetReady _ => (None, s)
  | WriteSEL _ _ _ => (None, s)
  | ConfigureTopology _ => (("up", None), s)
  | CarrierChecks _ => ([mkPreflightResult "IF.1" true ""], s)
  | Carrier _ => ((true, ""), s)
  | Probe _ => ((0 <? fst s)%nat, (S (fst s), snd s))
  | SaveReport _ => ((), s)
  | WaitGate => ((0 <? snd s)%nat, (fst s, S (snd s)))
  | PostCheckin _ => (Some demo_answer, s)
  | PostReport _ => (Some 0, s)
  | PostGreenlight _ _ => (None, s)
  | Sleep => ((), s)
  end.

Definition demo_conversation : list obs * option (option string) :=
  exec demo_env 200 (0%nat, 0%nat) (RunPreflight all_hooks (fun _ => Some 0) (fun _ _ => "")).

Example demo_cleared : demo_conversation.2 = Some None.
Proof. vm_compute. reflexivity. Qed.

Lemma preflight_protocol_witness :
  said Configured true demo_conversation.1
  ∨ (reported_passed demo_conversation.1 ∧ cleared_by all_hooks demo_conversation.1).
Proof.
  apply (proj2 (preflight_protocol all_hooks (fun _ => Some 0) (fun _ _ => "") 200 demo_conversation.1
    demo_conversation.2 (exec_runs demo_env 200 (0%nat, 0%nat) _))).
  vm_compute. reflexivity.
Defined.
