(* ===== verification/AgentRun.v ===== *)
(** * The in-band first boot (internal/agent/agent.go)

    The agent of a node without a staged snapshot: it waits to be appointed,
    checks the network, waits for its turn, applies the snapshot and reports at
    each step.  The conversation is an interaction tree over the injected side
    effects of [Deps] and the two calls to the driver. *)
From S2P Require Import Prelude GoStrings DeployModel Interact AgentPreflight.
From ITree Require Import ITree.

Open Scope string_scope.
Open Scope list_scope.
Open Scope Z_scope.

Record Preflight : Type := mkPreflight {
  ap_Gateway : string;
  ap_DNS : list string;
  ap_Server : string;
  ap_Peers : list string
}.

Record CheckinResponse : Type := mkCheckinResponse {
  ar_Appointed : bool;
  ar_Hold : bool;
  ar_ClusterID : string;
  ar_Hostname : string;
  ar_SnapshotURL : string;
  ar_ServerTimeUTC : string;
  ar_Preflight : Preflight
}.

Record ReportRequest : Type := mkReportRequest {
  rq_ClusterID : string;
  rq_Hostname : string;
  rq_State : string;
  rq_Message : string;
  rq_Preflight : list PreflightResult
}.

Inductive bootE : Type → Type :=
| BIdentity : bootE (list string * string)
| BConfigured : bootE bool
| BCtxDone : bootE (option string)
| BNow : bootE Z
| BSetClock (t : Z) : bootE (option string)
| BProbe (target : string) : bootE bool
| BApply (url : string) : bootE (option string)
| BCheckin (req : CheckinRequest) : bootE (option CheckinResponse)
| BReport (r : ReportRequest) : bootE unit
| BSleep : bootE unit.

Notation B := (itree bootE).
Definition ask {X} (e : bootE X) : B X := ITree.trigger e.

Definition ErrPreflightFailed : string := "network preflight failed".

Section Boot.
(** [d.Configured != nil]. *)
Context (hasConfigured : bool).
Context (parseTime : string → option Z) (skewText : Z → string).

Definition is_configured : B bool := if hasConfigured then ask BConfigured else mret false.

Definition never_appointed : CheckinResponse :=
  mkCheckinResponse false false "" "" "" "" (mkPreflight "" [] "" []).

(** The two waits: the same loop, with what it takes to leave it. *)
Definition wait_turn {A} (req : CheckinRequest) (stop : A) (accept : CheckinResponse → option A) (_ : unit)
    : B (unit + result A) :=
  done ← ask BCtxDone;
  match done with
  | Some e => mret (inr (Err e))
  | None =>
      c ← is_configured;
      if c : bool then mret (inr (Ok stop))
      else
        resp ← ask (BCheckin req);
        match resp ≫= accept with
        | Some a => mret (inr (Ok a))
        | None => _ ← ask BSleep; mret (inl ())
        end
  end.

Definition checkinUntilAppointed (req : CheckinRequest) : B (result CheckinResponse) :=
  ITree.iter (wait_turn req never_appointed (fun r => if r.(ar_Appointed) then Some r else None)) ().

Definition waitApplyGate (req : CheckinRequest) : B (result bool) :=
  ITree.iter (wait_turn req false (fun r => if r.(ar_Appointed) && negb r.(ar_Hold) then Some true else None)) ().

Definition waitConfigured : B unit :=
  if negb hasConfigured then mret ()
  else
    ITree.iter (fun _ : unit =>
      c ← ask BConfigured;
      if c : bool then mret (inr ())
      else
        done ← ask BCtxDone;
        match done with
        | Some _ => mret (inr ())
        | None => _ ← ask BSleep; mret (inl ())
        end) ().

(** The time-sync row, absent when the server's clock does not parse. *)
Definition time_sync (serverTimeUTC : string) : B (list PreflightResult) :=
  match parseTime serverTimeUTC with
  | None => mret []
  | Some t =>
      now ← ask BNow;
      e ← ask (BSetClock t);
      mret [match e with
            | Some e => mkPreflightResult "time sync" false e
            | None => mkPreflightResult "time sync" true ("corrected skew " +:+ skewText (now - t))
            end]
  end.

Definition probe (label target : string) : B (list PreflightResult) :=
  if is_empty target then mret []
  else ok ← ask (BProbe target); mret [mkPreflightResult (label +:+ " " +:+ target) ok ""].

Fixpoint probes (label : string) (targets : list string) : B (list PreflightResult) :=
  match targets with
  | [] => mret []
  | t :: ts => a ← probe label t; b ← probes label ts; mret (a ++ b)
  end.

(** Peers and name servers are for information; everything else gates. *)
Definition gating (r : PreflightResult) : bool :=
  negb (HasPrefix r.(pr_Target) "peer " || HasPrefix r.(pr_Target) "dns ").

Definition all_ok (rows : list PreflightResult) : bool := forallb (fun r => negb (gating r) || r.(pr_OK)) rows.

Definition report (r : CheckinResponse) (state message : string) (rows : list PreflightResult) : B unit :=
  ask (BReport (mkReportRequest r.(ar_ClusterID) r.(ar_Hostname) state message rows)).

Definition net_preflight (r : CheckinResponse) : B (list PreflightResult) :=
  let p := r.(ar_Preflight) in
  sync ← time_sync r.(ar_ServerTimeUTC);
  gw ← probe "gateway" p.(ap_Gateway);
  dns ← probes "dns" p.(ap_DNS);
  srv ← probe "server" p.(ap_Server);
  peers ← probes "peer" p.(ap_Peers);
  mret (sync ++ gw ++ dns ++ srv ++ peers).

Definition apply_snapshot (r : CheckinResponse) : B (option string) :=
  _ ← report r "applying" "" [];
  e ← ask (BApply r.(ar_SnapshotURL));
  match e with
  | Some e => _ ← report r "error" e []; mret (Some e)
  | None =>
      _ ← waitConfigured;
      _ ← report r "done" "snapshot applied" [];
      mret None
  end.

(** [Run]: [None] when it returns nil. *)
Definition Run : B (option string) :=
  c ← is_configured;
  if c : bool then mret None
  else
    id ← ask BIdentity;
    let req := mkCheckinRequest id.1 id.2 in
    a ← checkinUntilAppointed req;
    match a with
    | Err e => mret (Some e)
    | Ok resp =>
        if negb resp.(ar_Appointed) then mret None
        else
          rows ← net_preflight resp;
          _ ← report resp "net-preflight" "" rows;
          if negb (all_ok rows) then mret (Some ErrPreflightFailed)
          else
            g ← waitApplyGate req;
            match g with
            | Err e => mret (Some e)
            | Ok cleared => if negb cleared then mret None else apply_snapshot resp
            end
    end.

End Boot.

(** ** The protocol *)

(** Where the node is on its way, and with which appointment. *)
Inductive stage : Type :=
| Waiting
| Appointed (r : CheckinResponse)
| Checked (r : CheckinResponse) (ok : bool)   (* "net-preflight" was reported *)
| Released (r : CheckinResponse)              (* ... and then the hold was lifted *)
| Applying (r : CheckinResponse)
| Applied (r : CheckinResponse)
| Failed (r : CheckinResponse) (e : string)
| Done.

Record trail : Type := mkTrail { t_stage : stage; t_off : bool }.

Definition names (r : CheckinResponse) (q : ReportRequest) : bool :=
  (q.(rq_ClusterID) =? r.(ar_ClusterID))%string && (q.(rq_Hostname) =? r.(ar_Hostname))%string.

Definition report_move (s : stage) (q : ReportRequest) : option stage :=
  match s with
  | Appointed r => if names r q && (q.(rq_State) =? "net-preflight")%string
                   then Some (Checked r (all_ok q.(rq_Preflight))) else None
  | Released r => if names r q && (q.(rq_State) =? "applying")%string then Some (Applying r) else None
  | Applied r => if names r q && (q.(rq_State) =? "done")%string then Some Done else None
  | Failed r e => if names r q && (q.(rq_State) =? "error")%string && (q.(rq_Message) =? e)%string
                  then Some Done else None
  | _ => None
  end.

Definition checkin_move (s : stage) (r : CheckinResponse) : stage :=
  match s with
  | Waiting => if r.(ar_Appointed) then Appointed r else Waiting
  | Checked a true => if r.(ar_Appointed) && negb r.(ar_Hold) then Released a else Checked a true
  | s => s
  end.

(** The snapshot is applied only by a released node, and it is the appointed one. *)
Definition apply_move (s : stage) (url : string) (res : option string) : option stage :=
  match s with
  | Applying r =>
      if (url =? r.(ar_SnapshotURL))%string
      then Some (match res with None => Applied r | Some e => Failed r e end) else None
  | _ => None
  end.

Definition move (t : trail) (o : obs (E := bootE)) : option trail :=
  let '(mkTrail s off) := t in
  match o with
  | Obs e x =>
      match e in bootE X return X → option trail with
      | BConfigured => fun c => Some (mkTrail s (off || c))
      | BCheckin _ => fun r => Some (mkTrail (match r with Some r => checkin_move s r | None => s end) off)
      | BReport q => fun _ => (fun s => mkTrail s off) <$> report_move s q
      | BApply url => fun res => (fun s => mkTrail s off) <$> apply_move s url res
      | _ => fun _ => Some t
      end x
  end.

Section Proof.
Context (hasConfigured : bool) (parseTime : string → option Z) (skewText : Z → string).

Notation bsafe := (safe move).

Lemma safe_is_configured {A} s off (k : bool → B A) Q :
  bsafe (mkTrail s off) (k false) Q → bsafe (mkTrail s true) (k true) Q →
  bsafe (mkTrail s off) (c ← is_configured hasConfigured; k c) Q.
Proof.
  intros Hf Ht. unfold is_configured. destruct hasConfigured; [|by apply safe_mret].
  apply safe_call. intros []; (eexists; split; [reflexivity|]); rewrite ?orb_true_r, ?orb_false_r; done.
Qed.

(** The two waits keep the stage until the answer they wait for comes in. *)
Lemma safe_wait {A} req (stop : A) accept s off :
  (∀ r, accept r = None → checkin_move s r = s) →
  bsafe (mkTrail s off) (ITree.iter (wait_turn hasConfigured req stop accept) ())
    (fun t' res => match res with
                   | Err _ => True
                   | Ok a => t' = mkTrail s true ∧ a = stop
                             ∨ ∃ r off', accept r = Some a ∧ t' = mkTrail (checkin_move s r) off'
                   end).
Proof.
  intros Hs. apply (safe_iter _ (fun _ t => ∃ off, t = mkTrail s off)); [|by exists off].
  clear off. intros [] _ [off ->]. unfold wait_turn.
  apply safe_call. intros [e|]; (eexists; split; [reflexivity|]); [by apply safe_done|].
  apply safe_is_configured; [|by apply safe_done; left].
  apply safe_call. intros [r|]; (eexists; split; [reflexivity|]); cbn [mbind option_bind].
  - destruct (accept r) as [a|] eqn:Ha.
    + apply safe_done. right. by exists r, off.
    + rewrite (Hs r Ha). apply safe_skip; [done|]. intros. apply safe_done. by exists off.
  - apply safe_skip; [done|]. intros. apply safe_done. by exists off.
Qed.

(** Looking at the clock and the network changes no stage. *)
Definition quiet {A} (t : B A) : Prop := ∀ m, bsafe m t (fun m' _ => m' = m).

Lemma quiet_seq {A A'} (t : B A) (k : A → B A') : quiet t → (∀ a, quiet (k a)) → quiet (a ← t; k a).
Proof. intros Ht Hk m. eapply safe_seq; [apply Ht|]. intros m' a ->. apply Hk. Qed.

Lemma quiet_ret {A} (a : A) : quiet (mret a).
Proof. intros m. by apply safe_done. Qed.

Lemma quiet_ask {X} (e : bootE X) : (∀ m x, move m (Obs e x) = Some m) → quiet (ask e).
Proof. intros H m. apply safe_trigger. intros x. by exists m. Qed.

Lemma quiet_time s : quiet (time_sync parseTime skewText s).
Proof.
  unfold time_sync. destruct (parseTime s); [|apply quiet_ret].
  repeat (apply quiet_seq; [apply quiet_ask; by intros [] ?|intros ?]). apply quiet_ret.
Qed.

Lemma quiet_probe label target : quiet (probe label target).
Proof.
  unfold probe. destruct (is_empty target); [apply quiet_ret|].
  apply quiet_seq; [apply quiet_ask; by intros [] ?|intros ?; apply quiet_ret].
Qed.

Lemma quiet_probes label targets : quiet (probes label targets).
Proof.
  induction targets as [|t ts IH]; [apply quiet_ret|]. cbn [probes].
  apply quiet_seq; [apply quiet_probe|intros a]. apply quiet_seq; [exact IH|intros b; apply quiet_ret].
Qed.

Lemma quiet_net_preflight r : quiet (net_preflight parseTime skewText r).
Proof.
  unfold net_preflight. apply quiet_seq; [apply quiet_time|intros ?].
  apply quiet_seq; [apply quiet_probe|intros ?]. apply quiet_seq; [apply quiet_probes|intros ?].
  apply quiet_seq; [apply quiet_probe|intros ?]. apply quiet_seq; [apply quiet_probes|intros ?]. apply quiet_ret.
Qed.

Lemma safe_waitConfigured s off :
  bsafe (mkTrail s off) (waitConfigured hasConfigured) (fun t' _ => ∃ off', t' = mkTrail s off').
Proof.
  unfold waitConfigured. destruct hasConfigured; cbn [negb]; [|apply safe_done; by exists off].
  apply (safe_iter _ (fun _ t => ∃ off, t = mkTrail s off)); [|by exists off]. clear off. intros [] _ [off ->].
  apply safe_call. intros []; (eexists; split; [reflexivity|]); [apply safe_done; by eexists|].
  apply safe_call. intros [e|]; (eexists; split; [reflexivity|]); [apply safe_done; by eexists|].
  apply safe_skip; [done|]. intros. apply safe_done. by eexists.
Qed.

Lemma report_move_ok r state message rows s s' off {A} (k : unit → B A) Q :
  report_move s (mkReportRequest r.(ar_ClusterID) r.(ar_Hostname) state message rows) = Some s' →
  bsafe (mkTrail s' off) (k ()) Q → bsafe (mkTrail s off) (x ← report r state message rows; k x) Q.
Proof. intros Hs Hk. apply safe_call. intros []. eexists. split; [cbn [move]; by rewrite Hs|exact Hk]. Qed.

Definition arrived (t : trail) (o : option string) : Prop := o = None → t.(t_off) = true ∨ t.(t_stage) = Done.

Lemma names_self r state message rows :
  names r (mkReportRequest r.(ar_ClusterID) r.(ar_Hostname) state message rows) = true.
Proof. unfold names. cbn. by rewrite !String.eqb_refl. Qed.

Lemma safe_apply_snapshot r off :
  bsafe (mkTrail (Released r) off) (apply_snapshot hasConfigured r) arrived.
Proof.
  unfold apply_snapshot. eapply report_move_ok; [cbn [report_move]; by rewrite names_self|].
  apply safe_call. intros [e|]; (eexists; split; [cbn [move apply_move]; by rewrite String.eqb_refl|]).
  - eapply report_move_ok; [cbn [report_move rq_Message]; rewrite names_self; cbn [rq_State]; by rewrite !String.eqb_refl|].
    apply safe_done. by intros ?.
  - eapply safe_seq; [apply safe_waitConfigured|]. intros t' _ [off' ->].
    eapply report_move_ok; [cbn [report_move]; by rewrite names_self|]. apply safe_done. by right.
Qed.

Lemma safe_Run : bsafe (mkTrail Waiting false) (Run hasConfigured parseTime skewText) arrived.
Proof.
  unfold Run. apply safe_is_configured; [|apply safe_done; by left].
  apply safe_skip; [done|]. intros id. eapply safe_seq.
  { apply (safe_wait _ never_appointed); intros r; cbn; by destruct (ar_Appointed r). }
  intros t' [resp|e] Hr; [|apply safe_done; by intros ?].
  destruct Hr as [[-> ->]|(r & off & Ha & ->)]; [apply safe_done; by left|].
  destruct (ar_Appointed r) eqn:Happ; [|done]. injection Ha as <-. cbn [checkin_move]. rewrite Happ. cbn [negb].
  eapply safe_seq; [apply quiet_net_preflight|]. intros t' rows ->.
  eapply report_move_ok; [cbn [report_move]; by rewrite names_self|]. cbn [rq_Preflight].
  destruct (all_ok rows); cbn [negb]; [|apply safe_done; by intros ?].
  eapply safe_seq.
  { apply (safe_wait _ false). intros g. cbn. by destruct (ar_Appointed g && negb (ar_Hold g)). }
  intros t' [cleared|e] Hg; [|apply safe_done; by intros ?].
  destruct Hg as [[-> ->]|(g & off' & Hacc & ->)]; [apply safe_done; by left|].
  cbn [checkin_move]. destruct (ar_Appointed g && negb (ar_Hold g)); [|done]. injection Hacc as <-.
  apply safe_apply_snapshot.
Qed.

End Proof.

(** C18. A node never applies a snapshot out of turn.  Every run of the in-band
    agent, however long, follows the protocol: it is appointed; it reports its
    network checks; only if each check that gates passed does it wait for the
    driver to lift the hold, and only then does it report "applying" and apply,
    once, the snapshot it was appointed; it reports "done" only after the apply
    succeeded and "error" with the apply's own error; every report names the
    appointed node; and it returns without error only when the node is already
    configured or the apply went all the way. *)
Theorem boot_protocol hasConfigured parseTime skewText n l o :
  runs n (Run hasConfigured parseTime skewText) l o →
  ∃ t, mrun move (mkTrail Waiting false) l = Some t
    ∧ (o = Some None → t.(t_off) = true ∨ t.(t_stage) = Done).
Proof.
  intros H. destruct (safe_Run hasConfigured parseTime skewText n l o H) as (t & Ht & Ho).
  exists t. split; [exact Ht|]. intros ->. by apply Ho.
Qed.

(** A node held at first, released at the third check-in. *)
Definition boot_answer (hold : bool) : CheckinResponse :=
  mkCheckinResponse true hold "c" "cc1" "http://d/cc1" "t" (mkPreflight "10.1.0.1" ["8.8.8.8"] "10.1.0.9" ["10.1.2.4"]).

Definition boot_env (X : Type) (e : bootE X) (s : nat) : X * nat :=
  match e in bootE X return X * nat with
  | BIdentity => (([], ""), s)
  | BConfigured => ((4 <? s)%nat, S s)
  | BCtxDone => (None, s)
  | BNow => (0, s)
  | BSetClock _ => (None, s)
  | BProbe t => (negb (t =? "10.1.2.4")%string, s)
  | BApply _ => (None, s)
  | BCheckin _ => (Some (boot_answer (s <? 3)%nat), s)
  | BReport _ => ((), s)
  | BSleep => ((), s)
  end.

Definition boot_conversation : list obs * option (option string) :=
  exec boot_env 200 0%nat (Run true (fun _ => Some 0) (fun _ => "0s")).

Lemma boot_protocol_witness :
  boot_conversation.2 = Some None
  ∧ ∃ t, mrun move (mkTrail Waiting false) boot_conversation.1 = Some t ∧ (t.(t_off) = true ∨ t.(t_stage) = Done).
Proof.
  assert (boot_conversation.2 = Some None) as Hend by (vm_compute; reflexivity). split; [exact Hend|].
  destruct (boot_protocol true (fun _ => Some 0) (fun _ => "0s") 200 boot_conversation.1 boot_conversation.2
    (exec_runs boot_env 200 0%nat _)) as (t & Ht & Ho).
  exists t. split; [exact Ht|]. exact (Ho Hend).
Defined.
