(* ===== verification/LegacyImage.v ===== *)
(** * Images older than the agent (cmd/phone-home-agent/legacy_markers.go,
    legacy_timezone.go)

    What the agent works around on a target image at or below 3.1.0: the state
    markers it takes out of the snapshot and stamps itself, and the timezone it
    refuses.  A zip file is an [archive] (Generator.v), a directory entry one
    whose name ends in a slash; reading one fails as a whole ([None]). *)
From S2P Require Import Prelude GoStrings GoNet ClusterModel Generator.
From Stdlib Require Import Ascii.

Open Scope string_scope.
Open Scope list_scope.
Open Scope Z_scope.

(** ** legacy_markers.go *)

Definition markerFiles : list string := ["etc/appliance/state/configured"; "etc/appliance/state/sla_accepted"].

Record version : Type := mkVersion { ver_major : Z; ver_minor : Z; ver_patch : Z }.

#[export] Instance version_eq_dec : EqDecision version.
Proof. solve_decision. Defined.

Definition legacyMarkerMaxVersion : version := mkVersion 3 1 0.

Definition version_String (v : version) : string :=
  Itoa v.(ver_major) +:+ "." +:+ Itoa v.(ver_minor) +:+ "." +:+ Itoa v.(ver_patch).

Definition lessOrEqual (v o : version) : bool :=
  if negb (v.(ver_major) =? o.(ver_major)) then v.(ver_major) <? o.(ver_major)
  else if negb (v.(ver_minor) =? o.(ver_minor)) then v.(ver_minor) <? o.(ver_minor)
  else v.(ver_patch) <=? o.(ver_patch).

Definition not_digit (c : ascii) : bool := match digit c with Some _ => false | None => true end.

(** [strings.TrimFunc]. *)
Definition TrimFunc (f : ascii → bool) (s : string) : string := TrimRightFunc f (TrimLeftFunc f s).

Definition parseImageVersion (s : string) : result version :=
  let s := TrimSpace s in
  if is_empty s then Err "empty version string"
  else
    let s := match Index s "CUBE_" with Some i => sdrop (i + 5) s | None => s end in
    let s := match Index s "_" with Some i => stake i s | None => s end in
    let unrecognized := Err ("unrecognized version " +:+ Quote s) in
    match Split s "." with
    | p0 :: p1 :: rest =>
        match Atoi p0, Atoi p1 with
        | Some major, Some minor =>
            let patch := match rest with
                         | p2 :: _ =>
                             let digits := TrimFunc not_digit p2 in
                             if is_empty digits then 0 else (ParseInt digits).1
                         | [] => 0
                         end in
            Ok (mkVersion major minor patch)
        | _, _ => unrecognized
        end
    | _ => unrecognized
    end.

(** [etcVersion]: what is read of the version file, if it can be read. *)
Definition needsLegacyMarkerHandling (etcVersion : option string) : bool :=
  match etcVersion with
  | None => false
  | Some b => match parseImageVersion b with
              | Ok v => lessOrEqual v legacyMarkerMaxVersion
              | Err _ => false
              end
  end.

Definition isMarker (name : string) : bool := existsb (fun m => (name =? m)%string) markerFiles.

(** A directory entry is written without its content. *)
Definition is_dir (name : string) : bool := HasSuffix name "/".

Definition strip_step (acc : archive * gmap string string) (f : string * string) : archive * gmap string string :=
  let name := TrimPrefix f.1 "./" in
  if isMarker name then (acc.1, <[name := f.2]> acc.2)
  else (acc.1 ++ [(f.1, if is_dir f.1 then "" else f.2)], acc.2).

Definition stripMarkers (zip : archive) : archive * gmap string string := foldl strip_step ([], ∅) zip.

(** Files of the live root, by their path below it. *)
Definition stampMarkers (root : gmap string string) (markers : gmap string string) : gmap string string :=
  markers ∪ root.

(** ** legacy_timezone.go *)

Definition legacyTimezoneMaxVersion : version := mkVersion 3 1 0.

Definition timePolicyDir : string := "etc/policies/time/".

(** [strings.Trim] with a cutset of both quotes. *)
Definition is_quote (c : ascii) : bool := Ascii.eqb c quote_char || Ascii.eqb c "'".

Fixpoint timezone_in (lines : list string) : string :=
  match lines with
  | [] => ""
  | line :: lines =>
      let line := TrimSpace line in
      if HasPrefix line "#" then timezone_in lines
      else if HasPrefix line "timezone:"
      then TrimFunc is_quote (TrimSpace (sdrop (String.length "timezone:") line))
      else timezone_in lines
  end.

Definition parseTimezoneValue (policy : string) : string := timezone_in (Split policy nl_char).

Fixpoint timezone_of_files (zip : archive) : string :=
  match zip with
  | [] => ""
  | (n, content) :: zip =>
      let name := TrimPrefix n "./" in
      if negb (HasPrefix name timePolicyDir) || negb (HasSuffix name ".yml") then timezone_of_files zip
      else
        let tz := parseTimezoneValue content in
        if is_empty tz then timezone_of_files zip else tz
  end.

(** [None]: the snapshot does not open. *)
Definition snapshotTimezone (snapshot : option archive) : option string := timezone_of_files <$> snapshot.

Definition checkLegacyTimezone (etcVersion : option string) (snapshot : option archive) : result unit :=
  match etcVersion with
  | None => Ok ()
  | Some b =>
      match parseImageVersion b with
      | Err _ => Ok ()
      | Ok v =>
          if negb (lessOrEqual v legacyTimezoneMaxVersion) then Ok ()
          else match snapshotTimezone snapshot with
               | None => Ok ()
               | Some tz =>
                   if is_empty tz then Ok ()
                   else if Contains tz "/" then Ok ()
                   else Err ("timezone " +:+ Quote tz +:+ " is unsafe on image " +:+ version_String v
                     +:+ ": its horizon module splits the zone on '/' and reads past the end of the vector for a single-component zone, segfaulting hex_config mid-commit. Use a two-component zone such as Asia/Taipei, or an image above "
                     +:+ version_String legacyTimezoneMaxVersion +:+ " (cubecos 20fd064)")
               end
      end
  end.

(** ** Trimming *)

Lemma TrimRight_idem f s : TrimRightFunc f (TrimRightFunc f s) = TrimRightFunc f s.
Proof.
  induction s as [|c s IH]; [done|]. cbn. destruct (TrimRightFunc f s) as [|x r] eqn:E.
  - destruct (f c) eqn:Ef; [done|]. cbn. by rewrite Ef.
  - change (TrimRightFunc f (String c (String x r)) = String c (String x r)).
    cbn [TrimRightFunc] in IH |- *. by rewrite IH.
Qed.

Lemma TrimFunc_right f s : TrimFunc f (TrimRightFunc f s) = TrimFunc f s.
Proof.
  unfold TrimFunc. induction s as [|c s IH]; [done|].
  destruct (f c) eqn:Ef.
  - change (TrimLeftFunc f (String c s)) with (if f c then TrimLeftFunc f s else String c s).
    rewrite Ef, <- IH. cbn [TrimRightFunc]. destruct (TrimRightFunc f s) as [|x r] eqn:E; [by rewrite Ef|].
    cbn [TrimLeftFunc]. by rewrite Ef.
  - change (TrimLeftFunc f (String c s)) with (if f c then TrimLeftFunc f s else String c s).
    rewrite Ef. assert (∃ r, TrimRightFunc f (String c s) = String c r) as [r Hr].
    { cbn. destruct (TrimRightFunc f s); rewrite ?Ef; by eexists. }
    rewrite Hr. cbn [TrimLeftFunc]. rewrite Ef, <- Hr. apply TrimRight_idem.
Qed.

(** A prefix that ends in a byte to keep survives. *)
Lemma TrimRight_keep f p c s : f c = false → TrimRightFunc f (p +:+ String c s) = p +:+ String c (TrimRightFunc f s).
Proof.
  intros Hc. induction p as [|x p IH].
  - rewrite !append_nil. cbn [TrimRightFunc]. destruct (TrimRightFunc f s); [by rewrite Hc|done].
  - rewrite !append_cons. cbn [TrimRightFunc]. rewrite IH. by destruct p.
Qed.

Lemma TrimSpace_def s : TrimSpace s = TrimFunc is_space s.
Proof. done. Qed.

(** ** Versions *)

Lemma Index_free (c : ascii) a b : free_of c a → Index (a +:+ String c b) (String c "") = Some (String.length a).
Proof.
  induction a as [|x a IH].
  - intros _. change ("" +:+ String c b) with (String c b). cbn [Index].
    unfold HasPrefix. cbn [String.prefix]. destruct (ascii_dec c c); [|done]. by destruct b.
  - intros [Hx Ha]%free_of_cons. rewrite append_cons. cbn [Index String.length].
    destruct (HasPrefix _ _) eqn:E; [apply HasPrefix_byte in E; congruence|]. by rewrite (IH Ha).
Qed.

Definition natural (v : version) : Prop :=
  0 <= v.(ver_major) <= MaxInt64 ∧ 0 <= v.(ver_minor) <= MaxInt64 ∧ 0 <= v.(ver_patch) <= MaxInt64.

Lemma version_text_free v c :
  digit c = None → c ≠ "."%char → natural v → free_of c (version_String v).
Proof.
  intros Hc Hd ((H1 & _) & (H2 & _) & (H3 & _)). unfold version_String.
  assert (free_of c ".") as Hp by (apply free_of_cons; split; [congruence|done]).
  rewrite !free_of_app. split_and!; try done; by apply Itoa_free.
Qed.

Lemma digit_kept z : 0 <= z → TrimFunc not_digit (Itoa z) = Itoa z.
Proof.
  intros Hz. destruct (Itoa_head z Hz) as (c & s & x & E & Hx).
  assert (∀ s acc v, digits_val acc s = Some v → TrimRightFunc not_digit s = s) as Hr.
  { clear. induction s as [|c s IH]; intros acc v; [done|]. cbn. destruct (digit c) as [d|] eqn:Ed; [|done].
    intros H. rewrite (IH _ _ H). destruct s; [|done]. unfold not_digit. by rewrite Ed. }
  pose proof (udigits_Itoa z Hz) as Hu. unfold udigits in Hu. rewrite E in Hu. cbn [is_empty] in Hu.
  unfold TrimFunc. rewrite E. cbn [TrimLeftFunc]. unfold not_digit at 2. rewrite Hx.
  by apply (Hr _ 0 z).
Qed.

Lemma parse_version_text v :
  natural v → Split (version_String v) "." = [Itoa v.(ver_major); Itoa v.(ver_minor); Itoa v.(ver_patch)].
Proof.
  intros ((H1 & _) & (H2 & _) & (H3 & _)). unfold version_String. rewrite !append_cons, !append_nil.
  rewrite Split_app by by apply Itoa_free. f_equal. rewrite Split_app by by apply Itoa_free.
  f_equal. apply Split_free. by apply Itoa_free.
Qed.

(** The version stamp is read for what it says: an image stamped
    "CUBE_<major>.<minor>.<patch>_<build>", whatever the build text, is that
    version, and the legacy handling applies to it exactly when it is not above
    3.1.0 in the order of major, then minor, then patch. *)
Theorem version_stamp v build :
  natural v →
  let stamp := "CUBE_" +:+ version_String v +:+ "_" +:+ build in
  parseImageVersion stamp = Ok v
  ∧ (needsLegacyMarkerHandling (Some stamp) = true ↔
     v.(ver_major) < 3 ∨ (v.(ver_major) = 3 ∧ (v.(ver_minor) < 1 ∨ (v.(ver_minor) = 1 ∧ v.(ver_patch) <= 0)))).
Proof.
  intros Hv stamp. assert (parseImageVersion stamp = Ok v) as Hp.
  { unfold parseImageVersion, stamp.
    assert (TrimSpace ("CUBE_" +:+ version_String v +:+ "_" +:+ build)
      = "CUBE_" +:+ version_String v +:+ String "_" (TrimRightFunc is_space build)) as ->.
    { unfold TrimSpace. cbn [TrimLeftFunc]. rewrite <- app_assoc_str.
      change ("_" +:+ build) with (String "_" build).
      change (TrimLeftFunc is_space (("CUBE_" +:+ version_String v) +:+ String "_" build))
        with (("CUBE_" +:+ version_String v) +:+ String "_" build).
      rewrite TrimRight_keep by done. by rewrite app_assoc_str. }
    set (b := TrimRightFunc is_space build).
    change (is_empty ("CUBE_" +:+ version_String v +:+ String "_" b)) with false. cbv iota.
    assert (Index ("CUBE_" +:+ version_String v +:+ String "_" b) "CUBE_" = Some 0%nat) as ->.
    { apply Index_prefix, HasPrefix_app. }
    change (sdrop (0 + 5) ("CUBE_" +:+ version_String v +:+ String "_" b)) with (version_String v +:+ String "_" b).
    rewrite (Index_free "_") by by apply version_text_free. rewrite stake_app, parse_version_text by done.
    destruct Hv as (H1 & H2 & H3). rewrite !Atoi_Itoa by done. rewrite digit_kept by lia.
    destruct (Itoa_head (ver_patch v) ltac:(lia)) as (c & s & x & E & _).
    pose proof (Atoi_Itoa _ H3) as Ha. unfold Atoi in Ha. destruct (ParseInt (Itoa (ver_patch v))) as [z ok].
    destruct ok; [|done]. injection Ha as ->. rewrite E. cbn. by destruct v. }
  split; [exact Hp|]. unfold needsLegacyMarkerHandling. rewrite Hp. unfold lessOrEqual. cbn [ver_major ver_minor ver_patch legacyMarkerMaxVersion].
  destruct (Z.eqb_spec (ver_major v) 3); cbn [negb]; [|rewrite Z.ltb_lt; lia].
  destruct (Z.eqb_spec (ver_minor v) 1); cbn [negb]; [rewrite Z.leb_le; lia|rewrite Z.ltb_lt; lia].
Qed.

Lemma version_stamp_witness :
  parseImageVersion ("CUBE_" +:+ version_String (mkVersion 3 1 0) +:+ "_" +:+ "20260313-1639_f58d033") = Ok (mkVersion 3 1 0).
Proof. apply (version_stamp (mkVersion 3 1 0)). unfold natural, MaxInt64. cbn. lia. Defined.

(** ** Stripping the markers, and stamping them *)

Definition entry_name (f : string * string) : string := TrimPrefix f.1 "./".
Definition kept (f : string * string) : bool := negb (isMarker (entry_name f)).
Definition rewritten (f : string * string) : string * string := (f.1, if is_dir f.1 then "" else f.2).

Lemma strip_foldl zip acc m :
  let r := foldl strip_step (acc, m) zip in
  r.1 = acc ++ (rewritten <$> List.filter kept zip)
  ∧ ∀ name, r.2 !! name = match last (List.filter (fun f => isMarker (entry_name f) && (entry_name f =? name)%string) zip) with
                          | Some f => Some f.2
                          | None => m !! name
                          end.
Proof.
  revert acc m. induction zip as [|f zip IH]; intros acc m; [by rewrite app_nil_r|]. cbn [foldl List.filter].
  assert (strip_step (acc, m) f = if isMarker (entry_name f) then (acc, <[entry_name f := f.2]> m)
          else (acc ++ [rewritten f], m)) as -> by done.
  unfold kept at 1. destruct (isMarker (entry_name f)) eqn:Em; cbn [negb fst snd andb].
  - destruct (IH acc (<[entry_name f := f.2]> m)) as [H1 H2]. split; [exact H1|]. intros name. rewrite H2.
    destruct (String.eqb_spec (entry_name f) name) as [<-|Hne].
    + rewrite last_cons. destruct (last _); [done|]. by rewrite lookup_insert_eq.
    + destruct (last _); [done|]. by rewrite lookup_insert_ne.
  - destruct (IH (acc ++ [rewritten f]) m) as [H1 H2]. split; [|exact H2].
    etrans; [exact H1|]. by rewrite <- app_assoc.
Qed.

(** Taking the markers out and stamping them afterwards installs exactly what
    the snapshot carries: the stripped archive holds every other entry, in the
    same order and with the same content, and no marker; the markers taken out
    are the two managed ones and nothing else, each with the content it has in
    the snapshot; and stamping puts those on the node and changes no other file. *)
Theorem strip_then_stamp zip root :
  let '(stripped, markers) := stripMarkers zip in
  stripped = rewritten <$> List.filter kept zip
  ∧ (∀ f, f ∈ zip → isMarker (entry_name f) = true →
       (∀ g, g ∈ zip → entry_name g = entry_name f → g = f) → markers !! entry_name f = Some f.2)
  ∧ (∀ name, is_Some (markers !! name) → name ∈ markerFiles ∧ ∃ f, f ∈ zip ∧ entry_name f = name)
  ∧ (∀ name c, markers !! name = Some c → stampMarkers root markers !! name = Some c)
  ∧ (∀ name, markers !! name = None → stampMarkers root markers !! name = root !! name).
Proof.
  destruct (strip_foldl zip [] ∅) as [H1 H2]. cbv zeta in H1, H2.
  change (foldl strip_step ([], ∅) zip) with (stripMarkers zip) in H1, H2.
  destruct (stripMarkers zip) as [s m]. cbn [fst snd app] in H1, H2.
  set (pick name := List.filter (fun f => isMarker (entry_name f) && (entry_name f =? name)%string) zip) in *.
  assert (∀ name f, f ∈ pick name ↔ f ∈ zip ∧ isMarker (entry_name f) = true ∧ entry_name f = name) as Hpick.
  { intros name f. unfold pick. rewrite list_elem_of_In, filter_In, <- list_elem_of_In, andb_true_iff, String.eqb_eq. tauto. }
  split_and!; [exact H1| | | |].
  - intros f Hf Hm Hu. rewrite H2. fold (pick (entry_name f)). destruct (last (pick (entry_name f))) as [g|] eqn:El.
    + apply last_Some_elem_of, Hpick in El as (Hg & _ & Heq). by rewrite (Hu g Hg Heq).
    + apply last_None in El. assert (f ∈ pick (entry_name f)) as Hin by (by apply Hpick).
      rewrite El in Hin. by apply elem_of_nil in Hin.
  - intros name [c Hc]. rewrite H2 in Hc. fold (pick name) in Hc. destruct (last (pick name)) as [g|] eqn:El; [|done].
    apply last_Some_elem_of, Hpick in El as (Hg & Hm & <-). split; [|by exists g].
    unfold isMarker in Hm. apply existsb_exists in Hm as (x & Hx & ->%String.eqb_eq). by apply list_elem_of_In.
  - intros name c Hc. unfold stampMarkers. by apply lookup_union_Some_l.
  - intros name Hn. unfold stampMarkers. by apply lookup_union_r.
Qed.

(** The snapshot the generator builds loses its two markers and nothing else. *)
Example strip_generated bytes n d ctl stamp ar :
  BuildNodeSnapshot templateFS bytes n d ctl stamp = Ok ar →
  ((stripMarkers ar).1).*1 = ["Comment"; "etc/policies/cubesys/cubesys1_0.yml"; "etc/policies/network/network1_0.yml";
                              "etc/policies/time/time1_0.yml"]
  ∧ (stripMarkers ar).2 !! "etc/appliance/state/configured" = Some (bytes "template/etc/appliance/state/configured").
Proof.
  unfold BuildNodeSnapshot. destruct (ValidateNodeNetwork n); [|done]. intros [= <-]. split; reflexivity.
Qed.

(** ** The timezone guard against the generator *)

Lemma yval_text_str s : yval_text (VStr s) = " " +:+ s.
Proof. cbn. by destruct (is_empty s) eqn:E; [apply is_empty_true in E as ->|]. Qed.

Lemma parse_RenderTime cc :
  no_nl cc.(cc_Timezone).(tz_Name) →
  parseTimezoneValue (RenderTime cc) = TrimFunc is_quote (TrimSpace cc.(cc_Timezone).(tz_Name)).
Proof.
  intros Hn. set (tz := tz_Name (cc_Timezone cc)) in *.
  assert (no_nl ("timezone:" +:+ " " +:+ tz)) as Hl.
  { apply (free_of_app nl_char "timezone:"). split; [reflexivity|]. apply (free_of_app nl_char " "). by split. }
  assert (Split (RenderTime cc) nl_char
    = ["---"; "# time/time1_0.yml"; "name: time"; "version: 1.0"; "timezone:" +:+ " " +:+ tz; ""]) as Hs.
  { unfold RenderTime. unfold kv at 1. fold tz. cbn [indentOf]. rewrite append_nil, yval_text_str.
    rewrite <- (app_assoc_str ("timezone" +:+ ":")).
    apply (Split_snoc nl_char _ ["---"; "# time/time1_0.yml"; "name: time"; "version: 1.0"] _ Hl).
    vm_compute. reflexivity. }
  unfold parseTimezoneValue. rewrite Hs.
  change (timezone_in ["---"; "# time/time1_0.yml"; "name: time"; "version: 1.0"; "timezone:" +:+ " " +:+ tz; ""])
    with (timezone_in ["timezone:" +:+ " " +:+ tz; ""]).
  cbn [timezone_in].
  assert (TrimSpace ("timezone:" +:+ " " +:+ tz) = "timezone:" +:+ TrimRightFunc is_space (" " +:+ tz)) as ->.
  { unfold TrimSpace. change (TrimLeftFunc is_space ("timezone:" +:+ " " +:+ tz)) with ("timezone" +:+ String ":" (" " +:+ tz)).
    by rewrite TrimRight_keep. }
  rewrite HasPrefix_app, sdrop_app, (TrimSpace_def (TrimRightFunc _ _)), TrimFunc_right. reflexivity.
Qed.

(** The timezone guard reads the generator's own file, and reads it right: on
    the snapshot built for a node, for any timezone text on one line, the apply
    is refused exactly when the image's version is known and not above 3.1.0
    and the timezone, without surrounding spaces and quotes, is a single
    component. *)
Theorem timezone_guard etcVersion bytes n d ctl stamp ar :
  BuildNodeSnapshot templateFS bytes n d ctl stamp = Ok ar →
  no_nl d.(cd_ClusterConfig).(cc_Timezone).(tz_Name) →
  let tz := TrimFunc is_quote (TrimSpace d.(cd_ClusterConfig).(cc_Timezone).(tz_Name)) in
  is_ok (checkLegacyTimezone etcVersion (Some ar)) = false ↔
    (∃ stamp v, etcVersion = Some stamp ∧ parseImageVersion stamp = Ok v ∧ lessOrEqual v (mkVersion 3 1 0) = true)
    ∧ tz ≠ "" ∧ Contains tz "/" = false.
Proof.
  intros Hb Hn tz. assert (snapshotTimezone (Some ar) = Some tz) as Htz.
  { unfold BuildNodeSnapshot in Hb. destruct (ValidateNodeNetwork n); [|done]. injection Hb as <-.
    unfold snapshotTimezone. cbn [fmap option_fmap option_map]. f_equal.
    pose proof (parse_RenderTime _ Hn) as Hp. fold tz in Hp.
    set (time := RenderTime (cd_ClusterConfig d)) in *.
    assert (∀ ar, ar.*1 = ["Comment"; "etc/appliance/state/configured"; "etc/appliance/state/sla_accepted";
        "etc/policies/cubesys/cubesys1_0.yml"; "etc/policies/network/network1_0.yml"; "etc/policies/time/time1_0.yml"] →
      last ar.*2 = Some time → timezone_of_files ar = tz) as Hf.
    { clear -Hp. intros ar Hn Hl. repeat (destruct ar as [|[? ?] ar]; [discriminate Hn|injection Hn as -> Hn]).
      destruct ar; [|discriminate Hn]. injection Hl as ->. cbn -[parseTimezoneValue]. rewrite Hp.
      destruct (is_empty tz) eqn:E; [by apply is_empty_true in E|done]. }
    apply Hf; reflexivity. }
  unfold checkLegacyTimezone. rewrite Htz. unfold legacyTimezoneMaxVersion.
  destruct etcVersion as [b|]; [|split; [done|by intros [(? & ? & ? & _) _]]].
  destruct (parseImageVersion b) as [v|] eqn:Ev; [|split; [done|intros [(? & ? & [= ->] & ? & _) _]; congruence]].
  destruct (lessOrEqual v (mkVersion 3 1 0)) eqn:El; cbn [negb];
    [|split; [done|intros [(? & ? & [= ->] & ? & ?) _]; congruence]].
  destruct (is_empty tz) eqn:Ez; [apply is_empty_true in Ez; split; [done|by intros (_ & ? & _)]|].
  apply is_empty_false in Ez. destruct (Contains tz "/") eqn:Ec; [split; [done|by intros (_ & _ & ?)]|].
  split; [|done]. intros _. split; [by exists b, v|done].
Qed.

(** The demo cluster's timezone is "UTC". *)
Lemma timezone_guard_witness :
  ∃ ar, BuildNodeSnapshot templateFS (fun _ => "") (demo_nc "cc1" "10.1.2.3") demo_pair
          (GetControlInfo demo_pair.(cd_NodeData)) "now" = Ok ar
  ∧ is_ok (checkLegacyTimezone (Some "CUBE_3.1.0_x") (Some ar)) = false.
Proof.
  eexists. split; [vm_compute; reflexivity|].
  refine (proj2 (timezone_guard (Some "CUBE_3.1.0_x") (fun _ => "") (demo_nc "cc1" "10.1.2.3") demo_pair
    (GetControlInfo demo_pair.(cd_NodeData)) "now" _ _ _) _).
  - vm_compute. reflexivity.
  - vm_compute. reflexivity.
  - split; [|split; [vm_compute; discriminate|vm_compute; reflexivity]].
    exists "CUBE_3.1.0_x", (mkVersion 3 1 0). split_and!; vm_compute; reflexivity.
Defined.
