(* ===== verification/AgentTopology.v ===== *)
(** * The transient topology of the installer (cmd/phone-home-agent/preflight.go)

    Which kernel device an interface label is, the [ip] commands that stand up
    the node's bonds, VLANs and addresses, what is recorded of them, and the
    teardown before the next attempt.  The surroundings are an [ip] runner and
    the files of /sys, over an abstract state of the node's network. *)
From S2P Require Import Prelude GoStrings GoNet DeployModel SelCodec ClusterModel Generator.
From Stdlib Require Import Ascii.

Open Scope string_scope.
Open Scope list_scope.
Open Scope Z_scope.

(** A command, and its error if it failed. *)
Class Host (W : Type) : Type := {
  ip_cmd : list string → W → option string * W;
  modprobe : string → W → W;               (* its error is ignored *)
  sysfs : W → string → string → string   (* /sys/class/net/<dev>/<file>, empty if unreadable *)
}.

(** A network card with the PCI path its device link shows; [None] for a virtual
    interface. *)
Record nic : Type := mkNic { nic_name : string; nic_pci : option string }.

Definition pci_le (a b : string * string) : Prop := string_le a.2 b.2.
#[export] Instance pci_le_dec : RelDecision pci_le.
Proof. intros a b. unfold pci_le. apply _. Defined.
#[export] Instance pci_le_total : Total pci_le.
Proof. intros a b. unfold pci_le. apply (total string_le). Qed.
#[export] Instance pci_le_trans : Transitive pci_le.
Proof. intros a b c. unfold pci_le. apply (transitivity (R := string_le)). Qed.

(** [sort.Slice] leaves the order of equal keys open; PCI paths are distinct. *)
Definition physIFs (entries : list nic) : list string :=
  fst <$> merge_sort pci_le
    (omap (fun e => if (e.(nic_name) =? "lo")%string then None
                    else (fun p => (e.(nic_name), p)) <$> e.(nic_pci)) entries).

(** The number after the last dot; [n, _ := Atoi], 0 for a text that is none. *)
Definition ifIndex (label : string) : Z :=
  match LastIndexByte label "." with
  | None => 0
  | Some i => (ParseInt (sdrop (S i) label)).1
  end.

Definition init_dev (phys : list string) (label : string) : option string :=
  let idx := ifIndex label - 1 in
  if (0 <=? idx) && (idx <? Z.of_nat (length phys)) then phys !! Z.to_nat idx else None.

Definition labelDevMap (phys : list string) (b : PreflightBundle) : gmap string string :=
  foldl (fun m l =>
    if negb (l.(pl_Type) =? "init")%string then m
    else match init_dev phys l.(pl_Name) with Some dev => <[l.(pl_Name) := dev]> m | None => m end)
    ∅ b.(pb_Links).

(** A missing key reads as the empty name. *)
Definition dev_of (m : gmap string string) (label : string) : string := default "" (m !! label).

Definition devFor (m : gmap string string) (l : PfLink) : string :=
  if (l.(pl_Type) =? "init")%string then dev_of m l.(pl_Name) else l.(pl_Name).

(** ** The commands, as a state monad over the host *)

Section Topology.
Context {W : Type} `{Host W}.

(** The state: the host, the commands run so far, the errors noted so far. *)
Record net : Type := mkNet { n_host : W; n_cmds : list (list string); n_errs : list string }.
Definition N (A : Type) : Type := net → A * net.
#[local] Instance N_ret : MRet N := fun _ a s => (a, s).
#[local] Instance N_bind : MBind N := fun _ _ f t s => let '(a, s) := t s in f a s.

Definition ipCmd (args : list string) : N (option string) := fun s =>
  let '(e, w) := ip_cmd args s.(n_host) in
  ((fun e => "ip " +:+ Join args " " +:+ ": " +:+ e) <$> e, mkNet w (s.(n_cmds) ++ [args]) s.(n_errs)).

Definition note (msg : string) : N unit := fun s => ((), mkNet s.(n_host) s.(n_cmds) (s.(n_errs) ++ [msg])).

Definition load_module (name : string) : N unit := fun s =>
  ((), mkNet (modprobe name s.(n_host)) s.(n_cmds) s.(n_errs)).

Definition ip_ignore (args : list string) : N unit := _ ← ipCmd args; mret ().
Definition ip_note (pre : string) (args : list string) : N unit :=
  e ← ipCmd args; match e with Some e => note (pre +:+ e) | None => mret () end.

Fixpoint each {A} (f : A → N unit) (l : list A) : N unit :=
  match l with [] => mret () | x :: l => _ ← f x; each f l end.

(** [createdLinksFile]: the links and address devices of the last topology. *)
Definition created_lines (m : gmap string string) (b : PreflightBundle) : list string :=
  b.(pb_Links) ≫= fun l =>
    (if (l.(pl_Type) =? "bond")%string || (l.(pl_Type) =? "vlan")%string then ["link:" +:+ l.(pl_Name)] else [])
    ++ (if is_empty l.(pl_IP) then []
        else let dev := devFor m l in if is_empty dev then [] else ["addr:" +:+ dev]).

Definition teardown_line (line : string) : N unit :=
  if HasPrefix line "link:" then ip_ignore ["link"; "del"; TrimPrefix line "link:"]
  else if HasPrefix line "addr:" then ip_ignore ["addr"; "flush"; "dev"; TrimPrefix line "addr:"]
  else mret ().

(** [recorded]: the file's content, if it is there. *)
Definition teardownTopology (recorded : option string) : N unit :=
  match recorded with
  | None => mret ()
  | Some data => each teardown_line (Split (TrimSpace data) nl_char)
  end.

Definition bond_member (m : gmap string string) (bond mLabel : string) : N unit :=
  let dev := dev_of m mLabel in
  if is_empty dev then note ("bond " +:+ bond +:+ ": no device for member " +:+ mLabel)
  else
    _ ← ip_ignore ["link"; "set"; dev; "down"];
    _ ← ip_note ("enslave " +:+ dev +:+ "→" +:+ bond +:+ ": ") ["link"; "set"; dev; "master"; bond];
    ip_ignore ["link"; "set"; dev; "up"].

Definition bond_up (m : gmap string string) (l : PfLink) : N unit :=
  if negb (l.(pl_Type) =? "bond")%string then mret ()
  else
    let name := l.(pl_Name) in
    _ ← ip_ignore ["link"; "del"; name];
    _ ← ip_note ("bond " +:+ name +:+ " add: ") ["link"; "add"; name; "type"; "bond"];
    _ ← ip_ignore ["link"; "set"; name; "up"];
    each (bond_member m name) l.(pl_Members).

Definition vlan_up (m : gmap string string) (l : PfLink) : N unit :=
  if negb (l.(pl_Type) =? "vlan")%string then mret ()
  else
    let parent := if is_empty (dev_of m l.(pl_Parent)) then l.(pl_Parent) else dev_of m l.(pl_Parent) in
    _ ← ip_ignore ["link"; "del"; l.(pl_Name)];
    ip_note ("vlan " +:+ l.(pl_Name) +:+ ": ")
      ["link"; "add"; "link"; parent; "name"; l.(pl_Name); "type"; "vlan"; "id"; Itoa l.(pl_VLANID)].

Definition addr_up (m : gmap string string) (l : PfLink) : N unit :=
  let dev := devFor m l in
  if is_empty dev then note ("link " +:+ l.(pl_Name) +:+ ": no device resolved")
  else
    _ ← ip_ignore ["link"; "set"; dev; "up"];
    if is_empty l.(pl_IP) then mret ()
    else ip_note ("addr " +:+ l.(pl_IP) +:+ " dev " +:+ l.(pl_Name) +:+ "(" +:+ dev +:+ "): ")
           ["addr"; "replace"; l.(pl_IP); "dev"; dev].

Definition nicState (w : W) (dev : string) : string :=
  if is_empty dev then "no-dev"
  else
    let rd f := TrimSpace (sysfs w dev f) in
    "car=" +:+ rd "carrier" +:+ ",op=" +:+ rd "operstate" +:+ ",spd=" +:+ rd "speed".

(** Teardown, modules, bonds, VLANs, addresses, record: what it notes is its error, and
    [recorded'] is the file it leaves.  The diagnostic text in between only reads
    the host. *)
Definition noted : N (option string) := fun s =>
  (if bool_decide (s.(n_errs) = []) then None else Some (Join s.(n_errs) "; "), s).

Definition configureTopology (phys : list string) (recorded : option string) (b : PreflightBundle)
    : N (option string * string) :=
  _ ← teardownTopology recorded;
  let m := labelDevMap phys b in
  _ ← load_module "bonding";
  _ ← load_module "8021q";
  _ ← each (bond_up m) b.(pb_Links);
  _ ← each (vlan_up m) b.(pb_Links);
  _ ← each (addr_up m) b.(pb_Links);
  err ← noted;
  mret (err, Join (created_lines m b) nl).

(** ** Carrier *)

Definition link_up (w : W) (dev : string) : bool := (TrimSpace (sysfs w dev "carrier") =? "1")%string.

Fixpoint members_up (w : W) (m : gmap string string) (labels : list string) : option string :=
  match labels with
  | [] => None
  | mLabel :: labels =>
      let dev := dev_of m mLabel in
      if is_empty dev then Some (mLabel +:+ ": no device")
      else if negb (link_up w dev) then Some (mLabel +:+ " (" +:+ dev +:+ ") carrier down")
      else members_up w m labels
  end.

(** The first member that is down, if any. *)
Fixpoint carrier_of (w : W) (m : gmap string string) (links : list PfLink) : option string :=
  match links with
  | [] => None
  | l :: links =>
      if negb (l.(pl_Type) =? "bond")%string then carrier_of w m links
      else match members_up w m l.(pl_Members) with
           | Some e => Some e
           | None => carrier_of w m links
           end
  end.

Definition carrier (w : W) (phys : list string) (b : PreflightBundle) : bool * string :=
  match carrier_of w (labelDevMap phys b) b.(pb_Links) with Some e => (false, e) | None => (true, "") end.

Definition link_row (w : W) (target dev : string) : PreflightResult :=
  if is_empty dev then mkPreflightResult target false "no device resolved for this IF label"
  else mkPreflightResult target (link_up w dev) (nicState w dev).

Definition link_rows (w : W) (m : gmap string string) (l : PfLink) : list PreflightResult :=
  if (l.(pl_Type) =? "bond")%string then
    ((fun mLabel => let dev := dev_of m mLabel in
        link_row w (l.(pl_Name) +:+ " member " +:+ mLabel +:+ " (" +:+ dev +:+ ") link") dev) <$> l.(pl_Members))
    ++ [let op := TrimSpace (sysfs w l.(pl_Name) "operstate") in
        mkPreflightResult (l.(pl_Name) +:+ " bond device") (op =? "up")%string ("operstate " +:+ op)]
  else if (l.(pl_Type) =? "init")%string then
    match l.(pl_Roles) with
    | [] => []
    | roles => let dev := dev_of m l.(pl_Name) in
               [link_row w (l.(pl_Name) +:+ " (" +:+ dev +:+ ") link [" +:+ Join roles "," +:+ "]") dev]
    end
  else [].

Definition carrierChecks (w : W) (phys : list string) (b : PreflightBundle) : list PreflightResult :=
  b.(pb_Links) ≫= link_rows w (labelDevMap phys b).

End Topology.

(** ** The commands do not depend on how they fare *)

Definition member_cmds (m : gmap string string) (bond mLabel : string) : list (list string) :=
  let dev := dev_of m mLabel in
  if is_empty dev then []
  else [["link"; "set"; dev; "down"]; ["link"; "set"; dev; "master"; bond]; ["link"; "set"; dev; "up"]].

Definition bond_cmds (m : gmap string string) (l : PfLink) : list (list string) :=
  if negb (l.(pl_Type) =? "bond")%string then []
  else [["link"; "del"; l.(pl_Name)]; ["link"; "add"; l.(pl_Name); "type"; "bond"]; ["link"; "set"; l.(pl_Name); "up"]]
       ++ (l.(pl_Members) ≫= member_cmds m l.(pl_Name)).

Definition vlan_cmds (m : gmap string string) (l : PfLink) : list (list string) :=
  if negb (l.(pl_Type) =? "vlan")%string then []
  else [["link"; "del"; l.(pl_Name)];
        ["link"; "add"; "link"; if is_empty (dev_of m l.(pl_Parent)) then l.(pl_Parent) else dev_of m l.(pl_Parent);
         "name"; l.(pl_Name); "type"; "vlan"; "id"; Itoa l.(pl_VLANID)]].

Definition addr_cmds (m : gmap string string) (l : PfLink) : list (list string) :=
  let dev := devFor m l in
  if is_empty dev then []
  else ["link"; "set"; dev; "up"] :: (if is_empty l.(pl_IP) then [] else [["addr"; "replace"; l.(pl_IP); "dev"; dev]]).

Definition line_cmds (line : string) : list (list string) :=
  if HasPrefix line "link:" then [["link"; "del"; TrimPrefix line "link:"]]
  else if HasPrefix line "addr:" then [["addr"; "flush"; "dev"; TrimPrefix line "addr:"]]
  else [].

Definition teardown_cmds (recorded : option string) : list (list string) :=
  match recorded with None => [] | Some data => Split (TrimSpace data) nl_char ≫= line_cmds end.

Section Commands.
Context {W : Type} `{Host W}.
#[local] Existing Instance N_ret.
#[local] Existing Instance N_bind.

(** [t] runs exactly [l], whatever the commands answer. *)
Definition runs_cmds {A} (t : N (W := W) A) (l : list (list string)) : Prop :=
  ∀ s, (t s).2.(n_cmds) = s.(n_cmds) ++ l.

Lemma cmds_bind {A B} (t : N A) (k : A → N B) l1 l2 :
  runs_cmds t l1 → (∀ a, runs_cmds (k a) l2) → runs_cmds (a ← t; k a) (l1 ++ l2).
Proof.
  intros Ht Hk s. unfold mbind, N_bind. specialize (Ht s). destruct (t s) as [a s1]. cbn in *.
  by rewrite (Hk a s1), Ht, app_assoc.
Qed.

Lemma cmds_ret {A} (a : A) : runs_cmds (mret a) [].
Proof. intros s. by rewrite app_nil_r. Qed.

Lemma cmds_ip args : runs_cmds (ipCmd args) [args].
Proof. intros s. unfold ipCmd. by destruct (ip_cmd args (n_host s)). Qed.

Lemma cmds_note msg : runs_cmds (note msg) [].
Proof. intros s. cbn. by rewrite app_nil_r. Qed.

Lemma cmds_module name : runs_cmds (load_module name) [].
Proof. intros s. cbn. by rewrite app_nil_r. Qed.

Lemma cmds_ignore args : runs_cmds (ip_ignore args) [args].
Proof. apply (cmds_bind _ _ [args] []); [apply cmds_ip|intros; apply cmds_ret]. Qed.

Lemma cmds_ip_note pre args : runs_cmds (ip_note pre args) [args].
Proof.
  apply (cmds_bind _ _ [args] []); [apply cmds_ip|]. intros [e|]; [apply cmds_note|apply cmds_ret].
Qed.

Lemma cmds_each {A} (f : A → N unit) (g : A → list (list string)) l :
  (∀ x, runs_cmds (f x) (g x)) → runs_cmds (each f l) (l ≫= g).
Proof.
  intros Hf. induction l as [|x l IH]; [apply cmds_ret|]. cbn [each]. rewrite bind_cons.
  apply cmds_bind; [apply Hf|intros; exact IH].
Qed.

#[local] Hint Resolve cmds_ret cmds_ip cmds_note cmds_ignore cmds_ip_note : core.

Lemma cmds_teardown recorded : runs_cmds (teardownTopology recorded) (teardown_cmds recorded).
Proof.
  destruct recorded as [data|]; [|apply cmds_ret]. apply cmds_each. intros line. unfold teardown_line, line_cmds.
  destruct (HasPrefix line "link:"); [auto|]. destruct (HasPrefix line "addr:"); auto.
Qed.

Lemma cmds_bond m l : runs_cmds (bond_up m l) (bond_cmds m l).
Proof.
  unfold bond_up, bond_cmds. destruct (negb _); [auto|].
  apply (cmds_bind _ _ [_]); [auto|intros _]. apply (cmds_bind _ _ [_]); [auto|intros _].
  apply (cmds_bind _ _ [_]); [auto|intros _]. apply cmds_each. intros mLabel. unfold bond_member, member_cmds.
  destruct (is_empty (dev_of m mLabel)); [auto|].
  apply (cmds_bind _ _ [_]); [auto|intros _]. apply (cmds_bind _ _ [_]); [auto|intros _]. auto.
Qed.

Lemma cmds_vlan m l : runs_cmds (vlan_up m l) (vlan_cmds m l).
Proof.
  unfold vlan_up, vlan_cmds. destruct (negb _); [auto|].
  apply (cmds_bind _ _ [_]); [auto|intros _]. auto.
Qed.

Lemma cmds_addr m l : runs_cmds (addr_up m l) (addr_cmds m l).
Proof.
  unfold addr_up, addr_cmds. cbv zeta. destruct (is_empty (devFor m l)); [auto|].
  apply (cmds_bind _ _ [_]); [auto|intros _]. destruct (is_empty (pl_IP l)); auto.
Qed.

Lemma cmds_configure phys recorded b :
  let m := labelDevMap phys b in
  runs_cmds (configureTopology phys recorded b)
    (teardown_cmds recorded ++ (b.(pb_Links) ≫= bond_cmds m) ++ (b.(pb_Links) ≫= vlan_cmds m)
     ++ (b.(pb_Links) ≫= addr_cmds m)).
Proof.
  intros m. apply cmds_bind; [apply cmds_teardown|intros _].
  apply (cmds_bind _ _ []); [apply cmds_module|intros _]. apply (cmds_bind _ _ []); [apply cmds_module|intros _].
  apply cmds_bind; [apply cmds_each, cmds_bond|intros _]. apply cmds_bind; [apply cmds_each, cmds_vlan|intros _].
  rewrite <- (app_nil_r (pb_Links b ≫= addr_cmds m)).
  apply cmds_bind; [apply cmds_each, cmds_addr|intros _]. intros s. cbn. by rewrite app_nil_r.
Qed.

Lemma configure_record phys recorded b s :
  (configureTopology phys recorded b s).1.2 = Join (created_lines (labelDevMap phys b) b) nl.
Proof. unfold configureTopology, mbind, N_bind. by repeat case_match. Qed.

End Commands.

(** ** Teardown undoes what was stood up *)

Definition plain (s : string) : Prop := no_nl s ∧ TrimRightFunc is_space s = s.

Lemma TrimRight_tail f a b : TrimRightFunc f b ≠ "" → TrimRightFunc f (a +:+ b) = a +:+ TrimRightFunc f b.
Proof.
  intros Hb. induction a as [|c a IH]; [done|]. rewrite !append_cons. cbn [TrimRightFunc]. rewrite IH.
  destruct a as [|c' a]; [|done]. rewrite append_nil. by destruct (TrimRightFunc f b).
Qed.

Lemma TrimRight_Join f l sep :
  l ≠ [] → Forall (fun s => s ≠ "" ∧ TrimRightFunc f s = s) l → TrimRightFunc f (Join l sep) = Join l sep ∧ Join l sep ≠ "".
Proof.
  intros Hne. induction 1 as [|x l [Hx Ht] Hl IH]; [done|]. destruct l as [|y l]; [done|].
  change (Join (x :: y :: l) sep) with (x +:+ sep +:+ Join (y :: l) sep).
  destruct IH as [IH Hj]; [done|]. split.
  - rewrite <- app_assoc_str. rewrite TrimRight_tail by by rewrite IH. by rewrite IH.
  - by destruct x.
Qed.

Lemma line_plain (pre s : string) :
  pre ≠ "" → TrimRightFunc is_space pre = pre → plain s → TrimRightFunc is_space (pre +:+ s) = pre +:+ s.
Proof.
  intros Hne Hp [_ Hs]. destruct (decide (s = "")) as [->|Hn]; [by rewrite app_nil_r_str|].
  rewrite TrimRight_tail by by rewrite Hs. by rewrite Hs.
Qed.

Section Undo.
Context (phys : list string) (b : PreflightBundle).
Context (Hlinks : Forall (fun l => plain l.(pl_Name)) b.(pb_Links)) (Hphys : Forall plain phys).

Let m := labelDevMap phys b.

Lemma label_dev_in label dev : labelDevMap phys b !! label = Some dev → dev ∈ phys.
Proof.
  unfold labelDevMap. set (f := fun (m : gmap string string) (l : PfLink) => _).
  assert (∀ ls m0, (∀ k v, m0 !! k = Some v → v ∈ phys) → ∀ k v, foldl f m0 ls !! k = Some v → v ∈ phys) as H.
  { induction ls as [|l ls IH]; intros m0 H0; [exact H0|]. cbn. apply IH. intros k v. unfold f.
    destruct (negb _); [apply H0|]. unfold init_dev. destruct (_ && _); [|apply H0].
    destruct (phys !! _) as [x|] eqn:Ex; [|apply H0]. intros [[_ <-]|[_ Hk]]%lookup_insert_Some; [|by eapply H0].
    by eapply list_elem_of_lookup_2. }
  apply (H (pb_Links b) ∅). intros k v Hk. by rewrite lookup_empty in Hk.
Qed.

Lemma devFor_plain l : l ∈ b.(pb_Links) → devFor m l ≠ "" → plain (devFor m l).
Proof.
  intros Hl Hne. unfold devFor in *. destruct (pl_Type l =? "init")%string.
  - unfold dev_of in *. destruct (m !! pl_Name l) as [dev|] eqn:E; [|done]. cbn.
    rewrite Forall_forall in Hphys. apply Hphys. by eapply label_dev_in.
  - rewrite Forall_forall in Hlinks. by apply Hlinks.
Qed.

Lemma created_plain : Forall (fun s => (s ≠ "" ∧ TrimRightFunc is_space s = s) ∧ no_nl s
    ∧ (HasPrefix s "link:" = true ∨ HasPrefix s "addr:" = true)) (created_lines m b).
Proof.
  apply Forall_forall. intros s (l & Hs & Hl)%list_elem_of_bind. apply elem_of_app in Hs as [Hs|Hs].
  - destruct (_ || _); [|by apply elem_of_nil in Hs]. apply list_elem_of_singleton in Hs as ->.
    rewrite Forall_forall in Hlinks. pose proof (Hlinks l Hl) as Hp. split_and!; [done|by apply line_plain| |left; by rewrite HasPrefix_app].
    apply (free_of_app nl_char "link:"). split; [reflexivity|apply Hp].
  - destruct (is_empty (pl_IP l)); [by apply elem_of_nil in Hs|].
    cbv zeta in Hs. destruct (is_empty (devFor m l)) eqn:Ed; [by apply elem_of_nil in Hs|]. apply is_empty_false in Ed.
    apply list_elem_of_singleton in Hs as ->. pose proof (devFor_plain l Hl Ed) as Hp.
    split_and!; [done|by apply line_plain| |right; by rewrite HasPrefix_app].
    apply (free_of_app nl_char "addr:"). split; [reflexivity|apply Hp].
Qed.

Lemma teardown_of_record : teardown_cmds (Some (Join (created_lines m b) nl)) = created_lines m b ≫= line_cmds.
Proof.
  pose proof created_plain as H. unfold teardown_cmds. destruct (created_lines m b) as [|x l] eqn:E; [reflexivity|].
  assert (TrimSpace (Join (x :: l) nl) = Join (x :: l) nl) as ->.
  { assert (TrimLeftFunc is_space (Join (x :: l) nl) = Join (x :: l) nl) as Hl.
    { apply Forall_cons in H as [(_ & _ & Hx) _].
      assert (∃ r, x = "link:" +:+ r ∨ x = "addr:" +:+ r) as [r Hr].
      { destruct Hx as [Hx|Hx]; [exists (sdrop 5 x)|exists (sdrop 5 x)]; [left|right]; clear -Hx; unfold HasPrefix in Hx;
          do 5 (destruct x as [|? x]; [discriminate Hx|]; cbn [String.prefix] in Hx; destruct (ascii_dec _ _) as [<-|]; [|discriminate Hx]); reflexivity. }
      destruct Hr as [-> | ->]; destruct l; reflexivity. }
    unfold TrimSpace. rewrite Hl. apply TrimRight_Join; [done|]. eapply Forall_impl; [exact H|]. by intros ? []. }
  unfold nl. rewrite (Split_Join nl_char); [done|done|]. eapply Forall_impl; [exact H|]. by intros ? (_ & ? & _).
Qed.

End Undo.
(** What undoes the standing up of a link or of an address. *)
Inductive undone_by : list string → list string → Prop :=
  | undo_bond name : undone_by ["link"; "add"; name; "type"; "bond"] ["link"; "del"; name]
  | undo_vlan parent name id :
      undone_by ["link"; "add"; "link"; parent; "name"; name; "type"; "vlan"; "id"; id] ["link"; "del"; name]
  | undo_addr ip dev : undone_by ["addr"; "replace"; ip; "dev"; dev] ["addr"; "flush"; "dev"; dev].

Lemma link_line name : line_cmds ("link:" +:+ name) = [["link"; "del"; name]].
Proof. by unfold line_cmds; rewrite HasPrefix_app, TrimPrefix_app. Qed.

Lemma addr_line dev : line_cmds ("addr:" +:+ dev) = [["addr"; "flush"; "dev"; dev]].
Proof. unfold line_cmds. by rewrite (HasPrefix_app "addr:"), TrimPrefix_app. Qed.

(** The undo commands of one link, as the record has them. *)
Lemma undo_of_created m b c :
  c ∈ (created_lines m b ≫= line_cmds) ↔
  ∃ l, l ∈ b.(pb_Links) ∧
    (((l.(pl_Type) = "bond" ∨ l.(pl_Type) = "vlan") ∧ c = ["link"; "del"; l.(pl_Name)])
     ∨ (l.(pl_IP) ≠ "" ∧ devFor m l ≠ "" ∧ c = ["addr"; "flush"; "dev"; devFor m l])).
Proof.
  unfold created_lines. rewrite list_elem_of_bind. split.
  - intros (line & Hc & (l & Hl & Hin)%list_elem_of_bind). exists l. split; [done|].
    apply elem_of_app in Hl as [Hl|Hl].
    + left. destruct (_ || _) eqn:Et; [|by apply elem_of_nil in Hl]. apply list_elem_of_singleton in Hl as ->.
      rewrite link_line in Hc. apply list_elem_of_singleton in Hc as ->. split; [|done].
      apply orb_true_iff in Et. by rewrite !String.eqb_eq in Et.
    + right. destruct (is_empty (pl_IP l)) eqn:Ei; [by apply elem_of_nil in Hl|]. cbv zeta in Hl.
      destruct (is_empty (devFor m l)) eqn:Ed; [by apply elem_of_nil in Hl|].
      apply list_elem_of_singleton in Hl as ->. rewrite addr_line in Hc. apply list_elem_of_singleton in Hc as ->.
      by apply is_empty_false in Ei, Ed.
  - intros (l & Hin & [[Ht ->]|(Hi & Hd & ->)]).
    + exists ("link:" +:+ pl_Name l). rewrite link_line. split; [by left|]. apply list_elem_of_bind. exists l.
      split; [|done]. apply elem_of_app. left. destruct Ht as [-> | ->]; by left.
    + exists ("addr:" +:+ devFor m l). rewrite addr_line. split; [by left|]. apply list_elem_of_bind. exists l.
      split; [|done]. apply elem_of_app. right. apply is_empty_false in Hi, Hd. rewrite Hi. cbv zeta. rewrite Hd. by left.
Qed.

(** What the three passes stand up is in the record. *)
Lemma stood_up_recorded m b c u :
  c ∈ (b.(pb_Links) ≫= bond_cmds m) ++ (b.(pb_Links) ≫= vlan_cmds m) ++ (b.(pb_Links) ≫= addr_cmds m) →
  undone_by c u → u ∈ (created_lines m b ≫= line_cmds).
Proof.
  rewrite !elem_of_app. intros Hin Hu. apply undo_of_created. rewrite !list_elem_of_bind in Hin.
  destruct Hin as [(l & Hc & Hl)|[(l & Hc & Hl)|(l & Hc & Hl)]]; exists l; (split; [done|]).
  - unfold bond_cmds in Hc. destruct (pl_Type l =? "bond")%string eqn:Et; [|by apply elem_of_nil in Hc].
    apply String.eqb_eq in Et. left. split; [by left|]. cbn [negb] in Hc. rewrite elem_of_app in Hc.
    destruct Hc as [Hc|(x & Hx & _)%list_elem_of_bind].
    + inversion Hu; subst; set_solver.
    + unfold member_cmds in Hx. cbv zeta in Hx. destruct (is_empty (dev_of m x)); inversion Hu; subst; set_solver.
  - unfold vlan_cmds in Hc. destruct (pl_Type l =? "vlan")%string eqn:Et; [|by apply elem_of_nil in Hc].
    apply String.eqb_eq in Et. left. split; [by right|]. inversion Hu; subst; set_solver.
  - unfold addr_cmds in Hc. cbv zeta in Hc. destruct (is_empty (devFor m l)) eqn:Ed; [by apply elem_of_nil in Hc|].
    destruct (is_empty (pl_IP l)) eqn:Ei; [inversion Hu; subst; set_solver|]. apply is_empty_false in Ei, Ed.
    right. split_and!; [done|done|]. inversion Hu; subst; set_solver.
Qed.

Lemma teardown_not_undone recorded c u : c ∈ teardown_cmds recorded → undone_by c u → False.
Proof.
  unfold teardown_cmds. destruct recorded as [data|]; [|by intros ?%elem_of_nil].
  intros (line & Hc & _)%list_elem_of_bind Hu. unfold line_cmds in Hc.
  destruct (HasPrefix line "link:"); [inversion Hu; subst; set_solver|].
  destruct (HasPrefix line "addr:"); inversion Hu; subst; set_solver.
Qed.

Section Clean.
Context {W : Type} `{Host W}.

(** C25. An operator who corrects the cluster and sends the bundle again finds the
    node clean.  Whatever commands of the earlier round failed, the next round
    starts with commands that delete every bond and VLAN and flush every addressed
    device the earlier round tried to stand up, before it stands anything up
    itself; and what it deletes or flushes in that start is only what the earlier
    bundle had as a bond, a VLAN or an addressed device.  The names are texts a
    line of the record can hold. *)
Theorem rekick_clean phys recorded b s phys' b' :
  Forall (fun l => plain l.(pl_Name)) b.(pb_Links) → Forall plain phys →
  let r := configureTopology (W := W) phys recorded b s in
  let s' := (configureTopology phys' (Some r.1.2) b' r.2).2 in
  ∃ earlier td rest,
    r.2.(n_cmds) = s.(n_cmds) ++ earlier ∧ s'.(n_cmds) = r.2.(n_cmds) ++ td ++ rest
    ∧ (∀ c u, c ∈ earlier → undone_by c u → u ∈ td)
    ∧ (∀ c, c ∈ td → ∃ l, l ∈ b.(pb_Links) ∧
         (((l.(pl_Type) = "bond" ∨ l.(pl_Type) = "vlan") ∧ c = ["link"; "del"; l.(pl_Name)])
          ∨ (l.(pl_IP) ≠ "" ∧ c = ["addr"; "flush"; "dev"; devFor (labelDevMap phys b) l])))
    ∧ (∀ c u, c ∈ td → ¬ undone_by c u).
Proof.
  intros Hl Hp r s'. eexists _, _, _. split_and!; [apply cmds_configure|apply cmds_configure| | |].
  - unfold r. rewrite configure_record, teardown_of_record by done. intros c u [Hc|Hc]%elem_of_app Hu.
    + by destruct (teardown_not_undone recorded c u).
    + by eapply stood_up_recorded.
  - unfold r. rewrite configure_record, teardown_of_record by done. intros c (l & Hin & Hc)%undo_of_created.
    exists l. split; [done|]. destruct Hc as [Hc|(? & _ & ?)]; [by left|by right].
  - intros c u Hc Hu. by eapply teardown_not_undone.
Qed.

End Clean.

(** A host whose commands all fail. *)
Definition deaf : Host unit :=
  Build_Host unit (fun _ w => (Some "exit status 2", w)) (fun _ w => w) (fun _ _ _ => "").

Definition demo_topology : PreflightBundle :=
  mkPreflightBundle "node1"
    [mkPfLink "bond0" "bond" ["IF.1"; "IF.2"] "" 0 "10.0.0.1/24" ["mgmt"] ""]
    [].

Lemma rekick_clean_witness :
  ∃ td : list (list string), ["link"; "del"; "bond0"] ∈ td ∧ ["addr"; "flush"; "dev"; "bond0"] ∈ td.
Proof.
  destruct (@rekick_clean unit deaf ["eth0"; "eth1"] None demo_topology (mkNet tt [] []) ["eth0"] demo_topology)
    as (earlier & td & rest & He & _ & Hu & _).
  { repeat constructor. }
  { repeat constructor. }
  exists td. vm_compute in He. subst earlier. split.
  - apply (Hu ["link"; "add"; "bond0"; "type"; "bond"]); [set_solver|constructor].
  - apply (Hu ["addr"; "replace"; "10.0.0.1/24"; "dev"; "bond0"]); [set_solver|constructor].
Defined.

(** ** The gate and the rows *)

Section Carrier.
Context {W : Type} `{Host W} (w : W).

Lemma members_up_ok m bond (labels : list string) :
  Forall (fun r => r.(pr_OK) = true)
    ((fun x => link_row w (bond +:+ " member " +:+ x +:+ " (" +:+ dev_of m x +:+ ") link") (dev_of m x)) <$> labels) →
  members_up w m labels = None.
Proof.
  induction labels as [|x labels IH]; [done|]. cbn. intros [Hx Hr]%Forall_cons. unfold link_row in Hx.
  destruct (is_empty (dev_of m x)); [done|]. cbn in Hx. rewrite Hx. cbn. by apply IH.
Qed.

(** The carrier gate and the rows it is shown with agree: with every row passing the
    gate passes. *)
Theorem carrier_rows_ok phys b :
  Forall (fun r => r.(pr_OK) = true) (carrierChecks w phys b) → carrier w phys b = (true, "").
Proof.
  unfold carrierChecks, carrier. set (m := labelDevMap phys b). intros Hok.
  enough (carrier_of w m (pb_Links b) = None) as -> by done.
  induction (pb_Links b) as [|l ls IH]; [done|]. rewrite bind_cons, Forall_app in Hok. destruct Hok as [Hl Hr].
  cbn. unfold link_rows in Hl. destruct (pl_Type l =? "bond")%string; [|by apply IH]. cbn [negb].
  apply Forall_app in Hl as [Hl _]. rewrite (members_up_ok m _ _ Hl). by apply IH.
Qed.

End Carrier.
