(* ===== verification/AgentInventory.v ===== *)
(** * The hardware inventory (cmd/phone-home-agent/inventory.go, cards.go)

    What an inspect boot reports of a node: processors, memory, network cards in
    PCI order, disks with their eligibility for the system, add-in cards.  The
    files of /sys and /proc and the output of lsblk are inputs. *)
From S2P Require Import Prelude GoStrings GoNet DeployModel SelCodec ClusterModel Generator AgentTopology.
From Stdlib Require Import Ascii Sorted.

Open Scope string_scope.
Open Scope list_scope.
Open Scope Z_scope.

(** ** Processors and memory *)

(** One line of /proc/cpuinfo: the model found so far, and the count. *)
Definition cpu_line (acc : string * Z) (line : string) : string * Z :=
  let '(model, count) := acc in
  if HasPrefix line "processor" then (model, count + 1)
  else if is_empty model && HasPrefix line "model name" then
    match Index line ":" with
    | Some i => (TrimSpace (sdrop (S i) line), count)
    | None => acc
    end
  else acc.

Definition cpuInfo (file : option string) : string * Z :=
  match file with
  | None => ("", 0)
  | Some b => foldl cpu_line ("", 0) (Split b nl_char)
  end.

(** 64-bit multiplication. *)
Definition wrap64 (z : Z) : Z := (z + 2 ^ 63) mod 2 ^ 64 - 2 ^ 63.

Fixpoint mem_of (lines : list string) : Z :=
  match lines with
  | [] => 0
  | line :: lines =>
      if HasPrefix line "MemTotal:" then
        match Fields line with
        | _ :: kb :: _ => wrap64 ((ParseInt kb).1 * 1024)
        | _ => mem_of lines
        end
      else mem_of lines
  end.

Definition memTotalBytes (file : option string) : Z :=
  match file with None => 0 | Some b => mem_of (Split b nl_char) end.

(** ** Network cards *)

(** [pciRe]: an optional domain, bus, device and function in hex. *)
Definition hex_digit (c : ascii) : option Z :=
  let n := Z.of_N (Ascii.N_of_ascii c) in
  if (48 <=? n) && (n <=? 57) then Some (n - 48)
  else if (97 <=? n) && (n <=? 102) then Some (n - 87)
  else if (65 <=? n) && (n <=? 70) then Some (n - 55)
  else None.

Fixpoint hex_val (acc : Z) (s : string) : option Z :=
  match s with
  | "" => Some acc
  | String c s => match hex_digit c with Some d => hex_val (acc * 16 + d) s | None => None end
  end.

(** [ParseInt(f, 16, 64)] on a group of the match, its value kept on overflow. *)
Definition hex_field (s : string) : option Z :=
  if is_empty s then None else (fun v => Z.min v MaxInt64) <$> hex_val 0 s.

Definition rank : Type := (Z * Z * Z * Z).

Definition pci_match (addr : string) : option rank :=
  match Split addr "." with
  | [bus; f] =>
      match Split bus ":" with
      | [b; d] => b ← hex_field b; d ← hex_field d; f ← hex_field f; Some (0, b, d, f)
      | [dom; b; d] =>
          dom ← hex_field dom; b ← hex_field b; d ← hex_field d; f ← hex_field f; Some (dom, b, d, f)
      | _ => None
      end
  | _ => None
  end.

Definition no_rank : rank := (2 ^ 40, 2 ^ 40, 2 ^ 40, 2 ^ 40).
Definition pciRank (addr : string) : rank := default no_rank (pci_match (TrimSpace addr)).

Definition rank_less (a b : rank) : bool :=
  let '(a0, a1, a2, a3) := a in
  let '(b0, b1, b2, b3) := b in
  if negb (a0 =? b0) then a0 <? b0
  else if negb (a1 =? b1) then a1 <? b1
  else if negb (a2 =? b2) then a2 <? b2
  else if negb (a3 =? b3) then a3 <? b3
  else false.

Definition pciLess (a b : string) : bool := rank_less (pciRank a) (pciRank b).

Record nicInv : Type := mkNicInv {
  ni_Name : string;
  ni_MAC : string;
  ni_PCIAddr : string;
  ni_PCIVendor : string;
  ni_SpeedMbps : Z;
  ni_Up : bool;
  ni_Carrier : bool
}.

(** An entry of /sys/class/net: its files, empty when unreadable, and where its
    [device] link goes. *)
Record sys_net : Type := mkSysNet {
  sn_name : string;
  sn_file : string → string;
  sn_link : option string
}.

Definition no_mac (mac : string) : bool := is_empty mac || (mac =? "00:00:00:00:00:00")%string.

Definition last_element (dest : string) : string :=
  match LastIndexByte dest "/" with Some i => sdrop (S i) dest | None => dest end.

Definition nic_entry (e : sys_net) : option nicInv :=
  if (e.(sn_name) =? "lo")%string then None
  else
    let rd f := TrimSpace (e.(sn_file) f) in
    if no_mac (rd "address") then None
    else
      let speed := match Atoi (rd "speed") with Some v => if 0 <? v then v else 0 | None => 0 end in
      Some (mkNicInv e.(sn_name) (rd "address")
              (match e.(sn_link) with Some dest => last_element dest | None => "" end)
              (rd "device/vendor") speed ((rd "operstate" =? "up")%string) ((rd "carrier" =? "1")%string)).

(** [sort.SliceStable] by [pciLess]. *)
Definition pci_order (a b : nicInv) : Prop := pciLess b.(ni_PCIAddr) a.(ni_PCIAddr) = false.
#[export] Instance pci_order_dec : RelDecision pci_order.
Proof. intros a b. unfold pci_order. apply _. Defined.

Definition nicsInv (entries : list sys_net) : list nicInv := merge_sort pci_order (omap nic_entry entries).

(** [macs]: the same interfaces' addresses, in the order of the directory. *)
Definition macs (entries : list sys_net) : list string :=
  omap (fun e => if (e.(sn_name) =? "lo")%string then None
                 else let mac := TrimSpace (e.(sn_file) "address") in if no_mac mac then None else Some mac) entries.

(** ** Disks *)

Definition never_os : list string :=
  ["virtual"; "idrac"; "vdvd"; "dvd"; "cd-rom"; "cdrom"; "compellent"; "3par"; "msa"; "nimble"; "unity";
   "powerstore"; "vnx"; "netapp"; "eternus"].

Definition diskEligible (name model tran : string) (size : Z) : bool :=
  if size <=? 0 then false
  else if contains ["iscsi"; "fc"; "fcoe"; "usb"] (ToLower tran) then false
  else
    let m := ToLower (model +:+ " " +:+ name) in
    negb (existsb (fun bad => Contains m bad) never_os).

Record diskInv : Type := mkDiskInv {
  di_Name : string;
  di_Model : string;
  di_SizeBytes : Z;
  di_Type : string;
  di_Tran : string;
  di_OSEligible : bool
}.

(** A row of lsblk's answer. *)
Record blockdev : Type := mkBlockdev {
  bd_name : string;
  bd_size : Z;
  bd_model : string;
  bd_rota : bool;
  bd_type : string;
  bd_tran : string
}.

Definition disk_entry (d : blockdev) : option diskInv :=
  if negb (d.(bd_type) =? "disk")%string then None
  else
    let t := if EqualFold d.(bd_tran) "nvme" || HasPrefix d.(bd_name) "nvme" then "NVMe"
             else if negb d.(bd_rota) then "SSD" else "HDD" in
    let name := "/dev/" +:+ d.(bd_name) in
    let model := TrimSpace d.(bd_model) in
    Some (mkDiskInv name model d.(bd_size) t d.(bd_tran) (diskEligible name model d.(bd_tran) d.(bd_size))).

(** [None]: lsblk failed or its answer did not decode. *)
Definition disksInv (lsblk : option (list blockdev)) : list diskInv :=
  match lsblk with Some l => omap disk_entry l | None => [] end.

(** ** Add-in cards *)

Record cardInv : Type := mkCardInv { ca_Slot : string; ca_Name : string; ca_Type : string }.

Definition pciVendorNames : list (string * string) :=
  [("0x10de", "NVIDIA"); ("0x1002", "AMD"); ("0x8086", "Intel"); ("0x15b3", "Mellanox"); ("0x1077", "QLogic");
   ("0x10df", "Emulex"); ("0x14e4", "Broadcom"); ("0x1a03", "ASPEED"); ("0x102b", "Matrox"); ("0x10ee", "Xilinx");
   ("0x1da3", "Habana")].

Definition cardClass (class : string) : string :=
  let c := TrimPrefix (ToLower class) "0x" in
  if HasPrefix c "03" then "GPU"
  else if HasPrefix c "1200" then "Accelerator"
  else if HasPrefix c "0c04" then "FC HBA"
  else if HasPrefix c "0c06" || HasPrefix c "0207" then "InfiniBand"
  else "".

Definition slot_le (a b : cardInv) : Prop := string_le a.(ca_Slot) b.(ca_Slot).
#[export] Instance slot_le_dec : RelDecision slot_le.
Proof. intros a b. unfold slot_le. apply _. Defined.
#[export] Instance slot_le_total : Total slot_le.
Proof. intros a b. unfold slot_le. apply (total string_le). Qed.
#[export] Instance slot_le_trans : Transitive slot_le.
Proof. intros a b c. unfold slot_le. apply (transitivity (R := string_le)). Qed.

Section Cards.
(** The id files of a PCI device, by address and name. *)
Context (id_file : string → string → string).

Definition readID (addr f : string) : string := TrimSpace (id_file addr f).

Definition card_name (addr : string) : string :=
  let v := readID addr "vendor" in
  let v := match find (fun e => (e.1 =? ToLower v)%string) pciVendorNames with Some e => e.2 | None => v end in
  TrimSpace (v +:+ " " +:+ readID addr "device").

Definition class_card (m : gmap string cardInv) (addr : string) : gmap string cardInv :=
  let t := cardClass (readID addr "class") in
  if is_empty t then m else <[addr := mkCardInv addr (card_name addr) t]> m.

Definition rdma_card (m : gmap string cardInv) (dest : option string) : gmap string cardInv :=
  match dest with
  | None => m
  | Some dest =>
      let addr := Base dest in
      match m !! addr with
      | Some _ => m
      | None => <[addr := mkCardInv addr (card_name addr) "RDMA NIC"]> m
      end
  end.

(** [pci]: the devices of the bus; [ibs]: where the device links of the
    infiniband class go, [None] for one that cannot be read. *)
Definition cardsInvFrom (pci : list string) (ibs : list (option string)) : list cardInv :=
  merge_sort slot_le (map_to_list (foldl rdma_card (foldl class_card ∅ pci) ibs)).*2.

End Cards.

Record invReport : Type := mkInvReport {
  iv_Serial : string;
  iv_MACs : list string;
  iv_Manufacturer : string;
  iv_Model : string;
  iv_CPUModel : string;
  iv_CPUCount : Z;
  iv_MemoryBytes : Z;
  iv_NICs : list nicInv;
  iv_Disks : list diskInv;
  iv_Cards : list cardInv
}.

Definition gatherInventory (dmi : string → string) (cpu mem : option string) (net : list sys_net)
    (lsblk : option (list blockdev)) (id_file : string → string → string) (pci : list string)
    (ibs : list (option string)) : invReport :=
  mkInvReport (TrimSpace (dmi "product_serial")) (macs net) (TrimSpace (dmi "sys_vendor"))
    (TrimSpace (dmi "product_name")) (cpuInfo cpu).1 (cpuInfo cpu).2 (memTotalBytes mem)
    (nicsInv net) (disksInv lsblk) (cardsInvFrom id_file pci ibs).

(** ** The two enumerations agree *)

(** A PCI address as the kernel prints it: nine lower-case hex digits. *)
Definition hex_char (d : Z) : ascii := Ascii.ascii_of_N (Z.to_N (if d <? 10 then d + 48 else d + 87)).

Fixpoint hex_text (l : list Z) : string :=
  match l with [] => "" | d :: l => String (hex_char d) (hex_text l) end.

Definition is_hex (d : Z) : Prop := 0 <= d < 16.

Record pci : Type := mkPci { pci_dom : list Z; pci_bus : list Z; pci_dev : list Z; pci_fn : Z }.

Definition pci_ok (p : pci) : Prop :=
  length p.(pci_dom) = 4%nat ∧ length p.(pci_bus) = 2%nat ∧ length p.(pci_dev) = 2%nat
  ∧ Forall is_hex (p.(pci_dom) ++ p.(pci_bus) ++ p.(pci_dev) ++ [p.(pci_fn)]).

Definition pci_text (p : pci) : string :=
  hex_text p.(pci_dom) +:+ ":" +:+ hex_text p.(pci_bus) +:+ ":" +:+ hex_text p.(pci_dev) +:+ "."
  +:+ hex_text [p.(pci_fn)].

Definition num (l : list Z) : Z := foldl (fun acc d => acc * 16 + d) 0 l.

Definition pci_rank (p : pci) : rank := (num p.(pci_dom), num p.(pci_bus), num p.(pci_dev), p.(pci_fn)).

Lemma hex_digit_char d : is_hex d → hex_digit (hex_char d) = Some d.
Proof.
  intros H. assert (d ∈ seqZ 0 16) as Hin by by apply elem_of_seqZ. clear H.
  assert (Forall (fun d => hex_digit (hex_char d) = Some d) (seqZ 0 16)) as H.
  { apply Forall_forall. intros x Hx. vm_compute in Hx. repeat (apply elem_of_cons in Hx as [->|Hx]; [reflexivity|]).
    by apply elem_of_nil in Hx. }
  rewrite Forall_forall in H. by apply H.
Qed.

Lemma hex_char_compare d e : is_hex d → is_hex e → Ascii.compare (hex_char d) (hex_char e) = Z.compare d e.
Proof.
  intros Hd He.
  assert (forallb (fun d => forallb (fun e => bool_decide (Ascii.compare (hex_char d) (hex_char e) = Z.compare d e))
            (seqZ 0 16)) (seqZ 0 16) = true) as H by (vm_compute; reflexivity).
  rewrite forallb_forall in H. specialize (H d ltac:(by apply list_elem_of_In, elem_of_seqZ)).
  rewrite forallb_forall in H. specialize (H e ltac:(by apply list_elem_of_In, elem_of_seqZ)).
  by apply bool_decide_eq_true in H.
Qed.

Lemma hex_val_text l acc : Forall is_hex l → hex_val acc (hex_text l) = Some (foldl (fun acc d => acc * 16 + d) acc l).
Proof.
  revert acc. induction l as [|d l IH]; intros acc Hl; [done|]. apply Forall_cons in Hl as [Hd Hl].
  cbn. rewrite (hex_digit_char d Hd). by apply IH.
Qed.

Lemma num_bound l acc : Forall is_hex l → 0 <= acc →
  0 <= foldl (fun acc d => acc * 16 + d) acc l < (acc + 1) * 16 ^ Z.of_nat (length l).
Proof.
  revert acc. induction l as [|d l IH]; intros acc Hl Ha; [cbn; lia|]. apply Forall_cons in Hl as [Hd Hl].
  unfold is_hex in Hd. specialize (IH (acc * 16 + d) Hl ltac:(lia)). cbn [foldl length].
  rewrite Nat2Z.inj_succ, Z.pow_succ_r by lia. pose proof (Z.pow_pos_nonneg 16 (Z.of_nat (length l))). nia.
Qed.

Lemma hex_field_text l : Forall is_hex l → (0 < length l <= 8)%nat → hex_field (hex_text l) = Some (num l).
Proof.
  intros Hl Hn. unfold hex_field. destruct (is_empty (hex_text l)) eqn:E.
  { apply is_empty_true in E. destruct l; [cbn in Hn; lia|done]. }
  rewrite hex_val_text by done. cbn. f_equal. apply Z.min_l. pose proof (num_bound l 0 Hl ltac:(lia)) as Hb.
  assert (16 ^ Z.of_nat (length l) <= 16 ^ 8) by (apply Z.pow_le_mono_r; lia). unfold num, MaxInt64. lia.
Qed.

Lemma hex_text_free c l : hex_digit c = None → Forall is_hex l → free_of c (hex_text l).
Proof.
  intros Hc. induction 1 as [|d l Hd Hl IH]; [done|]. cbn. apply free_of_cons. split; [|done].
  intros E. rewrite <- E, hex_digit_char in Hc by done. done.
Qed.

Lemma hex_no_space l : Forall is_hex l → no_space (hex_text l) = true.
Proof.
  induction 1 as [|d l Hd Hl IH]; [done|]. cbn. rewrite IH, andb_true_r. apply negb_true_iff.
  unfold is_space. apply not_true_is_false. intros H. pose proof (hex_digit_char d Hd) as Hc.
  assert (∀ c, (let n := nat_of_ascii c in ((9 <=? n) && (n <=? 13) || (n =? 32))%nat) = true → hex_digit c = None) as Hs.
  { clear. intros [[] [] [] [] [] [] [] []]; vm_compute; congruence. }
  rewrite (Hs _ H) in Hc. done.
Qed.

Lemma pciRank_text p : pci_ok p → pciRank (pci_text p) = pci_rank p.
Proof.
  intros (Hd & Hb & Hv & Hf). apply Forall_app in Hf as [Fd Hf]. apply Forall_app in Hf as [Fb Hf].
  apply Forall_app in Hf as [Fv Ff].
  assert (∀ c, hex_digit c = None → ∀ l, Forall is_hex l → free_of c (hex_text l)) as Hfree by by intros; apply hex_text_free.
  unfold pciRank. rewrite no_space_trim.
  2: { unfold pci_text. rewrite !no_space_app, !hex_no_space by done. reflexivity. }
  assert (pci_text p = (hex_text (pci_dom p) +:+ String ":" (hex_text (pci_bus p) +:+ String ":" (hex_text (pci_dev p))))
                       +:+ String "." (hex_text [pci_fn p])) as ->.
  { unfold pci_text. repeat (rewrite app_assoc_str || rewrite append_cons || rewrite append_nil). reflexivity. }
  assert (∀ l, Forall is_hex l → free_of ":" (hex_text l)) as Hcol by (intros; by apply hex_text_free).
  assert (∀ l, Forall is_hex l → free_of "." (hex_text l)) as Hdot by (intros; by apply hex_text_free).
  unfold pci_match. rewrite Split_app, (Split_free "." (hex_text [_])), Split_app, Split_app, (Split_free ":"); auto.
  2: { apply free_of_app. split; [auto|]. apply free_of_cons. split; [done|]. apply free_of_app. split; [auto|].
       apply free_of_cons. split; [done|auto]. }
  rewrite !hex_field_text by (done || (cbn [length]; lia)). cbn. reflexivity.
Qed.

(** Lexicographic comparisons, one after the other. *)
Definition thenc (c d : comparison) : comparison := match c with Eq => d | _ => c end.

Lemma compare_app pre a b : String.compare (pre +:+ a) (pre +:+ b) = String.compare a b.
Proof.
  induction pre as [|c pre IH]; [done|]. rewrite !append_cons. cbn [String.compare].
  assert (Ascii.compare c c = Eq) as -> by (unfold Ascii.compare; apply N.compare_refl). exact IH.
Qed.

Lemma num_compare l1 l2 a1 a2 s1 s2 :
  length l1 = length l2 → Forall is_hex l1 → Forall is_hex l2 →
  thenc (Z.compare a1 a2) (String.compare (hex_text l1 +:+ s1) (hex_text l2 +:+ s2))
  = thenc (Z.compare (foldl (fun acc d => acc * 16 + d) a1 l1) (foldl (fun acc d => acc * 16 + d) a2 l2))
      (String.compare s1 s2).
Proof.
  revert l2 a1 a2. induction l1 as [|d l1 IH]; intros [|e l2] a1 a2 Hlen H1 H2; try done.
  apply Forall_cons in H1 as [Hd H1], H2 as [He H2]. cbn [foldl]. injection Hlen as Hlen.
  rewrite <- (IH l2 _ _ Hlen H1 H2). cbn [hex_text]. rewrite !append_cons. cbn [String.compare].
  rewrite hex_char_compare by done. unfold is_hex in *.
  destruct (Z.compare_spec a1 a2), (Z.compare_spec d e), (Z.compare_spec (a1 * 16 + d) (a2 * 16 + e));
    cbn; try done; try lia.
Qed.

Lemma hex_compare l1 l2 s1 s2 :
  length l1 = length l2 → Forall is_hex l1 → Forall is_hex l2 →
  String.compare (hex_text l1 +:+ s1) (hex_text l2 +:+ s2)
  = thenc (Z.compare (num l1) (num l2)) (String.compare s1 s2).
Proof. intros Hl H1 H2. apply (num_compare l1 l2 0 0); done. Qed.

Lemma pci_compare p q : pci_ok p → pci_ok q →
  String.compare (pci_text p) (pci_text q)
  = thenc (Z.compare (num p.(pci_dom)) (num q.(pci_dom)))
      (thenc (Z.compare (num p.(pci_bus)) (num q.(pci_bus)))
        (thenc (Z.compare (num p.(pci_dev)) (num q.(pci_dev))) (Z.compare p.(pci_fn) q.(pci_fn)))).
Proof.
  intros (Ld & Lb & Lv & F) (Ld' & Lb' & Lv' & F'). rewrite !Forall_app in F, F'.
  destruct F as (Fd & Fb & Fv & Ff), F' as (Fd' & Fb' & Fv' & Ff'). unfold pci_text.
  rewrite hex_compare, compare_app, hex_compare, compare_app, hex_compare, compare_app by (done || congruence).
  rewrite <- (app_nil_r_str (hex_text [pci_fn p])), <- (app_nil_r_str (hex_text [pci_fn q])), hex_compare by done.
  change (num [pci_fn p]) with (pci_fn p). change (num [pci_fn q]) with (pci_fn q). cbn [String.compare].
  repeat f_equal. by destruct (Z.compare (pci_fn p) (pci_fn q)).
Qed.

Lemma less_step x y c r :
  r = bool_decide (c = Lt) → (if negb (x =? y) then x <? y else r) = bool_decide (thenc (Z.compare x y) c = Lt).
Proof. intros ->. destruct (Z.eqb_spec x y), (Z.ltb_spec x y), (Z.compare_spec x y); cbn; (done || lia). Qed.

Lemma rank_less_compare a0 a1 a2 a3 b0 b1 b2 b3 :
  rank_less (a0, a1, a2, a3) (b0, b1, b2, b3)
  = bool_decide (thenc (a0 ?= b0) (thenc (a1 ?= b1) (thenc (a2 ?= b2) (a3 ?= b3))) = Lt).
Proof.
  apply less_step, less_step, less_step. rewrite (less_step a3 b3 Eq) by done. by destruct (a3 ?= b3).
Qed.

Lemma thenc_opp c d : CompOpp (thenc c d) = thenc (CompOpp c) (CompOpp d).
Proof. by destruct c. Qed.

(** The order of the links' texts is the order of the addresses. *)
Lemma pci_text_order pre p q : pci_ok p → pci_ok q →
  string_le (pre +:+ pci_text p) (pre +:+ pci_text q) ↔ rank_less (pci_rank q) (pci_rank p) = false.
Proof.
  intros Hp Hq. unfold string_le, String.leb, pci_rank. rewrite compare_app, pci_compare, rank_less_compare by done.
  rewrite bool_decide_eq_false. set (c := thenc _ _). 
  rewrite (Z.compare_antisym (num (pci_dom p)) (num (pci_dom q))), (Z.compare_antisym (num (pci_bus p)) (num (pci_bus q))),
    (Z.compare_antisym (num (pci_dev p)) (num (pci_dev q))), (Z.compare_antisym (pci_fn p) (pci_fn q)), <- !thenc_opp.
  fold c. by destruct c.
Qed.

Definition rank_le (a b : rank) : Prop := rank_less b a = false.

Lemma rank_le_spec a0 a1 a2 a3 b0 b1 b2 b3 :
  rank_le (a0, a1, a2, a3) (b0, b1, b2, b3)
  ↔ a0 < b0 ∨ (a0 = b0 ∧ (a1 < b1 ∨ (a1 = b1 ∧ (a2 < b2 ∨ (a2 = b2 ∧ a3 <= b3))))).
Proof.
  unfold rank_le. rewrite rank_less_compare, bool_decide_eq_false.
  destruct (Z.compare_spec b0 a0), (Z.compare_spec b1 a1), (Z.compare_spec b2 a2), (Z.compare_spec b3 a3);
    cbn; split; intros; (done || lia).
Qed.

Lemma rank_le_false a b : rank_le a b ↔ rank_less b a = false.
Proof. done. Qed.

#[export] Instance pci_order_total : Total pci_order.
Proof.
  intros a b. unfold pci_order, pciLess. destruct (pciRank (ni_PCIAddr a)) as [[[]]], (pciRank (ni_PCIAddr b)) as [[[]]].
  rewrite <- !rank_le_false, !rank_le_spec. lia.
Qed.
#[export] Instance pci_order_trans : Transitive pci_order.
Proof.
  intros a b c. unfold pci_order, pciLess.
  destruct (pciRank (ni_PCIAddr a)) as [[[]]], (pciRank (ni_PCIAddr b)) as [[[]]], (pciRank (ni_PCIAddr c)) as [[[]]].
  rewrite <- !rank_le_false, !rank_le_spec. lia.
Qed.

Lemma filter_all {A} (P : A → Prop) `{∀ x, Decision (P x)} (l : list A) : Forall P l → filter P l = l.
Proof. induction 1 as [|x l Hx Hl IH]; [done|]. rewrite filter_cons. destruct (decide (P x)); [|done]. by rewrite IH. Qed.

Lemma filter_none {A} (P : A → Prop) `{∀ x, Decision (P x)} (l : list A) : Forall (fun x => ¬ P x) l → filter P l = [].
Proof. induction 1 as [|x l Hx Hl IH]; [done|]. rewrite filter_cons. by destruct (decide (P x)). Qed.

(** A sorted list in which everything with [P] comes strictly first. *)
Lemma sorted_split {A} (R : relation A) (P : A → Prop) `{∀ x, Decision (P x)} (l : list A) :
  StronglySorted R l → (∀ x y, x ∈ l → y ∈ l → P x → ¬ P y → ¬ R y x) →
  l = filter P l ++ filter (fun x => ¬ P x) l.
Proof.
  induction 1 as [|x l Hs IH Hx]; [done|]. intros Hd. rewrite !filter_cons. destruct (decide (P x)) as [Hp|Hp].
  - destruct (decide (¬ P x)); [done|]. cbn. f_equal. apply IH. intros y z Hy Hz. apply Hd; set_solver.
  - destruct (decide (¬ P x)); [|done].
    assert (Forall (fun y => ¬ P y) l) as Hn.
    { apply Forall_forall. intros y Hy Py. apply (Hd y x); [set_solver|set_solver|done..|].
      rewrite Forall_forall in Hx. by apply Hx. }
    by rewrite (filter_none P l Hn), (filter_all (fun x => ¬ P x) l Hn).
Qed.

Lemma sorted_image {A B} (R : relation A) (R' : relation B) (P : A → Prop) `{∀ x, Decision (P x)} (f : A → B) (l : list A) :
  StronglySorted R l → (∀ x y, x ∈ l → y ∈ l → P x → P y → R x y → R' (f x) (f y)) →
  StronglySorted R' (f <$> filter P l).
Proof.
  induction 1 as [|x l Hs IH Hx]; intros Hf; [constructor|]. rewrite filter_cons.
  assert (StronglySorted R' (f <$> filter P l)) as Hl by (apply IH; intros y z Hy Hz; apply Hf; set_solver).
  destruct (decide (P x)) as [Hp|]; [|done]. rewrite fmap_cons. constructor; [done|].
  apply Forall_fmap, Forall_forall. intros y [Py Hy]%list_elem_of_filter. rewrite Forall_forall in Hx.
  apply Hf; try done; [set_solver|set_solver|by apply Hx].
Qed.

Lemma NoDup_image {A B} (f : A → B) (l : list A) x y :
  NoDup (f <$> l) → x ∈ l → y ∈ l → f x = f y → x = y.
Proof.
  intros Hn [i Hi]%list_elem_of_lookup [j Hj]%list_elem_of_lookup Hf.
  assert (i = j) as <-; [|congruence].
  apply (NoDup_lookup _ i j (f x) Hn); rewrite list_lookup_fmap; [by rewrite Hi|by rewrite Hj, Hf].
Qed.

(** ** [IF.k] means the same card to the operator and to the node *)

Definition to_nic (e : sys_net) : nic := mkNic e.(sn_name) e.(sn_link).

(** A physical PCI card: its link leads to a PCI address; it has a MAC. *)
Definition pci_card (e : sys_net) (p : pci) : Prop :=
  e.(sn_link) = Some ("../../../" +:+ pci_text p) ∧ pci_ok p ∧ e.(sn_name) ≠ "lo"
  ∧ no_mac (TrimSpace (e.(sn_file) "address")) = false.

Lemma last_element_pci p : pci_ok p → last_element ("../../../" +:+ pci_text p) = pci_text p.
Proof.
  intros (_ & _ & _ & F). rewrite !Forall_app in F. destruct F as (Fd & Fb & Fv & Ff).
  unfold last_element. change ("../../../" +:+ pci_text p) with ("../../.." +:+ String "/" (pci_text p)).
  rewrite LastIndexByte_app; [by rewrite sdrop_S_app|].
  assert (∀ l, Forall is_hex l → free_of "/" (hex_text l)) as Hfree by (intros; by apply hex_text_free).
  unfold pci_text. repeat (apply free_of_app; split; [done || auto|]).
  auto.
Qed.

Definition has_pci (n : nicInv) : Prop := n.(ni_PCIAddr) ≠ "".
#[export] Instance has_pci_dec n : Decision (has_pci n).
Proof. unfold has_pci. apply _. Defined.

Definition label_of (n : nicInv) : string * string := (n.(ni_Name), "../../../" +:+ n.(ni_PCIAddr)).

(** What [physIFs] sorts. *)
Definition phys_devs (entries : list nic) : list (string * string) :=
  omap (fun e => if (e.(nic_name) =? "lo")%string then None
                 else (fun p => (e.(nic_name), p)) <$> e.(nic_pci)) entries.

Lemma pci_text_ne p : pci_ok p → pci_text p ≠ "".
Proof. intros (Hd & _). unfold pci_text. by destruct (pci_dom p). Qed.

Section Labels.
Context (entries : list sys_net).
Context (Hcards : Forall (fun e => e.(sn_link) = None ∨ ∃ p, pci_card e p) entries).

Lemma same_cards : label_of <$> filter has_pci (omap nic_entry entries) = phys_devs (to_nic <$> entries).
Proof.
  induction Hcards as [|e es He Hes IH]; [done|]. specialize (IH Hes).
  unfold phys_devs in *. rewrite fmap_cons. cbn [omap list_omap].
  unfold nic_entry at 1. cbn [nic_name nic_pci to_nic]. destruct He as [He|(p & He & Hp & Hn & Hm)].
  - rewrite He. destruct (String.eqb_spec (sn_name e) "lo"); [exact IH|].
    cbv zeta. destruct (no_mac _); [exact IH|]. cbn [fmap option_fmap option_map]. rewrite filter_cons.
    destruct (decide _) as [[]|]; [done|exact IH].
  - rewrite He. destruct (String.eqb_spec (sn_name e) "lo"); [done|]. cbv zeta. rewrite Hm.
    cbn [fmap option_fmap option_map]. rewrite filter_cons. destruct (decide _) as [_|Hb].
    + rewrite fmap_cons, IH. unfold label_of. cbn [ni_Name ni_PCIAddr]. by rewrite last_element_pci.
    + destruct Hb. unfold has_pci. cbn. rewrite last_element_pci by done. by apply pci_text_ne.
Qed.

(** The texts sorted by are the links. *)
Lemma link_texts : (phys_devs (to_nic <$> entries)).*2 = omap sn_link entries.
Proof.
  induction Hcards as [|e es He Hes IH]; [done|]. specialize (IH Hes).
  unfold phys_devs in *. rewrite fmap_cons. cbn [omap list_omap nic_name nic_pci to_nic].
  destruct He as [He|(p & He & Hp & Hn & Hm)]; rewrite He.
  - destruct (_ =? _)%string; exact IH.
  - destruct (String.eqb_spec (sn_name e) "lo"); [done|]. cbn [fmap option_fmap option_map].
    rewrite fmap_cons. f_equal. exact IH.
Qed.

Lemma card_address n : n ∈ omap nic_entry entries → n.(ni_PCIAddr) = "" ∨ ∃ p, pci_ok p ∧ n.(ni_PCIAddr) = pci_text p.
Proof.
  intros (e & He & Hn)%list_elem_of_omap. rewrite Forall_forall in Hcards. specialize (Hcards e He).
  unfold nic_entry in Hn. destruct (_ =? _)%string; [done|]. cbv zeta in Hn. destruct (no_mac _); [done|].
  injection Hn as <-. cbn. destruct Hcards as [-> | (p & -> & Hp & _)]; [by left|right]. exists p.
  by rewrite last_element_pci.
Qed.

Lemma inventory_split :
  nicsInv entries = filter has_pci (nicsInv entries) ++ filter (fun n => ¬ has_pci n) (nicsInv entries).
Proof.
  apply (sorted_split pci_order); [apply (StronglySorted_merge_sort _)|].
  assert (∀ n, n ∈ nicsInv entries → n.(ni_PCIAddr) = "" ∨ ∃ p, pci_ok p ∧ n.(ni_PCIAddr) = pci_text p) as Hin.
  { intros n Hn. apply card_address. unfold nicsInv in Hn. by rewrite merge_sort_Permutation in Hn. }
  intros x y Hx Hy Px Py. unfold has_pci in *. destruct (Hin x Hx) as [|(p & Hp & Ex)]; [done|].
  destruct (Hin y Hy) as [Ey|(q & Hq & Ey)]; [|destruct Py; rewrite Ey; by apply pci_text_ne].
  unfold pci_order, pciLess. rewrite Ex, Ey, pciRank_text by done. change (pciRank "") with no_rank.
  rewrite <- rank_le_false. unfold no_rank, pci_rank. rewrite rank_le_spec.
  destruct Hp as (Hd & _ & _ & F). apply Forall_app in F as [Fd _].
  pose proof (num_bound (pci_dom p) 0 Fd ltac:(lia)) as Hb. rewrite Hd in Hb. unfold num in *. cbn in Hb. lia.
Qed.

End Labels.

(** C23. The operator's interface labels name the same cards on the node: when every
    network card is a PCI device with an address of its own, the inventory that the
    label mapper shows lists the cards in the very order in which the installer
    numbers them, ahead of every virtual interface.  The inventory sorts by bus
    number, the installer by the text of the device links. *)
Theorem labels_agree entries :
  Forall (fun e => e.(sn_link) = None ∨ ∃ p, pci_card e p) entries →
  NoDup (omap sn_link entries) →
  ∃ virtual, ni_Name <$> nicsInv entries = physIFs (to_nic <$> entries) ++ virtual.
Proof.
  intros Hc Hn. exists (ni_Name <$> filter (fun n => ¬ has_pci n) (nicsInv entries)).
  rewrite (inventory_split entries Hc), fmap_app at 1. f_equal.
  enough (label_of <$> filter has_pci (nicsInv entries) = merge_sort pci_le (phys_devs (to_nic <$> entries))) as Heq.
  { change (physIFs _) with (fst <$> merge_sort pci_le (phys_devs (to_nic <$> entries))). rewrite <- Heq.
    by rewrite <- list_fmap_compose. }
  assert (nicsInv entries ≡ₚ omap nic_entry entries) as Hperm by apply merge_sort_Permutation.
  assert (label_of <$> filter has_pci (nicsInv entries) ≡ₚ phys_devs (to_nic <$> entries)) as Hp.
  { by rewrite Hperm, same_cards. }
  apply (StronglySorted_unique_strong pci_le); [| |apply (StronglySorted_merge_sort _)|by rewrite merge_sort_Permutation].
  - intros x y Hx Hy Hxy Hyx. rewrite Hp in Hx. rewrite merge_sort_Permutation in Hy.
    apply (NoDup_image snd (phys_devs (to_nic <$> entries))); [by rewrite link_texts|done|done|].
    by apply String.leb_antisym.
  - apply (sorted_image pci_order); [apply (StronglySorted_merge_sort _)|].
    intros x y Hx Hy Px Py Hxy. rewrite Hperm in Hx, Hy. unfold has_pci in *.
    destruct (card_address entries Hc x Hx) as [|(p & Hpx & Ex)]; [done|].
    destruct (card_address entries Hc y Hy) as [|(q & Hqy & Ey)]; [done|].
    unfold pci_order, pciLess in Hxy. rewrite Ex, Ey, !pciRank_text in Hxy by done.
    unfold pci_le, label_of. cbn [snd]. rewrite Ex, Ey. by apply pci_text_order.
Qed.

(** Two cards behind bus addresses, probed in the wrong order, and a bridge. *)
Definition demo_sys (name : string) (link : option string) : sys_net :=
  mkSysNet name (fun f => if (f =? "address")%string then "52:54:00:00:00:01" else "") link.

Definition demo_net : list sys_net :=
  [demo_sys "bridge0" None; demo_sys "eth0" (Some "../../../0000:1a:00.0"); demo_sys "eth1" (Some "../../../0000:09:00.1")].

Lemma labels_agree_witness :
  ∃ virtual, ["eth1"; "eth0"; "bridge0"] = ["eth1"; "eth0"] ++ virtual ∧ physIFs (to_nic <$> demo_net) = ["eth1"; "eth0"].
Proof.
  destruct (labels_agree demo_net) as [virtual H].
  - apply Forall_cons; split; [by left|]. apply Forall_cons; split.
    { right. exists (mkPci [0; 0; 0; 0] [1; 10] [0; 0] 0). split_and!; try done. unfold pci_ok, is_hex. cbn.
      split_and!; try done. repeat (constructor; [lia|]). constructor. }
    apply Forall_cons; split; [|by apply Forall_nil].
    right. exists (mkPci [0; 0; 0; 0] [0; 9] [0; 0] 1). split_and!; try done. unfold pci_ok, is_hex. cbn.
    split_and!; try done. repeat (constructor; [lia|]). constructor.
  - vm_compute. repeat (constructor; [set_solver|]). constructor.
  - exists virtual. split; [|vm_compute; reflexivity].
    transitivity (ni_Name <$> nicsInv demo_net); [vm_compute; reflexivity|]. rewrite H. f_equal.
Defined.

(** Virtio cards have no PCI address of their own at the end of their links, so
    the inventory keeps the directory's order and the installer sorts the texts. *)
Example virtio_differ :
  let net := [demo_sys "eth0" (Some "../../../virtio9"); demo_sys "eth1" (Some "../../../virtio10")] in
  (ni_Name <$> nicsInv net) = ["eth0"; "eth1"] ∧ physIFs (to_nic <$> net) = ["eth1"; "eth0"].
Proof. split; vm_compute; reflexivity. Qed.

(** ** Cards *)

Section CardFacts.
Context (id_file : string → string → string).

Definition class_of (addr : string) : string := cardClass (readID id_file addr "class").

Lemma class_cards_lookup pci m addr :
  foldl (class_card id_file) m pci !! addr
  = if decide (addr ∈ pci ∧ class_of addr ≠ "") then Some (mkCardInv addr (card_name id_file addr) (class_of addr))
    else m !! addr.
Proof.
  revert m. induction pci as [|a pci IH]; intros m; [by destruct (decide _) as [[?%elem_of_nil ?]|]|].
  cbn [foldl]. rewrite IH. unfold class_card. fold (class_of a).
  destruct (is_empty (class_of a)) eqn:Et.
  - apply is_empty_true in Et.
    destruct (decide (addr ∈ pci ∧ _)), (decide (addr ∈ a :: pci ∧ _)) as [[Hin Hc]|Hc]; try done; [set_solver|].
    apply elem_of_cons in Hin as [->|]; [congruence|naive_solver].
  - apply is_empty_false in Et. destruct (decide (addr = a)) as [->|Hne].
    + rewrite lookup_insert_eq. destruct (decide (a ∈ pci ∧ _)), (decide (a ∈ a :: pci ∧ _)) as [|Hc]; try done; set_solver.
    + rewrite lookup_insert_ne by done.
      destruct (decide (addr ∈ pci ∧ _)), (decide (addr ∈ a :: pci ∧ _)); try done; set_solver.
Qed.

(** The devices behind the infiniband class. *)
Definition backed (ibs : list (option string)) : list string := Base <$> omap id ibs.

Lemma rdma_cards_lookup ibs m addr :
  foldl (rdma_card id_file) m ibs !! addr
  = match m !! addr with
    | Some c => Some c
    | None => if decide (addr ∈ backed ibs) then Some (mkCardInv addr (card_name id_file addr) "RDMA NIC") else None
    end.
Proof.
  revert m. induction ibs as [|[dest|] ibs IH]; intros m.
  - cbn. destruct (decide _) as [?%elem_of_nil|]; [done|]. by destruct (m !! addr).
  - change (backed (Some dest :: ibs)) with (Base dest :: backed ibs). cbn [foldl]. rewrite IH. unfold rdma_card.
    destruct (m !! Base dest) as [c|] eqn:Em.
    + destruct (m !! addr) eqn:Ea; [done|].
      destruct (decide (addr ∈ backed ibs)), (decide (addr ∈ Base dest :: backed ibs)); try done; set_solver.
    + destruct (decide (addr = Base dest)) as [->|Hne].
      * rewrite lookup_insert_eq, Em. destruct (decide (Base dest ∈ Base dest :: backed ibs)); [done|set_solver].
      * rewrite lookup_insert_ne by done. destruct (m !! addr); [done|].
        destruct (decide (addr ∈ backed ibs)), (decide (addr ∈ Base dest :: backed ibs)); try done; set_solver.
  - change (backed (None :: ibs)) with (backed ibs). cbn [foldl]. apply IH.
Qed.

(** The cards are each device of a reported class and each other device behind the
    infiniband class, once and in the order of their addresses. *)
Theorem cards_spec pci ibs :
  let cards := cardsInvFrom id_file pci ibs in
  StronglySorted slot_le cards ∧ NoDup (ca_Slot <$> cards)
  ∧ ∀ c, c ∈ cards ↔
      (c.(ca_Slot) ∈ pci ∧ class_of c.(ca_Slot) ≠ ""
       ∧ c = mkCardInv c.(ca_Slot) (card_name id_file c.(ca_Slot)) (class_of c.(ca_Slot)))
      ∨ (c.(ca_Slot) ∈ backed ibs ∧ ¬ (c.(ca_Slot) ∈ pci ∧ class_of c.(ca_Slot) ≠ "")
         ∧ c = mkCardInv c.(ca_Slot) (card_name id_file c.(ca_Slot)) "RDMA NIC").
Proof.
  unfold cardsInvFrom. set (m := foldl _ (foldl _ ∅ pci) ibs).
  assert (∀ addr c, m !! addr = Some c ↔
    (addr ∈ pci ∧ class_of addr ≠ "" ∧ c = mkCardInv addr (card_name id_file addr) (class_of addr))
    ∨ (addr ∈ backed ibs ∧ ¬ (addr ∈ pci ∧ class_of addr ≠ "")
       ∧ c = mkCardInv addr (card_name id_file addr) "RDMA NIC")) as Hm.
  { intros addr c. unfold m. rewrite rdma_cards_lookup, class_cards_lookup, lookup_empty.
    destruct (decide (addr ∈ pci ∧ _)), (decide (addr ∈ backed ibs)); naive_solver. }
  assert (∀ addr c, m !! addr = Some c → c.(ca_Slot) = addr) as Hkey by by intros addr c [(_&_&->)|(_&_&->)]%Hm.
  split_and!.
  - apply (StronglySorted_merge_sort _).
  - rewrite merge_sort_Permutation. rewrite <- list_fmap_compose.
    rewrite (list_fmap_ext _ fst).
    + apply NoDup_fst_map_to_list.
    + intros i [addr c] Hi. cbn. apply Hkey. by apply elem_of_map_to_list, (list_elem_of_lookup_2 _ i).
  - intros c. rewrite merge_sort_Permutation, list_elem_of_fmap. rewrite <- Hm. split.
    + intros ([addr c'] & -> & Hc). apply elem_of_map_to_list in Hc. cbn. by rewrite (Hkey _ _ Hc).
    + intros Hc. exists (ca_Slot c, c). split; [done|]. by apply elem_of_map_to_list.
Qed.

End CardFacts.

(** The SAN markers match inside words: [msa] also is in mSATA. *)
Example msata_refused : diskEligible "/dev/sda" "InnoDisk mSATA 3ME4" "sata" 64023257088 = false.
Proof. vm_compute. reflexivity. Qed.
