(* ===== verification/AgentApply.v ===== *)
(** * The OS phase on a node (cmd/phone-home-agent/main.go)

    What the agent does at each boot of the restored system: which of its
    flows it starts, the apply of the staged snapshot with its bounded reboots,
    and set-ready.  The node's disk is the state; what the surroundings answer
    in one boot (the driver, the BMC's gates, hex_config) is that boot's input;
    what the agent does, in order, is its output. *)
From S2P Require Import Prelude GoStrings GoNet ClusterModel Generator AgentSel LegacyImage.
From Stdlib Require Import Ascii.

Open Scope string_scope.
Open Scope list_scope.
Open Scope Z_scope.

(** ** The disk *)

Record setReadyInput : Type := mkSetReadyInput {
  si_Trigger : bool;
  si_CreateExternal : bool;
  si_CIDR : string;
  si_Gateway : string;
  si_IPRange : string
}.

Record Disk : Type := mkDisk {
  dk_configured : bool;                (* configuredMarker *)
  dk_terminal : bool;                  (* applyTerminalFile *)
  dk_reboots : option string;          (* applyRebootFile *)
  dk_snapshot : option (option archive); (* localSnapshot; [Some None]: a file that does not open *)
  dk_version : option string;          (* versionFile *)
  dk_optout : bool;                    (* repairOptOutMarker *)
  dk_setready : option setReadyInput;  (* localSetReady, when it decodes *)
  dk_root : gmap string string         (* the other files of the root *)
}.

Definition set_configured (b : bool) (k : Disk) : Disk :=
  mkDisk b k.(dk_terminal) k.(dk_reboots) k.(dk_snapshot) k.(dk_version) k.(dk_optout) k.(dk_setready) k.(dk_root).
Definition set_terminal (k : Disk) : Disk :=
  mkDisk k.(dk_configured) true k.(dk_reboots) k.(dk_snapshot) k.(dk_version) k.(dk_optout) k.(dk_setready) k.(dk_root).
Definition set_reboots (s : string) (k : Disk) : Disk :=
  mkDisk k.(dk_configured) k.(dk_terminal) (Some s) k.(dk_snapshot) k.(dk_version) k.(dk_optout) k.(dk_setready) k.(dk_root).
Definition set_snapshot (a : option archive) (k : Disk) : Disk :=
  mkDisk k.(dk_configured) k.(dk_terminal) k.(dk_reboots) (Some a) k.(dk_version) k.(dk_optout) k.(dk_setready) k.(dk_root).

(** [ok]: creating or removing the marker works. *)
Definition setRepairOptOut (ok on : bool) (k : Disk) : Disk :=
  mkDisk k.(dk_configured) k.(dk_terminal) k.(dk_reboots) k.(dk_snapshot) k.(dk_version) (if ok then on else k.(dk_optout)) k.(dk_setready) k.(dk_root).

Definition configuredMarker : string := "etc/appliance/state/configured".

(** Stamping the configured marker is what [dk_configured] sees. *)
Definition stamp (markers : gmap string string) (k : Disk) : Disk :=
  mkDisk (k.(dk_configured) || bool_decide (is_Some (markers !! configuredMarker)))
    k.(dk_terminal) k.(dk_reboots) k.(dk_snapshot) k.(dk_version) k.(dk_optout) k.(dk_setready)
    (stampMarkers k.(dk_root) markers).

Definition maxApplyReboots : Z := 3.
Definition cfgExitFailure : Z := 1.
Definition cfgExitNeedReboot : Z := Z.shiftl 1 1.

(** An unreadable file counts as zero. *)
Definition readApplyReboots (k : Disk) : Z := (ParseInt (TrimSpace (default "" k.(dk_reboots)))).1.

(** Up to ten minutes for the boot's own bootstrap: [ready i] says whether its
    marker is there at the [i]-th look.  The seconds it waited. *)
Fixpoint wait_bootstrap (fuel : nat) (i : Z) (ready : Z → bool) : Z :=
  match fuel with
  | O => i
  | S fuel => if ready i then i else if 600 <=? i then i else wait_bootstrap fuel (i + 1) ready
  end.
Definition waitBootstrapDone (ready : Z → bool) : Z := wait_bootstrap 601 0 ready.

(** ** [apply] *)

(** How one [hex_config snapshot_apply] ended: its exit code, [None] when it did
    not exit by itself; what it printed; whether the configured marker is there
    afterwards. *)
Record hexRun : Type := mkHexRun { hx_code : option Z; hx_out : string; hx_configured : bool }.

Inductive applied : Type := ApplyOk | ApplyReboot | ApplyErr (msg : string).

(** What the agent did, as far as the outside sees it. *)
Inductive act : Type :=
| AWriteSEL (phase result detail : string)
| AReportStarted
| AHexConfig (snapshot : option archive)
| AReportApplied (isMaster : bool)
| AReportFailed (msg : string)
| AReboot
| ASetReady (args : list string) (stdin : string)
| AReportReady (ok : bool) (msg : string).

Definition needs_reboot (code : Z) : bool :=
  (0 <=? code) && negb (Z.land code cfgExitNeedReboot =? 0) && (Z.land code cfgExitFailure =? 0).

(** The fallback when nothing is staged: a failed download may leave a file that
    does not open, under the name of the staged snapshot. *)
Inductive fetched : Type := Fetched (a : option archive) | FetchFailed (msg : string) (partial : bool).

(** What is applied, and the markers to stamp afterwards; [stripOk]: rewriting
    the archive without them worked. *)
Definition prepare (etcVersion : option string) (stripOk : bool) (ar : option archive)
    : option archive * gmap string string :=
  match ar with
  | Some a =>
      if needsLegacyMarkerHandling etcVersion && stripOk then
        let '(stripped, m) := stripMarkers a in
        if bool_decide (m = ∅) then (ar, ∅) else (Some stripped, m)
      else (ar, ∅)
  | None => (ar, ∅)
  end.

Definition hex_failed (r : hexRun) : string :=
  "snapshot_apply failed (exit " +:+ Itoa (default (-1) r.(hx_code)) +:+ "): " +:+ TrimSpace r.(hx_out).

(** [stampOk]: writing the markers worked. *)
Definition apply_staged (stripOk stampOk : bool) (hex : option archive → hexRun) (ar : option archive) (k : Disk)
    : Disk * list act * applied :=
  match checkLegacyTimezone k.(dk_version) ar with
  | Err e => (k, [], ApplyErr e)
  | Ok _ =>
      let '(dest, pending) := prepare k.(dk_version) stripOk ar in
      let r := hex dest in
      let k := set_configured r.(hx_configured) k in
      let stamped := if stampOk then stamp pending k else k in
      let acts := [AHexConfig dest] in
      if bool_decide (r.(hx_code) = Some 0) then
        if stampOk || bool_decide (pending = ∅) then (stamped, acts, ApplyOk)
        else (k, acts, ApplyErr "apply succeeded but stamping state markers failed")
      else if needs_reboot (default (-1) r.(hx_code)) then (k, acts, ApplyReboot)
      else if r.(hx_configured) then (stamped, acts, ApplyOk)
      else (k, acts, ApplyErr (hex_failed r))
  end.

Definition apply (download : fetched) (stripOk stampOk : bool) (hex : option archive → hexRun) (k : Disk)
    : Disk * list act * applied :=
  match k.(dk_snapshot) with
  | Some ar => apply_staged stripOk stampOk hex ar k
  | None =>
      match download with
      | Fetched ar => apply_staged stripOk stampOk hex ar (set_snapshot ar k)
      | FetchFailed e partial => (if partial then set_snapshot None k else k, [], ApplyErr e)
      end
  end.

(** ** Set-ready *)

Inductive outcome : Type := Exits | Waits | Reboots.

(** What the surroundings answer in one boot. *)
Record Boot : Type := mkBoot {
  b_isMaster : bool;            (* IS_MASTER of the environment *)
  b_host : string;
  b_optOut : bool;
  b_started : option bool;      (* the driver answered apply-started: its isMaster *)
  b_go_apply : bool;            (* the apply gate is, or comes, on the BMC *)
  b_download : fetched;
  b_stripOk : bool;
  b_stampOk : bool;
  b_writesOk : bool;            (* writing the agent's own state files works *)
  b_hex : option archive → hexRun;
  b_go_setready : bool;
  b_poll : option setReadyInput; (* what a poll of the driver triggers with, if ever *)
  b_cli : bool * string;        (* hex_cli exited 0; its output *)
  b_ready : bool;               (* cube_cluster_ready agrees *)
  b_inband : bool               (* the in-band agent got as far as its apply *)
}.

Definition setready_args (sr : setReadyInput) : list string :=
  ["-c"; "cluster"; "-c"; "set_ready"]
  ++ (if sr.(si_CreateExternal)
      then List.filter (fun a => negb (is_empty a)) [sr.(si_CIDR); sr.(si_Gateway); sr.(si_IPRange)] else []).

Definition run_set_ready (b : Boot) (sr : setReadyInput) : list act :=
  let '(ok, out) := b.(b_cli) in
  let ready := ok && b.(b_ready) in
  let msg := TrimSpace out in
  ASetReady (setready_args sr) (if sr.(si_CreateExternal) then "YES" +:+ nl else "no" +:+ nl)
  :: (if ready then [AWriteSEL "ready" "ok" b.(b_host); AReportReady true ""]
      else [AWriteSEL "ready" "error" msg; AReportReady false msg]).

Definition runSetReady (b : Boot) (k : Disk) : list act * outcome :=
  match k.(dk_setready) with
  | Some sr => if b.(b_go_setready) then (run_set_ready b sr, Exits) else ([], Waits)
  | None => match b.(b_poll) with
            | Some sr => if sr.(si_Trigger) then (run_set_ready b sr, Exits) else ([], Waits)
            | None => ([], Waits)
            end
  end.

(** ** [runLocalApply] *)

Definition write_if (ok : bool) (f : Disk → Disk) (k : Disk) : Disk := if ok then f k else k.

Definition apply_failed (b : Boot) (msg : string) (k : Disk) : Disk * list act * outcome :=
  (write_if b.(b_writesOk) set_terminal k, [AWriteSEL "error" "error" msg; AReportFailed msg], Exits).

(** After [apply]: reboot within bounds, fail for good, or report and finish. *)
Definition after_apply (b : Boot) (isMaster : bool) (res : applied) (k : Disk) : Disk * list act * outcome :=
  match res with
  | ApplyReboot =>
      let n := readApplyReboots k in
      if n <? maxApplyReboots then
        (write_if b.(b_writesOk) (set_reboots (Itoa (n + 1))) k,
         [AWriteSEL "apply" "reboot" (Itoa (n + 1) +:+ "/" +:+ Itoa maxApplyReboots); AReboot], Reboots)
      else apply_failed b ("did not converge after " +:+ Itoa maxApplyReboots +:+ " reboots") k
  | ApplyErr e => apply_failed b e k
  | ApplyOk =>
      let acts := [AWriteSEL "applied" "ok" b.(b_host); AReportApplied isMaster] in
      if isMaster then let '(l, o) := runSetReady b k in (k, acts ++ l, o)
      else (k, acts, Exits)
  end.

Definition runLocalApply (b : Boot) (k : Disk) : Disk * list act * outcome :=
  let k := setRepairOptOut b.(b_writesOk) b.(b_optOut) k in
  if k.(dk_terminal) then (k, [AReportFailed "apply previously failed (terminal state)"], Exits)
  else
    let isMaster := match b.(b_started) with Some m => m | None => b.(b_isMaster) end in
    let acts := [AWriteSEL "rebooted" "ok" b.(b_host); AReportStarted] in
    if negb b.(b_go_apply) then (k, acts, Waits)
    else
      let acts := acts ++ [AWriteSEL "applying" "ok" b.(b_host)] in
      let '(k, l1, res) := apply b.(b_download) b.(b_stripOk) b.(b_stampOk) b.(b_hex) k in
      let '(k, l2, o) := after_apply b isMaster res k in
      (k, acts ++ l1 ++ l2, o).

(** ** [main] *)

(** The driver the agent talks to: the endpoint of the BMC log, then [--server],
    then the kernel's command line, then the PXE server's default address. *)
Fixpoint first_cut (pre : string) (toks : list string) : string :=
  match toks with
  | [] => ""
  | tok :: toks => if HasPrefix tok pre then TrimPrefix tok pre else first_cut pre toks
  end.

Definition serverFromCmdline (cmdline : option string) : string :=
  match cmdline with Some data => first_cut "driver_server=" (Fields data) | None => "" end.

Definition server_of (endpoint flag : string) (cmdline : option string) : string :=
  let srv := if is_empty endpoint then flag else endpoint in
  let srv := if is_empty srv then serverFromCmdline cmdline else srv in
  let srv := if is_empty srv then "http://192.168.1.150" else srv in
  if HasPrefix srv "http" then srv else "http://" +:+ srv.

Record flags : Type := mkFlags {
  fl_preflight : bool;
  fl_restoreDone : bool;
  fl_inventory : bool;
  fl_inspectCheck : bool;
  fl_report : bool
}.

(** What a start of the agent comes to; [JPreflight] is AgentPreflight.v,
    [JInBand] AgentRun.v with [apply] as its [Apply]. *)
Inductive job : Type :=
| JPrintReport | JNothing | JInventory | JInspectCheck | JRestoreDone | JPreflight | JLocalApply | JInBand.

Definition dispatch (f : flags) (k : Disk) : job :=
  if f.(fl_report) then JPrintReport
  else if k.(dk_configured) then JNothing
  else if f.(fl_inventory) then JInventory
  else if f.(fl_inspectCheck) then JInspectCheck
  else if f.(fl_restoreDone) then JRestoreDone
  else if f.(fl_preflight) then JPreflight
  else if bool_decide (is_Some k.(dk_snapshot)) then JLocalApply
  else JInBand.

Definition os_phase : flags := mkFlags false false false false false.

(** [main] as the restored system starts it, without flags. *)
Definition main (b : Boot) (k : Disk) : Disk * list act * outcome :=
  match dispatch os_phase k with
  | JLocalApply => runLocalApply b k
  | JInBand =>
      if b.(b_inband) then
        let '(k, l, _) := apply b.(b_download) b.(b_stripOk) b.(b_stampOk) b.(b_hex) k in (k, l, Exits)
      else (k, [], Waits)
  | _ => (k, [], Exits)
  end.

Lemma main_eq b k :
  main b k =
  if k.(dk_configured) then (k, [], Exits)
  else match k.(dk_snapshot) with
       | Some _ => runLocalApply b k
       | None =>
           if b.(b_inband) then
             let '(k, l, _) := apply b.(b_download) b.(b_stripOk) b.(b_stampOk) b.(b_hex) k in (k, l, Exits)
           else (k, [], Waits)
       end.
Proof. unfold main, dispatch. destruct (dk_configured k); [done|]. by destruct (dk_snapshot k). Qed.

(** Boot after boot: the disk at the end, and what each boot did. *)
Fixpoint boots (bs : list Boot) (k : Disk) : Disk * list (list act) :=
  match bs with
  | [] => (k, [])
  | b :: bs => let '(k, l, _) := main b k in let '(k, ls) := boots bs k in (k, l :: ls)
  end.

(** ** Reboots are bounded, failures are final *)

Definition count_reboots (l : list act) : nat :=
  length (List.filter (fun a => match a with AReboot => true | _ => false end) l).

Definition applies (l : list act) : Prop := ∃ a, In (AHexConfig a) l.

(** The reboots counted on the disk: none yet, or the number that was written. *)
Definition counted (k : Disk) (n : Z) : Prop :=
  0 <= n <= maxApplyReboots ∧ (k.(dk_reboots) = None ∧ n = 0 ∨ k.(dk_reboots) = Some (Itoa n)).

Lemma counted_read k n : counted k n → readApplyReboots k = n.
Proof.
  intros [Hn H]. unfold readApplyReboots. assert (n = 0 ∨ n = 1 ∨ n = 2 ∨ n = 3) as Hc by (unfold maxApplyReboots in Hn; lia).
  destruct H as [[-> ->]| ->]; [reflexivity|]. destruct Hc as [->|[->|[->| ->]]]; reflexivity.
Qed.

(** What an apply leaves alone. *)
Definition same_counts (k k' : Disk) : Prop := k'.(dk_reboots) = k.(dk_reboots) ∧ k'.(dk_terminal) = k.(dk_terminal).

Lemma apply_staged_frame stripOk stampOk hex ar k k' l r :
  apply_staged stripOk stampOk hex ar k = (k', l, r) →
  same_counts k k' ∧ k'.(dk_snapshot) = k.(dk_snapshot) ∧ count_reboots l = 0%nat.
Proof.
  unfold apply_staged, same_counts. intros H. destruct (prepare (dk_version k) stripOk ar) as [dest pending].
  repeat case_match; simplify_eq; done.
Qed.

Lemma apply_frame download stripOk stampOk hex k k' l r :
  apply download stripOk stampOk hex k = (k', l, r) →
  same_counts k k' ∧ (is_Some k.(dk_snapshot) → k'.(dk_snapshot) = k.(dk_snapshot)) ∧ count_reboots l = 0%nat.
Proof.
  unfold apply. intros H. destruct (dk_snapshot k) as [ar|] eqn:E.
  - apply apply_staged_frame in H as (H1 & H2 & H3). by rewrite H2, E.
  - destruct download as [ar|e []].
    + apply apply_staged_frame in H as (H1 & H2 & H3). split_and!; [exact H1|by intros []|done].
    + injection H as <- <- <-. split_and!; [done|by intros []|done].
    + injection H as <- <- <-. split_and!; [done|by intros []|done].
Qed.

Lemma set_ready_no_reboot b sr : count_reboots (run_set_ready b sr) = 0%nat.
Proof. unfold run_set_ready. destruct (b_cli b) as [ok out]. by destruct (ok && b_ready b). Qed.

Lemma runSetReady_no_reboot b k : count_reboots (runSetReady b k).1 = 0%nat.
Proof.
  unfold runSetReady. repeat case_match; try done; apply set_ready_no_reboot.
Qed.

Lemma count_app l1 l2 : count_reboots (l1 ++ l2) = (count_reboots l1 + count_reboots l2)%nat.
Proof. unfold count_reboots. by rewrite List.filter_app, List.length_app. Qed.

Lemma main_counts b k n k' l o :
  counted k n → b.(b_writesOk) = true → main b k = (k', l, o) → counted k' (n + Z.of_nat (count_reboots l)).
Proof.
  intros Hn Hw. assert (∀ k1, same_counts k k1 → counted k1 n) as Hsame.
  { intros k1 [Hr _]. unfold counted in *. by rewrite Hr. }
  assert (counted k (n + Z.of_nat 0)) as Hsame0 by (by rewrite Z.add_0_r).
  rewrite main_eq. destruct (dk_configured k); [by intros [= <- <- _]|].
  destruct (dk_snapshot k) as [ar|] eqn:Es.
  2: { destruct (b_inband b); [|by intros [= <- <- _]]. destruct (apply _ _ _ _ k) as [[k1 l1] r] eqn:Ea.
       intros [= <- <- _]. apply apply_frame in Ea as (H1 & _ & ->). rewrite Z.add_0_r. by apply Hsame. }
  unfold runLocalApply. set (k0 := setRepairOptOut (b_writesOk b) (b_optOut b) k).
  change (dk_terminal k0) with (dk_terminal k).
  destruct (dk_terminal k); [intros [= <- <- _]; rewrite Z.add_0_r; by apply Hsame|].
  destruct (b_go_apply b); cbn [negb]; [|intros [= <- <- _]; rewrite Z.add_0_r; by apply Hsame].
  destruct (apply _ _ _ _ k0) as [[k1 l1] r] eqn:Ea. apply apply_frame in Ea as (H1 & _ & Hl1).
  assert (counted k1 n) as Hk1 by by apply Hsame.
  destruct (after_apply b _ r k1) as [[k2 l2] o2] eqn:Ef. intros [= <- <- _].
  change (count_reboots (AWriteSEL "rebooted" "ok" (b_host b) :: AReportStarted
    :: AWriteSEL "applying" "ok" (b_host b) :: l1 ++ l2)) with (count_reboots (l1 ++ l2)).
  rewrite count_app, Hl1. cbn [Nat.add].
  unfold after_apply, apply_failed, write_if in Ef. rewrite Hw in Ef. destruct r as [| |e].
  - destruct (match b_started b with Some m => m | None => b_isMaster b end).
    + destruct (runSetReady b k1) as [l o1] eqn:Er. pose proof (runSetReady_no_reboot b k1) as Hl. rewrite Er in Hl.
      injection Ef as <- <- _. cbn [fst] in Hl.
      assert (count_reboots (AWriteSEL "applied" "ok" (b_host b) :: AReportApplied true :: l) = 0%nat) as -> by exact Hl.
      by rewrite Z.add_0_r.
    + injection Ef as <- <- _. cbn. by rewrite Z.add_0_r.
  - rewrite (counted_read k1 n Hk1) in Ef. destruct Hk1 as [Hb Hk1]. destruct (Z.ltb_spec n maxApplyReboots); injection Ef as <- <- _.
    + change (count_reboots [AWriteSEL "apply" "reboot" (Itoa (n + 1) +:+ "/" +:+ Itoa maxApplyReboots); AReboot]) with 1%nat.
      split; [lia|]. right. done.
    + cbn. rewrite Z.add_0_r. split; [done|]. exact Hk1.
  - injection Ef as <- <- _. cbn. rewrite Z.add_0_r. exact Hk1.
Qed.

Lemma boots_counts bs k n :
  counted k n → Forall (fun b => b.(b_writesOk) = true) bs →
  n + Z.of_nat (count_reboots (concat (boots bs k).2)) <= maxApplyReboots.
Proof.
  revert k n. induction bs as [|b bs IH]; intros k n Hn Hb; [destruct Hn; cbn; lia|].
  apply Forall_cons in Hb as [Hw Hb]. cbn. destruct (main b k) as [[k1 l] o] eqn:Em.
  pose proof (main_counts b k n k1 l o Hn Hw Em) as H1. specialize (IH k1 _ H1 Hb).
  destruct (boots bs k1) as [k2 ls]. cbn [snd concat] in *. rewrite count_app. lia.
Qed.

Lemma main_terminal b k k' l o :
  k.(dk_terminal) = true → is_Some k.(dk_snapshot) → main b k = (k', l, o) →
  k'.(dk_terminal) = true ∧ k'.(dk_snapshot) = k.(dk_snapshot) ∧ ¬ applies l.
Proof.
  intros Ht [ar Hs] H. rewrite main_eq in H. rewrite Hs in H. unfold runLocalApply in H.
  change (dk_terminal (setRepairOptOut (b_writesOk b) (b_optOut b) k)) with (dk_terminal k) in H. rewrite Ht in H.
  assert (¬ applies [] ∧ ¬ applies [AReportFailed "apply previously failed (terminal state)"]) as [H1 H2].
  { split; intros [a Ha]; [done|]. by destruct Ha as [Ha|[]]. }
  destruct (dk_configured k); injection H as <- <- _; split_and!; try done; cbn; congruence.
Qed.

Lemma boots_terminal bs k :
  k.(dk_terminal) = true → is_Some k.(dk_snapshot) → Forall (fun l => ¬ applies l) (boots bs k).2.
Proof.
  revert k. induction bs as [|b bs IH]; intros k Ht Hs; [apply Forall_nil; exact I|]. cbn.
  destruct (main b k) as [[k1 l] o] eqn:Em. destruct (main_terminal b k k1 l o Ht Hs Em) as (H1 & H2 & H3).
  rewrite <- H2 in Hs. specialize (IH k1 H1 Hs). destruct (boots bs k1) as [k2 ls]. by apply Forall_cons.
Qed.

(** What a boot did once it applied: it had the gate, and said so first. *)
Lemma main_gated b k k' l o :
  main b k = (k', l, o) → is_Some k.(dk_snapshot) → applies l →
  k.(dk_terminal) = false ∧ k.(dk_configured) = false ∧ b.(b_go_apply) = true
  ∧ ∃ l', l = [AWriteSEL "rebooted" "ok" b.(b_host); AReportStarted; AWriteSEL "applying" "ok" b.(b_host)] ++ l'.
Proof.
  intros H [ar Hs] Ha. rewrite main_eq in H. rewrite Hs in H. unfold runLocalApply in H.
  change (dk_terminal (setRepairOptOut (b_writesOk b) (b_optOut b) k)) with (dk_terminal k) in H.
  destruct (dk_configured k); [injection H as <- <- _; by destruct Ha as [? []]|].
  destruct (dk_terminal k); [injection H as <- <- _; by destruct Ha as [? [|[]]]|].
  destruct (b_go_apply b); cbn [negb] in H; [|injection H as <- <- _; by destruct Ha as [? [|[|[]]]]].
  destruct (apply _ _ _ _ _) as [[k1 l1] r]. destruct (after_apply _ _ _ _) as [[k2 l2] o2].
  injection H as <- <- _. split_and!; try done. by eexists.
Qed.

(** C9. Applying always comes to an end: from a freshly restored disk, through any
    number of boots and whatever hex_config, the driver and the BMC answer, the
    agent reboots the node to continue an apply at most three times in all
    (given that its counter file can be written). *)
Theorem reboots_bounded bs k :
  k.(dk_reboots) = None → Forall (fun b => b.(b_writesOk) = true) bs →
  Z.of_nat (count_reboots (concat (boots bs k).2)) <= maxApplyReboots.
Proof. intros Hk Hb. apply (boots_counts bs k 0); [|done]. split; [unfold maxApplyReboots; lia|by left]. Qed.

Definition fails (l : list act) : Prop := ∃ e, In (AReportFailed e) l.

Lemma fails_app l1 l2 : fails (l1 ++ l2) → fails l1 ∨ fails l2.
Proof. intros [e [H|H]%in_app_or]; [left|right]; by exists e. Qed.

(** No report of a failure in a list that is written out. *)
Ltac no_fail := let e := fresh in intros [e ?]; repeat match goal with H : In _ _ |- _ => destruct H as [H|H] end; done.

Lemma set_ready_fine b k : ¬ fails (runSetReady b k).1.
Proof.
  assert (∀ sr, ¬ fails (run_set_ready b sr)) as H.
  { intros sr. unfold run_set_ready. destruct (b_cli b) as [ok out]. destruct (ok && b_ready b); no_fail. }
  unfold runSetReady. repeat case_match; try apply H; no_fail.
Qed.

Lemma apply_fine download stripOk stampOk hex k k' l r :
  apply download stripOk stampOk hex k = (k', l, r) → ¬ fails l.
Proof.
  assert (∀ ar k k' l r, apply_staged stripOk stampOk hex ar k = (k', l, r) → ¬ fails l) as H.
  { clear. intros ar k k' l r H. unfold apply_staged in H. destruct (prepare _ _ _).
    repeat case_match; simplify_eq; no_fail. }
  unfold apply. destruct (dk_snapshot k); [apply H|]. destruct download as [a|e []]; [apply H| |];
    intros [= <- <- <-]; no_fail.
Qed.

Lemma after_apply_failed b m res k1 k2 l2 o :
  after_apply b m res k1 = (k2, l2, o) → b.(b_writesOk) = true → fails l2 →
  k2.(dk_terminal) = true ∧ k2.(dk_snapshot) = k1.(dk_snapshot).
Proof.
  unfold after_apply, apply_failed, write_if. intros H Hw. rewrite Hw in H. destruct res as [| |e].
  - pose proof (set_ready_fine b k1) as Hf. destruct m; [|injection H as <- <- _; no_fail].
    destruct (runSetReady b k1) as [l o1]. injection H as <- <- _.
    intros [H|H]%(fails_app [_; _]); [|done]. exfalso. revert H. no_fail.
  - destruct (_ <? _); injection H as <- <- _; [no_fail|done].
  - by injection H as <- <- _.
Qed.

Lemma failed_is_terminal b k k' l o :
  main b k = (k', l, o) → is_Some k.(dk_snapshot) → b.(b_writesOk) = true →
  fails l → k'.(dk_terminal) = true ∧ is_Some k'.(dk_snapshot).
Proof.
  intros H Hs Hw. destruct (dk_terminal k) eqn:Ht.
  { intros _. destruct (main_terminal b k k' l o Ht Hs H) as (H1 & H2 & _). by rewrite H2. }
  destruct Hs as [ar Hs]. rewrite main_eq in H. rewrite Hs in H. unfold runLocalApply in H.
  change (dk_terminal (setRepairOptOut (b_writesOk b) (b_optOut b) k)) with (dk_terminal k) in H. rewrite Ht in H.
  destruct (dk_configured k); [injection H as <- <- _; no_fail|].
  destruct (b_go_apply b); cbn [negb] in H; [|injection H as <- <- _; no_fail].
  destruct (apply _ _ _ _ _) as [[k1 l1] r] eqn:Ea.
  destruct (after_apply _ _ _ _) as [[k2 l2] o2] eqn:Ef. injection H as <- <- _.
  pose proof (apply_fine _ _ _ _ _ _ _ _ Ea) as Hl1.
  apply apply_frame in Ea as (_ & Hs1 & _). cbn in Hs1. rewrite Hs in Hs1.
  intros [H|[H|H]%fails_app]%(fails_app [_; _; _]); [exfalso; revert H; no_fail|done|].
  destruct (after_apply_failed _ _ _ _ _ _ _ Ef Hw H) as [H1 H2]. split; [exact H1|].
  rewrite H2, Hs1; by eexists.
Qed.

(** C8. With a snapshot staged on its disk, as the installer leaves a node, a
    failed apply is final and none comes unasked: a boot runs hex_config only if
    the node is neither configured nor failed, after the apply gate of its BMC opened
    and after it logged "applying"; and once a boot has reported its apply
    failed and the mark of that could be written, no later boot runs hex_config
    again, whatever the gates and the driver say.  A node without a staged
    snapshot is not covered: there the agent takes the in-band flow (AgentRun.v),
    which asks the driver instead of the BMC and does not look at the mark; what holds
    is that an unconfigured node applies only once that flow has let it. *)
Theorem failure_is_final b bs k k' l o :
  main b k = (k', l, o) →
  (is_Some k.(dk_snapshot) → b.(b_writesOk) = true →
     (applies l → k.(dk_terminal) = false ∧ k.(dk_configured) = false ∧ b.(b_go_apply) = true
        ∧ ∃ l', l = [AWriteSEL "rebooted" "ok" b.(b_host); AReportStarted; AWriteSEL "applying" "ok" b.(b_host)] ++ l')
     ∧ (fails l → Forall (fun l => ¬ applies l) (boots bs k').2))
  ∧ (k.(dk_snapshot) = None → applies l → k.(dk_configured) = false ∧ b.(b_inband) = true).
Proof.
  intros H. split.
  - intros Hs Hw. split; [by apply (main_gated b k k' l o)|]. intros He.
    destruct (failed_is_terminal b k k' l o H Hs Hw He). by apply boots_terminal.
  - intros Hs. rewrite main_eq, Hs in H. destruct (dk_configured k); [injection H as <- <- _; by intros [? []]|].
    destruct (b_inband b); [done|]. injection H as <- <- _. by intros [? []].
Qed.

(** On an old image the agent's detour ends where a new image's apply ends:
    for the snapshot the generator built, hex_config is handed the snapshot
    without its markers, and when it succeeds the markers are on the node with
    the snapshot's content and the node counts as configured. *)
Theorem legacy_apply_configures bytes n d ctl time ar hex k :
  BuildNodeSnapshot templateFS bytes n d ctl time = Ok ar →
  k.(dk_snapshot) = Some (Some ar) → needsLegacyMarkerHandling k.(dk_version) = true →
  is_ok (checkLegacyTimezone k.(dk_version) (Some ar)) = true →
  (hex (Some (stripMarkers ar).1)).(hx_code) = Some 0 →
  let '(k', l, r) := apply (FetchFailed "" false) true true hex k in
  r = ApplyOk ∧ l = [AHexConfig (Some (stripMarkers ar).1)]
  ∧ Forall (fun f => isMarker (entry_name f) = false) (stripMarkers ar).1
  ∧ k'.(dk_configured) = true
  ∧ k'.(dk_root) !! configuredMarker = Some (bytes "template/etc/appliance/state/configured").
Proof.
  intros Hb Hs Hl Hz Hx. unfold apply. rewrite Hs. unfold apply_staged, prepare.
  destruct (checkLegacyTimezone (dk_version k) (Some ar)) as [[]|]; [|done]. rewrite Hl. cbn [andb].
  destruct (strip_generated _ _ _ _ _ _ Hb) as [_ Hm]. destruct (strip_foldl ar [] ∅) as [Hk _]. cbv zeta in Hk.
  change (foldl strip_step ([], ∅) ar) with (stripMarkers ar) in Hk.
  destruct (stripMarkers ar) as [s m]. cbn [fst snd] in *.
  assert (m ≠ ∅) as Hne by (intros ->; by rewrite lookup_empty in Hm).
  rewrite (bool_decide_eq_false_2 _ Hne), (bool_decide_eq_true_2 _ Hx). cbn [orb]. split_and!; try done.
  - rewrite Hk. apply Forall_fmap, Forall_forall. intros f. rewrite list_elem_of_In, filter_In.
    intros [_ Hf]. by apply negb_true_iff in Hf.
  - cbn. rewrite (bool_decide_eq_true_2 (is_Some _)); [apply orb_true_r|by eexists].
  - cbn. unfold stampMarkers. by apply lookup_union_Some_l.
Qed.

(** ** Concrete boots *)

Definition demo_disk (ar : archive) : Disk :=
  mkDisk false false None (Some (Some ar)) (Some "CUBE_3.0.0_x") false None ∅.

Definition demo_boot (code : Z) : Boot :=
  mkBoot false "cc1" false (Some true) true (FetchFailed "" false) true true true
    (fun _ => mkHexRun (Some code) "" false) true None (true, "") true false.

Lemma reboots_bounded_witness :
  let bs := replicate 6 (demo_boot 2) in
  Z.of_nat (count_reboots (concat (boots bs (demo_disk [])).2)) <= maxApplyReboots
  ∧ count_reboots (concat (boots bs (demo_disk [])).2) = 3%nat.
Proof.
  split; [|vm_compute; reflexivity]. apply reboots_bounded; [reflexivity|].
  repeat (apply Forall_cons; split; [reflexivity|]). by apply Forall_nil.
Defined.

Lemma failure_is_final_witness :
  let r := main (demo_boot 3) (demo_disk []) in
  Forall (fun l => ¬ applies l) (boots [demo_boot 0; demo_boot 2] r.1.1).2.
Proof.
  refine (proj2 (proj1 (failure_is_final (demo_boot 3) _ (demo_disk []) _ (main (demo_boot 3) (demo_disk [])).1.2
    (main (demo_boot 3) (demo_disk [])).2 _) _ _) _).
  - vm_compute. reflexivity.
  - by eexists.
  - reflexivity.
  - eexists. vm_compute. do 5 right. left. reflexivity.
Defined.

Lemma legacy_apply_configures_witness :
  ∃ ar, let n := demo_nc "cc1" "10.1.2.3" in
  let d := with_nodes (mkClusterDetail (cd_ClusterInfo demo_pair)
    (mkClusterConfig ["8.8.8.8"] (mkTimezone "Asia/Taipei" 8) (mkClusterRoleSettings "" "" "" "") false (mkHASettings "" "") None) [])
    [n] in
  BuildNodeSnapshot templateFS (fun p => p) n d (GetControlInfo [n]) "now" = Ok ar
  ∧ (apply (FetchFailed "" false) true true (fun _ => mkHexRun (Some 0) "" false) (demo_disk ar)).1.1.(dk_configured) = true.
Proof.
  eexists. split; [vm_compute; reflexivity|].
  match goal with |- context [demo_disk ?ar] =>
    pose proof (legacy_apply_configures (fun p => p) (demo_nc "cc1" "10.1.2.3")
      (with_nodes (mkClusterDetail (cd_ClusterInfo demo_pair)
        (mkClusterConfig ["8.8.8.8"] (mkTimezone "Asia/Taipei" 8) (mkClusterRoleSettings "" "" "" "") false (mkHASettings "" "") None) [])
        [demo_nc "cc1" "10.1.2.3"]) (GetControlInfo [demo_nc "cc1" "10.1.2.3"]) "now" ar
      (fun _ => mkHexRun (Some 0) "" false) (demo_disk ar) ltac:(vm_compute; reflexivity) ltac:(reflexivity)
      ltac:(vm_compute; reflexivity) ltac:(vm_compute; reflexivity) ltac:(reflexivity)) as H
  end.
  destruct (apply _ _ _ _ _) as [[k' l] r]. exact (proj1 (proj2 (proj2 (proj2 H)))).
Defined.

(** The in-band flow does not look at the mark of a failed apply. *)
Example mark_unseen_in_band :
  let k := mkDisk false true None None (Some "CUBE_3.2.0_x") false None ∅ in
  let b := mkBoot false "cc1" false None false (Fetched (Some [])) true true true
    (fun _ => mkHexRun (Some 0) "" false) true None (true, "") true true in
  applies (main b k).1.2.
Proof. eexists. vm_compute. left. reflexivity. Qed.

(** The fallback download writes to the staged snapshot's own path, so one that
    breaks off leaves a file that the next start takes for a staged snapshot and
    hands to hex_config as it is. *)
Example broken_download_applied :
  let fresh := mkDisk false false None None (Some "CUBE_3.2.0_x") false None ∅ in
  let broken := mkBoot false "cc1" false None true (FetchFailed "unexpected EOF" true) true true true
    (fun _ => mkHexRun (Some 1) "" false) true None (true, "") true true in
  applies (default [] ((boots [broken; broken] fresh).2 !! 1%nat))
  ∧ In (AHexConfig None) (default [] ((boots [broken; broken] fresh).2 !! 1%nat)).
Proof. split; [eexists|]; vm_compute; do 3 right; left; reflexivity. Qed.
