(* ===== verification/GateWriter.v ===== *)
(** * Writing gate records to a BMC (internal/orchestrator/sel.go)

    [WriteGate], [ClearSEL] and [WriteEndpoint] over the calls of the go-ipmi
    client, which is third-party code: the class [BMCClient] names the calls
    the driver makes and [SELLaws] what it relies on.  [MemBMC], a small
    in-memory event log with a capacity, is there for the concrete runs. *)
From S2P Require Import Prelude GoStrings DeployModel SelCodec.

Open Scope string_scope.
Open Scope list_scope.
Open Scope Z_scope.

(** An IPMI error: its text, and the completion code when it carries one. *)
Record ipmi_error : Type := mkIPMIError {
  ie_msg : string;
  ie_code : option Z
}.

Definition CompletionCodeOutOfSpace : Z := 0xC4.

Definition selFull (err : option ipmi_error) : bool :=
  match err with
  | None => false
  | Some e => match e.(ie_code) with
              | Some c => c =? CompletionCodeOutOfSpace
              | None => false
              end
  end.

Class BMCClient (B : Type) := {
  GetSELEntries : B → B * (ipmi_error + list (option SEL));
  AddSELEntry : SEL → B → B * option ipmi_error;
  ReserveSEL : B → B * (ipmi_error + Z);
  ClearSELCmd : Z → B → B * option ipmi_error
}.

(** [%v] of a byte slice. *)
Definition show_stages (l : list Z) : string := "[" +:+ Join (Itoa <$> l) " " +:+ "]".

Section Writer.
Context {B : Type} `{BMCClient B}.

(** The clock read for each record and [ctx.Done()] before pass [i]. *)
Variable now : string.
Variable ctx_done : Z → option ipmi_error.

Definition gatesPresent (b : B) : B * (ipmi_error + list Z) :=
  let '(b, r) := GetSELEntries b in
  (b, match r with inl e => inl e | inr es => inr (gates_in es) end).

Definition missing_of (present stages : list Z) : list Z :=
  List.filter (fun s => negb (contains present s)) stages.

(** One failed write: wipe the log only when the BMC is out of space. *)
Definition wipe_if_full (werr : ipmi_error) (b : B) : B :=
  if selFull (Some werr) then
    match ReserveSEL b with
    | (b, inr rid) => (ClearSELCmd rid b).1
    | (b, inl _) => b
    end
  else b.

Fixpoint add_missing (missing : list Z) (b : B) (lastErr : option ipmi_error)
    : B * option ipmi_error :=
  match missing with
  | [] => (b, lastErr)
  | s :: rest =>
      match AddSELEntry (gateSEL now s) b with
      | (b, Some werr) => add_missing rest (wipe_if_full werr b) (Some werr)
      | (b, None) => add_missing rest b lastErr
      end
  end.

Definition attempts : Z := 4.

(** The retry loop, pass [i] of [attempts]; [n] counts the passes left. *)
Fixpoint write_loop (n : nat) (i : Z) (stages : list Z) (b : B)
    (lastErr : option ipmi_error) : B * option ipmi_error :=
  match n with
  | O => (b, lastErr)
  | S n' =>
      match (if 0 <? i then ctx_done i else None) with
      | Some cerr => (b, Some cerr)
      | None =>
          match gatesPresent b with
          | (b, inl gerr) => write_loop n' (i + 1) stages b (Some gerr)
          | (b, inr present) =>
              let missing := missing_of present stages in
              if bool_decide (missing = []) then (b, None)
              else
                let lastErr := Some (mkIPMIError ("gate stages " +:+ show_stages missing
                                 +:+ " not present in SEL after write") None) in
                if i =? attempts then (b, lastErr)
                else let '(b, lastErr) := add_missing missing b lastErr in
                     write_loop n' (i + 1) stages b lastErr
          end
      end
  end.

(** [dialled] is the outcome of [dial]: [None] for a live session. *)
Definition WriteGate (dialled : option ipmi_error) (stages : list Z) (b : B)
    : B * option ipmi_error :=
  match stages with
  | [] => (b, None)
  | _ =>
      match dialled with
      | Some e => (b, Some e)
      | None => write_loop 5 0 stages b None
      end
  end.

Definition ClearSEL (dialled : option ipmi_error) (b : B) : B * option ipmi_error :=
  match dialled with
  | Some e => (b, Some e)
  | None =>
      match ReserveSEL b with
      | (b, inl e) => (b, Some e)
      | (b, inr rid) => ClearSELCmd rid b
      end
  end.

Definition WriteEndpoint (dialled : option ipmi_error) (ip : list Z) (port : Z) (b : B)
    : B * option ipmi_error :=
  match dialled with
  | Some e => (b, Some e)
  | None =>
      let rec := endpointSEL now ip port in
      match AddSELEntry rec b with
      | (b, None) => (b, None)
      | (b, Some err) =>
          if negb (selFull (Some err)) then (b, Some err)
          else match ReserveSEL b with
               | (b, inl _) => (b, Some err)
               | (b, inr rid) =>
                   match ClearSELCmd rid b with
                   | (b, Some _) => (b, Some err)
                   | (b, None) => AddSELEntry rec b
                   end
               end
      end
  end.

Lemma missing_of_nil present stages :
  missing_of present stages = [] ↔ ∀ s, s ∈ stages → s ∈ present.
Proof.
  unfold missing_of. split.
  - intros Hm s Hs. destruct (contains present s) eqn:E; [by to_prop|].
    assert (In s []) as []. rewrite <- Hm. apply filter_In.
    split; [by apply list_elem_of_In|by rewrite E].
  - intros Hall. destruct (List.filter _ _) as [|s l] eqn:E; [done|].
    assert (In s (s :: l)) as Hin by by left. rewrite <- E in Hin.
    apply filter_In in Hin as [Hs Hn]. to_prop. apply list_elem_of_In, Hall in Hs. done.
Qed.

Lemma add_missing_err l b le : le ≠ None → (add_missing l b le).2 ≠ None.
Proof.
  revert b le. induction l as [|s l IH]; intros b le Hle; cbn; [done|].
  destruct (AddSELEntry _ b) as [? []]; by apply IH.
Qed.

Lemma write_loop_confirmed n i stages b le b' :
  (n ≠ 0%nat ∨ le ≠ None) →
  write_loop n i stages b le = (b', None) →
  ∃ b0 entries, GetSELEntries b0 = (b', inr entries)
    ∧ ∀ s, s ∈ stages → s ∈ gates_in entries.
Proof.
  revert i b le. induction n as [|n IH]; intros i b le Hle Hw; cbn in Hw.
  - destruct Hle; [done|]. by simplify_eq.
  - destruct (if 0 <? i then ctx_done i else None); [done|].
    unfold gatesPresent in Hw. destruct (GetSELEntries b) as [b1 [g|es]] eqn:Eg.
    { eapply IH; [|exact Hw]. by right. }
    case_bool_decide as Hm.
    { simplify_eq. exists b, es. split; [done|]. by apply missing_of_nil. }
    destruct (i =? attempts); [done|].
    destruct (add_missing _ _ _) as [b2 le2] eqn:Ea.
    eapply IH; [|exact Hw]. right.
    change le2 with ((b2, le2).2). rewrite <- Ea. by apply add_missing_err.
Qed.

(** WriteGate answers nil only after a read of the event log in which
    every requested gate stage is present: the last call it makes is that
    read, whatever the write acknowledgements said before. *)
Theorem WriteGate_confirmed stages b b' :
  stages ≠ [] →
  WriteGate None stages b = (b', None) →
  ∃ b0 entries, GetSELEntries b0 = (b', inr entries)
    ∧ ∀ s, s ∈ stages → s ∈ gates_in entries.
Proof.
  intros Hne Hw. destruct stages as [|s0 stages]; [done|].
  eapply write_loop_confirmed; [|exact Hw]. by left.
Qed.
End Writer.

(** ** What the driver relies on: a log that only grows, except by a wipe *)

Class SELLaws (B : Type) `{BMCClient B} := {
  sel_log : B → list (option SEL);
  get_keeps_log : ∀ b, sel_log (GetSELEntries b).1 = sel_log b;
  add_grows_log : ∀ e b, sel_log b `prefix_of` sel_log (AddSELEntry e b).1
}.

Section NoWipe.
Context {B : Type} `{SELLaws B}.
Variable now : string.
Variable ctx_done : Z → option ipmi_error.
Hypothesis never_full : ∀ e b, selFull (AddSELEntry e b).2 = false.

Lemma add_missing_grows l b le :
  sel_log b `prefix_of` sel_log (add_missing now l b le).1.
Proof.
  revert b le. induction l as [|s l IH]; intros b le; cbn; [done|].
  pose proof (add_grows_log (gateSEL now s) b) as Hg.
  pose proof (never_full (gateSEL now s) b) as Hf.
  destruct (AddSELEntry _ b) as [b1 [e|]]; cbn [fst snd] in Hg, Hf.
  - unfold wipe_if_full. rewrite Hf. etrans; [exact Hg|apply IH].
  - etrans; [exact Hg|apply IH].
Qed.

Lemma write_loop_grows n i stages b le :
  sel_log b `prefix_of` sel_log (write_loop now ctx_done n i stages b le).1.
Proof.
  revert i b le. induction n as [|n IH]; intros i b le; cbn; [done|].
  destruct (if 0 <? i then ctx_done i else None); [done|].
  unfold gatesPresent. pose proof (get_keeps_log b) as Hk.
  destruct (GetSELEntries b) as [b1 [g|es]]; cbn in Hk; rewrite <- Hk; [apply IH|].
  case_bool_decide; [done|]. destruct (i =? attempts); [done|].
  pose proof (add_missing_grows (missing_of (gates_in es) stages) b1
    (Some (mkIPMIError ("gate stages " +:+ show_stages (missing_of (gates_in es) stages)
      +:+ " not present in SEL after write") None))) as Hg.
  destruct (add_missing _ _ _ _) as [b2 le2]. etrans; [exact Hg|apply IH].
Qed.

(** WriteGate destroys nothing unless the BMC reports that it is out of
    space: lost acknowledgements, read errors and retries leave every record
    that was in the log in place, at its position. *)
Theorem WriteGate_no_wipe dialled stages b :
  sel_log b `prefix_of` sel_log (WriteGate now ctx_done dialled stages b).1.
Proof.
  unfold WriteGate. destruct stages; [done|]. destruct dialled; [done|].
  apply write_loop_grows.
Qed.
End NoWipe.

(** ** A bounded in-memory log, with lost acknowledgements *)

Record MemBMC : Type := mkMemBMC {
  mb_log : list (option SEL);
  mb_next : Z;
  mb_cap : nat;
  mb_lost : list bool   (** per write: the record lands but the ack is lost *)
}.

Definition out_of_space : ipmi_error := mkIPMIError "out of space" (Some CompletionCodeOutOfSpace).
Definition ack_lost : ipmi_error := mkIPMIError "i/o timeout" None.

Definition with_id (id : Z) (e : SEL) : SEL :=
  mkSEL id e.(sel_RecordType) e.(sel_OEMTimestamped).

#[export] Instance MemBMC_client : BMCClient MemBMC := {
  GetSELEntries b := (b, inr b.(mb_log));
  AddSELEntry e b :=
    if (b.(mb_cap) <=? length b.(mb_log))%nat then (b, Some out_of_space)
    else (mkMemBMC (b.(mb_log) ++ [Some (with_id b.(mb_next) e)]) (b.(mb_next) + 1)
            b.(mb_cap) (tail b.(mb_lost)),
          if default false (head b.(mb_lost)) then Some ack_lost else None);
  ReserveSEL b := (b, inr 1);
  ClearSELCmd _ b := (mkMemBMC [] b.(mb_next) b.(mb_cap) b.(mb_lost), None)
}.

#[export] Program Instance MemBMC_laws : SELLaws MemBMC := { sel_log := mb_log }.
Next Obligation. done. Qed.
Next Obligation. intros e b. cbn. case_match; [done|]. by apply prefix_app_r. Qed.

(** Read-backs of the in-memory log. *)
Lemma gates_in_snoc l e :
  gates_in (l ++ [e]) = gates_in l ++ match gate_of e with Some s => [s] | None => [] end.
Proof. unfold gates_in. rewrite omap_app. cbn. by destruct (gate_of e). Qed.

Lemma add_missing_fits now l b le :
  (length b.(mb_log) + length l ≤ b.(mb_cap))%nat →
  ∃ b', (add_missing now l b le).1 = b' ∧ b'.(mb_cap) = b.(mb_cap)
    ∧ gates_in b'.(mb_log) = gates_in b.(mb_log) ++ l
    ∧ length b'.(mb_log) = (length b.(mb_log) + length l)%nat.
Proof.
  revert b le. induction l as [|s l IH]; intros b le Hc; cbn [add_missing].
  { exists b. cbn. rewrite app_nil_r, Nat.add_0_r. done. }
  cbn [AddSELEntry MemBMC_client] in *. cbn [length] in Hc.
  rewrite (proj2 (Nat.leb_gt _ _)) by lia.
  set (b1 := mkMemBMC _ _ _ _).
  assert (length (mb_log b1) = S (length (mb_log b))) as Hl1
    by (cbn; rewrite length_app; cbn; lia).
  assert (gates_in (mb_log b1) = gates_in (mb_log b) ++ [s]) as Hg1
    by (cbn [b1 mb_log]; rewrite gates_in_snoc; done).
  assert (∀ le', ∃ b', (add_missing now l b1 le').1 = b' ∧ mb_cap b' = mb_cap b
    ∧ gates_in (mb_log b') = gates_in (mb_log b) ++ s :: l
    ∧ length (mb_log b') = (length (mb_log b) + length (s :: l))%nat) as Hnext.
  { intros le'. destruct (IH b1 le') as (b' & Hb & Hcap & Hg & Hlen);
      [cbn [b1 mb_cap]; lia|]. exists b'. rewrite Hb, Hg, Hg1, Hlen, Hl1, <- app_assoc.
    cbn [length]. repeat split; [exact Hcap|lia]. }
  unfold wipe_if_full.
  destruct (default false (head (mb_lost b))); cbn [selFull ack_lost ie_code]; apply Hnext.
Qed.

(** One pass over a log of any size: everything lands, or the log is wiped
    once and what was written after the wipe is there. *)
Lemma add_missing_cases now l b le :
  (length l ≤ b.(mb_cap))%nat →
  ∃ b', (add_missing now l b le).1 = b' ∧ b'.(mb_cap) = b.(mb_cap)
    ∧ (gates_in b'.(mb_log) = gates_in b.(mb_log) ++ l
       ∨ ∃ l1 s l2, l = l1 ++ s :: l2 ∧ gates_in b'.(mb_log) = l2
           ∧ length b'.(mb_log) = length l2).
Proof.
  revert b le. induction l as [|s l IH]; intros b le Hc; cbn [add_missing].
  { exists b. cbn. rewrite app_nil_r. auto. }
  cbn [AddSELEntry MemBMC_client] in *. cbn [length] in Hc.
  destruct (Nat.leb_spec (mb_cap b) (length (mb_log b))) as [Hf|Hf].
  - unfold wipe_if_full. cbn [selFull out_of_space ie_code ReserveSEL ClearSELCmd fst MemBMC_client].
    change (CompletionCodeOutOfSpace =? CompletionCodeOutOfSpace) with true. cbn iota.
    destruct (add_missing_fits now l (mkMemBMC [] (mb_next b) (mb_cap b) (mb_lost b))
      (Some out_of_space)) as (b' & Hb & Hcap & Hg & Hlen); [cbn; lia|].
    exists b'. split; [done|]. split; [done|]. right. exists [], s, l. done.
  - set (b1 := mkMemBMC _ _ _ _).
    assert (∀ le', ∃ b', (add_missing now l b1 le').1 = b' ∧ mb_cap b' = mb_cap b
      ∧ (gates_in (mb_log b') = gates_in (mb_log b) ++ s :: l
         ∨ ∃ l1 s' l2, s :: l = l1 ++ s' :: l2 ∧ gates_in (mb_log b') = l2
             ∧ length (mb_log b') = length l2)) as Hnext.
    { intros le'. destruct (IH b1 le') as (b' & Hb & Hcap & Hg); [cbn [b1 mb_cap]; lia|].
      exists b'. split; [done|]. split; [done|]. destruct Hg as [Hg|(l1 & s' & l2 & -> & Hg)].
      - left. rewrite Hg. cbn [b1 mb_log]. rewrite gates_in_snoc, <- app_assoc. done.
      - right. by exists (s :: l1), s', l2. }
    unfold wipe_if_full.
    destruct (default false (head (mb_lost b))); cbn [selFull ack_lost ie_code]; apply Hnext.
Qed.

Section Heal.
Variables (now : string) (ctx_done : Z → option ipmi_error) (stages : list Z).
Hypothesis no_cancel : ∀ i, ctx_done i = None.

Definition holds_all (b : MemBMC) : Prop :=
  missing_of (gates_in b.(mb_log)) stages = [].

Lemma pass_done n i b le :
  holds_all b → write_loop now ctx_done (S n) i stages b le = (b, None).
Proof.
  intros Hb. cbn. rewrite no_cancel. destruct (0 <? i); by rewrite bool_decide_eq_true_2.
Qed.

Lemma pass_step n i b le :
  i ≠ attempts →
  holds_all b
  ∨ ∃ le', write_loop now ctx_done (S n) i stages b le
      = write_loop now ctx_done n (i + 1) stages
          (add_missing now (missing_of (gates_in b.(mb_log)) stages) b le').1
          (add_missing now (missing_of (gates_in b.(mb_log)) stages) b le').2.
Proof.
  intros Hi. unfold holds_all. cbn [write_loop gatesPresent GetSELEntries MemBMC_client].
  rewrite no_cancel, (proj2 (Z.eqb_neq i attempts) Hi).
  case_bool_decide as Hm; [by left|]. right. eexists.
  destruct (0 <? i);
    match goal with |- context [add_missing ?n ?m ?b ?le] =>
      rewrite (surjective_pairing (add_missing n m b le)); reflexivity end.
Qed.

Lemma all_present b :
  (∀ s, s ∈ stages → s ∈ gates_in b.(mb_log)) → holds_all b.
Proof. apply missing_of_nil. Qed.

Lemma elem_of_missing present s :
  s ∈ missing_of present stages ↔ s ∈ stages ∧ s ∉ present.
Proof.
  unfold missing_of. rewrite list_elem_of_In, filter_In, <- list_elem_of_In.
  rewrite negb_true_iff, contains_false. done.
Qed.

Lemma missing_NoDup present : NoDup stages → NoDup (missing_of present stages).
Proof.
  intros Hn. unfold missing_of. apply NoDup_ListNoDup, List.NoDup_filter.
  by apply NoDup_ListNoDup.
Qed.

Lemma missing_length present : (length (missing_of present stages) ≤ length stages)%nat.
Proof. apply List.filter_length_le. Qed.

(** Everything the log lacked is there after a pass that did not wipe. *)
Lemma landed b b' :
  gates_in b'.(mb_log)
    = gates_in b.(mb_log) ++ missing_of (gates_in b.(mb_log)) stages →
  holds_all b'.
Proof.
  intros Hg. apply all_present. intros s Hs. rewrite Hg, elem_of_app, elem_of_missing.
  destruct (decide (s ∈ gates_in (mb_log b))); auto.
Qed.

(** After a wipe the second pass fits: the rewritten stages and the missing
    ones are distinct stages. *)
Lemma after_wipe_fits b l1 s l2 b1 :
  NoDup stages →
  missing_of (gates_in b.(mb_log)) stages = l1 ++ s :: l2 →
  gates_in b1.(mb_log) = l2 →
  (length l2 + length (missing_of (gates_in b1.(mb_log)) stages) ≤ length stages)%nat.
Proof.
  intros Hnd Hm Hg. rewrite <- length_app. apply submseteq_length, NoDup_submseteq.
  - apply NoDup_app. pose proof (missing_NoDup (gates_in (mb_log b)) Hnd) as H1.
    rewrite Hm in H1. apply NoDup_app in H1 as (_ & _ & H1). apply NoDup_cons in H1 as [_ H1].
    split; [done|]. split; [|by apply missing_NoDup].
    intros x Hx [_ Hn]%elem_of_missing. by rewrite Hg in Hn.
  - intros x [Hx|[Hx _]%elem_of_missing]%elem_of_app; [|done].
    assert (x ∈ missing_of (gates_in (mb_log b)) stages) as [? _]%elem_of_missing; [|done].
    rewrite Hm. set_solver.
Qed.

(** Five passes are enough, from any log. *)
Lemma loop_heals b :
  NoDup stages →
  (length stages ≤ b.(mb_cap))%nat →
  ∃ b', write_loop now ctx_done 5 0 stages b None = (b', None) ∧ holds_all b'.
Proof.
  intros Hnd Hcap.
  destruct (pass_step 4 0 b None) as [Hb|[le1 ->]]; [done|by exists b; rewrite pass_done|].
  pose proof (missing_length (gates_in (mb_log b))) as Hlen.
  destruct (add_missing_cases now (missing_of (gates_in (mb_log b)) stages) b le1)
    as (b1 & -> & Hc1 & Hg1); [lia|].
  destruct (pass_step 3 (0 + 1) b1
    (add_missing now (missing_of (gates_in (mb_log b)) stages) b le1).2)
    as [Hb1|[le2 ->]]; [done|by exists b1; rewrite pass_done|].
  destruct Hg1 as [Hg1|(l1 & s & l2 & Hm & Hg1 & Hl1)].
  { apply landed in Hg1. unfold holds_all in Hg1. rewrite Hg1. cbn [add_missing fst snd].
    exists b1. by rewrite pass_done. }
  pose proof (after_wipe_fits _ _ _ _ _ Hnd Hm Hg1) as Hfit.
  destruct (add_missing_fits now (missing_of (gates_in (mb_log b1)) stages) b1 le2)
    as (b2 & -> & Hc2 & Hg2 & _); [lia|].
  apply landed in Hg2. exists b2. by rewrite pass_done.
Qed.

(** Gates always land on a working BMC: whatever the log held before,
    full or not, and whichever acknowledgements are lost, WriteGate answers
    nil and every stage is in the log, as long as the log has room for the
    stages themselves.  A full log is wiped and every stage rewritten. *)
Theorem WriteGate_heals b :
  NoDup stages →
  (length stages ≤ b.(mb_cap))%nat →
  ∃ b', WriteGate now ctx_done None stages b = (b', None)
    ∧ ∀ s, s ∈ stages → s ∈ gates_in b'.(mb_log).
Proof.
  intros Hnd Hcap. destruct (loop_heals b Hnd Hcap) as (b' & Hw & Hall).
  exists b'. split; [|by apply missing_of_nil].
  unfold WriteGate. destruct stages; [|done]. cbn in Hw. by simplify_eq.
Qed.
End Heal.

(** ** Concrete runs *)

(** A log of capacity 3 holding stages 1 and 2 and a foreign record: writing
    1, 2 and 3 fills it, wipes it and rewrites what is missing. *)
Definition full_bmc : MemBMC :=
  mkMemBMC [Some (gateSEL "" 1); Some (gateSEL "" 2); None] 10 3 [true].

Lemma WriteGate_confirmed_witness :
  ∃ b0 entries, GetSELEntries b0
      = ((WriteGate (B := MemBMC) "" (fun _ => None) None [1; 2; 3] full_bmc).1, inr entries)
    ∧ ∀ s, s ∈ [1; 2; 3] → s ∈ gates_in entries.
Proof.
  apply (WriteGate_confirmed (B := MemBMC) "" (fun _ => None) [1; 2; 3] full_bmc);
    [done|]. vm_compute. reflexivity.
Defined.

Lemma WriteGate_heals_witness :
  ∃ b', WriteGate (B := MemBMC) "" (fun _ => None) None [1; 2; 3] full_bmc = (b', None)
    ∧ ∀ s, s ∈ [1; 2; 3] → s ∈ gates_in b'.(mb_log).
Proof.
  apply (WriteGate_heals "" (fun _ => None) [1; 2; 3]); [done| |cbn; lia].
  apply NoDup_ListNoDup. repeat constructor; cbn; intuition lia.
Defined.

(** A log that never fills and loses every acknowledgement. *)
Record LossyBMC : Type := mkLossyBMC { lb_log : list (option SEL) }.

#[export] Instance LossyBMC_client : BMCClient LossyBMC := {
  GetSELEntries b := (b, inr b.(lb_log));
  AddSELEntry e b := (mkLossyBMC (b.(lb_log) ++ [Some e]), Some ack_lost);
  ReserveSEL b := (b, inr 1);
  ClearSELCmd _ b := (mkLossyBMC [], None)
}.

#[export] Program Instance LossyBMC_laws : SELLaws LossyBMC := { sel_log := lb_log }.
Next Obligation. done. Qed.
Next Obligation. intros e b. by apply prefix_app_r. Qed.

Definition lossy : LossyBMC := mkLossyBMC [None; Some (gateSEL "" 1)].

Lemma WriteGate_no_wipe_witness :
  sel_log lossy
  `prefix_of` sel_log (WriteGate (B := LossyBMC) "" (fun _ => None) None [1; 2] lossy).1.
Proof.
  apply (WriteGate_no_wipe (B := LossyBMC) "" (fun _ => None)). intros e b. reflexivity.
Defined.
