(* ===== verification/BmcLock.v ===== *)
(** * Several writers on one BMC (internal/orchestrator sel.go)

    [WriteGate], [ClearSEL] and [WriteEndpoint] hold their BMC's lock
    ([lockBMC]) while they talk to it.  Here they are programs that make one
    client call at a time ([io]); run alone they do what their functions of
    GateWriter.v do, and the calls of any number of them, on any number of
    BMCs, interleave ([step]).  Whatever the schedule, each BMC ends as if its
    callers had come one after the other, each call ends within its own number
    of moves and nothing deadlocks, and a gate that was confirmed is lost only
    to a wipe made afterwards. *)
From stdpp Require Import functions.
From S2P Require Import Prelude GoStrings DeployModel SelCodec GateWriter.

Open Scope string_scope.
Open Scope list_scope.
Open Scope Z_scope.

(** ** Programs over the client *)

Inductive cmd :=
| CGet
| CAdd (e : SEL)
| CReserve
| CClear (rid : Z).

Definition answer (c : cmd) : Type :=
  match c with
  | CGet => ipmi_error + list (option SEL)
  | CAdd _ => option ipmi_error
  | CReserve => ipmi_error + Z
  | CClear _ => option ipmi_error
  end.

Inductive io (A : Type) : Type :=
| Ret (a : A)
| Next (c : cmd) (k : answer c → io A).
Arguments Ret {A} a.
Arguments Next {A} c k.

#[export] Instance io_ret : MRet io := @Ret.
#[export] Instance io_bind : MBind io :=
  fun A D f => fix bind p :=
    match p with Ret a => f a | Next c k => Next c (fun x => bind (k x)) end.

Definition call (c : cmd) : io (answer c) := Next c Ret.

Section Programs.
Variable now : string.
Variable ctx_done : Z → option ipmi_error.

Definition gatesPresent_io : io (ipmi_error + list Z) :=
  r ← call CGet;
  mret (match r with inl e => inl e | inr es => inr (gates_in es) end).

Definition wipe_io (werr : ipmi_error) : io unit :=
  if selFull (Some werr) then
    r ← call CReserve;
    match r with
    | inr rid => _ ← call (CClear rid); mret tt
    | inl _ => mret tt
    end
  else mret tt.

Fixpoint add_missing_io (missing : list Z) (lastErr : option ipmi_error) : io (option ipmi_error) :=
  match missing with
  | [] => mret lastErr
  | s :: rest =>
      w ← call (CAdd (gateSEL now s));
      match w with
      | Some werr => _ ← wipe_io werr; add_missing_io rest (Some werr)
      | None => add_missing_io rest lastErr
      end
  end.

Fixpoint write_loop_io (n : nat) (i : Z) (stages : list Z) (lastErr : option ipmi_error) :
    io (option ipmi_error) :=
  match n with
  | O => mret lastErr
  | S n' =>
      match (if 0 <? i then ctx_done i else None) with
      | Some cerr => mret (Some cerr)
      | None =>
          p ← gatesPresent_io;
          match p with
          | inl gerr => write_loop_io n' (i + 1) stages (Some gerr)
          | inr present =>
              let missing := missing_of present stages in
              if bool_decide (missing = []) then mret None
              else
                let lastErr := Some (mkIPMIError ("gate stages " +:+ show_stages missing
                                 +:+ " not present in SEL after write") None) in
                if i =? attempts then mret lastErr
                else lastErr ← add_missing_io missing lastErr;
                     write_loop_io n' (i + 1) stages lastErr
          end
      end
  end.

Definition write_endpoint_io (ip : list Z) (port : Z) : io (option ipmi_error) :=
  let rec := endpointSEL now ip port in
  w ← call (CAdd rec);
  match w with
  | None => mret None
  | Some err =>
      if negb (selFull (Some err)) then mret (Some err)
      else r ← call CReserve;
           match r with
           | inl _ => mret (Some err)
           | inr rid =>
               c ← call (CClear rid);
               match c with
               | Some _ => mret (Some err)
               | None => call (CAdd rec)
               end
           end
  end.
End Programs.

Definition clear_io : io (option ipmi_error) :=
  r ← call CReserve;
  match r with
  | inl e => mret (Some e)
  | inr rid => call (CClear rid)
  end.

(** A goroutine's call of the gate writer; [dialled] is what [dial] answers. *)
Inductive job :=
| JGate (now : string) (ctx_done : Z → option ipmi_error) (dialled : option ipmi_error) (stages : list Z)
| JClear (dialled : option ipmi_error)
| JEndpoint (now : string) (dialled : option ipmi_error) (ip : list Z) (port : Z).

(** WriteGate of no stages returns before it asks for the lock. *)
Definition takes_lock (j : job) : bool :=
  match j with JGate _ _ _ [] => false | _ => true end.

(** After the lock: dial, then the calls. *)
Definition dial_io (dialled : option ipmi_error) (p : io (option ipmi_error)) : io (option ipmi_error) :=
  match dialled with Some e => mret (Some e) | None => p end.

Definition job_io (j : job) : io (option ipmi_error) :=
  match j with
  | JGate _ _ _ [] => mret None
  | JGate now ctx_done d stages => dial_io d (write_loop_io now ctx_done 5 0 stages None)
  | JClear d => dial_io d clear_io
  | JEndpoint now d ip port => dial_io d (write_endpoint_io now ip port)
  end.

(** ** Run alone, a program does what the function does *)

Section Alone.
Context {B : Type} `{BMCClient B}.

Definition do_cmd (c : cmd) (b : B) : B * answer c :=
  match c with
  | CGet => GetSELEntries b
  | CAdd e => AddSELEntry e b
  | CReserve => ReserveSEL b
  | CClear rid => ClearSELCmd rid b
  end.

Fixpoint run {A} (p : io A) (b : B) : B * A :=
  match p with
  | Ret a => (b, a)
  | Next c k => let '(b, x) := do_cmd c b in run (k x) b
  end.

Definition job_run (j : job) : B → B * option ipmi_error :=
  match j with
  | JGate now ctx_done d stages => WriteGate now ctx_done d stages
  | JClear d => ClearSEL d
  | JEndpoint now d ip port => WriteEndpoint now d ip port
  end.

Lemma run_bind {A D} (p : io A) (f : A → io D) b :
  run (p ≫= f) b = let '(b, a) := run p b in run (f a) b.
Proof.
  revert b. induction p as [a|c k IH]; intros b; [done|]. cbn.
  destruct (do_cmd c b) as [b' x]. apply IH.
Qed.

Lemma run_wipe werr b : (run (wipe_io werr) b).1 = wipe_if_full werr b.
Proof.
  unfold wipe_io, wipe_if_full. destruct (selFull _); [|done]. cbn.
  destruct (ReserveSEL b) as [b' [e|rid]]; [done|]. cbn.
  by destruct (ClearSELCmd rid b').
Qed.

Lemma run_add_missing now l le b :
  run (add_missing_io now l le) b = add_missing now l b le.
Proof.
  revert le b. induction l as [|s l IH]; intros le b; [done|]. cbn.
  destruct (AddSELEntry _ b) as [b' [e|]]; cbn; [|apply IH].
  rewrite (run_bind (wipe_io e)). rewrite <- run_wipe.
  destruct (run (wipe_io e) b') as [b2 []]. apply IH.
Qed.

Lemma run_write_loop now ctx_done n i stages le b :
  run (write_loop_io now ctx_done n i stages le) b = write_loop now ctx_done n i stages b le.
Proof.
  revert i le b. induction n as [|n IH]; intros i le b; [done|]. cbn.
  destruct (if 0 <? i then ctx_done i else None); [done|]. cbn. unfold gatesPresent.
  destruct (GetSELEntries b) as [b1 [g|es]]; cbn; [apply IH|].
  case_bool_decide; [done|]. destruct (i =? attempts); [done|].
  rewrite (run_bind (add_missing_io _ _ _)), run_add_missing.
  destruct (add_missing _ _ _ _) as [b2 le2]. apply IH.
Qed.

Lemma run_job j b : run (job_io j) b = job_run j b.
Proof.
  destruct j as [now ctx [e|] [|s l]|[e|]|now [e|] ip port]; try done.
  - apply (run_write_loop now ctx 5).
  - cbn. by destruct (ReserveSEL b) as [b' [e|rid]]; [|cbn; destruct (ClearSELCmd rid b')].
  - cbn -[endpointSEL selFull]. destruct (AddSELEntry _ b) as [b1 [err|]]; [|done].
    destruct (negb _); [done|]. cbn -[endpointSEL]. destruct (ReserveSEL b1) as [b2 [e|rid]]; [done|].
    cbn -[endpointSEL]. destruct (ClearSELCmd rid b2) as [b3 [e|]]; [done|]. cbn -[endpointSEL].
    by destruct (AddSELEntry _ b3).
Qed.

(** What every client call keeps, every program keeps. *)
Lemma run_keeps {A} (P : B → Prop) (p : io A) b :
  (∀ c b, P b → P (do_cmd c b).1) → P b → P (run p b).1.
Proof.
  intros HP. revert b. induction p as [a|c k IH]; intros b Hb; [done|]. cbn.
  pose proof (HP c b Hb) as Hc. destruct (do_cmd c b) as [b' x]. by apply IH.
Qed.
End Alone.

(** ** Any number of callers *)

Inductive caller_phase :=
| Waiting                                    (** at [lockBMC] *)
| Inside (p : io (option ipmi_error))        (** holding the lock; [p] is left *)
| Done (r : option ipmi_error).

(** [sy_held] is [bmcLocks]: the caller that holds an address's mutex.
    [sy_order] only records in which order the callers went in. *)
Record Sys (B : Type) : Type := mkSys {
  sy_bmc : string → B;
  sy_held : gmap string nat;
  sy_phase : nat → caller_phase;
  sy_order : list nat
}.
Arguments mkSys {B}.
Arguments sy_bmc {B}.
Arguments sy_held {B}.
Arguments sy_phase {B}.
Arguments sy_order {B}.

Section Callers.
Context {B : Type} `{BMCClient B}.

(** The calls, each with its BMC's address. *)
Variable jobs : list (string * job).

(** [LoadOrStore] and [Lock]: one mutex per address, which blocks while it is held. *)
Definition lockBMC (a : string) (i : nat) (s : Sys B) : option (Sys B) :=
  match s.(sy_held) !! a with
  | Some _ => None
  | None => Some (mkSys s.(sy_bmc) (<[a := i]> s.(sy_held)) s.(sy_phase) s.(sy_order))
  end.

Definition enter (i : nat) (ph : caller_phase) (s : Sys B) : Sys B :=
  mkSys s.(sy_bmc) s.(sy_held) (<[i := ph]> s.(sy_phase)) (s.(sy_order) ++ [i]).

(** Caller [i] moves: takes the lock, makes one client call, or lets go. *)
Definition step (i : nat) (s : Sys B) : option (Sys B) :=
  '(a, j) ← jobs !! i;
  match s.(sy_phase) i with
  | Waiting =>
      if takes_lock j then enter i (Inside (job_io j)) <$> lockBMC a i s
      else Some (enter i (Done None) s)
  | Inside (Ret r) =>
      Some (mkSys s.(sy_bmc) (delete a s.(sy_held)) (<[i := Done r]> s.(sy_phase)) s.(sy_order))
  | Inside (Next c k) =>
      let '(b, x) := do_cmd c (s.(sy_bmc) a) in
      Some (mkSys (<[a := b]> s.(sy_bmc)) s.(sy_held) (<[i := Inside (k x)]> s.(sy_phase)) s.(sy_order))
  | Done _ => None
  end.

Fixpoint play (sched : list nat) (s : Sys B) : option (Sys B) :=
  match sched with
  | [] => Some s
  | i :: sched => s ← step i s; play sched s
  end.

Definition begin (bmc : string → B) : Sys B := mkSys bmc ∅ (fun _ => Waiting) [].

(** The same calls one after the other. *)
Definition serial1 (st : (string → B) * (nat → option (option ipmi_error))) (i : nat) :=
  match jobs !! i with
  | Some (a, j) =>
      let '(b, r) := job_run j (st.1 a) in (<[a := b]> st.1, <[i := Some r]> st.2)
  | None => st
  end.

Definition serial (bmc : string → B) (order : list nat) :
    (string → B) * (nat → option (option ipmi_error)) :=
  foldl serial1 (bmc, fun _ => None) order.

(** ** Serialisability *)

(** [a]'s mutex is held by [i] exactly while [i] is inside. *)
Definition holds (s : Sys B) (a : string) (i : nat) : Prop :=
  ∃ j p, jobs !! i = Some (a, j) ∧ s.(sy_phase) i = Inside p.

Record Serial (bmc : string → B) (s : Sys B) : Prop := mk_Serial {
  sr_nodup : NoDup s.(sy_order);
  sr_order : ∀ i, i ∈ s.(sy_order) ↔ s.(sy_phase) i ≠ Waiting;
  sr_known : ∀ i, i ∈ s.(sy_order) → is_Some (jobs !! i);
  sr_held : ∀ a i, s.(sy_held) !! a = Some i ↔ holds s a i;
  sr_free : ∀ a, s.(sy_held) !! a = None → s.(sy_bmc) a = (serial bmc s.(sy_order)).1 a;
  sr_inside : ∀ a j i p, jobs !! i = Some (a, j) → s.(sy_phase) i = Inside p →
    ∃ r, run p (s.(sy_bmc) a) = ((serial bmc s.(sy_order)).1 a, r)
      ∧ (serial bmc s.(sy_order)).2 i = Some r;
  sr_done : ∀ i r, s.(sy_phase) i = Done r → (serial bmc s.(sy_order)).2 i = Some r
}.

Lemma serial_snoc bmc order i : serial bmc (order ++ [i]) = serial1 (serial bmc order) i.
Proof. unfold serial. by rewrite foldl_snoc. Qed.

Lemma serial1_bmc st i a j :
  jobs !! i = Some (a, j) →
  serial1 st i = (<[a := (job_run j (st.1 a)).1]> st.1, <[i := Some (job_run j (st.1 a)).2]> st.2).
Proof. intros Hj. unfold serial1. rewrite Hj. by destruct (job_run j (st.1 a)). Qed.

Lemma begin_serial bmc : Serial bmc (begin bmc).
Proof.
  split; cbn; try done.
  - constructor.
  - intros i. split; [by intros ?%not_elem_of_nil|done].
  - by intros i ?%not_elem_of_nil.
  - intros a i. rewrite lookup_empty. split; [done|]. by intros (? & ? & _ & ?).
Qed.

(** A caller goes in: it had not been, so nothing recorded of others changes. *)
Lemma order_enter bmc s i ph :
  Serial bmc s → is_Some (jobs !! i) → s.(sy_phase) i = Waiting → ph ≠ Waiting →
  NoDup (s.(sy_order) ++ [i])
  ∧ (∀ k, k ∈ s.(sy_order) ++ [i] ↔ (<[i := ph]> s.(sy_phase)) k ≠ Waiting)
  ∧ (∀ k, k ∈ s.(sy_order) ++ [i] → is_Some (jobs !! k)).
Proof.
  intros HS Hj Hi Hph. assert (i ∉ sy_order s) as Hn by (rewrite (sr_order _ _ HS); tauto).
  split_and!.
  - apply NoDup_app. split; [apply HS|]. split; [|apply NoDup_singleton].
    by intros x Hx ->%list_elem_of_singleton.
  - intros k. rewrite elem_of_app, list_elem_of_singleton. destruct (decide (k = i)) as [-> |Hne].
    + rewrite fn_lookup_insert. tauto.
    + rewrite fn_lookup_insert_ne by done. rewrite (sr_order _ _ HS). tauto.
  - intros k [Hk|Hk%list_elem_of_singleton]%elem_of_app; [by apply (sr_known _ _ HS)|by subst].
Qed.

Lemma step_lock bmc s i a j :
  Serial bmc s → jobs !! i = Some (a, j) → s.(sy_phase) i = Waiting → s.(sy_held) !! a = None →
  Serial bmc (mkSys s.(sy_bmc) (<[a := i]> s.(sy_held))
                (<[i := Inside (job_io j)]> s.(sy_phase)) (s.(sy_order) ++ [i])).
Proof.
  intros HS Hj Hi Ha.
  destruct (order_enter bmc s i (Inside (job_io j)) HS (ex_intro _ _ Hj) Hi ltac:(done)) as (H1 & H2 & H3).
  split; cbn [sy_bmc sy_held sy_phase sy_order]; try done.
  - intros a' k. unfold holds. cbn [sy_phase]. destruct (decide (k = i)) as [-> |Hk].
    + rewrite fn_lookup_insert. destruct (decide (a' = a)) as [-> |Hne].
      * rewrite lookup_insert_eq. split; [eauto|done].
      * rewrite lookup_insert_ne by done. rewrite (sr_held _ _ HS). unfold holds. rewrite Hi, Hj.
        split; intros (? & ? & ? & ?); congruence.
    + rewrite fn_lookup_insert_ne by done. destruct (decide (a' = a)) as [-> |Hne].
      * rewrite lookup_insert_eq. split; [congruence|]. intros Hh.
        apply (sr_held _ _ HS a k) in Hh. congruence.
      * rewrite lookup_insert_ne by done. apply (sr_held _ _ HS).
  - intros a' Hf. rewrite serial_snoc, (serial1_bmc _ _ _ _ Hj). cbn [fst].
    assert (a' ≠ a) by (intros ->; by rewrite lookup_insert_eq in Hf).
    rewrite fn_lookup_insert_ne by done. rewrite lookup_insert_ne in Hf by done. by apply (sr_free _ _ HS).
  - intros a' j' k p Hk Hp. rewrite serial_snoc, (serial1_bmc _ _ _ _ Hj). cbn [fst snd].
    destruct (decide (k = i)) as [-> |Hne].
    + rewrite fn_lookup_insert in Hp. simplify_eq. rewrite !fn_lookup_insert, run_job.
      rewrite <- (sr_free _ _ HS _ Ha). eexists. split; [apply surjective_pairing|done].
    + rewrite fn_lookup_insert_ne in Hp by done. rewrite (fn_lookup_insert_ne _ i) by done.
      assert (a' ≠ a) as Hna.
      { intros ->. assert (sy_held s !! a = Some k) by (apply (sr_held _ _ HS); by exists j', p). congruence. }
      rewrite fn_lookup_insert_ne by done. by apply (sr_inside _ _ HS a' j').
  - intros k r Hk. rewrite serial_snoc, (serial1_bmc _ _ _ _ Hj). cbn [snd].
    destruct (decide (k = i)) as [-> |Hne]; [by rewrite fn_lookup_insert in Hk|].
    rewrite fn_lookup_insert_ne in Hk by done. rewrite fn_lookup_insert_ne by done. by apply (sr_done _ _ HS).
Qed.

Lemma step_free bmc s i a j :
  Serial bmc s → jobs !! i = Some (a, j) → s.(sy_phase) i = Waiting → takes_lock j = false →
  Serial bmc (enter i (Done None) s).
Proof.
  intros HS Hj Hi Hl.
  destruct (order_enter bmc s i (Done None) HS (ex_intro _ _ Hj) Hi ltac:(done)) as (H1 & H2 & H3).
  assert (∀ b : B, job_run j b = (b, None)) as Hjob by (by destruct j as [? ? ? []| |]).
  assert (∀ a', (serial bmc (sy_order s ++ [i])).1 a' = (serial bmc (sy_order s)).1 a') as Hb.
  { intros a'. rewrite serial_snoc, (serial1_bmc _ _ _ _ Hj), Hjob. cbn [fst].
    destruct (decide (a' = a)) as [-> |]; [by rewrite fn_lookup_insert|by rewrite fn_lookup_insert_ne]. }
  assert (∀ k, k ≠ i → (serial bmc (sy_order s ++ [i])).2 k = (serial bmc (sy_order s)).2 k) as Hr.
  { intros k Hk. rewrite serial_snoc, (serial1_bmc _ _ _ _ Hj). cbn [snd]. by rewrite fn_lookup_insert_ne. }
  split; cbn [enter sy_bmc sy_held sy_phase sy_order]; try done.
  - intros a' k. rewrite (sr_held _ _ HS). unfold holds. cbn [enter sy_phase].
    destruct (decide (k = i)) as [-> |Hk]; [|by rewrite fn_lookup_insert_ne].
    rewrite fn_lookup_insert, Hi. split; by intros (? & ? & _ & ?).
  - intros a' Hf. rewrite Hb. by apply (sr_free _ _ HS).
  - intros a' j' k p Hk Hp. destruct (decide (k = i)) as [-> |Hne]; [by rewrite fn_lookup_insert in Hp|].
    rewrite fn_lookup_insert_ne in Hp by done. rewrite Hb, Hr by done. by apply (sr_inside _ _ HS a' j').
  - intros k r Hk. destruct (decide (k = i)) as [-> |Hne].
    + rewrite fn_lookup_insert in Hk. injection Hk as <-.
      rewrite serial_snoc, (serial1_bmc _ _ _ _ Hj), Hjob. cbn [snd]. by rewrite fn_lookup_insert.
    + rewrite fn_lookup_insert_ne in Hk by done. rewrite Hr by done. by apply (sr_done _ _ HS).
Qed.

(** Moves inside and out leave the order as it is. *)
Lemma order_moves bmc s i ph :
  Serial bmc s → s.(sy_phase) i ≠ Waiting → ph ≠ Waiting →
  ∀ k, k ∈ s.(sy_order) ↔ (<[i := ph]> s.(sy_phase)) k ≠ Waiting.
Proof.
  intros HS Hi Hph k. rewrite (sr_order _ _ HS). destruct (decide (k = i)) as [-> |].
  - rewrite fn_lookup_insert. tauto.
  - by rewrite fn_lookup_insert_ne.
Qed.

(** Two callers inside are at different BMCs. *)
Lemma inside_alone bmc s a j i p a' j' k q :
  Serial bmc s → jobs !! i = Some (a, j) → s.(sy_phase) i = Inside p →
  jobs !! k = Some (a', j') → s.(sy_phase) k = Inside q → k ≠ i → a' ≠ a.
Proof.
  intros HS Hj Hi Hk Hp Hne ->.
  assert (sy_held s !! a = Some i) by (apply (sr_held _ _ HS); by exists j, p).
  assert (sy_held s !! a = Some k) by (apply (sr_held _ _ HS); by exists j', q). congruence.
Qed.

Lemma step_cmd bmc s i a j c k b x :
  Serial bmc s → jobs !! i = Some (a, j) → s.(sy_phase) i = Inside (Next c k) →
  do_cmd c (s.(sy_bmc) a) = (b, x) →
  Serial bmc (mkSys (<[a := b]> s.(sy_bmc)) s.(sy_held) (<[i := Inside (k x)]> s.(sy_phase)) s.(sy_order)).
Proof.
  intros HS Hj Hi Hc. split; cbn [sy_bmc sy_held sy_phase sy_order]; try apply HS.
  - apply (order_moves _ _ _ _ HS); [by rewrite Hi|done].
  - intros a' k'. rewrite (sr_held _ _ HS). unfold holds. cbn [sy_phase].
    destruct (decide (k' = i)) as [-> |Hne]; [|by rewrite fn_lookup_insert_ne].
    rewrite fn_lookup_insert, Hi. split; intros (j' & p & Hj' & ?); eauto.
  - intros a' Hf. assert (sy_held s !! a = Some i) by (apply (sr_held _ _ HS); by exists j, (Next c k)).
    rewrite fn_lookup_insert_ne by congruence. by apply (sr_free _ _ HS).
  - intros a' j' k' p Hk Hp. destruct (decide (k' = i)) as [-> |Hne].
    + rewrite fn_lookup_insert in Hp. simplify_eq. rewrite fn_lookup_insert.
      destruct (sr_inside _ _ HS _ _ _ _ Hj Hi) as (r & Hr & ?). exists r. split; [|done].
      cbn in Hr. by rewrite Hc in Hr.
    + rewrite fn_lookup_insert_ne in Hp by done.
      pose proof (inside_alone _ _ _ _ _ _ _ _ _ _ HS Hj Hi Hk Hp Hne).
      rewrite fn_lookup_insert_ne by done. by apply (sr_inside _ _ HS a' j').
  - intros k' r Hk. destruct (decide (k' = i)) as [-> |Hne]; [by rewrite fn_lookup_insert in Hk|].
    rewrite fn_lookup_insert_ne in Hk by done. by apply (sr_done _ _ HS).
Qed.

Lemma step_release bmc s i a j r :
  Serial bmc s → jobs !! i = Some (a, j) → s.(sy_phase) i = Inside (Ret r) →
  Serial bmc (mkSys s.(sy_bmc) (delete a s.(sy_held)) (<[i := Done r]> s.(sy_phase)) s.(sy_order)).
Proof.
  intros HS Hj Hi. destruct (sr_inside _ _ HS _ _ _ _ Hj Hi) as (r' & Hr & Hres).
  cbn in Hr. injection Hr as Hb <-.
  split; cbn [sy_bmc sy_held sy_phase sy_order]; try apply HS.
  - apply (order_moves _ _ _ _ HS); [by rewrite Hi|done].
  - intros a' k. unfold holds. cbn [sy_phase]. rewrite lookup_delete_Some, (sr_held _ _ HS). unfold holds.
    destruct (decide (k = i)) as [-> |Hne].
    + rewrite fn_lookup_insert, Hi. split; [intros [? (? & ? & ? & ?)]; congruence|by intros (? & ? & _ & ?)].
    + rewrite fn_lookup_insert_ne by done. split; [tauto|]. intros (j' & p & Hk & Hp). split; [|eauto].
      intros ->. by apply (inside_alone _ _ _ _ _ _ _ _ _ _ HS Hj Hi Hk Hp Hne).
  - intros a' Hf. destruct (decide (a' = a)) as [-> |Hne]; [done|].
    rewrite lookup_delete_ne in Hf by done. by apply (sr_free _ _ HS).
  - intros a' j' k p Hk Hp. destruct (decide (k = i)) as [-> |Hne]; [by rewrite fn_lookup_insert in Hp|].
    rewrite fn_lookup_insert_ne in Hp by done. by apply (sr_inside _ _ HS a' j').
  - intros k r' Hk. destruct (decide (k = i)) as [-> |Hne].
    + rewrite fn_lookup_insert in Hk. by injection Hk as <-.
    + rewrite fn_lookup_insert_ne in Hk by done. by apply (sr_done _ _ HS).
Qed.

Lemma step_serial bmc i s s' : Serial bmc s → step i s = Some s' → Serial bmc s'.
Proof.
  intros HS. unfold step. destruct (jobs !! i) as [[a j]|] eqn:Hj; [|done]. cbn.
  destruct (sy_phase s i) as [|[r|c k]|r] eqn:Hi; [| | |done].
  - destruct (takes_lock j) eqn:Hl; [|intros [= <-]; by apply (step_free bmc s i a j)].
    unfold lockBMC. destruct (sy_held s !! a) eqn:Ha; [done|]. cbn. intros [= <-].
    by apply (step_lock bmc s i a j).
  - intros [= <-]. by apply (step_release bmc s i a j).
  - destruct (do_cmd c (sy_bmc s a)) as [b x] eqn:Hc. intros [= <-]. by apply (step_cmd bmc s i a j c k b x).
Qed.

Lemma play_serial bmc sched s s' : Serial bmc s → play sched s = Some s' → Serial bmc s'.
Proof.
  revert s. induction sched as [|i sched IH]; intros s HS; cbn; [by intros [= <-]|].
  destruct (step i s) as [s1|] eqn:Hs; [|done]. cbn. apply IH. by eapply step_serial.
Qed.

(** C6. The writers of every BMC are serialised: after any schedule of
    client calls, each BMC whose lock is free holds what it would hold had the
    calls that went in been made one after the other, in the order in which
    they took their locks, each call that has returned returned what it
    would have returned then, and at most one call is inside per BMC. *)
Theorem calls_serial bmc sched s :
  play sched (begin bmc) = Some s →
  NoDup s.(sy_order)
  ∧ (∀ i, i ∈ s.(sy_order) ↔ s.(sy_phase) i ≠ Waiting)
  ∧ (∀ a, s.(sy_held) !! a = None → s.(sy_bmc) a = (serial bmc s.(sy_order)).1 a)
  ∧ (∀ i r, s.(sy_phase) i = Done r → (serial bmc s.(sy_order)).2 i = Some r)
  ∧ (∀ a i k, holds s a i → holds s a k → i = k).
Proof.
  intros Hp. pose proof (play_serial bmc sched _ _ (begin_serial bmc) Hp) as HS.
  split_and!; [apply HS|apply HS|apply HS|apply HS|].
  intros a i k Hi%(sr_held _ _ HS) Hk%(sr_held _ _ HS). congruence.
Qed.

(** ** Every call ends *)

(** [p] makes at most [n] client calls, whatever the BMC answers. *)
Fixpoint within {A} (p : io A) (n : nat) : Prop :=
  match p, n with
  | Ret _, _ => True
  | Next _ _, O => False
  | Next c k, S n => ∀ x, within (k x) n
  end.

Lemma within_mono {A} (p : io A) n m : (n ≤ m)%nat → within p n → within p m.
Proof.
  revert n m. induction p as [a|c k IH]; intros [|n] [|m] Hle; cbn; try done; try lia.
  intros Hp x. apply (IH x n); [lia|done].
Qed.

Lemma within_bind {A D} (p : io A) (f : A → io D) n m :
  within p n → (∀ a, within (f a) m) → within (p ≫= f) (n + m).
Proof.
  intros Hp Hf. revert n Hp. induction p as [a|c k IH]; intros n Hp.
  - apply (within_mono _ m); [lia|apply Hf].
  - destruct n as [|n]; [done|]. cbn. intros x. apply IH, Hp.
Qed.

Lemma within_call c n : within (call c) (S n).
Proof. intros x. by destruct n. Qed.

Lemma within_wipe werr : within (wipe_io werr) 2.
Proof. unfold wipe_io. destruct (selFull _); [|done]. by intros [e|rid]. Qed.

Lemma within_add now l le : within (add_missing_io now l le) (3 * length l).
Proof.
  revert le. induction l as [|s l IH]; intros le; [done|].
  apply (within_mono _ (1 + (2 + 3 * length l))); [cbn; lia|].
  apply within_bind; [apply within_call|]. intros [e|].
  - apply within_bind; [apply within_wipe|]. intros _. apply IH.
  - apply (within_mono _ (3 * length l)); [lia|apply IH].
Qed.

Lemma within_write now ctx_done n i stages le :
  i + Z.of_nat n = 5 →
  within (write_loop_io now ctx_done n i stages le) (n + 3 * (n - 1) * length stages).
Proof.
  revert i le. induction n as [|n IH]; intros i le Hi; [done|].
  cbn [write_loop_io]. destruct (if 0 <? i then ctx_done i else None); [done|].
  apply (within_mono _ (1 + (3 * length stages * Nat.min n 1 + (n + 3 * (n - 1) * length stages)))).
  { destruct n as [|n]; [cbn; lia|]. replace (S (S n) - 1)%nat with (S n) by lia.
    replace (S n - 1)%nat with n by lia. cbn [Nat.min]. lia. }
  apply within_bind; [intros [e|es]; done|]. intros [g|present].
  { eapply within_mono; [apply Nat.le_add_l|apply IH; lia]. }
  cbv zeta. case_bool_decide; [done|]. destruct (Z.eqb_spec i attempts) as [-> |Hne]; [done|].
  assert (n ≠ 0%nat) by (unfold attempts in Hne; lia).
  apply within_bind; [|intros le'; apply IH; lia].
  eapply within_mono; [|apply within_add].
  pose proof (missing_length stages present). destruct n; [done|]. cbn [Nat.min]. nia.
Qed.

(** The moves of a call: its client calls, the lock and the release. *)
Definition job_moves (j : job) : nat :=
  match j with
  | JGate _ _ _ [] => 1
  | JGate _ _ _ stages => 2 + (5 + 12 * length stages)
  | JClear _ => 2 + 2
  | JEndpoint _ _ _ _ => 2 + 4
  end.

Lemma job_within j : within (job_io j) (job_moves j - 2).
Proof.
  destruct j as [now ctx [e|] [|s l]|[e|]|now [e|] ip port]; try done.
  - apply (within_mono _ (5 + 3 * (5 - 1) * length (s :: l))); [cbn; lia|].
    by apply (within_write now ctx 5).
  - by intros [e|rid].
  - intros [err|]; cbn -[selFull]; [|done]. destruct (negb _); [done|].
    intros [e|rid]; [done|]. intros [e|]; [done|]. by intros x.
Qed.

(** [n] moves are enough for what [i] has left. *)
Definition enough (j : job) (ph : caller_phase) (n : nat) : Prop :=
  match ph with
  | Waiting => (job_moves j ≤ n)%nat
  | Inside p => n ≠ O ∧ within p (n - 1)
  | Done _ => True
  end.

Definition budget (s : Sys B) (l : list nat) : Prop :=
  ∀ i a j, jobs !! i = Some (a, j) → ∃ n, l !! i = Some n ∧ enough j (s.(sy_phase) i) n.

Lemma step_pays i s s' l :
  budget s l → step i s = Some s' → ∃ n, l !! i = Some (S n) ∧ budget s' (<[i := n]> l).
Proof.
  intros Hb. unfold step. destruct (jobs !! i) as [[a j]|] eqn:Hj; [|done]. cbn.
  destruct (Hb i a j Hj) as (n & Hn & He).
  assert (∀ m ph s1, s1 = s' → n = S m → enough j ph m → s1.(sy_phase) = <[i := ph]> s.(sy_phase) →
    ∃ n, l !! i = Some (S n) ∧ budget s' (<[i := n]> l)) as Hgo.
  { intros m ph s1 <- -> Hph Hs. exists m. split; [done|]. intros k a' j' Hk.
    destruct (decide (k = i)) as [-> |Hne].
    - exists m. rewrite list_lookup_insert_eq by (by eapply lookup_lt_Some). split; [done|].
      rewrite Hs, fn_lookup_insert. congruence.
    - rewrite list_lookup_insert_ne, Hs, fn_lookup_insert_ne by done. by apply (Hb k a'). }
  destruct (sy_phase s i) as [|[r|c k]|r]; [| | |done]; cbn [enough within] in He.
  - pose proof (job_within j) as Hw. assert (job_moves j ≠ 0%nat) by by destruct j as [? ? ? []| |].
    destruct (takes_lock j) eqn:Hl.
    + unfold lockBMC. destruct (sy_held s !! a); [done|]. cbn. intros [= Hs].
      assert (2 ≤ job_moves j)%nat by (destruct j as [? ? ? []| |]; cbn in *; try done; lia).
      eapply (Hgo (n - 1)%nat); [exact Hs|lia| |reflexivity]. cbn. split; [lia|].
      eapply within_mono; [|exact Hw]. lia.
    + intros [= Hs]. eapply (Hgo (n - 1)%nat (Done None)); [exact Hs|lia|done|reflexivity].
  - intros [= Hs]. eapply (Hgo (n - 1)%nat (Done r)); [exact Hs|lia|done|reflexivity].
  - destruct He as [H0 He]. destruct (n - 1)%nat as [|m] eqn:Hm; [done|].
    destruct (do_cmd c (sy_bmc s a)) as [b x]. intros [= Hs].
    eapply (Hgo (S m) (Inside (k x))); [exact Hs|lia| |reflexivity].
    cbn. split; [done|]. rewrite Nat.sub_0_r. apply He.
Qed.

Lemma sum_pays (l : list nat) i n :
  l !! i = Some (S n) → sum_list l = S (sum_list (<[i := n]> l)).
Proof.
  revert i. induction l as [|x l IH]; intros [|i]; cbn; try done.
  - by intros [= ->].
  - intros Hi. rewrite (IH i Hi). by rewrite Nat.add_succ_r.
Qed.

Lemma play_pays sched s s' l :
  budget s l → play sched s = Some s' → (length sched ≤ sum_list l)%nat.
Proof.
  revert s l. induction sched as [|i sched IH]; intros s l Hb; cbn; [lia|].
  destruct (step i s) as [s1|] eqn:Hs; [|done]. cbn. intros Hp.
  destruct (step_pays i s s1 l Hb Hs) as (n & Hn & Hb'). rewrite (sum_pays l i n Hn).
  pose proof (IH s1 _ Hb' Hp). lia.
Qed.

Lemma waits_for_holder bmc s i a j :
  Serial bmc s → jobs !! i = Some (a, j) → (∀ k, step k s = None) → ∃ r, s.(sy_phase) i = Done r.
Proof.
  intros HS Hj Hb.
  assert (∀ k a' j' p, jobs !! k = Some (a', j') → sy_phase s k ≠ Inside p) as Hin.
  { intros k a' j' p Hk Hp. specialize (Hb k). unfold step in Hb. rewrite Hk in Hb. cbn in Hb.
    rewrite Hp in Hb. destruct p as [r|c kk]; [done|]. by destruct (do_cmd c (sy_bmc s a')). }
  destruct (sy_phase s i) as [|p|r] eqn:Hi; [|by destruct (Hin i a j p)|by exists r].
  specialize (Hb i). unfold step in Hb. rewrite Hj in Hb. cbn in Hb. rewrite Hi in Hb.
  destruct (takes_lock j); [|done]. unfold lockBMC in Hb.
  destruct (sy_held s !! a) as [k|] eqn:Ha; [|done].
  apply (sr_held _ _ HS) in Ha as (j' & p & Hk & Hp). by destruct (Hin k a j' p).
Qed.

(** No writer hangs and none starves: a schedule never has more moves than
    the calls' own bounds add up to (12 client calls per gate stage and 5 for
    the reads), whatever the BMCs answer, and when nobody can move
    every call has returned. *)
Theorem calls_end bmc sched s :
  play sched (begin bmc) = Some s →
  (length sched ≤ sum_list (job_moves ∘ snd <$> jobs))%nat
  ∧ ((∀ i, step i s = None) → ∀ i, is_Some (jobs !! i) → ∃ r, s.(sy_phase) i = Done r).
Proof.
  intros Hp. split.
  - apply (play_pays sched (begin bmc) s); [|done]. intros i a j Hj. exists (job_moves j).
    split; [by rewrite list_lookup_fmap, Hj|cbn; lia].
  - intros Hb i [[a j] Hj]. eapply waits_for_holder; [|done|done].
    by eapply play_serial; [apply begin_serial|].
Qed.
End Callers.

(** ** A confirmed gate is lost only to a wipe *)

(** What more is relied on: a read-back shows records of the log, and reserving
    it changes nothing. *)
Class SELShows (B : Type) `{SELLaws B} := {
  get_shows : ∀ b es e, (GetSELEntries b).2 = inr es → e ∈ es → e ∈ sel_log b;
  reserve_keeps : ∀ b, sel_log (ReserveSEL b).1 = sel_log b
}.

(** A client call on its way: who made it, what it was, and whether the BMC
    answered an add with "out of space". *)
Record sent : Type := mkSent { se_by : nat; se_cmd : cmd; se_full : bool }.

Definition said_full (c : cmd) : answer c → bool :=
  match c with CAdd _ => fun x => selFull x | _ => fun _ => false end.

Section Sent.
Context {B : Type} `{BMCClient B}.
Variable jobs : list (string * job).

Definition sends (i : nat) (s : Sys B) : list sent :=
  match jobs !! i, s.(sy_phase) i with
  | Some (a, _), Inside (Next c _) => [mkSent i c (said_full c (do_cmd c (s.(sy_bmc) a)).2)]
  | _, _ => []
  end.

(** All client calls of a schedule, in order. *)
Fixpoint calls (sched : list nat) (s : Sys B) : list sent :=
  match sched with
  | [] => []
  | i :: sched => sends i s ++ match step jobs i s with Some s' => calls sched s' | None => [] end
  end.
End Sent.

(** [k] has been told that the log is full. *)
Definition told_full (l : list sent) (k : nat) : Prop := ∃ e, mkSent k (CAdd e) true ∈ l.

(** A program that wipes the log only once an add has been answered with "out
    of space"; [full]: it has been already. *)
Fixpoint wipes_when_full {A} (p : io A) (full : bool) : Prop :=
  match p with
  | Ret _ => True
  | Next c k => (∀ rid, c = CClear rid → full = true) ∧ ∀ x, wipes_when_full (k x) (full || said_full c x)
  end.

Lemma wipes_bind {A D} (p : io A) (f : A → io D) full :
  wipes_when_full p full → (∀ a full', wipes_when_full (f a) full') → wipes_when_full (p ≫= f) full.
Proof.
  intros Hp Hf. revert full Hp. induction p as [a|c k IH]; intros full; [by intros _; apply Hf|].
  intros [Hc Hk]. split; [done|]. intros x. apply IH, Hk.
Qed.

Lemma wipes_call {D} c (f : answer c → io D) full :
  (∀ rid, c = CClear rid → full = true) → (∀ x, wipes_when_full (f x) (full || said_full c x)) →
  wipes_when_full (call c ≫= f) full.
Proof. by split. Qed.

Lemma wipes_get full : wipes_when_full gatesPresent_io full.
Proof. by split. Qed.

Lemma wipes_wipe e full : (selFull (Some e) = true → full = true) → wipes_when_full (wipe_io e) full.
Proof.
  unfold wipe_io. destruct (selFull _); [|done]. intros Hf. specialize (Hf eq_refl) as ->.
  split; [done|]. intros [r|rid]; [done|]. by split.
Qed.

Lemma wipes_add now l le full : wipes_when_full (add_missing_io now l le) full.
Proof.
  revert le full. induction l as [|x l IH]; intros le full; [done|].
  apply wipes_call; [done|]. intros [e|]; [|apply IH]. apply wipes_bind; [|intros; apply IH].
  apply wipes_wipe. unfold said_full. intros ->. apply orb_true_r.
Qed.

Lemma wipes_write now ctx_done n i stages le full :
  wipes_when_full (write_loop_io now ctx_done n i stages le) full.
Proof.
  revert i le full. induction n as [|n IH]; intros i le full; [done|]. cbn [write_loop_io].
  destruct (if 0 <? i then ctx_done i else None); [done|].
  apply wipes_bind; [apply wipes_get|]. intros [e|present] full'; [apply IH|]. cbv zeta.
  case_bool_decide; [done|]. destruct (i =? attempts); [done|].
  apply wipes_bind; [apply wipes_add|intros; apply IH].
Qed.

Lemma wipes_endpoint now ip port full : wipes_when_full (write_endpoint_io now ip port) full.
Proof.
  split; [done|]. intros [e|]; [|done]. cbn -[selFull]. destruct (selFull (Some e)); [|done].
  cbn -[endpointSEL]. rewrite orb_true_r. split; [done|]. intros [r|rid]; [done|]. split; [done|].
  intros [c|]; [done|]. split; [done|]. done.
Qed.

Lemma wipes_job j : (∀ d, j ≠ JClear d) → wipes_when_full (job_io j) false.
Proof.
  destruct j as [now ctx [e|] [|s l]|d|now [e|] ip port]; intros Hj; try done;
    [|by destruct (Hj d)|apply wipes_endpoint]. apply wipes_write.
Qed.

Section Lost.
Context {B : Type} `{SELShows B}.
Variable jobs : list (string * job).

Lemma cmd_keeps_log c (b : B) :
  (∀ rid, c ≠ CClear rid) → sel_log b `prefix_of` sel_log (do_cmd c b).1.
Proof.
  destruct c as [|e| |rid]; intros Hc; cbn.
  - by rewrite get_keeps_log.
  - apply add_grows_log.
  - by rewrite reserve_keeps.
  - by destruct (Hc rid).
Qed.

Lemma gates_in_sub (es log : list (option SEL)) x :
  (∀ e, e ∈ es → e ∈ log) → x ∈ gates_in es → x ∈ gates_in log.
Proof. unfold gates_in. intros Hs (e & He & Hg)%list_elem_of_omap. apply list_elem_of_omap. eauto. Qed.

(** A gate write that would answer nil leaves its stages in the log. *)
Definition confirming (s : Sys B) : Prop :=
  ∀ i a now ctx d stages p, jobs !! i = Some (a, JGate now ctx d stages) → s.(sy_phase) i = Inside p →
    (run p (s.(sy_bmc) a)).2 = None →
    ∀ x, x ∈ stages → x ∈ gates_in (sel_log (run p (s.(sy_bmc) a)).1).

Lemma gate_confirms now ctx d stages (b : B) :
  (run (job_io (JGate now ctx d stages)) b).2 = None →
  ∀ x, x ∈ stages → x ∈ gates_in (sel_log (run (job_io (JGate now ctx d stages)) b).1).
Proof.
  rewrite run_job. cbn [job_run]. intros Hr x Hx.
  assert (stages ≠ []) as Hne by (intros ->; by apply not_elem_of_nil in Hx).
  destruct d as [e|]. { destruct stages; done. }
  destruct (WriteGate now ctx None stages b) as [b' r] eqn:Ew. cbn [fst snd] in *. subst r.
  assert (write_loop now ctx 5 0 stages b None = (b', None)) as Hl by (by destruct stages).
  destruct (write_loop_confirmed now ctx 5 0 stages b None b') as (b0 & es & Hget & Hin); [by left|done|].
  pose proof (get_keeps_log b0) as Hk. rewrite Hget in Hk. cbn in Hk. rewrite Hk.
  apply (gates_in_sub es); [|by apply Hin]. intros e He. apply (get_shows b0 es); [by rewrite Hget|done].
Qed.

Lemma step_confirming bmc i s s' :
  Serial jobs bmc s → confirming s → step jobs i s = Some s' → confirming s'.
Proof.
  intros HS HC. unfold step. destruct (jobs !! i) as [[a j]|] eqn:Hj; [|done]. cbn.
  assert (∀ ord a' ph, (∀ k, k ≠ i → ph k = sy_phase s k) →
    (∀ now ctx d stages p, j = JGate now ctx d stages → ph i = Inside p →
      (run p (sy_bmc s a)).2 = None → ∀ x, x ∈ stages → x ∈ gates_in (sel_log (run p (sy_bmc s a)).1)) →
    confirming (mkSys (sy_bmc s) a' ph ord)) as Hkeep.
  { intros ord h ph Hph Hi k a' now ctx d stages p Hk Hp. cbn [sy_phase sy_bmc] in *.
    destruct (decide (k = i)) as [->|Hne]; [|rewrite Hph in Hp by done; by apply (HC k a' now ctx d stages p)].
    rewrite Hj in Hk. injection Hk as -> ->. by apply (Hi now ctx d stages p). }
  destruct (sy_phase s i) as [|[r|c k]|r] eqn:Hi; [| | |done].
  - destruct (takes_lock j).
    + unfold lockBMC. destruct (sy_held s !! a); [done|]. cbn. intros [= <-].
      refine (Hkeep _ _ (<[i := Inside (job_io j)]> (sy_phase s)) _ _).
      * intros k Hk. by rewrite fn_lookup_insert_ne.
      * intros now ctx d stages p -> Hp. rewrite fn_lookup_insert in Hp. injection Hp as <-. apply gate_confirms.
    + intros [= <-]. refine (Hkeep _ _ (<[i := Done None]> (sy_phase s)) _ _).
      * intros k Hk. by rewrite fn_lookup_insert_ne.
      * intros now ctx d stages p _ Hp. by rewrite fn_lookup_insert in Hp.
  - intros [= <-]. refine (Hkeep _ _ (<[i := Done r]> (sy_phase s)) _ _).
    + intros k Hk. by rewrite fn_lookup_insert_ne.
    + intros now ctx d stages p _ Hp. by rewrite fn_lookup_insert in Hp.
  - destruct (do_cmd c (sy_bmc s a)) as [b x] eqn:Hc. intros [= <-].
    intros m a' now ctx d stages p Hm Hp. cbn [sy_phase sy_bmc] in *. destruct (decide (m = i)) as [->|Hne].
    + rewrite fn_lookup_insert in Hp. injection Hp as <-. rewrite Hj in Hm. injection Hm as <- ->.
      rewrite fn_lookup_insert. pose proof (HC i a now ctx d stages _ Hj Hi) as Hrun. cbn in Hrun.
      by rewrite Hc in Hrun.
    + rewrite fn_lookup_insert_ne in Hp by done.
      pose proof (inside_alone jobs _ _ _ _ _ _ _ _ _ _ HS Hj Hi Hm Hp Hne).
      rewrite fn_lookup_insert_ne by done. by apply (HC m a' now ctx d stages p).
Qed.
Lemma play_confirming bmc sched s s' :
  Serial jobs bmc s → confirming s → play jobs sched s = Some s' → Serial jobs bmc s' ∧ confirming s'.
Proof.
  revert s. induction sched as [|i sched IH]; intros s HS HC; cbn; [by intros [= <-]|].
  destruct (step jobs i s) as [s1|] eqn:Es; [|done]. cbn. apply IH.
  - by eapply step_serial.
  - by eapply step_confirming.
Qed.

Lemma begin_confirming bmc : confirming (begin bmc).
Proof. by intros i a now ctx d stages p _ Hp. Qed.

Lemma gates_prefix (l l' : list (option SEL)) x : l `prefix_of` l' → x ∈ gates_in l → x ∈ gates_in l'.
Proof. intros [k ->]. apply gates_in_sub. intros e He. apply elem_of_app. by left. Qed.

(** The callers inside at [a] wipe its log only if they may. *)
Definition told_inv (a : string) (l : list sent) (s : Sys B) : Prop :=
  ∀ k j p, jobs !! k = Some (a, j) → (∀ d, j ≠ JClear d) → s.(sy_phase) k = Inside p →
    ∃ full, (full = true → told_full l k) ∧ wipes_when_full p full.

Lemma told_app l l' k : told_full l k → told_full (l ++ l') k.
Proof. intros [e He]. exists e. apply elem_of_app. by left. Qed.

Lemma step_told a l k s s' :
  told_inv a l s → step jobs k s = Some s' → told_inv a (l ++ sends jobs k s) s'.
Proof.
  intros HT Hs k' j p Hj Hd Hp. unfold step in Hs. destruct (decide (k' = k)) as [->|Hne].
  - unfold sends. rewrite Hj in Hs |- *. cbn in Hs.
    destruct (sy_phase s k) as [|[r|c kk]|r] eqn:Hk; [| | |done].
    + destruct (takes_lock j).
      * unfold lockBMC in Hs. destruct (sy_held s !! a); [done|]. injection Hs as <-. cbn in Hp.
        rewrite fn_lookup_insert in Hp. injection Hp as <-. exists false. split; [done|by apply wipes_job].
      * injection Hs as <-. cbn in Hp. by rewrite fn_lookup_insert in Hp.
    + injection Hs as <-. cbn in Hp. by rewrite fn_lookup_insert in Hp.
    + destruct (do_cmd c (sy_bmc s a)) as [b x] eqn:Hc. injection Hs as <-. cbn in Hp.
      rewrite fn_lookup_insert in Hp. injection Hp as <-.
      destruct (HT k j _ Hj Hd Hk) as (full & Hf & [_ Hw]). exists (full || said_full c x). split; [|apply Hw].
      intros [Hfull|Hx]%orb_true_iff; [by apply told_app, Hf|]. cbn [snd]. rewrite Hx.
      destruct c as [|e| |]; try done. exists e. apply elem_of_app. right. by left.
  - destruct (HT k' j p Hj Hd) as (full & Hf & Hw); [|exists full; split; [intros; by apply told_app, Hf|done]].
    destruct (jobs !! k) as [[a1 j1]|]; [|done]. cbn in Hs.
    destruct (sy_phase s k) as [|[r|c kk]|r]; [| | |done].
    + destruct (takes_lock j1); [unfold lockBMC in Hs; destruct (sy_held s !! a1); [done|]|];
        injection Hs as <-; cbn in Hp; by rewrite fn_lookup_insert_ne in Hp.
    + injection Hs as <-. cbn in Hp. by rewrite fn_lookup_insert_ne in Hp.
    + destruct (do_cmd c (sy_bmc s a1)). injection Hs as <-. cbn in Hp. by rewrite fn_lookup_insert_ne in Hp.
Qed.

(** A wipe of [a]'s log among the calls, by a caller that may. *)
Definition wiped (a : string) (l : list sent) : Prop :=
  ∃ l1 l2 k rid full j, l = l1 ++ mkSent k (CClear rid) full :: l2 ∧ jobs !! k = Some (a, j)
    ∧ ((∃ d, j = JClear d) ∨ told_full l1 k).

Lemma wiped_app a l l' : wiped a l → wiped a (l ++ l').
Proof. intros (l1 & l2 & k & rid & full & j & -> & Hr). exists l1, (l2 ++ l'), k, rid, full, j. by rewrite <- app_assoc. Qed.

(** One move leaves the log its records, or is such a wipe. *)
Lemma step_log a l k s s' :
  told_inv a l s → step jobs k s = Some s' →
  sel_log (s.(sy_bmc) a) `prefix_of` sel_log (s'.(sy_bmc) a) ∨ wiped a (l ++ sends jobs k s).
Proof.
  intros HT Hs. unfold step in Hs. unfold sends. destruct (jobs !! k) as [[a1 j]|] eqn:Hj; [|done]. cbn in Hs.
  destruct (sy_phase s k) as [|[r|c kk]|r] eqn:Hk; [| | |done].
  - left. destruct (takes_lock j); [unfold lockBMC in Hs; destruct (sy_held s !! a1); [done|]|]; by injection Hs as <-.
  - left. by injection Hs as <-.
  - destruct (do_cmd c (sy_bmc s a1)) as [b x] eqn:Hc. injection Hs as <-. cbn [sy_bmc].
    destruct (decide (a1 = a)) as [->|Hne]; [|left; by rewrite fn_lookup_insert_ne]. rewrite fn_lookup_insert.
    assert (sel_log (sy_bmc s a) `prefix_of` sel_log b ∨ ∃ rid, c = CClear rid) as [?|[rid ->]]; [|by left|right].
    { destruct c as [| | |rid]; [left|left|left|eauto]; change b with ((b, x).1); rewrite <- Hc;
        by apply cmd_keeps_log. }
    eexists l, [], k, rid, _, j. split; [reflexivity|]. split; [done|].
    destruct j as [now ctx d stages|d|now d ip port]; [right|left; eauto|right];
      destruct (HT k _ _ Hj ltac:(done) Hk) as (full & Hf & [Hw _]); by apply Hf, (Hw rid).
Qed.

Lemma play_log a sched l s s' x :
  told_inv a l s → play jobs sched s = Some s' → x ∈ gates_in (sel_log (s.(sy_bmc) a)) →
  x ∈ gates_in (sel_log (s'.(sy_bmc) a)) ∨ wiped a (l ++ calls jobs sched s).
Proof.
  revert l s. induction sched as [|k sched IH]; intros l s HT; cbn [play calls]; [intros [= <-]; by left|].
  destruct (step jobs k s) as [s1|] eqn:Es; [|done]. cbn [option_bind mbind]. intros Hp Hx. rewrite app_assoc.
  destruct (step_log a l k s s1 HT Es) as [Hl|Hw]; [|right; by apply wiped_app].
  apply (IH _ s1); [by apply step_told|done|]. by eapply gates_prefix.
Qed.

End Lost.

(** ** Concrete runs *)

(** Two drivers' goroutines at one BMC whose log is full, and a third at another. *)
Definition crowd : list (string * job) :=
  [("10.0.0.1", JGate "" (fun _ => None) None [1; 2]);
   ("10.0.0.1", JEndpoint "" None [10; 0; 0; 9] 8080);
   ("10.0.0.2", JClear None)].

Definition full_log : string → MemBMC := fun _ => mkMemBMC [None; None] 10 2 [].

(** The endpoint goes first, the third caller runs in between, the gates last. *)
Definition crowd_sched : list nat := [1; 1; 2; 1; 2; 1; 2; 2; 1; 1; 0; 0; 0; 0; 0; 0; 0; 0; 0; 0; 0]%nat.

Definition crowd_end : Sys MemBMC := default (begin full_log) (play crowd crowd_sched (begin full_log)).

Lemma crowd_played : play crowd crowd_sched (begin full_log) = Some crowd_end.
Proof.
  unfold crowd_end. destruct (play crowd crowd_sched (begin full_log)) eqn:E; [done|].
  vm_compute in E. discriminate.
Defined.

Lemma calls_serial_witness :
  ∃ s, play crowd crowd_sched (begin full_log) = Some s ∧ s.(sy_order) = [1; 2; 0]%nat
    ∧ NoDup s.(sy_order).
Proof.
  exists crowd_end. split; [exact crowd_played|]. split; [by vm_compute|].
  exact (proj1 (calls_serial crowd full_log crowd_sched crowd_end crowd_played)).
Defined.

Lemma calls_end_witness :
  play crowd crowd_sched (begin full_log) = Some crowd_end
  ∧ (length crowd_sched ≤ sum_list (job_moves ∘ snd <$> crowd))%nat.
Proof.
  split; [exact crowd_played|].
  exact (proj1 (calls_end crowd full_log crowd_sched crowd_end crowd_played)).
Defined.

#[export] Instance MemBMC_shows : SELShows MemBMC.
Proof. split; [by intros b es e [= <-]|done]. Qed.

(** Two gates are written and confirmed, then the endpoint is stamped. *)
Definition stamped : list (string * job) :=
  [("10.0.0.1", JGate "" (fun _ => None) None [1; 2]);
   ("10.0.0.1", JEndpoint "" None [10; 0; 0; 9] 8080)].

Definition roomy (cap : nat) : string → MemBMC := fun _ => mkMemBMC [None] 10 cap [].

Definition stamped_run (cap : nat) (sched : list nat) : Sys MemBMC :=
  default (begin (roomy cap)) (play stamped sched (begin (roomy cap))).

Definition gates_done : list nat := [0; 0; 0; 0; 0]%nat.
Definition then_stamp : list nat := [0; 1; 1; 1]%nat.


(** With room for no more the stamp wipes both gates: the BMC had said so. *)
Example full_stamp_wipes :
  gates_in (sel_log (sy_bmc (stamped_run 3 gates_done) "10.0.0.1")) = [1; 2]
  ∧ gates_in (sel_log (sy_bmc (stamped_run 3 (gates_done ++ [0; 1; 1; 1; 1; 1; 1]%nat)) "10.0.0.1")) = []
  ∧ se_full <$> calls stamped [0; 1; 1; 1; 1; 1; 1]%nat (stamped_run 3 gates_done) = [true; false; false; false].
Proof. vm_compute. done. Qed.

(** Why the lock is there: two gate writers on one BMC without it.  [true]
    moves the second. *)
Fixpoint race {B} `{BMCClient B} (sched : list bool) (p q : io (option ipmi_error)) (b : B) :
    B * io (option ipmi_error) * io (option ipmi_error) :=
  match sched with
  | [] => (b, p, q)
  | false :: sched =>
      match p with
      | Ret _ => race sched p q b
      | Next c k => let '(b, x) := do_cmd c b in race sched (k x) q b
      end
  | true :: sched =>
      match q with
      | Ret _ => race sched p q b
      | Next c k => let '(b, x) := do_cmd c b in race sched p (k x) b
      end
  end.

Definition gate_alone (stage : Z) : io (option ipmi_error) :=
  job_io (JGate "" (fun _ => None) None [stage]).

(** The first finds the log full and reserves it; the second wipes, writes and
    reads back its stage; then the first's wipe takes that stage away.  Both
    answer nil, and the second's gate is not there. *)
Example unlocked_loses_gate :
  let '(b, p, q) := race [false; false; false; true; true; true; true; true; true; true;
                          false; false; false; false]
                      (gate_alone 1) (gate_alone 2) (full_log "10.0.0.1") in
  (p, q, gates_in b.(mb_log)) = (Ret None, Ret None, [1]).
Proof. vm_compute. reflexivity. Qed.
