(* ===== verification/Orchestrator.v ===== *)
(** * The deploy manager (internal/orchestrator/manager.go, store.go)

    The state of [Manager] and its deploy handlers.  Each function below is
    the body of one handler: the part under [m.mu] is one transition of the
    state.  The clock, the disk, the BMCs, the agents and the PXE server are
    outside: the clock and whether disk writes succeed are fields the
    environment sets, outcomes of hardware calls are arguments, and a [go]
    statement appends the goroutine to [m_jobs]. *)
From S2P Require Import Prelude GoStrings DeployModel SelCodec.
From Stdlib Require Import QArith.

Open Scope string_scope.
Open Scope list_scope.
Open Scope Z_scope.

(** Durations are nanoseconds. *)
Definition Second : Z := 1000000000.
Definition Minute : Z := 60 * Second.

Record Config : Type := mkConfig {
  cfg_PollInterval : Z;
  cfg_StageTimeout : Z;
  cfg_SkewLimitSec : Q;
  cfg_PowerStagger : Z;
  cfg_GateRecheck : Z;
  cfg_InspectTimeout : Z
}.

Definition withDefaults (c : Config) : Config :=
  mkConfig
    (if c.(cfg_PollInterval) <=? 0 then 3 * Second else c.(cfg_PollInterval))
    (if c.(cfg_StageTimeout) <=? 0 then 30 * Minute else c.(cfg_StageTimeout))
    (if Qle_bool c.(cfg_SkewLimitSec) 0 then 5%Q else c.(cfg_SkewLimitSec))
    c.(cfg_PowerStagger)
    (if c.(cfg_GateRecheck) <=? 0 then 30 * Second else c.(cfg_GateRecheck))
    c.(cfg_InspectTimeout).

Record InspectStatus : Type := mkInspectStatus {
  is_MachineID : string;
  is_Label : string;
  is_State : string;
  is_Message : string;
  is_UpdatedAt : string
}.

Record SetReadyInput : Type := mkSetReadyInput {
  sr_Trigger : bool;
  sr_CreateExternal : bool;
  sr_CIDR : string;
  sr_Gateway : string;
  sr_IPRange : string;
  sr_Ready : bool;
  sr_Message : string
}.

Definition set_sr_Trigger (v : bool) (x : SetReadyInput) : SetReadyInput :=
  mkSetReadyInput
    v x.(sr_CreateExternal) x.(sr_CIDR) x.(sr_Gateway) x.(sr_IPRange)
    x.(sr_Ready) x.(sr_Message).
Definition set_sr_Ready (v : bool) (x : SetReadyInput) : SetReadyInput :=
  mkSetReadyInput
    x.(sr_Trigger) x.(sr_CreateExternal) x.(sr_CIDR) x.(sr_Gateway)
    x.(sr_IPRange) v x.(sr_Message).
Definition set_sr_Message (v : string) (x : SetReadyInput) : SetReadyInput :=
  mkSetReadyInput
    x.(sr_Trigger) x.(sr_CreateExternal) x.(sr_CIDR) x.(sr_Gateway)
    x.(sr_IPRange) x.(sr_Ready) v.

Definition zero_SetReadyInput : SetReadyInput :=
  mkSetReadyInput false false "" "" "" false "".

(** ** The store: one file per cluster's deploy and set-ready input

    A file is replaced by write-to-temp and rename, so a failed write leaves
    the previous content. *)
Record Store : Type := mkStore {
  st_deploys : gmap string Deploy;
  st_setready : gmap string SetReadyInput;
  st_ok : bool   (** whether the disk accepts writes *)
}.

Definition Store_Save (d : Deploy) (s : Store) : Store :=
  if s.(st_ok) then mkStore (<[d.(d_ClusterID) := d]> s.(st_deploys)) s.(st_setready) true else s.
Definition Store_Delete (clusterID : string) (s : Store) : Store :=
  if s.(st_ok) then mkStore (delete clusterID s.(st_deploys)) s.(st_setready) true else s.
Definition SaveSetReady (clusterID : string) (i : SetReadyInput) (s : Store) : Store :=
  if s.(st_ok) then mkStore s.(st_deploys) (<[clusterID := i]> s.(st_setready)) true else s.
Definition LoadSetReady (clusterID : string) (s : Store) : option SetReadyInput :=
  s.(st_setready) !! clusterID.
Definition Store_Load (clusterID : string) (s : Store) : option Deploy :=
  s.(st_deploys) !! clusterID.

(** ** Goroutines *)

(** Where [runNode] is: the hardware call it waits for, or its poll loop with
    [sawImaging]. *)
Inductive RunPC := RnPreflight | RnSetBootPXE | RnPowerCycle | RnPoll (sawImaging : bool).

Inductive Booted := BootedDeploy (clusterID : string) | BootedInspects (ids : list string).

Inductive Job :=
| JFlushGates (clusterID : string) (n : Node) (stages : list Z)
| JVerify (clusterID : string) (targets : list string)
| JBootDisk (clusterID hostname : string) (n : Node)
| JRunNode (clusterID : string) (n : Node) (ctx : nat) (pc : RunPC)
| JPollSEL (clusterID : string) (nodes : list Node) (ctx : nat) (anchor : gmap string Z)
| JReconcile (clusterID : string) (ctx : nat)
| JPXEWatch (ctx : option nat) (b : Booted)
| JInspectRun (n : Node) (idx : nat) (run : nat)
| JResetInspect (machineID : string).

Record Manager : Type := mkManager {
  m_store : Store;
  m_cfg : Config;
  m_clock : string;
  m_next : nat;
  m_has_gate : bool;
  m_has_endpoint_writer : bool;
  m_has_sel : bool;
  m_has_pxe : bool;
  m_manualGate : bool;
  m_advertiseIP : list Z;
  m_advertisePort : Z;
  m_deploys : gmap string Deploy;
  m_cancels : gmap string nat;
  m_cancelled : gset nat;
  m_nodes : gmap string (gmap string Node);
  m_setReady : gmap string SetReadyInput;
  m_inspects : gmap string nat;
  m_istatus : gmap nat InspectStatus;
  m_inspectNodes : gmap string Node;
  m_jobs : list Job
}.

Definition set_m_store (v : Store) (x : Manager) : Manager :=
  mkManager
    v x.(m_cfg) x.(m_clock) x.(m_next) x.(m_has_gate)
    x.(m_has_endpoint_writer) x.(m_has_sel) x.(m_has_pxe) x.(m_manualGate)
    x.(m_advertiseIP) x.(m_advertisePort) x.(m_deploys) x.(m_cancels)
    x.(m_cancelled) x.(m_nodes) x.(m_setReady) x.(m_inspects)
    x.(m_istatus) x.(m_inspectNodes) x.(m_jobs).
Definition set_m_next (v : nat) (x : Manager) : Manager :=
  mkManager
    x.(m_store) x.(m_cfg) x.(m_clock) v x.(m_has_gate)
    x.(m_has_endpoint_writer) x.(m_has_sel) x.(m_has_pxe) x.(m_manualGate)
    x.(m_advertiseIP) x.(m_advertisePort) x.(m_deploys) x.(m_cancels)
    x.(m_cancelled) x.(m_nodes) x.(m_setReady) x.(m_inspects)
    x.(m_istatus) x.(m_inspectNodes) x.(m_jobs).
Definition set_m_deploys (v : gmap string Deploy) (x : Manager) : Manager :=
  mkManager
    x.(m_store) x.(m_cfg) x.(m_clock) x.(m_next) x.(m_has_gate)
    x.(m_has_endpoint_writer) x.(m_has_sel) x.(m_has_pxe) x.(m_manualGate)
    x.(m_advertiseIP) x.(m_advertisePort) v x.(m_cancels) x.(m_cancelled)
    x.(m_nodes) x.(m_setReady) x.(m_inspects) x.(m_istatus)
    x.(m_inspectNodes) x.(m_jobs).
Definition set_m_cancels (v : gmap string nat) (x : Manager) : Manager :=
  mkManager
    x.(m_store) x.(m_cfg) x.(m_clock) x.(m_next) x.(m_has_gate)
    x.(m_has_endpoint_writer) x.(m_has_sel) x.(m_has_pxe) x.(m_manualGate)
    x.(m_advertiseIP) x.(m_advertisePort) x.(m_deploys) v x.(m_cancelled)
    x.(m_nodes) x.(m_setReady) x.(m_inspects) x.(m_istatus)
    x.(m_inspectNodes) x.(m_jobs).
Definition set_m_cancelled (v : gset nat) (x : Manager) : Manager :=
  mkManager
    x.(m_store) x.(m_cfg) x.(m_clock) x.(m_next) x.(m_has_gate)
    x.(m_has_endpoint_writer) x.(m_has_sel) x.(m_has_pxe) x.(m_manualGate)
    x.(m_advertiseIP) x.(m_advertisePort) x.(m_deploys) x.(m_cancels) v
    x.(m_nodes) x.(m_setReady) x.(m_inspects) x.(m_istatus)
    x.(m_inspectNodes) x.(m_jobs).
Definition set_m_nodes (v : gmap string (gmap string Node)) (x : Manager) : Manager :=
  mkManager
    x.(m_store) x.(m_cfg) x.(m_clock) x.(m_next) x.(m_has_gate)
    x.(m_has_endpoint_writer) x.(m_has_sel) x.(m_has_pxe) x.(m_manualGate)
    x.(m_advertiseIP) x.(m_advertisePort) x.(m_deploys) x.(m_cancels)
    x.(m_cancelled) v x.(m_setReady) x.(m_inspects) x.(m_istatus)
    x.(m_inspectNodes) x.(m_jobs).
Definition set_m_setReady (v : gmap string SetReadyInput) (x : Manager) : Manager :=
  mkManager
    x.(m_store) x.(m_cfg) x.(m_clock) x.(m_next) x.(m_has_gate)
    x.(m_has_endpoint_writer) x.(m_has_sel) x.(m_has_pxe) x.(m_manualGate)
    x.(m_advertiseIP) x.(m_advertisePort) x.(m_deploys) x.(m_cancels)
    x.(m_cancelled) x.(m_nodes) v x.(m_inspects) x.(m_istatus)
    x.(m_inspectNodes) x.(m_jobs).
Definition set_m_inspects (v : gmap string nat) (x : Manager) : Manager :=
  mkManager
    x.(m_store) x.(m_cfg) x.(m_clock) x.(m_next) x.(m_has_gate)
    x.(m_has_endpoint_writer) x.(m_has_sel) x.(m_has_pxe) x.(m_manualGate)
    x.(m_advertiseIP) x.(m_advertisePort) x.(m_deploys) x.(m_cancels)
    x.(m_cancelled) x.(m_nodes) x.(m_setReady) v x.(m_istatus)
    x.(m_inspectNodes) x.(m_jobs).
Definition set_m_istatus (v : gmap nat InspectStatus) (x : Manager) : Manager :=
  mkManager
    x.(m_store) x.(m_cfg) x.(m_clock) x.(m_next) x.(m_has_gate)
    x.(m_has_endpoint_writer) x.(m_has_sel) x.(m_has_pxe) x.(m_manualGate)
    x.(m_advertiseIP) x.(m_advertisePort) x.(m_deploys) x.(m_cancels)
    x.(m_cancelled) x.(m_nodes) x.(m_setReady) x.(m_inspects) v
    x.(m_inspectNodes) x.(m_jobs).
Definition set_m_inspectNodes (v : gmap string Node) (x : Manager) : Manager :=
  mkManager
    x.(m_store) x.(m_cfg) x.(m_clock) x.(m_next) x.(m_has_gate)
    x.(m_has_endpoint_writer) x.(m_has_sel) x.(m_has_pxe) x.(m_manualGate)
    x.(m_advertiseIP) x.(m_advertisePort) x.(m_deploys) x.(m_cancels)
    x.(m_cancelled) x.(m_nodes) x.(m_setReady) x.(m_inspects)
    x.(m_istatus) v x.(m_jobs).
Definition set_m_jobs (v : list Job) (x : Manager) : Manager :=
  mkManager
    x.(m_store) x.(m_cfg) x.(m_clock) x.(m_next) x.(m_has_gate)
    x.(m_has_endpoint_writer) x.(m_has_sel) x.(m_has_pxe) x.(m_manualGate)
    x.(m_advertiseIP) x.(m_advertisePort) x.(m_deploys) x.(m_cancels)
    x.(m_cancelled) x.(m_nodes) x.(m_setReady) x.(m_inspects)
    x.(m_istatus) x.(m_inspectNodes) v.

Definition spawn (j : Job) (m : Manager) : Manager := set_m_jobs (m.(m_jobs) ++ [j]) m.
Definition nowUTC (m : Manager) : string := m.(m_clock).
Definition put_deploy (clusterID : string) (d : Deploy) (m : Manager) : Manager :=
  set_m_deploys (<[clusterID := d]> m.(m_deploys)) m.

Definition NewManager (s : Store) (c : Config) (now : string) : Manager :=
  mkManager s (withDefaults c) now 0 false false false false false [0; 0; 0; 0] 0
    ∅ ∅ ∅ ∅ ∅ ∅ ∅ ∅ [].

(** ** Helpers *)

Definition persistLocked (d : Deploy) (m : Manager) : Manager :=
  set_m_store (Store_Save d m.(m_store)) m.

(** Mutate a node's record under the lock and persist it. *)
Definition set (clusterID hostname : string) (fn : NodeDeploy → NodeDeploy)
    (m : Manager) : Manager :=
  match m.(m_deploys) !! clusterID with
  | None => m
  | Some d =>
      match d.(d_Nodes) !! hostname with
      | None => m
      | Some nd =>
          let nd := set_nd_UpdatedAt (nowUTC m) (fn nd) in
          let d := set_d_Nodes (<[hostname := nd]> d.(d_Nodes)) d in
          persistLocked d (put_deploy clusterID d m)
      end
  end.

Definition fail (clusterID hostname : string) (code : ErrCode) (err : string) : Manager → Manager :=
  set clusterID hostname (fun nd =>
    if agentDriven nd.(nd_State) then nd
    else set_nd_Message err (set_nd_ErrCode code (set_nd_State StateError nd))).

Definition advance (clusterID hostname : string) (s : State) : Manager → Manager :=
  set clusterID hostname (fun nd =>
    if agentDriven nd.(nd_State) then nd else set_nd_State s nd).

Definition node_of (clusterID hostname : string) (m : Manager) : option NodeDeploy :=
  d ← m.(m_deploys) !! clusterID; d.(d_Nodes) !! hostname.

Definition state (clusterID hostname : string) (m : Manager) : State :=
  match node_of clusterID hostname m with
  | Some nd => nd.(nd_State)
  | None => StateRaw ""
  end.

Definition Master (clusterID : string) (m : Manager) : string :=
  match m.(m_deploys) !! clusterID with Some d => d.(d_Master) | None => "" end.

Definition OptOutRepair (clusterID : string) (m : Manager) : bool :=
  match m.(m_deploys) !! clusterID with Some d => d.(d_OptOutRepair) | None => false end.

Definition SimulateAirgap (clusterID : string) (m : Manager) : bool :=
  match m.(m_deploys) !! clusterID with Some d => d.(d_SimulateAirgap) | None => false end.

Definition HasActiveDeploy (clusterID : string) (m : Manager) : bool :=
  match m.(m_deploys) !! clusterID with
  | None => false
  | Some d => negb (map_forallb (fun _ nd => terminal nd.(nd_State)) d.(d_Nodes))
  end.

Definition ManualState (clusterID : string) (m : Manager) : bool * Z :=
  match m.(m_deploys) !! clusterID with
  | Some d => (d.(d_Manual), d.(d_ManualStep))
  | None => (false, 0)
  end.

(** ** Barriers *)

Definition skew_exceeds (limit skew : Q) : bool :=
  negb (Qle_bool skew limit) || negb (Qle_bool (- limit) skew).

Definition node_fabric_ready (cfg : Config) (nd : NodeDeploy) : bool :=
  match nd.(nd_InstallerPreflight) with
  | None => false
  | Some pf =>
      if negb pf.(pf_Passed) || negb pf.(pf_CarrierOK) then false
      else negb (skew_exceeds cfg.(cfg_SkewLimitSec) pf.(pf_ClockSkewSec))
  end.

Definition fabricReadyLocked (d : Deploy) (m : Manager) : bool :=
  map_forallb (fun _ nd => node_fabric_ready m.(m_cfg) nd) d.(d_Nodes).

Definition allReached (d : Deploy) (want : Z) : bool :=
  map_forallb (fun _ nd => negb (pipelineRank nd.(nd_State) <? want)) d.(d_Nodes).

Definition node_done (d : Deploy) (hostname : string) : bool :=
  match d.(d_Nodes) !! hostname with
  | Some nd => bool_decide (nd.(nd_State) = StateDone)
  | None => false
  end.

Definition canAdvance (d : Deploy) (m : Manager) : bool :=
  if negb d.(d_Manual) || (StepSetReady <=? d.(d_ManualStep)) then false
  else if d.(d_ManualStep) =? StepPreflight then fabricReadyLocked d m
  else if d.(d_ManualStep) =? StepRestore then allReached d 4
  else if d.(d_ManualStep) =? StepReboot then allReached d 5
  else if d.(d_ManualStep) =? StepApplyMaster then
    is_empty d.(d_Master) || node_done d d.(d_Master)
  else if d.(d_ManualStep) =? StepApplyRest then allReached d 7
  else false.

Definition all_done (d : Deploy) : bool :=
  map_forallb (fun _ nd => bool_decide (nd.(nd_State) = StateDone)) d.(d_Nodes).

Definition allNodesAppliedLocked (clusterID : string) (m : Manager) : bool :=
  match m.(m_deploys) !! clusterID with
  | None => true
  | Some d => if bool_decide (d.(d_Nodes) = ∅) then true else all_done d
  end.

Definition deployNodesBooted (clusterID : string) (m : Manager) : bool :=
  match m.(m_deploys) !! clusterID with
  | None => true
  | Some d =>
      map_forallb (fun _ nd =>
        negb ((pipelineRank nd.(nd_State) <? 1) && negb (bool_decide (nd.(nd_State) = StateError))))
        d.(d_Nodes)
  end.

(** ** Gates *)

Definition gateBytes (gates : list Z) : list Z := byte_of <$> gates.

Definition gateSetLocked (clusterID hostname : string) (m : Manager) : list Z :=
  match node_of clusterID hostname m with Some nd => gateBytes nd.(nd_Gates) | None => [] end.

(** [slices.Contains] then [append]. *)
Definition grant (stage : Z) (nd : NodeDeploy) : NodeDeploy :=
  if contains nd.(nd_Gates) stage then nd
  else set_nd_Gates (nd.(nd_Gates) ++ [stage]) nd.

Definition grant_all (targets : list Node) (stage : Z) (nodes : gmap string NodeDeploy)
    : gmap string NodeDeploy :=
  foldl (fun nds n => match nds !! n.(n_Hostname) with
                      | None => nds
                      | Some nd => <[n.(n_Hostname) := grant stage nd]> nds
                      end) nodes targets.

Definition authorizeGatesLocked (clusterID : string) (targets : list Node) (stage : Z)
    (m : Manager) : Manager :=
  match m.(m_deploys) !! clusterID with
  | None => m
  | Some d =>
      let d := set_d_Nodes (grant_all targets stage d.(d_Nodes)) d in
      persistLocked d (put_deploy clusterID d m)
  end.

Definition flush_jobs (clusterID : string) (targets : list Node) (d : Deploy) : list Job :=
  omap (fun n => match d.(d_Nodes) !! n.(n_Hostname) with
                 | None => None
                 | Some nd => if bool_decide (nd.(nd_Gates) = []) then None
                              else Some (JFlushGates clusterID n (gateBytes nd.(nd_Gates)))
                 end) targets.

Definition flushGatesAsync (clusterID : string) (targets : list Node) (m : Manager) : Manager :=
  if negb m.(m_has_gate) then m
  else match m.(m_deploys) !! clusterID with
       | None => m
       | Some d => set_m_jobs (m.(m_jobs) ++ flush_jobs clusterID targets d) m
       end.

Definition writeGosAsync (clusterID : string) (targets : list Node) (stage : Z)
    (m : Manager) : Manager :=
  flushGatesAsync clusterID targets (authorizeGatesLocked clusterID targets stage m).

Definition nodes_of (clusterID : string) (m : Manager) : gmap string Node :=
  default ∅ (m.(m_nodes) !! clusterID).

Inductive Which := WhichAll | WhichMaster | WhichPeers.

(** Go's map order is unspecified; [map_to_list] fixes one. *)
Definition gateTargetsLocked (clusterID : string) (which : Which) (m : Manager) : list Node :=
  match m.(m_nodes) !! clusterID, m.(m_deploys) !! clusterID with
  | Some byHost, Some d =>
      omap (fun hn => match which with
                      | WhichAll => Some hn.2
                      | WhichMaster => if decide (hn.1 = d.(d_Master)) then Some hn.2 else None
                      | WhichPeers => if decide (hn.1 = d.(d_Master)) then None else Some hn.2
                      end) (map_to_list byHost)
  | _, _ => []
  end.

(** [WriteGate] has already answered [err] for these stages. *)
Definition ackGates (clusterID hostname : string) (stages : list Z) (err : option string)
    : Manager → Manager :=
  set clusterID hostname (fun nd =>
    match err with
    | Some _ => nd
    | None => set_nd_GateAck stages nd
    end).

Definition gatesAtRisk (nd : NodeDeploy) (setReadyDone : bool) : bool :=
  if bool_decide (nd.(nd_Gates) = []) || bool_decide (nd.(nd_State) = StateError) then false
  else if negb (bool_decide (nd.(nd_State) = StateDone)) then true
  else if existsb (fun g => negb (contains nd.(nd_GateAck) g)) nd.(nd_Gates) then true
  else contains nd.(nd_Gates) gateStageSetReady && negb setReadyDone.

Definition reconcile_targets (clusterID : string) (m : Manager) : list (Node * list Z) :=
  if negb m.(m_has_gate) then []
  else match m.(m_deploys) !! clusterID with
       | None => []
       | Some d =>
           let setReadyDone :=
             match m.(m_setReady) !! clusterID with Some i => i.(sr_Ready) | None => false end in
           omap (fun hnd : string * NodeDeploy =>
                   match nodes_of clusterID m !! hnd.1 with
                   | Some n => if gatesAtRisk hnd.2 setReadyDone
                               then Some (n, gateBytes hnd.2.(nd_Gates)) else None
                   | None => None
                   end) (map_to_list d.(d_Nodes))
       end.

(** One tick of [runGateReconciler]; [wr] is the outcome of each write. *)
Definition reconcileGates (clusterID : string) (wr : Node → list Z → option string)
    (m : Manager) : Manager :=
  foldl (fun m nt => ackGates clusterID nt.1.(n_Hostname) nt.2 (wr nt.1 nt.2) m)
    m (reconcile_targets clusterID m).

(** [wr] is the outcome of the SEL write to the released node's BMC. *)
Definition ReleaseNode (clusterID hostname : string) (wr : Node → list Z → option string)
    (m : Manager) : Manager * result unit :=
  match nodes_of clusterID m !! hostname with
  | None => (m, Err ("node " +:+ hostname +:+ " not in deploy " +:+ clusterID))
  | Some target =>
      if negb m.(m_has_gate) then (m, Err "no gate writer configured")
      else
        let m := authorizeGatesLocked clusterID [target] gateStageApply m in
        let stages := match gateSetLocked clusterID hostname m with
                      | [] => [gateStageApply]
                      | l => l
                      end in
        match wr target stages with
        | Some e => (m, Err ("release " +:+ hostname +:+ " via SEL go: " +:+ e))
        | None => (m, Ok tt)
        end
  end.

Definition maybeAutoSetReady (clusterID : string) (m : Manager) : Manager :=
  match m.(m_deploys) !! clusterID with
  | None => m
  | Some d =>
      if d.(d_Manual) || negb (allNodesAppliedLocked clusterID m) then m
      else writeGosAsync clusterID (gateTargetsLocked clusterID WhichMaster m) gateStageSetReady m
  end.

Definition releasePeersOnMasterDone (clusterID hostname : string) (m : Manager) : Manager :=
  match m.(m_deploys) !! clusterID with
  | None => m
  | Some d =>
      if negb (bool_decide (d.(d_Master) = hostname)) then m
      else if m.(m_manualGate) || d.(d_Manual) then m
      else
        let targets :=
          omap (fun hn => if decide (hn.1 = d.(d_Master)) then None else Some hn.2)
            (map_to_list (nodes_of clusterID m)) in
        writeGosAsync clusterID targets gateStageApply m
  end.

Definition Applied (clusterID hostname : string) (m : Manager) : Manager :=
  let m := set clusterID hostname (set_nd_State StateDone) m in
  let m := releasePeersOnMasterDone clusterID hostname m in
  maybeAutoSetReady clusterID m.

(** ** Agent reports: the installer phase *)

Definition preflightCode (pf : NodePreflight) (m : Manager) : ErrCode :=
  if pf.(pf_Passed) then ""
  else if negb pf.(pf_CarrierOK) then ErrPFCarrier
  else if skew_exceeds m.(m_cfg).(cfg_SkewLimitSec) pf.(pf_ClockSkewSec) then ErrPFSkew
  else if existsb (fun r => negb r.(pr_OK)) pf.(pf_Matrix) then ErrPFPing
  else "".

Definition PreflightReport (clusterID hostname : string) (pf : NodePreflight)
    (m : Manager) : Manager :=
  let pf := set_pf_ReportedAt (nowUTC m) pf in
  let code := preflightCode pf m in
  set clusterID hostname (fun nd =>
    let nd := set_nd_InstallerPreflight (Some pf) nd in
    if pf.(pf_Passed)
    then set_nd_Message "" (set_nd_ErrCode "" (set_nd_State StatePreflightOK nd))
    else set_nd_ErrCode code (set_nd_State StatePreflighting nd)) m.

Definition set_error (code : ErrCode) (msg : string) (nd : NodeDeploy) : NodeDeploy :=
  set_nd_Message msg (set_nd_ErrCode code (set_nd_State StateError nd)).

Definition PreflightFail (clusterID hostname : string) (code : ErrCode) (msg : string)
    : Manager → Manager :=
  set clusterID hostname (set_error code msg).

Definition PreflightProgress (clusterID hostname : string) : Manager → Manager :=
  set clusterID hostname (fun nd =>
    if decide (nd.(nd_State) = StateNetbooting ∨ nd.(nd_State) = StateImaged
               ∨ nd.(nd_State) = StateRaw "")
    then set_nd_State StatePreflighting nd else nd).

Definition restore_done (nd : NodeDeploy) : NodeDeploy :=
  let r := stateRank nd.(nd_State) in
  if (stateRank StatePreflightOK <=? r) && (r <? stateRank StateRebooting)
  then set_nd_Message "" (set_nd_State StateRebooting nd) else nd.

Definition RestoreDone (clusterID hostname : string) (m : Manager) : Manager :=
  let m := set clusterID hostname restore_done m in
  match nodes_of clusterID m !! hostname with
  | Some n => spawn (JBootDisk clusterID hostname n) m
  | None => m
  end.

(** The boot-to-disk loop re-stamps the boot flag until this holds. *)
Definition bootdisk_stop (clusterID hostname : string) (past_deadline : bool) (m : Manager) : bool :=
  (stateRank StateWaiting <=? stateRank (state clusterID hostname m)) || past_deadline.

Definition RekickPreflight (clusterID hostname : string) (m : Manager) : Manager * result unit :=
  match m.(m_deploys) !! clusterID with
  | None => (m, Err ("no active deploy for cluster " +:+ clusterID))
  | Some d =>
      match d.(d_Nodes) !! hostname with
      | None => (m, Err ("node " +:+ hostname +:+ " is not part of this deploy"))
      | Some nd =>
          match nd.(nd_State) with
          | StateNetbooting | StatePreflighting | StatePreflightOK =>
              let nd := set_nd_RekickSeq (nd.(nd_RekickSeq) + 1) nd in
              let nd := set_nd_InstallerPreflight
                          (set_pf_Passed false <$> nd.(nd_InstallerPreflight)) nd in
              let nd := set_nd_UpdatedAt (nowUTC m)
                          (set_nd_Message "preflight re-run requested"
                             (set_nd_State StatePreflighting nd)) in
              let d := set_d_Nodes (<[hostname := nd]> d.(d_Nodes)) d in
              (persistLocked d (put_deploy clusterID d m), Ok tt)
          | s => (m, Err ("node " +:+ hostname +:+ " is " +:+ State_string s
                     +:+ " — past preflight, a re-run needs a re-image"))
          end
      end
  end.

Definition RekickSeq (clusterID hostname : string) (m : Manager) : Z :=
  match node_of clusterID hostname m with Some nd => nd.(nd_RekickSeq) | None => 0 end.

(** Green light 1: what clearing the barrier does to the asking node. *)
Definition greenlight_node (m : Manager) (nd : NodeDeploy) : NodeDeploy :=
  set_nd_UpdatedAt (nowUTC m)
    (if negb m.(m_has_gate) || contains nd.(nd_GateAck) gateStageRestore
     then set_nd_Message "" (set_nd_State StateRestoring nd)
     else set_nd_Message "preflight passed — waiting for the restore gate on the BMC"
            (set_nd_State StatePreflightOK nd)).

Definition GreenLight1 (clusterID hostname : string) (m : Manager) : Manager * bool :=
  match m.(m_deploys) !! clusterID with
  | None => (m, false)
  | Some d =>
      if d.(d_Manual) && (d.(d_ManualStep) <? StepRestore) then (m, false)
      else if negb (fabricReadyLocked d m) then (m, false)
      else
        match d.(d_Nodes) !! hostname with
        | Some nd =>
            if decide (nd.(nd_State) = StatePreflightOK ∨ nd.(nd_State) = StatePreflighting) then
              let d := set_d_Nodes (<[hostname := greenlight_node m nd]> d.(d_Nodes)) d in
              (persistLocked d (put_deploy clusterID d m), true)
            else (m, true)
        | None => (m, true)
        end
  end.

(** ** Agent reports: the OS phase *)

Definition RebootProceed (clusterID : string) (m : Manager) : bool :=
  match m.(m_deploys) !! clusterID with
  | None => true
  | Some d => negb d.(d_Manual) || (StepReboot <=? d.(d_ManualStep))
  end.

Definition ApplyProceed (clusterID hostname : string) (m : Manager) : bool :=
  match m.(m_deploys) !! clusterID with
  | None => true
  | Some d =>
      if negb d.(d_Manual) then true
      else if bool_decide (hostname = d.(d_Master)) then StepApplyMaster <=? d.(d_ManualStep)
      else StepApplyRest <=? d.(d_ManualStep)
  end.

Definition apply_started (proceed : bool) (nd : NodeDeploy) : NodeDeploy :=
  match nd.(nd_State) with
  | StateRebooting | StateWaiting | StateCheckedIn =>
      set_nd_State (if proceed then StateApplying else StateWaiting) nd
  | _ => nd
  end.

Definition ApplyStarted (clusterID hostname : string) (proceed : bool) : Manager → Manager :=
  set clusterID hostname (apply_started proceed).

Definition WaitForMaster (clusterID hostname : string) : Manager → Manager :=
  set clusterID hostname (fun nd =>
    if decide (nd.(nd_State) = StateRebooting ∨ nd.(nd_State) = StateCheckedIn)
    then set_nd_State StateWaiting nd else nd).

Definition ApplyFailed (clusterID hostname msg : string) : Manager → Manager :=
  set clusterID hostname (set_error ErrApplyFailed msg).

Definition checkin_state (s : State) : bool :=
  match s with
  | StateRestoring | StateRebooting | StateNetbooting | StateImaging | StateImaged
  | StateWaiting | StateCheckedIn => true
  | _ => false
  end.

Definition CheckIn (clusterID hostname : string) (m : Manager) : Manager * bool :=
  match m.(m_deploys) !! clusterID with
  | None => (m, false)
  | Some d =>
      let masterDone := is_empty d.(d_Master) || node_done d d.(d_Master) in
      let hold := negb (bool_decide (hostname = d.(d_Master))) && negb masterDone in
      match d.(d_Nodes) !! hostname with
      | None => (m, hold)
      | Some nd =>
          if checkin_state nd.(nd_State) then
            let nd := set_nd_UpdatedAt (nowUTC m)
                        (set_nd_State (if hold then StateWaiting else StateCheckedIn) nd) in
            let d := set_d_Nodes (<[hostname := nd]> d.(d_Nodes)) d in
            (persistLocked d (put_deploy clusterID d m), hold)
          else (m, hold)
      end
  end.

(** The first critical section of the Tier-2 check; the ping runs in [JVerify]. *)
Definition maybeVerifyCluster (clusterID : string) (m : Manager) : Manager :=
  match m.(m_deploys) !! clusterID with
  | None => m
  | Some d =>
      if d.(d_ClusterReady) || negb (all_done d) then m
      else spawn (JVerify clusterID d.(d_VerifyTargets)) m
  end.

(** [PingVerifier]: one row per named target; [ping] says whether it answers. *)
Definition Verify (ping : string → bool) (targets : list string) : list PreflightResult :=
  omap (fun t => if is_empty t then None else Some (mkPreflightResult ("reach " +:+ t) (ping t) "")) targets.

(** [JVerify]'s result: [results] is what the verifier answered. *)
Definition verify_done (clusterID : string) (results : list PreflightResult) (m : Manager) : Manager :=
  match m.(m_deploys) !! clusterID with
  | None => m
  | Some d =>
      let d := set_d_ClusterReady (forallb pr_OK results) (set_d_Verify results d) in
      persistLocked d (put_deploy clusterID d m)
  end.

(** [pf] is [None] for a nil slice. *)
Definition Report (clusterID hostname : string) (st : string) (message : string)
    (pf : option (list PreflightResult)) (m : Manager) : Manager :=
  let s := State_of_string st in
  let m := set clusterID hostname (fun nd =>
             let nd := set_nd_Message message (set_nd_State s nd) in
             match pf with Some l => set_nd_Preflight l nd | None => nd end) m in
  if decide (s = StateDone) then maybeVerifyCluster clusterID m else m.

(** ** set_ready *)

Definition MarkReady (clusterID : string) (ok : bool) (msg : string) (m : Manager) : Manager :=
  let i := default zero_SetReadyInput (m.(m_setReady) !! clusterID) in
  let i := set_sr_Message msg (set_sr_Ready ok i) in
  let m := set_m_setReady (<[clusterID := i]> m.(m_setReady)) m in
  let m := match m.(m_deploys) !! clusterID with
           | None => m
           | Some d => let d := set_d_SetReadyDone ok d in
                       persistLocked d (put_deploy clusterID d m)
           end in
  set_m_store (SaveSetReady clusterID i m.(m_store)) m.

Definition submitted (i : SetReadyInput) : SetReadyInput :=
  if i.(sr_CreateExternal)
  then mkSetReadyInput true true i.(sr_CIDR) i.(sr_Gateway) i.(sr_IPRange) false ""
  else mkSetReadyInput true false "" "" "" false "".

Definition SubmitSetReady (clusterID : string) (i : SetReadyInput) (m : Manager) : Manager :=
  let i := submitted i in
  let m := set_m_setReady (<[clusterID := i]> m.(m_setReady)) m in
  set_m_store (SaveSetReady clusterID i m.(m_store)) m.

Definition HasSetReady (clusterID : string) (m : Manager) : bool :=
  match m.(m_setReady) !! clusterID with
  | Some _ => true
  | None => match LoadSetReady clusterID m.(m_store) with Some _ => true | None => false end
  end.

(** The lazy load into memory, then the two holds on [Trigger]. *)
Definition GetSetReady (clusterID : string) (m : Manager) : Manager * SetReadyInput :=
  let '(m, o) :=
    match m.(m_setReady) !! clusterID with
    | Some i => (m, Some i)
    | None => match LoadSetReady clusterID m.(m_store) with
              | Some i => (set_m_setReady (<[clusterID := i]> m.(m_setReady)) m, Some i)
              | None => (m, None)
              end
    end in
  match o with
  | None => (m, zero_SetReadyInput)
  | Some i =>
      let i := if i.(sr_Trigger) && negb (allNodesAppliedLocked clusterID m)
               then set_sr_Trigger false i else i in
      let i := match m.(m_deploys) !! clusterID with
               | Some d => if d.(d_Manual) && (d.(d_ManualStep) <? StepSetReady)
                           then set_sr_Trigger false i else i
               | None => i
               end in
      (m, i)
  end.

Definition setReadyPending (clusterID : string) (m : Manager) : bool :=
  match m.(m_deploys) !! clusterID with
  | None => false
  | Some d =>
      if d.(d_SetReadyDone) || negb m.(m_has_gate) then false
      else match d.(d_Nodes) !! d.(d_Master) with
           | Some nd => contains nd.(nd_Gates) gateStageSetReady
           | None => false
           end
  end.

(** ** Out-of-band status *)

(** The closure of [MergeSEL]: the merged node, and [becameDone]. *)
Definition merge_node (target : State) (detail : string) (nd : NodeDeploy) : NodeDeploy * bool :=
  if decide (nd.(nd_State) = StateDone) then (nd, false)
  else if decide (target = StateError) then
    (if decide (nd.(nd_State) = StateError) then nd
     else set_error ErrApplyFailed ("out-of-band: " +:+ detail) nd, false)
  else if stateRank nd.(nd_State) <? stateRank target then
    (set_nd_State target nd, bool_decide (target = StateDone))
  else (nd, false).

Definition MergeSEL (clusterID hostname : string) (s : SELStatus) (m : Manager) : Manager :=
  if (s.(ss_Phase) =? "ready")%string then
    if bool_decide (hostname = Master clusterID m)
    then MarkReady clusterID (negb (s.(ss_Result) =? "error")%string) s.(ss_Detail) m
    else m
  else
    let target := selState s in
    if decide (target = StateRaw "") then m
    else
      let becameDone := match node_of clusterID hostname m with
                        | Some nd => (merge_node target s.(ss_Detail) nd).2
                        | None => false
                        end in
      let m := set clusterID hostname (fun nd => (merge_node target s.(ss_Detail) nd).1) m in
      if bool_decide (target = StateDone) && becameDone then
        let m := maybeVerifyCluster clusterID m in
        let m := maybeAutoSetReady clusterID m in
        releasePeersOnMasterDone clusterID hostname m
      else m.

(** The anchors [pollSEL] reads once, when it starts. *)
Definition poll_anchors (clusterID : string) (m : Manager) : gmap string Z :=
  match m.(m_deploys) !! clusterID with
  | Some d => nd_SELAnchor <$> d.(d_Nodes)
  | None => ∅
  end.

(** One tick of [pollSEL]; [obs] answers each [Observe] ([None]: nil or an
    error).  The flag tells whether the poll stops. *)
Definition poll_node (clusterID master : string) (waitReady : bool) (anchor : gmap string Z)
    (obs : Node → Z → option SELStatus) (acc : Manager * bool) (n : Node) : Manager * bool :=
  let '(m, allTerminal) := acc in
  let t := terminal (state clusterID n.(n_Hostname) m) in
  let allTerminal := allTerminal && t in
  if t && (negb waitReady || negb (bool_decide (n.(n_Hostname) = master)))
  then (m, allTerminal)
  else match obs n (default 0 (anchor !! n.(n_Hostname))) with
       | None => (m, allTerminal)
       | Some s => (MergeSEL clusterID n.(n_Hostname) s m, allTerminal)
       end.

Definition pollSEL_tick (clusterID : string) (nodes : list Node) (anchor : gmap string Z)
    (obs : Node → Z → option SELStatus) (m : Manager) : Manager * bool :=
  let waitReady := setReadyPending clusterID m in
  let master := Master clusterID m in
  let '(m, allTerminal) :=
    foldl (poll_node clusterID master waitReady anchor obs) (m, true) nodes in
  (m, allTerminal && negb waitReady).

(** ** Driving one node up to its agent *)

(** What the world answers to [runNode] at each of its waits. *)
Inductive RunEvent :=
| EvCall (err : option string)              (** a hardware call returned *)
| EvCancelled                               (** [ctx.Done()] *)
| EvTick (past_deadline : bool) (obs : option Stage)  (** a poll tick; [None]: Observe failed *)
.

Definition runNode_start (clusterID : string) (n : Node) (m : Manager) : Manager * RunPC :=
  (advance clusterID n.(n_Hostname) StateBMCPreflight m, RnPreflight).

(** One step of [runNode]; [None] when the goroutine returns. *)
Definition runNode_step (clusterID : string) (n : Node) (pc : RunPC) (ev : RunEvent)
    (m : Manager) : Manager * option RunPC :=
  let h := n.(n_Hostname) in
  match pc, ev with
  | RnPreflight, EvCall (Some e) => (fail clusterID h ErrBMCUnreachable e m, None)
  | RnPreflight, EvCall None => (advance clusterID h StateSetBootPXE m, Some RnSetBootPXE)
  | RnSetBootPXE, EvCall (Some e) => (fail clusterID h ErrBMCBootdev e m, None)
  | RnSetBootPXE, EvCall None => (advance clusterID h StatePowerCycle m, Some RnPowerCycle)
  | RnPowerCycle, EvCall (Some e) => (fail clusterID h ErrBMCPower e m, None)
  | RnPowerCycle, EvCall None => (advance clusterID h StateNetbooting m, Some (RnPoll false))
  | RnPoll _, EvCancelled => (m, None)
  | RnPoll saw, EvTick past obs =>
      if agentDriven (state clusterID h m) then (m, None)
      else if past : bool then
        (fail clusterID h ErrPXETimeout "timed out waiting for install" m, None)
      else match obs with
           | None => (m, Some (RnPoll saw))
           | Some stage =>
               let '(m, saw) :=
                 if decide (stage = StageImaging) then
                   (if saw : bool then (m, saw)
                    else (advance clusterID h StateImaging m, true))
                 else (m, saw) in
               if decide (stage = StageDone)
               then (advance clusterID h StateImaged m, None)
               else (m, Some (RnPoll saw))
           end
  | _, _ => (m, Some pc)
  end.

(** ** The view of a deploy *)

Definition derive_node (d : Deploy) (setReadyActive : bool) (host : string) (nd : NodeDeploy)
    : NodeDeploy :=
  let '(l1, l2) := lights nd in
  set_nd_derived l1 l2 (phase nd)
    (progress nd (bool_decide (host = d.(d_Master))) setReadyActive d.(d_SetReadyDone)) nd.

Definition deriveNodeFields (d : Deploy) : Deploy :=
  let allDone := negb (bool_decide (d.(d_Nodes) = ∅)) && all_done d in
  let setReadyActive := allDone && negb d.(d_SetReadyDone) in
  set_d_Nodes (map_imap (fun host nd => Some (derive_node d setReadyActive host nd)) d.(d_Nodes)) d.

Definition deriveDeployFields (d : Deploy) (m : Manager) : Deploy :=
  set_d_CanAdvance (canAdvance d m) d.

(** [snapshot]: a deep copy (a JSON round trip of exported fields). *)
Definition snapshot (clusterID : string) (m : Manager) : result Deploy :=
  match m.(m_deploys) !! clusterID with
  | None => Err "deploy not found"
  | Some d => Ok (deriveDeployFields (deriveNodeFields d) m)
  end.

Definition Status (clusterID : string) (m : Manager) : result Deploy :=
  match m.(m_deploys) !! clusterID with
  | Some _ => snapshot clusterID m
  | None =>
      match Store_Load clusterID m.(m_store) with
      | None => Err "deploy not found"
      | Some d =>
          let d := match LoadSetReady clusterID m.(m_store) with
                   | Some i => set_d_SetReadyDone i.(sr_Ready) d
                   | None => d
                   end in
          Ok (deriveDeployFields (deriveNodeFields d) m)
      end
  end.

(** ** Operator actions *)

Definition step_gos (clusterID : string) (step : Z) (m : Manager) : Manager :=
  if step =? StepRestore then
    writeGosAsync clusterID (gateTargetsLocked clusterID WhichAll m) gateStageRestore m
  else if step =? StepReboot then
    writeGosAsync clusterID (gateTargetsLocked clusterID WhichAll m) gateStageReboot m
  else if step =? StepApplyMaster then
    writeGosAsync clusterID (gateTargetsLocked clusterID WhichMaster m) gateStageApply m
  else if step =? StepApplyRest then
    writeGosAsync clusterID (gateTargetsLocked clusterID WhichPeers m) gateStageApply m
  else if step =? StepSetReady then
    writeGosAsync clusterID (gateTargetsLocked clusterID WhichMaster m) gateStageSetReady m
  else m.

(** The step comes back with the error, as the Go pair does. *)
Definition AdvanceStep (clusterID : string) (m : Manager) : Manager * (Z * option string) :=
  match m.(m_deploys) !! clusterID with
  | None => (m, (0, Some ("no active deploy for cluster " +:+ clusterID)))
  | Some d =>
      if negb d.(d_Manual) then
        (m, (0, Some ("deploy for cluster " +:+ clusterID +:+ " is not in manual mode")))
      else if StepSetReady <=? d.(d_ManualStep) then (m, (d.(d_ManualStep), None))
      else if negb (canAdvance d m) then
        (m, (d.(d_ManualStep), Some ("step " +:+ Itoa d.(d_ManualStep)
              +:+ " not complete yet — all nodes must reach it first")))
      else
        let d := set_d_ManualStep (d.(d_ManualStep) + 1) d in
        let m := persistLocked d (put_deploy clusterID d m) in
        (step_gos clusterID d.(d_ManualStep) m, (d.(d_ManualStep), None))
  end.

Definition cancel_ctx (ctx : nat) (m : Manager) : Manager :=
  set_m_cancelled ({[ctx]} ∪ m.(m_cancelled)) m.

Definition cancel_node (now : string) (nd : NodeDeploy) : NodeDeploy :=
  if terminal nd.(nd_State) then nd
  else set_nd_UpdatedAt now (set_error ErrCancelled "deploy cancelled by operator" nd).

Definition Cancel (clusterID : string) (m : Manager) : Manager :=
  let m := match m.(m_cancels) !! clusterID with
           | Some ctx => set_m_cancels (delete clusterID m.(m_cancels)) (cancel_ctx ctx m)
           | None => m
           end in
  match m.(m_deploys) !! clusterID with
  | None => m
  | Some d => let d := set_d_Nodes (cancel_node (nowUTC m) <$> d.(d_Nodes)) d in
              persistLocked d (put_deploy clusterID d m)
  end.

(** [StopAll] up to the bounded wait for the goroutines. *)
Definition StopAll (m : Manager) : Manager :=
  set_m_cancels ∅
    (set_m_cancelled (list_to_set (map snd (map_to_list m.(m_cancels))) ∪ m.(m_cancelled)) m).

(** ** Starting a deploy *)

Definition driverURL (m : Manager) : string :=
  if bool_decide (m.(m_advertiseIP) = [0; 0; 0; 0]) then ""
  else "http://" +:+ Join (Itoa <$> m.(m_advertiseIP)) "." +:+ ":" +:+ Itoa m.(m_advertisePort).

(** Whether [stampEndpoint] writes to the node's BMC. *)
Definition stampEndpoint (m : Manager) : bool :=
  negb (bool_decide (m.(m_advertiseIP) = [0; 0; 0; 0])) && m.(m_has_gate)
  && m.(m_has_endpoint_writer).

(** [flip] is the PXE flipper's answer: an error, or whether it returned a
    restore function (then a watcher is started). *)
Definition flipForBoot (ctx : option nat) (image armArgs : string)
    (flip : string → string → result bool) (b : Booted) (m : Manager) : Manager * result unit :=
  if negb m.(m_has_pxe) then (m, Ok tt)
  else match flip image armArgs with
       | Err e => (m, Err e)
       | Ok false => (m, Ok tt)
       | Ok true => (spawn (JPXEWatch ctx b) m, Ok tt)
       end.

Definition deployArm (m : Manager) : string :=
  let url := driverURL m in
  if is_empty url then "autoinstall" else "autoinstall" +:+ " driver_server=" +:+ url.

Definition fresh_node (now : string) (n : Node) : NodeDeploy :=
  mkNodeDeploy n.(n_Hostname) n.(n_MachineID) StatePending "" "" [] None 0 [] [] 0 now
    LightOff LightOff PhaseBoot [].

(** The two maps [Start] fills from the node list, last entry winning. *)
Definition by_hostname {A} (f : Node → A) (nodes : list Node) : gmap string A :=
  foldl (fun acc n => <[n.(n_Hostname) := f n]> acc) ∅ nodes.

Record StartArgs : Type := mkStartArgs {
  sa_nodes : list Node;
  sa_master : string;
  sa_verifyTargets : list string;
  sa_manual : bool;
  sa_image : string;
  sa_optOutRepair : bool;
  sa_simulateAirgap : bool
}.

Definition fresh_deploy (ref : nat) (clusterID now : string) (a : StartArgs) : Deploy :=
  mkDeploy ref clusterID now a.(sa_master) (by_hostname (fresh_node now) a.(sa_nodes))
    a.(sa_verifyTargets) false [] false a.(sa_manual)
    (if a.(sa_manual) then StepPreflight else 0) false
    a.(sa_optOutRepair) a.(sa_simulateAirgap).

(** The persisted set-ready result of a prior run is cleared, its parameters
    kept. *)
Definition reset_set_ready (clusterID : string) (m : Manager) : Manager :=
  match LoadSetReady clusterID m.(m_store) with
  | Some i =>
      if i.(sr_Ready) then
        let i := set_sr_Message "" (set_sr_Ready false i) in
        let m := set_m_setReady (<[clusterID := i]> m.(m_setReady)) m in
        set_m_store (SaveSetReady clusterID i m.(m_store)) m
      else m
  | None => m
  end.

(** First critical section: cancel the prior run, register the new one.
    Returns the context and the deploy pointer (one fresh number for both). *)
Definition Start_register (clusterID : string) (a : StartArgs) (m : Manager) : Manager * nat :=
  let m := match m.(m_cancels) !! clusterID with
           | Some ctx => cancel_ctx ctx m
           | None => m
           end in
  let ref := m.(m_next) in
  let m := set_m_next (S ref) m in
  let d := fresh_deploy ref clusterID (nowUTC m) a in
  let m := set_m_nodes (<[clusterID := by_hostname (fun n => n) a.(sa_nodes)]> m.(m_nodes)) m in
  let m := put_deploy clusterID d m in
  let m := reset_set_ready clusterID m in
  let m := set_m_cancels (<[clusterID := ref]> m.(m_cancels)) m in
  (persistLocked d m, ref).

(** Per node, after [ClearSEL]: record the log's last record. *)
Definition Start_anchor (clusterID : string) (n : Node) (id : Z) (m : Manager) : Manager :=
  match m.(m_deploys) !! clusterID with
  | None => m
  | Some d =>
      let d := match d.(d_Nodes) !! n.(n_Hostname) with
               | Some nd => set_d_Nodes (<[n.(n_Hostname) := set_nd_SELAnchor id nd]> d.(d_Nodes)) d
               | None => d
               end in
      persistLocked d (put_deploy clusterID d m)
  end.

Definition Start_gates (clusterID : string) (a : StartArgs) (m : Manager) : Manager :=
  if negb m.(m_has_gate) || a.(sa_manual) then m
  else
    let all := a.(sa_nodes) in
    let masterN := List.filter (fun n => bool_decide (n.(n_Hostname) = a.(sa_master))) all in
    let m := authorizeGatesLocked clusterID all gateStageRestore m in
    let m := authorizeGatesLocked clusterID all gateStageReboot m in
    let m := authorizeGatesLocked clusterID masterN gateStageApply m in
    flushGatesAsync clusterID all m.

(** Abort: undo the registration unless another [Start] has taken over. *)
Definition Start_abort (clusterID : string) (ref : nat) (m : Manager) : Manager :=
  let m := cancel_ctx ref m in
  match m.(m_deploys) !! clusterID with
  | Some d =>
      if decide (d.(d_ref) = ref) then
        set_m_store (Store_Delete clusterID m.(m_store))
          (set_m_cancels (delete clusterID m.(m_cancels))
             (set_m_deploys (delete clusterID m.(m_deploys)) m))
      else m
  | None => m
  end.

Definition Start_spawn (clusterID : string) (a : StartArgs) (ctx : nat) (m : Manager) : Manager :=
  let m := foldl (fun m n => spawn (JRunNode clusterID n ctx RnPreflight) m) m a.(sa_nodes) in
  let m := if m.(m_has_sel)
           then spawn (JPollSEL clusterID a.(sa_nodes) ctx (poll_anchors clusterID m)) m else m in
  if m.(m_has_gate) then spawn (JReconcile clusterID ctx) m else m.

(** The whole of [Start]; [anchor] answers the SEL reads, [flip] the PXE
    server. *)
Definition Start (clusterID : string) (a : StartArgs) (anchor : Node → Z)
    (flip : string → string → result bool) (m : Manager) : Manager * result Deploy :=
  match a.(sa_nodes) with
  | [] => (m, Err "no nodes to deploy")
  | _ =>
      let '(m, ref) := Start_register clusterID a m in
      let m := if m.(m_has_sel)
               then foldl (fun m n => Start_anchor clusterID n (anchor n) m) m a.(sa_nodes)
               else m in
      let m := Start_gates clusterID a m in
      match flipForBoot (Some ref) a.(sa_image) (deployArm m) flip (BootedDeploy clusterID) m with
      | (m, Err e) => (Start_abort clusterID ref m, Err e)
      | (m, Ok _) =>
          let m := Start_spawn clusterID a ref m in
          (m, snapshot clusterID m)
      end
  end.
