(* ===== verification/OrchestratorFrames.v ===== *)
(** * How handlers change a deploy: frame relations

    [evolves R m m'] says that going from [m] to [m'] every cluster keeps its
    deploy (same run, same master, same nodes) and every node record moves by
    [R].  Handlers that go through [set] are covered by one lemma; the
    invariants and safety proofs are built on these relations. *)
From S2P Require Import Prelude GoStrings DeployModel SelCodec Orchestrator.

Open Scope Z_scope.

Record deploy_evolves (R : string → NodeDeploy → NodeDeploy → Prop) (d d' : Deploy) : Prop :=
  mk_deploy_evolves {
    ev_ref : d'.(d_ref) = d.(d_ref);
    ev_cluster : d'.(d_ClusterID) = d.(d_ClusterID);
    ev_master : d'.(d_Master) = d.(d_Master);
    ev_manual : d'.(d_Manual) = d.(d_Manual);
    ev_dom : ∀ h, is_Some (d'.(d_Nodes) !! h) ↔ is_Some (d.(d_Nodes) !! h);
    ev_nodes : ∀ h nd nd', d.(d_Nodes) !! h = Some nd → d'.(d_Nodes) !! h = Some nd' → R h nd nd'
  }.

Record evolves (R : string → string → NodeDeploy → NodeDeploy → Prop) (m m' : Manager) : Prop :=
  mk_evolves {
    evm_nodes : m'.(m_nodes) = m.(m_nodes);
    evm_cfg : m'.(m_cfg) = m.(m_cfg);
    evm_gate : m'.(m_has_gate) = m.(m_has_gate);
    evm_deploys : ∀ c, option_Forall2 (deploy_evolves (R c)) (m.(m_deploys) !! c) (m'.(m_deploys) !! c)
  }.

(** [R c h]: the move of host [h] of cluster [c]. *)
Definition node_trans (R : string → string → NodeDeploy → NodeDeploy → Prop) : Prop :=
  ∀ c h x y z, R c h x y → R c h y z → R c h x z.
Definition node_refl (R : string → string → NodeDeploy → NodeDeploy → Prop) : Prop :=
  ∀ c h x, R c h x x.

Lemma deploy_evolves_refl R c d : node_refl R → deploy_evolves (R c) d d.
Proof. intros HR. split; try done. intros h nd nd' -> [= <-]. apply HR. Qed.

Lemma evolves_refl R m : node_refl R → evolves R m m.
Proof.
  intros HR. split; try done. intros c.
  destruct (m_deploys m !! c); constructor. by apply deploy_evolves_refl.
Qed.

Lemma deploy_evolves_trans R c d1 d2 d3 :
  node_trans R → deploy_evolves (R c) d1 d2 → deploy_evolves (R c) d2 d3 →
  deploy_evolves (R c) d1 d3.
Proof.
  intros HR [r1 c1 a1 b1 o1 n1] [r2 c2 a2 b2 o2 n2]. split; try congruence.
  - intros h. by rewrite o2, o1.
  - intros h nd nd' H1 H3.
    destruct (proj2 (o1 h) ltac:(by exists nd)) as [x Hx]. eauto.
Qed.

Lemma evolves_trans R m1 m2 m3 :
  node_trans R → evolves R m1 m2 → evolves R m2 m3 → evolves R m1 m3.
Proof.
  intros HR [n1 f1 g1 d1] [n2 f2 g2 d2]. split; try congruence.
  intros c. specialize (d1 c). specialize (d2 c).
  destruct d1 as [x y Hxy|]; inversion d2; subst; constructor.
  by eapply deploy_evolves_trans.
Qed.

Lemma evolves_mono R S m m' :
  (∀ c h x y, R c h x y → S c h x y) → evolves R m m' → evolves S m m'.
Proof.
  intros HRS [? ? ? Hd]. split; try done. intros c. specialize (Hd c).
  destruct Hd as [x y Hxy|]; constructor. destruct Hxy. split; eauto.
Qed.

(** Only the map of deploys, and what evolves with it, matters. *)
Lemma evolves_same R m m' :
  node_refl R →
  m'.(m_deploys) = m.(m_deploys) → m'.(m_nodes) = m.(m_nodes) →
  m'.(m_cfg) = m.(m_cfg) → m'.(m_has_gate) = m.(m_has_gate) → evolves R m m'.
Proof.
  intros HR Hd Hn Hc Hg. split; try done. intros c. rewrite Hd.
  destruct (m_deploys m !! c); constructor. by apply deploy_evolves_refl.
Qed.

Lemma Save_ok d s : (Store_Save d s).(st_ok) = s.(st_ok).
Proof. unfold Store_Save. destruct (st_ok s) eqn:E; [done|by rewrite E]. Qed.
Lemma SaveSetReady_ok c i s : (SaveSetReady c i s).(st_ok) = s.(st_ok).
Proof. unfold SaveSetReady. destruct (st_ok s) eqn:E; [done|by rewrite E]. Qed.

(** Replacing one cluster's deploy by one that evolved from it. *)
Lemma evolves_put R c d d' m :
  node_refl R →
  m.(m_deploys) !! c = Some d → deploy_evolves (R c) d d' →
  evolves R m (persistLocked d' (put_deploy c d' m)).
Proof.
  intros HR Hd Hev. split; try done.
  intros c'. cbn. destruct (decide (c = c')) as [<-|Hne].
  - rewrite Hd, lookup_insert_eq. by constructor.
  - rewrite lookup_insert_ne by done.
    destruct (m_deploys m !! c'); constructor. by apply deploy_evolves_refl.
Qed.

Lemma deploy_evolves_node R c d h nd nd' :
  node_refl R →
  d.(d_Nodes) !! h = Some nd → R c h nd nd' →
  deploy_evolves (R c) d (set_d_Nodes (<[h := nd']> d.(d_Nodes)) d).
Proof.
  intros HR Hnd HRn. split; try done; cbn.
  - intros h'. destruct (decide (h = h')) as [<-|].
    + rewrite lookup_insert_eq, Hnd. by split.
    + by rewrite lookup_insert_ne.
  - intros h' x y Hx Hy. destruct (decide (h = h')) as [<-|].
    + rewrite lookup_insert_eq in Hy. simplify_eq. done.
    + rewrite lookup_insert_ne in Hy by done. simplify_eq. apply HR.
Qed.

Lemma set_evolves R c h fn m :
  node_refl R →
  (∀ nd, node_of c h m = Some nd → R c h nd (set_nd_UpdatedAt (nowUTC m) (fn nd))) →
  evolves R m (set c h fn m).
Proof.
  intros HR Hfn. unfold set. destruct (m_deploys m !! c) as [d|] eqn:Ed;
    [|by apply evolves_refl].
  destruct (d_Nodes d !! h) as [nd|] eqn:En; [|by apply evolves_refl].
  eapply evolves_put; [done..|]. eapply deploy_evolves_node; [done..|].
  apply Hfn. unfold node_of. by rewrite Ed.
Qed.

(** ** What a [set] leaves behind *)

Lemma set_node_of c h fn m :
  node_of c h (set c h fn m)
  = (fun nd => set_nd_UpdatedAt (nowUTC m) (fn nd)) <$> node_of c h m.
Proof.
  unfold set, node_of. destruct (m_deploys m !! c) as [d|] eqn:Ed; cbn; [|by rewrite Ed].
  destruct (d_Nodes d !! h) as [nd|] eqn:En; cbn; [|by rewrite Ed; cbn; rewrite En].
  rewrite lookup_insert_eq. cbn. by rewrite lookup_insert_eq.
Qed.

Lemma set_node_of_ne c h fn m c' h' :
  (c, h) ≠ (c', h') → node_of c' h' (set c h fn m) = node_of c' h' m.
Proof.
  intros Hne. unfold set, node_of. destruct (m_deploys m !! c) as [d|] eqn:Ed; [|done].
  destruct (d_Nodes d !! h) as [nd|] eqn:En; [|done]. cbn.
  destruct (decide (c = c')) as [<-|]; [|by rewrite lookup_insert_ne].
  rewrite lookup_insert_eq, Ed. cbn. rewrite lookup_insert_ne; [done|congruence].
Qed.

Lemma set_jobs c h fn m : (set c h fn m).(m_jobs) = m.(m_jobs).
Proof. unfold set. by repeat case_match. Qed.

(** ** Looking a node up across an evolution *)

Lemma evolves_node R m m' c d' h nd' :
  evolves R m m' →
  m'.(m_deploys) !! c = Some d' → d'.(d_Nodes) !! h = Some nd' →
  ∃ d nd, m.(m_deploys) !! c = Some d ∧ d.(d_Nodes) !! h = Some nd
    ∧ deploy_evolves (R c) d d' ∧ R c h nd nd'.
Proof.
  intros [_ _ _ Hd] Hc Hn. specialize (Hd c). rewrite Hc in Hd.
  inversion Hd as [d x Hev Hd1 Hd2|]; subst; simplify_eq.
  destruct (proj1 (ev_dom _ _ _ Hev h) ltac:(by exists nd')) as [nd Hnd].
  exists d, nd. split; [done|]. split; [done|]. split; [done|]. by eapply ev_nodes.
Qed.

Lemma evolves_deploy R m m' c d' :
  evolves R m m' → m'.(m_deploys) !! c = Some d' →
  ∃ d, m.(m_deploys) !! c = Some d ∧ deploy_evolves (R c) d d'.
Proof.
  intros [_ _ _ Hd] Hc. specialize (Hd c). rewrite Hc in Hd.
  inversion Hd; subst; simplify_eq. eauto.
Qed.

Lemma evolves_deploy_fwd R m m' c d :
  evolves R m m' → m.(m_deploys) !! c = Some d →
  ∃ d', m'.(m_deploys) !! c = Some d' ∧ deploy_evolves (R c) d d'.
Proof.
  intros [_ _ _ Hd] Hc. specialize (Hd c). rewrite Hc in Hd.
  inversion Hd; subst; simplify_eq. eauto.
Qed.

(** ** Granting gates *)

(** Cluster [c] may grant [stage] to [hosts]; nothing else moves a ledger. *)
Definition granted (c : string) (stage : Z) (hosts : list string)
    (c' h : string) (nd nd' : NodeDeploy) : Prop :=
  nd'.(nd_State) = nd.(nd_State)
  ∧ (nd'.(nd_Gates) = nd.(nd_Gates)
     ∨ (c' = c ∧ h ∈ hosts ∧ stage ∉ nd.(nd_Gates)
        ∧ nd'.(nd_Gates) = nd.(nd_Gates) ++ [stage])).

Lemma grant_granted c stage nd h hosts :
  h ∈ hosts → granted c stage hosts c h nd (grant stage nd).
Proof.
  intros Hh. unfold grant. destruct (contains _ _) eqn:E.
  - split; [done|by left].
  - apply contains_false in E. split; [done|]. right. done.
Qed.

Lemma granted_refl c stage hosts : node_refl (granted c stage hosts).
Proof. intros c' h nd. split; [done|by left]. Qed.

Lemma granted_trans c stage hosts : node_trans (granted c stage hosts).
Proof.
  intros c' h x y z [Hs1 Hg1] [Hs2 Hg2]. split; [congruence|].
  destruct Hg1 as [Hg1|(Hc & Hh & Hn1 & Hg1)], Hg2 as [Hg2|(Hc2 & Hh2 & Hn2 & Hg2)].
  - left. congruence.
  - right. rewrite Hg2, Hg1. rewrite Hg1 in Hn2. eauto.
  - right. rewrite Hg2, Hg1. eauto.
  - rewrite Hg1 in Hn2. exfalso. apply Hn2. set_solver.
Qed.

Lemma grant_all_lookup targets stage nds h :
  grant_all targets stage nds !! h
  = (if decide (h ∈ n_Hostname <$> targets) then grant stage else id) <$> nds !! h.
Proof.
  unfold grant_all. revert nds. induction targets as [|n targets IH]; intros nds; cbn [foldl].
  { rewrite decide_False by set_solver. by destruct (nds !! h). }
  rewrite IH. clear IH. destruct (nds !! n_Hostname n) as [nd|] eqn:En.
  - destruct (decide (n_Hostname n = h)) as [<-|Hne].
    + rewrite lookup_insert_eq, En, (decide_True (P := _ ∈ n_Hostname <$> n :: targets))
        by set_solver. cbn. destruct (decide _); [|done]. cbn. f_equal. unfold grant at 1.
      rewrite (proj2 (contains_true _ _)); [done|]. unfold grant.
      destruct (contains (nd_Gates nd) stage) eqn:E; [by apply contains_true|].
      cbn. set_solver.
    + rewrite lookup_insert_ne by done. do 2 f_equal.
      destruct (decide (h ∈ n_Hostname <$> targets)), (decide (h ∈ n_Hostname <$> n :: targets));
        set_solver.
  - destruct (decide (n_Hostname n = h)) as [<-|Hne].
    + by rewrite En.
    + do 2 f_equal. destruct (decide (h ∈ n_Hostname <$> targets)),
        (decide (h ∈ n_Hostname <$> n :: targets)); set_solver.
Qed.

Lemma authorize_evolves c targets stage m :
  evolves (granted c stage (n_Hostname <$> targets)) m (authorizeGatesLocked c targets stage m).
Proof.
  unfold authorizeGatesLocked. destruct (m_deploys m !! c) as [d|] eqn:Ed;
    [|by apply evolves_refl, granted_refl].
  eapply evolves_put; [apply granted_refl|done|]. split; try done; cbn.
  - intros h. rewrite grant_all_lookup. by destruct (d_Nodes d !! h).
  - intros h nd nd' Hn. rewrite grant_all_lookup, Hn. intros [= <-].
    destruct (decide _); [by apply grant_granted|apply granted_refl].
Qed.

Lemma flush_evolves R c targets m : node_refl R → evolves R m (flushGatesAsync c targets m).
Proof.
  intros HR. unfold flushGatesAsync. repeat case_match; by apply evolves_same.
Qed.

Lemma writeGos_evolves c targets stage m :
  evolves (granted c stage (n_Hostname <$> targets)) m (writeGosAsync c targets stage m).
Proof.
  unfold writeGosAsync. eapply evolves_trans;
    [apply granted_trans|apply authorize_evolves|apply flush_evolves, granted_refl].
Qed.
