(* ===== verification/OrchestratorOps.v ===== *)
(** * The manager as a transition system

    [Op] lists the handlers with what the outside world answers them;
    [run_op] runs one.  A run is any sequence of them: agent reports, operator
    actions, goroutine steps, disk and clock changes, in any order.  A handler
    of several critical sections is run whole here; OrchestratorConc.v takes
    it apart. *)
From S2P Require Import Prelude GoStrings DeployModel SelCodec Orchestrator OrchestratorFrames.

Open Scope string_scope.
Open Scope list_scope.
Open Scope Z_scope.

Inductive Op :=
| OpReport (c h st msg : string) (pf : option (list PreflightResult))
| OpPreflightReport (c h : string) (pf : NodePreflight)
| OpPreflightFail (c h : string) (code : ErrCode) (msg : string)
| OpPreflightProgress (c h : string)
| OpRestoreDone (c h : string)
| OpRekick (c h : string)
| OpGreenLight1 (c h : string)
| OpCheckIn (c h : string)
| OpApplyStarted (c h : string) (proceed : bool)
| OpWaitForMaster (c h : string)
| OpApplyFailed (c h msg : string)
| OpApplied (c h : string)
| OpMergeSEL (c h : string) (s : SELStatus)
| OpMarkReady (c : string) (ok : bool) (msg : string)
| OpSubmitSetReady (c : string) (i : SetReadyInput)
| OpGetSetReady (c : string)
| OpAckGates (c h : string) (stages : list Z) (err : option string)
| OpVerifyDone (c : string) (results : list PreflightResult)
| OpRunStart (c : string) (n : Node)
| OpRunNode (c : string) (n : Node) (pc : RunPC) (ev : RunEvent)
| OpAdvanceStep (c : string)
| OpRelease (c h : string) (wr : Node → list Z → option string)
| OpCancel (c : string)
| OpStopAll
| OpStart (c : string) (a : StartArgs) (anchor : Node → Z) (flip : string → string → result bool)
| OpEnv (now : string) (disk_ok : bool).

Definition set_env (now : string) (ok : bool) (m : Manager) : Manager :=
  mkManager (mkStore m.(m_store).(st_deploys) m.(m_store).(st_setready) ok)
    m.(m_cfg) now m.(m_next) m.(m_has_gate) m.(m_has_endpoint_writer) m.(m_has_sel)
    m.(m_has_pxe) m.(m_manualGate) m.(m_advertiseIP) m.(m_advertisePort) m.(m_deploys)
    m.(m_cancels) m.(m_cancelled) m.(m_nodes) m.(m_setReady) m.(m_inspects)
    m.(m_istatus) m.(m_inspectNodes) m.(m_jobs).

Definition run_op (o : Op) (m : Manager) : Manager :=
  match o with
  | OpReport c h st msg pf => Report c h st msg pf m
  | OpPreflightReport c h pf => PreflightReport c h pf m
  | OpPreflightFail c h code msg => PreflightFail c h code msg m
  | OpPreflightProgress c h => PreflightProgress c h m
  | OpRestoreDone c h => RestoreDone c h m
  | OpRekick c h => (RekickPreflight c h m).1
  | OpGreenLight1 c h => (GreenLight1 c h m).1
  | OpCheckIn c h => (CheckIn c h m).1
  | OpApplyStarted c h proceed => ApplyStarted c h proceed m
  | OpWaitForMaster c h => WaitForMaster c h m
  | OpApplyFailed c h msg => ApplyFailed c h msg m
  | OpApplied c h => Applied c h m
  | OpMergeSEL c h s => MergeSEL c h s m
  | OpMarkReady c ok msg => MarkReady c ok msg m
  | OpSubmitSetReady c i => SubmitSetReady c i m
  | OpGetSetReady c => (GetSetReady c m).1
  | OpAckGates c h stages err => ackGates c h stages err m
  | OpVerifyDone c results => verify_done c results m
  | OpRunStart c n => (runNode_start c n m).1
  | OpRunNode c n pc ev => (runNode_step c n pc ev m).1
  | OpAdvanceStep c => (AdvanceStep c m).1
  | OpRelease c h wr => (ReleaseNode c h wr m).1
  | OpCancel c => Cancel c m
  | OpStopAll => StopAll m
  | OpStart c a anchor flip => (Start c a anchor flip m).1
  | OpEnv now ok => set_env now ok m
  end.

(** [run P m0 hist m]: [m] is reached from [m0] through the states [hist]
    (oldest first) by operations that satisfy [P]. *)
Inductive run (P : Op → Prop) (m0 : Manager) : list Manager → Manager → Prop :=
| run_nil : run P m0 [] m0
| run_step hist m o : run P m0 hist m → P o → run P m0 (hist ++ [m]) (run_op o m).

(** A manager that has started no deploy yet. *)
Definition idle (m : Manager) : Prop := m.(m_deploys) = ∅ ∧ m.(m_nodes) = ∅.

Lemma run_invariant (P : Op → Prop) (I : Manager → Prop) m0 hist m :
  (∀ o m, P o → I m → I (run_op o m)) → I m0 → run P m0 hist m → I m.
Proof. intros Hstep H0. induction 1; eauto. Qed.

(** ** The node table agrees with its keys *)

Definition nodes_ok (m : Manager) : Prop :=
  ∀ c byHost h n, m.(m_nodes) !! c = Some byHost → byHost !! h = Some n → n.(n_Hostname) = h.

Lemma by_hostname_key {A} (f : Node → A) nodes h x :
  by_hostname f nodes !! h = Some x → ∃ n, n ∈ nodes ∧ n.(n_Hostname) = h ∧ f n = x.
Proof.
  unfold by_hostname.
  assert (∀ acc : gmap string A,
    foldl (fun acc n => <[n_Hostname n := f n]> acc) acc nodes !! h = Some x →
    acc !! h = Some x ∨ ∃ n, n ∈ nodes ∧ n_Hostname n = h ∧ f n = x) as H.
  { induction nodes as [|n nodes IH]; intros acc Hl; cbn in Hl; [by left|].
    apply IH in Hl as [Hl|(n' & Hn & Hh & Hf)].
    - destruct (decide (n_Hostname n = h)) as [<-|].
      + rewrite lookup_insert_eq in Hl. simplify_eq. right. exists n. set_solver.
      + rewrite lookup_insert_ne in Hl by done. by left.
    - right. exists n'. set_solver. }
  intros Hl. apply H in Hl as [Hl|?]; [|done]. by rewrite lookup_empty in Hl.
Qed.

(** ** Most handlers never touch a gate ledger *)

Definition keeps_gates (c h : string) (nd nd' : NodeDeploy) : Prop :=
  nd'.(nd_Gates) = nd.(nd_Gates).

Lemma keeps_gates_refl : node_refl keeps_gates.
Proof. by intros c h nd. Qed.
Lemma keeps_gates_trans : node_trans keeps_gates.
Proof. intros c h x y z. unfold keeps_gates. congruence. Qed.
#[export] Hint Resolve keeps_gates_refl keeps_gates_trans : cube.

Lemma keeps_granted c stage hosts m m' :
  evolves (granted c stage hosts) m m' →
  evolves (fun c h nd nd' => nd'.(nd_State) = nd.(nd_State)) m m'.
Proof. apply evolves_mono. by intros ? ? ? ? []. Qed.

(** Handlers that are a [set] with a ledger-preserving function. *)
Ltac keeps_set :=
  apply set_evolves; [apply keeps_gates_refl|intros; unfold keeps_gates;
    repeat case_match; reflexivity].

(** Chain through an intermediate state named in the goal. *)
Ltac keeps_via m1 := apply (evolves_trans _ _ m1); [apply keeps_gates_trans| |].

Lemma put_keeps c d d' m :
  m.(m_deploys) !! c = Some d → deploy_evolves (keeps_gates c) d d' →
  evolves keeps_gates m (persistLocked d' (put_deploy c d' m)).
Proof. apply evolves_put, keeps_gates_refl. Qed.

Lemma put_node_keeps c d h nd nd' m :
  m.(m_deploys) !! c = Some d → d.(d_Nodes) !! h = Some nd → nd'.(nd_Gates) = nd.(nd_Gates) →
  evolves keeps_gates m
    (persistLocked (set_d_Nodes (<[h := nd']> d.(d_Nodes)) d)
       (put_deploy c (set_d_Nodes (<[h := nd']> d.(d_Nodes)) d) m)).
Proof.
  intros Hd Hn Hg. eapply put_keeps; [done|].
  eapply deploy_evolves_node; [apply keeps_gates_refl|done|exact Hg].
Qed.

(** Fields of the deploy other than its nodes. *)
Lemma put_field_keeps c d d' m :
  m.(m_deploys) !! c = Some d →
  d'.(d_ref) = d.(d_ref) → d'.(d_ClusterID) = d.(d_ClusterID) → d'.(d_Master) = d.(d_Master) →
  d'.(d_Manual) = d.(d_Manual) → d'.(d_Nodes) = d.(d_Nodes) →
  evolves keeps_gates m (persistLocked d' (put_deploy c d' m)).
Proof.
  intros Hd Hr Hc Hm Hman Hn. eapply put_keeps; [done|]. split; try done.
  - intros h. by rewrite Hn.
  - intros h x y Hx Hy. rewrite Hn, Hx in Hy. by simplify_eq.
Qed.

Lemma spawn_keeps j m : evolves keeps_gates m (spawn j m).
Proof. by apply evolves_same; auto with cube. Qed.

Lemma maybeVerify_keeps c m : evolves keeps_gates m (maybeVerifyCluster c m).
Proof.
  unfold maybeVerifyCluster.
  repeat case_match; (apply evolves_refl || apply spawn_keeps); apply keeps_gates_refl.
Qed.

Lemma MarkReady_keeps c ok msg m : evolves keeps_gates m (MarkReady c ok msg m).
Proof.
  unfold MarkReady. set (i := set_sr_Message _ _). set (m1 := set_m_setReady _ m).
  set (m2 := match m_deploys m1 !! c with None => m1 | Some _ => _ end).
  assert (evolves keeps_gates m m1) as H1 by (apply evolves_same; auto with cube).
  assert (evolves keeps_gates m1 m2) as H2.
  { subst m2. destruct (m_deploys m1 !! c) as [d|] eqn:Ed; [|apply evolves_refl; auto with cube].
    by eapply put_field_keeps. }
  keeps_via m1; [exact H1|]. keeps_via m2; [exact H2|].
  apply evolves_same; auto with cube.
Qed.

Lemma Report_keeps c h st msg pf m : evolves keeps_gates m (Report c h st msg pf m).
Proof.
  unfold Report. set (m1 := set c h _ m). keeps_via m1; [subst m1; keeps_set|].
  destruct (decide _); [apply maybeVerify_keeps|apply evolves_refl; auto with cube].
Qed.

Lemma RestoreDone_keeps c h m : evolves keeps_gates m (RestoreDone c h m).
Proof.
  unfold RestoreDone. set (m1 := set c h _ m). keeps_via m1.
  - apply set_evolves; [auto with cube|]. intros. unfold keeps_gates, restore_done.
    by repeat case_match.
  - case_match; [apply spawn_keeps|apply evolves_refl; auto with cube].
Qed.

Lemma Rekick_keeps c h m : evolves keeps_gates m (RekickPreflight c h m).1.
Proof.
  unfold RekickPreflight. destruct (m_deploys m !! c) as [d|] eqn:Ed;
    [|apply evolves_refl; auto with cube].
  destruct (d_Nodes d !! h) as [nd|] eqn:En; [|apply evolves_refl; auto with cube].
  destruct (nd_State nd); try (apply evolves_refl; auto with cube; fail);
    by eapply put_node_keeps.
Qed.

Lemma GreenLight1_keeps c h m : evolves keeps_gates m (GreenLight1 c h m).1.
Proof.
  unfold GreenLight1. destruct (m_deploys m !! c) as [d|] eqn:Ed;
    [|apply evolves_refl; auto with cube].
  do 2 (case_match; [apply evolves_refl; auto with cube|]).
  destruct (d_Nodes d !! h) as [nd|] eqn:En; [|apply evolves_refl; auto with cube].
  destruct (decide _); [|apply evolves_refl; auto with cube].
  eapply put_node_keeps; [done|done|]. unfold greenlight_node. by case_match.
Qed.

Lemma CheckIn_keeps c h m : evolves keeps_gates m (CheckIn c h m).1.
Proof.
  unfold CheckIn. destruct (m_deploys m !! c) as [d|] eqn:Ed;
    [|apply evolves_refl; auto with cube].
  destruct (d_Nodes d !! h) as [nd|] eqn:En; [|apply evolves_refl; auto with cube].
  case_match; [|apply evolves_refl; auto with cube]. by eapply put_node_keeps.
Qed.

Lemma GetSetReady_deploys c m :
  (GetSetReady c m).1.(m_deploys) = m.(m_deploys)
  ∧ (GetSetReady c m).1.(m_nodes) = m.(m_nodes) ∧ (GetSetReady c m).1.(m_cfg) = m.(m_cfg)
  ∧ (GetSetReady c m).1.(m_has_gate) = m.(m_has_gate)
  ∧ (GetSetReady c m).1.(m_store) = m.(m_store).
Proof. unfold GetSetReady. by repeat case_match; simplify_eq/=. Qed.

Lemma runNode_step_keeps c n pc ev m : evolves keeps_gates m (runNode_step c n pc ev m).1.
Proof.
  assert (∀ s m, evolves keeps_gates m (advance c (n_Hostname n) s m)) as Ha
    by (intros; keeps_set).
  assert (∀ code e m, evolves keeps_gates m (fail c (n_Hostname n) code e m)) as Hf
    by (intros; keeps_set).
  assert (∀ m, evolves keeps_gates m m) as Hr by (intros; apply evolves_refl; auto with cube).
  unfold runNode_step. destruct pc, ev as [[e|]| |past obs]; cbn; auto.
  destruct (agentDriven _); [apply Hr|]. destruct past; [apply Hf|].
  destruct obs as [stage|]; [|apply Hr].
  destruct sawImaging; repeat case_decide; simplify_eq; cbn; auto.
Qed.

Lemma Cancel_keeps c m : evolves keeps_gates m (Cancel c m).
Proof.
  unfold Cancel. set (m1 := match m_cancels m !! c with Some _ => _ | None => _ end).
  keeps_via m1; [apply evolves_same; auto with cube; subst m1; by case_match|].
  assert (m_deploys m1 = m_deploys m) as Heq by (subst m1; by case_match).
  destruct (m_deploys m1 !! c) as [d|] eqn:Ed; [|apply evolves_refl; auto with cube].
  eapply put_keeps; [done|]. split; try done; cbn.
  - intros h. rewrite lookup_fmap. by destruct (d_Nodes d !! h).
  - intros h nd nd' Hn. rewrite lookup_fmap, Hn. intros [= <-].
    unfold keeps_gates, cancel_node. by case_match.
Qed.
