(* ===== verification/DeployDemo.v ===== *)
(** * Concrete deploys used to exercise the theorems

    A two-node cluster with a master, managers with a gate writer and a store
    that accepts writes, in automatic and in manual mode. *)
From S2P Require Import Prelude GoStrings DeployModel SelCodec Orchestrator OrchestratorOps.
From Stdlib Require Import QArith.

Open Scope string_scope.
Open Scope list_scope.
Open Scope Z_scope.

Definition demo_node (h : string) : Node :=
  mkNode h ("id-" +:+ h) "10.0.0.1" "admin" "pw" 3 ["00:00:00:00:00:01"] "/dev/sda".

Definition demo_args (manual : bool) : StartArgs :=
  mkStartArgs [demo_node "a"; demo_node "b"] "a" ["10.0.0.1"] manual "img" false false.

Definition demo_cfg : Config := withDefaults (mkConfig 0 0 0 0 0 0).

Definition demo_manager : Manager :=
  mkManager (mkStore ∅ ∅ true) demo_cfg "t0" 0 true true true false false
    [10; 0; 0; 9] 8080 ∅ ∅ ∅ ∅ ∅ ∅ ∅ ∅ [].

Definition demo_flip (image arm : string) : result bool := Ok false.

Definition demo_start (manual : bool) : Op :=
  OpStart "c" (demo_args manual) (fun _ => 7) demo_flip.

(** Running a list of operations. *)
Definition run_ops (ops : list Op) (m : Manager) : Manager :=
  foldl (fun m o => run_op o m) m ops.

Fixpoint run_hist (ops : list Op) (m : Manager) : list Manager :=
  match ops with
  | [] => []
  | o :: ops' => m :: run_hist ops' (run_op o m)
  end.

Lemma run_of_ops P ops m0 :
  Forall P ops → run P m0 (run_hist ops m0) (run_ops ops m0).
Proof.
  cut (∀ pre m, run P m0 pre m → Forall P ops → run P m0 (pre ++ run_hist ops m) (run_ops ops m)).
  { intros H. apply (H [] m0). constructor. }
  induction ops as [|o ops IH]; intros pre m Hr HF; cbn; [by rewrite app_nil_r|].
  apply Forall_cons in HF as [Ho HF]. specialize (IH (pre ++ [m]) (run_op o m)).
  rewrite <- app_assoc in IH. cbn in IH. apply IH; [by constructor|done].
Qed.

Lemma demo_idle : idle demo_manager.
Proof. done. Qed.

Definition demo_pf : NodePreflight := mkNodePreflight true (1 # 2) [] true "".

Definition demo_ops (manual : bool) : list Op :=
  [demo_start manual;
   OpPreflightReport "c" "a" demo_pf; OpPreflightReport "c" "b" demo_pf].

(** A test on one node of one deploy, to be evaluated. *)
Definition holds_at (c h : string) (f : Deploy → NodeDeploy → bool) (m : Manager) : bool :=
  match m.(m_deploys) !! c with
  | Some d => match d.(d_Nodes) !! h with Some nd => f d nd | None => false end
  | None => false
  end.

Lemma holds_at_true c h f m :
  holds_at c h f m = true →
  ∃ d nd, m.(m_deploys) !! c = Some d ∧ d.(d_Nodes) !! h = Some nd ∧ f d nd = true.
Proof. unfold holds_at. repeat case_match; intros; eauto 6; done. Qed.
