(* ===== verification/OrchestratorSafety.v ===== *)
(** * Gate safety: every gate granted has met its barrier

    A node restores, reboots, applies and finalizes only on the gate records
    in its BMC, so the ledger of granted gates is what keeps a deploy in
    order.  [ledger C] lets a handler append to a ledger only stages that [C]
    allows; each handler is shown to stay within [justified], the barrier the
    stage stands for. *)
From S2P Require Import Prelude GoStrings DeployModel SelCodec Orchestrator OrchestratorFrames OrchestratorOps.

Open Scope string_scope.
Open Scope list_scope.
Open Scope Z_scope.

Definition ledger (C : string → string → Z → Prop) (c h : string) (nd nd' : NodeDeploy) : Prop :=
  (∃ l, nd'.(nd_Gates) = nd.(nd_Gates) ++ l ∧ Forall (C c h) l)
  ∧ (NoDup nd.(nd_Gates) → NoDup nd'.(nd_Gates)).

Lemma ledger_refl C : node_refl (ledger C).
Proof. intros c h nd. split; [exists []; by rewrite app_nil_r|done]. Qed.

Lemma ledger_trans C : node_trans (ledger C).
Proof.
  intros c h x y z [(l1 & H1 & F1) N1] [(l2 & H2 & F2) N2]. split; [|auto].
  exists (l1 ++ l2). rewrite H2, H1, app_assoc. split; [done|]. by apply Forall_app.
Qed.

Lemma keeps_ledger C m m' : evolves keeps_gates m m' → evolves (ledger C) m m'.
Proof.
  apply evolves_mono. unfold keeps_gates. intros c h x y H. split; [|by rewrite H].
  exists []. by rewrite app_nil_r.
Qed.

Lemma granted_ledger (C : string → string → Z → Prop) c stage hosts m m' :
  (∀ h, h ∈ hosts → C c h stage) →
  evolves (granted c stage hosts) m m' → evolves (ledger C) m m'.
Proof.
  intros HC. apply evolves_mono. intros c' h x y [_ [Hg|(-> & Hh & Hn & Hg)]].
  - split; [exists []; by rewrite app_nil_r|by rewrite Hg].
  - split; [exists [stage]; split; [done|constructor; [auto|constructor]]|].
    rewrite Hg. intros Hnd. apply NoDup_app. split; [done|]. split; [set_solver|].
    apply NoDup_singleton.
Qed.

Lemma ledger_chain C m1 m2 m3 :
  evolves (ledger C) m1 m2 → evolves (ledger C) m2 m3 → evolves (ledger C) m1 m3.
Proof. apply evolves_trans, ledger_trans. Qed.

(** ** The barriers *)

Definition same_state (c h : string) (nd nd' : NodeDeploy) : Prop :=
  nd'.(nd_State) = nd.(nd_State).

Definition master_done (d : Deploy) : bool :=
  match d.(d_Nodes) !! d.(d_Master) with
  | Some nd => bool_decide (nd.(nd_State) = StateDone)
  | None => true
  end.

(** What must hold of the deploy when [stage] is granted to host [h]. *)
Definition barrier (cfg_ok : Deploy → bool) (d : Deploy) (h : string) (stage : Z) : Prop :=
  if stage =? gateStageRestore then d.(d_Manual) = true ∧ cfg_ok d = true
  else if stage =? gateStageReboot then d.(d_Manual) = true ∧ allReached d 4 = true
  else if stage =? gateStageApply then
    if decide (h = d.(d_Master)) then d.(d_Manual) = true ∧ allReached d 5 = true
    else d.(d_Master) = "" ∨ master_done d = true
  else if stage =? gateStageSetReady then h = d.(d_Master) ∧ all_done d = true
  else False.

Definition justified (m : Manager) (c h : string) (stage : Z) : Prop :=
  ∃ d, m.(m_deploys) !! c = Some d
    ∧ barrier (fun d => fabricReadyLocked d m) d h stage.

Definition allowed (m m' : Manager) (c h : string) (stage : Z) : Prop :=
  justified m c h stage ∨ justified m' c h stage.

Lemma all_done_true d :
  all_done d = true ↔ ∀ h nd, d.(d_Nodes) !! h = Some nd → nd.(nd_State) = StateDone.
Proof.
  unfold all_done. rewrite map_forallb_true. by setoid_rewrite bool_decide_eq_true.
Qed.

Lemma same_state_done c d d' :
  deploy_evolves (same_state c) d d' →
  (all_done d = true → all_done d' = true) ∧ (master_done d = true → master_done d' = true).
Proof.
  intros Hev. split.
  - rewrite !all_done_true. intros H h nd' Hn'.
    destruct (proj1 (ev_dom _ _ _ Hev h) ltac:(by exists nd')) as [nd Hn].
    rewrite (ev_nodes _ _ _ Hev _ _ _ Hn Hn'). eauto.
  - unfold master_done. rewrite (ev_master _ _ _ Hev).
    destruct (d_Nodes d' !! d_Master d) as [nd'|] eqn:Hn'; [|done].
    destruct (proj1 (ev_dom _ _ _ Hev _) ltac:(by exists nd')) as [nd Hn].
    rewrite Hn, !bool_decide_eq_true, (ev_nodes _ _ _ Hev _ _ _ Hn Hn'). done.
Qed.

(** The barriers on finished nodes survive steps that keep node states. *)
Lemma justified_same m m' c h stage :
  evolves same_state m m' →
  stage = gateStageSetReady ∨ (stage = gateStageApply ∧ h ≠ Master c m) →
  justified m c h stage → justified m' c h stage.
Proof.
  intros Hev Hs (d & Hd & Hb).
  destruct (evolves_deploy_fwd _ _ _ _ _ Hev Hd) as (d' & Hd' & Hev').
  destruct (same_state_done _ _ _ Hev') as [Ha Hm]. exists d'. split; [done|].
  destruct Hs as [->|[-> Hne]]; cbn in Hb |- *.
  - rewrite (ev_master _ _ _ Hev'). naive_solver.
  - unfold Master in Hne. rewrite Hd in Hne.
    unfold barrier in *. cbn in Hb |- *. rewrite decide_False in Hb by done.
    rewrite (ev_master _ _ _ Hev'), decide_False by done. naive_solver.
Qed.

(** ** Who a gate write targets *)

Lemma omap_hosts {A} (f : string * A → option Node) (byHost : gmap string A) h :
  h ∈ n_Hostname <$> omap f (map_to_list byHost) →
  ∃ k x n, byHost !! k = Some x ∧ f (k, x) = Some n ∧ n.(n_Hostname) = h.
Proof.
  intros (n & -> & Hn)%list_elem_of_fmap. apply list_elem_of_omap in Hn as ([k x] & Hk & Hf).
  apply elem_of_map_to_list in Hk. eauto 8.
Qed.

Lemma gateTargets_host c which m d h :
  nodes_ok m → m.(m_deploys) !! c = Some d →
  h ∈ n_Hostname <$> gateTargetsLocked c which m →
  match which with
  | WhichAll => True
  | WhichMaster => h = d.(d_Master)
  | WhichPeers => h ≠ d.(d_Master)
  end.
Proof.
  intros Hok Hd. unfold gateTargetsLocked. rewrite Hd.
  destruct (m_nodes m !! c) as [byHost|] eqn:Eb; [|set_solver].
  intros (k & x & n & Hk & Hf & Hh)%omap_hosts. pose proof (Hok _ _ _ _ Eb Hk) as Hkey.
  destruct which; cbn in Hf; try done; destruct (decide _); simplify_eq; congruence.
Qed.

Lemma writeGos_allowed C c which stage m d :
  nodes_ok m → m.(m_deploys) !! c = Some d →
  (∀ h, match which with WhichAll => True | WhichMaster => h = d.(d_Master)
                       | WhichPeers => h ≠ d.(d_Master) end → C c h stage) →
  evolves (ledger C) m (writeGosAsync c (gateTargetsLocked c which m) stage m).
Proof.
  intros Hok Hd HC. eapply granted_ledger; [|apply writeGos_evolves].
  intros h Hh. apply HC. by eapply gateTargets_host.
Qed.

Lemma writeGos_same c targets stage m :
  evolves same_state m (writeGosAsync c targets stage m).
Proof. eapply keeps_granted, writeGos_evolves. Qed.

Lemma same_state_refl : node_refl same_state.
Proof. by intros c h nd. Qed.
Lemma same_state_trans : node_trans same_state.
Proof. intros c h x y z. unfold same_state. congruence. Qed.

Lemma auto_same c m : evolves same_state m (maybeAutoSetReady c m).
Proof.
  unfold maybeAutoSetReady. repeat case_match;
    (apply writeGos_same || apply evolves_refl, same_state_refl).
Qed.

Lemma release_same c h m : evolves same_state m (releasePeersOnMasterDone c h m).
Proof.
  unfold releasePeersOnMasterDone. repeat case_match;
    (apply writeGos_same || apply evolves_refl, same_state_refl).
Qed.

Lemma nodes_ok_evolves R m m' : evolves R m m' → nodes_ok m → nodes_ok m'.
Proof. intros [Hn _ _ _] Hok c byHost h n. rewrite Hn. apply Hok. Qed.

(** ** The two handoffs *)

Lemma auto_ledger (C : string → string → Z → Prop) c m :
  nodes_ok m →
  (∀ h, justified m c h gateStageSetReady → C c h gateStageSetReady) →
  evolves (ledger C) m (maybeAutoSetReady c m).
Proof.
  intros Hok HC. unfold maybeAutoSetReady.
  destruct (m_deploys m !! c) as [d|] eqn:Ed; [|apply evolves_refl, ledger_refl].
  destruct (d_Manual d || negb (allNodesAppliedLocked c m)) eqn:E;
    [apply evolves_refl, ledger_refl|].
  eapply writeGos_allowed; [done|done|]. intros h ->. apply HC. exists d. split; [done|].
  to_prop. destruct E as [_ E]. cbn. split; [done|].
  unfold allNodesAppliedLocked in E. rewrite Ed in E.
  case_bool_decide as Hem; [|done]. apply all_done_true. intros h nd Hn.
  by rewrite Hem, lookup_empty in Hn.
Qed.

Lemma release_ledger (C : string → string → Z → Prop) c h m :
  nodes_ok m →
  (∀ d p, m.(m_deploys) !! c = Some d → h = d.(d_Master) → p ≠ h → C c p gateStageApply) →
  evolves (ledger C) m (releasePeersOnMasterDone c h m).
Proof.
  intros Hok HC. unfold releasePeersOnMasterDone.
  destruct (m_deploys m !! c) as [d|] eqn:Ed; [|apply evolves_refl, ledger_refl].
  destruct (negb (bool_decide (d_Master d = h))) eqn:Eh; [apply evolves_refl, ledger_refl|].
  case_match; [apply evolves_refl, ledger_refl|]. to_prop.
  eapply granted_ledger; [|apply writeGos_evolves].
  intros p (k & x & n & Hk & Hf & Hp)%omap_hosts. unfold nodes_of in Hk.
  destruct (m_nodes m !! c) as [byHost|] eqn:Eb; cbn in Hk; [|by rewrite lookup_empty in Hk].
  pose proof (Hok _ _ _ _ Eb Hk) as Hkey. cbn in Hf. destruct (decide _); simplify_eq.
  eapply HC; [done|done|congruence].
Qed.

Lemma node_of_master_done c h m d :
  m.(m_deploys) !! c = Some d → d.(d_Master) = h →
  (∀ nd, node_of c h m = Some nd → nd.(nd_State) = StateDone) → master_done d = true.
Proof.
  intros Hd <- H. unfold master_done, node_of in *. rewrite Hd in H. cbn in H.
  destruct (d_Nodes d !! d_Master d); [|done]. apply bool_decide_eq_true. eauto.
Qed.

Lemma release_justified c h m d p :
  m.(m_deploys) !! c = Some d → h = d.(d_Master) → p ≠ h →
  (∀ nd, node_of c h m = Some nd → nd.(nd_State) = StateDone) →
  justified m c p gateStageApply.
Proof.
  intros Hd -> Hp Hdone. exists d. split; [done|]. unfold barrier. cbn.
  rewrite decide_False by done. right. by eapply node_of_master_done.
Qed.

Lemma node_done_same c h m m' :
  evolves same_state m m' →
  (∀ nd, node_of c h m = Some nd → nd.(nd_State) = StateDone) →
  (∀ nd, node_of c h m' = Some nd → nd.(nd_State) = StateDone).
Proof.
  intros Hev H nd. unfold node_of. destruct (m_deploys m' !! c) as [d'|] eqn:Ed; [|done].
  cbn. intros Hn. destruct (evolves_node _ _ _ _ _ _ _ Hev Ed Hn) as (d & nd0 & Hd & Hn0 & _ & Hs).
  rewrite Hs. apply H. unfold node_of. by rewrite Hd.
Qed.

Lemma peer_not_master c p m d : m.(m_deploys) !! c = Some d → p ≠ d.(d_Master) → p ≠ Master c m.
Proof. intros Hd. unfold Master. by rewrite Hd. Qed.

(** After a node is done, the handoffs in either order stay justified. *)
Lemma handoff_ledger c h m m1 (rel_first : bool) :
  nodes_ok m1 →
  (∀ nd, node_of c h m1 = Some nd → nd.(nd_State) = StateDone) →
  let m' := if rel_first then maybeAutoSetReady c (releasePeersOnMasterDone c h m1)
            else releasePeersOnMasterDone c h (maybeAutoSetReady c m1) in
  evolves (ledger (allowed m m')) m1 m'.
Proof.
  intros Hok Hdone m'.
  set (m2 := if rel_first then releasePeersOnMasterDone c h m1 else maybeAutoSetReady c m1).
  assert (evolves same_state m1 m2) as H12
    by (subst m2; destruct rel_first; [apply release_same|apply auto_same]).
  assert (evolves same_state m2 m') as H23
    by (subst m2 m'; destruct rel_first; [apply auto_same|apply release_same]).
  assert (evolves same_state m1 m') as H13 by (eapply evolves_trans; eauto using same_state_trans).
  pose proof (nodes_ok_evolves _ _ _ H12 Hok) as Hok2.
  pose proof (node_done_same _ _ _ _ H12 Hdone) as Hdone2.
  assert (∀ mx, evolves same_state mx m' → ∀ p,
    justified mx c p gateStageSetReady → allowed m m' c p gateStageSetReady) as Hauto.
  { intros mx Hx p Hj. right. eapply justified_same; [exact Hx|by left|done]. }
  assert (∀ mx, evolves same_state mx m' →
    (∀ nd, node_of c h mx = Some nd → nd_State nd = StateDone) → ∀ d p,
    m_deploys mx !! c = Some d → h = d_Master d → p ≠ h → allowed m m' c p gateStageApply) as Hrel.
  { intros mx Hx Hdx d p Hd Hh Hp. right. eapply justified_same; [exact Hx| |].
    - right. split; [done|]. eapply peer_not_master; [done|congruence].
    - by eapply release_justified. }
  subst m' m2. destruct rel_first; eapply ledger_chain.
  - apply release_ledger; [done|]. eauto.
  - apply auto_ledger; [done|]. eauto using evolves_refl, same_state_refl.
  - apply auto_ledger; [done|]. eauto.
  - apply release_ledger; [done|]. eauto using evolves_refl, same_state_refl.
Qed.

Lemma Applied_ledger c h m :
  nodes_ok m → evolves (ledger (allowed m (Applied c h m))) m (Applied c h m).
Proof.
  intros Hok. set (m1 := set c h (set_nd_State StateDone) m).
  assert (evolves keeps_gates m m1) as H1 by (subst m1; keeps_set).
  eapply ledger_chain; [apply keeps_ledger, H1|].
  apply (handoff_ledger c h m m1 true); [by eapply nodes_ok_evolves|].
  intros nd. subst m1. rewrite set_node_of. by intros (x & _ & ->)%fmap_Some.
Qed.

Lemma merge_node_keeps target detail nd :
  nd_Gates (merge_node target detail nd).1 = nd_Gates nd.
Proof. unfold merge_node. by repeat case_match. Qed.

Lemma merge_became_done target detail nd :
  (merge_node target detail nd).2 = true →
  nd_State (merge_node target detail nd).1 = StateDone.
Proof. unfold merge_node. repeat case_match; cbn; intros Hb; try done. by to_prop. Qed.

Lemma MergeSEL_ledger c h s m :
  nodes_ok m → evolves (ledger (allowed m (MergeSEL c h s m))) m (MergeSEL c h s m).
Proof.
  intros Hok. unfold MergeSEL. destruct (ss_Phase s =? "ready")%string.
  { case_match; [apply keeps_ledger, MarkReady_keeps|apply evolves_refl, ledger_refl]. }
  destruct (decide _); [apply evolves_refl, ledger_refl|].
  set (m1 := set c h _ m).
  assert (evolves keeps_gates m m1) as H1.
  { apply set_evolves; [apply keeps_gates_refl|]. intros nd _. apply merge_node_keeps. }
  destruct (_ && _) eqn:E; [|apply keeps_ledger, H1].
  eapply ledger_chain; [apply keeps_ledger, H1|].
  eapply ledger_chain; [apply keeps_ledger, maybeVerify_keeps|].
  apply (handoff_ledger c h m (maybeVerifyCluster c m1) false).
  - eapply nodes_ok_evolves; [apply maybeVerify_keeps|]. by eapply nodes_ok_evolves.
  - to_prop. destruct E as [_ E]. intros nd Hnd.
    assert (node_of c h (maybeVerifyCluster c m1) = node_of c h m1) as Heq
      by (clear; unfold maybeVerifyCluster; destruct (m_deploys m1 !! c) as [d|];
          [destruct (d_ClusterReady d || negb (all_done d))|]; reflexivity).
    rewrite Heq in Hnd. subst m1. rewrite set_node_of in Hnd.
    apply fmap_Some in Hnd as (x & Hx & ->). rewrite Hx in E.
    cbn. by apply merge_became_done.
Qed.

Lemma canAdvance_barrier d m h stage :
  canAdvance d m = true →
  (d.(d_ManualStep) = StepPreflight ∧ stage = gateStageRestore)
  ∨ (d.(d_ManualStep) = StepRestore ∧ stage = gateStageReboot)
  ∨ (d.(d_ManualStep) = StepReboot ∧ stage = gateStageApply ∧ h = d.(d_Master))
  ∨ (d.(d_ManualStep) = StepApplyMaster ∧ stage = gateStageApply ∧ h ≠ d.(d_Master))
  ∨ (d.(d_ManualStep) = StepApplyRest ∧ stage = gateStageSetReady ∧ h = d.(d_Master)) →
  barrier (fun d => fabricReadyLocked d m) d h stage.
Proof.
  unfold canAdvance. destruct (negb (d_Manual d) || _) eqn:E; [done|]. to_prop.
  destruct E as [Eman _]. intros Hc.
  intros [[Hs ->]|[[Hs ->]|[(Hs & -> & Hh)|[(Hs & -> & Hh)|(Hs & -> & Hh)]]]];
    rewrite Hs in Hc; cbn in Hc |- *; unfold barrier; cbn.
  - done.
  - done.
  - by rewrite decide_True.
  - rewrite decide_False by done. apply orb_true_iff in Hc as [Hc|Hc].
    + left. by to_prop.
    + right. unfold node_done in Hc. unfold master_done. by case_match.
  - split; [done|]. apply all_done_true. intros h' nd Hn.
    unfold allReached in Hc. rewrite map_forallb_true in Hc. specialize (Hc _ _ Hn).
    to_prop. by destruct (nd_State nd).
Qed.

Lemma AdvanceStep_ledger c m :
  nodes_ok m → evolves (ledger (allowed m (AdvanceStep c m).1)) m (AdvanceStep c m).1.
Proof.
  intros Hok. generalize (AdvanceStep c m).1 at 1. intros mx. unfold AdvanceStep.
  destruct (m_deploys m !! c) as [d|] eqn:Ed; [|apply evolves_refl, ledger_refl].
  repeat (case_match; [apply evolves_refl, ledger_refl|]). to_prop. cbn [fst].
  set (d1 := set_d_ManualStep _ d). set (m1 := persistLocked _ _).
  assert (evolves keeps_gates m m1) as Hk by (by eapply put_field_keeps).
  eapply ledger_chain; [apply keeps_ledger, Hk|].
  assert (nodes_ok m1) as Hok1 by (by eapply nodes_ok_evolves).
  assert (m_deploys m1 !! c = Some d1) as Hd1 by (cbn; apply lookup_insert_eq).
  assert (∀ h stage, barrier (fun d => fabricReadyLocked d m) d h stage → allowed m mx c h stage)
    as HA by (intros h stage Hb; left; exists d; done).
  unfold step_gos. change (d_ManualStep d1) with (d_ManualStep d + 1).
  repeat (case_match; [|]);
    try (apply evolves_refl, ledger_refl);
    (eapply writeGos_allowed; [done|done|]; intros h Hh; apply HA;
     eapply canAdvance_barrier; [done|]; to_prop; cbn in Hh;
     unfold StepPreflight, StepRestore, StepReboot, StepApplyMaster, StepApplyRest, StepSetReady in *;
     naive_solver lia).
Qed.
