(* ===== verification/OrchestratorStart.v ===== *)
(** * Starting a deploy

    What [Start] registers, and the end of the gate-safety argument: over any
    run, a peer's apply gate means the master had finished. *)
From S2P Require Import Prelude GoStrings DeployModel SelCodec Orchestrator OrchestratorFrames OrchestratorOps OrchestratorSafety DeployDemo.

Open Scope string_scope.
Open Scope list_scope.
Open Scope Z_scope.

(** ** The map filled from the node list *)

Lemma foldl_insert_dom {A} (f : Node → A) nodes (acc : gmap string A) h :
  is_Some (foldl (fun acc n => <[n.(n_Hostname) := f n]> acc) acc nodes !! h)
  ↔ is_Some (acc !! h) ∨ h ∈ n_Hostname <$> nodes.
Proof.
  revert acc. induction nodes as [|n nodes IH]; intros acc; cbn [foldl]; [set_solver|].
  rewrite IH, fmap_cons, elem_of_cons. destruct (decide (n_Hostname n = h)) as [<-|Hne].
  - rewrite lookup_insert_eq. naive_solver.
  - rewrite lookup_insert_ne by done. naive_solver.
Qed.

Lemma by_hostname_dom {A} (f : Node → A) nodes h :
  is_Some (by_hostname f nodes !! h) ↔ h ∈ n_Hostname <$> nodes.
Proof.
  unfold by_hostname. rewrite foldl_insert_dom, lookup_empty.
  split; [intros [[? [=]]|?]; done|by right].
Qed.

(** ** One cluster's deploy through the phases of [Start] *)

(** [Start] leaves every other cluster alone. *)
Definition only_cluster (c : string) (m m' : Manager) : Prop :=
  (∀ c', c' ≠ c → m'.(m_deploys) !! c' = m.(m_deploys) !! c')
  ∧ (∀ c', c' ≠ c → m'.(m_nodes) !! c' = m.(m_nodes) !! c').

Lemma only_cluster_trans c m1 m2 m3 :
  only_cluster c m1 m2 → only_cluster c m2 m3 → only_cluster c m1 m3.
Proof. intros [Hd1 Hn1] [Hd2 Hn2]. split; intros c' Hc; [rewrite Hd2, Hd1|rewrite Hn2, Hn1]; done. Qed.

Lemma authorize_lookup c targets stage m :
  (authorizeGatesLocked c targets stage m).(m_deploys) !! c
  = (fun d => set_d_Nodes (grant_all targets stage d.(d_Nodes)) d) <$> m.(m_deploys) !! c.
Proof.
  unfold authorizeGatesLocked. destruct (m_deploys m !! c) as [d|] eqn:Ed; cbn; [|done].
  by rewrite lookup_insert_eq.
Qed.

Lemma authorize_only c targets stage m : only_cluster c m (authorizeGatesLocked c targets stage m).
Proof.
  unfold authorizeGatesLocked. destruct (m_deploys m !! c); split; intros c' Hc; cbn;
    rewrite ?lookup_insert_ne; done.
Qed.

Lemma flush_deploys c targets m :
  (flushGatesAsync c targets m).(m_deploys) = m.(m_deploys)
  ∧ (flushGatesAsync c targets m).(m_nodes) = m.(m_nodes).
Proof. unfold flushGatesAsync. by repeat case_match. Qed.

Lemma Start_anchor_only c n id m : only_cluster c m (Start_anchor c n id m).
Proof.
  unfold Start_anchor. destruct (m_deploys m !! c) as [d|]; split; intros c' Hc; cbn;
    rewrite ?lookup_insert_ne; done.
Qed.

Lemma Start_spawn_deploys c a ctx m :
  (Start_spawn c a ctx m).(m_deploys) = m.(m_deploys)
  ∧ (Start_spawn c a ctx m).(m_nodes) = m.(m_nodes).
Proof.
  unfold Start_spawn.
  assert (∀ l m, (foldl (fun m n => spawn (JRunNode c n ctx RnPreflight) m) m l).(m_deploys)
      = m.(m_deploys)
    ∧ (foldl (fun m n => spawn (JRunNode c n ctx RnPreflight) m) m l).(m_nodes) = m.(m_nodes)) as H.
  { induction l as [|n l IH]; intros m0; [done|]. cbn [foldl].
    destruct (IH (spawn (JRunNode c n ctx RnPreflight) m0)) as [-> ->]. done. }
  destruct (H (sa_nodes a) m) as [Hd Hn].
  split; repeat case_match; cbn; done.
Qed.

Lemma flip_deploys ctx image arm flip b m :
  (flipForBoot ctx image arm flip b m).1.(m_deploys) = m.(m_deploys)
  ∧ (flipForBoot ctx image arm flip b m).1.(m_nodes) = m.(m_nodes).
Proof. unfold flipForBoot. by repeat case_match. Qed.

Lemma reset_deploys c m :
  (reset_set_ready c m).(m_deploys) = m.(m_deploys)
  ∧ (reset_set_ready c m).(m_nodes) = m.(m_nodes)
  ∧ (reset_set_ready c m).(m_has_gate) = m.(m_has_gate)
  ∧ (reset_set_ready c m).(m_has_sel) = m.(m_has_sel).
Proof. unfold reset_set_ready. by repeat case_match. Qed.

Lemma register_deploys c a m :
  let m' := (Start_register c a m).1 in
  m'.(m_deploys) = <[c := fresh_deploy m.(m_next) c (nowUTC m) a]> m.(m_deploys)
  ∧ m'.(m_nodes) = <[c := by_hostname (fun n => n) a.(sa_nodes)]> m.(m_nodes)
  ∧ m'.(m_has_gate) = m.(m_has_gate) ∧ m'.(m_has_sel) = m.(m_has_sel).
Proof.
  unfold Start_register. cbn.
  set (m0 := match m_cancels m !! c with Some _ => _ | None => _ end).
  assert (m_deploys m0 = m_deploys m ∧ m_nodes m0 = m_nodes m ∧ m_next m0 = m_next m
    ∧ m_clock m0 = m_clock m ∧ m_has_gate m0 = m_has_gate m ∧ m_has_sel m0 = m_has_sel m)
    as (Hd & Hn & Hx & Hc & Hg & Hs) by (subst m0; by case_match).
  match goal with |- context [reset_set_ready c ?mm] =>
    destruct (reset_deploys c mm) as (-> & -> & -> & ->) end.
  cbn. unfold nowUTC. cbn. rewrite Hd, Hn, Hx, Hc, Hg, Hs. done.
Qed.

(** Fields a fresh record keeps until the first agent report or SEL merge. *)
Definition quiet (c h : string) (nd nd' : NodeDeploy) : Prop :=
  nd'.(nd_State) = nd.(nd_State) ∧ nd'.(nd_GateAck) = nd.(nd_GateAck)
  ∧ nd'.(nd_InstallerPreflight) = nd.(nd_InstallerPreflight)
  ∧ nd'.(nd_RekickSeq) = nd.(nd_RekickSeq).

Lemma quiet_refl : node_refl quiet.
Proof. done. Qed.
Lemma quiet_trans : node_trans quiet.
Proof. intros c h x y z (?&?&?&?) (?&?&?&?). unfold quiet. intuition congruence. Qed.

Definition anchors_phase (c : string) (a : StartArgs) (anchor : Node → Z) (m : Manager) : Manager :=
  if m.(m_has_sel)
  then foldl (fun m n => Start_anchor c n (anchor n) m) m a.(sa_nodes) else m.

Definition quiet_gates (c h : string) (nd nd' : NodeDeploy) : Prop :=
  quiet c h nd nd' ∧ nd'.(nd_Gates) = nd.(nd_Gates).
Lemma quiet_gates_refl : node_refl quiet_gates.
Proof. done. Qed.
Lemma quiet_gates_trans : node_trans quiet_gates.
Proof.
  intros c h x y z [? ?] [? ?]. split; [by eapply quiet_trans|congruence].
Qed.

Lemma Start_anchor_evolves c n id m : evolves quiet_gates m (Start_anchor c n id m).
Proof.
  unfold Start_anchor. destruct (m_deploys m !! c) as [d|] eqn:Ed;
    [|apply evolves_refl, quiet_gates_refl].
  destruct (d_Nodes d !! n_Hostname n) as [nd|] eqn:En.
  - eapply evolves_put; [apply quiet_gates_refl|done|].
    by eapply deploy_evolves_node; [apply quiet_gates_refl|done|].
  - eapply evolves_put; [apply quiet_gates_refl|done|]. apply deploy_evolves_refl, quiet_gates_refl.
Qed.

Lemma anchors_evolves c a anchor m :
  evolves quiet_gates m (anchors_phase c a anchor m)
  ∧ only_cluster c m (anchors_phase c a anchor m).
Proof.
  unfold anchors_phase. destruct (m_has_sel m);
    [|by split; [apply evolves_refl, quiet_gates_refl|]].
  generalize (sa_nodes a). intros l. revert m.
  induction l as [|n l IH]; intros m; cbn [foldl];
    [by split; [apply evolves_refl, quiet_gates_refl|]|].
  destruct (IH (Start_anchor c n (anchor n) m)) as [He Ho]. split.
  - eapply evolves_trans; [apply quiet_gates_trans|apply Start_anchor_evolves|done].
  - eapply only_cluster_trans; [apply Start_anchor_only|done].
Qed.

(** The gates [Start] grants up front. *)
Definition initial_gates (has_gate : bool) (a : StartArgs) (h : string) : list Z :=
  if has_gate && negb a.(sa_manual)
  then [gateStageRestore; gateStageReboot] ++
       (if decide (h = a.(sa_master)) then [gateStageApply] else [])
  else [].

Lemma Start_gates_nodes c a m d :
  m.(m_deploys) !! c = Some d →
  (∀ h nd, d.(d_Nodes) !! h = Some nd → h ∈ n_Hostname <$> a.(sa_nodes) ∧ nd.(nd_Gates) = []) →
  ∃ d', (Start_gates c a m).(m_deploys) !! c = Some d'
    ∧ d'.(d_ref) = d.(d_ref) ∧ d'.(d_Master) = d.(d_Master) ∧ d'.(d_Manual) = d.(d_Manual)
    ∧ (∀ h, d'.(d_Nodes) !! h
         = (fun nd => set_nd_Gates (initial_gates m.(m_has_gate) a h) nd) <$> d.(d_Nodes) !! h).
Proof.
  intros Hd Hempty. unfold Start_gates, initial_gates.
  destruct (negb (m_has_gate m) || sa_manual a) eqn:E.
  - exists d. repeat split; try done. intros h.
    destruct (d_Nodes d !! h) as [nd|] eqn:En; [|done]. cbn. f_equal.
    destruct (Hempty _ _ En) as [_ Hg].
    rewrite (proj2 (andb_false_iff _ _)) by (to_prop; tauto). destruct nd; cbn in *. by subst.
  - apply orb_false_iff in E as [->%negb_false_iff ->]. cbn [andb negb].
    rewrite (proj1 (flush_deploys _ _ _)), !authorize_lookup, Hd. cbn [fmap option_fmap option_map].
    eexists. split; [done|]. cbn. repeat split. intros h.
    rewrite !grant_all_lookup. destruct (d_Nodes d !! h) as [nd|] eqn:En; [|done].
    destruct (Hempty _ _ En) as [Hin Hg]. cbn.
    rewrite !(decide_True (P := h ∈ n_Hostname <$> sa_nodes a)) by done. f_equal.
    assert (h ∈ n_Hostname <$> List.filter (fun n => bool_decide (n_Hostname n = sa_master a)) (sa_nodes a)
      ↔ h = sa_master a) as Hf.
    { rewrite list_elem_of_fmap. setoid_rewrite list_elem_of_In.
      setoid_rewrite filter_In. setoid_rewrite bool_decide_eq_true. split.
      - by intros (n & -> & _ & ?).
      - intros ->. apply list_elem_of_fmap in Hin as (n & Hn & Hin).
        exists n. split; [done|]. split; [by apply list_elem_of_In|done]. }
    destruct nd as [? ? ? ? ? ? ? ? gs]. cbn in Hg |- *. subst gs.
    destruct (decide (h = sa_master a)) as [->|Hne].
    + by rewrite decide_True by (by apply Hf).
    + rewrite decide_False by (by rewrite Hf). reflexivity.
Qed.

(** ** The registered deploy *)

Lemma Start_phases c a anchor flip m :
  a.(sa_nodes) ≠ [] →
  let m1 := (Start_register c a m).1 in
  let m2 := anchors_phase c a anchor m1 in
  let m3 := Start_gates c a m2 in
  let '(m4, r) := flipForBoot (Some (Start_register c a m).2) a.(sa_image) (deployArm m3) flip
                    (BootedDeploy c) m3 in
  Start c a anchor flip m
  = match r with
    | Err e => (Start_abort c (Start_register c a m).2 m4, Err e)
    | Ok _ => (Start_spawn c a (Start_register c a m).2 m4,
               snapshot c (Start_spawn c a (Start_register c a m).2 m4))
    end.
Proof.
  intros Hne. unfold Start, anchors_phase. destruct (sa_nodes a) as [|n0 l] eqn:El; [done|].
  destruct (Start_register c a m) as [m1 ref]. cbn.
  destruct (flipForBoot _ _ _ _ _ _) as [m4 []]; done.
Qed.

(** The state after the gates phase. *)
Lemma Start_gated c a anchor m :
  let m1 := (Start_register c a m).1 in
  let m2 := anchors_phase c a anchor m1 in
  let m3 := Start_gates c a m2 in
  only_cluster c m m3
  ∧ m3.(m_nodes) !! c = Some (by_hostname (fun n => n) a.(sa_nodes))
  ∧ ∃ d, m3.(m_deploys) !! c = Some d ∧ d.(d_ref) = m.(m_next) ∧ d.(d_Master) = a.(sa_master)
      ∧ d.(d_Manual) = a.(sa_manual)
      ∧ (∀ h, is_Some (d.(d_Nodes) !! h) ↔ h ∈ n_Hostname <$> a.(sa_nodes))
      ∧ ∀ h nd, d.(d_Nodes) !! h = Some nd →
          nd.(nd_State) = StatePending ∧ nd.(nd_GateAck) = []
          ∧ nd.(nd_InstallerPreflight) = None ∧ nd.(nd_RekickSeq) = 0
          ∧ nd.(nd_Gates) = initial_gates m.(m_has_gate) a h.
Proof.
  intros m1 m2 m3. destruct (register_deploys c a m) as (Hd1 & Hn1 & Hg1 & Hs1).
  fold m1 in Hd1, Hn1, Hg1, Hs1.
  assert (only_cluster c m m1) as Ho1.
  { split; intros c' Hc; [rewrite Hd1|rewrite Hn1]; by rewrite lookup_insert_ne. }
  destruct (anchors_evolves c a anchor m1) as [Hev Ho2]. fold m2 in Hev, Ho2.
  assert (m_deploys m1 !! c = Some (fresh_deploy (m_next m) c (nowUTC m) a)) as Hc1
    by (rewrite Hd1; apply lookup_insert_eq).
  destruct (evolves_deploy_fwd _ _ _ _ _ Hev Hc1) as (d2 & Hc2 & Hd2).
  assert (∀ h nd, d_Nodes d2 !! h = Some nd → h ∈ n_Hostname <$> sa_nodes a
    ∧ nd_State nd = StatePending ∧ nd_GateAck nd = [] ∧ nd_InstallerPreflight nd = None
    ∧ nd_RekickSeq nd = 0 ∧ nd_Gates nd = []) as Hfresh.
  { intros h nd Hn.
    destruct (proj1 (ev_dom _ _ _ Hd2 h) ltac:(by exists nd)) as [nd0 Hn0].
    destruct (ev_nodes _ _ _ Hd2 _ _ _ Hn0 Hn) as [(Hs & Ha & Hi & Hr) Hg].
    cbn in Hn0. destruct (by_hostname_key _ _ _ _ Hn0) as (n & Hin & <- & <-).
    split; [by apply list_elem_of_fmap_2|]. by rewrite Hs, Ha, Hi, Hr, Hg. }
  destruct (Start_gates_nodes c a m2 d2 Hc2) as (d3 & Hc3 & Hr3 & Hm3 & Hman3 & Hn3).
  { intros h nd Hn. destruct (Hfresh _ _ Hn) as (? & _ & _ & _ & _ & ?). done. }
  assert (m_has_gate m2 = m_has_gate m) as Hg2 by (rewrite (evm_gate _ _ _ Hev); done).
  assert (only_cluster c m2 m3 ∧ m_nodes m3 = m_nodes m2) as [Ho3 Hnn3].
  { subst m3. unfold Start_gates. case_match; [done|].
    split; [|rewrite (proj2 (flush_deploys _ _ _)), !(evm_nodes _ _ _ (authorize_evolves _ _ _ _)); done].
    do 3 (eapply only_cluster_trans; [apply authorize_only|]).
    destruct (flush_deploys c (sa_nodes a) (authorizeGatesLocked c
      (List.filter (fun n => bool_decide (n_Hostname n = sa_master a)) (sa_nodes a)) gateStageApply
      (authorizeGatesLocked c (sa_nodes a) gateStageReboot
        (authorizeGatesLocked c (sa_nodes a) gateStageRestore m2)))) as [Hx Hy].
    split; intros c' _; [by rewrite Hx|by rewrite Hy]. }
  split; [eauto using only_cluster_trans|]. split.
  { rewrite Hnn3, (evm_nodes _ _ _ Hev), Hn1. apply lookup_insert_eq. }
  exists d3. split; [done|]. rewrite Hr3, Hm3, Hman3.
  rewrite (ev_ref _ _ _ Hd2), (ev_master _ _ _ Hd2), (ev_manual _ _ _ Hd2).
  repeat split; try (rewrite Hn3, fmap_is_Some, (ev_dom _ _ _ Hd2); cbn; apply by_hostname_dom);
    try (rewrite Hn3, fmap_is_Some, (ev_dom _ _ _ Hd2); cbn; intros; by apply by_hostname_dom).
  all: rewrite Hn3 in H; apply fmap_Some in H as (nd0 & Hn0 & ->);
    destruct (Hfresh _ _ Hn0) as (? & ? & ? & ? & ? & ?); cbn; rewrite ?Hg2; done.
Qed.

(** The state after a [Start] that came through. *)
Lemma Start_done c a anchor flip m m' v :
  Start c a anchor flip m = (m', Ok v) →
  (∀ c', c' ≠ c → m'.(m_deploys) !! c' = m.(m_deploys) !! c')
  ∧ ∃ d, m'.(m_deploys) !! c = Some d ∧ d.(d_ref) = m.(m_next) ∧ d.(d_Master) = a.(sa_master)
      ∧ d.(d_Manual) = a.(sa_manual)
      ∧ (∀ h, is_Some (d.(d_Nodes) !! h) ↔ h ∈ n_Hostname <$> a.(sa_nodes))
      ∧ ∀ h nd, d.(d_Nodes) !! h = Some nd →
          nd.(nd_State) = StatePending ∧ nd.(nd_GateAck) = []
          ∧ nd.(nd_InstallerPreflight) = None ∧ nd.(nd_RekickSeq) = 0
          ∧ nd.(nd_Gates) = initial_gates m.(m_has_gate) a h.
Proof.
  intros HS. assert (sa_nodes a ≠ []) as Hne by (intros He; unfold Start in HS; by rewrite He in HS).
  pose proof (Start_phases c a anchor flip m Hne) as Hph. cbn zeta in Hph.
  destruct (Start_gated c a anchor m) as ([Ho _] & _ & Hd).
  set (m3 := Start_gates c a (anchors_phase c a anchor (Start_register c a m).1)) in *.
  destruct (flip_deploys (Some (Start_register c a m).2) (sa_image a) (deployArm m3) flip
    (BootedDeploy c) m3) as [Hf _].
  destruct (flipForBoot _ _ _ _ _ _) as [m4 [u|e]]; cbn in Hf; rewrite Hph in HS; [|done].
  simplify_eq. rewrite (proj1 (Start_spawn_deploys _ _ _ _)), Hf. done.
Qed.

(** A started deploy is clean: whatever an earlier run of the cluster left
    behind, after Start every node of the list is pending, has no preflight
    result and no confirmed gate, and holds exactly the gates the mode grants
    up front: none in manual mode, restore and reboot (and apply for the
    master only) in automatic mode.  Other clusters are untouched. *)
Theorem Start_fresh c a anchor flip m m' v :
  Start c a anchor flip m = (m', Ok v) →
  (∀ c', c' ≠ c → m'.(m_deploys) !! c' = m.(m_deploys) !! c')
  ∧ ∃ d, m'.(m_deploys) !! c = Some d ∧ d.(d_ref) = m.(m_next) ∧ d.(d_Master) = a.(sa_master)
      ∧ d.(d_Manual) = a.(sa_manual)
      ∧ (∀ h, is_Some (d.(d_Nodes) !! h) ↔ h ∈ n_Hostname <$> a.(sa_nodes))
      ∧ ∀ h nd, d.(d_Nodes) !! h = Some nd →
          nd.(nd_State) = StatePending ∧ nd.(nd_GateAck) = []
          ∧ nd.(nd_InstallerPreflight) = None ∧ nd.(nd_RekickSeq) = 0
          ∧ nd.(nd_Gates) = initial_gates m.(m_has_gate) a h.
Proof. apply Start_done. Qed.

(** ** The node table stays consistent *)

Lemma Start_empty c a anchor flip m : a.(sa_nodes) = [] → (Start c a anchor flip m).1 = m.
Proof. intros He. unfold Start. by rewrite He. Qed.

(** What [Start] leaves in the two tables: the cluster's own entries as after
    the gates phase (or no deploy after an abort), the others untouched. *)
Lemma Start_tables c a anchor flip m :
  a.(sa_nodes) ≠ [] →
  let m' := (Start c a anchor flip m).1 in
  let m3 := Start_gates c a (anchors_phase c a anchor (Start_register c a m).1) in
  m'.(m_nodes) = m3.(m_nodes)
  ∧ (m'.(m_deploys) = m3.(m_deploys) ∨ m'.(m_deploys) = delete c m3.(m_deploys)).
Proof.
  intros Hne m' m3. subst m'. pose proof (Start_phases c a anchor flip m Hne) as Hph. cbn zeta in Hph.
  fold m3 in Hph.
  destruct (flip_deploys (Some (Start_register c a m).2) (sa_image a) (deployArm m3) flip
    (BootedDeploy c) m3) as [Hf Hn].
  destruct (flipForBoot _ _ _ _ _ _) as [m4 [u|e]]; cbn in Hf, Hn; rewrite Hph; cbn [fst].
  - destruct (Start_spawn_deploys c a (Start_register c a m).2 m4) as [-> ->].
    rewrite Hf, Hn. by split; [|left].
  - unfold Start_abort. cbn. destruct (m_deploys m4 !! c) as [d|]; [destruct (decide _)|];
      cbn; rewrite Hf, Hn; auto.
Qed.

Lemma nodes_ok_Start c a anchor flip m :
  nodes_ok m → nodes_ok (Start c a anchor flip m).1.
Proof.
  intros Hok. destruct (decide (sa_nodes a = [])) as [He|Hne]; [by rewrite Start_empty|].
  destruct (Start_tables c a anchor flip m Hne) as [Hn _].
  destruct (Start_gated c a anchor m) as ([_ Ho] & Hc & _).
  intros c' byHost h n. rewrite Hn. destruct (decide (c' = c)) as [->|Hcc].
  - rewrite Hc. intros [= <-] Hl. by apply by_hostname_key in Hl as (n' & _ & Hh & <-).
  - rewrite Ho by done. apply Hok.
Qed.

(** ** Every other operation appends only justified gates *)

Definition is_start (o : Op) : bool := match o with OpStart _ _ _ _ => true | _ => false end.
Definition is_release (o : Op) : bool := match o with OpRelease _ _ _ => true | _ => false end.

Lemma op_ledger o m :
  nodes_ok m → is_start o = false → is_release o = false →
  evolves (ledger (allowed m (run_op o m))) m (run_op o m).
Proof.
  intros Hok Hs Hr. destruct o; try done; cbn [run_op];
    try (apply keeps_ledger; unfold PreflightReport, PreflightFail, PreflightProgress, ApplyStarted,
           WaitForMaster, ApplyFailed, ackGates;
         first [ apply Report_keeps | apply RestoreDone_keeps | apply Rekick_keeps
               | apply GreenLight1_keeps | apply CheckIn_keeps | apply MarkReady_keeps
               | apply runNode_step_keeps | apply Cancel_keeps
               | apply set_evolves; [apply keeps_gates_refl|]; intros; unfold keeps_gates,
                   apply_started, set_error; by repeat case_match ]).
  - by apply Applied_ledger.
  - by apply MergeSEL_ledger.
  - apply keeps_ledger. unfold SubmitSetReady. apply evolves_same; auto with cube.
  - apply keeps_ledger. destruct (GetSetReady_deploys c m) as (?&?&?&?&_).
    apply evolves_same; auto with cube.
  - apply keeps_ledger. unfold verify_done. destruct (m_deploys m !! c) as [d|] eqn:Ed;
      [|apply evolves_refl; auto with cube]. by eapply put_field_keeps.
  - by apply AdvanceStep_ledger.
  - apply keeps_ledger. unfold StopAll. apply evolves_same; auto with cube.
  - apply keeps_ledger. unfold set_env. apply evolves_same; auto with cube.
Qed.

Lemma ReleaseNode_nodes c h wr m : (ReleaseNode c h wr m).1.(m_nodes) = m.(m_nodes).
Proof.
  unfold ReleaseNode. repeat case_match; simplify_eq/=; try done;
    apply (evm_nodes _ _ _ (authorize_evolves _ _ _ _)).
Qed.

Lemma nodes_ok_op o m : nodes_ok m → nodes_ok (run_op o m).
Proof.
  intros Hok. destruct (is_start o) eqn:Es; [destruct o; try done; by apply nodes_ok_Start|].
  destruct (is_release o) eqn:Er.
  - destruct o; try done. intros c' byHost h' n. cbn [run_op]. rewrite ReleaseNode_nodes. apply Hok.
  - eapply nodes_ok_evolves; [|done]. by apply op_ledger.
Qed.

(** ** Gate history over a whole run *)

Definition no_release (o : Op) : Prop := is_release o = false.

(** Gates [Start] may grant before anything has happened. *)
Definition up_front (d : Deploy) (h : string) (stage : Z) : Prop :=
  d.(d_Manual) = false
  ∧ (stage = gateStageRestore ∨ stage = gateStageReboot
     ∨ (stage = gateStageApply ∧ h = d.(d_Master))).

(** [d1] is an earlier version of the same run as [d]. *)
Definition same_run (d d1 : Deploy) : Prop :=
  d1.(d_ref) = d.(d_ref) ∧ d1.(d_Master) = d.(d_Master) ∧ d1.(d_Manual) = d.(d_Manual)
  ∧ ∀ h, is_Some (d1.(d_Nodes) !! h) ↔ is_Some (d.(d_Nodes) !! h).

Lemma same_run_refl d : same_run d d.
Proof. by split. Qed.
Lemma same_run_trans d1 d2 d3 : same_run d2 d1 → same_run d3 d2 → same_run d3 d1.
Proof.
  intros (r1 & m1 & a1 & n1) (r2 & m2 & a2 & n2).
  repeat split; try congruence; intros ?; [apply n2, n1|apply n1, n2]; done.
Qed.
Lemma evolves_same_run R d d' : deploy_evolves R d d' → same_run d' d.
Proof. intros [Hr _ Hm Ha Hd _]. repeat split; try congruence; by apply Hd. Qed.

(** A gate's history: granted up front, or its barrier held in a state of the
    run. *)
Definition earned (past : list Manager) (c h : string) (stage : Z) (d : Deploy) : Prop :=
  up_front d h stage
  ∨ ∃ m1 d1, m1 ∈ past ∧ m1.(m_deploys) !! c = Some d1 ∧ same_run d d1
      ∧ barrier (fun d => fabricReadyLocked d m1) d1 h stage.

Definition all_earned (past : list Manager) (m : Manager) : Prop :=
  ∀ c d h nd stage, m.(m_deploys) !! c = Some d → d.(d_Nodes) !! h = Some nd →
    stage ∈ nd.(nd_Gates) → earned past c h stage d.

Lemma earned_mono past past' c h stage d d' :
  past ⊆ past' → same_run d' d → earned past c h stage d → earned past' c h stage d'.
Proof.
  intros Hsub Hd [[Hm Hu]|(m1 & d1 & Hin & Hc & Hr & Hb)].
  - left. destruct Hd as (_ & Hma & Hman & _). unfold up_front. by rewrite <- Hma, <- Hman.
  - right. exists m1, d1. split; [by apply Hsub|]. split; [done|]. split; [|done].
    by eapply same_run_trans.
Qed.

Lemma earned_start c a anchor flip m past :
  all_earned past m → all_earned (past ++ [(Start c a anchor flip m).1]) (Start c a anchor flip m).1.
Proof.
  intros Hall c' d h nd stage Hd Hn Hg.
  destruct (decide (sa_nodes a = [])) as [He|Hne].
  { rewrite Start_empty in * by done. eapply earned_mono; [|apply same_run_refl|by eapply Hall].
    set_solver. }
  destruct (Start_tables c a anchor flip m Hne) as [_ Ht].
  destruct (Start_gated c a anchor m) as ([Ho _] & _ & d3 & Hc3 & _ & Hma & Hman & _ & Hfresh).
  destruct (decide (c' = c)) as [->|Hcc].
  - assert (d = d3) as ->.
    { destruct Ht as [Ht|Ht]; rewrite Ht in Hd; [congruence|by rewrite lookup_delete_eq in Hd]. }
    destruct (Hfresh _ _ Hn) as (_ & _ & _ & _ & Hgs). rewrite Hgs in Hg. left.
    unfold initial_gates in Hg. case_match; [|set_solver]. to_prop. destruct H as [_ Hm].
    split; [congruence|]. rewrite Hma. case_decide; set_solver.
  - assert (m_deploys m !! c' = Some d) as Hd0.
    { rewrite <- (Ho c' Hcc).
      destruct Ht as [Ht|Ht]; rewrite Ht in Hd; [done|by rewrite lookup_delete_ne in Hd]. }
    eapply earned_mono; [|apply same_run_refl|by eapply Hall]. set_solver.
Qed.

(** A step that appends to the ledgers only what is earned keeps them earned. *)
Lemma earned_ledger (C : string → string → Z → Prop) m m' past :
  evolves (ledger C) m m' → all_earned past m →
  (∀ c d' h stage, m'.(m_deploys) !! c = Some d' → C c h stage → earned (past ++ [m']) c h stage d') →
  all_earned (past ++ [m']) m'.
Proof.
  intros Hev Hall HC c d' h nd' stage Hd' Hn' Hg.
  destruct (evolves_node _ _ _ _ _ _ _ Hev Hd' Hn') as (d & nd & Hd & Hn & Hdd & (l & Hl & HF) & _).
  rewrite Hl, elem_of_app in Hg. destruct Hg as [Hg|Hg].
  - eapply earned_mono; [|by eapply evolves_same_run|by eapply Hall]. set_solver.
  - rewrite Forall_forall in HF. eauto.
Qed.

Lemma allowed_earned R m m' past c d' h stage :
  evolves R m m' → m ∈ past → m'.(m_deploys) !! c = Some d' → allowed m m' c h stage →
  earned (past ++ [m']) c h stage d'.
Proof.
  intros Hev Hin Hd' [(d & Hd & Hb)|(d & Hd & Hb)]; right.
  - exists m, d. split; [set_solver|]. split; [done|]. split; [|done].
    destruct (evolves_deploy _ _ _ _ _ Hev Hd') as (d0 & Hd0 & Hdd). simplify_eq.
    by eapply evolves_same_run.
  - simplify_eq. exists m', d'. split; [set_solver|]. split; [done|].
    split; [apply same_run_refl|done].
Qed.

Lemma earned_op o m past :
  nodes_ok m → m ∈ past → no_release o → all_earned past m →
  all_earned (past ++ [run_op o m]) (run_op o m).
Proof.
  intros Hok Hin Hr Hall. destruct (is_start o) eqn:Es.
  { destruct o; try done. by apply earned_start. }
  pose proof (op_ledger o m Hok Es Hr) as Hev.
  eapply earned_ledger; [exact Hev|done|]. intros. by eapply allowed_earned.
Qed.

Lemma run_nodes_ok P m0 hist m : idle m0 → run P m0 hist m → nodes_ok m.
Proof.
  intros [_ Hn]. apply run_invariant; [intros; by apply nodes_ok_op|].
  intros c byHost h n. by rewrite Hn, lookup_empty.
Qed.

Lemma run_earned m0 hist m :
  idle m0 → run no_release m0 hist m → all_earned (hist ++ [m]) m.
Proof.
  intros Hi Hrun. induction Hrun as [|hist m o Hrun IH HP].
  - destruct Hi as [Hd _]. intros c d h nd stage. by rewrite Hd, lookup_empty.
  - apply earned_op; [by eapply run_nodes_ok|set_solver|done|done].
Qed.

(** What an earned gate says of the master, and of all nodes. *)
Lemma earned_apply past c d h :
  earned past c h gateStageApply d →
  d.(d_Master) ≠ "" → is_Some (d.(d_Nodes) !! d.(d_Master)) → h ≠ d.(d_Master) →
  ∃ m1 d1 master, m1 ∈ past ∧ m1.(m_deploys) !! c = Some d1 ∧ d1.(d_ref) = d.(d_ref)
    ∧ d1.(d_Nodes) !! d.(d_Master) = Some master ∧ master.(nd_State) = StateDone.
Proof.
  intros [[_ [Hs|[Hs|[_ Hs]]]]|(m1 & d1 & Hin & Hd1 & (Href & Hma1 & _ & Hdom) & Hb)] Hma Hmn Hne;
    try done.
  unfold barrier in Hb. cbn in Hb. rewrite Hma1, decide_False in Hb by done.
  destruct Hb as [Hb|Hb]; [done|]. apply Hdom in Hmn as [master Hmn].
  unfold master_done in Hb. rewrite Hma1, Hmn in Hb. apply bool_decide_eq_true in Hb.
  exists m1, d1, master. done.
Qed.

Lemma earned_setready past c d h :
  earned past c h gateStageSetReady d →
  h = d.(d_Master)
  ∧ ∃ m1 d1, m1 ∈ past ∧ m1.(m_deploys) !! c = Some d1 ∧ d1.(d_ref) = d.(d_ref)
      ∧ ∀ h', is_Some (d.(d_Nodes) !! h') →
          ∃ nd1, d1.(d_Nodes) !! h' = Some nd1 ∧ nd1.(nd_State) = StateDone.
Proof.
  intros [[_ [Hs|[Hs|[Hs _]]]]|(m1 & d1 & Hin & Hd1 & (Href & Hma1 & _ & Hdom) & Hb)]; try done.
  unfold barrier in Hb. cbn in Hb. destruct Hb as [-> Hb]. split; [done|].
  exists m1, d1. repeat split; try done. intros h' Hh'. apply Hdom in Hh' as [nd1 Hn1].
  exists nd1. split; [done|]. by eapply all_done_true.
Qed.

(** ** The deploy-order theorems *)

(** Every gate in every node's ledger has been earned.  Over any sequence
    of operations (agent reports, SEL merges, operator actions, goroutine
    steps, restarts of a deploy, disk failures) from an idle manager, without
    an operator's forced release, a stage in a node's ledger was either granted
    up front by Start in automatic mode (restore and reboot for all, apply for
    the master), or its barrier held in an earlier state of this very run:
    restore, every node passed the fabric preflight; reboot, every node reached
    rebooting; apply for the master, every node checked in; apply for a peer,
    the master is done; set-ready, every node is done and the host is the
    master. *)
Theorem gates_history m0 hist m c d h nd stage :
  idle m0 → run no_release m0 hist m →
  m.(m_deploys) !! c = Some d → d.(d_Nodes) !! h = Some nd → stage ∈ nd.(nd_Gates) →
  up_front d h stage
  ∨ ∃ m1 d1, m1 ∈ hist ++ [m] ∧ m1.(m_deploys) !! c = Some d1 ∧ same_run d d1
      ∧ barrier (fun d => fabricReadyLocked d m1) d1 h stage.
Proof. intros Hi Hr Hd Hn Hg. exact (run_earned _ _ _ Hi Hr _ _ _ _ _ Hd Hn Hg). Qed.

Definition demo_release_ops : list Op := demo_ops false ++ [OpApplied "c" "a"].

Lemma gates_history_witness :
  ∃ d nd, (run_ops demo_release_ops demo_manager).(m_deploys) !! "c" = Some d
    ∧ d.(d_Nodes) !! "b" = Some nd ∧ gateStageApply ∈ nd.(nd_Gates)
    ∧ (up_front d "b" gateStageApply
       ∨ ∃ m1 d1, m1 ∈ run_hist demo_release_ops demo_manager
                         ++ [run_ops demo_release_ops demo_manager]
           ∧ m1.(m_deploys) !! "c" = Some d1 ∧ same_run d d1
           ∧ barrier (fun d => fabricReadyLocked d m1) d1 "b" gateStageApply).
Proof.
  destruct (holds_at_true "c" "b" (fun _ nd => contains nd.(nd_Gates) gateStageApply)
    (run_ops demo_release_ops demo_manager)) as (d & nd & Hd & Hn & Hg);
    [vm_compute; reflexivity|].
  apply contains_true in Hg. exists d, nd. split; [exact Hd|]. split; [exact Hn|].
  split; [exact Hg|].
  eapply (gates_history demo_manager _ _ "c"); [exact demo_idle| |exact Hd|exact Hn|exact Hg].
  apply run_of_ops. repeat constructor.
Defined.

(** Master first: over any sequence of operations without a forced
    release, a peer that may apply belongs to a run in which the master had
    finished before. *)
Theorem master_first m0 hist m c d h nd :
  idle m0 → run no_release m0 hist m →
  m.(m_deploys) !! c = Some d → d.(d_Nodes) !! h = Some nd →
  d.(d_Master) ≠ "" → is_Some (d.(d_Nodes) !! d.(d_Master)) → h ≠ d.(d_Master) →
  gateStageApply ∈ nd.(nd_Gates) →
  ∃ m1 d1 master, m1 ∈ hist ++ [m] ∧ m1.(m_deploys) !! c = Some d1 ∧ d1.(d_ref) = d.(d_ref)
    ∧ d1.(d_Nodes) !! d.(d_Master) = Some master ∧ master.(nd_State) = StateDone.
Proof.
  intros Hi Hr Hd Hn Hma Hmn Hne Hg. eapply earned_apply; [|done..]. by eapply (run_earned m0).
Qed.

Lemma master_first_witness :
  ∃ d m1 d1 master, (run_ops demo_release_ops demo_manager).(m_deploys) !! "c" = Some d
    ∧ m1 ∈ run_hist demo_release_ops demo_manager ++ [run_ops demo_release_ops demo_manager]
    ∧ m1.(m_deploys) !! "c" = Some d1 ∧ d1.(d_ref) = d.(d_ref)
    ∧ d1.(d_Nodes) !! d.(d_Master) = Some master ∧ master.(nd_State) = StateDone.
Proof.
  destruct (holds_at_true "c" "b" (fun d nd => contains nd.(nd_Gates) gateStageApply
      && bool_decide (d.(d_Master) = "a") && bool_decide (is_Some (d.(d_Nodes) !! "a")))
    (run_ops demo_release_ops demo_manager)) as (d & nd & Hd & Hn & Hg);
    [vm_compute; reflexivity|].
  to_prop. destruct Hg as [[Hg Hma] Hmn].
  destruct (master_first demo_manager (run_hist demo_release_ops demo_manager)
    (run_ops demo_release_ops demo_manager) "c" d "b" nd) as (m1 & d1 & master & H);
    [exact demo_idle| |exact Hd|exact Hn|by rewrite Hma|by rewrite Hma|by rewrite Hma|exact Hg|].
  - apply run_of_ops. repeat constructor.
  - exists d, m1, d1, master. split; [exact Hd|exact H].
Defined.

(** set_ready last: over any sequence of operations without a forced
    release, only the master ever holds the set-ready gate, and every node of
    its run had finished before it was granted. *)
Theorem setready_last m0 hist m c d h nd :
  idle m0 → run no_release m0 hist m →
  m.(m_deploys) !! c = Some d → d.(d_Nodes) !! h = Some nd →
  gateStageSetReady ∈ nd.(nd_Gates) →
  h = d.(d_Master)
  ∧ ∃ m1 d1, m1 ∈ hist ++ [m] ∧ m1.(m_deploys) !! c = Some d1 ∧ d1.(d_ref) = d.(d_ref)
      ∧ ∀ h' , is_Some (d.(d_Nodes) !! h') →
          ∃ nd1, d1.(d_Nodes) !! h' = Some nd1 ∧ nd1.(nd_State) = StateDone.
Proof.
  intros Hi Hr Hd Hn Hg. eapply earned_setready. by eapply (run_earned m0).
Qed.

Definition demo_ready_ops : list Op :=
  demo_ops false ++ [OpApplied "c" "a"; OpApplied "c" "b"].

Lemma setready_last_witness :
  ∃ d m1 d1, (run_ops demo_ready_ops demo_manager).(m_deploys) !! "c" = Some d
    ∧ d.(d_Master) = "a"
    ∧ m1 ∈ run_hist demo_ready_ops demo_manager ++ [run_ops demo_ready_ops demo_manager]
    ∧ m1.(m_deploys) !! "c" = Some d1
    ∧ ∃ nd1, d1.(d_Nodes) !! "b" = Some nd1 ∧ nd1.(nd_State) = StateDone.
Proof.
  destruct (holds_at_true "c" "a" (fun d nd => contains nd.(nd_Gates) gateStageSetReady
      && bool_decide (is_Some (d.(d_Nodes) !! "b")))
    (run_ops demo_ready_ops demo_manager)) as (d & nd & Hd & Hn & Hg); [vm_compute; reflexivity|].
  to_prop. destruct Hg as [Hg Hb].
  destruct (setready_last demo_manager (run_hist demo_ready_ops demo_manager)
    (run_ops demo_ready_ops demo_manager) "c" d "a" nd) as (Hm & m1 & d1 & Hin & Hd1 & _ & H);
    [exact demo_idle| |exact Hd|exact Hn|exact Hg|].
  - apply run_of_ops. repeat constructor.
  - exists d, m1, d1. split; [exact Hd|]. split; [by rewrite <- Hm|]. split; [exact Hin|].
    split; [exact Hd1|]. apply H, Hb.
Defined.

Lemma Start_fresh_witness :
  ∃ m' v, Start "c" (demo_args false) (fun _ => 7) demo_flip demo_manager = (m', Ok v)
    ∧ ∃ d, m'.(m_deploys) !! "c" = Some d
        ∧ ∀ nd, d.(d_Nodes) !! "a" = Some nd →
            nd.(nd_Gates) = [gateStageRestore; gateStageReboot; gateStageApply].
Proof.
  destruct (Start "c" (demo_args false) (fun _ => 7) demo_flip demo_manager) as [m' [v|e]] eqn:E.
  - exists m', v. split; [reflexivity|].
    destruct (Start_fresh _ _ _ _ _ _ _ E) as (_ & d & Hd & _ & _ & _ & _ & H).
    exists d. split; [exact Hd|]. intros nd Hn. apply H in Hn as (_ & _ & _ & _ & ->).
    reflexivity.
  - exfalso. assert (is_ok (Start "c" (demo_args false) (fun _ => 7) demo_flip demo_manager).2 = true)
      as H by (vm_compute; reflexivity). rewrite E in H. discriminate H.
Defined.
