(* ===== verification/OrchestratorConc.v ===== *)
(** * The manager, one critical section at a time

    Six handlers of [Manager] release the lock on their way (internal/orchestrator
    manager.go [Applied], [Report], [RestoreDone], [Start] and the poll tick of
    [runNode], sel.go [MergeSEL]).  A [task] is a call and how far it got; one
    step of it is one critical section (or one stretch of code without the
    lock), and the steps of all tasks interleave freely.  Run alone, a task does what the
    handler's function of Orchestrator.v does.  The order of a deploy is proved over
    every interleaving that keeps [Start] [apart], and two schedules show what
    happens without that. *)
From S2P Require Import Prelude GoStrings DeployModel SelCodec Orchestrator OrchestratorFrames OrchestratorOps OrchestratorSafety OrchestratorStart DeployDemo.

Open Scope string_scope.
Open Scope list_scope.
Open Scope Z_scope.

(** What is left of the handoffs after a node is done, each a section. *)
Inductive handoff := HVerify | HRelease | HAuto.

(** [Start] after its registration; cancelling the context of an aborted
    start, outside the lock, is part of [SAbort]. *)
Inductive start_pc :=
| SAnchor (todo : list Node)   (** the logs whose anchors are still to be read *)
| SGates
| SFlip
| SAbort
| SSpawn.

Inductive task :=
| TCall (o : Op)                                   (** not begun *)
| TReady (c h : string) (s : SELStatus)            (** [MergeSEL]: the host is the master *)
| THandoff (c h : string) (todo : list handoff)
| TBootDisk (c h : string)                         (** [RestoreDone]: look the node up *)
| TTick (c : string) (n : Node) (saw past : bool) (obs : option Stage)
| TStart (c : string) (a : StartArgs) (anchor : Node → Z) (flip : string → string → result bool)
    (ref : nat) (pc : start_pc).

Definition hand (c h : string) (x : handoff) : Manager → Manager :=
  match x with
  | HVerify => maybeVerifyCluster c
  | HRelease => releasePeersOnMasterDone c h
  | HAuto => maybeAutoSetReady c
  end.

(** A list of handoffs that has come to its end is no task. *)
Definition handoffs (c h : string) (todo : list handoff) : option task :=
  match todo with [] => None | _ => Some (THandoff c h todo) end.

(** The first section of the calls that have several. *)
Definition Applied_call (c h : string) (m : Manager) : Manager * option task :=
  (set c h (set_nd_State StateDone) m, handoffs c h [HRelease; HAuto]).

Definition Report_call (c h st msg : string) (pf : option (list PreflightResult)) (m : Manager) :
    Manager * option task :=
  let s := State_of_string st in
  (set c h (fun nd =>
     let nd := set_nd_Message msg (set_nd_State s nd) in
     match pf with Some l => set_nd_Preflight l nd | None => nd end) m,
   if decide (s = StateDone) then handoffs c h [HVerify] else None).

Definition RestoreDone_call (c h : string) (m : Manager) : Manager * option task :=
  (set c h restore_done m, Some (TBootDisk c h)).

Definition MergeSEL_call (c h : string) (s : SELStatus) (m : Manager) : Manager * option task :=
  if (s.(ss_Phase) =? "ready")%string then
    (m, if bool_decide (h = Master c m) then Some (TReady c h s) else None)
  else
    let target := selState s in
    if decide (target = StateRaw "") then (m, None)
    else
      let becameDone := match node_of c h m with
                        | Some nd => (merge_node target s.(ss_Detail) nd).2
                        | None => false
                        end in
      (set c h (fun nd => (merge_node target s.(ss_Detail) nd).1) m,
       if bool_decide (target = StateDone) && becameDone
       then handoffs c h [HVerify; HAuto; HRelease] else None).

(** A poll tick of [runNode] first looks whether the agent has taken over. *)
Definition tick_call (c : string) (n : Node) (saw past : bool) (obs : option Stage) (m : Manager) :
    Manager * option task :=
  (m, if agentDriven (state c n.(n_Hostname) m) then None else Some (TTick c n saw past obs)).

Definition Start_call (c : string) (a : StartArgs) (anchor : Node → Z)
    (flip : string → string → result bool) (m : Manager) : Manager * option task :=
  match a.(sa_nodes) with
  | [] => (m, None)
  | _ =>
      let '(m, ref) := Start_register c a m in
      (m, Some (TStart c a anchor flip ref (if m.(m_has_sel) then SAnchor a.(sa_nodes) else SGates)))
  end.

Definition call_step (o : Op) (m : Manager) : Manager * option task :=
  match o with
  | OpApplied c h => Applied_call c h m
  | OpReport c h st msg pf => Report_call c h st msg pf m
  | OpRestoreDone c h => RestoreDone_call c h m
  | OpMergeSEL c h s => MergeSEL_call c h s m
  | OpRunNode c n (RnPoll saw) (EvTick past obs) => tick_call c n saw past obs m
  | OpStart c a anchor flip => Start_call c a anchor flip m
  | _ => (run_op o m, None)
  end.

(** A tick whose look at the node's state is past. *)
Definition tick_step (c : string) (n : Node) (saw past : bool) (obs : option Stage) (m : Manager) : Manager :=
  let h := n.(n_Hostname) in
  if past then fail c h ErrPXETimeout "timed out waiting for install" m
  else match obs with
       | Some StageImaging => if saw then m else advance c h StateImaging m
       | Some StageDone => advance c h StateImaged m
       | _ => m
       end.

Definition start_step (c : string) (a : StartArgs) (anchor : Node → Z) (flip : string → string → result bool)
    (ref : nat) (pc : start_pc) (m : Manager) : Manager * option task :=
  let at_pc pc := Some (TStart c a anchor flip ref pc) in
  match pc with
  | SAnchor [] => (m, at_pc SGates)
  | SAnchor (n :: l) => (Start_anchor c n (anchor n) m, at_pc (SAnchor l))
  | SGates => (Start_gates c a m, at_pc SFlip)
  | SFlip =>
      let '(m, r) := flipForBoot (Some ref) a.(sa_image) (deployArm m) flip (BootedDeploy c) m in
      (m, at_pc (match r with Err _ => SAbort | Ok _ => SSpawn end))
  | SAbort => (Start_abort c ref m, None)
  | SSpawn => (Start_spawn c a ref m, None)
  end.

Definition task_step (t : task) (m : Manager) : Manager * option task :=
  match t with
  | TCall o => call_step o m
  | TReady c h s => (MarkReady c (negb (s.(ss_Result) =? "error")%string) s.(ss_Detail) m, None)
  | THandoff c h [] => (m, None)
  | THandoff c h (x :: l) => (hand c h x m, handoffs c h l)
  | TBootDisk c h =>
      (match nodes_of c m !! h with Some n => spawn (JBootDisk c h n) m | None => m end, None)
  | TTick c n saw past obs => (tick_step c n saw past obs m, None)
  | TStart c a anchor flip ref pc => start_step c a anchor flip ref pc m
  end.

(** ** A task that nobody interrupts *)

Inductive alone : task → Manager → Manager → Prop :=
| alone_done t m m' : task_step t m = (m', None) → alone t m m'
| alone_step t m m1 t' m' : task_step t m = (m1, Some t') → alone t' m1 m' → alone t m m'.

Lemma alone_handoffs c h l m :
  l ≠ [] → alone (THandoff c h l) m (foldl (fun m x => hand c h x m) m l).
Proof.
  revert m. induction l as [|x l IH]; intros m Hne; [done|]. cbn [foldl].
  destruct l as [|y l]; [by apply alone_done|]. eapply alone_step; [done|]. by apply IH.
Qed.

Lemma alone_anchors c a anchor flip ref l m m' :
  alone (TStart c a anchor flip ref SGates) (foldl (fun m n => Start_anchor c n (anchor n) m) m l) m' →
  alone (TStart c a anchor flip ref (SAnchor l)) m m'.
Proof.
  revert m. induction l as [|n l IH]; intros m H; [by eapply alone_step|].
  eapply alone_step; [done|]. by apply IH.
Qed.

Lemma alone_call o m m1 c h l :
  call_step o m = (m1, handoffs c h l) →
  alone (TCall o) m (foldl (fun m x => hand c h x m) m1 l).
Proof.
  intros H. destruct l as [|x l]; [by apply alone_done|].
  eapply alone_step; [exact H|]. by apply alone_handoffs.
Qed.

(** [Start] from its flip on. *)
Definition flip_rest (c : string) (a : StartArgs) (flip : string → string → result bool) (ref : nat)
    (m : Manager) : Manager * result Deploy :=
  match flipForBoot (Some ref) a.(sa_image) (deployArm m) flip (BootedDeploy c) m with
  | (m, Err e) => (Start_abort c ref m, Err e)
  | (m, Ok _) => (Start_spawn c a ref m, snapshot c (Start_spawn c a ref m))
  end.

Lemma Start_eq c a anchor flip m :
  a.(sa_nodes) ≠ [] →
  Start c a anchor flip m
  = flip_rest c a flip (Start_register c a m).2
      (Start_gates c a (anchors_phase c a anchor (Start_register c a m).1)).
Proof.
  intros Hne. unfold Start, flip_rest, anchors_phase. destruct (sa_nodes a) as [|n l]; [done|].
  by destruct (Start_register c a m) as [m1 ref].
Qed.

Lemma alone_flip c a anchor flip ref m :
  alone (TStart c a anchor flip ref SFlip) m (flip_rest c a flip ref m).1.
Proof.
  unfold flip_rest. destruct (flipForBoot _ _ _ _ _ _) as [m4 r] eqn:Ef.
  eapply alone_step; [cbn [task_step start_step]; by rewrite Ef|].
  destruct r as [u|e]; cbn [fst]; apply alone_done; reflexivity.
Qed.

Lemma alone_gates c a anchor flip ref m :
  alone (TStart c a anchor flip ref SGates) m (flip_rest c a flip ref (Start_gates c a m)).1.
Proof. eapply alone_step; [reflexivity|]. apply alone_flip. Qed.

Lemma alone_begin c a anchor flip ref m :
  alone (TStart c a anchor flip ref (if m.(m_has_sel) then SAnchor a.(sa_nodes) else SGates)) m
    (flip_rest c a flip ref (Start_gates c a (anchors_phase c a anchor m))).1.
Proof.
  unfold anchors_phase. destruct (m_has_sel m); [apply alone_anchors|]; apply alone_gates.
Qed.

Lemma Start_call_eq c a anchor flip m :
  a.(sa_nodes) ≠ [] →
  call_step (OpStart c a anchor flip) m
  = ((Start_register c a m).1,
     Some (TStart c a anchor flip (Start_register c a m).2
             (if m_has_sel (Start_register c a m).1 then SAnchor a.(sa_nodes) else SGates))).
Proof.
  intros Hne. unfold call_step, Start_call. destruct (sa_nodes a) as [|n l]; [done|].
  by destruct (Start_register c a m) as [m1 ref].
Qed.

Lemma Start_call_empty c a anchor flip m :
  a.(sa_nodes) = [] → task_step (TCall (OpStart c a anchor flip)) m = (m, None).
Proof. intros He. unfold task_step, call_step, Start_call. by rewrite He. Qed.

Lemma alone_Start c a anchor flip m :
  alone (TCall (OpStart c a anchor flip)) m (Start c a anchor flip m).1.
Proof.
  destruct (decide (sa_nodes a = [])) as [He|Hne].
  - rewrite Start_empty by done. apply alone_done. by apply Start_call_empty.
  - rewrite Start_eq by done. eapply alone_step; [by apply Start_call_eq|apply alone_begin].
Qed.

Lemma alone_tick c n saw past obs m :
  alone (TCall (OpRunNode c n (RnPoll saw) (EvTick past obs))) m
        (runNode_step c n (RnPoll saw) (EvTick past obs) m).1.
Proof.
  destruct (agentDriven (state c (n_Hostname n) m)) eqn:E.
  { apply alone_done. cbn. unfold tick_call. by rewrite E. }
  eapply alone_step; [cbn; unfold tick_call; by rewrite E|]. apply alone_done. cbn. rewrite E. unfold tick_step.
  destruct past; [done|]. destruct obs as [[]|]; try done. by destruct saw.
Qed.

Lemma alone_MergeSEL c h s m : alone (TCall (OpMergeSEL c h s)) m (MergeSEL c h s m).
Proof.
  unfold MergeSEL. destruct (ss_Phase s =? "ready")%string eqn:Ep.
  { case_bool_decide as Em.
    - eapply alone_step; [cbn; unfold MergeSEL_call; rewrite Ep, bool_decide_eq_true_2 by done; done|]. by apply alone_done.
    - apply alone_done. cbn. unfold MergeSEL_call. rewrite Ep, bool_decide_eq_false_2 by done. done. }
  destruct (decide (selState s = StateRaw "")) as [Ed|Ed].
  { apply alone_done. cbn. unfold MergeSEL_call. rewrite Ep, decide_True by done. done. }
  match goal with |- alone _ _ (if ?b then _ else _) => set (became := b) end.
  pose proof (alone_call (OpMergeSEL c h s) m
    (set c h (fun nd => (merge_node (selState s) (ss_Detail s) nd).1) m) c h
    (if became then [HVerify; HAuto; HRelease] else [])) as H.
  destruct became eqn:Eb; apply H; cbn; unfold MergeSEL_call; rewrite Ep, decide_False by done; subst became; by rewrite Eb.
Qed.

Lemma alone_run o m : alone (TCall o) m (run_op o m).
Proof.
  destruct o; try by apply alone_done.
  - pose proof (alone_call (OpReport c h st msg pf) m
      (set c h (fun nd => let nd := set_nd_Message msg (set_nd_State (State_of_string st) nd) in
                          match pf with Some l => set_nd_Preflight l nd | None => nd end) m) c h
      (if decide (State_of_string st = StateDone) then [HVerify] else [])) as H.
    cbn [run_op]. unfold Report. destruct (decide _) as [Hs|Hs]; apply H; cbn; unfold Report_call;
      [by rewrite decide_True|by rewrite decide_False].
  - eapply alone_step; [done|]. by apply alone_done.
  - by apply (alone_call (OpApplied c h) m _ c h [HRelease; HAuto]).
  - apply alone_MergeSEL.
  - destruct pc as [| | |saw]; try (by apply alone_done). destruct ev; try (by apply alone_done).
    apply alone_tick.
  - apply alone_Start.
Qed.

(** One section at a time loses nothing: run without another task in between, a
    call does to the manager what its handler's function does. *)
Theorem alone_op o m : alone (TCall o) m (run_op o m).
Proof. apply alone_run. Qed.

(** ** All tasks, interleaved *)

(** A task is between the sections of a call that looks at cluster [c] again:
    a [Start], or a handoff that will release the peers. *)
Definition midway (c : string) (t : task) : bool :=
  match t with
  | THandoff c' _ todo =>
      (c' =? c)%string && existsb (fun x => match x with HRelease => true | _ => false end) todo
  | TStart c' _ _ _ _ _ => (c' =? c)%string
  | _ => false
  end.

(** [Start] registers a cluster's new run while no such task is under way. *)
Definition apart (t : task) (others : list task) : bool :=
  match t with
  | TCall (OpStart c _ _ _) => forallb (fun u => negb (midway c u)) others
  | _ => true
  end.

(** [G] says which task may run next to which others. *)
Inductive cstep (P : Op → Prop) (G : task → list task → bool) : Manager * list task → Manager * list task → Prop :=
| cs_call m ts o : P o → cstep P G (m, ts) (m, ts ++ [TCall o])
| cs_run m l1 t l2 m' t' :
    G t (l1 ++ l2) = true → task_step t m = (m', t') →
    cstep P G (m, l1 ++ t :: l2) (m', l1 ++ option_list t' ++ l2).

(** [crun P G m0 past s]: [s] is reached from [m0] through the managers
    [past] (oldest first, the present one included). *)
Inductive crun (P : Op → Prop) (G : task → list task → bool) (m0 : Manager) :
  list Manager → Manager * list task → Prop :=
| crun_nil : crun P G m0 [m0] (m0, [])
| crun_step past s s' : crun P G m0 past s → cstep P G s s' → crun P G m0 (past ++ [s'.1]) s'.

(** ** What a task relies on *)

(** The master of [c]'s present run, if it is [h], has been done in this run. *)
Definition finished (past : list Manager) (c h : string) (m : Manager) : Prop :=
  ∀ d, m.(m_deploys) !! c = Some d → d.(d_Master) = h →
  ∃ m1 d1, m1 ∈ past ∧ m1.(m_deploys) !! c = Some d1 ∧ same_run d d1 ∧ master_done d1 = true.

Definition task_ok (past : list Manager) (m : Manager) (t : task) : Prop :=
  match t with
  | TCall o => no_release o
  | THandoff c h todo => HRelease ∈ todo → finished past c h m
  | TStart c a _ _ _ _ =>
      ∀ d, m.(m_deploys) !! c = Some d → d.(d_Manual) = a.(sa_manual) ∧ d.(d_Master) = a.(sa_master)
  | _ => True
  end.

(** [m'] goes on with the runs of [m] on the clusters in [K]. *)
Definition goes_on (K : string → Prop) (m m' : Manager) : Prop :=
  ∀ c d', K c → m'.(m_deploys) !! c = Some d' →
  ∃ d, m.(m_deploys) !! c = Some d ∧ same_run d' d.

Lemma goes_on_evolves R m m' : evolves R m m' → goes_on (fun _ => True) m m'.
Proof.
  intros Hev c d' _ Hd'. destruct (evolves_deploy _ _ _ _ _ Hev Hd') as (d & Hd & Hdd).
  exists d. split; [done|]. by eapply evolves_same_run.
Qed.

Lemma goes_on_refl K m : goes_on K m m.
Proof. intros c d _ Hd. exists d. split; [done|apply same_run_refl]. Qed.

Lemma earned_stay past m : all_earned past m → all_earned (past ++ [m]) m.
Proof.
  intros Hall c d h nd stage Hd Hn Hg.
  eapply earned_mono; [|apply same_run_refl|by eapply Hall]. set_solver.
Qed.

(** One section, from a manager whose ledgers are earned. *)
Section one_section.
Context (past : list Manager) (m : Manager).
Context (Hok : nodes_ok m) (Hin : m ∈ past) (Hall : all_earned past m).

(** What every section but a registration leaves. *)
Definition sound (m' : Manager) : Prop :=
  nodes_ok m' ∧ all_earned (past ++ [m']) m' ∧ goes_on (fun _ => True) m m'.

Lemma sound_ledger C m' :
  evolves (ledger C) m m' →
  (∀ c d' h stage, m'.(m_deploys) !! c = Some d' → C c h stage → earned (past ++ [m']) c h stage d') →
  sound m'.
Proof.
  intros Hev HC. split; [by eapply nodes_ok_evolves|].
  split; [by eapply earned_ledger|by eapply goes_on_evolves].
Qed.

Lemma sound_allowed m' : evolves (ledger (allowed m m')) m m' → sound m'.
Proof. intros Hev. eapply sound_ledger; [done|]. intros. by eapply allowed_earned. Qed.

Lemma sound_keeps m' : evolves keeps_gates m m' → sound m'.
Proof. intros Hev. by apply sound_allowed, keeps_ledger. Qed.

Lemma sound_tables m' :
  m'.(m_nodes) = m.(m_nodes) →
  (∀ c d, m'.(m_deploys) !! c = Some d → m.(m_deploys) !! c = Some d) → sound m'.
Proof.
  intros Hn Hd. split; [|split].
  - intros c byHost h n. rewrite Hn. apply Hok.
  - intros c d h nd stage Hc Hnd Hs.
    eapply earned_mono; [|apply same_run_refl|by eapply Hall; eauto]. set_solver.
  - intros c d _ Hc. exists d. split; [by apply Hd|apply same_run_refl].
Qed.

Lemma sound_set c h f :
  (∀ nd, nd_Gates (f nd) = nd_Gates nd) → sound (set c h f m).
Proof. intros Hf. apply sound_keeps, set_evolves; [apply keeps_gates_refl|]. intros nd _. apply Hf. Qed.

Lemma sound_hand c h x : (x = HRelease → finished past c h m) → sound (hand c h x m).
Proof.
  intros Hfin. destruct x; cbn [hand].
  - apply sound_keeps, maybeVerify_keeps.
  - set (m' := releasePeersOnMasterDone c h m).
    eapply (sound_ledger (fun c' p stage => c' = c ∧ stage = gateStageApply ∧ finished past c h m
      ∧ ∃ d, m.(m_deploys) !! c = Some d ∧ h = d.(d_Master) ∧ p ≠ h)).
    + apply release_ledger; [done|]. intros d p Hd -> Hp. eauto 10.
    + intros ? d' p ? Hd' (-> & -> & Hf & d & Hd & -> & Hp).
      destruct (Hf d Hd eq_refl) as (m1 & d1 & Hm1 & Hd1 & Hs & Hdone).
      assert (same_run d' d) as Hdd.
      { destruct (goes_on_evolves same_state m m' (release_same c _ m) c d' I Hd') as (d0 & Hd0 & ?).
        by simplify_eq. }
      right. exists m1, d1. split; [set_solver|]. split; [done|].
      split; [by eapply same_run_trans|]. unfold barrier. cbn.
      destruct Hs as (_ & Hma & _). rewrite Hma, decide_False by done. by right.
  - apply sound_allowed, auto_ledger; [done|]. by left.
Qed.

Lemma sound_tick c n saw past' obs : sound (tick_step c n saw past' obs m).
Proof.
  unfold tick_step, advance, fail. repeat case_match;
    first [ apply sound_set; intros nd; by repeat case_match
          | apply sound_keeps, evolves_refl, keeps_gates_refl ].
Qed.

Lemma sound_anchor c n id : sound (Start_anchor c n id m).
Proof.
  apply sound_keeps. eapply evolves_mono; [|apply Start_anchor_evolves].
  intros c' h x y [_ H]. exact H.
Qed.

(** The gates granted up front, in the run that the start registered. *)
Lemma sound_gates c a :
  (∀ d, m.(m_deploys) !! c = Some d → d.(d_Manual) = a.(sa_manual) ∧ d.(d_Master) = a.(sa_master)) →
  sound (Start_gates c a m).
Proof.
  intros Ha. unfold Start_gates. destruct (negb (m_has_gate m) || sa_manual a) eqn:E.
  { apply sound_keeps, evolves_refl, keeps_gates_refl. }
  to_prop. destruct E as [_ Hman].
  set (masterN := List.filter _ _).
  set (C := fun c' h stage => c' = c ∧ (stage = gateStageRestore ∨ stage = gateStageReboot
              ∨ (stage = gateStageApply ∧ h = a.(sa_master)))).
  set (m3 := authorizeGatesLocked c masterN _ _).
  assert (evolves (ledger C) m m3) as Hev.
  { subst m3. eapply ledger_chain; [eapply ledger_chain|];
      (eapply granted_ledger; [|apply authorize_evolves]); intros h Hh; (split; [done|]); auto.
    right; right. split; [done|]. apply list_elem_of_fmap in Hh as (n & -> & Hn).
    apply list_elem_of_In, filter_In in Hn as [_ Hn]. by to_prop. }
  apply (sound_ledger C).
  { eapply ledger_chain; [exact Hev|]. apply flush_evolves, ledger_refl. }
  intros c' d' h stage Hd' [-> Hst]. left.
  rewrite (proj1 (flush_deploys _ _ _)) in Hd'.
  destruct (evolves_deploy _ _ _ _ _ Hev Hd') as (d & Hd & Hdd). destruct (Ha _ Hd) as [Hm1 Hm2].
  unfold up_front. rewrite (ev_manual _ _ _ Hdd), (ev_master _ _ _ Hdd), Hm1, Hm2. done.
Qed.

(** Every section of [Start] after its registration. *)
Lemma sound_start c a anchor flip ref pc :
  task_ok past m (TStart c a anchor flip ref pc) → sound (start_step c a anchor flip ref pc m).1.
Proof.
  intros Ht. destruct pc as [[|n l]| | | |]; cbn [start_step fst].
  - apply sound_keeps, evolves_refl, keeps_gates_refl.
  - apply sound_anchor.
  - by apply sound_gates.
  - pose proof (flip_deploys (Some ref) (sa_image a) (deployArm m) flip (BootedDeploy c) m) as [Hd Hn].
    destruct (flipForBoot _ _ _ _ _ _) as [m' r]. cbn in *.
    apply sound_tables; [done|]. by rewrite Hd.
  - unfold Start_abort, cancel_ctx. cbn. destruct (m_deploys m !! c) as [d|]; [destruct (decide _)|];
      (apply sound_tables; [done|]); cbn; try done.
    intros c' d'. by rewrite lookup_delete_Some; intros [_ ?].
  - destruct (Start_spawn_deploys c a ref m) as [Hd Hn].
    apply sound_tables; [done|]. by rewrite Hd.
Qed.

(** ** The first section of a call *)

Lemma sound_op o : no_release o → is_start o = false → sound (run_op o m).
Proof. intros Hr Hs. by apply sound_allowed, op_ledger. Qed.

Lemma handoffs_ok past' m' c h l t' :
  (HRelease ∈ l → finished past' c h m') → handoffs c h l = Some t' → task_ok past' m' t'.
Proof. intros Hf. destruct l; [done|]. by intros [= <-]. Qed.

Lemma finished_now c h m' :
  (∀ nd, node_of c h m' = Some nd → nd.(nd_State) = StateDone) → finished (past ++ [m']) c h m'.
Proof.
  intros Hnd d Hd Hh. exists m', d. split; [set_solver|]. split; [done|].
  split; [apply same_run_refl|by eapply node_of_master_done].
Qed.

Lemma sound_call o :
  no_release o → is_start o = false →
  let '(m', t') := call_step o m in
  sound m' ∧ ∀ u, t' = Some u → task_ok (past ++ [m']) m' u.
Proof.
  intros Hr Hs. destruct o; try done;
    cbn [call_step]; unfold Applied_call, Report_call, RestoreDone_call, MergeSEL_call, tick_call;
    try (split; [by apply (sound_op _ Hr Hs)|by intros ? [= <-]]).
  - split; [apply sound_set; intros nd; by case_match|].
    intros u. case_decide; [|done]. apply handoffs_ok. set_solver.
  - split; [|by intros ? [= <-]]. apply sound_set. intros nd. unfold restore_done. by repeat case_match.
  - split; [by apply sound_set|]. intros u. apply handoffs_ok. intros _. apply finished_now.
    intros nd. rewrite set_node_of. by intros (x & _ & ->)%fmap_Some.
  - assert (sound m) as Hm by apply sound_keeps, evolves_refl, keeps_gates_refl.
    destruct (ss_Phase s =? "ready")%string; [split; [done|]; intros u; case_bool_decide; by intros [= <-]|].
    destruct (decide _); [done|]. split; [apply sound_set; intros; apply merge_node_keeps|].
    intros u. destruct (_ && _) eqn:E; [|done]. apply handoffs_ok. intros _. apply finished_now.
    intros nd. rewrite set_node_of. intros (x & Hx & ->)%fmap_Some.
    to_prop. destruct E as [_ E]. rewrite Hx in E. cbn. by apply merge_became_done.
  - assert (sound m) as Hm by apply sound_keeps, evolves_refl, keeps_gates_refl.
    destruct pc as [| | |saw]; try (split; [by apply (sound_op _ Hr Hs)|done]).
    destruct ev; try (split; [by apply (sound_op _ Hr Hs)|done]).
    split; [done|]. intros u. case_match; by intros [= <-].
Qed.

(** Registering a run of [c] leaves the other clusters' runs. *)
Lemma sound_register c a :
  let m' := (Start_register c a m).1 in
  nodes_ok m' ∧ all_earned (past ++ [m']) m' ∧ goes_on (fun c' => c' ≠ c) m m'
  ∧ ∀ d, m'.(m_deploys) !! c = Some d → d.(d_Manual) = a.(sa_manual) ∧ d.(d_Master) = a.(sa_master).
Proof.
  destruct (register_deploys c a m) as (Hd & Hn & _ & _).
  set (m' := (Start_register c a m).1) in *. split; [|split; [|split]].
  - intros c' byHost h n. rewrite Hn. intros [[<- <-]|[_ Hb]]%lookup_insert_Some Hl; [|by eapply Hok].
    by apply by_hostname_key in Hl as (n' & _ & Hh & <-).
  - intros c' d h nd stage. rewrite Hd. intros [[<- <-]|[_ Hc]]%lookup_insert_Some Hnd Hst.
    + cbn in Hnd. apply by_hostname_key in Hnd as (n' & _ & _ & <-). cbn in Hst. set_solver.
    + eapply earned_mono; [|apply same_run_refl|by eapply Hall; eauto]. set_solver.
  - intros c' d' Hc. rewrite Hd, lookup_insert_ne by done. intros Hd'. exists d'.
    split; [done|apply same_run_refl].
  - intros d. rewrite Hd, lookup_insert_eq. by intros [= <-].
Qed.
End one_section.

(** What a task relies on lasts while its cluster's run does. *)
Lemma task_ok_goes_on K past m m' t :
  goes_on K m m' → (∀ c, midway c t = true → K c) → task_ok past m t → task_ok (past ++ [m']) m' t.
Proof.
  intros Hgo HK Ht. destruct t as [o|c h s|c h todo|c h|c n saw p obs|c a anchor flip ref pc]; try done;
    cbn in Ht |- *.
  - intros Hrel d' Hd' Hh. destruct (Hgo c d') as (d & Hd & Hs); [|done|].
    { apply HK. cbn. rewrite String.eqb_refl. cbn. apply existsb_exists. exists HRelease.
      split; [by apply list_elem_of_In|done]. }
    destruct (Ht Hrel d Hd) as (m1 & d1 & Hm1 & Hd1 & Hs1 & Hdone).
    { destruct Hs as (_ & -> & _). done. }
    exists m1, d1. split; [set_solver|]. split; [done|]. split; [by eapply same_run_trans|done].
  - intros d' Hd'. destruct (Hgo c d') as (d & Hd & (_ & Hma & Hman & _)); [|done|].
    { apply HK. cbn. apply String.eqb_refl. }
    rewrite <- Hma, <- Hman. by apply Ht.
Qed.

#[local] Opaque Start_register Start_gates Start_abort Start_spawn.

Record conc_ok (past : list Manager) (s : Manager * list task) : Prop := mk_conc_ok {
  co_nodes : nodes_ok s.1;
  co_here : s.1 ∈ past;
  co_earned : all_earned past s.1;
  co_tasks : Forall (task_ok past s.1) s.2
}.

Lemma conc_ok_run past m l1 t l2 m' t' K :
  conc_ok past (m, l1 ++ t :: l2) →
  nodes_ok m' → all_earned (past ++ [m']) m' → goes_on K m m' →
  (∀ u c, u ∈ l1 ++ l2 → midway c u = true → K c) →
  (∀ u, t' = Some u → task_ok (past ++ [m']) m' u) →
  conc_ok (past ++ [m']) (m', l1 ++ option_list t' ++ l2).
Proof.
  intros [_ _ _ Hts] Hok Hall Hgo HK Hu. split; cbn; [done|set_solver|done|].
  apply Forall_app in Hts as [H1 H2]. apply Forall_cons in H2 as [_ H2].
  assert (∀ l, l ⊆ l1 ++ l2 → Forall (task_ok past m) l → Forall (task_ok (past ++ [m']) m') l) as Hl.
  { intros l Hsub. rewrite !Forall_forall. intros H u Hin. eapply task_ok_goes_on; [done| |by apply H].
    intros c. apply HK. by apply Hsub. }
  apply Forall_app. split; [apply Hl; [set_solver|done]|].
  apply Forall_app. split; [|apply Hl; [set_solver|done]].
  destruct t' as [u|]; cbn; [|done]. constructor; [by apply Hu|done].
Qed.

Definition registers (t : task) : bool := match t with TCall o => is_start o | _ => false end.

(** The sections that register no run. *)
Lemma sound_step past m t :
  nodes_ok m → m ∈ past → all_earned past m → task_ok past m t →
  registers t = false →
  sound past m (task_step t m).1
  ∧ ∀ u, (task_step t m).2 = Some u → task_ok (past ++ [(task_step t m).1]) (task_step t m).1 u.
Proof.
  intros Hok Hin Hall Ht Hs. destruct t as [o|c h s|c h todo|c h|c n saw p obs|c a anchor flip ref pc];
    cbn [task_step].
  - pose proof (sound_call past m Hok Hin Hall o Ht Hs) as H. by destruct (call_step o m).
  - split; [|done]. apply sound_keeps; try done. apply MarkReady_keeps.
  - destruct todo as [|x l]; cbn [fst snd].
    { split; [|done]. apply sound_keeps; try done. apply evolves_refl, keeps_gates_refl. }
    assert (sound past m (hand c h x m)) as Hx.
    { apply sound_hand; try done. intros ->. apply Ht. set_solver. }
    split; [done|]. intros u. apply handoffs_ok; try done. intros Hrel.
    refine (task_ok_goes_on (fun _ => True) past m _ (THandoff c h (x :: l)) _ _ Ht _); [apply Hx|done|].
    set_solver.
  - split; [|done]. cbn. case_match; (apply sound_keeps; try done);
      first [apply spawn_keeps|apply evolves_refl, keeps_gates_refl].
  - split; [|done]. by apply sound_tick.
  - pose proof (sound_start past m Hok Hin Hall c a anchor flip ref pc Ht) as Hx. split; [done|].
    intros u Hu. destruct Hx as (_ & _ & Hgo).
    assert (∃ pc', u = TStart c a anchor flip ref pc') as [pc' ->].
    { destruct pc as [[|n l]| | | |]; cbn in Hu;
        try (destruct (flipForBoot _ _ _ _ _ _) as [? []]; cbn in Hu); simplify_eq; eauto. }
    refine (task_ok_goes_on (fun _ => True) past m _ (TStart c a anchor flip ref pc') Hgo _ Ht). done.
Qed.

Lemma register_step c a anchor flip m :
  call_step (OpStart c a anchor flip) m = (m, None)
  ∨ ∃ pc, call_step (OpStart c a anchor flip) m
          = ((Start_register c a m).1, Some (TStart c a anchor flip (Start_register c a m).2 pc)).
Proof.
  destruct (decide (sa_nodes a = [])) as [He|Hne]; [left; by apply (Start_call_empty c a anchor flip m)|].
  right. eexists. by apply Start_call_eq.
Qed.

Lemma conc_ok_step past s s' :
  conc_ok past s → cstep no_release apart s s' → conc_ok (past ++ [s'.1]) s'.
Proof.
  intros Hc Hst. destruct Hst as [m ts o Ho|m l1 t l2 m' t' HG Ht].
  - destruct Hc as [Hok Hin Hall Hts]. cbn in *. split; cbn; [done|set_solver|by apply earned_stay|].
    apply Forall_app. split; [|by constructor]. rewrite Forall_forall in Hts |- *. intros u Hu.
    eapply task_ok_goes_on; [apply (goes_on_refl (fun _ => True))|done|by apply Hts].
  - pose proof Hc as [Hok Hin Hall Hts]. cbn in Hok, Hin, Hall, Hts |- *.
    apply Forall_app in Hts as [_ [Htok _]%Forall_cons].
    destruct (registers t) eqn:Hs; cycle 1.
    { destruct (sound_step past m t Hok Hin Hall Htok Hs) as [(H1 & H2 & H3) H4]. rewrite Ht in *.
      by eapply conc_ok_run. }
    destruct t as [o| | | | |]; try done. destruct o; try done. cbn [task_step] in Ht.
    destruct (register_step c a anchor flip m) as [He|[pc He]]; rewrite He in Ht; simplify_eq.
    { eapply (conc_ok_run _ _ _ _ _ _ _ (fun _ => True)); try done;
        [by apply earned_stay|apply goes_on_refl]. }
    destruct (sound_register past m Hok Hin Hall c a) as (H1 & H2 & H3 & H4).
    eapply conc_ok_run; [done..| |].
    + intros u c' Hu Hmid ->. cbn in HG. rewrite forallb_forall in HG.
      apply list_elem_of_In in Hu. apply HG in Hu. by rewrite Hmid in Hu.
    + by intros u [= <-].
Qed.

Lemma conc_stay past m ts : conc_ok past (m, ts) → conc_ok (past ++ [m]) (m, ts).
Proof.
  intros [Hok Hin Hall Hts]. cbn in *. split; cbn; [done|set_solver|by apply earned_stay|].
  eapply Forall_impl; [exact Hts|]. intros u. apply (task_ok_goes_on (fun _ => True)); [apply goes_on_refl|done].
Qed.

(** A call that comes in. *)
Lemma conc_arrive past m l1 l2 o :
  no_release o → conc_ok past (m, l1 ++ l2) → conc_ok past (m, l1 ++ TCall o :: l2).
Proof.
  intros Ho [Hok Hin Hall Hts]. split; cbn in *; [done..|]. apply Forall_app in Hts as [H1 H2].
  apply Forall_app. split; [done|]. by constructor.
Qed.

Lemma crun_ok m0 past s : idle m0 → crun no_release apart m0 past s → conc_ok past s.
Proof.
  intros [Hd Hn]. induction 1 as [|past s s' _ IH Hst]; [|by eapply conc_ok_step].
  split; cbn; [|set_solver| |done].
  - intros c byHost h n. by rewrite Hn, lookup_empty.
  - intros c d h nd stage. by rewrite Hd, lookup_empty.
Qed.

(** ** Schedules *)

(** The next thing to happen: a new call, or a section of the task at [i]. *)
Inductive move := MCall (o : Op) | MRun (i : nat).

Definition play1 (mv : move) (s : Manager * list task) : Manager * list task :=
  let '(m, ts) := s in
  match mv with
  | MCall o => (m, ts ++ [TCall o])
  | MRun i => match ts !! i with
              | Some t => let '(m', t') := task_step t m in
                          (m', take i ts ++ option_list t' ++ drop (S i) ts)
              | None => s
              end
  end.

(** [G] held at every section played, and every move played one. *)
Fixpoint fair (G : task → list task → bool) (l : list move) (s : Manager * list task) : bool :=
  match l with
  | [] => true
  | mv :: l =>
      match mv with
      | MCall _ => true
      | MRun i => match s.2 !! i with
                  | Some t => G t (take i s.2 ++ drop (S i) s.2)
                  | None => false
                  end
      end && fair G l (play1 mv s)
  end.

Definition play (l : list move) (s : Manager * list task) : Manager * list task :=
  foldl (fun s mv => play1 mv s) s l.

Fixpoint played (l : list move) (s : Manager * list task) : list Manager :=
  match l with [] => [] | mv :: l => let s' := play1 mv s in s'.1 :: played l s' end.

Lemma crun_play (P : Op → Prop) G m0 past s l :
  Forall (fun mv => match mv with MCall o => P o | MRun _ => True end) l → fair G l s = true →
  crun P G m0 past s → crun P G m0 (past ++ played l s) (play l s).
Proof.
  revert past s. induction l as [|mv l IH]; intros past s HP Hf Hr; cbn; [by rewrite app_nil_r|].
  apply Forall_cons in HP as [Ho HP]. cbn in Hf. apply andb_true_iff in Hf as [Hg Hf].
  replace (past ++ (play1 mv s).1 :: played l (play1 mv s))
    with ((past ++ [(play1 mv s).1]) ++ played l (play1 mv s)) by by rewrite <- app_assoc.
  apply IH; [done|done|]. eapply crun_step; [exact Hr|]. destruct s as [m ts]. cbn in Hg |- *.
  destruct mv as [o|i]; [by apply cs_call|]. destruct (ts !! i) as [t|] eqn:Hi; [|done].
  destruct (task_step t m) as [m' t'] eqn:Ht. rewrite <- (take_drop_middle ts i t) at 1 by done.
  by apply cs_run.
Qed.

(** ** The deploy order, with all tasks interleaved *)

(** Every gate in every node's ledger has been earned.  Whatever calls
    arrive (agent reports, SEL merges, operator actions, goroutine steps,
    restarts of a deploy, disk failures) and however their critical sections
    interleave, from an idle manager, without an operator's forced release, and
    as long as no [Start] of a cluster registers while another [Start] of it, or a
    handoff that will release its peers, is midway: a stage in a node's
    ledger was either granted up front by [Start] in automatic mode (restore
    and reboot for all, apply for the master), or its barrier held in an earlier
    state of this very run: restore, every node passed the fabric preflight;
    reboot, every node reached rebooting; apply for the master, every node
    checked in; apply for a peer, the master is done; set-ready, every node is
    done and the host is the master. *)
Theorem interleaved_gates m0 past s c d h nd stage :
  idle m0 → crun no_release apart m0 past s →
  s.1.(m_deploys) !! c = Some d → d.(d_Nodes) !! h = Some nd → stage ∈ nd.(nd_Gates) →
  up_front d h stage
  ∨ ∃ m1 d1, m1 ∈ past ∧ m1.(m_deploys) !! c = Some d1 ∧ same_run d d1
      ∧ barrier (fun d => fabricReadyLocked d m1) d1 h stage.
Proof. intros Hi Hr. exact (co_earned _ _ (crun_ok _ _ _ Hi Hr) c d h nd stage). Qed.

(** C3. Master first: with all tasks interleaved as above, a peer that may
    apply belongs to a run in which the master had finished before. *)
Theorem interleaved_master_first m0 past s c d h nd :
  idle m0 → crun no_release apart m0 past s →
  s.1.(m_deploys) !! c = Some d → d.(d_Nodes) !! h = Some nd →
  d.(d_Master) ≠ "" → is_Some (d.(d_Nodes) !! d.(d_Master)) → h ≠ d.(d_Master) →
  gateStageApply ∈ nd.(nd_Gates) →
  ∃ m1 d1 master, m1 ∈ past ∧ m1.(m_deploys) !! c = Some d1 ∧ d1.(d_ref) = d.(d_ref)
    ∧ d1.(d_Nodes) !! d.(d_Master) = Some master ∧ master.(nd_State) = StateDone.
Proof.
  intros Hi Hr Hd Hn Hma Hmn Hne Hg. eapply earned_apply; [|done..].
  by eapply (co_earned _ _ (crun_ok _ _ _ Hi Hr)).
Qed.

(** C4. set_ready last: with all tasks interleaved as above, only the master
    ever holds the set-ready gate, and every node of its run had finished
    before it was granted. *)
Theorem interleaved_setready m0 past s c d h nd :
  idle m0 → crun no_release apart m0 past s →
  s.1.(m_deploys) !! c = Some d → d.(d_Nodes) !! h = Some nd →
  gateStageSetReady ∈ nd.(nd_Gates) →
  h = d.(d_Master)
  ∧ ∃ m1 d1, m1 ∈ past ∧ m1.(m_deploys) !! c = Some d1 ∧ d1.(d_ref) = d.(d_ref)
      ∧ ∀ h', is_Some (d.(d_Nodes) !! h') →
          ∃ nd1, d1.(d_Nodes) !! h' = Some nd1 ∧ nd1.(nd_State) = StateDone.
Proof.
  intros Hi Hr Hd Hn Hg. eapply earned_setready. by eapply (co_earned _ _ (crun_ok _ _ _ Hi Hr)).
Qed.

(** ** Schedules of the demo cluster *)

Definition start_all (manual : bool) : list move := MCall (demo_start manual) :: replicate 7 (MRun 0).

(** The master is done; its handoff waits while the peer reports and a poll
    tick begins and ends, then the peer is released. *)
Definition conc_release : list move :=
  start_all false ++
  [MCall (OpApplied "c" "a"); MRun 0; MCall (OpPreflightReport "c" "b" demo_pf);
   MCall (OpRunNode "c" (demo_node "b") (RnPoll false) (EvTick false (Some StageImaging)));
   MRun 2; MRun 0; MRun 1; MRun 0].

Definition conc_ready : list move :=
  conc_release ++ [MRun 0; MCall (OpApplied "c" "b"); MRun 0; MRun 0; MRun 0].

Definition conc_at (l : list move) : Manager * list task := play l (demo_manager, []).
Definition conc_past (l : list move) : list Manager := demo_manager :: played l (demo_manager, []).

Definition releases (mv : move) : bool := match mv with MCall o => is_release o | MRun _ => false end.

Lemma conc_reached l :
  forallb (fun mv => negb (releases mv)) l && fair apart l (demo_manager, []) = true →
  crun no_release apart demo_manager (conc_past l) (conc_at l).
Proof.
  intros [Hr Hf]%andb_true_iff. rewrite forallb_forall in Hr.
  change (conc_past l) with ([demo_manager] ++ played l (demo_manager, [])).
  apply crun_play; [|done|apply crun_nil]. rewrite Forall_forall. intros [o|i] Hin; [|done].
  apply list_elem_of_In, Hr in Hin. by apply negb_true_iff in Hin.
Qed.

Lemma interleaved_gates_witness :
  ∃ d nd, (conc_at conc_release).1.(m_deploys) !! "c" = Some d
    ∧ d.(d_Nodes) !! "b" = Some nd ∧ gateStageApply ∈ nd.(nd_Gates)
    ∧ (up_front d "b" gateStageApply
       ∨ ∃ m1 d1, m1 ∈ conc_past conc_release ∧ m1.(m_deploys) !! "c" = Some d1 ∧ same_run d d1
           ∧ barrier (fun d => fabricReadyLocked d m1) d1 "b" gateStageApply).
Proof.
  destruct (holds_at_true "c" "b" (fun _ nd => contains nd.(nd_Gates) gateStageApply)
    (conc_at conc_release).1) as (d & nd & Hd & Hn & Hg); [vm_compute; reflexivity|].
  apply contains_true in Hg. exists d, nd. split; [exact Hd|]. split; [exact Hn|].
  split; [exact Hg|].
  eapply (interleaved_gates demo_manager _ _ "c"); [exact demo_idle| |exact Hd|exact Hn|exact Hg].
  apply conc_reached. vm_compute. reflexivity.
Defined.

Lemma interleaved_master_first_witness :
  ∃ d m1 d1 master, (conc_at conc_release).1.(m_deploys) !! "c" = Some d
    ∧ m1 ∈ conc_past conc_release ∧ m1.(m_deploys) !! "c" = Some d1 ∧ d1.(d_ref) = d.(d_ref)
    ∧ d1.(d_Nodes) !! d.(d_Master) = Some master ∧ master.(nd_State) = StateDone.
Proof.
  destruct (holds_at_true "c" "b" (fun d nd => contains nd.(nd_Gates) gateStageApply
      && bool_decide (d.(d_Master) = "a") && bool_decide (is_Some (d.(d_Nodes) !! "a")))
    (conc_at conc_release).1) as (d & nd & Hd & Hn & Hg); [vm_compute; reflexivity|].
  to_prop. destruct Hg as [[Hg Hma] Hmn].
  destruct (interleaved_master_first demo_manager (conc_past conc_release) (conc_at conc_release)
    "c" d "b" nd) as (m1 & d1 & master & H);
    [exact demo_idle| |exact Hd|exact Hn|by rewrite Hma|by rewrite Hma|by rewrite Hma|exact Hg|].
  - apply conc_reached. vm_compute. reflexivity.
  - exists d, m1, d1, master. split; [exact Hd|exact H].
Defined.

Lemma interleaved_setready_witness :
  ∃ d m1 d1, (conc_at conc_ready).1.(m_deploys) !! "c" = Some d
    ∧ d.(d_Master) = "a" ∧ m1 ∈ conc_past conc_ready ∧ m1.(m_deploys) !! "c" = Some d1
    ∧ ∃ nd1, d1.(d_Nodes) !! "b" = Some nd1 ∧ nd1.(nd_State) = StateDone.
Proof.
  destruct (holds_at_true "c" "a" (fun d nd => contains nd.(nd_Gates) gateStageSetReady
      && bool_decide (is_Some (d.(d_Nodes) !! "b"))) (conc_at conc_ready).1)
    as (d & nd & Hd & Hn & Hg); [vm_compute; reflexivity|].
  to_prop. destruct Hg as [Hg Hb].
  destruct (interleaved_setready demo_manager (conc_past conc_ready) (conc_at conc_ready)
    "c" d "a" nd) as (Hm & m1 & d1 & Hin & Hd1 & _ & H); [exact demo_idle| |exact Hd|exact Hn|exact Hg|].
  - apply conc_reached. vm_compute. reflexivity.
  - exists d, m1, d1. split; [exact Hd|]. split; [by rewrite <- Hm|]. split; [exact Hin|].
    split; [exact Hd1|]. apply H, Hb.
Defined.

(** ** Why [apart] is needed *)

(** [Applied] of the old run has set the master done when the operator starts
    the cluster again; its handoff then releases the peers of the new run,
    whose master is still pending. *)
Definition stale_handoff : list move :=
  start_all false ++
  [MCall (OpApplied "c" "a"); MRun 0; MCall (demo_start false); MRun 1; MRun 0].

Example stale_handoff_releases :
  holds_at "c" "b" (fun d nd =>
      contains nd.(nd_Gates) gateStageApply
      && bool_decide (d.(d_Master) = "a") && bool_decide (StateDone ∉ (nd_State ∘ snd <$> map_to_list d.(d_Nodes))))
    (conc_at stale_handoff).1 = true
  ∧ fair apart stale_handoff (demo_manager, []) = false.
Proof. split; vm_compute; reflexivity. Qed.

(** Two [Start]s of the cluster with different masters overlap: the first
    grants its master's apply to the run of the second, where it is a peer. *)
Definition other_start : Op :=
  OpStart "c" (mkStartArgs [demo_node "a"; demo_node "b"] "b" ["10.0.0.1"] false "img" false false)
    (fun _ => 7) demo_flip.

Definition two_starts : list move :=
  [MCall (demo_start false); MRun 0; MCall other_start; MRun 1] ++ replicate 4 (MRun 0).

Example two_starts_release :
  holds_at "c" "a" (fun d nd =>
      contains nd.(nd_Gates) gateStageApply && bool_decide (d.(d_Master) = "b")
      && bool_decide (StateDone ∉ (nd_State ∘ snd <$> map_to_list d.(d_Nodes))))
    (conc_at two_starts).1 = true
  ∧ fair apart two_starts (demo_manager, []) = false.
Proof. split; vm_compute; reflexivity. Qed.
