(* ===== verification/GateFlow.v ===== *)
(** * From the ledger to the node: the gates on the wire

    The manager's sections (OrchestratorConc.v), the writers they start
    ([flushGatesAsync], [reconcileGates], [stampEndpoint]), one client call at a
    time (BmcLock.v), the logs of the BMCs, and the records the nodes write
    themselves, interleaved in any order.  A gate that an agent finds in
    the log of its BMC is in the ledger of its node, and was earned: the
    barrier it stands for was reached in this run.  Three schedules show what the
    conditions on [Start] are for. *)
From stdpp Require Import functions.
From S2P Require Import Prelude GoStrings DeployModel SelCodec AgentSel GateWriter BmcLock Orchestrator OrchestratorFrames OrchestratorOps OrchestratorSafety OrchestratorStart DeployDemo OrchestratorConc.

Open Scope string_scope.
Open Scope list_scope.
Open Scope Z_scope.

(** ** What a writer may write *)

(** Every gate record [p] adds, whatever the BMC answers, is of a stage in [Q]. *)
Fixpoint adds_only {A} (Q : Z → Prop) (p : io A) : Prop :=
  match p with
  | Ret _ => True
  | Next c k =>
      match c with CAdd e => ∀ s, gate_of (Some e) = Some s → Q s | _ => True end
      ∧ ∀ x, adds_only Q (k x)
  end.

Lemma adds_only_mono {A} (Q R : Z → Prop) (p : io A) :
  (∀ s, Q s → R s) → adds_only Q p → adds_only R p.
Proof.
  intros HQ. induction p as [a|c k IH]; [done|]. intros [Hc Hk]. split; [|intros x; by apply IH].
  destruct c; auto.
Qed.

Lemma adds_only_bind {A D} Q (p : io A) (f : A → io D) :
  adds_only Q p → (∀ a, adds_only Q (f a)) → adds_only Q (p ≫= f).
Proof.
  intros Hp Hf. induction p as [a|c k IH]; [apply Hf|]. destruct Hp as [Hc Hk].
  split; [exact Hc|]. intros x. by apply IH.
Qed.

Lemma adds_only_wipe Q werr : adds_only Q (wipe_io werr).
Proof. unfold wipe_io. destruct (selFull _); [|done]. split; [done|]. by intros [e|rid]. Qed.

Lemma adds_only_missing (Q : Z → Prop) now l le :
  (∀ s, s ∈ l → Q s) → adds_only Q (add_missing_io now l le).
Proof.
  revert le. induction l as [|s l IH]; intros le Hl; [done|]. cbn [add_missing_io].
  split; [|intros [e|]; cbn].
  - intros s'. vm_compute (gate_of _). intros [= <-]. apply Hl. by left.
  - apply adds_only_bind; [apply adds_only_wipe|]. intros _. apply IH. intros x Hx. apply Hl. by right.
  - apply IH. intros x Hx. apply Hl. by right.
Qed.

Lemma adds_only_write (Q : Z → Prop) now ctx n i stages le :
  (∀ s, s ∈ stages → Q s) → adds_only Q (write_loop_io now ctx n i stages le).
Proof.
  intros HQ. revert i le. induction n as [|n IH]; intros i le; [done|]. cbn [write_loop_io].
  destruct (if 0 <? i then ctx i else None); [done|].
  apply adds_only_bind; [split; [done|]; by intros []|]. intros [g|present]; [apply IH|].
  cbv zeta. case_bool_decide; [done|]. destruct (i =? attempts); [done|].
  apply adds_only_bind; [|intros le'; apply IH]. apply adds_only_missing.
  intros s [Hs _]%(elem_of_missing stages present). by apply HQ.
Qed.

Definition job_stages (j : job) : list Z := match j with JGate _ _ _ l => l | _ => [] end.

Lemma job_adds (Q : Z → Prop) j : (∀ s, s ∈ job_stages j → Q s) → adds_only Q (job_io j).
Proof.
  destruct j as [now ctx [e|] [|s l]|[e|]|now [e|] ip port]; intros HQ; try done.
  - by apply adds_only_write.
  - split; [done|]. by intros [e|rid].
  - cbn [job_io dial_io write_endpoint_io]. split; [by vm_compute|].
    intros [err|]; cbn -[selFull]; [|done]. destruct (negb _); [done|].
    split; [done|]. intros [e|rid]; [done|]. split; [done|]. intros [e|]; [done|].
    split; [by vm_compute|done].
Qed.

(** ** What a log does with a call *)

(** A BMC shows the records that were added and not wiped. *)
Class SELStore (B : Type) `{SELLaws B} := {
  add_gates : ∀ e b s, s ∈ gates_in (sel_log (AddSELEntry e b).1) →
    s ∈ gates_in (sel_log b) ∨ gate_of (Some e) = Some s;
  reserve_keeps_log : ∀ b, sel_log (ReserveSEL b).1 = sel_log b;
  clear_drops : ∀ rid b s, s ∈ gates_in (sel_log (ClearSELCmd rid b).1) → s ∈ gates_in (sel_log b);
  clear_empties : ∀ rid b, (ClearSELCmd rid b).2 = None → sel_log (ClearSELCmd rid b).1 = []
}.

#[export] Instance MemBMC_store : SELStore MemBMC.
Proof.
  split.
  - intros e b s. assert (gate_of (Some (with_id (mb_next b) e)) = gate_of (Some e)) as Hw
      by by destruct e as [? ? [?|]].
    cbn -[gate_of]. case_match; [by left|]. cbn -[gate_of].
    rewrite gates_in_snoc, elem_of_app, Hw. intros [?|Hs]; [by left|right].
    destruct (gate_of (Some e)); [|set_solver]. by apply list_elem_of_singleton in Hs as ->.
  - done.
  - intros rid b s. cbn. by intros ?%not_elem_of_nil.
  - done.
Qed.

Lemma cmd_gates `{SELStore B} c (b : B) s :
  s ∈ gates_in (sel_log (do_cmd c b).1) →
  s ∈ gates_in (sel_log b) ∨ ∃ e, c = CAdd e ∧ gate_of (Some e) = Some s.
Proof.
  destruct c as [|e| |rid]; cbn [do_cmd].
  - rewrite get_keeps_log. by left.
  - intros [?|?]%add_gates; eauto.
  - rewrite reserve_keeps_log. by left.
  - intros ?%clear_drops. by left.
Qed.

Lemma ClearSEL_gates `{SELStore B} d (b : B) s :
  s ∈ gates_in (sel_log (ClearSEL d b).1) → s ∈ gates_in (sel_log b).
Proof.
  destruct d; [done|]. cbn. pose proof (reserve_keeps_log b) as Hr.
  destruct (ReserveSEL b) as [b' [e|rid]]; cbn in Hr |- *; [by rewrite Hr|].
  rewrite <- Hr. apply clear_drops.
Qed.

Lemma ClearSEL_done `{SELStore B} d (b : B) :
  (ClearSEL d b).2 = None → gates_in (sel_log (ClearSEL d b).1) = [].
Proof.
  destruct d; [done|]. cbn. destruct (ReserveSEL b) as [b' [e|rid]]; [done|].
  intros Hc. by rewrite clear_empties.
Qed.

(** ** What a section does to the ledgers *)

(** The runs of [m] go on, and no stage leaves a ledger. *)
Definition grows (m m' : Manager) : Prop :=
  m'.(m_nodes) = m.(m_nodes)
  ∧ ∀ c, is_Some (m'.(m_deploys) !! c) →
      is_Some (m.(m_deploys) !! c) ∧ ∀ h s, s ∈ gateSetLocked c h m → s ∈ gateSetLocked c h m'.

Lemma ledger_grows C m m' : evolves (ledger C) m m' → grows m m'.
Proof.
  intros Hev. split; [apply Hev|]. intros c [d' Hd'].
  destruct (evolves_deploy _ _ _ _ _ Hev Hd') as (d & Hd & Hdd). split; [by exists d|].
  intros h s. unfold gateSetLocked, node_of. rewrite Hd, Hd'. cbn.
  destruct (d_Nodes d !! h) as [nd|] eqn:Hn; [|by intros ?%not_elem_of_nil].
  destruct (proj2 (ev_dom _ _ _ Hdd h) ltac:(by exists nd)) as [nd' Hn']. rewrite Hn'.
  destruct (ev_nodes _ _ _ Hdd _ _ _ Hn Hn') as [(l & -> & _) _].
  unfold gateBytes. rewrite fmap_app, elem_of_app. by left.
Qed.

Lemma keeps_grows m m' : evolves keeps_gates m m' → grows m m'.
Proof. intros Hev. apply (ledger_grows (fun _ _ _ => True)). by apply keeps_ledger. Qed.

Lemma tables_grow m m' :
  m'.(m_nodes) = m.(m_nodes) → (∀ c d, m'.(m_deploys) !! c = Some d → m.(m_deploys) !! c = Some d) →
  grows m m'.
Proof.
  intros Hn Hd. split; [done|]. intros c [d Hc]. pose proof (Hd _ _ Hc) as Hc'.
  split; [by exists d|]. intros h s. unfold gateSetLocked, node_of. by rewrite Hc, Hc'.
Qed.

Lemma grows_refl m : grows m m.
Proof. by apply tables_grow. Qed.

Lemma set_grows c h f m : (∀ nd, nd_Gates (f nd) = nd_Gates nd) → grows m (set c h f m).
Proof. intros Hf. apply keeps_grows, set_evolves; [apply keeps_gates_refl|]. intros nd _. apply Hf. Qed.

Lemma hand_grows c h x m : nodes_ok m → grows m (hand c h x m).
Proof.
  intros Hok. destruct x; cbn [hand].
  - apply keeps_grows, maybeVerify_keeps.
  - apply (ledger_grows (fun _ _ _ => True)). by apply release_ledger.
  - apply (ledger_grows (fun _ _ _ => True)). by apply auto_ledger.
Qed.

Lemma Start_gates_grows c a m : grows m (Start_gates c a m).
Proof.
  unfold Start_gates. case_match; [apply grows_refl|].
  set (masterN := List.filter _ _). set (m3 := authorizeGatesLocked c masterN _ _).
  apply (ledger_grows (fun _ _ _ => True)). apply (ledger_chain _ m m3).
  - subst m3. do 2 (eapply ledger_chain; [|by eapply granted_ledger; [|apply authorize_evolves]]).
    by eapply granted_ledger; [|apply authorize_evolves].
  - apply flush_evolves, ledger_refl.
Qed.

Lemma start_grows c a anchor flip ref pc m : grows m (start_step c a anchor flip ref pc m).1.
Proof.
  destruct pc as [[|n l]| | | |]; cbn [start_step fst].
  - apply grows_refl.
  - apply keeps_grows. eapply evolves_mono; [|apply Start_anchor_evolves].
    intros c' h x y [_ Hk]. exact Hk.
  - apply Start_gates_grows.
  - pose proof (flip_deploys (Some ref) (sa_image a) (deployArm m) flip (BootedDeploy c) m) as [Hd Hn].
    destruct (flipForBoot _ _ _ _ _ _) as [m' r]. cbn in *. apply tables_grow; [done|]. by rewrite Hd.
  - unfold Start_abort, cancel_ctx. cbn. destruct (m_deploys m !! c) as [d|]; [destruct (decide _)|];
      (apply tables_grow; [done|]); cbn; try done.
    intros c' d'. by rewrite lookup_delete_Some; intros [_ ?].
  - destruct (Start_spawn_deploys c a ref m) as [Hd Hn]. apply tables_grow; [done|]. by rewrite Hd.
Qed.

Lemma call_grows o m :
  nodes_ok m → no_release o → is_start o = false → grows m (call_step o m).1.
Proof.
  intros Hok Hr Hs.
  assert (grows m (run_op o m)) as Hop by (eapply ledger_grows; by apply op_ledger).
  destruct o; try done; try exact Hop; cbn [call_step].
  - apply set_grows. intros nd. by case_match.
  - apply set_grows. intros nd. unfold restore_done. by repeat case_match.
  - by apply set_grows.
  - unfold MergeSEL_call. destruct (ss_Phase s =? "ready")%string; [apply grows_refl|].
    destruct (decide _); [apply grows_refl|]. apply set_grows. intros nd. apply merge_node_keeps.
  - destruct pc as [| | |saw]; try exact Hop. destruct ev; try exact Hop. apply grows_refl.
Qed.

(** Every section but a registration. *)
Lemma section_grows t m :
  nodes_ok m → match t with TCall o => no_release o | _ => True end → registers t = false →
  grows m (task_step t m).1.
Proof.
  intros Hok Hr Hs. destruct t as [o|c h s|c h [|x l]|c h|c n saw p obs|c a anchor flip ref pc]; cbn [task_step fst].
  - by apply call_grows.
  - apply keeps_grows, MarkReady_keeps.
  - apply grows_refl.
  - by apply hand_grows.
  - case_match; [apply keeps_grows, spawn_keeps|apply grows_refl].
  - unfold tick_step, advance, fail.
    repeat case_match; first [apply set_grows; intros nd; by repeat case_match|apply grows_refl].
  - apply start_grows.
Qed.

(** ** What it starts *)

(** New flushes are of nodes of the cluster, for stages of their ledgers. *)
Definition flush_ok (m : Manager) (j : Job) : Prop :=
  match j with
  | JFlushGates c n st =>
      nodes_of c m !! n.(n_Hostname) = Some n ∧ ∀ s, s ∈ st → s ∈ gateSetLocked c n.(n_Hostname) m
  | _ => True
  end.

Definition starts (m m' : Manager) : Prop :=
  ∃ new, m'.(m_jobs) = m.(m_jobs) ++ new ∧ Forall (flush_ok m') new.

Lemma starts_none m m' : m'.(m_jobs) = m.(m_jobs) → starts m m'.
Proof. intros Hj. exists []. rewrite Hj, app_nil_r. done. Qed.

Lemma starts_spawn m m' j :
  m'.(m_jobs) = m.(m_jobs) ++ [j] → match j with JFlushGates _ _ _ => False | _ => True end → starts m m'.
Proof. intros Hj Hn. exists [j]. split; [done|]. constructor; [|done]. by destruct j. Qed.

Lemma authorize_frame c targets stage m :
  (authorizeGatesLocked c targets stage m).(m_jobs) = m.(m_jobs)
  ∧ (authorizeGatesLocked c targets stage m).(m_nodes) = m.(m_nodes)
  ∧ (authorizeGatesLocked c targets stage m).(m_has_gate) = m.(m_has_gate).
Proof. unfold authorizeGatesLocked. by case_match. Qed.

Lemma flush_starts c targets m0 m :
  m.(m_jobs) = m0.(m_jobs) → (∀ n, n ∈ targets → nodes_of c m !! n.(n_Hostname) = Some n) →
  starts m0 (flushGatesAsync c targets m).
Proof.
  intros Hj Ht. unfold flushGatesAsync. case_match; [by apply starts_none|].
  destruct (m_deploys m !! c) as [d|] eqn:Hd; [|by apply starts_none].
  exists (flush_jobs c targets d). split; [cbn; by rewrite Hj|]. apply Forall_forall. intros j Hin.
  unfold flush_jobs in Hin. apply list_elem_of_omap in Hin as (n & Hn & Hs).
  destruct (d_Nodes d !! n_Hostname n) as [nd|] eqn:Hnd; [|done]. case_bool_decide; [done|].
  injection Hs as <-. split; [by apply Ht|]. intros s. unfold gateSetLocked, node_of. cbn [m_deploys set_m_jobs]. rewrite Hd. cbn. by rewrite Hnd.
Qed.

Lemma writeGos_starts c targets stage m0 m :
  m.(m_jobs) = m0.(m_jobs) → (∀ n, n ∈ targets → nodes_of c m !! n.(n_Hostname) = Some n) →
  starts m0 (writeGosAsync c targets stage m).
Proof.
  intros Hj Ht. unfold writeGosAsync. destruct (authorize_frame c targets stage m) as (H1 & H2 & _).
  apply flush_starts; [congruence|]. intros n Hn. unfold nodes_of. rewrite H2. by apply Ht.
Qed.

(** The targets a gate goes to are the cluster's nodes. *)
Lemma table_node c m h n :
  nodes_ok m → nodes_of c m !! h = Some n → nodes_of c m !! n.(n_Hostname) = Some n.
Proof.
  intros Hok Hn. unfold nodes_of in *. destruct (m_nodes m !! c) as [by_|] eqn:Hb; [|done].
  cbn in *. by rewrite (Hok c by_ h n Hb Hn).
Qed.

Lemma gateTargets_nodes c w m n :
  nodes_ok m → n ∈ gateTargetsLocked c w m → nodes_of c m !! n.(n_Hostname) = Some n.
Proof.
  intros Hok. unfold gateTargetsLocked. destruct (m_nodes m !! c) as [by_|] eqn:Hb; [|by intros ?%not_elem_of_nil].
  destruct (m_deploys m !! c); [|by intros ?%not_elem_of_nil].
  intros ([h x] & Hin%elem_of_map_to_list & Hx)%list_elem_of_omap. apply (table_node c m h); [done|].
  unfold nodes_of. rewrite Hb. cbn in *. by destruct w; repeat case_decide; simplify_eq.
Qed.

Lemma hand_starts c h x m : nodes_ok m → starts m (hand c h x m).
Proof.
  intros Hok. destruct x; cbn [hand].
  - unfold maybeVerifyCluster. repeat case_match; try by apply starts_none. by eapply starts_spawn.
  - unfold releasePeersOnMasterDone. repeat case_match; try by apply starts_none.
    apply writeGos_starts; [done|]. intros n ([h' x] & Hin%elem_of_map_to_list & Hx)%list_elem_of_omap.
    apply (table_node c m h'); [done|]. cbn in *. by case_decide; simplify_eq.
  - unfold maybeAutoSetReady. repeat case_match; try by apply starts_none.
    apply writeGos_starts; [done|]. intros n. by apply gateTargets_nodes.
Qed.

Lemma AdvanceStep_starts c m : nodes_ok m → starts m (AdvanceStep c m).1.
Proof.
  intros Hok. unfold AdvanceStep. destruct (m_deploys m !! c) as [d|]; [|by apply starts_none].
  repeat (case_match; [by apply starts_none|]). cbn [fst].
  set (d' := set_d_ManualStep _ _). set (m1 := persistLocked d' _).
  unfold step_gos. repeat case_match; try (by apply starts_none);
    (apply writeGos_starts; [done|]); intros n; by apply gateTargets_nodes.
Qed.

(** Handlers that start nothing. *)
Ltac no_jobs :=
  apply starts_none; cbn [fst]; repeat (case_match; simplify_eq/=); cbn [fst]; rewrite ?set_jobs; done.

Lemma GetSetReady_jobs c m : (GetSetReady c m).1.(m_jobs) = m.(m_jobs).
Proof. unfold GetSetReady. by repeat case_match; simplify_eq/=. Qed.

Lemma MarkReady_jobs c ok msg m : (MarkReady c ok msg m).(m_jobs) = m.(m_jobs).
Proof. unfold MarkReady. cbn. by case_match. Qed.

Lemma runNode_step_jobs c n pc ev m : (runNode_step c n pc ev m).1.(m_jobs) = m.(m_jobs).
Proof.
  unfold runNode_step, advance, fail.
  by repeat (case_match; simplify_eq/=); rewrite ?set_jobs.
Qed.

Lemma call_starts o m :
  nodes_ok m → no_release o → is_start o = false → starts m (call_step o m).1.
Proof.
  intros Hok Hr Hs. destruct o; try done; cbn [call_step run_op fst];
    try (unfold PreflightReport, PreflightFail, PreflightProgress, RekickPreflight, GreenLight1, CheckIn,
           ApplyStarted, WaitForMaster, ApplyFailed, SubmitSetReady, ackGates, verify_done, runNode_start,
           advance, Cancel, StopAll, set_env, Report_call, RestoreDone_call, Applied_call; no_jobs).
  - unfold MergeSEL_call. no_jobs.
  - apply starts_none, MarkReady_jobs.
  - apply starts_none, GetSetReady_jobs.
  - assert (starts m (runNode_step c n pc ev m).1) as Hrun by apply starts_none, runNode_step_jobs.
    destruct pc as [| | |saw]; try exact Hrun. destruct ev; try exact Hrun. by apply starts_none.
  - by apply AdvanceStep_starts.
Qed.

(** The nodes a start registered, each under its own name. *)
Definition started_nodes (m : Manager) (t : task) : Prop :=
  match t with
  | TStart c a _ _ _ _ =>
      m.(m_nodes) !! c = Some (by_hostname (fun n => n) a.(sa_nodes)) ∧ NoDup (n_Hostname <$> a.(sa_nodes))
  | _ => True
  end.

Lemma by_hostname_own nodes n :
  NoDup (n_Hostname <$> nodes) → n ∈ nodes → by_hostname (fun n => n) nodes !! n.(n_Hostname) = Some n.
Proof.
  intros Hnd Hn. unfold by_hostname.
  assert (∀ acc : gmap string Node, n ∈ nodes ∨ acc !! n_Hostname n = Some n ∧ n_Hostname n ∉ n_Hostname <$> nodes →
    foldl (fun acc n => <[n_Hostname n := n]> acc) acc nodes !! n_Hostname n = Some n) as H; [|by apply H; left].
  clear Hn. induction nodes as [|x nodes IH]; intros acc Hn; cbn.
  { by destruct Hn as [?%not_elem_of_nil|[? _]]. }
  apply NoDup_cons in Hnd as [Hx Hnd]. apply (IH Hnd). destruct Hn as [[-> |Hn]%elem_of_cons|[Ha Hn]].
  - right. split; [apply lookup_insert_eq|done].
  - by left.
  - apply not_elem_of_cons in Hn as [Hne Hn]. right. split; [by rewrite lookup_insert_ne|done].
Qed.

Definition plain (j : Job) : Prop := match j with JFlushGates _ _ _ => False | _ => True end.

Lemma starts_plain m m' l : m'.(m_jobs) = m.(m_jobs) ++ l → Forall plain l → starts m m'.
Proof. intros Hj Hl. exists l. split; [done|]. eapply Forall_impl; [exact Hl|]. by intros []. Qed.

Lemma Start_spawn_starts c a ref m : starts m (Start_spawn c a ref m).
Proof.
  unfold Start_spawn. set (m1 := foldl _ m _).
  assert (m_jobs m1 = m_jobs m ++ ((fun n => JRunNode c n ref RnPreflight) <$> sa_nodes a)) as H1.
  { subst m1. revert m. induction (sa_nodes a) as [|n l IH]; intros m; cbn; [by rewrite app_nil_r|].
    rewrite IH. cbn. by rewrite <- app_assoc. }
  set (runs := _ <$> _) in H1. assert (Forall plain runs) as H2.
  { apply Forall_forall. by intros j (n & -> & _)%list_elem_of_fmap. }
  clearbody m1 runs. cbv zeta.
  destruct (m_has_sel m1); cbn [m_has_gate spawn set_m_jobs]; destruct (m_has_gate m1);
    (eapply starts_plain; [cbn; by rewrite H1, <- ?app_assoc|]); try done;
    (apply Forall_app; split; [done|]); by repeat constructor.
Qed.

Lemma start_starts c a anchor flip ref pc m :
  started_nodes m (TStart c a anchor flip ref pc) → starts m (start_step c a anchor flip ref pc m).1.
Proof.
  intros [Hn Hnd]. destruct pc as [[|n l]| | | |]; cbn [start_step fst].
  - by apply starts_none.
  - unfold Start_anchor. no_jobs.
  - unfold Start_gates. case_match; [by apply starts_none|].
    destruct (authorize_frame c (sa_nodes a) gateStageRestore m) as (H1 & H2 & _).
    set (m1 := authorizeGatesLocked c (sa_nodes a) gateStageRestore m) in *.
    destruct (authorize_frame c (sa_nodes a) gateStageReboot m1) as (H3 & H4 & _).
    set (m2 := authorizeGatesLocked c (sa_nodes a) gateStageReboot m1) in *.
    set (masters := List.filter _ _).
    destruct (authorize_frame c masters gateStageApply m2) as (H5 & H6 & _).
    apply flush_starts; [congruence|]. intros n Hin. unfold nodes_of. rewrite H6, H4, H2, Hn. cbn.
    by apply by_hostname_own.
  - unfold flipForBoot. repeat case_match; simplify_eq/=; try by apply starts_none. by eapply starts_spawn.
  - unfold Start_abort, cancel_ctx. no_jobs.
  - apply Start_spawn_starts.
Qed.

Lemma section_starts t m :
  nodes_ok m → started_nodes m t → match t with TCall o => no_release o | _ => True end → registers t = false →
  starts m (task_step t m).1.
Proof.
  intros Hok Hst Hr Hs. destruct t as [o|c h s|c h [|x l]|c h|c n saw p obs|c a anchor flip ref pc]; cbn [task_step fst].
  - by apply call_starts.
  - apply starts_none, MarkReady_jobs.
  - by apply starts_none.
  - by apply hand_starts.
  - case_match; [by eapply starts_spawn|by apply starts_none].
  - unfold tick_step, advance, fail. no_jobs.
  - by apply start_starts.
Qed.

(** ** The whole system *)

(** [fw_wire]: the programs of the writers under way, each with its BMC's
    address.  [fw_clean] only records which BMCs the present runs have wiped. *)
Record Flow (B : Type) : Type := mkFlow {
  fw_m : Manager;
  fw_tasks : list task;
  fw_bmc : string → B;
  fw_wire : list (string * io (option ipmi_error));
  fw_clean : gset string
}.
Arguments mkFlow {B}.
Arguments fw_m {B}.
Arguments fw_tasks {B}.
Arguments fw_bmc {B}.
Arguments fw_wire {B}.
Arguments fw_clean {B}.

(** What a writer meets: the clock, its context, the dial. *)
Record env : Type := mkEnv {
  ev_now : string;
  ev_ctx : Node → Z → option ipmi_error;
  ev_dial : Node → option ipmi_error
}.

Definition writer (e : env) (n : Node) (stages : list Z) : string * io (option ipmi_error) :=
  (n.(n_BMCAddress), job_io (JGate e.(ev_now) (e.(ev_ctx) n) (e.(ev_dial) n) stages)).

Inductive fmove :=
| FCall (o : Op)                                        (** a call comes in *)
| FRun (i : nat) (e : env) (dialled : option ipmi_error)   (** a section of the task at [i] *)
| FWrite (j : nat)                                      (** a client call of the writer at [j] *)
| FReconcile (c : string) (ctx : nat) (e : env)         (** a tick of [runGateReconciler] *)
| FStamp (n : Node) (e : env)                           (** [runNode] stamps the endpoint *)
| FAgent (a : string) (r : SEL).                        (** a node writes to its own log *)

(** The goroutines of [flushGatesAsync] among the jobs a section appended. *)
Definition flushes (e : env) (m m' : Manager) : list (string * io (option ipmi_error)) :=
  omap (fun j => match j with JFlushGates _ n st => Some (writer e n st) | _ => None end)
    (drop (length m.(m_jobs)) m'.(m_jobs)).

(** A tick of the reconciler of [c] that runs under [ctx], if there is one and it
    has not been cancelled. *)
Definition runGateReconciler (c : string) (ctx : nat) (e : env) (m : Manager) :
    option (list (string * io (option ipmi_error))) :=
  if existsb (fun j => match j with JReconcile c' x => (c' =? c)%string && (x =? ctx)%nat | _ => false end) m.(m_jobs)
     && negb (bool_decide (ctx ∈ m.(m_cancelled)))
  then Some ((fun nt => writer e nt.1 nt.2) <$> reconcile_targets c m)
  else None.

(** The node whose log [Start] wipes before it reads the anchor. *)
Definition clearing (t : task) : option Node :=
  match t with TStart _ _ _ _ _ (SAnchor (n :: _)) => Some n | _ => None end.

Definition registering (t : task) : option (string * StartArgs) :=
  match t with
  | TCall (OpStart c a _ _) => match a.(sa_nodes) with [] => None | _ => Some (c, a) end
  | _ => None
  end.

Definition addresses (l : list Node) : list string := n_BMCAddress <$> l.

Section Flow.
Context {B : Type} `{SELStore B}.

(** The wipe, and which BMCs are known to be wiped for the present runs. *)
Definition wipe (t : task) (dialled : option ipmi_error) (f : Flow B) : (string → B) * gset string :=
  match clearing t, registering t with
  | Some n, _ =>
      if f.(fw_m).(m_has_gate) then
        let '(b, r) := ClearSEL dialled (f.(fw_bmc) n.(n_BMCAddress)) in
        (<[n.(n_BMCAddress) := b]> f.(fw_bmc),
         match r with None => {[n.(n_BMCAddress)]} ∪ f.(fw_clean) | Some _ => f.(fw_clean) end)
      else (f.(fw_bmc), f.(fw_clean))
  | None, Some (_, a) => (f.(fw_bmc), f.(fw_clean) ∖ list_to_set (addresses a.(sa_nodes)))
  | None, None => (f.(fw_bmc), f.(fw_clean))
  end.

Definition fmove1 (mv : fmove) (f : Flow B) : option (Flow B) :=
  let '(mkFlow m ts bmc wire clean) := f in
  match mv with
  | FCall o => Some (mkFlow m (ts ++ [TCall o]) bmc wire clean)
  | FRun i e d =>
      t ← ts !! i;
      let '(bmc, clean) := wipe t d f in
      let '(m', t') := task_step t m in
      Some (mkFlow m' (take i ts ++ option_list t' ++ drop (S i) ts) bmc (wire ++ flushes e m m') clean)
  | FWrite j =>
      '(a, p) ← wire !! j;
      match p with
      | Ret _ => None
      | Next c k => let '(b, x) := do_cmd c (bmc a) in
                    Some (mkFlow m ts (<[a := b]> bmc) (<[j := (a, k x)]> wire) clean)
      end
  | FReconcile c ctx e =>
      new ← runGateReconciler c ctx e m;
      Some (mkFlow m ts bmc (wire ++ new) clean)
  | FStamp n e =>
      if stampEndpoint m
      then Some (mkFlow m ts bmc
                   (wire ++ [(n.(n_BMCAddress), job_io (JEndpoint e.(ev_now) (e.(ev_dial) n) m.(m_advertiseIP) m.(m_advertisePort)))])
                   clean)
      else None
  | FAgent a r => Some (mkFlow m ts (<[a := (AddSELEntry r (bmc a)).1]> bmc) wire clean)
  end.

(** The BMCs of the other clusters that have nodes. *)
Definition elsewhere (c : string) (m : Manager) : list string :=
  map_to_list m.(m_nodes) ≫= fun cb => if decide (cb.1 = c) then [] else addresses (snd <$> map_to_list cb.2).

(** The BMCs that a writer under way has calls for. *)
Definition busy (wire : list (string * io (option ipmi_error))) : list string :=
  omap (fun w => match w.2 with Next _ _ => Some w.1 | Ret _ => None end) wire.

(** A start meets quiet BMCs of its own: no writer is under way to one of
    them, no other cluster has one of them, and its nodes have one each. *)
Definition quiet (c : string) (a : StartArgs) (f : Flow B) : bool :=
  bool_decide (NoDup (n_Hostname <$> a.(sa_nodes)))
  && bool_decide (NoDup (addresses a.(sa_nodes)))
  && forallb (fun x => negb (contains (elsewhere c f.(fw_m)) x) && negb (contains (busy f.(fw_wire)) x))
       (addresses a.(sa_nodes)).

(** The moves the theorem is about. *)
Definition proper_move (mv : fmove) (f : Flow B) : bool :=
  match mv with
  | FCall o => negb (is_release o)
  | FRun i _ _ =>
      match f.(fw_tasks) !! i with
      | Some t => apart t (take i f.(fw_tasks) ++ drop (S i) f.(fw_tasks))
                  && match registering t with Some (c, a) => quiet c a f | None => true end
      | None => false
      end
  | FAgent _ r => negb (bool_decide (is_Some (gate_of (Some r))))
  | _ => true
  end.

(** A schedule: its end, the managers on the way, and whether it was proper. *)
Fixpoint flow (l : list fmove) (f : Flow B) : option (Flow B) :=
  match l with [] => Some f | mv :: l => f ← fmove1 mv f; flow l f end.

Fixpoint seen (l : list fmove) (f : Flow B) : list Manager :=
  match l with
  | [] => []
  | mv :: l => match fmove1 mv f with Some f => f.(fw_m) :: seen l f | None => [] end
  end.

Fixpoint proper (l : list fmove) (f : Flow B) : bool :=
  match l with
  | [] => true
  | mv :: l => proper_move mv f && match fmove1 mv f with Some f => proper l f | None => false end
  end.

Definition begin_flow (m0 : Manager) (bmc : string → B) : Flow B := mkFlow m0 [] bmc [] ∅.
End Flow.

(** ** What holds along every proper schedule *)

(** Host [h] of cluster [c] has the BMC at [a]. *)
Definition at_bmc (m : Manager) (a c h : string) : Prop :=
  ∃ n, nodes_of c m !! h = Some n ∧ n.(n_BMCAddress) = a.

Definition deploying (m : Manager) (c : string) : Prop := is_Some (m.(m_deploys) !! c).

Section Invariant.
Context {B : Type} `{SELStore B}.
Implicit Type f : Flow B.

Record flow_ok (past : list Manager) f : Prop := mk_flow_ok {
  fo_conc : conc_ok past (f.(fw_m), f.(fw_tasks));
  fo_own : ∀ a c h c' h', at_bmc f.(fw_m) a c h → at_bmc f.(fw_m) a c' h' → c = c' ∧ h = h';
  fo_log : ∀ a c h s, a ∈ f.(fw_clean) → at_bmc f.(fw_m) a c h → deploying f.(fw_m) c →
    s ∈ gates_in (sel_log (f.(fw_bmc) a)) → s ∈ gateSetLocked c h f.(fw_m);
  fo_wire : ∀ a p c h, (a, p) ∈ f.(fw_wire) → at_bmc f.(fw_m) a c h → deploying f.(fw_m) c →
    adds_only (fun s => s ∈ gateSetLocked c h f.(fw_m)) p;
  fo_started : Forall (started_nodes f.(fw_m)) f.(fw_tasks)
}.

Lemma at_bmc_nodes m m' a c h : m'.(m_nodes) = m.(m_nodes) → at_bmc m' a c h ↔ at_bmc m a c h.
Proof. intros Hn. unfold at_bmc, nodes_of. by rewrite Hn. Qed.

(** The wipe only takes records away. *)
Lemma wipe_gates t d f a s :
  s ∈ gates_in (sel_log ((wipe t d f).1 a)) → s ∈ gates_in (sel_log (f.(fw_bmc) a)).
Proof.
  unfold wipe. destruct (clearing t) as [n|]; [|by destruct (registering t) as [[]|]].
  destruct (m_has_gate _); [|done]. destruct (ClearSEL d _) as [b r] eqn:Hc. cbn.
  destruct (decide (a = n_BMCAddress n)) as [-> |Hne].
  - rewrite fn_lookup_insert. change b with (b, r).1. rewrite <- Hc. apply ClearSEL_gates.
  - by rewrite fn_lookup_insert_ne.
Qed.

(** A BMC that becomes clean holds no gate. *)
Lemma wipe_clean t d f a s :
  a ∈ (wipe t d f).2 → s ∈ gates_in (sel_log ((wipe t d f).1 a)) → a ∈ f.(fw_clean).
Proof.
  unfold wipe. destruct (clearing t) as [n|]; [|destruct (registering t) as [[]|]; cbn; set_solver].
  destruct (m_has_gate _); [|done]. destruct (ClearSEL d _) as [b [e|]] eqn:Hc; cbn; [done|].
  destruct (decide (a = n_BMCAddress n)) as [-> |Hne]; [|set_solver].
  rewrite fn_lookup_insert. pose proof (ClearSEL_done d (fw_bmc f (n_BMCAddress n))) as Hd.
  rewrite Hc in Hd. cbn in Hd. rewrite Hd by done. by intros _ ?%not_elem_of_nil.
Qed.

(** The writers a section starts carry its ledgers. *)
Lemma flushes_ok e m m' a p c h :
  starts m m' → (a, p) ∈ flushes e m m' →
  (∀ a c h c' h', at_bmc m' a c h → at_bmc m' a c' h' → c = c' ∧ h = h') → at_bmc m' a c h →
  adds_only (fun s => s ∈ gateSetLocked c h m') p.
Proof.
  intros (new & Hj & Hnew) Hin Hown Hat. unfold flushes in Hin. rewrite Hj, drop_app_length in Hin.
  apply list_elem_of_omap in Hin as (j & Hjn & Hp). destruct j; try done. apply (inj Some), pair_eq in Hp as [<- <-].
  rewrite Forall_forall in Hnew. destruct (Hnew _ Hjn) as [Hn Hst].
  destruct (Hown (n_BMCAddress n) c h clusterID (n_Hostname n)) as [-> ->]; [done|by exists n|].
  apply job_adds. exact Hst.
Qed.

Lemma adds_grow m m' c h (p : io (option ipmi_error)) :
  grows m m' → deploying m' c →
  adds_only (fun s => s ∈ gateSetLocked c h m) p → adds_only (fun s => s ∈ gateSetLocked c h m') p.
Proof. intros [_ Hg] Hd. apply adds_only_mono. intros s. by apply (proj2 (Hg c Hd)). Qed.

Lemma started_nodes_same m m' t : m'.(m_nodes) = m.(m_nodes) → started_nodes m t → started_nodes m' t.
Proof. intros Hn. destruct t; try done. cbn. by rewrite Hn. Qed.

(** Of what follows a task. *)
Lemma follows_started m t u :
  started_nodes m t → registers t = false → (task_step t m).2 = Some u → started_nodes (task_step t m).1 u.
Proof.
  intros Hst Hr. destruct t as [o|c h s|c h [|x l]|c h|c n saw p obs|c a anchor flip ref pc]; cbn [task_step snd]; try done.
  - intros Hu. destruct o; try done; cbn in Hu; try done;
      unfold Report_call, RestoreDone_call, Applied_call, MergeSEL_call, tick_call, handoffs in Hu;
      repeat (case_match; simplify_eq/=); first [exact I|injection Hu as <-; exact I].
  - destruct l; [done|]. by intros [= <-].
  - intros Hu. destruct (start_grows c a anchor flip ref pc m) as [Hn _].
    assert (∃ pc', u = TStart c a anchor flip ref pc') as [pc' ->].
    { destruct pc as [[|n l]| | | |]; cbn in Hu;
        try (destruct (flipForBoot _ _ _ _ _ _) as [? []]; cbn in Hu); simplify_eq; eauto. }
    by apply (started_nodes_same m).
Qed.

(** A section that registers no run. *)
Lemma run_ok past f t l1 l2 e d m' t' :
  flow_ok past f → f.(fw_tasks) = l1 ++ t :: l2 → registers t = false →
  task_step t f.(fw_m) = (m', t') → conc_ok (past ++ [m']) (m', l1 ++ option_list t' ++ l2) →
  flow_ok (past ++ [m'])
    (mkFlow m' (l1 ++ option_list t' ++ l2) (wipe t d f).1 (f.(fw_wire) ++ flushes e f.(fw_m) m') (wipe t d f).2).
Proof.
  intros [Hc Hown Hlog Hwire Hst] Hts Hr Ht Hc'. rewrite Hts in Hc, Hst. destruct Hc as [Hok _ _ Htok]. cbn in Hok, Htok.
  apply Forall_app in Htok as [_ [Htok _]%Forall_cons]. apply Forall_app in Hst as [Hst1 [Hst Hst2]%Forall_cons].
  assert (match t with TCall o => no_release o | _ => True end) as Hrel by by destruct t.
  pose proof (section_grows t _ Hok Hrel Hr) as Hg. pose proof (section_starts t _ Hok Hst Hrel Hr) as Hs.
  pose proof (fun u => follows_started _ t u Hst Hr) as Hu. rewrite Ht in Hg, Hs, Hu. cbn in Hg, Hs, Hu.
  pose proof (proj1 Hg) as Hn.
  assert (∀ a c h c' h', at_bmc m' a c h → at_bmc m' a c' h' → c = c' ∧ h = h') as Hown'.
  { intros a c h c' h'. rewrite !(at_bmc_nodes _ _ _ _ _ Hn). apply Hown. }
  split; cbn [fw_m fw_tasks fw_bmc fw_wire fw_clean]; [done|done| | |].
  - intros a c h s Ha Hat Hd Hin. destruct (proj2 Hg c Hd) as [Hd0 Hmono]. apply Hmono.
    apply (Hlog a); [by eapply wipe_clean|by apply (at_bmc_nodes _ _ _ _ _ Hn)|done|by eapply wipe_gates].
  - intros a p c h [Hin|Hin]%elem_of_app Hat Hd; [|by eapply flushes_ok].
    eapply adds_grow; [done|done|]. destruct (proj2 Hg c Hd) as [Hd0 _].
    apply (Hwire a); [done|by apply (at_bmc_nodes _ _ _ _ _ Hn)|done].
  - apply Forall_app. split; [|apply Forall_app; split].
    + eapply Forall_impl; [exact Hst1|]. intros u. by apply started_nodes_same.
    + destruct t' as [u|]; [|done]. repeat constructor. by apply Hu.
    + eapply Forall_impl; [exact Hst2|]. intros u. by apply started_nodes_same.
Qed.

Lemma register_jobs c a m : (Start_register c a m).1.(m_jobs) = m.(m_jobs).
Proof. unfold Start_register, reset_set_ready, cancel_ctx. cbn. by repeat case_match. Qed.

Lemma elem_of_addresses n l : n ∈ l → n.(n_BMCAddress) ∈ addresses l.
Proof. intros Hn. by apply list_elem_of_fmap_2. Qed.

Lemma at_elsewhere m a c c' h : at_bmc m a c' h → c' ≠ c → a ∈ elsewhere c m.
Proof.
  intros (n & Hn & <-) Hne. unfold nodes_of in Hn. destruct (m_nodes m !! c') as [by_|] eqn:Hb; cbn in Hn; [|by rewrite lookup_empty in Hn].
  apply list_elem_of_bind. exists (c', by_). rewrite decide_False by done. split; [|by apply elem_of_map_to_list].
  apply elem_of_addresses, list_elem_of_fmap. exists (h, n). split; [done|by apply elem_of_map_to_list].
Qed.

(** The present run's nodes, by their addresses. *)
Lemma at_registered m c a x h :
  m.(m_nodes) !! c = Some (by_hostname (fun n => n) a.(sa_nodes)) → at_bmc m x c h →
  ∃ n, n ∈ a.(sa_nodes) ∧ n.(n_Hostname) = h ∧ n.(n_BMCAddress) = x.
Proof.
  intros Hn (n & Hl & <-). unfold nodes_of in Hl. rewrite Hn in Hl. cbn in Hl.
  apply by_hostname_key in Hl as (n' & ? & ? & ->). by exists n.
Qed.

Lemma NoDup_address l n n' : NoDup (addresses l) → n ∈ l → n' ∈ l → n.(n_BMCAddress) = n'.(n_BMCAddress) → n = n'.
Proof.
  intros Hnd [i Hi]%list_elem_of_lookup [j Hj]%list_elem_of_lookup Heq.
  assert (i = j) as ->; [|congruence]. eapply NoDup_lookup; [exact Hnd| |]; unfold addresses; rewrite list_lookup_fmap.
  - by rewrite Hi.
  - rewrite Hj. cbn. by rewrite Heq.
Qed.

Lemma quiet_parts c a f :
  quiet c a f = true →
  NoDup (n_Hostname <$> a.(sa_nodes)) ∧ NoDup (addresses a.(sa_nodes))
  ∧ ∀ x, x ∈ addresses a.(sa_nodes) → x ∉ elsewhere c f.(fw_m) ∧ x ∉ busy f.(fw_wire).
Proof.
  unfold quiet. intros [[Q1%bool_decide_eq_true Q2%bool_decide_eq_true]%andb_true_iff Q3]%andb_true_iff.
  split_and!; [done|done|]. intros x Hx. rewrite forallb_forall in Q3. apply list_elem_of_In, Q3 in Hx.
  apply andb_true_iff in Hx as [Hx1%negb_true_iff Hx2%negb_true_iff]. by rewrite contains_false in Hx1, Hx2.
Qed.

(** What a registration of [c] leaves, and what it puts. *)
Lemma register_view c a m m' :
  m' = (Start_register c a m).1 →
  (∀ c' x h, c' ≠ c → at_bmc m' x c' h ↔ at_bmc m x c' h)
  ∧ (∀ x h, at_bmc m' x c h → ∃ n, n ∈ sa_nodes a ∧ n_Hostname n = h ∧ n_BMCAddress n = x)
  ∧ (∀ c' h, c' ≠ c → gateSetLocked c' h m' = gateSetLocked c' h m)
  ∧ (∀ c', c' ≠ c → deploying m' c' → deploying m c')
  ∧ m'.(m_jobs) = m.(m_jobs)
  ∧ m'.(m_nodes) !! c = Some (by_hostname (fun n => n) a.(sa_nodes))
  ∧ (∀ c', c' ≠ c → m'.(m_nodes) !! c' = m.(m_nodes) !! c').
Proof.
  intros ->. destruct (register_deploys c a m) as (Hd & Hn & _ & _). split_and!.
  - intros c' x h Hc. unfold at_bmc, nodes_of. by rewrite Hn, lookup_insert_ne.
  - intros x h. apply at_registered. by rewrite Hn, lookup_insert_eq.
  - intros c' h Hc. unfold gateSetLocked, node_of. by rewrite Hd, lookup_insert_ne.
  - intros c' Hc. unfold deploying. by rewrite Hd, lookup_insert_ne.
  - apply register_jobs.
  - by rewrite Hn, lookup_insert_eq.
  - intros c' Hc. by rewrite Hn, lookup_insert_ne.
Qed.

(** The starts under way are of other clusters. *)
Lemma apart_started c a anchor flip l m m' :
  apart (TCall (OpStart c a anchor flip)) l = true →
  (∀ c', c' ≠ c → m'.(m_nodes) !! c' = m.(m_nodes) !! c') →
  Forall (started_nodes m) l → Forall (started_nodes m') l.
Proof.
  intros Hap Hn. rewrite !Forall_forall. intros H' v Hv. specialize (H' v Hv).
  destruct v as [| | | | |c' a' ? ? ? ?]; try done. cbn in H' |- *. rewrite Hn; [done|].
  intros ->. cbn in Hap. rewrite forallb_forall in Hap.
  apply list_elem_of_In, Hap in Hv. cbn in Hv. by rewrite String.eqb_refl in Hv.
Qed.

Lemma wipe_register c a anchor flip d f :
  a.(sa_nodes) ≠ [] →
  wipe (TCall (OpStart c a anchor flip)) d f
  = (f.(fw_bmc), f.(fw_clean) ∖ list_to_set (addresses a.(sa_nodes))).
Proof. intros Hne. unfold wipe, registering. cbn [clearing]. by destruct (sa_nodes a) as [|n l] eqn:E; [|rewrite E]. Qed.

#[local] Opaque Start_register Start_gates Start_abort Start_spawn.

(** A start registers its run. *)
Lemma register_ok past f l1 l2 e c a anchor flip m' t' :
  flow_ok past f → f.(fw_tasks) = l1 ++ TCall (OpStart c a anchor flip) :: l2 → a.(sa_nodes) ≠ [] →
  apart (TCall (OpStart c a anchor flip)) (l1 ++ l2) = true → quiet c a f = true →
  task_step (TCall (OpStart c a anchor flip)) f.(fw_m) = (m', t') →
  conc_ok (past ++ [m']) (m', l1 ++ option_list t' ++ l2) →
  flow_ok (past ++ [m'])
    (mkFlow m' (l1 ++ option_list t' ++ l2) (fw_bmc f) (f.(fw_wire) ++ flushes e f.(fw_m) m')
       (f.(fw_clean) ∖ list_to_set (addresses a.(sa_nodes)))).
Proof.
  intros [_ Hown Hlog Hwire Hst] Hts Hne Hap Hq Ht Hc'. rewrite Hts in Hst.
  apply quiet_parts in Hq as (Hhosts & Haddr & Hquiet).
  unfold task_step in Ht. rewrite Start_call_eq in Ht by done. apply pair_eq in Ht as [Hm' <-]. symmetry in Hm'.
  destruct (register_view c a _ _ Hm') as (Hold & Hnew & Hset & Hdep & Hj & Hnc & Hno).
  assert (∀ x h c' h', at_bmc m' x c h → c' ≠ c → at_bmc m' x c' h' → False) as Hcross.
  { intros x h c' h' (n & Hin & _ & <-)%Hnew Hc Hat%Hold; [|done].
    by apply (proj1 (Hquiet _ (elem_of_addresses _ _ Hin))), (at_elsewhere _ _ c c' h'). }
  assert (flushes e (fw_m f) m' = []) as -> by (unfold flushes; by rewrite Hj, drop_all).
  rewrite app_nil_r. split; cbn [fw_m fw_tasks fw_bmc fw_wire fw_clean fst snd]; [done| | | |].
  - intros x c1 h1 c2 h2 H1' H2'. destruct (decide (c1 = c)) as [-> |Hc1], (decide (c2 = c)) as [-> |Hc2].
    + apply Hnew in H1' as (n1 & Hi1 & <- & <-), H2' as (n2 & Hi2 & <- & Heq).
      by rewrite (NoDup_address _ n2 n1 Haddr).
    + by destruct (Hcross x h1 c2 h2).
    + by destruct (Hcross x h2 c1 h1).
    + apply (Hown x); by apply Hold.
  - intros x c1 h1 s [Hx Hx']%elem_of_difference Hat Hdp Hin. destruct (decide (c1 = c)) as [-> |Hc1].
    + apply Hnew in Hat as (n & Hi & _ & <-). destruct Hx'. by apply elem_of_list_to_set, elem_of_addresses.
    + rewrite Hset by done. apply (Hlog x); auto. by apply Hold.
  - intros x p c1 h1 Hin Hat Hdp. destruct (decide (c1 = c)) as [-> |Hc1].
    + apply Hnew in Hat as (n & Hi & _ & <-). destruct p as [v|cc k]; [done|].
      destruct (proj2 (Hquiet _ (elem_of_addresses _ _ Hi))). apply list_elem_of_omap. by exists (n_BMCAddress n, Next cc k).
    + eapply adds_only_mono; [|apply (Hwire x p c1 h1); auto; by apply Hold]. intros s. by rewrite Hset.
  - apply Forall_app in Hst as [Hst1 [_ Hst2]%Forall_cons].
    pose proof (apart_started _ _ _ _ _ _ _ Hap Hno (proj2 (Forall_app _ _ _) (conj Hst1 Hst2))) as Hr.
    apply Forall_app in Hr as [Hr1 Hr2].
    apply Forall_app. split; [done|]. apply Forall_app. split; [|done]. by repeat constructor.
Qed.
(** A move that leaves the manager. *)
Lemma still_ok past f ts bmc wire :
  flow_ok past f →
  conc_ok (past ++ [f.(fw_m)]) (f.(fw_m), ts) → Forall (started_nodes f.(fw_m)) ts →
  (∀ a c h s, at_bmc f.(fw_m) a c h → deploying f.(fw_m) c → s ∈ gates_in (sel_log (bmc a)) →
     s ∈ gates_in (sel_log (f.(fw_bmc) a)) ∨ s ∈ gateSetLocked c h f.(fw_m)) →
  (∀ a p c h, (a, p) ∈ wire → at_bmc f.(fw_m) a c h → deploying f.(fw_m) c →
     adds_only (fun s => s ∈ gateSetLocked c h f.(fw_m)) p) →
  flow_ok (past ++ [f.(fw_m)]) (mkFlow f.(fw_m) ts bmc wire f.(fw_clean)).
Proof.
  intros [_ Hown Hlog _ _] Hc Hst Hb Hw. split; cbn; [done|done| |done|done].
  intros a c h s Ha Hat Hd Hs. destruct (Hb a c h s Hat Hd Hs) as [Hs'|Hs']; [by eapply Hlog|done].
Qed.

(** The sections, of all tasks. *)
Lemma frun_ok past f f' i e d :
  flow_ok past f → proper_move (FRun i e d) f = true → fmove1 (FRun i e d) f = Some f' →
  flow_ok (past ++ [f'.(fw_m)]) f'.
Proof.
  intros Hf Hp Hm. destruct f as [m ts bmc wire clean]. cbn in Hp, Hm.
  destruct (ts !! i) as [t|] eqn:Hi; [|done]. cbn [mbind option_bind] in Hm.
  pose proof (take_drop_middle ts i t Hi) as Hts.
  set (l1 := take i ts) in *. set (l2 := drop (S i) ts) in *.
  apply andb_true_iff in Hp as [Hap Hq].
  destruct (wipe t d _) as [bmc' clean'] eqn:Hw. destruct (task_step t m) as [m' t'] eqn:Ht.
  injection Hm as <-. cbn [fw_m].
  assert (conc_ok (past ++ [m']) (m', l1 ++ option_list t' ++ l2)) as Hc.
  { apply (conc_ok_step past (m, l1 ++ t :: l2) (m', _)); [rewrite Hts; apply Hf|by apply cs_run]. }
  destruct (registering t) as [[c a]|] eqn:Hr.
  - destruct t as [[]| | | | |]; try done. cbn in Hr. destruct (sa_nodes a0) eqn:Ha; [done|].
    injection Hr as <- <-. rewrite wipe_register in Hw by congruence. injection Hw as <- <-.
    eapply (register_ok past (mkFlow m ts bmc wire clean)); try done. congruence.
  - pose proof (run_ok past (mkFlow m ts bmc wire clean) t l1 l2 e d m' t' Hf) as Hrun.
    rewrite Hw in Hrun.
    destruct (registers t) eqn:Hs; [|by apply Hrun].
    destruct t as [[]| | | | |]; try done. cbn in Hr. destruct (sa_nodes a) eqn:Ha; [|done].
    rewrite Start_call_empty in Ht by done. injection Ht as <- <-.
    unfold wipe in Hw. cbn in Hw. rewrite Ha in Hw. injection Hw as <- <-.
    unfold flushes. rewrite drop_all. cbn. rewrite app_nil_r. pose proof Hf as [_ _ _ Hwire Hst].
    apply (still_ok past (mkFlow m ts bmc wire clean)); [done|done| |by left|done].
    cbn in Hst |- *. rewrite <- Hts in Hst. apply Forall_app in Hst as [Hst1 [_ Hst2]%Forall_cons]. by apply Forall_app.
Qed.

Lemma elem_of_insert_inv {A} (l : list A) i (x y : A) : y ∈ <[i := x]> l → y = x ∨ y ∈ l.
Proof.
  intros [k Hk]%list_elem_of_lookup. apply list_lookup_insert_Some in Hk as [(_ & -> & _)|[_ Hk]]; [by left|].
  right. by eapply list_elem_of_lookup_2.
Qed.

(** A client call adds what its program may add. *)
Lemma fwrite_ok past f f' j :
  flow_ok past f → fmove1 (FWrite j) f = Some f' → flow_ok (past ++ [f'.(fw_m)]) f'.
Proof.
  intros Hf Hm. pose proof Hf as [Hc Hown _ Hwire Hst]. destruct f as [m ts bmc wire clean]. cbn in Hm, Hc, Hown, Hwire, Hst.
  destruct (wire !! j) as [[x [v|cc k]]|] eqn:Hj; [done| |done]. cbn [mbind option_bind] in Hm.
  destruct (do_cmd cc (bmc x)) as [b y] eqn:Hdo. injection Hm as <-.
  pose proof (list_elem_of_lookup_2 _ _ _ Hj) as Hin.
  apply (still_ok past (mkFlow m ts bmc wire clean)); cbn; [done|by apply conc_stay|done| |].
  - intros a c h s Hat Hd. destruct (decide (a = x)) as [-> |Hne]; [|rewrite fn_lookup_insert_ne by done; by left].
    rewrite fn_lookup_insert. replace b with (do_cmd cc (bmc x)).1 by by rewrite Hdo.
    intros [Hs|(e & -> & He)]%cmd_gates; [by left|right].
    destruct (Hwire _ _ _ _ Hin Hat Hd) as [Hadd _]. by apply Hadd.
  - intros a p c h [[= -> ->]|Hp]%elem_of_insert_inv Hat Hd; [|by apply (Hwire a)].
    destruct (Hwire _ _ _ _ Hin Hat Hd) as [_ Hk]. apply Hk.
Qed.

(** New writers carry the ledgers, or no gate at all. *)
Lemma wired past f new :
  flow_ok past f →
  (∀ a p c h, (a, p) ∈ new → at_bmc f.(fw_m) a c h → deploying f.(fw_m) c →
     adds_only (fun s => s ∈ gateSetLocked c h f.(fw_m)) p) →
  flow_ok (past ++ [f.(fw_m)])
    (mkFlow f.(fw_m) f.(fw_tasks) f.(fw_bmc) (f.(fw_wire) ++ new) f.(fw_clean)).
Proof.
  intros Hf Hnew. pose proof Hf as [Hc _ _ Hwire Hst].
  apply still_ok; [done|by apply conc_stay|done|by left|].
  intros a p c h [Hp|Hp]%elem_of_app; [by apply Hwire|by apply Hnew].
Qed.

Lemma reconcile_carries c m n st :
  nodes_ok m → (n, st) ∈ reconcile_targets c m →
  nodes_of c m !! n.(n_Hostname) = Some n ∧ ∀ s, s ∈ st → s ∈ gateSetLocked c n.(n_Hostname) m.
Proof.
  intros Hok. unfold reconcile_targets. case_match; [by intros ?%not_elem_of_nil|].
  destruct (m_deploys m !! c) as [d|] eqn:Hd; [|by intros ?%not_elem_of_nil].
  intros ([h nd] & Hin%elem_of_map_to_list & Hx)%list_elem_of_omap. cbn in Hx.
  destruct (nodes_of c m !! h) as [n'|] eqn:Hn; [|done]. destruct (gatesAtRisk _ _); [|done].
  injection Hx as -> <-. pose proof (table_node c m h n Hok Hn) as Hn'. split; [done|].
  assert (n_Hostname n = h) as ->; [|intros s; unfold gateSetLocked, node_of; rewrite Hd; cbn; by rewrite Hin].
  unfold nodes_of in Hn. destruct (m_nodes m !! c) as [by_|] eqn:Hb; [|done]. cbn in Hn. by apply (Hok c by_).
Qed.

(** Every proper move keeps the invariant. *)
Lemma fmove1_ok past f mv f' :
  flow_ok past f → proper_move mv f = true → fmove1 mv f = Some f' → flow_ok (past ++ [f'.(fw_m)]) f'.
Proof.
  intros Hf Hp Hm. destruct mv as [o|i e d|j|c ctx e|n e|a r];
    [|by eapply frun_ok|by eapply fwrite_ok|..]; pose proof Hf as [Hc Hown _ Hwire Hst];
    destruct f as [m ts bmc wire clean]; cbn -[job_io writer runGateReconciler] in Hm, Hp, Hc, Hown, Hwire, Hst.
  - injection Hm as <-. apply (still_ok past (mkFlow m ts bmc wire clean)); cbn; try done; [| |by left].
    + apply (conc_ok_step past (m, ts) (m, _)); [done|]. apply cs_call. by apply negb_true_iff in Hp.
    + apply Forall_app. by repeat constructor.
  - unfold runGateReconciler in Hm. destruct (_ && _); [|done]. injection Hm as <-. apply (wired past (mkFlow m ts bmc wire clean)); [done|].
    intros a p c' h ([n st] & [-> ->]%pair_eq & Hin)%list_elem_of_fmap Hat _. cbn [fst snd fw_m] in *.
    apply reconcile_carries in Hin as [Hn Hs]; [|apply Hc].
    destruct (Hown (n_BMCAddress n) c' h c (n_Hostname n)) as [-> ->]; [done|by exists n|].
    apply job_adds. exact Hs.
  - destruct (stampEndpoint m); [|done]. injection Hm as <-. apply (wired past (mkFlow m ts bmc wire clean)); [done|].
    intros a p c' h [-> ->]%list_elem_of_singleton%pair_eq _ _. apply (job_adds _ (JEndpoint _ _ _ _)). by intros s ?%not_elem_of_nil.
  - injection Hm as <-. apply (still_ok past (mkFlow m ts bmc wire clean)); cbn; try done; [by apply conc_stay|].
    intros x c h s _ _. destruct (decide (x = a)) as [-> |Hne]; [|rewrite fn_lookup_insert_ne by done; by left].
    rewrite fn_lookup_insert. intros [Hs|Hg]%add_gates; [by left|].
    apply negb_true_iff, bool_decide_eq_false in Hp. destruct Hp. by exists s.
Qed.

Lemma flow_invariant l past f f' :
  flow_ok past f → proper l f = true → flow l f = Some f' → flow_ok (past ++ seen l f) f'.
Proof.
  revert past f. induction l as [|mv l IH]; intros past f Hf Hp Hl; cbn in Hp, Hl |- *.
  { injection Hl as <-. by rewrite app_nil_r. }
  apply andb_true_iff in Hp as [Hmv Hp]. destruct (fmove1 mv f) as [f1|] eqn:Hm; [|done]. cbn in Hl.
  replace (past ++ fw_m f1 :: seen l f1) with ((past ++ [fw_m f1]) ++ seen l f1) by by rewrite <- app_assoc.
  apply IH; [by eapply fmove1_ok|done|done].
Qed.

Lemma begin_ok m0 (bmc : string → B) : idle m0 → flow_ok [m0] (begin_flow m0 bmc).
Proof.
  intros Hi. pose proof Hi as [Hd Hn]. split; cbn.
  - by apply (crun_ok m0), crun_nil.
  - intros a c h c' h' (n & Hl & _). unfold nodes_of in Hl. by rewrite Hn, !lookup_empty in Hl.
  - intros a c h s Ha. set_solver.
  - by intros a p c h ?%not_elem_of_nil.
  - done.
Qed.
End Invariant.

(** ** What the agent finds is earned *)

(** An earned gate is one of the four stages. *)
Lemma earned_byte past c h g d : earned past c h g d → byte_of g = g.
Proof.
  intros [(_ & [-> |[-> |[-> _]]])|(m1 & d1 & _ & _ & _ & Hb)]; [done..|]. unfold barrier in Hb.
  repeat match type of Hb with context [if ?g =? ?s then _ else _] =>
    destruct (Z.eqb_spec g s) as [-> |]; [done|] end. done.
Qed.

(** C1. From the operator to the disk: a gate that an agent finds in the log of
    its own BMC is in the ledger of its node and has been earned in this very
    run.  The system is the manager with all its sections interleaved, the
    writers that its flushes, reconcile ticks and endpoint stamps start, one
    client call at a time on BMCs that answer as they like, and the nodes'
    own records (anything but a gate).  From an idle manager, on every
    schedule without an operator's forced release where [Start]s are [apart]
    and register only on quiet BMCs of their own, and for a BMC whose wipe
    by the run's [Start] was acknowledged, whatever the other BMCs did: the stage was
    granted up front (automatic mode), or its barrier held in an earlier state of the run. *)
Theorem gate_on_bmc_earned `{SELStore B} l m0 (bmc : string → B) f c d h nd n stage :
  idle m0 → proper l (begin_flow m0 bmc) = true → flow l (begin_flow m0 bmc) = Some f →
  f.(fw_m).(m_deploys) !! c = Some d → d.(d_Nodes) !! h = Some nd →
  nodes_of c f.(fw_m) !! h = Some n → n.(n_BMCAddress) ∈ f.(fw_clean) →
  selGatePresent (Some (sel_log (f.(fw_bmc) n.(n_BMCAddress)))) stage = true →
  stage ∈ nd.(nd_Gates)
  ∧ (up_front d h stage
     ∨ ∃ m1 d1, m1 ∈ m0 :: seen l (begin_flow m0 bmc) ∧ m1.(m_deploys) !! c = Some d1 ∧ same_run d d1
         ∧ barrier (fun d => fabricReadyLocked d m1) d1 h stage).
Proof.
  intros Hi Hp Hl Hd Hnd Hn Hclean Hseen.
  pose proof (flow_invariant _ _ _ _ (begin_ok _ bmc Hi) Hp Hl) as [Hc _ Hlog _ _].
  rewrite gate_seen in Hseen. apply bool_decide_eq_true in Hseen.
  assert (stage ∈ gateSetLocked c h f.(fw_m)) as Hs by (eapply Hlog; [done|by exists n|by exists d|done]).
  unfold gateSetLocked, node_of in Hs. rewrite Hd in Hs. cbn in Hs. rewrite Hnd in Hs.
  apply list_elem_of_fmap in Hs as (g & -> & Hg). pose proof (co_earned _ _ Hc c d h nd g Hd Hnd Hg) as He.
  rewrite (earned_byte _ _ _ _ _ He). split; [done|exact He].
Qed.

(** ** Schedules of two machines *)

Definition flow_node (h a : string) : Node :=
  mkNode h ("id-" +:+ h) a "admin" "pw" 3 ["00:00:00:00:00:01"] "/dev/sda".

Definition flow_start (c master : string) (nodes : list Node) (manual : bool) : Op :=
  OpStart c (mkStartArgs nodes master ["10.0.0.1"] manual "img" false false) (fun _ => 0) demo_flip.

Definition flow_env : env := mkEnv "t1" (fun _ _ => None) (fun _ => None).
Definition flow_run (i : nat) : fmove := FRun i flow_env None.
Definition two_nodes : list Node := [flow_node "a" "10.0.0.1"; flow_node "b" "10.0.0.2"].

Definition flow_bmc : string → MemBMC := fun _ => mkMemBMC [] 1 100 [].

Definition flow_begin : Flow MemBMC := begin_flow demo_manager flow_bmc.

(** The start of the cluster, to its gates. *)
Definition flow_started : list fmove :=
  FCall (flow_start "c" "a" two_nodes false) :: replicate 5 (flow_run 0).

(** The gates are written, the goroutines begin, the master is done and its
    handoff releases the peer, whose writer adds the missing gate. *)
Definition flow_released : list fmove :=
  flow_started ++ replicate 5 (FWrite 0) ++ replicate 4 (FWrite 1)
  ++ replicate 2 (flow_run 0)
  ++ [FCall (OpApplied "c" "a"); flow_run 0; flow_run 0] ++ replicate 3 (FWrite 2).

Definition flow_end : Flow MemBMC := default flow_begin (flow flow_released flow_begin).

Lemma gate_on_bmc_earned_witness :
  ∃ d nd, flow_end.(fw_m).(m_deploys) !! "c" = Some d ∧ d.(d_Nodes) !! "b" = Some nd
    ∧ selGatePresent (Some (sel_log (flow_end.(fw_bmc) "10.0.0.2"))) gateStageApply = true
    ∧ gateStageApply ∈ nd.(nd_Gates)
    ∧ (up_front d "b" gateStageApply
       ∨ ∃ m1 d1, m1 ∈ demo_manager :: seen flow_released flow_begin ∧ m1.(m_deploys) !! "c" = Some d1
           ∧ same_run d d1 ∧ barrier (fun d => fabricReadyLocked d m1) d1 "b" gateStageApply).
Proof.
  destruct (holds_at_true "c" "b" (fun _ _ => true) flow_end.(fw_m)) as (d & nd & Hd & Hn & _);
    [vm_compute; reflexivity|].
  assert (selGatePresent (Some (sel_log (flow_end.(fw_bmc) "10.0.0.2"))) gateStageApply = true) as Hs
    by (vm_compute; reflexivity).
  exists d, nd. split; [exact Hd|]. split; [exact Hn|]. split; [exact Hs|].
  apply (gate_on_bmc_earned flow_released demo_manager flow_bmc flow_end "c" d "b" nd (flow_node "b" "10.0.0.2"));
    [exact demo_idle|vm_compute; reflexivity|vm_compute; reflexivity|exact Hd|exact Hn|vm_compute; reflexivity| |exact Hs].
  apply (bool_decide_eq_true_1 _). vm_compute. reflexivity.
Defined.

(** ** Why a start needs quiet BMCs *)

(** What an agent sees against what its node's ledger holds. *)
Definition stale_gate (c h a : string) (stage : Z) (f : Flow MemBMC) : bool :=
  selGatePresent (Some (sel_log (f.(fw_bmc) a))) stage
  && holds_at c h (fun _ nd => negb (contains nd.(nd_Gates) stage)) f.(fw_m).

(** The writers of a run have their own context, which nothing cancels: the
    operator starts the cluster again, in manual mode, before they have reached the BMCs;
    the logs are wiped, then the old run's gates land, and the agents of the new
    run find gates the operator has not given, apply among them. *)
Definition late_writer : list fmove :=
  flow_started
  ++ [FCall (flow_start "c" "a" two_nodes true); flow_run 1; flow_run 1; flow_run 1]
  ++ replicate 5 (FWrite 0).

Example late_writer_lands :
  from_option (fun f => stale_gate "c" "a" "10.0.0.1" gateStageApply f
                        && bool_decide ("10.0.0.1" ∈ f.(fw_clean))) false
    (flow late_writer flow_begin) = true
  ∧ proper late_writer flow_begin = false.
Proof. split; vm_compute; reflexivity. Qed.

(** A machine that two clusters have: the deploy of [A] is over, so a deploy of
    [B] may start, but [A] has not been set ready, so its reconciler still
    asserts [A]'s gates, on the BMC that [B] has just wiped. *)
Definition shared_machine : list fmove :=
  FCall (flow_start "A" "a" [flow_node "a" "10.0.0.1"] false) :: replicate 6 (flow_run 0)
  ++ replicate 5 (FWrite 0)
  ++ [FCall (OpApplied "A" "a"); flow_run 0; flow_run 0; flow_run 0] ++ replicate 3 (FWrite 1)
  ++ FCall (flow_start "B" "a" [flow_node "a" "10.0.0.1"] true) :: replicate 2 (flow_run 0)
  ++ FReconcile "A" 0 flow_env :: replicate 6 (FWrite 2).

Example shared_machine_overwritten :
  from_option (fun f => stale_gate "B" "a" "10.0.0.1" gateStageApply f && negb (HasActiveDeploy "A" f.(fw_m))) false
    (flow shared_machine flow_begin) = true
  ∧ proper shared_machine flow_begin = false.
Proof. split; vm_compute; reflexivity. Qed.

(** A wipe that fails is logged and passed over: the last run's gates are still there. *)
Definition failed_wipe : list fmove :=
  flow_started ++ replicate 5 (FWrite 0)
  ++ [FCall (flow_start "c" "a" two_nodes true); flow_run 1;
      FRun 1 flow_env (Some (mkIPMIError "no route to host" None))].

Example failed_wipe_replays :
  from_option (fun f => stale_gate "c" "a" "10.0.0.1" gateStageApply f
                        && negb (bool_decide ("10.0.0.1" ∈ f.(fw_clean)))) false
    (flow failed_wipe flow_begin) = true.
Proof. vm_compute. reflexivity. Qed.
