(* ===== verification/OrchestratorProps.v ===== *)
(** * What each deploy handler does

    Functional theorems about single handlers: the manual step cursor, the
    first barrier, the driver's goroutines against agent reports, the
    out-of-band merge, the two holds on set_ready and cancellation. *)
From S2P Require Import Prelude GoStrings DeployModel SelCodec Orchestrator OrchestratorFrames OrchestratorOps DeployDemo OrchestratorSafety OrchestratorStart.
From Stdlib Require Import QArith.

Open Scope string_scope.
Open Scope list_scope.
Open Scope Z_scope.

(** ** The manual step cursor *)

(** The gate the operator's move to [step] puts on host [h]. *)
Definition step_gate (step : Z) (master h : string) : option Z :=
  if step =? StepRestore then Some gateStageRestore
  else if step =? StepReboot then Some gateStageReboot
  else if step =? StepApplyMaster then
    if decide (h = master) then Some gateStageApply else None
  else if step =? StepApplyRest then
    if decide (h = master) then None else Some gateStageApply
  else if step =? StepSetReady then
    if decide (h = master) then Some gateStageSetReady else None
  else None.

Definition grant_opt (g : option Z) (nd : NodeDeploy) : NodeDeploy :=
  match g with Some s => grant s nd | None => nd end.

Lemma omap_hosts_iff (f : string * Node → option Node) (byHost : gmap string Node) h :
  (∀ k n, byHost !! k = Some n → n.(n_Hostname) = k) →
  (∀ k n x, f (k, n) = Some x → x = n) →
  h ∈ n_Hostname <$> omap f (map_to_list byHost)
  ↔ ∃ n, byHost !! h = Some n ∧ is_Some (f (h, n)).
Proof.
  intros Hok Hf. split.
  - intros (k & x & n & Hk & Hfk & Hn)%omap_hosts. pose proof (Hf _ _ _ Hfk) as ->.
    assert (k = h) as -> by (rewrite <- Hn; symmetry; by apply Hok). eauto.
  - intros (n & Hn & x & Hx). pose proof (Hf _ _ _ Hx) as ->.
    apply list_elem_of_fmap. exists n. split; [symmetry; by apply Hok|].
    apply list_elem_of_omap. exists (h, n). split; [|done]. by apply elem_of_map_to_list.
Qed.

Lemma gateTargets_iff c which m d byHost h :
  nodes_ok m → m.(m_nodes) !! c = Some byHost → m.(m_deploys) !! c = Some d →
  h ∈ n_Hostname <$> gateTargetsLocked c which m
  ↔ is_Some (byHost !! h)
    ∧ match which with WhichAll => True | WhichMaster => h = d.(d_Master)
                     | WhichPeers => h ≠ d.(d_Master) end.
Proof.
  intros Hok Hb Hd. unfold gateTargetsLocked. rewrite Hb, Hd, omap_hosts_iff.
  - unfold is_Some. destruct which; cbn; repeat case_decide; naive_solver.
  - intros k n Hk. by eapply Hok.
  - intros k n x. cbn. destruct which; repeat case_decide; naive_solver.
Qed.

Lemma writeGos_lookup c targets stage m :
  (writeGosAsync c targets stage m).(m_deploys) !! c
  = (fun d => set_d_Nodes (grant_all targets stage d.(d_Nodes)) d) <$> m.(m_deploys) !! c.
Proof. unfold writeGosAsync. by rewrite (proj1 (flush_deploys _ _ _)), authorize_lookup. Qed.

(** The ledgers after [step_gos], host by host. *)
Lemma step_gos_nodes c step m d byHost h :
  nodes_ok m → m.(m_nodes) !! c = Some byHost → m.(m_deploys) !! c = Some d →
  is_Some (byHost !! h) →
  ∃ d', (step_gos c step m).(m_deploys) !! c = Some d' ∧ d'.(d_ManualStep) = d.(d_ManualStep)
    ∧ d'.(d_Master) = d.(d_Master)
    ∧ d'.(d_Nodes) !! h = grant_opt (step_gate step d.(d_Master) h) <$> d.(d_Nodes) !! h.
Proof.
  intros Hok Hb Hd Hh.
  assert (∀ which stage,
    ∃ d', (writeGosAsync c (gateTargetsLocked c which m) stage m).(m_deploys) !! c = Some d'
    ∧ d'.(d_ManualStep) = d.(d_ManualStep) ∧ d'.(d_Master) = d.(d_Master)
    ∧ d'.(d_Nodes) !! h
      = (if decide (h ∈ n_Hostname <$> gateTargetsLocked c which m) then grant stage else id)
          <$> d.(d_Nodes) !! h) as Hw.
  { intros which stage. rewrite writeGos_lookup, Hd. eexists. split; [reflexivity|].
    split; [done|]. split; [done|]. apply grant_all_lookup. }
  assert (∀ which, h ∈ n_Hostname <$> gateTargetsLocked c which m
    ↔ match which with WhichAll => True | WhichMaster => h = d.(d_Master)
                     | WhichPeers => h ≠ d.(d_Master) end) as Ht.
  { intros which. rewrite gateTargets_iff by done. tauto. }
  unfold step_gos, step_gate, grant_opt.
  repeat (case_match; [
    match goal with |- context [gateTargetsLocked c ?w m] => specialize (Ht w); specialize (Hw w) end;
    cbn in Ht; repeat case_decide; try tauto;
    match goal with |- context [writeGosAsync c _ ?s m] => specialize (Hw s) end;
    repeat case_decide; tauto |]).
  exists d. repeat split; try done. by destruct (d_Nodes d !! h).
Qed.

(** What one press of Next must do to the deploy [d] it finds. *)
Definition advance_moves (c : string) (m m' : Manager) (d : Deploy) (s : Z) : Prop :=
  canAdvance d m = true ∧ s = d.(d_ManualStep) + 1 ∧ s ≤ StepSetReady
  ∧ ∃ d', m'.(m_deploys) !! c = Some d' ∧ d'.(d_ManualStep) = s
      ∧ ∀ byHost h, m.(m_nodes) !! c = Some byHost → is_Some (byHost !! h) →
          d'.(d_Nodes) !! h = grant_opt (step_gate s d.(d_Master) h) <$> d.(d_Nodes) !! h.

Lemma step_gos_step c step m d :
  m.(m_deploys) !! c = Some d →
  ∃ d', (step_gos c step m).(m_deploys) !! c = Some d' ∧ d'.(d_ManualStep) = d.(d_ManualStep).
Proof.
  intros Hd. unfold step_gos.
  repeat (case_match; [rewrite writeGos_lookup, Hd; eexists; split; reflexivity|]). eauto.
Qed.

(** C19. AdvanceStep, on every branch.  An error (no deploy, automatic mode, or
    a step whose nodes are not all there yet) changes nothing.  Past the last
    step it answers the cursor and changes nothing.  Otherwise the step's
    condition holds, the cursor moves by exactly one and never past set_ready,
    and the gate of the new step, and no other, is added to the ledgers of
    exactly the hosts it concerns: all for restore and reboot, the master for
    its apply and for set_ready, the peers for theirs. *)
Theorem AdvanceStep_spec c m m' s err :
  nodes_ok m → AdvanceStep c m = (m', (s, err)) →
  match err with
  | Some _ => m' = m ∧ ∀ d, m.(m_deploys) !! c = Some d →
                d.(d_Manual) = false ∨ (s = d.(d_ManualStep) ∧ canAdvance d m = false)
  | None => ∃ d, m.(m_deploys) !! c = Some d ∧ d.(d_Manual) = true
              ∧ (StepSetReady ≤ s ∧ s = d.(d_ManualStep) ∧ m' = m
                 ∨ advance_moves c m m' d s)
  end.
Proof.
  intros Hok. unfold AdvanceStep. destruct (m_deploys m !! c) as [d|] eqn:Ed;
    [|intros [= <- <- <-]; naive_solver].
  destruct (d_Manual d) eqn:Eman; cbn [negb]; [|intros [= <- <- <-]; naive_solver].
  destruct (StepSetReady <=? d_ManualStep d) eqn:Es; [intros [= <- <- <-]; to_prop; eauto 8|].
  destruct (canAdvance d m) eqn:Ec; cbn [negb]; [|intros [= <- <- <-]; naive_solver].
  to_prop. set (d1 := set_d_ManualStep _ d). set (m1 := persistLocked _ _).
  intros [= <- <- <-]. exists d. split; [done|]. split; [done|]. right.
  assert (m_deploys m1 !! c = Some d1) as Hd1 by (cbn; apply lookup_insert_eq).
  split; [done|]. split; [done|]. split; [unfold StepSetReady in *; cbn; lia|].
  destruct (step_gos_step c (d_ManualStep d + 1) m1 d1 Hd1) as (d' & Hd' & Hs').
  exists d'. split; [done|]. split; [done|]. intros byHost h Hb Hh.
  assert (nodes_ok m1) as Hok1 by exact Hok.
  destruct (step_gos_nodes c (d_ManualStep d + 1) m1 d1 byHost h Hok1 Hb Hd1 Hh)
    as (d2 & Hd2 & _ & _ & Hn).
  replace d' with d2; [exact Hn|congruence].
Qed.

Definition demo_manual : Manager := run_ops (demo_ops true) demo_manager.

Lemma demo_manual_ok : nodes_ok demo_manual.
Proof.
  apply (run_nodes_ok (fun _ => True) demo_manager (run_hist (demo_ops true) demo_manager)).
  - exact demo_idle.
  - apply run_of_ops. repeat constructor.
Qed.

Lemma AdvanceStep_spec_witness :
  ∃ d, demo_manual.(m_deploys) !! "c" = Some d ∧ d.(d_Manual) = true
    ∧ (StepSetReady ≤ 2 ∧ 2 = d.(d_ManualStep) ∧ (AdvanceStep "c" demo_manual).1 = demo_manual
       ∨ advance_moves "c" demo_manual (AdvanceStep "c" demo_manual).1 d 2).
Proof.
  assert ((AdvanceStep "c" demo_manual).2 = (2, None)) as H by (vm_compute; reflexivity).
  destruct (AdvanceStep "c" demo_manual) as [m' [s e]] eqn:E.
  cbn [snd] in H. assert (s = 2 ∧ e = None) as [-> ->] by (split; congruence).
  exact (AdvanceStep_spec "c" demo_manual m' 2 None demo_manual_ok E).
Defined.

(** ** The first barrier *)

(** What every node must have reported before any may be imaged. *)
Definition fabric_ok (cfg : Config) (nd : NodeDeploy) : Prop :=
  ∃ pf, nd.(nd_InstallerPreflight) = Some pf ∧ pf.(pf_Passed) = true ∧ pf.(pf_CarrierOK) = true
    ∧ (pf.(pf_ClockSkewSec) <= cfg.(cfg_SkewLimitSec))%Q
    ∧ (- cfg.(cfg_SkewLimitSec) <= pf.(pf_ClockSkewSec))%Q.

Lemma skew_exceeds_false limit skew :
  skew_exceeds limit skew = false ↔ (skew <= limit)%Q ∧ (- limit <= skew)%Q.
Proof.
  unfold skew_exceeds. rewrite orb_false_iff, !negb_false_iff, !Qle_bool_iff. done.
Qed.

Lemma node_fabric_ready_true cfg nd : node_fabric_ready cfg nd = true ↔ fabric_ok cfg nd.
Proof.
  unfold node_fabric_ready, fabric_ok. destruct (nd_InstallerPreflight nd) as [pf|];
    [|naive_solver].
  destruct (pf_Passed pf) eqn:Ep, (pf_CarrierOK pf) eqn:Ec; cbn;
    try (split; [done|intros (? & [= <-] & ?); naive_solver]).
  rewrite negb_true_iff, skew_exceeds_false. naive_solver.
Qed.

Lemma fabricReady_true d m :
  fabricReadyLocked d m = true ↔ ∀ h nd, d.(d_Nodes) !! h = Some nd → fabric_ok m.(m_cfg) nd.
Proof.
  unfold fabricReadyLocked. rewrite map_forallb_true. by setoid_rewrite node_fabric_ready_true.
Qed.

(** Green light 1 is a barrier over the whole cluster: the answer is true
    exactly when a deploy exists, a manual deploy's operator has moved to
    restore, and every node of it passed preflight with carrier up and a clock
    within the limit.  A node is moved to restoring only then, and, when the
    gates ride on the BMC, only if its restore gate has been read back. *)
Theorem GreenLight1_barrier c h m :
  ((GreenLight1 c h m).2 = true ↔
     ∃ d, m.(m_deploys) !! c = Some d ∧ (d.(d_Manual) = true → StepRestore ≤ d.(d_ManualStep))
       ∧ ∀ h' nd, d.(d_Nodes) !! h' = Some nd → fabric_ok m.(m_cfg) nd)
  ∧ ∀ nd nd', node_of c h m = Some nd → node_of c h (GreenLight1 c h m).1 = Some nd' →
      nd'.(nd_State) = StateRestoring → nd.(nd_State) ≠ StateRestoring →
      (GreenLight1 c h m).2 = true
      ∧ (nd.(nd_State) = StatePreflightOK ∨ nd.(nd_State) = StatePreflighting)
      ∧ (m.(m_has_gate) = true → gateStageRestore ∈ nd.(nd_GateAck)).
Proof.
  unfold GreenLight1, node_of. destruct (m_deploys m !! c) as [d|] eqn:Ed; cbn; [|naive_solver].
  destruct (d_Manual d && (d_ManualStep d <? StepRestore)) eqn:Em; cbn.
  { rewrite Ed. cbn. to_prop. split; [|naive_solver].
    split; [done|]. intros (d0 & [= <-] & Hman & _). specialize (Hman (proj1 Em)). lia. }
  destruct (fabricReadyLocked d m) eqn:Ef; cbn.
  2: { rewrite Ed. cbn. split; [|naive_solver]. split; [done|]. intros (d0 & [= <-] & _ & H).
       apply not_true_iff_false in Ef. destruct Ef. by apply fabricReady_true. }
  assert ((∃ d0, Some d = Some d0 ∧ (d_Manual d0 = true → StepRestore ≤ d_ManualStep d0)
     ∧ ∀ h' nd, d_Nodes d0 !! h' = Some nd → fabric_ok (m_cfg m) nd)) as Hex.
  { exists d. split; [done|]. split; [|by apply fabricReady_true].
    intros Hman. rewrite Hman in Em. cbn in Em. to_prop. lia. }
  destruct (d_Nodes d !! h) as [nd|] eqn:En; cbn; [|naive_solver].
  destruct (decide _) as [Hst|Hst]; cbn.
  2: { rewrite Ed. cbn. rewrite En. naive_solver. }
  split; [naive_solver|]. intros x nd' [= <-]. rewrite lookup_insert_eq. cbn.
  rewrite lookup_insert_eq. intros [= <-]. unfold greenlight_node.
  destruct (negb (m_has_gate m) || contains (nd_GateAck nd) gateStageRestore) eqn:Eg; cbn; [|done].
  intros _ _. split; [done|]. split; [done|]. intros Hg. rewrite Hg in Eg. cbn in Eg. by to_prop.
Qed.

(** ** The driver's goroutines defer to the agent *)

Definition same_but_time (nd nd' : NodeDeploy) : Prop :=
  set_nd_UpdatedAt nd.(nd_UpdatedAt) nd' = nd.

Lemma same_but_time_refl nd : same_but_time nd nd.
Proof. by destruct nd. Qed.

Definition defers (h : string) (c' h' : string) (nd nd' : NodeDeploy) : Prop :=
  (agentDriven nd.(nd_State) = true ∨ h' ≠ h) → same_but_time nd nd'.

Lemma defers_refl h : node_refl (defers h).
Proof. intros c' h' nd _. apply same_but_time_refl. Qed.

Lemma set_defers c h fn m :
  (∀ nd, agentDriven nd.(nd_State) = true → fn nd = nd) →
  evolves (defers h) m (set c h fn m).
Proof.
  intros Hfn. apply set_evolves; [apply defers_refl|]. intros nd Hn [Ha|Hne]; [|done].
  rewrite Hfn by done. unfold same_but_time. by destruct nd.
Qed.

Lemma advance_defers c h s m : evolves (defers h) m (advance c h s m).
Proof. apply set_defers. intros nd ->. done. Qed.
Lemma fail_defers c h code e m : evolves (defers h) m (fail c h code e m).
Proof. apply set_defers. intros nd ->. done. Qed.

Lemma evolves_node_of R m m' c h nd :
  evolves R m m' → node_of c h m = Some nd →
  ∃ nd', node_of c h m' = Some nd' ∧ R c h nd nd'.
Proof.
  intros Hev. unfold node_of. destruct (m_deploys m !! c) as [d|] eqn:Ed; [|done]. cbn. intros Hn.
  destruct (evolves_deploy_fwd _ _ _ _ _ Hev Ed) as (d' & Hd' & Hdd). rewrite Hd'. cbn.
  destruct (proj2 (ev_dom _ _ _ Hdd h) ltac:(by exists nd)) as [nd' Hn'].
  exists nd'. split; [done|]. by eapply ev_nodes.
Qed.

Lemma advance_other c h s m c' h' :
  (c, h) ≠ (c', h') → node_of c' h' (advance c h s m) = node_of c' h' m.
Proof. apply set_node_of_ne. Qed.

Lemma runNode_defers c n pc ev m :
  evolves (defers n.(n_Hostname)) m (runNode_step c n pc ev m).1.
Proof.
  assert (∀ m, evolves (defers n.(n_Hostname)) m m) as Hr
    by (intros; apply evolves_refl, defers_refl).
  unfold runNode_step. destruct pc, ev as [[e|]| |past obs]; cbn;
    auto using advance_defers, fail_defers.
  destruct (agentDriven (state _ _ _)) eqn:Ea; [apply Hr|].
  destruct past; [apply fail_defers|]. destruct obs as [stage|]; [|apply Hr].
  destruct sawImaging; repeat case_decide; simplify_eq; cbn; auto using advance_defers.
Qed.

(** Agent reports are authoritative.  Whatever its BMC calls and its
    install observation answer, a step of the driver's goroutine for a node
    leaves every other node untouched, and leaves the node itself untouched
    (but for its timestamp) once the agent drives it. *)
Theorem runNode_respects_agent c n pc ev m h nd :
  node_of c h m = Some nd →
  agentDriven nd.(nd_State) = true ∨ h ≠ n.(n_Hostname) →
  ∃ nd', node_of c h (runNode_step c n pc ev m).1 = Some nd' ∧ same_but_time nd nd'.
Proof.
  intros Hn Ha. destruct (evolves_node_of _ _ _ _ _ _ (runNode_defers c n pc ev m) Hn)
    as (nd' & Hn' & Hd). exists nd'. split; [done|]. by apply Hd.
Qed.

Lemma runNode_respects_agent_witness :
  ∃ nd nd', node_of "c" "a" demo_manual = Some nd
    ∧ node_of "c" "a" (runNode_step "c" (demo_node "a") RnPreflight (EvCall (Some "down")) demo_manual).1
      = Some nd'
    ∧ same_but_time nd nd'.
Proof.
  destruct (holds_at_true "c" "a" (fun _ nd => agentDriven nd.(nd_State)) demo_manual)
    as (d & nd & Hd & Hn & Ha); [vm_compute; reflexivity|].
  assert (node_of "c" "a" demo_manual = Some nd) as Hnd by (unfold node_of; rewrite Hd; exact Hn).
  destruct (runNode_respects_agent "c" (demo_node "a") RnPreflight (EvCall (Some "down"))
    demo_manual "a" nd Hnd (or_introl Ha)) as (nd' & H1 & H2).
  exists nd, nd'. split; [exact Hnd|]. split; [exact H1|exact H2].
Defined.

(** ** Out-of-band merges only move a node forward *)

(** What a status record for host [h] may do to a node. *)
Definition merges (c h : string) (s : SELStatus) (c' h' : string) (nd nd' : NodeDeploy) : Prop :=
  nd'.(nd_State) = nd.(nd_State)
  ∨ (c' = c ∧ h' = h ∧ nd.(nd_State) ≠ StateDone
     ∧ (nd'.(nd_State) = StateError ∧ selState s = StateError
        ∨ stateRank nd.(nd_State) < stateRank nd'.(nd_State) ∧ nd'.(nd_State) = selState s)).

Lemma merge_node_merges target detail nd :
  let nd' := (merge_node target detail nd).1 in
  nd'.(nd_State) = nd.(nd_State)
  ∨ nd.(nd_State) ≠ StateDone
    ∧ (nd'.(nd_State) = StateError ∧ target = StateError
       ∨ stateRank nd.(nd_State) < stateRank nd'.(nd_State) ∧ nd'.(nd_State) = target).
Proof.
  unfold merge_node. destruct (decide (nd_State nd = StateDone)) as [|Hd]; [by left|].
  destruct (decide (target = StateError)).
  { destruct (decide (nd_State nd = StateError)); cbn; [by left|]. right. auto. }
  destruct (_ <? _) eqn:E; cbn; [|by left]. to_prop. right. auto.
Qed.

Lemma same_merges c h s m m' : evolves same_state m m' → evolves (merges c h s) m m'.
Proof. apply evolves_mono. intros c' h' x y Hs. by left. Qed.

Lemma verify_same c m : evolves same_state m (maybeVerifyCluster c m).
Proof.
  unfold maybeVerifyCluster. repeat case_match; try (apply evolves_refl, same_state_refl).
  apply evolves_same; done.
Qed.

Lemma MarkReady_same c ok msg m : evolves same_state m (MarkReady c ok msg m).
Proof.
  unfold MarkReady. destruct (m_deploys _ !! c) as [d|] eqn:Ed; cbn in Ed; cbn.
  2: { by apply evolves_same. }
  split; try done. intros c'. cbn. destruct (decide (c = c')) as [<-|Hne].
  - rewrite Ed, lookup_insert_eq. constructor. split; try done. intros h x y Hx Hy.
    cbn in Hy. unfold same_state. congruence.
  - rewrite lookup_insert_ne by done.
    destruct (m_deploys m !! c'); constructor. apply deploy_evolves_refl, same_state_refl.
Qed.

(** One state-changing step followed by state-preserving ones. *)
Lemma merges_then_same c h s m1 m2 m3 :
  evolves (merges c h s) m1 m2 → evolves same_state m2 m3 → evolves (merges c h s) m1 m3.
Proof.
  intros H12 H23. destruct H12 as [n1 f1 g1 d1], H23 as [n2 f2 g2 d2]. split; try congruence.
  intros c'. specialize (d1 c'). specialize (d2 c').
  destruct d1 as [x y Hxy|]; inversion d2 as [y' z Hyz|]; subst; constructor.
  destruct Hxy as [r1 c1 a1 b1 o1 p1], Hyz as [r2 c2 a2 b2 o2 p2]. split; try congruence.
  - intros h'. by rewrite o2, o1.
  - intros h' nd nd' Hn Hn'. destruct (proj2 (o1 h') ltac:(by exists nd)) as [ndm Hnm].
    pose proof (p1 _ _ _ Hn Hnm) as Hm. pose proof (p2 _ _ _ Hnm Hn') as Hs.
    unfold merges in *. rewrite Hs. done.
Qed.

Lemma MergeSEL_merges c h s m : evolves (merges c h s) m (MergeSEL c h s m).
Proof.
  unfold MergeSEL. destruct (ss_Phase s =? "ready")%string.
  { case_match; [apply same_merges, MarkReady_same|]. apply evolves_refl. intros ???. by left. }
  destruct (decide _); [apply evolves_refl; intros ???; by left|].
  set (m1 := set c h _ m).
  assert (evolves (merges c h s) m m1) as H1.
  { unfold m1, set. destruct (m_deploys m !! c) as [d|] eqn:Ed;
      [|apply evolves_refl; intros ???; by left].
    destruct (d_Nodes d !! h) as [nd|] eqn:En; [|apply evolves_refl; intros ???; by left].
    eapply evolves_put; [intros ???; by left|done|].
    eapply deploy_evolves_node; [intros ???; by left|done|].
    destruct (merge_node_merges (selState s) (ss_Detail s) nd) as [H|[H ?]];
      [by left|right; by eauto]. }
  destruct (_ && _); [|done].
  eapply merges_then_same; [|apply release_same]. eapply merges_then_same; [|apply auto_same].
  eapply merges_then_same; [done|apply verify_same].
Qed.

(** Merging an out-of-band status record changes the state of no node but
    the one whose BMC it was read from; a finished node never moves again, and
    any other node either keeps its state, fails because the record reports an
    error, or moves strictly forward on the deploy progression to the state the
    record confirms. *)
Theorem MergeSEL_monotone c h s m c' h' nd nd' :
  node_of c' h' m = Some nd → node_of c' h' (MergeSEL c h s m) = Some nd' →
  nd'.(nd_State) = nd.(nd_State)
  ∨ (c' = c ∧ h' = h ∧ nd.(nd_State) ≠ StateDone
     ∧ (nd'.(nd_State) = StateError ∧ selState s = StateError
        ∨ stateRank nd.(nd_State) < stateRank nd'.(nd_State) ∧ nd'.(nd_State) = selState s)).
Proof.
  intros Hn Hn'. destruct (evolves_node_of _ _ _ _ _ _ (MergeSEL_merges c h s m) Hn)
    as (x & Hx & H). simplify_eq. exact H.
Qed.

Definition sel_applied : SELStatus := mkSELStatus "applied" "ok" "" "" 9.

Lemma MergeSEL_monotone_witness :
  ∃ nd nd', node_of "c" "a" demo_manual = Some nd
    ∧ node_of "c" "a" (MergeSEL "c" "a" sel_applied demo_manual) = Some nd'
    ∧ (nd'.(nd_State) = nd.(nd_State)
       ∨ ("c" = "c" ∧ "a" = "a" ∧ nd.(nd_State) ≠ StateDone
          ∧ (nd'.(nd_State) = StateError ∧ selState sel_applied = StateError
             ∨ stateRank nd.(nd_State) < stateRank nd'.(nd_State)
               ∧ nd'.(nd_State) = selState sel_applied))).
Proof.
  destruct (holds_at_true "c" "a" (fun _ _ => true) demo_manual) as (d & nd & Hd & Hn & _);
    [vm_compute; reflexivity|].
  assert (node_of "c" "a" demo_manual = Some nd) as Hnd by (unfold node_of; rewrite Hd; exact Hn).
  destruct (holds_at_true "c" "a" (fun _ _ => true) (MergeSEL "c" "a" sel_applied demo_manual))
    as (d' & nd' & Hd' & Hn' & _); [vm_compute; reflexivity|].
  assert (node_of "c" "a" (MergeSEL "c" "a" sel_applied demo_manual) = Some nd') as Hnd'
    by (unfold node_of; rewrite Hd'; exact Hn').
  exists nd, nd'. split; [exact Hnd|]. split; [exact Hnd'|].
  exact (MergeSEL_monotone "c" "a" sel_applied demo_manual "c" "a" nd nd' Hnd Hnd').
Defined.

(** ** set_ready *)

Lemma allNodesApplied_true c m d :
  m.(m_deploys) !! c = Some d → allNodesAppliedLocked c m = true →
  ∀ h nd, d.(d_Nodes) !! h = Some nd → nd.(nd_State) = StateDone.
Proof.
  intros Hd. unfold allNodesAppliedLocked. rewrite Hd. case_bool_decide as He.
  - intros _ h nd. by rewrite He, lookup_empty.
  - apply all_done_true.
Qed.

(** set_ready is never triggered early: whatever is in memory or on disk,
    the answer the master polls carries the trigger only if the operator armed
    it, every node of the active deploy is done and, in manual mode, the
    operator has reached the last step. *)
Theorem GetSetReady_trigger c m d :
  (GetSetReady c m).2.(sr_Trigger) = true → m.(m_deploys) !! c = Some d →
  (∃ i, (m.(m_setReady) !! c = Some i ∨ LoadSetReady c m.(m_store) = Some i)
        ∧ i.(sr_Trigger) = true)
  ∧ (∀ h nd, d.(d_Nodes) !! h = Some nd → nd.(nd_State) = StateDone)
  ∧ (d.(d_Manual) = true → StepSetReady ≤ d.(d_ManualStep)).
Proof.
  intros Ht Hd. unfold GetSetReady in Ht.
  assert (∀ m' i, m'.(m_deploys) = m.(m_deploys) →
    (let i1 := if i.(sr_Trigger) && negb (allNodesAppliedLocked c m') then set_sr_Trigger false i else i in
     let i2 := match m'.(m_deploys) !! c with
               | Some d => if d.(d_Manual) && (d.(d_ManualStep) <? StepSetReady)
                           then set_sr_Trigger false i1 else i1
               | None => i1 end in
     i2.(sr_Trigger)) = true →
    i.(sr_Trigger) = true ∧ (∀ h nd, d.(d_Nodes) !! h = Some nd → nd.(nd_State) = StateDone)
    ∧ (d.(d_Manual) = true → StepSetReady ≤ d.(d_ManualStep))) as H.
  { intros m' i Hm. cbn zeta. rewrite Hm, Hd.
    destruct (d_Manual d && _) eqn:Em; [done|].
    destruct (sr_Trigger i) eqn:Ei; cbn [andb];
      [|by rewrite Ei].
    destruct (allNodesAppliedLocked c m') eqn:Ea; [|done]. cbn. intros _.
    split; [done|]. split.
    - eapply (allNodesApplied_true c m'); [by rewrite Hm|done].
    - intros Hman. rewrite Hman in Em. cbn in Em. to_prop. lia. }
  destruct (m_setReady m !! c) as [i|] eqn:Ei.
  - apply (H m i eq_refl) in Ht as (? & ? & ?). eauto 6.
  - destruct (LoadSetReady c (m_store m)) as [i|] eqn:El; [|done].
    apply (H _ i) in Ht as (? & ? & ?); [|done]. eauto 6.
Qed.

Definition demo_armed : Manager :=
  run_ops (demo_ready_ops ++ [OpSubmitSetReady "c" zero_SetReadyInput]) demo_manager.

Lemma GetSetReady_trigger_witness :
  ∃ d, demo_armed.(m_deploys) !! "c" = Some d
    ∧ ∀ h nd, d.(d_Nodes) !! h = Some nd → nd.(nd_State) = StateDone.
Proof.
  destruct (holds_at_true "c" "a" (fun _ _ => true) demo_armed) as (d & nd & Hd & Hn & _);
    [vm_compute; reflexivity|].
  exists d. split; [exact Hd|].
  assert ((GetSetReady "c" demo_armed).2.(sr_Trigger) = true) as Ht by (vm_compute; reflexivity).
  exact (proj1 (proj2 (GetSetReady_trigger "c" demo_armed d Ht Hd))).
Defined.

(** ** Cancelling *)

Lemma cancel_node_terminal now nd : terminal (cancel_node now nd).(nd_State) = true.
Proof. unfold cancel_node. by destruct (terminal (nd_State nd)) eqn:E. Qed.

Lemma cancel_lookup c m :
  (Cancel c m).(m_deploys) !! c
  = (fun d => set_d_Nodes (cancel_node (nowUTC m) <$> d.(d_Nodes)) d) <$> m.(m_deploys) !! c.
Proof.
  unfold Cancel. destruct (m_cancels m !! c); cbn; destruct (m_deploys m !! c) as [d|] eqn:Ed;
    cbn; rewrite ?lookup_insert_eq, ?Ed; done.
Qed.

(** Cancelling ends a deploy for good: its context is cancelled and
    forgotten, no active deploy remains, the PXE watcher's wait is over, nodes
    that were done or had failed keep their record untouched and every other
    node ends in error with the cancellation code. *)
Theorem Cancel_ends c m :
  HasActiveDeploy c (Cancel c m) = false
  ∧ deployNodesBooted c (Cancel c m) = true
  ∧ (Cancel c m).(m_cancels) !! c = None
  ∧ (∀ ctx, m.(m_cancels) !! c = Some ctx → ctx ∈ (Cancel c m).(m_cancelled))
  ∧ ∀ h nd, node_of c h m = Some nd →
      ∃ nd', node_of c h (Cancel c m) = Some nd'
        ∧ if terminal nd.(nd_State) then nd' = nd
          else nd'.(nd_State) = StateError ∧ nd'.(nd_ErrCode) = ErrCancelled
               ∧ nd'.(nd_Gates) = nd.(nd_Gates).
Proof.
  pose proof (cancel_lookup c m) as Hl. split; [|split; [|split; [|split]]].
  - unfold HasActiveDeploy. rewrite Hl. destruct (m_deploys m !! c) as [d|]; cbn; [|done].
    apply negb_false_iff, map_forallb_true. intros h nd. rewrite lookup_fmap.
    intros (x & _ & ->)%fmap_Some. apply cancel_node_terminal.
  - unfold deployNodesBooted. rewrite Hl. destruct (m_deploys m !! c) as [d|]; cbn; [|done].
    apply map_forallb_true. intros h nd. rewrite lookup_fmap.
    intros (x & _ & ->)%fmap_Some. pose proof (cancel_node_terminal (nowUTC m) x) as Ht.
    unfold terminal in Ht. apply orb_true_iff in Ht as [Ht|Ht];
      apply bool_decide_eq_true in Ht; by rewrite Ht.
  - unfold Cancel. destruct (m_cancels m !! c) eqn:Ec; cbn; case_match; cbn; try done;
      by rewrite lookup_delete_eq.
  - unfold Cancel. intros ctx ->. cbn. case_match; cbn; set_solver.
  - intros h nd. unfold node_of. rewrite Hl. destruct (m_deploys m !! c) as [d|]; [|done].
    cbn. intros Hn. rewrite lookup_fmap, Hn. cbn. eexists. split; [reflexivity|].
    unfold cancel_node. by destruct (terminal (nd_State nd)).
Qed.

(** ** Master-first, in band *)

(** The in-band answer keeps master-first too: CheckIn tells a node of an
    active deploy to go on only if it is the master, the deploy names none, or
    the master is done; a held node is parked, never past the hold. *)
Theorem CheckIn_master_first c h m d :
  m.(m_deploys) !! c = Some d →
  ((CheckIn c h m).2 = false ↔
     h = d.(d_Master) ∨ d.(d_Master) = "" ∨ node_done d d.(d_Master) = true)
  ∧ ∀ nd nd', d.(d_Nodes) !! h = Some nd → node_of c h (CheckIn c h m).1 = Some nd' →
      nd' = nd
      ∨ checkin_state nd.(nd_State) = true
        ∧ nd'.(nd_State) = if (CheckIn c h m).2 then StateWaiting else StateCheckedIn.
Proof.
  intros Hd. unfold CheckIn, node_of. rewrite Hd.
  set (hold := negb (bool_decide (h = d_Master d))
               && negb (is_empty (d_Master d) || node_done d (d_Master d))).
  assert (hold = false ↔ h = d_Master d ∨ d_Master d = "" ∨ node_done d (d_Master d) = true) as Hh.
  { subst hold. rewrite andb_false_iff, !negb_false_iff, bool_decide_eq_true, orb_true_iff.
    rewrite is_empty_true. tauto. }
  destruct (d_Nodes d !! h) as [nd|] eqn:En; [|by split; [|done]].
  destruct (checkin_state (nd_State nd)) eqn:Es; cbn [fst snd].
  - split; [done|]. intros x nd' [= <-]. cbn. rewrite lookup_insert_eq. cbn.
    rewrite lookup_insert_eq. intros [= <-]. right. split; [done|]. done.
  - split; [done|]. intros x nd' [= <-]. rewrite Hd. cbn. rewrite En. intros [= <-]. by left.
Qed.

Lemma CheckIn_master_first_witness :
  ∃ d, demo_manual.(m_deploys) !! "c" = Some d ∧ (CheckIn "c" "b" demo_manual).2 = true
    ∧ ((CheckIn "c" "b" demo_manual).2 = false ↔
         "b" = d.(d_Master) ∨ d.(d_Master) = "" ∨ node_done d d.(d_Master) = true).
Proof.
  destruct (holds_at_true "c" "a" (fun _ _ => true) demo_manual) as (d & nd & Hd & Hn & _);
    [vm_compute; reflexivity|].
  exists d. split; [exact Hd|]. split; [vm_compute; reflexivity|].
  exact (proj1 (CheckIn_master_first "c" "b" demo_manual d Hd)).
Defined.

(** ** Cluster readiness *)

(** A finished deploy is ready when every target that is named answers. *)
Lemma verify_ready c ping m d :
  m.(m_deploys) !! c = Some d →
  ∃ d', (verify_done c (Verify ping d.(d_VerifyTargets)) m).(m_deploys) !! c = Some d'
    ∧ (d'.(d_ClusterReady) = true ↔ ∀ t, t ∈ d.(d_VerifyTargets) → t ≠ "" → ping t = true).
Proof.
  intros Hd. unfold verify_done. rewrite Hd. eexists. split; [apply lookup_insert_eq|]. cbn [d_ClusterReady set_d_ClusterReady].
  rewrite forallb_forall. unfold Verify. split.
  - intros H t Hin Hne. specialize (H (mkPreflightResult ("reach " +:+ t) (ping t) "")). apply H.
    apply list_elem_of_In, list_elem_of_omap. exists t. split; [done|].
    unfold is_empty. by rewrite (proj2 (String.eqb_neq t "")).
  - intros H r Hin. apply list_elem_of_In, list_elem_of_omap in Hin as (t & Hin & Ht).
    destruct (is_empty t) eqn:E; [done|]. injection Ht as <-. apply H; [done|]. by apply String.eqb_neq in E.
Qed.
