(* ===== verification/OrchestratorStore.v ===== *)
(** * Durability, ledgers and stale goroutines

    Every handler writes the deploy it changes, so with a working disk the
    files mirror the memory and a restarted driver shows the same deploy.
    Ledgers only grow during a run and never hold a stage twice.  The last
    part records two behaviours of the code that lose state. *)
From S2P Require Import Prelude GoStrings DeployModel SelCodec Orchestrator OrchestratorFrames OrchestratorOps DeployDemo OrchestratorSafety OrchestratorStart.

Open Scope string_scope.
Open Scope list_scope.
Open Scope Z_scope.

(** ** The files mirror the memory *)

Definition synced (m : Manager) : Prop :=
  m.(m_store).(st_ok) = true
  ∧ ∀ c d, m.(m_deploys) !! c = Some d →
      d.(d_ClusterID) = c ∧ m.(m_store).(st_deploys) !! c = Some d.

Lemma synced_same m m' :
  m'.(m_deploys) = m.(m_deploys) → m'.(m_store).(st_deploys) = m.(m_store).(st_deploys) →
  m'.(m_store).(st_ok) = m.(m_store).(st_ok) → synced m → synced m'.
Proof. intros Hd Hs Ho [Hok H]. split; [congruence|]. intros c d. rewrite Hd, Hs. apply H. Qed.

Lemma synced_put c d m :
  d.(d_ClusterID) = c → synced m → synced (persistLocked d (put_deploy c d m)).
Proof.
  intros Hc [Hok H]. unfold persistLocked, Store_Save. cbn. rewrite Hok. split; [done|]. cbn.
  intros c' d'. destruct (decide (c = c')) as [<-|Hne].
  - rewrite Hc, !lookup_insert_eq. naive_solver.
  - rewrite Hc, !lookup_insert_ne by done. apply H.
Qed.

(** [put_deploy] of a record that keeps the cluster it was found under. *)
Lemma synced_put_from c d d' m :
  m.(m_deploys) !! c = Some d → d'.(d_ClusterID) = d.(d_ClusterID) →
  synced m → synced (persistLocked d' (put_deploy c d' m)).
Proof.
  intros Hd Hc Hs. apply synced_put; [|done]. rewrite Hc. by apply Hs.
Qed.

Lemma synced_set c h fn m : synced m → synced (set c h fn m).
Proof.
  intros Hs. unfold set. destruct (m_deploys m !! c) as [d|] eqn:Ed; [|done].
  case_match; [|done]. by eapply synced_put_from.
Qed.

Lemma SaveSetReady_deploys c i s : (SaveSetReady c i s).(st_deploys) = s.(st_deploys).
Proof. unfold SaveSetReady. by case_match. Qed.

Lemma synced_save_ready c i m :
  synced m → synced (set_m_store (SaveSetReady c i m.(m_store)) m).
Proof. apply synced_same; cbn; [done|apply SaveSetReady_deploys|apply SaveSetReady_ok]. Qed.

Lemma synced_authorize c targets stage m : synced m → synced (authorizeGatesLocked c targets stage m).
Proof.
  intros Hs. unfold authorizeGatesLocked. destruct (m_deploys m !! c) as [d|] eqn:Ed; [|done].
  by eapply synced_put_from.
Qed.

Lemma synced_flush c targets m : synced m → synced (flushGatesAsync c targets m).
Proof. unfold flushGatesAsync. repeat case_match; intros; by eapply synced_same. Qed.

Lemma synced_writeGos c targets stage m : synced m → synced (writeGosAsync c targets stage m).
Proof. intros Hs. by apply synced_flush, synced_authorize. Qed.

#[export] Hint Resolve synced_set synced_authorize synced_flush synced_writeGos synced_save_ready : cube.

Lemma synced_auto c m : synced m → synced (maybeAutoSetReady c m).
Proof. intros Hs. unfold maybeAutoSetReady. repeat case_match; auto with cube. Qed.
Lemma synced_releasePeers c h m : synced m → synced (releasePeersOnMasterDone c h m).
Proof. intros Hs. unfold releasePeersOnMasterDone. repeat case_match; auto with cube. Qed.
Lemma synced_verify c m : synced m → synced (maybeVerifyCluster c m).
Proof. intros Hs. unfold maybeVerifyCluster. repeat case_match; by try eapply synced_same. Qed.
#[export] Hint Resolve synced_auto synced_releasePeers synced_verify : cube.

Lemma synced_MarkReady c ok msg m : synced m → synced (MarkReady c ok msg m).
Proof.
  intros Hs. unfold MarkReady. set (i := set_sr_Message _ _). set (m1 := set_m_setReady _ m).
  set (m2 := match m_deploys m1 !! c with None => m1 | Some _ => _ end).
  assert (synced m1) as H1 by (by eapply synced_same).
  apply synced_save_ready. subst m2. destruct (m_deploys m1 !! c) as [d|] eqn:Ed; [|done].
  by eapply synced_put_from.
Qed.
#[export] Hint Resolve synced_MarkReady : cube.

(** Handlers that look a deploy up, change it and write it. *)
Ltac synced_cases :=
  repeat case_match; simplify_eq/=;
  first [ assumption | eapply synced_put_from; [eassumption|reflexivity|assumption] ].

Lemma synced_step_gos c step m : synced m → synced (step_gos c step m).
Proof. intros Hs. unfold step_gos. repeat case_match; auto with cube. Qed.

Lemma synced_Advance c m : synced m → synced (AdvanceStep c m).1.
Proof.
  intros Hs. unfold AdvanceStep. destruct (m_deploys m !! c) as [d|] eqn:Ed; [|done].
  do 3 (case_match; [done|]). cbn. apply synced_step_gos. by eapply synced_put_from.
Qed.

Lemma synced_Cancel c m : synced m → synced (Cancel c m).
Proof.
  intros Hs. unfold Cancel. set (m1 := match m_cancels m !! c with Some _ => _ | None => _ end).
  assert (synced m1) as H1 by (subst m1; case_match; [by eapply synced_same|done]).
  destruct (m_deploys m1 !! c) as [d|] eqn:Ed; [|done]. by eapply synced_put_from.
Qed.

Lemma synced_runNode c n pc ev m : synced m → synced (runNode_step c n pc ev m).1.
Proof.
  intros Hs. unfold runNode_step, fail, advance. destruct pc, ev as [[e|]| |past obs]; cbn; auto with cube.
  destruct (agentDriven _); [done|]. destruct past; cbn; [auto with cube|].
  destruct obs; [|done]. destruct sawImaging; repeat case_decide; simplify_eq; cbn; auto with cube.
Qed.

Lemma synced_GetSetReady c m : synced m → synced (GetSetReady c m).1.
Proof.
  destruct (GetSetReady_deploys c m) as (Hd & _ & _ & _ & Hst).
  apply synced_same; by rewrite ?Hst.
Qed.

Lemma synced_Release c h wr m : synced m → synced (ReleaseNode c h wr m).1.
Proof. intros Hs. unfold ReleaseNode. repeat case_match; simplify_eq/=; auto with cube. Qed.

Lemma synced_MergeSEL c h s m : synced m → synced (MergeSEL c h s m).
Proof. intros Hs. unfold MergeSEL. repeat case_match; auto 6 with cube. Qed.

Lemma reset_synced c m : synced m → synced (reset_set_ready c m).
Proof.
  intros Hs. unfold reset_set_ready. repeat case_match; try done.
  apply (synced_save_ready c _ (set_m_setReady _ m)). by eapply synced_same.
Qed.

Lemma synced_register c a m : synced m → synced (Start_register c a m).1.
Proof.
  intros Hs. unfold Start_register.
  set (m0 := match m_cancels m !! c with Some _ => _ | None => _ end).
  assert (synced m0) as H0 by (subst m0; case_match; [by eapply synced_same|done]).
  set (d := fresh_deploy _ c _ a). cbn [fst].
  (* registering before persisting: the final write makes the two agree *)
  set (m1 := set_m_nodes _ _).
  assert (synced m1) as H1 by (by eapply synced_same).
  set (m2 := reset_set_ready c (put_deploy c d m1)).
  destruct (reset_deploys c (put_deploy c d m1)) as (Hd2 & _). fold m2 in Hd2.
  assert (m_store (reset_set_ready c (put_deploy c d m1)) = m_store (reset_set_ready c m1)) as Hst.
  { unfold reset_set_ready. cbn. by repeat case_match. }
  pose proof (reset_synced c m1 H1) as [Hok Hall]. rewrite <- Hst in Hok, Hall. fold m2 in Hok, Hall.
  unfold persistLocked, Store_Save. cbn. rewrite Hok. split; [done|]. cbn.
  intros c' d'. rewrite Hd2. cbn. destruct (decide (c = c')) as [<-|Hne].
  - rewrite !lookup_insert_eq. by intros [= <-].
  - rewrite !lookup_insert_ne by done. intros Hl. apply Hall.
    by rewrite (proj1 (reset_deploys c m1)).
Qed.

Lemma synced_anchors c a anchor m : synced m → synced (anchors_phase c a anchor m).
Proof.
  intros Hs. unfold anchors_phase. destruct (m_has_sel m); [|done].
  revert m Hs. induction (sa_nodes a) as [|n l IH]; intros m Hs; cbn [foldl]; [done|].
  apply IH. unfold Start_anchor. destruct (m_deploys m !! c) as [d|] eqn:Ed; [|done].
  eapply synced_put_from; [done| |done]. by case_match.
Qed.

Lemma synced_spawns c ref l m :
  synced m → synced (foldl (fun m n => spawn (JRunNode c n ref RnPreflight) m) m l).
Proof.
  revert m. induction l as [|n l IH]; intros m Hs; cbn [foldl]; [done|].
  apply IH. by eapply synced_same.
Qed.

Lemma synced_gates c a m : synced m → synced (Start_gates c a m).
Proof.
  intros Hs. unfold Start_gates. destruct (negb _ || _); [done|].
  apply synced_flush. by do 3 apply synced_authorize.
Qed.

Lemma synced_flip ctx image arm flip b m :
  synced m → synced (flipForBoot ctx image arm flip b m).1.
Proof.
  intros Hs. unfold flipForBoot. destruct (negb _); [done|].
  destruct (flip image arm) as [[]|e]; [by eapply synced_same|done|done].
Qed.

Lemma synced_spawn c a ctx m : synced m → synced (Start_spawn c a ctx m).
Proof.
  intros Hs. unfold Start_spawn. pose proof (synced_spawns c ctx (sa_nodes a) m Hs) as Hf.
  destruct (m_has_sel _); (destruct (m_has_gate _); [|]);
    first [exact Hf | eapply synced_same; [..|exact Hf]; reflexivity].
Qed.

Lemma synced_abort c ref m : synced m → synced (Start_abort c ref m).
Proof.
  intros [Hok Hall]. unfold Start_abort. cbn. destruct (m_deploys m !! c) as [d|]; [|by split].
  destruct (decide _); [|by split].
  unfold Store_Delete. cbn. rewrite Hok. split; [done|]. cbn.
  intros c' d'. destruct (decide (c = c')) as [<-|Hcc]; [by rewrite lookup_delete_eq|].
  rewrite !lookup_delete_ne by done. apply Hall.
Qed.

Lemma synced_Start c a anchor flip m : synced m → synced (Start c a anchor flip m).1.
Proof.
  intros Hs. destruct (decide (sa_nodes a = [])) as [He|Hne]; [by rewrite Start_empty|].
  pose proof (Start_phases c a anchor flip m Hne) as Hph. cbn zeta in Hph.
  pose proof (synced_gates c a _ (synced_anchors c a anchor _ (synced_register c a m Hs))) as H3.
  apply (synced_flip (Some (Start_register c a m).2) (sa_image a)
    (deployArm (Start_gates c a (anchors_phase c a anchor (Start_register c a m).1))) flip
    (BootedDeploy c)) in H3.
  destruct (flipForBoot _ _ _ _ _ _) as [m4 [u|e]]; rewrite Hph; cbn [fst] in H3 |- *.
  - by apply synced_spawn.
  - by apply synced_abort.
Qed.

(** ** Restarting the driver *)

(** Operations of a driver whose disk keeps working. *)
Definition disk_works (o : Op) : Prop :=
  match o with OpEnv _ ok => ok = true | _ => True end.

Lemma synced_op o m : disk_works o → synced m → synced (run_op o m).
Proof.
  intros Ho Hs. destruct o; cbn [run_op];
    unfold Report, PreflightReport, PreflightFail, PreflightProgress, ApplyStarted, WaitForMaster,
      ApplyFailed, ackGates, runNode_start, advance, Applied, SubmitSetReady, verify_done;
    auto using synced_Advance, synced_Cancel, synced_runNode, synced_GetSetReady, synced_Release,
      synced_MergeSEL, synced_Start with cube.
  - case_decide; auto with cube.
  - unfold RestoreDone. case_match; [apply (synced_same (set c h restore_done m))|]; auto with cube.
  - unfold RekickPreflight. synced_cases.
  - unfold GreenLight1. synced_cases.
  - unfold CheckIn. synced_cases.
  - destruct (m_deploys m !! c) as [d|] eqn:Ed; [|done]. by eapply synced_put_from.
  - cbn. auto with cube.
  - cbn in Ho. subst disk_ok. split; [done|]. apply Hs.
Qed.

(** A new process on the same disk and configuration. *)
Definition restarted (m : Manager) : Manager :=
  mkManager m.(m_store) m.(m_cfg) m.(m_clock) 0 m.(m_has_gate) m.(m_has_endpoint_writer)
    m.(m_has_sel) m.(m_has_pxe) m.(m_manualGate) m.(m_advertiseIP) m.(m_advertisePort)
    ∅ ∅ ∅ ∅ ∅ ∅ ∅ ∅ [].

Definition with_ready (c : string) (m : Manager) (d : Deploy) : Deploy :=
  match LoadSetReady c m.(m_store) with
  | Some i => set_d_SetReadyDone i.(sr_Ready) d
  | None => d
  end.

Lemma run_synced m0 hist m :
  idle m0 → m0.(m_store).(st_ok) = true → run disk_works m0 hist m → synced m.
Proof.
  intros [Hd _] Hok. apply run_invariant; [intros; by apply synced_op|].
  split; [done|]. intros c d. by rewrite Hd, lookup_empty.
Qed.

(** C20. A deploy survives a driver restart: after any sequence of operations
    with a working disk, the view a new process computes from the files is the
    view of the deploy that was in memory, node for node and gate for gate,
    with the set_ready flag taken from the persisted set-ready result. *)
Theorem restart_Status m0 hist m c d :
  idle m0 → m0.(m_store).(st_ok) = true → run disk_works m0 hist m →
  m.(m_deploys) !! c = Some d →
  Status c m = Ok (deriveDeployFields (deriveNodeFields d) m)
  ∧ Status c (restarted m)
    = Ok (deriveDeployFields (deriveNodeFields (with_ready c m d)) m).
Proof.
  intros Hi Hok Hr Hd. destruct (run_synced _ _ _ Hi Hok Hr) as [_ Hall].
  destruct (Hall _ _ Hd) as [_ Hs]. unfold Status, snapshot. rewrite Hd. split; [done|].
  cbn. rewrite lookup_empty. unfold Store_Load. rewrite Hs. done.
Qed.

Lemma restart_Status_witness :
  ∃ d, (run_ops demo_release_ops demo_manager).(m_deploys) !! "c" = Some d
    ∧ Status "c" (restarted (run_ops demo_release_ops demo_manager))
      = Ok (deriveDeployFields (deriveNodeFields
              (with_ready "c" (run_ops demo_release_ops demo_manager) d))
              (run_ops demo_release_ops demo_manager)).
Proof.
  destruct (holds_at_true "c" "a" (fun _ _ => true) (run_ops demo_release_ops demo_manager))
    as (d & nd & Hd & Hn & _); [vm_compute; reflexivity|].
  exists d. split; [exact Hd|].
  refine (proj2 (restart_Status demo_manager (run_hist demo_release_ops demo_manager) _ "c" d
    demo_idle eq_refl _ Hd)).
  apply run_of_ops. repeat constructor.
Defined.

(** ** Ledgers only grow *)

Definition stage_ok (g : Z) : Prop := 1 ≤ g ≤ 4.

Definition gates_ok (m : Manager) : Prop :=
  ∀ c h nd, node_of c h m = Some nd → NoDup nd.(nd_Gates) ∧ Forall stage_ok nd.(nd_Gates).

Lemma barrier_stage ok d h stage : barrier ok d h stage → stage_ok stage.
Proof.
  unfold barrier, stage_ok, gateStageRestore, gateStageReboot, gateStageApply, gateStageSetReady.
  destruct (Z.eqb_spec stage 1); [lia|]. destruct (Z.eqb_spec stage 2); [lia|].
  destruct (Z.eqb_spec stage 3); [lia|]. destruct (Z.eqb_spec stage 4); [lia|done].
Qed.

Lemma allowed_stage m m' c h stage : allowed m m' c h stage → stage_ok stage.
Proof. intros [(d & _ & Hb)|(d & _ & Hb)]; by eapply barrier_stage. Qed.

Lemma Release_ledger c h wr m :
  evolves (ledger (fun _ _ => stage_ok)) m (ReleaseNode c h wr m).1.
Proof.
  assert (∀ n, evolves (ledger (fun _ _ => stage_ok)) m (authorizeGatesLocked c [n] gateStageApply m)) as Ha.
  { intros n. eapply granted_ledger; [|apply authorize_evolves]. done. }
  unfold ReleaseNode. repeat case_match; simplify_eq/=;
    first [apply Ha | apply evolves_refl, ledger_refl].
Qed.

(** Any operation but [Start]: ledgers grow by stages of the protocol. *)
Lemma op_grows o m :
  nodes_ok m → is_start o = false →
  evolves (ledger (fun _ _ => stage_ok)) m (run_op o m).
Proof.
  intros Hok Hs. destruct (is_release o) eqn:Er.
  - destruct o; try done. apply Release_ledger.
  - eapply evolves_mono; [|by apply op_ledger]. intros c h x y [(l & Hl & HF) Hn].
    split; [|done]. exists l. split; [done|]. eapply Forall_impl; [exact HF|].
    intros g. apply allowed_stage.
Qed.

Lemma ledger_gates_ok m m' :
  evolves (ledger (fun _ _ => stage_ok)) m m' → gates_ok m → gates_ok m'.
Proof.
  intros Hev Hg c h nd'. unfold node_of. destruct (m_deploys m' !! c) as [d'|] eqn:Hd'; [|done].
  cbn. intros Hn'. destruct (evolves_node _ _ _ _ _ _ _ Hev Hd' Hn')
    as (d & nd & Hd & Hn & _ & (l & Hl & HF) & Hnd).
  destruct (Hg c h nd) as [H1 H2]; [unfold node_of; by rewrite Hd|].
  split; [by apply Hnd|]. rewrite Hl. by apply Forall_app.
Qed.

Lemma initial_gates_ok has_gate a h :
  NoDup (initial_gates has_gate a h) ∧ Forall stage_ok (initial_gates has_gate a h).
Proof.
  unfold initial_gates. case_match; [|by split; constructor].
  split.
  - apply (bool_decide_unpack _). case_decide; vm_compute; exact I.
  - case_decide; cbn; rewrite !Forall_cons, Forall_nil;
      unfold stage_ok, gateStageRestore, gateStageReboot, gateStageApply; lia.
Qed.

Lemma gates_ok_Start c a anchor flip m : gates_ok m → gates_ok (Start c a anchor flip m).1.
Proof.
  intros Hg. destruct (decide (sa_nodes a = [])) as [He|Hne]; [by rewrite Start_empty|].
  destruct (Start_tables c a anchor flip m Hne) as [_ Ht].
  destruct (Start_gated c a anchor m) as ([Ho _] & _ & d3 & Hc3 & _ & _ & _ & _ & Hfresh).
  intros c' h nd. unfold node_of. destruct (decide (c' = c)) as [->|Hcc].
  - destruct Ht as [Ht|Ht]; rewrite Ht; [|by rewrite lookup_delete_eq].
    rewrite Hc3. cbn. intros Hn. destruct (Hfresh _ _ Hn) as (_ & _ & _ & _ & ->).
    apply initial_gates_ok.
  - assert ((Start c a anchor flip m).1.(m_deploys) !! c' = m_deploys m !! c') as ->; [|apply Hg].
    rewrite <- (Ho c' Hcc).
    destruct Ht as [Ht|Ht]; rewrite Ht; [done|by rewrite lookup_delete_ne].
Qed.

Lemma run_gates_ok P m0 hist m : idle m0 → run P m0 hist m → gates_ok m.
Proof.
  intros Hi Hrun. induction Hrun as [|hist m o Hrun IH _].
  - intros c h nd. unfold node_of. by rewrite (proj1 Hi), lookup_empty.
  - destruct (is_start o) eqn:Es; [destruct o; try done; by apply gates_ok_Start|].
    eapply ledger_gates_ok; [|exact IH]. apply op_grows; [|done]. by eapply run_nodes_ok.
Qed.

(** A granted gate is never revoked within a run: after any history, any
    operation other than a new Start, the forced release included, leaves
    every ledger with its old entries in place; ledgers never list a stage
    twice, and the stages are the four of the protocol, so converting them to
    bytes for the BMC loses nothing. *)
Theorem gates_never_revoked P m0 hist m o c h nd :
  idle m0 → run P m0 hist m → is_start o = false → node_of c h m = Some nd →
  ∃ nd', node_of c h (run_op o m) = Some nd' ∧ nd.(nd_Gates) `prefix_of` nd'.(nd_Gates)
    ∧ NoDup nd'.(nd_Gates) ∧ gateBytes nd'.(nd_Gates) = nd'.(nd_Gates).
Proof.
  intros Hi Hr Hs Hn. pose proof (run_nodes_ok _ _ _ _ Hi Hr) as Hok.
  pose proof (op_grows o m Hok Hs) as Hev.
  pose proof (ledger_gates_ok _ _ Hev (run_gates_ok _ _ _ _ Hi Hr)) as Hg.
  destruct (node_of c h (run_op o m)) as [nd'|] eqn:Hn'.
  - exists nd'. split; [done|]. unfold node_of in Hn, Hn'.
    destruct (m_deploys (run_op o m) !! c) as [d'|] eqn:Hd'; [|done]. cbn in Hn'.
    destruct (evolves_node _ _ _ _ _ _ _ Hev Hd' Hn') as (d & x & Hd & Hx & _ & (l & Hl & _) & _).
    rewrite Hd in Hn. cbn in Hn. simplify_eq. split; [rewrite Hl; by apply prefix_app_r|].
    destruct (Hg c h nd') as [H1 H2]; [unfold node_of; by rewrite Hd'|]. split; [done|].
    unfold gateBytes. rewrite <- (list_fmap_id (nd_Gates nd')) at 2.
    apply list_fmap_ext. intros i g Hi'. apply (Forall_lookup_1 _ _ _ _ H2) in Hi'.
    unfold byte_of, stage_ok in *. cbn. rewrite Z.mod_small; lia.
  - exfalso. unfold node_of in Hn, Hn'. destruct (m_deploys m !! c) as [d|] eqn:Hd; [|done].
    destruct (evolves_deploy_fwd _ _ _ _ _ Hev Hd) as (d' & Hd' & Hdd).
    rewrite Hd' in Hn'. cbn in Hn, Hn'.
    destruct (proj2 (ev_dom _ _ _ Hdd h) ltac:(by exists nd)) as [y Hy]. congruence.
Qed.

Lemma gates_never_revoked_witness :
  ∃ nd nd', node_of "c" "b" (run_ops (demo_ops false) demo_manager) = Some nd
    ∧ node_of "c" "b" (run_op (OpApplied "c" "a") (run_ops (demo_ops false) demo_manager)) = Some nd'
    ∧ nd.(nd_Gates) `prefix_of` nd'.(nd_Gates)
    ∧ NoDup nd'.(nd_Gates) ∧ gateBytes nd'.(nd_Gates) = nd'.(nd_Gates).
Proof.
  destruct (holds_at_true "c" "b" (fun _ _ => true) (run_ops (demo_ops false) demo_manager))
    as (d & nd & Hd & Hn & _); [vm_compute; reflexivity|].
  assert (node_of "c" "b" (run_ops (demo_ops false) demo_manager) = Some nd) as Hnd
    by (unfold node_of; rewrite Hd; exact Hn).
  destruct (gates_never_revoked (fun _ => True) demo_manager
    (run_hist (demo_ops false) demo_manager) (run_ops (demo_ops false) demo_manager) (OpApplied "c" "a") "c" "b" nd demo_idle) as (nd' & H);
    [|reflexivity|exact Hnd|].
  - apply run_of_ops. repeat constructor.
  - exists nd, nd'. split; [exact Hnd|exact H].
Defined.

(** ** The out-of-band poll *)

Lemma poll_node_flag c master wr anchor obs acc n :
  (poll_node c master wr anchor obs acc n).2
  = acc.2 && terminal (state c n.(n_Hostname) acc.1).
Proof. destruct acc as [m b]. unfold poll_node. by repeat case_match. Qed.

Lemma poll_fold_stop c master anchor obs nodes m m' :
  foldl (poll_node c master false anchor obs) (m, true) nodes = (m', true)
  ↔ m' = m ∧ Forall (fun n => terminal (state c n.(n_Hostname) m) = true) nodes.
Proof.
  assert (∀ nodes m m', foldl (poll_node c master false anchor obs) (m, false) nodes ≠ (m', true)) as Hf.
  { clear. induction nodes as [|n nodes IH]; intros m m'; cbn [foldl]; [congruence|].
    pose proof (poll_node_flag c master false anchor obs (m, false) n) as E.
    destruct (poll_node _ _ _ _ _ _ _) as [m1 b1]. cbn in E. subst b1. apply IH. }
  induction nodes as [|n nodes IH]; cbn [foldl].
  { rewrite Forall_nil. naive_solver. }
  rewrite Forall_cons. destruct (terminal (state c (n_Hostname n) m)) eqn:Et.
  - replace (poll_node c master false anchor obs (m, true) n) with (m, true)
      by (unfold poll_node; by rewrite Et).
    rewrite IH. tauto.
  - pose proof (poll_node_flag c master false anchor obs (m, true) n) as E.
    destruct (poll_node _ _ _ _ _ _ _) as [m1 b1]. cbn in E. rewrite Et in E. subst b1.
    split; [intros H; by apply Hf in H|naive_solver].
Qed.

(** The out-of-band poll stops exactly when there is nothing left to
    learn: a tick ends the poll if and only if every node is terminal and no
    set_ready is outstanding, and such a tick changes nothing.  So the result
    of a finalizing cluster, read from the master's BMC after all nodes are
    done, is never missed because the poll ended early. *)
Theorem pollSEL_stops c nodes anchor obs m m' :
  pollSEL_tick c nodes anchor obs m = (m', true)
  ↔ setReadyPending c m = false ∧ m' = m
    ∧ Forall (fun n => terminal (state c n.(n_Hostname) m) = true) nodes.
Proof.
  unfold pollSEL_tick. destruct (setReadyPending c m).
  - destruct (foldl _ _ _) as [m1 b]. rewrite andb_false_r. naive_solver.
  - rewrite <- (poll_fold_stop c (Master c m) anchor obs nodes m m').
    destruct (foldl _ _ _) as [m1 b]. rewrite andb_true_r. naive_solver.
Qed.

(** ** Goroutines outlive their run *)

(** A driver goroutine waiting on its first BMC call when the operator starts
    the cluster again: the handlers that end it look the deploy up by cluster
    and hostname only. *)

(** A restarted deploy can be failed by the goroutine it replaced.  A
    goroutine of an earlier run whose BMC call returns an error (its cancelled
    context's, for one) marks the node of the new run failed if the new run
    has not got past its driver stages, and from then on the new run's own
    goroutine can no longer move the node. *)
Theorem stale_goroutine_fails_new_run c n m nd e s :
  node_of c n.(n_Hostname) m = Some nd → nd.(nd_State) = StatePending →
  let m1 := (runNode_step c n RnPreflight (EvCall (Some e)) m).1 in
  state c n.(n_Hostname) m1 = StateError
  ∧ state c n.(n_Hostname) (advance c n.(n_Hostname) s m1) = StateError
  ∧ (∀ pc ev, state c n.(n_Hostname) (runNode_step c n pc ev m1).1 = StateError).
Proof.
  intros Hn Hs m1.
  assert (node_of c (n_Hostname n) m1
    = Some (set_nd_UpdatedAt (nowUTC m) (set_nd_Message e (set_nd_ErrCode ErrBMCUnreachable
              (set_nd_State StateError nd))))) as H1.
  { subst m1. cbn. unfold fail. rewrite set_node_of, Hn. cbn. by rewrite Hs. }
  assert (∀ fn, (∀ x, agentDriven (nd_State x) = true → nd_State (fn x) = nd_State x) →
    state c (n_Hostname n) (set c (n_Hostname n) fn m1) = StateError) as Hset.
  { intros fn Hfn. unfold state. rewrite set_node_of, H1. cbn. by rewrite Hfn. }
  assert (state c (n_Hostname n) m1 = StateError) as He by (unfold state; by rewrite H1).
  split; [done|]. split; [apply Hset; by intros x ->|].
  intros pc ev. unfold runNode_step. destruct pc, ev as [[e'|]| |past obs];
    try exact He; try (apply Hset; by intros x ->). by rewrite He.
Qed.

(** The restart: Start, the old goroutine still in its first call, Start. *)
Definition demo_restarted : Manager := run_ops [demo_start false; demo_start false] demo_manager.

Lemma stale_goroutine_fails_new_run_witness :
  ∃ nd, node_of "c" "a" demo_restarted = Some nd ∧ nd.(nd_State) = StatePending
    ∧ state "c" "a" (runNode_step "c" (demo_node "a") RnPreflight
                       (EvCall (Some "context canceled")) demo_restarted).1 = StateError.
Proof.
  destruct (holds_at_true "c" "a" (fun _ nd => bool_decide (nd.(nd_State) = StatePending)) demo_restarted)
    as (d & nd & Hd & Hn & Hs); [vm_compute; reflexivity|].
  apply bool_decide_eq_true in Hs.
  assert (node_of "c" "a" demo_restarted = Some nd) as Hnd by (unfold node_of; rewrite Hd; exact Hn).
  exists nd. split; [exact Hnd|]. split; [exact Hs|].
  exact (proj1 (stale_goroutine_fails_new_run "c" (demo_node "a") demo_restarted nd
    "context canceled" StateBMCPreflight Hnd Hs)).
Defined.

(** ** The set-ready parameters and a restart *)

(** The operator's set_ready parameters survive a restart only until the
    result comes in.  Submitting them with a working disk and restarting the
    driver gives them back; but a result reported to the restarted driver
    before anything has read them overwrites the persisted parameters with
    empty ones, because the result handler starts from the in-memory value
    without loading the file. *)
Theorem set_ready_restart c i ok msg m :
  m.(m_store).(st_ok) = true →
  let m1 := restarted (SubmitSetReady c i m) in
  (GetSetReady c m1).2 = submitted i
  ∧ (GetSetReady c (restarted (MarkReady c ok msg m1))).2
    = mkSetReadyInput false false "" "" "" ok msg
  ∧ (GetSetReady c (restarted (MarkReady c ok msg (GetSetReady c m1).1))).2
    = set_sr_Message msg (set_sr_Ready ok (submitted i)).
Proof.
  intros Hok m1.
  assert (m_store m1 = mkStore (st_deploys (m_store m)) (<[c := submitted i]> (st_setready (m_store m))) true)
    as Hst by (subst m1; unfold SubmitSetReady, SaveSetReady; cbn; by rewrite Hok).
  assert (∀ m' j, m_setReady m' !! c = None → m_deploys m' !! c = None →
    LoadSetReady c (m_store m') = Some j →
    GetSetReady c m' = (set_m_setReady (<[c := j]> (m_setReady m')) m', j)) as HG.
  { intros m' j H1 H2 H3. unfold GetSetReady. rewrite H1, H3.
    unfold allNodesAppliedLocked. cbn. rewrite H2, andb_false_r. done. }
  assert (LoadSetReady c (m_store m1) = Some (submitted i)) as Hload
    by (rewrite Hst; apply lookup_insert_eq).
  assert (m_setReady m1 = ∅ ∧ m_deploys m1 = ∅) as [Hsr Hde] by done. clearbody m1.
  assert (GetSetReady c m1 = (set_m_setReady (<[c := submitted i]> (m_setReady m1)) m1, submitted i))
    as Hget by (apply HG; [by rewrite Hsr|by rewrite Hde|done]).
  split; [by rewrite Hget|]. split.
  - rewrite (HG _ (mkSetReadyInput false false "" "" "" ok msg)); [done|apply lookup_empty..|].
    unfold MarkReady. rewrite Hsr, lookup_empty. cbn. rewrite Hde, lookup_empty. cbn. rewrite Hst.
    unfold SaveSetReady. cbn. apply lookup_insert_eq.
  - rewrite Hget.
    rewrite (HG _ (set_sr_Message msg (set_sr_Ready ok (submitted i))));
      [done|apply lookup_empty..|].
    unfold MarkReady. cbn. rewrite !lookup_insert_eq. cbn. rewrite Hde, lookup_empty. cbn.
    rewrite Hst. unfold SaveSetReady. cbn. apply lookup_insert_eq.
Qed.

Definition demo_input : SetReadyInput := mkSetReadyInput true true "10.1.0.0/24" "10.1.0.1" "r" false "".

Lemma set_ready_restart_witness :
  (GetSetReady "c" (restarted (MarkReady "c" true "ok" (restarted (SubmitSetReady "c" demo_input demo_manager))))).2
  = mkSetReadyInput false false "" "" "" true "ok".
Proof. exact (proj1 (proj2 (set_ready_restart "c" demo_input true "ok" demo_manager eq_refl))). Defined.
