(* ===== verification/OrchestratorInspect.v ===== *)
(** * Hardware inspects (internal/orchestrator/manager.go, StartInspect on)

    An inspect boots machines into the installer to report their hardware.
    The code keeps one [*InspectStatus] per machine and tells runs apart by
    that pointer: [m_inspects] maps a machine to a pointer and [m_istatus] is
    the store the pointers refer to. *)
From S2P Require Import Prelude GoStrings DeployModel SelCodec Orchestrator.
From Stdlib Require Import QArith.

Open Scope string_scope.
Open Scope list_scope.
Open Scope Z_scope.

Definition inspectCheckinTimeout : Z := 15 * Minute.

Definition inspectTimeout (m : Manager) : Z :=
  if 0 <? m.(m_cfg).(cfg_InspectTimeout) then m.(m_cfg).(cfg_InspectTimeout)
  else inspectCheckinTimeout.

(** Dereferencing a machine's current status. *)
Definition inspect_of (machineID : string) (m : Manager) : option InspectStatus :=
  r ← m.(m_inspects) !! machineID; m.(m_istatus) !! r.

Definition new_inspect (labels : gmap string string) (n : Node) (m : Manager) : InspectStatus :=
  mkInspectStatus n.(n_MachineID) (default "" (labels !! n.(n_MachineID))) "booting" "" (nowUTC m).

(** One turn of the registration loop. *)
Definition register_inspect (labels : gmap string string) (m : Manager) (n : Node) : Manager :=
  let r := m.(m_next) in
  set_m_inspectNodes (<[n.(n_MachineID) := n]> m.(m_inspectNodes))
    (set_m_inspects (<[n.(n_MachineID) := r]> m.(m_inspects))
       (set_m_istatus (<[r := new_inspect labels n m]> m.(m_istatus))
          (set_m_next (S r) m))).

(** The [prevStatus]/[prevNode] maps. *)
Definition saved {A} (old : gmap string A) (nodes : list Node) : gmap string A :=
  foldl (fun acc n => match old !! n.(n_MachineID) with
                      | Some s => <[n.(n_MachineID) := s]> acc
                      | None => acc
                      end) ∅ nodes.

Definition put_back {A} (prev : gmap string A) (nodes : list Node) (cur : gmap string A) : gmap string A :=
  foldl (fun acc n => match prev !! n.(n_MachineID) with
                      | Some s => <[n.(n_MachineID) := s]> acc
                      | None => delete n.(n_MachineID) acc
                      end) cur nodes.

(** The pointer each goroutine got: the last one registered for its machine. *)
Definition inspect_jobs (nodes : list Node) (m : Manager) : list Job :=
  imap (fun i n => JInspectRun n i (default 0%nat (m.(m_inspects) !! n.(n_MachineID)))) nodes.

Definition inspectArm (m : Manager) : string :=
  let url := driverURL m in
  if is_empty url then "" else "driver_server=" +:+ url.

Definition StartInspect (nodes : list Node) (labels : gmap string string) (image : string)
    (flip : string → string → result bool) (m : Manager) : Manager * result unit :=
  let prevStatus := saved m.(m_inspects) nodes in
  let prevNode := saved m.(m_inspectNodes) nodes in
  let m := foldl (register_inspect labels) m nodes in
  match flipForBoot None image (inspectArm m) flip (BootedInspects (n_MachineID <$> nodes)) m with
  | (m, Err e) =>
      (set_m_inspectNodes (put_back prevNode nodes m.(m_inspectNodes))
         (set_m_inspects (put_back prevStatus nodes m.(m_inspects)) m), Err e)
  | (m, Ok _) => (set_m_jobs (m.(m_jobs) ++ inspect_jobs nodes m) m, Ok tt)
  end.

Definition inspectsBooted (machineIDs : list string) (m : Manager) : bool :=
  forallb (fun id => match inspect_of id m with
                     | None => true
                     | Some s => negb (negb (s.(is_State) =? "reported")%string
                                       && negb (s.(is_State) =? "error")%string)
                     end) machineIDs.

Definition set_status (now st msg : string) (s : InspectStatus) : InspectStatus :=
  mkInspectStatus s.(is_MachineID) s.(is_Label) st msg now.

Definition timeout_msg : string :=
  "no check-in within timeout — node did not boot to inspect (check power / PXE)".

(** [run] is the pointer the timer was started with. *)
Definition expireInspectRun (machineID : string) (run : option nat) (m : Manager) : Manager :=
  match m.(m_inspects) !! machineID with
  | None => m
  | Some r =>
      match m.(m_istatus) !! r with
      | None => m
      | Some s =>
          if bool_decide (Some r = run) && (s.(is_State) =? "booting")%string
          then spawn (JResetInspect machineID)
                 (set_m_istatus (<[r := set_status (nowUTC m) "error" timeout_msg s]> m.(m_istatus)) m)
          else m
      end
  end.

Definition expireInspect (machineID : string) (m : Manager) : Manager :=
  expireInspectRun machineID (m.(m_inspects) !! machineID) m.

Definition setInspect (machineID st msg : string) (m : Manager) : Manager :=
  let m := match m.(m_inspects) !! machineID with
           | None => m
           | Some r => set_m_istatus (alter (set_status (nowUTC m) st msg) r m.(m_istatus)) m
           end in
  if (st =? "reported")%string || (st =? "error")%string
  then spawn (JResetInspect machineID) m else m.

(** How the goroutine of one machine ends. *)
Inductive InspectEnd := SetBootPXEFailed (err : string) | PowerCycleFailed (err : string) | TimerFired.

Definition inspect_run_end (n : Node) (run : nat) (e : InspectEnd) (m : Manager) : Manager :=
  match e with
  | SetBootPXEFailed err | PowerCycleFailed err => setInspect n.(n_MachineID) "error" err m
  | TimerFired => expireInspectRun n.(n_MachineID) (Some run) m
  end.

(** The critical section, and the node whose boot device is then reset. *)
Definition resetInspectBoot (machineID : string) (m : Manager) : Manager * option Node :=
  (set_m_inspectNodes (delete machineID m.(m_inspectNodes)) m, m.(m_inspectNodes) !! machineID).

Definition IsInspecting (machineID : string) (m : Manager) : bool :=
  match inspect_of machineID m with
  | None => false
  | Some s => negb (s.(is_State) =? "reported")%string
  end.

Definition InspectReported (machineID : string) : Manager → Manager :=
  setInspect machineID "reported" "".

Definition Inspects (m : Manager) : list InspectStatus :=
  omap (fun ir => m.(m_istatus) !! ir.2) (map_to_list m.(m_inspects)).

(** ** Well-formed pointers *)

Definition inspects_ok (m : Manager) : Prop :=
  (∀ id r, m.(m_inspects) !! id = Some r → (r < m.(m_next))%nat ∧ is_Some (m.(m_istatus) !! r))
  ∧ (∀ id1 id2 r, m.(m_inspects) !! id1 = Some r → m.(m_inspects) !! id2 = Some r → id1 = id2).

Lemma register_inspect_ok labels m n : inspects_ok m → inspects_ok (register_inspect labels m n).
Proof.
  intros [H1 H2]. split; cbn.
  - intros id r. destruct (decide (n_MachineID n = id)) as [<-|Hne].
    + rewrite lookup_insert_eq. intros [= <-]. rewrite lookup_insert_eq. split; [lia|by eexists].
    + rewrite lookup_insert_ne by done. intros Hr. apply H1 in Hr as [Hlt Hs].
      split; [lia|]. rewrite lookup_insert_ne by lia. done.
  - assert (∀ id, m_inspects m !! id ≠ Some (m_next m)) as Hf.
    { intros id Hr. apply H1 in Hr as [Hlt _]. lia. }
    intros id1 id2 r.
    destruct (decide (n_MachineID n = id1)) as [<-|], (decide (n_MachineID n = id2)) as [<-|];
      rewrite ?lookup_insert_eq, ?lookup_insert_ne by done; intros Ha Hb.
    + done.
    + injection Ha as <-. by destruct (Hf id2).
    + injection Hb as <-. by destruct (Hf id1).
    + by eapply H2.
Qed.

Lemma register_all_ok labels nodes m :
  inspects_ok m → inspects_ok (foldl (register_inspect labels) m nodes).
Proof.
  revert m. induction nodes as [|n l IH]; intros m Hok; [done|]. cbn [foldl].
  by apply IH, register_inspect_ok.
Qed.

(** Pointers handed out before stay as they were. *)
Lemma register_all_old labels nodes m :
  let m' := foldl (register_inspect labels) m nodes in
  (m.(m_next) ≤ m'.(m_next))%nat
  ∧ (∀ r, (r < m.(m_next))%nat → m'.(m_istatus) !! r = m.(m_istatus) !! r)
  ∧ (∀ id, id ∉ n_MachineID <$> nodes → m'.(m_inspects) !! id = m.(m_inspects) !! id
                                         ∧ m'.(m_inspectNodes) !! id = m.(m_inspectNodes) !! id)
  ∧ (∀ id, id ∈ n_MachineID <$> nodes → ∃ r s,
       m'.(m_inspects) !! id = Some r ∧ (m.(m_next) ≤ r)%nat
       ∧ m'.(m_istatus) !! r = Some s ∧ s.(is_State) = "booting" ∧ s.(is_MachineID) = id)
  ∧ m'.(m_jobs) = m.(m_jobs).
Proof.
  revert m. induction nodes as [|n l IH]; intros m; cbn [foldl].
  { repeat split; try done; set_solver. }
  destruct (IH (register_inspect labels m n)) as (Hn & Hold & Hother & Hnew & Hj). cbn in Hn, Hold, Hother, Hj.
  set (m' := foldl _ _ _) in *. split; [lia|]. split.
  { intros r Hr. rewrite Hold by lia. rewrite lookup_insert_ne by lia. done. }
  split.
  { intros id Hid. destruct (Hother id) as [-> ->]; [set_solver|].
    rewrite !lookup_insert_ne by set_solver. done. }
  split; [|done]. intros id Hid. destruct (decide (id ∈ n_MachineID <$> l)) as [Hin|Hnin].
  { destruct (Hnew id Hin) as (r & s & Hr & Hle & Hs). exists r, s.
    split; [done|]. split; [cbn in Hle; lia|done]. }
  rewrite fmap_cons, elem_of_cons in Hid. destruct Hid as [->|]; [|done].
  destruct (Hother (n_MachineID n) Hnin) as [Hr _]. rewrite lookup_insert_eq in Hr.
  exists (m_next m), (new_inspect labels n m). split; [done|]. split; [done|].
  rewrite Hold by lia. rewrite lookup_insert_eq. done.
Qed.

Definition save_from {A} (old acc : gmap string A) (nodes : list Node) : gmap string A :=
  foldl (fun acc n => match old !! n.(n_MachineID) with
                      | Some s => <[n.(n_MachineID) := s]> acc
                      | None => acc
                      end) acc nodes.

Lemma save_from_lookup {A} (old acc : gmap string A) nodes id :
  (∀ x, acc !! id = Some x → old !! id = Some x) →
  save_from old acc nodes !! id
  = if decide (id ∈ n_MachineID <$> nodes) then old !! id else acc !! id.
Proof.
  unfold save_from. revert acc. induction nodes as [|n l IH]; intros acc Hacc; cbn [foldl].
  { rewrite decide_False by set_solver. done. }
  rewrite IH.
  - destruct (decide (id ∈ n_MachineID <$> l)) as [Hin|Hin];
      [rewrite decide_True by set_solver; done|].
    destruct (decide (id = n_MachineID n)) as [->|Hne].
    + rewrite decide_True by set_solver. destruct (old !! n_MachineID n) as [s|] eqn:E;
        [by rewrite lookup_insert_eq|].
      destruct (acc !! n_MachineID n) as [x|]; [by specialize (Hacc x eq_refl)|done].
    + rewrite decide_False by set_solver. destruct (old !! n_MachineID n); [|done].
      by rewrite lookup_insert_ne.
  - intros x. destruct (old !! n_MachineID n) as [s|] eqn:E; [|apply Hacc].
    destruct (decide (id = n_MachineID n)) as [->|Hne].
    + rewrite lookup_insert_eq. congruence.
    + rewrite lookup_insert_ne by done. apply Hacc.
Qed.

Lemma saved_lookup {A} (old : gmap string A) nodes id :
  saved old nodes !! id = if decide (id ∈ n_MachineID <$> nodes) then old !! id else None.
Proof.
  change (saved old nodes) with (save_from old ∅ nodes).
  rewrite save_from_lookup by (intros x; by rewrite lookup_empty). by rewrite lookup_empty.
Qed.

Lemma put_back_lookup {A} (prev : gmap string A) nodes cur id :
  put_back prev nodes cur !! id
  = if decide (id ∈ n_MachineID <$> nodes) then prev !! id else cur !! id.
Proof.
  unfold put_back. revert cur. induction nodes as [|n l IH]; intros cur; cbn [foldl].
  { rewrite decide_False by set_solver. done. }
  rewrite IH. destruct (decide (id ∈ n_MachineID <$> l)) as [Hin|Hin];
    [rewrite decide_True by set_solver; done|].
  destruct (decide (id = n_MachineID n)) as [->|Hne].
  - rewrite decide_True by set_solver. destruct (prev !! n_MachineID n) eqn:E;
      [by rewrite lookup_insert_eq|by rewrite lookup_delete_eq].
  - rewrite decide_False by set_solver. destruct (prev !! n_MachineID n);
      [by rewrite lookup_insert_ne|by rewrite lookup_delete_ne].
Qed.

(** What the UI and the check-in handler see of one machine. *)
Lemma flip_inspects ctx image arm flip b m :
  let m' := (flipForBoot ctx image arm flip b m).1 in
  m'.(m_inspects) = m.(m_inspects) ∧ m'.(m_istatus) = m.(m_istatus)
  ∧ m'.(m_inspectNodes) = m.(m_inspectNodes)
  ∧ (∀ e, (flipForBoot ctx image arm flip b m).2 = Err e → m'.(m_jobs) = m.(m_jobs)).
Proof. unfold flipForBoot. by repeat case_match. Qed.

(** A refused inspect leaves everything as it was: when the shared PXE
    default is busy, every machine has the very status entry and the node
    record it had before, contents included, and no goroutine was started, so
    an inspect that is still live keeps its state and its timer. *)
Theorem StartInspect_refused nodes labels image flip m m' e :
  inspects_ok m →
  StartInspect nodes labels image flip m = (m', Err e) →
  m'.(m_inspects) = m.(m_inspects) ∧ m'.(m_inspectNodes) = m.(m_inspectNodes)
  ∧ (∀ id, inspect_of id m' = inspect_of id m)
  ∧ m'.(m_jobs) = m.(m_jobs).
Proof.
  intros Hok. unfold StartInspect. set (m1 := foldl _ m nodes).
  destruct (register_all_old labels nodes m) as (_ & Hold & Hother & _ & Hj).
  fold m1 in Hold, Hother, Hj.
  destruct (flip_inspects None image (inspectArm m1) flip (BootedInspects (n_MachineID <$> nodes)) m1)
    as (Hi & Hs & Hn & Hjobs).
  destruct (flipForBoot _ _ _ _ _ _) as [m2 [u|e']]; [done|]. cbn in Hi, Hs, Hn, Hjobs.
  intros [= <- <-]. cbn.
  assert (put_back (saved (m_inspects m) nodes) nodes (m_inspects m2) = m_inspects m) as HI.
  { apply map_eq. intros id. rewrite put_back_lookup, saved_lookup, Hi.
    destruct (decide _); [done|]. by apply Hother. }
  assert (put_back (saved (m_inspectNodes m) nodes) nodes (m_inspectNodes m2) = m_inspectNodes m) as HN.
  { apply map_eq. intros id. rewrite put_back_lookup, saved_lookup, Hn.
    destruct (decide _); [done|]. by apply Hother. }
  split; [exact HI|]. split; [exact HN|]. split; [|by rewrite (Hjobs _ eq_refl)].
  intros id. unfold inspect_of. cbn. rewrite HI.
  destruct (m_inspects m !! id) as [r|] eqn:Er; [|done]. cbn. rewrite Hs. apply Hold.
  exact (proj1 (proj1 Hok _ _ Er)).
Qed.

(** Timers belong to their run.  After a started inspect every machine of
    the list is inspecting; the timer of any earlier run of the machine then
    changes nothing at all, while its own timer marks exactly this entry as
    failed, and once the machine has reported neither can. *)
Theorem inspect_timer_own nodes labels image flip m m' n :
  inspects_ok m →
  StartInspect nodes labels image flip m = (m', Ok tt) → n ∈ nodes →
  IsInspecting n.(n_MachineID) m' = true
  ∧ (∀ r, (r < m.(m_next))%nat → inspect_run_end n r TimerFired m' = m')
  ∧ ∃ run, m'.(m_inspects) !! n.(n_MachineID) = Some run
      ∧ (∃ s, inspect_of n.(n_MachineID) (inspect_run_end n run TimerFired m') = Some s
              ∧ s.(is_State) = "error")
      ∧ (∀ r, inspect_run_end n r TimerFired (InspectReported n.(n_MachineID) m')
              = InspectReported n.(n_MachineID) m').
Proof.
  intros Hok. unfold StartInspect. set (m1 := foldl _ m nodes).
  destruct (register_all_old labels nodes m) as (_ & _ & _ & Hnew & _). fold m1 in Hnew.
  destruct (flip_inspects None image (inspectArm m1) flip (BootedInspects (n_MachineID <$> nodes)) m1)
    as (Hi & Hs & _ & _).
  destruct (flipForBoot _ _ _ _ _ _) as [m2 [u|e']]; [|done]. cbn in Hi, Hs.
  intros [= <-] Hin. destruct (Hnew (n_MachineID n)) as (run & s & Hr & Hle & Hst & Hb & _);
    [by apply list_elem_of_fmap_2|].
  rewrite <- Hi in Hr. rewrite <- Hs in Hst.
  unfold IsInspecting, inspect_of, inspect_run_end, expireInspectRun. cbn.
  rewrite Hr. cbn. rewrite Hst, Hb. cbn. split; [done|]. split.
  { intros r Hlt. rewrite bool_decide_eq_false_2 by (intros [= ->]; lia). done. }
  exists run. split; [done|]. split.
  - rewrite bool_decide_eq_true_2 by done. cbn. rewrite Hr. cbn. rewrite lookup_insert_eq.
    by eexists.
  - intros r. unfold InspectReported, setInspect. cbn. rewrite ?Hr. cbn. rewrite ?Hr.
    rewrite lookup_alter_eq, Hst. cbn. by rewrite andb_false_r.
Qed.

Definition ins_manager : Manager :=
  mkManager (mkStore ∅ ∅ true) (mkConfig 0 0 0 0 0 0) "t0" 1 true true true true false
    [10; 0; 0; 9] 8080 ∅ ∅ ∅ ∅ ∅ {["id-a" := 0%nat]}
    {[0%nat := mkInspectStatus "id-a" "A" "booting" "" "t"]} ∅ [].

Definition ins_node : Node := mkNode "a" "id-a" "10.0.0.1" "u" "p" 3 [] "/dev/sda".

Lemma ins_manager_ok : inspects_ok ins_manager.
Proof.
  split; cbn.
  - intros id r Hr. apply lookup_singleton_Some in Hr as [<- <-].
    split; [lia|]. rewrite lookup_singleton_eq. by eexists.
  - intros id1 id2 r H1 H2. apply lookup_singleton_Some in H1 as [<- _].
    by apply lookup_singleton_Some in H2 as [<- _].
Qed.

Lemma StartInspect_refused_witness :
  ∃ m', StartInspect [ins_node] ∅ "img" (fun _ _ => Err "busy") ins_manager = (m', Err "busy")
    ∧ m'.(m_inspects) = ins_manager.(m_inspects).
Proof.
  eexists. split; [reflexivity|].
  refine (proj1 (StartInspect_refused [ins_node] ∅ "img" (fun _ _ => Err "busy") ins_manager _ "busy"
    ins_manager_ok _)). reflexivity.
Defined.

Lemma inspect_timer_own_witness :
  ∃ m', StartInspect [ins_node] ∅ "img" (fun _ _ => Ok true) ins_manager = (m', Ok tt)
    ∧ inspect_run_end ins_node 0 TimerFired m' = m'.
Proof.
  eexists. split; [reflexivity|].
  refine (proj1 (proj2 (inspect_timer_own [ins_node] ∅ "img" (fun _ _ => Ok true) ins_manager _ ins_node
    ins_manager_ok _ _)) 0%nat _).
  - reflexivity.
  - by left.
  - cbn. lia.
Defined.

(** The goroutine of an earlier inspect whose BMC call fails late marks the
    newer inspect of the machine as failed: only the timer checks its run. *)
Example inspect_stale_error :
  let m1 := (StartInspect [ins_node] ∅ "img" (fun _ _ => Ok true) ins_manager).1 in
  is_State <$> inspect_of "id-a" m1 = Some "booting"
  ∧ is_State <$> inspect_of "id-a" (inspect_run_end ins_node 0 (PowerCycleFailed "late") m1)
    = Some "error".
Proof. vm_compute. split; reflexivity. Qed.
