(* ===== verification/DeployApi.v ===== *)
(** * The deploy API (internal/api/deploy.go)

    The handlers that sit between the nodes' agents, the operator's browser and
    the three stores of the driver: the machine store, the cluster store and the
    deploy manager.  A handler takes the decoded request (no request where the
    body did not decode) and answers with a status and a body. *)
From S2P Require Import Prelude GoStrings Secret Machines GoNet ClusterModel Generator Storage DeployModel SelCodec AgentPreflight AgentRun Orchestrator OrchestratorInspect.
From Stdlib Require Import Ascii QArith.

Open Scope string_scope.
Open Scope list_scope.
Open Scope Z_scope.

Record driver : Type := mkDriver {
  dr_machines : machines;
  dr_clusters : filestore;
  dr_mgr : Manager
}.

Definition set_dr_mgr (m : Manager) (d : driver) : driver := mkDriver d.(dr_machines) d.(dr_clusters) m.
Definition set_dr_clusters (s : filestore) (d : driver) : driver := mkDriver d.(dr_machines) s d.(dr_mgr).

Inductive reply (A : Type) : Type :=
| OK (code : Z) (body : A)
| Fail (code : Z) (msg : string).
Arguments OK {A} code body.
Arguments Fail {A} code msg.

Definition is_OK {A} (r : reply A) : bool := match r with OK _ _ => true | Fail _ _ => false end.

(** [namePattern], and what guards a path against traversal. *)
Definition name_char (c : ascii) : bool :=
  let n := Ascii.nat_of_ascii c in
  ((48 <=? n) && (n <=? 57) || (65 <=? n) && (n <=? 90) || (97 <=? n) && (n <=? 122)
   || (n =? 46) || (n =? 95) || (n =? 45))%nat.

Definition pathValue (v : string) : bool :=
  negb (is_empty v) && forallb name_char (String.list_ascii_of_string v) && negb (v =? ".")%string && negb (v =? "..")%string.

Definition bad_path {A} (key : string) : reply A := Fail 400 ("invalid " +:+ key).

(** The address the request was sent to. *)
Record where_to : Type := mkWhereTo { wt_Host : string; wt_TLS : bool }.

(** ** Which machine is calling *)

Definition nul_char : ascii := "000".

Definition normSerial (s : string) : string := ToLower (TrimSpace (ReplaceAll s nul_char "")).

Definition macsOf (m : Machine) : list string :=
  match m.(mc_Inventory) with
  | Some i => List.filter (fun mac => negb (is_empty mac)) (nic_MAC <$> i.(inv_NICs))
  | None => []
  end.

(** By one of its addresses, or by its serial. *)
Definition is_caller (macs : list string) (serial : string) (m : Machine) : bool :=
  existsb (fun mac => contains ((fun w => ToLower (TrimSpace w)) <$> macs) (ToLower mac)) (macsOf m)
  || (negb (is_empty (normSerial serial))
      && match m.(mc_Inventory) with
         | Some i => (normSerial i.(inv_Serial) =? normSerial serial)%string
         | None => false
         end).

Definition matchAnyMachine (macs : list string) (serial : string) (dr : driver) : option Machine :=
  find (is_caller macs serial) (Machine_List dr.(dr_machines)).

Definition resolveAssignment (m : Machine) (mgr : Manager) : option Assignment :=
  match find (fun a => HasActiveDeploy a.(as_ClusterID) mgr) m.(mc_Assignments) with
  | Some a => Some a
  | None => m.(mc_Assignment)
  end.

Definition matchNode (macs : list string) (serial : string) (dr : driver) : option (Machine * option Assignment) :=
  (fun m => (m, resolveAssignment m dr.(dr_mgr)))
  <$> find (fun m => match m.(mc_Assignment) with Some _ => is_caller macs serial m | None => false end)
        (Machine_List dr.(dr_machines)).

(** ** Planning and starting *)

Record planRow : Type := mkPlanRow {
  row_Hostname : string;
  row_Assigned : bool;
  row_MachineLabel : string;
  row_BMCAddress : string;
  row_OSDisk : string;
  row_MACs : list string;
  row_Conflict : string
}.

Section Api.
Context `{AEAD} (box : string).
Context (Marshal : ClusterDetail → string) (Unmarshal : string → option ClusterDetail).
Context (zip : archive → string) (bytes : string → string).

Definition detail_of (dr : driver) (id : string) : result ClusterDetail := Cluster_Detail Unmarshal id dr.(dr_clusters).

Definition clusterName (id : string) (dr : driver) : string :=
  match detail_of dr id with
  | Ok d => if is_empty d.(cd_ClusterInfo).(ci_Name) then id else d.(cd_ClusterInfo).(ci_Name)
  | Err _ => id
  end.

Definition activeConflict (m : Machine) (id : string) (dr : driver) : string :=
  match find (fun a => negb (a.(as_ClusterID) =? id)%string && HasActiveDeploy a.(as_ClusterID) dr.(dr_mgr))
          m.(mc_Assignments) with
  | Some a => clusterName a.(as_ClusterID) dr
  | None => ""
  end.

(** The machine of each host of the cluster; of two with the same host the later
    one of the list. *)
Definition by_host (id : string) (ms : list Machine) : gmap string Machine :=
  foldl (fun acc m => match AssignmentFor m id with Some a => <[a.(as_Hostname) := m]> acc | None => acc end) ∅ ms.

Definition plan_node (id : string) (dr : driver) (m : Machine) (host : string) : result (Node * planRow) :=
  match Credentials box m.(mc_ID) dr.(dr_machines) with
  | Err e => Err e
  | Ok (addr, user, pass) =>
      let osDisk := match AssignmentFor m id with Some a => a.(as_OSDisk) | None => "" end in
      let macs := macsOf m in
      Ok (mkNode host m.(mc_ID) addr user pass m.(mc_BMC).(bmc_Cipher) macs osDisk,
          mkPlanRow host true m.(mc_Label) addr osDisk macs (activeConflict m id dr))
  end.

Fixpoint plan_nodes (id : string) (dr : driver) (byHost : gmap string Machine) (nodes : list NodeConfig)
    : result (list Node * list planRow * bool) :=
  match nodes with
  | [] => Ok ([], [], true)
  | n :: nodes =>
      let host := n.(nc_Hostname) in
      match byHost !! host with
      | None =>
          let? r := plan_nodes id dr byHost nodes in
          Ok (r.1.1, mkPlanRow host false "" "" "" [] "" :: r.1.2, false)
      | Some m =>
          let? nr := plan_node id dr m host in
          let? r := plan_nodes id dr byHost nodes in
          Ok (nr.1 :: r.1.1, nr.2 :: r.1.2, r.2)
      end
  end.

Record deployPlan : Type := mkDeployPlan {
  dp_nodes : list Node;
  dp_rows : list planRow;
  dp_allAssigned : bool;
  dp_master : string
}.

Definition buildNodes (id : string) (dr : driver) : result deployPlan :=
  let? detail := detail_of dr id in
  let master := default "" (head (GetControlInfo detail.(cd_NodeData)).(ctl_Hostnames)) in
  let? r := plan_nodes id dr (by_host id (Machine_List dr.(dr_machines))) detail.(cd_NodeData) in
  Ok (mkDeployPlan r.1.1 r.1.2 r.2 master).

Definition store_error {A} (id e : string) : reply A :=
  if (e =? ErrStoreNotFound)%string then Fail 404 ("cluster " +:+ id +:+ " not found") else Fail 500 e.

Definition plan (id : string) (dr : driver) : reply (bool * list planRow) :=
  if negb (pathValue id) then bad_path "id" else
  match buildNodes id dr with
  | Err e => store_error id e
  | Ok p => OK (if p.(dp_allAssigned) then 200 else 409) (p.(dp_allAssigned), p.(dp_rows))
  end.

Record startBody : Type := mkStartBody {
  sb_Confirm : bool;
  sb_Hostnames : list string;
  sb_Manual : bool;
  sb_Image : string;
  sb_OptOutRepair : bool;
  sb_SimulateAirgap : bool
}.

Definition verifyTargets (clusterID : string) (dr : driver) : list string :=
  match detail_of dr clusterID with
  | Err _ => []
  | Ok d => List.filter (fun ip => negb (is_empty ip) && negb (ip =? "None")%string)
              (GetControlInfo d.(cd_NodeData)).(ctl_IPs)
  end.

Definition selected (body : startBody) (nodes : list Node) : list Node :=
  match body.(sb_Hostnames) with
  | [] => nodes
  | hosts => List.filter (fun n => contains hosts n.(n_Hostname)) nodes
  end.

(** The network check of every node; a definition that cannot be read passes. *)
Definition check_network (id : string) (dr : driver) : result unit :=
  match detail_of dr id with
  | Err _ => Ok tt
  | Ok d => first_err (fun n => match ValidateNodeNetwork n with
                                | Ok _ => Ok tt
                                | Err e => Err ("node " +:+ n.(nc_Hostname) +:+ ": " +:+ e)
                                end) d.(cd_NodeData)
  end.

Definition start (id : string) (body : startBody) (anchor : Node → Z) (flip : string → string → result bool)
    (dr : driver) : driver * reply Deploy :=
  if negb (pathValue id) then (dr, bad_path "id")
  else if negb body.(sb_Confirm) then (dr, Fail 400 "deploy requires confirm=true")
  else
    match buildNodes id dr with
    | Err e => (dr, store_error id e)
    | Ok p =>
        if negb p.(dp_allAssigned) then (dr, Fail 409 "every node must be assigned a server before deploy")
        else
          match find (fun row => negb (is_empty row.(row_Conflict))) p.(dp_rows) with
          | Some row =>
              (dr, Fail 409 ("machine " +:+ row.(row_MachineLabel) +:+ " (node " +:+ row.(row_Hostname)
                +:+ ") is in an active deploy for cluster " +:+ row.(row_Conflict)
                +:+ " — wait for it to finish or cancel it"))
          | None =>
              let nodes := selected body p.(dp_nodes) in
              match nodes with
              | [] => (dr, Fail 400 "no matching nodes to deploy")
              | _ =>
                  match check_network id dr with
                  | Err e => (dr, Fail 400 e)
                  | Ok _ =>
                      let args := mkStartArgs nodes p.(dp_master) (verifyTargets id dr) body.(sb_Manual) body.(sb_Image)
                                    body.(sb_OptOutRepair) body.(sb_SimulateAirgap) in
                      let '(mgr, r) := Start id args anchor flip dr.(dr_mgr) in
                      (set_dr_mgr mgr dr, match r with Ok d => OK 202 d | Err e => Fail 500 e end)
                  end
              end
          end
    end.

(** ** What the nodes' agents call *)

(** The snapshot's address, as the agent reached the driver. *)
Definition snapshot_url (wt : where_to) (cid host : string) : string :=
  (if wt.(wt_TLS) then "https://" else "http://") +:+ wt.(wt_Host) +:+ "/api/v1/clusters/" +:+ cid
  +:+ "/nodes/" +:+ host +:+ "/download".

Definition preflightTargets (clusterID hostname serverHost : string) (dr : driver) : Preflight :=
  match detail_of dr clusterID with
  | Err _ => mkPreflight "" [] serverHost []
  | Ok d =>
      let self := List.filter (fun n => (n.(nc_Hostname) =? hostname)%string) d.(cd_NodeData) in
      let gw := default "" (nc_DefaultGateway <$> last self) in
      let mgmt := default "" (last (self ≫= fun n =>
                    if_IPAddr <$> List.filter (fun f => (f.(if_ID) =? (roleIF n "mgmtIF").(info_ID))%string) (AllIFs n))) in
      mkPreflight gw d.(cd_ClusterConfig).(cc_DNS) serverHost
        (List.filter (fun ip => negb (is_empty ip) && negb (ip =? mgmt)%string) (GetControlInfo d.(cd_NodeData)).(ctl_IPs))
  end.

(** The host without its port. *)
Definition server_host (h : string) : string :=
  match LastIndexByte h ":" with Some (S i) => stake (S i) h | _ => h end.

Definition checkin (req : option CheckinRequest) (wt : where_to) (dr : driver) : driver * reply CheckinResponse :=
  match req with
  | None => (dr, Fail 400 "invalid JSON")
  | Some req =>
      match matchNode req.(cq_MACs) req.(cq_Serial) dr with
      | Some (matched, Some assn) =>
          let cid := assn.(as_ClusterID) in
          if negb (HasActiveDeploy cid dr.(dr_mgr)) then (dr, OK 200 never_appointed)
          else
            let host := assn.(as_Hostname) in
            let '(mgr, hold) := CheckIn cid host dr.(dr_mgr) in
            let dr := set_dr_mgr mgr dr in
            (dr, OK 200 (mkCheckinResponse true hold cid host (snapshot_url wt cid host) (nowUTC mgr)
                   (preflightTargets cid host (server_host wt.(wt_Host)) dr)))
      | _ => (dr, OK 200 never_appointed)
      end
  end.

Definition inspect_answer : PreflightCheckinResponse :=
  mkPreflightCheckinResponse false "" "" "" (mkPreflightBundle "" [] []) "" false false false "" true.

Definition preflightCheckin (req : option CheckinRequest) (wt : where_to) (dr : driver)
    : driver * reply PreflightCheckinResponse :=
  match req with
  | None => (dr, Fail 400 "invalid JSON")
  | Some req =>
      let inspecting := match matchAnyMachine req.(cq_MACs) req.(cq_Serial) dr with
                        | Some am => IsInspecting am.(mc_ID) dr.(dr_mgr)
                        | None => false
                        end in
      if inspecting then (dr, OK 200 inspect_answer)
      else
        match matchNode req.(cq_MACs) req.(cq_Serial) dr with
        | Some (matched, Some assn) =>
            let cid := assn.(as_ClusterID) in
            if negb (HasActiveDeploy cid dr.(dr_mgr)) then (dr, OK 200 unappointed)
            else
              let host := assn.(as_Hostname) in
              match detail_of dr cid with
              | Err e => (dr, Fail 500 e)
              | Ok detail =>
                  let bundle := default (mkPreflightBundle "" [] []) (BuildPreflightBundles detail !! host) in
                  let mgr := PreflightProgress cid host dr.(dr_mgr) in
                  (set_dr_mgr mgr dr,
                   OK 200 (mkPreflightCheckinResponse true cid host (nowUTC mgr) bundle (snapshot_url wt cid host)
                     (host =? Master cid mgr)%string (OptOutRepair cid mgr) (SimulateAirgap cid mgr) assn.(as_OSDisk)
                     false))
              end
        | _ => (dr, OK 200 unappointed)
        end
  end.

Definition on_mgr (f : Manager → Manager) (dr : driver) : driver := set_dr_mgr (f dr.(dr_mgr)) dr.

(** The handlers that start from the caller's machine answer [ok: false] for one
    the driver does not know. *)
Definition for_caller {A} (req : option CheckinRequest) (unknown : A) (known : Assignment → driver → driver * A)
    (dr : driver) : driver * reply A :=
  match req with
  | None => (dr, Fail 400 "invalid JSON")
  | Some req =>
      match matchNode req.(cq_MACs) req.(cq_Serial) dr with
      | Some (_, Some assn) => let '(dr, a) := known assn dr in (dr, OK 200 a)
      | _ => (dr, OK 200 unknown)
      end
  end.

(** [ok], and whether to go on. *)
Definition restoreDone (req : option CheckinRequest) : driver → driver * reply (bool * bool) :=
  for_caller req (false, false) (fun assn dr =>
    let dr := on_mgr (RestoreDone assn.(as_ClusterID) assn.(as_Hostname)) dr in
    (dr, (true, RebootProceed assn.(as_ClusterID) dr.(dr_mgr)))).

Record applyStartedReply : Type := mkApplyStartedReply {
  ap_ok : bool;
  ap_proceed : bool;
  ap_isMaster : bool;
  ap_optOutRepair : bool
}.

Definition applyStarted (req : option CheckinRequest) : driver → driver * reply applyStartedReply :=
  for_caller req (mkApplyStartedReply false false false false) (fun assn dr =>
    let cid := assn.(as_ClusterID) in
    let host := assn.(as_Hostname) in
    let proceed := ApplyProceed cid host dr.(dr_mgr) in
    let isMaster := (host =? Master cid dr.(dr_mgr))%string in
    let dr := if isMaster then on_mgr (ApplyStarted cid host proceed) dr else on_mgr (WaitForMaster cid host) dr in
    (dr, mkApplyStartedReply true proceed isMaster (OptOutRepair cid dr.(dr_mgr)))).

Definition waitMaster (req : option CheckinRequest) : driver → driver * reply bool :=
  for_caller req false (fun assn dr => (on_mgr (WaitForMaster assn.(as_ClusterID) assn.(as_Hostname)) dr, true)).

(** A report of the OS phase: the caller's machine, when the driver knows it,
    overrides the cluster and host it claims. *)
Definition claimed (cid host : string) (macs : list string) (serial : string) (dr : driver) : string * string :=
  match matchNode macs serial dr with
  | Some (_, Some a) => (a.(as_ClusterID), a.(as_Hostname))
  | _ => (cid, host)
  end.

Record osReport : Type := mkOsReport {
  or_ClusterID : string;
  or_Hostname : string;
  or_Message : string;
  or_MACs : list string;
  or_Serial : string
}.

Definition applied (req : option osReport) (dr : driver) : driver * reply bool :=
  match req with
  | None => (dr, Fail 400 "invalid JSON")
  | Some q =>
      let '(cid, host) := claimed q.(or_ClusterID) q.(or_Hostname) q.(or_MACs) q.(or_Serial) dr in
      (on_mgr (Applied cid host) dr, OK 200 true)
  end.

Definition applyFailed (req : option osReport) (dr : driver) : driver * reply bool :=
  match req with
  | None => (dr, Fail 400 "invalid JSON")
  | Some q =>
      let '(cid, host) := claimed q.(or_ClusterID) q.(or_Hostname) q.(or_MACs) q.(or_Serial) dr in
      (on_mgr (ApplyFailed cid host q.(or_Message)) dr, OK 200 true)
  end.

(** The reports that name their node outright. *)
Definition named (cid host : string) : bool := negb (is_empty cid) && negb (is_empty host).

Definition report (req : option ReportRequest) (dr : driver) : driver * reply string :=
  match req with
  | None => (dr, Fail 400 "invalid JSON")
  | Some q =>
      if negb (named q.(rq_ClusterID) q.(rq_Hostname)) then (dr, Fail 400 "clusterId and hostname required")
      else
        let pf := match q.(rq_Preflight) with [] => None | l => Some l end in
        (on_mgr (Report q.(rq_ClusterID) q.(rq_Hostname) q.(rq_State) q.(rq_Message) pf) dr, OK 200 "ok")
  end.

(** The answer carries the node's re-run count. *)
Definition preflightReport (req : option PreflightReportRequest) (dr : driver) : driver * reply Z :=
  match req with
  | None => (dr, Fail 400 "invalid JSON")
  | Some q =>
      if negb (named q.(pq_ClusterID) q.(pq_Hostname)) then (dr, Fail 400 "clusterId and hostname required")
      else
        let pf := mkNodePreflight q.(pq_CarrierOK) q.(pq_ClockSkewSec) q.(pq_Matrix) q.(pq_Passed) "" in
        let dr := on_mgr (PreflightReport q.(pq_ClusterID) q.(pq_Hostname) pf) dr in
        (dr, OK 200 (RekickSeq q.(pq_ClusterID) q.(pq_Hostname) dr.(dr_mgr)))
  end.

Definition greenlight (req : option (string * string)) (dr : driver) : driver * reply bool :=
  match req with
  | None => (dr, Fail 400 "invalid JSON")
  | Some (cid, host) =>
      if negb (named cid host) then (dr, Fail 400 "clusterId and hostname required")
      else let '(mgr, clear) := GreenLight1 cid host dr.(dr_mgr) in (set_dr_mgr mgr dr, OK 200 clear)
  end.

(** The master's result of set_ready: cluster, outcome, message. *)
Definition ready (req : option (string * bool * string)) (dr : driver) : driver * reply bool :=
  match req with
  | None => (dr, Fail 400 "invalid JSON")
  | Some (cid, ok, msg) => (on_mgr (MarkReady cid ok msg) dr, OK 200 true)
  end.

(** ** What the operator calls *)

Definition ErrDeployNotFound : string := "deploy not found".

Definition status (id : string) (dr : driver) : reply Deploy :=
  if negb (pathValue id) then bad_path "id" else
  match Status id dr.(dr_mgr) with
  | Ok d => OK 200 d
  | Err e => if (e =? ErrDeployNotFound)%string then Fail 404 ("no deploy for cluster " +:+ id) else Fail 500 e
  end.

Definition cancel (id : string) (dr : driver) : driver * reply string :=
  if negb (pathValue id) then (dr, bad_path "id") else (on_mgr (Cancel id) dr, OK 200 "cancelled").

Definition release (id host : string) (wr : Node → list Z → option string) (dr : driver) : driver * reply string :=
  if negb (pathValue id) then (dr, bad_path "id")
  else if negb (pathValue host) then (dr, bad_path "hostname") else
  let '(mgr, r) := ReleaseNode id host wr dr.(dr_mgr) in
  (set_dr_mgr mgr dr, match r with Ok _ => OK 200 host | Err e => Fail 400 e end).

Definition advanceStep (id : string) (dr : driver) : driver * reply Z :=
  if negb (pathValue id) then (dr, bad_path "id") else
  let '(mgr, (step, e)) := AdvanceStep id dr.(dr_mgr) in
  (set_dr_mgr mgr dr, match e with None => OK 200 step | Some e => Fail 409 e end).

Definition rekickPreflight (id host : string) (dr : driver) : driver * reply Z :=
  if negb (pathValue id) then (dr, bad_path "id")
  else if negb (pathValue host) then (dr, bad_path "hostname") else
  let '(mgr, r) := RekickPreflight id host dr.(dr_mgr) in
  (set_dr_mgr mgr dr, match r with Ok _ => OK 200 (RekickSeq id host mgr) | Err e => Fail 409 e end).

(** The packed agent and its digest: [bin] is the configured path, [file] what
    opening and reading it gives. *)
Definition packed {A} (bin : string) (file : option A) (k : A → reply string) : reply string :=
  if is_empty bin then Fail 404 "no packed agent configured"
  else match file with None => Fail 404 "packed agent unavailable" | Some a => k a end.

Definition agentBinary (bin : string) (file : option string) : reply string := packed bin file (OK 200).

Definition agentBinarySHA (sha256hex : string → string) (bin : string) (file : option (result string)) : reply string :=
  packed bin file (fun r => match r with
                            | Ok data => OK 200 (sha256hex data +:+ String "010" "")
                            | Err e => Fail 500 ("hash: " +:+ e)
                            end).

(** [images]: what [pxe.ListEntries] gives. *)
Definition pxeImages {Entry} (pxeRoot : string) (images : result (list Entry)) : reply (list Entry) :=
  OK 200 (if is_empty pxeRoot then [] else match images with Ok e => e | Err _ => [] end).

Definition getSetReady (id : string) (dr : driver) : driver * reply SetReadyInput :=
  if negb (pathValue id) then (dr, bad_path "id") else
  let '(mgr, i) := GetSetReady id dr.(dr_mgr) in (set_dr_mgr mgr dr, OK 200 i).

Definition with_set_ready (i : SetReadyInput) (d : ClusterDetail) : ClusterDetail :=
  let c := d.(cd_ClusterConfig) in
  mkClusterDetail d.(cd_ClusterInfo)
    (mkClusterConfig c.(cc_DNS) c.(cc_Timezone) c.(cc_RoleSettings) c.(cc_HA) c.(cc_HASettings)
       (Some (mkSetReadySettings i.(Orchestrator.sr_CreateExternal) i.(Orchestrator.sr_CIDR)
                i.(Orchestrator.sr_Gateway) i.(Orchestrator.sr_IPRange))))
    d.(cd_NodeData).

(** A definition that cannot be mirrored is logged. *)
Definition submitSetReady (id : string) (req : option SetReadyInput) (v : saving) (dr : driver)
    : driver * reply bool :=
  if negb (pathValue id) then (dr, bad_path "id") else
  match req with
  | None => (dr, Fail 400 "invalid JSON")
  | Some i =>
      let dr := on_mgr (SubmitSetReady id i) dr in
      match detail_of dr id with
      | Err _ => (dr, OK 200 true)
      | Ok d =>
          (set_dr_clusters (Cluster_Save Marshal Unmarshal zip bytes (with_set_ready i d) v dr.(dr_clusters)).1 dr,
           OK 200 true)
      end
  end.

(** The machines with readable credentials; a later entry of the same id
    replaces the label. *)
Definition inspect_nodes (ids : list string) (dr : driver) : list Node * gmap string string :=
  let rows := omap (fun id =>
    match Credentials box id dr.(dr_machines), Machine_Get id dr.(dr_machines) with
    | Ok (addr, user, pass), Ok m => Some (mkNode "" id addr user pass m.(mc_BMC).(bmc_Cipher) [] "", (id, m.(mc_Label)))
    | _, _ => None
    end) ids in
  (rows.*1, foldl (fun acc il => <[il.1 := il.2]> acc) ∅ rows.*2).

Definition startInspect (req : option (list string * string)) (flip : string → string → result bool) (dr : driver)
    : driver * reply Z :=
  match req with
  | None => (dr, Fail 400 "invalid JSON")
  | Some (ids, image) =>
      let '(nodes, labels) := inspect_nodes ids dr in
      match nodes with
      | [] => (dr, Fail 400 "no inspectable machines")
      | _ =>
          let '(mgr, r) := StartInspect nodes labels image flip dr.(dr_mgr) in
          (set_dr_mgr mgr dr, match r with Ok _ => OK 202 (Zlength nodes) | Err e => Fail 409 e end)
      end
  end.

Definition inspectStatus (dr : driver) : reply (list InspectStatus) := OK 200 (Inspects dr.(dr_mgr)).

End Api.

(** An accepted path value has no separator. *)
Lemma pathValue_free v : pathValue v = true → free_of "/" v.
Proof.
  unfold pathValue. rewrite !andb_true_iff. intros [[[_ Hv] _] _].
  induction v as [|c v IH]; [done|]. cbn [String.list_ascii_of_string forallb] in Hv.
  apply andb_true_iff in Hv as [Hc Hv]. apply free_of_cons. split; [|by apply IH].
  intros ->. by vm_compute in Hc.
Qed.
