(* ===== verification/HostFs.v ===== *)
(** * The driver's own disks (internal/enterprise dir.go, artifacts.go;
    internal/api/fs.go)

    The folder the install images are in, what it holds, and how the operator finds
    it: browsing directories, listing block devices, mounting one.  What the
    operating system answers is the [OS] of a section. *)
From S2P Require Import Prelude GoStrings DeployApi.
From Stdlib Require Import Ascii.

Open Scope string_scope.
Open Scope list_scope.
Open Scope Z_scope.

(** An [os.DirEntry]: its type is the entry's own, a symbolic link's is [DSymlink]. *)
Inductive dtype := DFile | DDir | DSymlink.

#[export] Instance dtype_eq_dec : EqDecision dtype.
Proof. solve_decision. Defined.

Record dirent : Type := mkDirent { de_Name : string; de_Type : dtype }.

Definition hidden_name (n : string) : bool := HasPrefix n ".".

Section OS.
(** [os.ReadDir], and whether [os.Stat] finds a directory. *)
Variable ReadDir : string → result (list dirent).
Variable is_dir : string → bool.

(** ** The images *)

Definition readDir (baseDir subDir : string) : list string :=
  match ReadDir (baseDir +:+ "/" +:+ subDir) with
  | Err _ => []
  | Ok entries =>
      SortStrings (de_Name <$> List.filter
        (fun e => negb (bool_decide (e.(de_Type) = DDir)) && negb (hidden_name e.(de_Name))) entries)
  end.

Record Artifacts : Type := mkArtifacts { art_AppFW : list string; art_CMP : list string; art_Advisor : list string }.

Definition DiscoverArtifacts (root : string) : Artifacts :=
  mkArtifacts (readDir root "appfw") (readDir root "cubecmp") (readDir root "advisor").

(** [Dir], and the folder its settings file names, if it can be read. *)
Record Dir : Type := mkDir { d_dir : string; d_settings : option string }.

Definition NewDir (settings : option string) (seed : string) : Dir :=
  mkDir (let s := default "" settings in if is_empty s then seed else s) settings.

Definition Get (d : Dir) : string := d.(d_dir).

(** [saved]: the error of writing the settings file, if any.  The scripts put into
    the folder afterwards are left out. *)
Definition Set_ (dir : string) (saved : option string) (d : Dir) : Dir * result unit :=
  if is_empty dir then (d, Err "enterprise image folder is required")
  else if negb (is_dir dir)
  then (d, Err ("enterprise image folder " +:+ Quote dir +:+ " is not a directory (is the media mounted?)"))
  else match saved with
       | Some e => (d, Err ("persist enterprise folder: " +:+ e))
       | None => (mkDir dir (Some dir), Ok tt)
       end.

(** The folder, whether it is there, and how many artifacts of each kind it holds. *)
Definition Status (d : Dir) : string * bool * nat * nat * nat :=
  let dir := Get d in
  if negb (is_dir dir) then (dir, false, 0%nat, 0%nat, 0%nat)
  else
    let a := DiscoverArtifacts dir in
    (dir, true, length a.(art_AppFW), length a.(art_CMP), length a.(art_Advisor)).

Definition getDir (d : Dir) : reply (string * bool * nat * nat * nat) := OK 200 (Status d).

Definition setDir (body : option string) (saved : option string) (d : Dir)
    : Dir * reply (string * bool * nat * nat * nat) :=
  match body with
  | None => (d, Fail 400 "invalid JSON")
  | Some dir =>
      match Set_ (TrimSpace dir) saved d with
      | (d, Err e) => (d, Fail 400 e)
      | (d, Ok _) => (d, OK 200 (Status d))
      end
  end.

Definition artifacts (d : Dir) : reply Artifacts := OK 200 (DiscoverArtifacts (Get d)).

(** ** Browsing *)

(** [filepath.Dir] of a clean path. *)
Definition parent_dir (p : string) : string :=
  match LastIndexByte p "/"%char with Some i => Clean (stake (S i) p) | None => "." end.

Definition shows_dir (path : string) (e : dirent) : bool :=
  negb (hidden_name e.(de_Name))
  && match e.(de_Type) with
     | DDir => true
     | DSymlink => is_dir (PathJoin [path; e.(de_Name)])
     | DFile => false
     end.

(** The path, its parent and its directories. *)
Definition fsDirs (query : string) : reply (string * string * list string) :=
  let path := Clean (if is_empty query then "/" else query) in
  if negb (HasPrefix path "/") then Fail 400 "path must be absolute"
  else match ReadDir path with
       | Err e => Fail 400 ("cannot read " +:+ Quote path +:+ ": " +:+ e)
       | Ok entries =>
           OK 200 (path, if (path =? "/")%string then "" else parent_dir path,
                   SortStrings (de_Name <$> List.filter (shows_dir path) entries))
       end.
End OS.

(** ** Block devices *)

Inductive lsblkNode : Type := mkLsblk {
  bn_Name : string;
  bn_Size : string;
  bn_FSType : string;
  bn_Label : string;
  bn_Mountpoint : string;
  bn_Type : string;
  bn_Rm : bool;
  bn_Children : list lsblkNode
}.

Record blockDevice : Type := mkBlockDevice {
  bd_Name : string;
  bd_Size : string;
  bd_FSType : string;
  bd_Label : string;
  bd_Mountpoint : string;
  bd_Removable : bool
}.

(** [flexBool.UnmarshalJSON] *)
Definition flexBool (data : string) : bool :=
  let q c := Ascii.eqb c quote_char in
  let s := TrimRightFunc q (TrimLeftFunc q data) in
  (s =? "1")%string || (s =? "true")%string.

Definition mountable (n : lsblkNode) : bool :=
  negb (is_empty n.(bn_FSType)) && negb (n.(bn_Type) =? "disk")%string.

Definition device (n : lsblkNode) (rm : bool) : blockDevice :=
  mkBlockDevice ("/dev/" +:+ n.(bn_Name)) n.(bn_Size) n.(bn_FSType) n.(bn_Label) n.(bn_Mountpoint) rm.

(** [walk]: the devices it appends. *)
Fixpoint walk (n : lsblkNode) (parentRm : bool) : list blockDevice :=
  let rm := n.(bn_Rm) || parentRm in
  (if mountable n then [device n rm] else [])
  ++ (fix walks (l : list lsblkNode) : list blockDevice :=
        match l with [] => [] | c :: l => walk c rm ++ walks l end) n.(bn_Children).

(** [lsblk]: its parsed output. *)
Definition fsDevices (lsblk : result (list lsblkNode)) : reply (list blockDevice) :=
  match lsblk with
  | Err e => Fail 500 e
  | Ok nodes => OK 200 (mbind (fun n => walk n n.(bn_Rm)) nodes)
  end.

(** [stat], [mkdir] and [mount] as the operating system answers them: an error, or none. *)
Definition fsMount (stat mkdir : string → bool) (mount : string → string → option string)
    (body : option string) : reply string :=
  match body with
  | None => Fail 400 "invalid JSON"
  | Some device =>
      let dev := TrimSpace device in
      if negb (HasPrefix dev "/dev/") then Fail 400 "device must be a /dev/ path"
      else if negb (stat dev) then Fail 400 ("device " +:+ Quote dev +:+ " not found")
      else
        let mp := "/media/cube-" +:+ Base dev in
        if negb (mkdir mp) then Fail 500 ("mkdir " +:+ Quote mp)
        else match mount dev mp with
             | Some e => Fail 502 ("mount " +:+ dev +:+ ": " +:+ e)
             | None => OK 200 mp
             end
  end.

(** ** What they promise *)

(** A folder that was accepted is the one a restarted driver uses, whatever it is
    started with; one that was not leaves the setting alone. *)
Lemma Set_spec is_dir dir saved d :
  match Set_ is_dir dir saved d with
  | (d', Ok _) => is_dir dir = true ∧ Get d' = dir ∧ ∀ seed, Get (NewDir d'.(d_settings) seed) = dir
  | (d', Err _) => d' = d
  end.
Proof.
  unfold Set_. destruct (is_empty dir) eqn:E; [done|]. destruct (is_dir dir) eqn:Ed; cbn [negb]; [|done].
  destruct saved; [done|]. split; [done|]. split; [done|]. intros seed. cbn. unfold is_empty in E. by rewrite E.
Qed.

(** The way from a node down to one below it. *)
Inductive chain : lsblkNode → list lsblkNode → lsblkNode → Prop :=
  | chain_here n : chain n [n] n
  | chain_down n c l m : c ∈ n.(bn_Children) → chain c l m → chain n (n :: l) m.

Lemma walk_eq n rm :
  walk n rm = (if mountable n then [device n (n.(bn_Rm) || rm)] else [])
              ++ mbind (fun c => walk c (n.(bn_Rm) || rm)) n.(bn_Children).
Proof.
  by destruct n.
Qed.

Section Induction.
Variable P : lsblkNode → Prop.
Hypothesis step : ∀ n, Forall P n.(bn_Children) → P n.

(** Nodes hold lists of nodes. *)
Fixpoint lsblk_rect (n : lsblkNode) : P n :=
  step n ((fix all (l : list lsblkNode) : Forall P l :=
    match l with [] => Forall_nil_2 P | c :: l => Forall_cons_2 P c l (lsblk_rect c) (all l) end) n.(bn_Children)).
End Induction.

Lemma elem_of_walk n : ∀ rm b,
  b ∈ walk n rm ↔ ∃ l m, chain n l m ∧ mountable m = true ∧ b = device m (existsb bn_Rm l || rm).
Proof.
  induction n as [n IH] using lsblk_rect. intros rm b. rewrite Forall_forall in IH.
  rewrite walk_eq, elem_of_app, list_elem_of_bind. split.
  - intros [Hb|(c & Hb & Hc)].
    + destruct (mountable n) eqn:E; [|by apply elem_of_nil in Hb]. apply list_elem_of_singleton in Hb as ->.
      exists [n], n. cbn. rewrite orb_false_r. split; [constructor|done].
    + apply (IH _ Hc) in Hb as (l & m & Hl & Hm & ->). exists (n :: l), m. split; [by econstructor|].
      split; [done|]. cbn. f_equal. by destruct (bn_Rm n), (existsb bn_Rm l), rm.
  - intros (l & m & Hl & Hm & ->). destruct Hl as [n|n c l m Hc Hl].
    + left. rewrite Hm. cbn. rewrite orb_false_r. by left.
    + right. exists c. split; [|done]. apply (IH _ Hc). exists l, m. split; [done|]. split; [done|].
      cbn. f_equal. by destruct (bn_Rm n), (existsb bn_Rm l), rm.
Qed.

Lemma or_self_chain n l m : chain n l m → existsb bn_Rm l || n.(bn_Rm) = existsb bn_Rm l.
Proof. intros []; cbn; [by destruct (bn_Rm n0)|]. by destruct (bn_Rm n0), (existsb bn_Rm l0). Qed.

(** The devices offered for mounting are exactly the nodes of lsblk's forest with
    a file system that are not whole disks, at any depth, and one counts as
    removable exactly when it or something it is part of is. *)
Theorem devices_listed nodes b :
  match fsDevices (Ok nodes) with
  | OK _ devs => b ∈ devs
  | Fail _ _ => False
  end ↔ ∃ n l m, n ∈ nodes ∧ chain n l m ∧ mountable m = true ∧ b = device m (existsb bn_Rm l).
Proof.
  cbn. rewrite list_elem_of_bind. setoid_rewrite elem_of_walk. split.
  - intros (n & (l & m & Hl & Hm & ->) & Hn). exists n, l, m. do 3 (split; [done|]). f_equal.
    apply or_self_chain in Hl. done.
  - intros (n & l & m & Hn & Hl & Hm & ->). exists n. split; [|done]. exists l, m. do 2 (split; [done|]). f_equal.
    apply or_self_chain in Hl. done.
Qed.

(** A disk with two partitions, one of them encrypted. *)
Example stick :
  let crypt := mkLsblk "luks-1" "8G" "ext4" "images" "" "crypt" false [] in
  let sdb2 := mkLsblk "sdb2" "8G" "" "" "" "part" false [crypt] in
  let sdb1 := mkLsblk "sdb1" "1G" "vfat" "EFI" "" "part" false [] in
  fsDevices (Ok [mkLsblk "sdb" "9G" "" "" "" "disk" true [sdb1; sdb2]])
  = OK 200 [mkBlockDevice "/dev/sdb1" "1G" "vfat" "EFI" "" true; mkBlockDevice "/dev/luks-1" "8G" "ext4" "images" "" true].
Proof. reflexivity. Qed.

Example flexible : (flexBool "true", flexBool (String quote_char ("1" +:+ String quote_char "")), flexBool "0") = (true, true, false).
Proof. reflexivity. Qed.
