(* ===== verification/DeployApiProps.v ===== *)
(** * What the deploy API promises

    Which machine a caller is taken for, when it is told to install, and what
    an accepted start leads to; proved from the machine store's, the cluster
    definition's and the deploy manager's theorems. *)
From S2P Require Import Prelude GoStrings Secret Machines GoNet ClusterModel Generator Storage DeployModel SelCodec AgentPreflight AgentRun Orchestrator OrchestratorOps DeployDemo OrchestratorSafety OrchestratorStart OrchestratorInspect DeployApi.
From Stdlib Require Import Ascii QArith.

Open Scope string_scope.
Open Scope list_scope.
Open Scope Z_scope.

(** ** The machines of the store *)

Lemma Machine_List_elem (s : machines) m :
  m ∈ Machine_List s ↔ ∃ id r, s !! id = Some (Some r) ∧ m = toMachine r.
Proof.
  unfold Machine_List. rewrite merge_sort_Permutation, list_elem_of_omap. split.
  - intros (id & _ & Hm). exists id. destruct (readRecord id s) as [r|] eqn:Er; [|done].
    apply readRecord_Ok in Er. injection Hm as <-. by exists r.
  - intros (id & r & Hr & ->). exists id. split; [rewrite elem_of_record_ids; by eexists|].
    by rewrite (proj2 (readRecord_Ok id s r) Hr).
Qed.

(** Machine [m] holds the node through the binding [a]. *)
Definition holder (s : machines) (c h : string) (m : Machine) (a : Assignment) : Prop :=
  m ∈ Machine_List s ∧ a ∈ m.(mc_Assignments) ∧ a.(as_ClusterID) = c ∧ a.(as_Hostname) = h.

Lemma NoDup_fmap_elem {A B} (f : A → B) l x y : NoDup (f <$> l) → x ∈ l → y ∈ l → f x = f y → x = y.
Proof.
  intros Hnd [i Hi]%list_elem_of_lookup [j Hj]%list_elem_of_lookup Hf.
  assert (i = j) as ->; [|congruence].
  eapply (NoDup_lookup (f <$> l) i j (f x)); [done|by rewrite list_lookup_fmap, Hi|by rewrite list_lookup_fmap, Hj, Hf].
Qed.

(** A node has one holder, with one binding. *)
Lemma holder_unique s c h m a m' a' :
  well_assigned s → holder s c h m a → holder s c h m' a' → m' = m ∧ a' = a.
Proof.
  intros Hw (Hm & Ha & <- & <-) (Hm' & Ha' & Hc & Hh).
  apply Machine_List_elem in Hm as (i & r & Hr & ->), Hm' as (j & r' & Hr' & ->).
  assert (j = i) as ->.
  { apply (wa_apart s Hw _ _ a.(as_ClusterID) a.(as_Hostname) a'.(as_OSDisk) a.(as_OSDisk)).
    - exists r'. split; [done|]. rewrite <- Hc, <- Hh. by destruct a'.
    - exists r. split; [done|]. by destruct a. }
  assert (r' = r) as -> by congruence. split; [done|].
  eapply (NoDup_fmap_elem node_of_assignment); [by eapply wa_once|done|done|]. unfold node_of_assignment. congruence.
Qed.

Lemma find_elem {A} (f : A → bool) l x : find f l = Some x → x ∈ l ∧ f x = true.
Proof. intros [H1 H2]%find_some. split; [by apply list_elem_of_In|done]. Qed.

Lemma resolveAssignment_in m mgr a s :
  m ∈ Machine_List s → resolveAssignment m mgr = Some a → a ∈ m.(mc_Assignments).
Proof.
  intros (id & r & _ & ->)%Machine_List_elem. unfold resolveAssignment.
  destruct (find _ _) as [b|] eqn:Ef; [by intros [= ->]; apply find_elem in Ef as [? _]|].
  cbn. destruct (assignments r); [done|]. intros [= ->]. by left.
Qed.

(** Who [matchNode] finds is a caller, and holds what it is resolved to. *)
Lemma matchNode_found macs serial dr m a :
  matchNode macs serial dr = Some (m, Some a) →
  is_caller macs serial m = true ∧ holder dr.(dr_machines) a.(as_ClusterID) a.(as_Hostname) m a
  ∧ resolveAssignment m dr.(dr_mgr) = Some a.
Proof.
  unfold matchNode. destruct (find _ _) as [m'|] eqn:Ef; [|done]. intros [= -> Ha]. apply find_elem in Ef as [Hin Hc].
  split_and!; [by destruct (mc_Assignment m)| |done].
  split_and!; [done|by eapply resolveAssignment_in|done..].
Qed.

(** ** The manager behind the handlers *)

Lemma set_static c h fn m c' :
  Master c' (set c h fn m) = Master c' m ∧ OptOutRepair c' (set c h fn m) = OptOutRepair c' m
  ∧ SimulateAirgap c' (set c h fn m) = SimulateAirgap c' m.
Proof.
  unfold set. destruct (m_deploys m !! c) as [d|] eqn:Hd; [|done]. destruct (d_Nodes d !! h); [|done].
  unfold Master, OptOutRepair, SimulateAirgap. cbn. destruct (decide (c' = c)) as [->|Hne].
  - by rewrite lookup_insert_eq, Hd.
  - by rewrite lookup_insert_ne.
Qed.

Lemma eqb_bool_decide x y : (x =? y)%string = bool_decide (x = y).
Proof. apply eq_true_iff_eq. by rewrite String.eqb_eq, bool_decide_eq_true. Qed.

(** What an appointment rests on. *)
Definition appointment (q : CheckinRequest) (dr : driver) (c h : string) (m : Machine) (a : Assignment) : Prop :=
  is_caller q.(cq_MACs) q.(cq_Serial) m = true
  ∧ holder dr.(dr_machines) c h m a
  ∧ (∀ m' a', holder dr.(dr_machines) c h m' a' → m' = m ∧ a' = a)
  ∧ HasActiveDeploy c dr.(dr_mgr) = true.

Lemma matchNode_appointed q dr m a :
  well_assigned dr.(dr_machines) → matchNode q.(cq_MACs) q.(cq_Serial) dr = Some (m, Some a) →
  HasActiveDeploy a.(as_ClusterID) dr.(dr_mgr) = true → appointment q dr a.(as_ClusterID) a.(as_Hostname) m a.
Proof.
  intros Hw Hm Hd. destruct (matchNode_found _ _ _ _ _ Hm) as (Hc & Hh & _). split_and!; try done.
  intros m' a' Hm'. by eapply holder_unique.
Qed.

Section Promises.
Context `{AEAD} (box : string).
Context (Marshal : ClusterDetail → string) (Unmarshal : string → option ClusterDetail).
Context (zip : archive → string) (bytes : string → string).

(** A machine is told to wipe and install itself only while a deploy of its
    cluster runs, only as a node the operator assigned to that machine and to no
    other, onto the system disk chosen there, and as master only when the
    deploy's record says so; a machine under inspection never is, and whoever is
    not appointed leaves the driver's state as it was. *)
Theorem preflightCheckin_safe q wt dr dr' r :
  well_assigned dr.(dr_machines) →
  preflightCheckin Unmarshal (Some q) wt dr = (dr', r) →
  match r with
  | OK code ans =>
      if ans.(pc_Appointed) then
        ∃ m a, appointment q dr ans.(pc_ClusterID) ans.(pc_Hostname) m a
          ∧ (∀ am, matchAnyMachine q.(cq_MACs) q.(cq_Serial) dr = Some am → IsInspecting am.(mc_ID) dr.(dr_mgr) = false)
          ∧ ans.(pc_OSDisk) = a.(as_OSDisk)
          ∧ ans.(pc_IsMaster) = bool_decide (ans.(pc_Hostname) = Master ans.(pc_ClusterID) dr.(dr_mgr))
          ∧ dr' = on_mgr (PreflightProgress ans.(pc_ClusterID) ans.(pc_Hostname)) dr
      else dr' = dr
  | Fail _ _ => dr' = dr
  end.
Proof.
  intros Hw. unfold preflightCheckin. destruct (match matchAnyMachine _ _ dr with Some _ => _ | None => false end) eqn:Ei;
    [by intros [= <- <-]|].
  destruct (matchNode _ _ dr) as [[m [a|]]|] eqn:En; [|by intros [= <- <-]..].
  destruct (HasActiveDeploy _ _) eqn:Eh; cbn [negb]; [|by intros [= <- <-]].
  destruct (detail_of _ _ _) as [det|]; [|by intros [= <- <-]]. intros [= <- <-]. cbn.
  exists m, a. split_and!; [by apply matchNode_appointed| |done| |done].
  - intros am Hm. by rewrite Hm in Ei.
  - unfold PreflightProgress. by rewrite (proj1 (set_static _ _ _ _ _)), eqb_bool_decide.
Qed.

(** ** Starting a deploy *)

Lemma find_ext_in {A} (f g : A → bool) l : (∀ x, x ∈ l → f x = g x) → find f l = find g l.
Proof.
  induction l as [|x l IH]; intros He; [done|]. cbn. rewrite (He x) by by left.
  destruct (g x); [done|]. apply IH. intros y Hy. apply He. by right.
Qed.

Lemma Forall2_in_l {A B} (P : A → B → Prop) l k x : Forall2 P l k → x ∈ l → ∃ y, y ∈ k ∧ P x y.
Proof. intros Hp [i Hi]%list_elem_of_lookup. destruct (Forall2_lookup_l _ _ _ _ _ Hp Hi) as (y & Hk & Hy). exists y. split; [by eapply list_elem_of_lookup_2|done]. Qed.

Lemma find_none_in {A} (f : A → bool) l x : find f l = None → x ∈ l → f x = false.
Proof. intros Hf Hx. by apply (find_none _ _ Hf), list_elem_of_In. Qed.

Lemma AssignmentFor_cluster m c a : AssignmentFor m c = Some a → a ∈ m.(mc_Assignments) ∧ a.(as_ClusterID) = c.
Proof. intros [Hin Hc]%find_elem. split; [done|by apply String.eqb_eq]. Qed.

Lemma by_host_lookup id ms h m :
  by_host id ms !! h = Some m → m ∈ ms ∧ ∃ a, AssignmentFor m id = Some a ∧ a.(as_Hostname) = h.
Proof.
  unfold by_host. assert (∀ acc : gmap string Machine, foldl (fun acc m => match AssignmentFor m id with Some a => <[a.(as_Hostname) := m]> acc
    | None => acc end) acc ms !! h = Some m → acc !! h = Some m ∨ m ∈ ms ∧ ∃ a, AssignmentFor m id = Some a ∧ a.(as_Hostname) = h) as H0.
  { induction ms as [|x ms IH]; intros acc; cbn; [by left|]. intros [Hacc|[Hin Ha]]%IH; [|right; split; [by right|done]].
    destruct (AssignmentFor x id) as [a|] eqn:Ea; [|by left].
    apply lookup_insert_Some in Hacc as [[<- <-]|[_ Hacc]]; [|by left]. right. split; [by left|]. by exists a. }
  intros [Hn|Hm]%H0; [by rewrite lookup_empty in Hn|done].
Qed.

(** What the plan has for a node of the definition: the machine assigned to it,
    reached with its stored login, and no other deploy running on it. *)
Definition installs (id : string) (dr : driver) (nc : NodeConfig) (n : Node) : Prop :=
  ∃ m a, by_host id (Machine_List dr.(dr_machines)) !! nc.(nc_Hostname) = Some m
    ∧ AssignmentFor m id = Some a ∧ a.(as_Hostname) = nc.(nc_Hostname)
    ∧ n.(n_Hostname) = nc.(nc_Hostname) ∧ n.(n_MachineID) = m.(mc_ID) ∧ n.(n_OSDisk) = a.(as_OSDisk)
    ∧ Credentials box m.(mc_ID) dr.(dr_machines) = Ok (n.(n_BMCAddress), n.(n_BMCUser), n.(n_BMCPass))
    ∧ ∀ a', a' ∈ m.(mc_Assignments) → a'.(as_ClusterID) ≠ id → HasActiveDeploy a'.(as_ClusterID) dr.(dr_mgr) = false.

Lemma no_conflict m id dr a :
  HasActiveDeploy "" dr.(dr_mgr) = false → activeConflict Unmarshal m id dr = "" → a ∈ m.(mc_Assignments) →
  a.(as_ClusterID) ≠ id → HasActiveDeploy a.(as_ClusterID) dr.(dr_mgr) = false.
Proof.
  intros H0 Hc Ha Hne. unfold activeConflict in Hc. destruct (find _ _) as [b|] eqn:Ef.
  - apply find_elem in Ef as [_ [_ Hb]%andb_true_iff]. exfalso. unfold clusterName in Hc.
    assert (as_ClusterID b = "") as Hb0; [|rewrite Hb0 in Hb; congruence].
    destruct (detail_of _ _ _) as [d|]; [|done]. destruct (is_empty _) eqn:Ee; [done|].
    apply is_empty_false in Ee. done.
  - apply (find_none_in _ _ _ Ef) in Ha. apply String.eqb_neq in Hne. by rewrite Hne in Ha.
Qed.

Lemma plan_nodes_all id dr nodes ns rows :
  HasActiveDeploy "" dr.(dr_mgr) = false →
  plan_nodes box Unmarshal id dr (by_host id (Machine_List dr.(dr_machines))) nodes = Ok (ns, rows, true) →
  find (fun row => negb (is_empty row.(row_Conflict))) rows = None →
  Forall2 (installs id dr) nodes ns.
Proof.
  intros H0. revert ns rows. induction nodes as [|nc nodes IH]; intros ns rows; cbn; [by intros [= <- <-]|].
  destruct (by_host _ _ !! _) as [m|] eqn:Eb.
  - destruct (plan_node _ _ _ _ _ _) as [nr|] eqn:En; [|done]. cbn.
    destruct (plan_nodes _ _ _ _ _ _) as [[[ns' rows'] all]|] eqn:Er; [|done]. cbn. intros [= <- <- ->] Hf.
    cbn in Hf. destruct (is_empty (row_Conflict nr.2)) eqn:Ec; [|done]. cbn in Hf. apply is_empty_true in Ec.
    constructor; [|by eapply IH]. destruct (by_host_lookup _ _ _ _ Eb) as (_ & a & Ha & Hh).
    unfold plan_node in En. destruct (Credentials _ _ _) as [[[addr user] pass]|] eqn:Ecr; [|done].
    injection En as <-. cbn in Ec. rewrite Ha. exists m, a. split_and!; try done. cbn. intros a' Ha'. by eapply no_conflict.
  - destruct (plan_nodes _ _ _ _ _ _) as [[[ns' rows'] all]|]; [|done]. cbn. intros [= _ _ ?].
Qed.

Definition start_args (id : string) (body : startBody) (detail : ClusterDetail) (nodes : list Node) (dr : driver) : StartArgs :=
  mkStartArgs (selected body nodes) (default "" (head (GetControlInfo detail.(cd_NodeData)).(ctl_Hostnames)))
    (verifyTargets Unmarshal id dr) body.(sb_Manual) body.(sb_Image) body.(sb_OptOutRepair) body.(sb_SimulateAirgap).

Lemma store_error_fails {A} id e : is_OK (store_error (A := A) id e) = false.
Proof. unfold store_error. by destruct (e =? ErrStoreNotFound)%string. Qed.

Lemma start_steps id body anchor flip dr dr' r :
  HasActiveDeploy "" dr.(dr_mgr) = false →
  start box Unmarshal id body anchor flip dr = (dr', r) →
  dr' = dr ∧ is_OK r = false
  ∨ ∃ detail nodes,
      body.(sb_Confirm) = true ∧ detail_of Unmarshal dr id = Ok detail
      ∧ Forall2 (installs id dr) detail.(cd_NodeData) nodes
      ∧ (∀ nc, nc ∈ detail.(cd_NodeData) → ValidateNodeNetwork nc = Ok tt)
      ∧ selected body nodes ≠ []
      ∧ let '(mgr, e) := Start id (start_args id body detail nodes dr) anchor flip dr.(dr_mgr) in
        dr' = set_dr_mgr mgr dr ∧ r = match e with Ok d => OK 202 d | Err e => Fail 500 e end.
Proof.
  intros H0. unfold start. destruct (pathValue id); cbn [negb]; [|by intros [= <- <-]; left].
  destruct (sb_Confirm body); cbn [negb]; [|by intros [= <- <-]; left].
  unfold buildNodes. destruct (detail_of _ _ _) as [detail|] eqn:Ed; 
    [|intros [= <- <-]; left; split; [done|apply store_error_fails]].
  cbn. destruct (plan_nodes _ _ _ _ _ _) as [[[nodes rows] all]|] eqn:Ep; cbn.
  2: { intros [= <- <-]. left. split; [done|apply store_error_fails]. }
  destruct all; cbn; [|by intros [= <- <-]; left].
  destruct (find _ _) eqn:Ef; [by intros [= <- <-]; left|]. destruct (selected body nodes) eqn:Es; [by intros [= <- <-]; left|].
  destruct (check_network _ _ _) as [[]|] eqn:Ec; [|by intros [= <- <-]; left]. rewrite <- Es.
  destruct (Start _ _ _ _ _) as [mgr e] eqn:Est. intros [= <- <-]. right. exists detail, nodes.
  split_and!; try done; [by eapply plan_nodes_all| |by rewrite Es|unfold start_args; by rewrite Est].
  unfold check_network in Ec. rewrite Ed in Ec. intros nc Hnc.
  rewrite first_err_Ok, Forall_forall in Ec. specialize (Ec nc Hnc). cbn in Ec. destruct (ValidateNodeNetwork nc) as [[]|]; done.
Qed.

(** A deploy is started only on confirmation, with every node of the cluster
    assigned to a machine no other running deploy claims, every machine's login
    readable and every node's addresses valid; the manager is then handed exactly
    the chosen nodes, each with its machine's login and system disk.  Everything
    refused before that leaves the driver as it was. *)
Theorem start_guarded id body anchor flip dr dr' r :
  HasActiveDeploy "" dr.(dr_mgr) = false →
  start box Unmarshal id body anchor flip dr = (dr', r) →
  dr' = dr ∧ is_OK r = false
  ∨ ∃ detail nodes,
      body.(sb_Confirm) = true ∧ detail_of Unmarshal dr id = Ok detail
      ∧ Forall2 (installs id dr) detail.(cd_NodeData) nodes
      ∧ (∀ nc, nc ∈ detail.(cd_NodeData) → ValidateNodeNetwork nc = Ok tt)
      ∧ selected body nodes ≠ []
      ∧ let '(mgr, e) := Start id (start_args id body detail nodes dr) anchor flip dr.(dr_mgr) in
        dr' = set_dr_mgr mgr dr ∧ r = match e with Ok d => OK 202 d | Err e => Fail 500 e end.
Proof. apply start_steps. Qed.

(** ** From a start to the nodes *)

Lemma find_strengthen {A} (f g : A → bool) l x :
  find f l = Some x → (∀ y, g y = true → f y = true) → g x = true → find g l = Some x.
Proof.
  intros Hf Hgf Hg. induction l as [|y l IH]; [done|]. cbn in *. destruct (f y) eqn:Ey.
  - injection Hf as ->. by rewrite Hg.
  - destruct (g y) eqn:Egy; [apply Hgf in Egy; congruence|by apply IH].
Qed.

Lemma pending_active d h : (∀ h nd, d.(d_Nodes) !! h = Some nd → nd.(nd_State) = StatePending) →
  is_Some (d.(d_Nodes) !! h) → map_forallb (fun _ nd => terminal nd.(nd_State)) d.(d_Nodes) = false.
Proof. intros Hp [nd Hn]. apply map_forallb_false. exists h, nd. split; [done|]. by rewrite (Hp _ _ Hn). Qed.

Lemma HasActiveDeploy_same c m m' :
  m'.(m_deploys) !! c = m.(m_deploys) !! c → HasActiveDeploy c m' = HasActiveDeploy c m.
Proof. unfold HasActiveDeploy. by intros ->. Qed.

(** What a successful [Start] leaves for the handlers to read. *)
Lemma Start_visible id a anchor flip m m' v :
  Start id a anchor flip m = (m', Ok v) →
  HasActiveDeploy id m' = true ∧ Master id m' = a.(sa_master)
  ∧ ∀ c, c ≠ id → HasActiveDeploy c m' = HasActiveDeploy c m.
Proof.
  intros HS. destruct (Start_done _ _ _ _ _ _ _ HS) as (Ho & d & Hd & _ & Hma & _ & Hdom & Hp).
  split_and!.
  - unfold HasActiveDeploy. rewrite Hd. destruct (sa_nodes a) as [|n l] eqn:Ea; [unfold Start in HS; by rewrite Ea in HS|].
    rewrite (pending_active d n.(n_Hostname)); [done|intros h nd Hn; by apply Hp in Hn as [? _]|].
    apply Hdom. by left.
  - unfold Master. by rewrite Hd.
  - intros c Hc. by apply HasActiveDeploy_same, Ho.
Qed.

(** The machine's assignment in the started cluster is the one it is taken for. *)
Lemma resolve_started id m mgr a :
  HasActiveDeploy id mgr = true →
  (∀ a', a' ∈ m.(mc_Assignments) → a'.(as_ClusterID) ≠ id → HasActiveDeploy a'.(as_ClusterID) mgr = false) →
  AssignmentFor m id = Some a → resolveAssignment m mgr = Some a.
Proof.
  intros Hid Ho Ha. unfold resolveAssignment. rewrite (find_ext_in _ (fun a => (a.(as_ClusterID) =? id)%string)).
  - unfold AssignmentFor in Ha. by rewrite Ha.
  - intros a' Ha'. destruct (String.eqb_spec (as_ClusterID a') id) as [->|Hne]; [done|by apply Ho].
Qed.

(** An accepted start tracks the nodes chosen for it. *)
Lemma start_tracks id body detail nodes dr anchor flip mgr v n h :
  Start id (start_args id body detail nodes dr) anchor flip dr.(dr_mgr) = (mgr, Ok v) →
  n ∈ nodes → n.(n_Hostname) = h → body.(sb_Hostnames) = [] ∨ h ∈ body.(sb_Hostnames) →
  ∃ dd, mgr.(m_deploys) !! id = Some dd ∧ is_Some (dd.(d_Nodes) !! h).
Proof.
  intros HS Hn <- Hch. destruct (Start_done _ _ _ _ _ _ _ HS) as (_ & dd & Hdd & _ & _ & _ & Hdom & _).
  exists dd. split; [done|]. apply Hdom, list_elem_of_fmap. exists n. split; [done|]. cbn. unfold selected.
  destruct (sb_Hostnames body) as [|x l] eqn:E; [done|]. destruct Hch as [|Hch]; [done|].
  rewrite list_elem_of_In, filter_In, <- list_elem_of_In. split; [done|]. by apply contains_true.
Qed.

(** C12. Once a start is accepted, every machine whose node was chosen for it (all
    nodes, when none was named) and that netboots is told to install that node, which
    the deploy now tracks: with its own system disk, and as master exactly when it is the first control node,
    provided no machine listed before it answers to the same addresses or serial and
    it is not under inspection.  It is assumed that the machine store is well
    assigned, as its operations keep it (assignments_apart), and that no deploy is
    filed under the empty cluster id.  (A node that was not chosen is told to
    install as well, which is a finding: unchosen_wiped.) *)
Theorem start_reaches_machine id body anchor flip dr dr' code d detail nc m a q wt :
  well_assigned dr.(dr_machines) → HasActiveDeploy "" dr.(dr_mgr) = false →
  start box Unmarshal id body anchor flip dr = (dr', OK code d) →
  detail_of Unmarshal dr id = Ok detail → nc ∈ detail.(cd_NodeData) →
  body.(sb_Hostnames) = [] ∨ nc.(nc_Hostname) ∈ body.(sb_Hostnames) →
  AssignmentFor m id = Some a → a.(as_Hostname) = nc.(nc_Hostname) →
  matchAnyMachine q.(cq_MACs) q.(cq_Serial) dr = Some m → IsInspecting m.(mc_ID) dr'.(dr_mgr) = false →
  (∃ dd, dr'.(dr_mgr).(m_deploys) !! id = Some dd ∧ is_Some (dd.(d_Nodes) !! nc.(nc_Hostname)))
  ∧ ∃ ans, (preflightCheckin Unmarshal (Some q) wt dr').2 = OK 200 ans
    ∧ ans.(pc_Appointed) = true ∧ ans.(pc_ClusterID) = id ∧ ans.(pc_Hostname) = nc.(nc_Hostname)
    ∧ ans.(pc_OSDisk) = a.(as_OSDisk) ∧ ans.(pc_Bundle) = default (mkPreflightBundle "" [] []) (BuildPreflightBundles detail !! nc.(nc_Hostname))
    ∧ ans.(pc_IsMaster) = bool_decide (nc.(nc_Hostname) = default "" (head (GetControlInfo detail.(cd_NodeData)).(ctl_Hostnames))).
Proof.
  intros Hw H0 Hs Hd Hnc Hch Ha Hh Hm Hi.
  destruct (start_steps _ _ _ _ _ _ _ H0 Hs) as [[_ ?]|(detail' & nodes & _ & Hd' & Hp & _ & _ & HS)]; [done|].
  assert (detail' = detail) as -> by congruence. destruct (Start _ _ _ _ _) as [mgr [v|e]] eqn:Est; destruct HS as [-> ?]; [|done].
  destruct (Start_visible _ _ _ _ _ _ _ Est) as (Hact & Hma & Hoth). cbn in Hi.
  apply find_elem in Hm as Hm'. destruct Hm' as [Hin Hcall].
  destruct (Forall2_in_l _ _ _ _ Hp Hnc) as (n & Hn & (m' & a' & Hby & Ha' & Hh' & Hhn & _ & _ & _ & Hfree)).
  split; [by eapply start_tracks|].
  destruct (by_host_lookup _ _ _ _ Hby) as (Hin' & _).
  assert (m' = m) as ->.
  { destruct (AssignmentFor_cluster _ _ _ Ha) as [? Hc], (AssignmentFor_cluster _ _ _ Ha') as [? Hc'].
    apply (holder_unique dr.(dr_machines) id nc.(nc_Hostname) m a m' a'); [done|by split_and!..]. }
  assert (resolveAssignment m mgr = Some a) as Hres.
  { apply (resolve_started id); [done| |done]. intros b Hb Hne. rewrite Hoth by done. by apply Hfree. }
  assert (matchNode q.(cq_MACs) q.(cq_Serial) (set_dr_mgr mgr dr) = Some (m, Some a)) as Hmn.
  { unfold matchNode. cbn. erewrite find_strengthen; [cbn; by rewrite Hres|exact Hm| |].
    - intros y. by destruct (mc_Assignment y).
    - apply Machine_List_elem in Hin as (i & r & _ & ->). destruct (AssignmentFor_cluster _ _ _ Ha) as [Hina _].
      cbn in *. by destruct (assignments r); [apply elem_of_nil in Hina|]. }
  unfold preflightCheckin. change (matchAnyMachine _ _ (set_dr_mgr mgr dr)) with (matchAnyMachine q.(cq_MACs) q.(cq_Serial) dr).
  rewrite Hm, Hmn. cbn [dr_mgr set_dr_mgr]. rewrite Hi. destruct (AssignmentFor_cluster _ _ _ Ha) as [_ ->].
  rewrite Hact, Hh. cbn [negb]. change (detail_of Unmarshal (set_dr_mgr mgr dr) id) with (detail_of Unmarshal dr id).
  rewrite Hd. eexists. split_and!; [done..|]. cbn. unfold PreflightProgress.
  rewrite (proj1 (set_static _ _ _ _ _)), Hma. apply eqb_bool_decide.
Qed.

End Promises.

(** ** A concrete site *)

#[local] Existing Instance plain_aead.

Definition demo_inventory (serial mac : string) : Inventory :=
  mkInventory "t" "redfish" "" "" serial "" 0 0 0 [mkNIC "eth0" mac "" "" 0 true None] [] [].

Definition demo_record (id label serial mac c h : string) : option record :=
  Some (mkRecord id label (mkBMC "10.0.0.1" "admin" 3) "" (Some (demo_inventory serial mac)) (Some FetchOK) "" None
    [mkAssignment c h "/dev/sda"]).

Definition demo_machines : machines :=
  {["1" := demo_record "1" "alpha" "S1" "aa:00" "c" "cc1"; "2" := demo_record "2" "beta" "S2" "bb:00" "c" "cc2"]}.

Definition demo_driver : driver :=
  mkDriver demo_machines (mkFilestore {["c" := mkClusterdir (Some "x") ∅]} ∅ ∅ ∅ false) demo_manager.

Definition demo_body (hosts : list string) : startBody := mkStartBody true hosts false "" false false.
Definition demo_started (hosts : list string) : driver * reply Deploy :=
  start "k" demo_unmarshal "c" (demo_body hosts) (fun _ => 7) demo_flip demo_driver.
Definition from_mac (mac serial : string) : option CheckinRequest := Some (mkCheckinRequest [mac] serial).
Definition demo_to : where_to := mkWhereTo "10.0.0.9:8080" false.
Definition demo_checkin (mac serial : string) (dr : driver) : reply PreflightCheckinResponse :=
  (preflightCheckin demo_unmarshal (from_mac mac serial) demo_to dr).2.

Definition told (r : reply PreflightCheckinResponse) : option (bool * string * bool) :=
  match r with OK _ a => Some (a.(pc_Appointed), a.(pc_Hostname), a.(pc_Inspect)) | Fail _ _ => None end.

Lemma demo_well_assigned : well_assigned demo_machines.
Proof.
  assert (∀ i r, demo_machines !! i = Some (Some r) →
    (i = "1" ∧ Some r = demo_record "1" "alpha" "S1" "aa:00" "c" "cc1")
    ∨ (i = "2" ∧ Some r = demo_record "2" "beta" "S2" "bb:00" "c" "cc2")) as H.
  { intros i r. unfold demo_machines. rewrite lookup_insert_Some, lookup_singleton_Some. naive_solver. }
  split.
  - intros i r [[-> [= ->]]|[-> [= ->]]]%H; done.
  - intros i r [[-> [= ->]]|[-> [= ->]]]%H; apply NoDup_singleton.
  - intros i j c h d e (r & Hr & Hin) (r' & Hr' & Hin').
    apply H in Hr as [[-> [= ->]]|[-> [= ->]]], Hr' as [[-> [= ->]]|[-> [= ->]]]; try done;
      apply list_elem_of_singleton in Hin, Hin'; congruence.
Qed.

Example demo_plan : is_OK (demo_started []).2 = true ∧ told (demo_checkin "BB:00" "" (demo_started []).1) = Some (true, "cc2", false)
  ∧ told (demo_checkin "bb:00" "" demo_driver) = Some (false, "", false).
Proof. vm_compute. auto. Qed.

Lemma preflightCheckin_safe_witness :
  ∃ m a, appointment (mkCheckinRequest ["bb:00"] "") (demo_started []).1 "c" "cc2" m a ∧ a.(as_OSDisk) = "/dev/sda".
Proof.
  destruct (preflightCheckin demo_unmarshal (from_mac "bb:00" "") demo_to (demo_started []).1) as [dr' r] eqn:E.
  pose proof (preflightCheckin_safe demo_unmarshal (mkCheckinRequest ["bb:00"] "") demo_to (demo_started []).1 dr' r
    demo_well_assigned E) as H.
  assert (told r = Some (true, "cc2", false)) as Ht
    by (change r with (dr', r).2; rewrite <- E; vm_compute; reflexivity).
  assert (match r with OK _ ans => ans.(pc_ClusterID) = "c" ∧ ans.(pc_OSDisk) = "/dev/sda" | Fail _ _ => False end) as Hc
    by (change r with (dr', r).2; rewrite <- E; vm_compute; auto).
  destruct r as [code ans|]; [|done]. cbn in Ht. injection Ht as Ha Hh _. destruct Hc as [Hc Hd].
  rewrite Ha, Hc, Hh in H. destruct H as (m & a & H1 & _ & H2 & _). exists m, a. split; [exact H1|congruence].
Defined.

Lemma demo_started_reply : is_OK (demo_started []).2 = true.
Proof. vm_compute. reflexivity. Qed.

Lemma start_guarded_witness :
  ∃ detail nodes, detail_of demo_unmarshal demo_driver "c" = Ok detail
    ∧ Forall2 (installs "k" "c" demo_driver) detail.(cd_NodeData) nodes.
Proof.
  destruct (start_guarded "k" demo_unmarshal "c" (demo_body []) (fun _ => 7) demo_flip demo_driver (demo_started []).1
    (demo_started []).2 eq_refl (surjective_pairing _)) as [[_ Hf]|(detail & nodes & _ & Hd & Hp & _)].
  - rewrite demo_started_reply in Hf. discriminate Hf.
  - exists detail, nodes. split; [exact Hd|exact Hp].
Defined.

Lemma start_reaches_machine_witness :
  ∃ ans, demo_checkin "bb:00" "" (demo_started ["cc2"]).1 = OK 200 ans ∧ ans.(pc_Appointed) = true ∧ ans.(pc_Hostname) = "cc2".
Proof.
  destruct (start "k" demo_unmarshal "c" (demo_body ["cc2"]) (fun _ => 7) demo_flip demo_driver) as [dr' r] eqn:E.
  assert (is_OK r = true) as Hok by (change r with (dr', r).2; rewrite <- E; vm_compute; reflexivity).
  destruct r as [code d|]; [|discriminate Hok].
  assert (IsInspecting "2" dr'.(dr_mgr) = false) as Hi
    by (change dr' with (dr', OK code d).1; rewrite <- E; vm_compute; reflexivity).
  destruct (matchAnyMachine ["bb:00"] "" demo_driver) as [m|] eqn:Em; [|vm_compute in Em; discriminate Em].
  assert (m.(mc_ID) = "2" ∧ AssignmentFor m "c" = Some (mkAssignment "c" "cc2" "/dev/sda")) as [Hid Ha].
  { vm_compute in Em. injection Em as <-. vm_compute. auto. }
  destruct (start_reaches_machine "k" demo_unmarshal "c" (demo_body ["cc2"]) (fun _ => 7) demo_flip demo_driver dr' code d demo_pair
    (demo_nc "cc2" "10.1.2.4") m (mkAssignment "c" "cc2" "/dev/sda") (mkCheckinRequest ["bb:00"] "") demo_to
    demo_well_assigned eq_refl E) as (_ & ans & Hr & H1 & _ & H2 & _).
  - vm_compute. reflexivity.
  - right. by left.
  - right. by left.
  - exact Ha.
  - reflexivity.
  - exact Em.
  - rewrite Hid. exact Hi.
  - exists ans. split; [|split; [exact H1|exact H2]]. rewrite <- Hr. unfold demo_checkin, demo_started. by rewrite E.
Defined.

(** A partial redeploy ends up at the whole cluster: a node that was not chosen
    and netboots meanwhile is appointed, and its restore is cleared as soon as
    the chosen ones passed. *)
Example unchosen_wiped :
  let dr := (demo_started ["cc1"]).1 in
  let dr := on_mgr (PreflightReport "c" "cc1" demo_pf) dr in
  told (demo_checkin "bb:00" "" dr) = Some (true, "cc2", false) ∧ (greenlight (Some ("c", "cc2")) dr).2 = OK 200 true.
Proof. vm_compute. auto. Qed.

(** An inspect that failed still counts as running: the machine is sent to take
    its inventory, not to install, although its cluster's deploy is active. *)
Example failed_inspect_hijacks :
  let dr := on_mgr (fun m => setInspect "2" "error" "timeout" (StartInspect [demo_node "b"] ∅ "" demo_flip m).1) (demo_started []).1 in
  let dr2 := on_mgr (fun m => setInspect "2" "error" "timeout"
               (StartInspect [mkNode "" "2" "10.0.0.1" "admin" "" 3 [] ""] ∅ "" demo_flip m).1) (demo_started []).1 in
  told (demo_checkin "bb:00" "" dr) = Some (true, "cc2", false) ∧ told (demo_checkin "bb:00" "" dr2) = Some (false, "", true).
Proof. vm_compute. auto. Qed.

(** The serial of a machine is tried before the addresses of the machines listed
    after it: of two boards with the same default serial, the second is taken
    for the first although its address is known. *)
Example serial_before_mac :
  let ms := {["1" := demo_record "1" "alpha" "Default string" "aa:00" "c" "cc1";
              "2" := demo_record "2" "beta" "Default string" "bb:00" "c" "cc2"]} : machines in
  let dr := mkDriver ms (demo_started []).1.(dr_clusters) (demo_started []).1.(dr_mgr) in
  told (demo_checkin "bb:00" "Default string" dr) = Some (true, "cc1", false)
  ∧ told (demo_checkin "bb:00" "" dr) = Some (true, "cc2", false).
Proof. vm_compute. auto. Qed.
