(* ===== verification/DeployApiConc.v ===== *)
(** * The deploy API, many requests at a time (internal/api/deploy.go)

    The HTTP server runs every request in a goroutine of its own.  A handler
    is a [prog]: what it reads, each read of a store taken as one moment, and the
    methods of [Manager] it calls, whose critical sections are those of
    OrchestratorConc.v.  Alone, a handler does what its function of DeployApi.v does;
    the order of a deploy and the guard on an appointment hold with all
    requests, goroutines and edits of the stores interleaved; three schedules show
    what the handlers do not guard. *)
From S2P Require Import Prelude GoStrings Secret Machines GoNet ClusterModel Generator Storage DeployModel SelCodec AgentPreflight AgentRun Orchestrator OrchestratorFrames OrchestratorOps DeployDemo OrchestratorSafety OrchestratorStart OrchestratorConc OrchestratorInspect DeployApi DeployApiProps.
From Stdlib Require Import Ascii QArith.

Open Scope string_scope.
Open Scope list_scope.
Open Scope Z_scope.

(** ** Handlers as programs *)

(** [Call]: a method that changes the manager; its answer is told from the
    manager it began in. *)
Inductive prog (A : Type) : Type :=
| Done (a : A)
| Look (k : driver → prog A)
| Call (o : Op) (k : Manager → prog A)
| Keep (f : filestore → filestore) (k : prog A).
Arguments Done {A}.
Arguments Look {A}.
Arguments Call {A}.
Arguments Keep {A}.

#[export] Instance prog_ret : MRet prog := @Done.
#[export] Instance prog_bind : MBind prog := fun A D f =>
  fix bind p := match p with
                | Done a => f a
                | Look k => Look (fun dr => bind (k dr))
                | Call o k => Call o (fun m => bind (k m))
                | Keep g k => Keep g (bind k)
                end.

(** A read: what it gives is settled at once. *)
Definition look {A} (f : driver → A) : prog A := Look (fun dr => Done (f dr)).
Definition reads {A} (f : Manager → A) : prog A := look (fun dr => f dr.(dr_mgr)).
Definition call {A} (o : Op) (f : Manager → A) : prog A := Call o (fun m => Done (f m)).
Definition does (o : Op) : prog unit := call o (fun _ => tt).

(** The whole handler at once. *)
Fixpoint eval {A} (p : prog A) (dr : driver) : driver * A :=
  match p with
  | Done a => (dr, a)
  | Look k => eval (k dr) dr
  | Call o k => eval (k dr.(dr_mgr)) (on_mgr (run_op o) dr)
  | Keep f k => eval k (set_dr_clusters (f dr.(dr_clusters)) dr)
  end.

Section Handlers.
Context `{AEAD} (box : string).
Context (Marshal : ClusterDetail → string) (Unmarshal : string → option ClusterDetail).
Context (zip : archive → string) (bytes : string → string).

(** One look per assignment: [HasActiveDeploy] takes the lock anew. *)
Fixpoint resolveAssignment_p (l : list Assignment) (primary : option Assignment) : prog (option Assignment) :=
  match l with
  | [] => mret primary
  | a :: l => active ← reads (HasActiveDeploy a.(as_ClusterID));
              if active : bool then mret (Some a) else resolveAssignment_p l primary
  end.

Definition matchNode_p (macs : list string) (serial : string) : prog (option (Machine * option Assignment)) :=
  ms ← look (fun dr => Machine_List dr.(dr_machines));
  match find (fun m => match m.(mc_Assignment) with Some _ => is_caller macs serial m | None => false end) ms with
  | None => mret None
  | Some m => a ← resolveAssignment_p m.(mc_Assignments) m.(mc_Assignment); mret (Some (m, a))
  end.

Definition detail_p (id : string) : prog (result ClusterDetail) := look (fun dr => detail_of Unmarshal dr id).

(** ** Planning and starting *)

Fixpoint activeConflict_p (l : list Assignment) (id : string) : prog string :=
  match l with
  | [] => mret ""
  | a :: l =>
      if (a.(as_ClusterID) =? id)%string then activeConflict_p l id
      else active ← reads (HasActiveDeploy a.(as_ClusterID));
           if active : bool then look (clusterName Unmarshal a.(as_ClusterID)) else activeConflict_p l id
  end.

Fixpoint plan_nodes_p (id : string) (byHost : gmap string Machine) (nodes : list NodeConfig)
    : prog (result (list Node * list planRow * bool)) :=
  match nodes with
  | [] => mret (Ok ([], [], true))
  | n :: nodes =>
      let host := n.(nc_Hostname) in
      match byHost !! host with
      | None =>
          r ← plan_nodes_p id byHost nodes;
          mret (let? r := r in Ok (r.1.1, mkPlanRow host false "" "" "" [] "" :: r.1.2, false))
      | Some m =>
          cred ← look (fun dr => Credentials box m.(mc_ID) dr.(dr_machines));
          match cred with
          | Err e => mret (Err e)
          | Ok (addr, user, pass) =>
              let osDisk := match AssignmentFor m id with Some a => a.(as_OSDisk) | None => "" end in
              let macs := macsOf m in
              conflict ← activeConflict_p m.(mc_Assignments) id;
              r ← plan_nodes_p id byHost nodes;
              mret (let? r := r in
                    Ok (mkNode host m.(mc_ID) addr user pass m.(mc_BMC).(bmc_Cipher) macs osDisk :: r.1.1,
                        mkPlanRow host true m.(mc_Label) addr osDisk macs conflict :: r.1.2, r.2))
          end
      end
  end.

Definition buildNodes_p (id : string) : prog (result deployPlan) :=
  detail ← detail_p id;
  match detail with
  | Err e => mret (Err e)
  | Ok detail =>
      let master := default "" (head (GetControlInfo detail.(cd_NodeData)).(ctl_Hostnames)) in
      ms ← look (fun dr => Machine_List dr.(dr_machines));
      r ← plan_nodes_p id (by_host id ms) detail.(cd_NodeData);
      mret (let? r := r in Ok (mkDeployPlan r.1.1 r.1.2 r.2 master))
  end.

Definition plan_p (id : string) : prog (reply (bool * list planRow)) :=
  if negb (pathValue id) then mret (bad_path "id") else
  r ← buildNodes_p id;
  mret (match r with
        | Err e => store_error id e
        | Ok p => OK (if p.(dp_allAssigned) then 200 else 409) (p.(dp_allAssigned), p.(dp_rows))
        end).

(** Whether the flip of a start works is up to the PXE server and the flags. *)
Definition flip_answer (id : string) (a : StartArgs) (flip : string → string → result bool) (m : Manager) : result unit :=
  (flipForBoot None a.(sa_image) (deployArm m) flip (BootedDeploy id) m).2.

Definition start_call (id : string) (a : StartArgs) (anchor : Node → Z) (flip : string → string → result bool)
    : prog (result Deploy) :=
  r ← call (OpStart id a anchor flip) (flip_answer id a flip);
  match r with Err e => mret (Err e) | Ok _ => reads (snapshot id) end.

Definition start_p (id : string) (body : startBody) (anchor : Node → Z) (flip : string → string → result bool)
    : prog (reply Deploy) :=
  if negb (pathValue id) then mret (bad_path "id")
  else if negb body.(sb_Confirm) then mret (Fail 400 "deploy requires confirm=true")
  else
    r ← buildNodes_p id;
    match r with
    | Err e => mret (store_error id e)
    | Ok p =>
        if negb p.(dp_allAssigned) then mret (Fail 409 "every node must be assigned a server before deploy")
        else
          match find (fun row => negb (is_empty row.(row_Conflict))) p.(dp_rows) with
          | Some row =>
              mret (Fail 409 ("machine " +:+ row.(row_MachineLabel) +:+ " (node " +:+ row.(row_Hostname)
                +:+ ") is in an active deploy for cluster " +:+ row.(row_Conflict)
                +:+ " — wait for it to finish or cancel it"))
          | None =>
              let nodes := selected body p.(dp_nodes) in
              match nodes with
              | [] => mret (Fail 400 "no matching nodes to deploy")
              | _ =>
                  net ← look (check_network Unmarshal id);
                  match net with
                  | Err e => mret (Fail 400 e)
                  | Ok _ =>
                      targets ← look (verifyTargets Unmarshal id);
                      r ← start_call id (mkStartArgs nodes p.(dp_master) targets body.(sb_Manual) body.(sb_Image)
                                           body.(sb_OptOutRepair) body.(sb_SimulateAirgap)) anchor flip;
                      mret (match r with Ok d => OK 202 d | Err e => Fail 500 e end)
                  end
              end
          end
    end.

(** ** What the nodes' agents call *)

Definition checkin_p (req : option CheckinRequest) (wt : where_to) : prog (reply CheckinResponse) :=
  match req with
  | None => mret (Fail 400 "invalid JSON")
  | Some req =>
      r ← matchNode_p req.(cq_MACs) req.(cq_Serial);
      match r with
      | Some (matched, Some assn) =>
          let cid := assn.(as_ClusterID) in
          active ← reads (HasActiveDeploy cid);
          if negb active then mret (OK 200 never_appointed)
          else
            let host := assn.(as_Hostname) in
            hold ← call (OpCheckIn cid host) (fun m => (CheckIn cid host m).2);
            now ← reads nowUTC;
            targets ← look (preflightTargets Unmarshal cid host (server_host wt.(wt_Host)));
            mret (OK 200 (mkCheckinResponse true hold cid host (snapshot_url wt cid host) now targets))
      | _ => mret (OK 200 never_appointed)
      end
  end.

Definition preflightCheckin_p (req : option CheckinRequest) (wt : where_to) : prog (reply PreflightCheckinResponse) :=
  match req with
  | None => mret (Fail 400 "invalid JSON")
  | Some req =>
      am ← look (matchAnyMachine req.(cq_MACs) req.(cq_Serial));
      inspecting ← match am with Some am => reads (IsInspecting am.(mc_ID)) | None => mret false end;
      if inspecting : bool then mret (OK 200 inspect_answer)
      else
        r ← matchNode_p req.(cq_MACs) req.(cq_Serial);
        match r with
        | Some (matched, Some assn) =>
            let cid := assn.(as_ClusterID) in
            active ← reads (HasActiveDeploy cid);
            if negb active then mret (OK 200 unappointed)
            else
              let host := assn.(as_Hostname) in
              detail ← detail_p cid;
              match detail with
              | Err e => mret (Fail 500 e)
              | Ok detail =>
                  let bundle := default (mkPreflightBundle "" [] []) (BuildPreflightBundles detail !! host) in
                  _ ← does (OpPreflightProgress cid host);
                  now ← reads nowUTC;
                  master ← reads (Master cid);
                  repair ← reads (OptOutRepair cid);
                  airgap ← reads (SimulateAirgap cid);
                  mret (OK 200 (mkPreflightCheckinResponse true cid host now bundle (snapshot_url wt cid host)
                          (host =? master)%string repair airgap assn.(as_OSDisk) false))
              end
        | _ => mret (OK 200 unappointed)
        end
  end.

Definition for_caller_p {A} (req : option CheckinRequest) (unknown : A) (known : Assignment → prog A) : prog (reply A) :=
  match req with
  | None => mret (Fail 400 "invalid JSON")
  | Some req =>
      r ← matchNode_p req.(cq_MACs) req.(cq_Serial);
      match r with
      | Some (_, Some assn) => a ← known assn; mret (OK 200 a)
      | _ => mret (OK 200 unknown)
      end
  end.

Definition restoreDone_p (req : option CheckinRequest) : prog (reply (bool * bool)) :=
  for_caller_p req (false, false) (fun assn =>
    _ ← does (OpRestoreDone assn.(as_ClusterID) assn.(as_Hostname));
    proceed ← reads (RebootProceed assn.(as_ClusterID)); mret (true, proceed)).

Definition applyStarted_p (req : option CheckinRequest) : prog (reply applyStartedReply) :=
  for_caller_p req (mkApplyStartedReply false false false false) (fun assn =>
    let cid := assn.(as_ClusterID) in
    let host := assn.(as_Hostname) in
    proceed ← reads (ApplyProceed cid host);
    master ← reads (Master cid);
    let isMaster := (host =? master)%string in
    _ ← does (if isMaster then OpApplyStarted cid host proceed else OpWaitForMaster cid host);
    repair ← reads (OptOutRepair cid);
    mret (mkApplyStartedReply true proceed isMaster repair)).

Definition waitMaster_p (req : option CheckinRequest) : prog (reply bool) :=
  for_caller_p req false (fun assn => _ ← does (OpWaitForMaster assn.(as_ClusterID) assn.(as_Hostname)); mret true).

(** The reports of the OS phase go to the node the caller is matched to. *)
Definition for_claimed (q : osReport) (o : string → string → Op) : prog (reply bool) :=
  r ← matchNode_p q.(or_MACs) q.(or_Serial);
  let '(cid, host) := match r with
                      | Some (_, Some a) => (a.(as_ClusterID), a.(as_Hostname))
                      | _ => (q.(or_ClusterID), q.(or_Hostname))
                      end in
  _ ← does (o cid host); mret (OK 200 true).

Definition applied_p (req : option osReport) : prog (reply bool) :=
  match req with None => mret (Fail 400 "invalid JSON") | Some q => for_claimed q OpApplied end.

Definition applyFailed_p (req : option osReport) : prog (reply bool) :=
  match req with
  | None => mret (Fail 400 "invalid JSON")
  | Some q => for_claimed q (fun cid host => OpApplyFailed cid host q.(or_Message))
  end.

Definition report_p (req : option ReportRequest) : prog (reply string) :=
  match req with
  | None => mret (Fail 400 "invalid JSON")
  | Some q =>
      if negb (named q.(rq_ClusterID) q.(rq_Hostname)) then mret (Fail 400 "clusterId and hostname required")
      else
        let pf := match q.(rq_Preflight) with [] => None | l => Some l end in
        _ ← does (OpReport q.(rq_ClusterID) q.(rq_Hostname) q.(rq_State) q.(rq_Message) pf); mret (OK 200 "ok")
  end.

Definition preflightReport_p (req : option PreflightReportRequest) : prog (reply Z) :=
  match req with
  | None => mret (Fail 400 "invalid JSON")
  | Some q =>
      if negb (named q.(pq_ClusterID) q.(pq_Hostname)) then mret (Fail 400 "clusterId and hostname required")
      else
        let pf := mkNodePreflight q.(pq_CarrierOK) q.(pq_ClockSkewSec) q.(pq_Matrix) q.(pq_Passed) "" in
        _ ← does (OpPreflightReport q.(pq_ClusterID) q.(pq_Hostname) pf);
        seq ← reads (RekickSeq q.(pq_ClusterID) q.(pq_Hostname)); mret (OK 200 seq)
  end.

Definition greenlight_p (req : option (string * string)) : prog (reply bool) :=
  match req with
  | None => mret (Fail 400 "invalid JSON")
  | Some (cid, host) =>
      if negb (named cid host) then mret (Fail 400 "clusterId and hostname required")
      else clear ← call (OpGreenLight1 cid host) (fun m => (GreenLight1 cid host m).2); mret (OK 200 clear)
  end.

Definition ready_p (req : option (string * bool * string)) : prog (reply bool) :=
  match req with
  | None => mret (Fail 400 "invalid JSON")
  | Some (cid, ok, msg) => _ ← does (OpMarkReady cid ok msg); mret (OK 200 true)
  end.

(** ** What the operator calls *)

Definition cancel_p (id : string) : prog (reply string) :=
  if negb (pathValue id) then mret (bad_path "id") else _ ← does (OpCancel id); mret (OK 200 "cancelled").

Definition release_p (id host : string) (wr : Node → list Z → option string) : prog (reply string) :=
  if negb (pathValue id) then mret (bad_path "id")
  else if negb (pathValue host) then mret (bad_path "hostname") else
  r ← call (OpRelease id host wr) (fun m => (ReleaseNode id host wr m).2);
  mret (match r with Ok _ => OK 200 host | Err e => Fail 400 e end).

Definition advanceStep_p (id : string) : prog (reply Z) :=
  if negb (pathValue id) then mret (bad_path "id") else
  r ← call (OpAdvanceStep id) (fun m => (AdvanceStep id m).2);
  mret (match r.2 with None => OK 200 r.1 | Some e => Fail 409 e end).

Definition rekickPreflight_p (id host : string) : prog (reply Z) :=
  if negb (pathValue id) then mret (bad_path "id")
  else if negb (pathValue host) then mret (bad_path "hostname") else
  r ← call (OpRekick id host) (fun m => (RekickPreflight id host m).2);
  match r with
  | Ok _ => seq ← reads (RekickSeq id host); mret (OK 200 seq)
  | Err e => mret (Fail 409 e)
  end.

Definition getSetReady_p (id : string) : prog (reply SetReadyInput) :=
  if negb (pathValue id) then mret (bad_path "id") else
  i ← call (OpGetSetReady id) (fun m => (GetSetReady id m).2); mret (OK 200 i).

(** The definition is read, changed and saved in three steps. *)
Definition submitSetReady_p (id : string) (req : option SetReadyInput) (v : saving) : prog (reply bool) :=
  if negb (pathValue id) then mret (bad_path "id") else
  match req with
  | None => mret (Fail 400 "invalid JSON")
  | Some i =>
      _ ← does (OpSubmitSetReady id i);
      detail ← detail_p id;
      match detail with
      | Err _ => mret (OK 200 true)
      | Ok d => Keep (fun s => (Cluster_Save Marshal Unmarshal zip bytes (with_set_ready i d) v s).1) (mret (OK 200 true))
      end
  end.

(** ** Alone, a handler does what its function does *)

Lemma eval_bind {A D} (p : prog A) (f : A → prog D) dr :
  eval (p ≫= f) dr = eval (f (eval p dr).2) (eval p dr).1.
Proof.
  revert dr. induction p as [a|k IH|o k IH|g k IH]; intros dr; cbn; [done|apply IH|apply IH|apply IH].
Qed.

Lemma eval_resolve l primary dr :
  eval (resolveAssignment_p l primary) dr
  = (dr, match find (fun a => HasActiveDeploy a.(as_ClusterID) dr.(dr_mgr)) l with Some a => Some a | None => primary end).
Proof. induction l as [|a l IH]; [done|]. cbn. by destruct (HasActiveDeploy _ _). Qed.

Lemma eval_matchNode macs serial dr : eval (matchNode_p macs serial) dr = (dr, matchNode macs serial dr).
Proof.
  unfold matchNode_p, matchNode. rewrite eval_bind. cbn. destruct (find _ _) as [m|]; [|done].
  rewrite eval_bind, eval_resolve. done.
Qed.

Lemma eval_conflict m id dr :
  eval (activeConflict_p m.(mc_Assignments) id) dr = (dr, activeConflict Unmarshal m id dr).
Proof.
  unfold activeConflict. induction (mc_Assignments m) as [|a l IH]; [done|]. cbn.
  destruct (as_ClusterID a =? id)%string; cbn; [done|]. by destruct (HasActiveDeploy _ _).
Qed.

Lemma eval_plan_nodes id dr byHost nodes :
  eval (plan_nodes_p id byHost nodes) dr = (dr, plan_nodes box Unmarshal id dr byHost nodes).
Proof.
  induction nodes as [|n nodes IH]; [done|]. cbn [plan_nodes_p plan_nodes]. destruct (byHost !! _) as [m|].
  - rewrite eval_bind. cbn [look eval fst snd]. unfold plan_node.
    destruct (Credentials _ _ _) as [[[addr user] pass]|e]; [|done].
    rewrite eval_bind, eval_conflict. cbn [fst snd]. by rewrite eval_bind, IH.
  - rewrite eval_bind, IH. done.
Qed.

Lemma eval_buildNodes id dr : eval (buildNodes_p id) dr = (dr, buildNodes box Unmarshal id dr).
Proof.
  unfold buildNodes_p, buildNodes, detail_p. rewrite eval_bind. cbn [look eval fst snd].
  destruct (detail_of _ _ _) as [d|e]; [|done]. cbn [result_bind]. rewrite eval_bind. cbn [look eval fst snd].
  by rewrite eval_bind, eval_plan_nodes.
Qed.

(** What the flip's answer depends on. *)
Definition same_flags (m m' : Manager) : Prop :=
  m'.(m_has_pxe) = m.(m_has_pxe) ∧ m'.(m_advertiseIP) = m.(m_advertiseIP) ∧ m'.(m_advertisePort) = m.(m_advertisePort).

Lemma flip_answer_flags id a flip m m' ctx :
  same_flags m m' →
  (flipForBoot ctx a.(sa_image) (deployArm m') flip (BootedDeploy id) m').2 = flip_answer id a flip m.
Proof.
  intros (Hp & Hi & Hport). unfold flip_answer, flipForBoot, deployArm, driverURL. rewrite Hp, Hi, Hport.
  by repeat case_match.
Qed.

Lemma authorize_flags c targets stage m m0 : same_flags m0 m → same_flags m0 (authorizeGatesLocked c targets stage m).
Proof. unfold authorizeGatesLocked. by case_match. Qed.

Lemma flush_flags c targets m m0 : same_flags m0 m → same_flags m0 (flushGatesAsync c targets m).
Proof. unfold flushGatesAsync. by repeat case_match. Qed.

Lemma start_flags c a anchor m :
  same_flags m (Start_gates c a (anchors_phase c a anchor (Start_register c a m).1)).
Proof.
  assert (same_flags m (Start_register c a m).1) as H0.
  { unfold Start_register, reset_set_ready, cancel_ctx. cbn. by repeat case_match. }
  assert (same_flags m (anchors_phase c a anchor (Start_register c a m).1)) as H1.
  { unfold anchors_phase. case_match; [|done]. revert H0. generalize (Start_register c a m).1.
    induction (sa_nodes a) as [|n l IH]; intros m1 Hm1; [done|]. cbn. apply IH.
    unfold Start_anchor. by repeat case_match. }
  revert H1. generalize (anchors_phase c a anchor (Start_register c a m).1). intros m1 H1.
  unfold Start_gates. destruct (_ || _); [exact H1|].
  apply flush_flags, authorize_flags, authorize_flags, authorize_flags. exact H1.
Qed.

Lemma eval_start_call id a anchor flip dr :
  a.(sa_nodes) ≠ [] →
  eval (start_call id a anchor flip) dr
  = (set_dr_mgr (Start id a anchor flip dr.(dr_mgr)).1 dr, (Start id a anchor flip dr.(dr_mgr)).2).
Proof.
  intros Hne. unfold start_call. rewrite eval_bind. cbn [call eval fst snd]. unfold on_mgr.
  change (run_op (OpStart id a anchor flip) (dr_mgr dr)) with (Start id a anchor flip (dr_mgr dr)).1.
  rewrite (Start_eq _ _ _ _ _ Hne). unfold flip_rest.
  pose proof (flip_answer_flags id a flip _ _ (Some (Start_register id a (dr_mgr dr)).2)
    (start_flags id a anchor (dr_mgr dr))) as Hf.
  destruct (flipForBoot _ _ _ _ _ _) as [m' [u|e]]; cbn in Hf; by rewrite <- Hf.
Qed.

Lemma eval_start id body anchor flip dr :
  eval (start_p id body anchor flip) dr = start box Unmarshal id body anchor flip dr.
Proof.
  unfold start_p, start. destruct (pathValue id); [|done]. destruct (sb_Confirm body); [|done]. cbn [negb].
  rewrite eval_bind, eval_buildNodes. cbn [fst snd]. destruct (buildNodes _ _ _ _) as [p|e]; [|done].
  destruct (dp_allAssigned p); [|done]. cbn [negb]. destruct (find _ _); [done|].
  destruct (selected body _) as [|n l] eqn:Es; [done|]. rewrite <- Es.
  rewrite eval_bind. cbn [look eval fst snd]. destruct (check_network _ _ _); [|done].
  rewrite eval_bind. cbn [look eval fst snd]. rewrite eval_bind, eval_start_call by (cbn; by rewrite Es).
  rewrite Es. by destruct (Start _ _ _ _ _).
Qed.

(** The requests of the deploy API but the inspects, by what they are answered. *)
Inductive request : Type → Type :=
| QPlan (id : string) : request (reply (bool * list planRow))
| QStart (id : string) (body : startBody) (anchor : Node → Z) (flip : string → string → result bool) : request (reply Deploy)
| QCheckin (q : option CheckinRequest) (wt : where_to) : request (reply CheckinResponse)
| QPreflightCheckin (q : option CheckinRequest) (wt : where_to) : request (reply PreflightCheckinResponse)
| QRestoreDone (q : option CheckinRequest) : request (reply (bool * bool))
| QApplyStarted (q : option CheckinRequest) : request (reply applyStartedReply)
| QWaitMaster (q : option CheckinRequest) : request (reply bool)
| QApplied (q : option osReport) : request (reply bool)
| QApplyFailed (q : option osReport) : request (reply bool)
| QReport (q : option ReportRequest) : request (reply string)
| QPreflightReport (q : option PreflightReportRequest) : request (reply Z)
| QGreenlight (q : option (string * string)) : request (reply bool)
| QReady (q : option (string * bool * string)) : request (reply bool)
| QStatus (id : string) : request (reply Deploy)
| QCancel (id : string) : request (reply string)
| QRelease (id host : string) (wr : Node → list Z → option string) : request (reply string)
| QAdvanceStep (id : string) : request (reply Z)
| QRekickPreflight (id host : string) : request (reply Z)
| QGetSetReady (id : string) : request (reply SetReadyInput)
| QSubmitSetReady (id : string) (q : option SetReadyInput) (v : saving) : request (reply bool).

Definition handler {A} (r : request A) : prog A :=
  match r with
  | QPlan id => plan_p id
  | QStart id body anchor flip => start_p id body anchor flip
  | QCheckin q wt => checkin_p q wt
  | QPreflightCheckin q wt => preflightCheckin_p q wt
  | QRestoreDone q => restoreDone_p q
  | QApplyStarted q => applyStarted_p q
  | QWaitMaster q => waitMaster_p q
  | QApplied q => applied_p q
  | QApplyFailed q => applyFailed_p q
  | QReport q => report_p q
  | QPreflightReport q => preflightReport_p q
  | QGreenlight q => greenlight_p q
  | QReady q => ready_p q
  | QStatus id => look (status id)
  | QCancel id => cancel_p id
  | QRelease id host wr => release_p id host wr
  | QAdvanceStep id => advanceStep_p id
  | QRekickPreflight id host => rekickPreflight_p id host
  | QGetSetReady id => getSetReady_p id
  | QSubmitSetReady id q v => submitSetReady_p id q v
  end.

(** The handler as DeployApi.v has it. *)
Definition whole {A} (r : request A) : driver → driver * A :=
  match r with
  | QPlan id => fun dr => (dr, plan box Unmarshal id dr)
  | QStart id body anchor flip => start box Unmarshal id body anchor flip
  | QCheckin q wt => checkin Unmarshal q wt
  | QPreflightCheckin q wt => preflightCheckin Unmarshal q wt
  | QRestoreDone q => restoreDone q
  | QApplyStarted q => applyStarted q
  | QWaitMaster q => waitMaster q
  | QApplied q => applied q
  | QApplyFailed q => applyFailed q
  | QReport q => report q
  | QPreflightReport q => preflightReport q
  | QGreenlight q => greenlight q
  | QReady q => ready q
  | QStatus id => fun dr => (dr, status id dr)
  | QCancel id => cancel id
  | QRelease id host wr => release id host wr
  | QAdvanceStep id => advanceStep id
  | QRekickPreflight id host => rekickPreflight id host
  | QGetSetReady id => getSetReady id
  | QSubmitSetReady id q v => submitSetReady Marshal Unmarshal zip bytes id q v
  end.

Lemma eval_for_caller {A} q (unknown : A) (p : Assignment → prog A) known dr :
  (∀ a, eval (p a) dr = known a dr) → eval (for_caller_p q unknown p) dr = for_caller q unknown known dr.
Proof.
  intros Hp. unfold for_caller_p, for_caller. destruct q as [q|]; [|done].
  rewrite eval_bind, eval_matchNode. cbn [fst snd]. destruct (matchNode _ _ _) as [[m [a|]]|]; [|done..].
  rewrite eval_bind, Hp. by destruct (known a dr).
Qed.

Lemma eval_for_claimed q o dr :
  eval (for_claimed q o) dr
  = (let '(cid, host) := claimed q.(or_ClusterID) q.(or_Hostname) q.(or_MACs) q.(or_Serial) dr in
     (on_mgr (run_op (o cid host)) dr, OK 200 true)).
Proof.
  unfold for_claimed, claimed. rewrite eval_bind, eval_matchNode. cbn [fst snd].
  by destruct (matchNode _ _ _) as [[m [a|]]|].
Qed.

Lemma eval_checkin q wt dr : eval (checkin_p q wt) dr = checkin Unmarshal q wt dr.
Proof.
  unfold checkin_p, checkin. destruct q as [q|]; [|done]. rewrite eval_bind, eval_matchNode. cbn [fst snd].
  destruct (matchNode _ _ _) as [[m [a|]]|]; [|done..]. rewrite eval_bind. cbn [reads look eval fst snd].
  destruct (HasActiveDeploy _ _); [|done]. cbn -[CheckIn preflightTargets]. unfold on_mgr. cbn [run_op].
  by destruct (CheckIn _ _ _).
Qed.

Lemma eval_preflightCheckin q wt dr : eval (preflightCheckin_p q wt) dr = preflightCheckin Unmarshal q wt dr.
Proof.
  unfold preflightCheckin_p, preflightCheckin. destruct q as [q|]; [|done]. rewrite eval_bind. cbn [look eval fst snd].
  rewrite eval_bind.
  assert (∀ o : option Machine, eval (match o with Some am => reads (IsInspecting am.(mc_ID)) | None => mret false end) dr
    = (dr, match o with Some am => IsInspecting am.(mc_ID) dr.(dr_mgr) | None => false end)) as -> by by intros [].
  cbn [fst snd]. destruct (match matchAnyMachine _ _ dr with Some _ => _ | None => false end); [done|].
  rewrite eval_bind, eval_matchNode. cbn [fst snd].
  destruct (matchNode _ _ _) as [[m [a|]]|]; [|done..]. rewrite eval_bind. cbn [reads look eval fst snd].
  destruct (HasActiveDeploy _ _); [|done]. cbn [negb]. rewrite eval_bind. cbn [detail_p look eval fst snd].
  by destruct (detail_of _ _ _).
Qed.

(** ** One section at a time *)

(** A request under way: its program, behind the rest of a call it has begun. *)
Inductive req (A : Type) : Type :=
| Asked (p : prog A)
| Waits (t : task) (p : prog A).

End Handlers.
Arguments Asked {A}.
Arguments Waits {A}.

Definition section_of {A} (t : task) (p : prog A) (dr : driver) : driver * req A :=
  let '(m, t') := task_step t dr.(dr_mgr) in
  (set_dr_mgr m dr, match t' with Some t => Waits t p | None => Asked p end).

Definition req_step {A} (x : req A) (dr : driver) : option (driver * req A) :=
  match x with
  | Asked (Done _) => None
  | Asked (Look k) => Some (dr, Asked (k dr))
  | Asked (Call o k) => Some (section_of (TCall o) (k dr.(dr_mgr)) dr)
  | Asked (Keep f k) => Some (set_dr_clusters (f dr.(dr_clusters)) dr, Asked k)
  | Waits t p => Some (section_of t p dr)
  end.

(** A request that nobody interrupts. *)
Inductive solo {A} : req A → driver → driver * A → Prop :=
| solo_done a dr : solo (Asked (Done a)) dr (dr, a)
| solo_step x dr dr' x' res : req_step x dr = Some (dr', x') → solo x' dr' res → solo x dr res.

Lemma set_mgr_same dr : set_dr_mgr dr.(dr_mgr) dr = dr.
Proof. by destruct dr. Qed.

Lemma solo_section {A} t m m' dr (p : prog A) res :
  alone t m m' → dr.(dr_mgr) = m → solo (Asked p) (set_dr_mgr m' dr) res →
  ∃ dr' x', section_of t p dr = (dr', x') ∧ solo x' dr' res.
Proof.
  intros Ha. revert dr. induction Ha as [t m m' Ht|t m m1 t' m' Ht _ IH]; intros dr <- Hp; unfold section_of; rewrite Ht.
  - eauto.
  - do 2 eexists. split; [done|]. destruct (IH (set_dr_mgr m1 dr)) as (dr' & x' & Hs & Hx); [done|done|].
    eapply solo_step; [|exact Hx]. cbn. by rewrite Hs.
Qed.

Lemma solo_eval {A} (p : prog A) dr : solo (Asked p) dr (eval p dr).
Proof.
  revert dr. induction p as [a|k IH|o k IH|g k IH]; intros dr; cbn [eval].
  - apply solo_done.
  - eapply solo_step; [done|]. apply IH.
  - destruct (solo_section (TCall o) dr.(dr_mgr) (run_op o dr.(dr_mgr)) dr (k dr.(dr_mgr)) (eval (k dr.(dr_mgr)) (on_mgr (run_op o) dr)))
      as (dr' & x' & Hs & Hx); [apply alone_run|done|apply IH|].
    eapply solo_step; [|exact Hx]. cbn. by rewrite Hs.
  - eapply solo_step; [done|]. apply IH.
Qed.

Section Requests.
Context `{AEAD} (box : string).
Context (Marshal : ClusterDetail → string) (Unmarshal : string → option ClusterDetail).
Context (zip : archive → string) (bytes : string → string).

Lemma eval_handler {A} (r : request A) dr :
  eval (handler box Marshal Unmarshal zip bytes r) dr = whole box Marshal Unmarshal zip bytes r dr.
Proof.
  destruct r; cbn [handler whole].
  - unfold plan_p, plan. destruct (pathValue id); [|done]. cbn [negb]. by rewrite eval_bind, eval_buildNodes.
  - apply eval_start.
  - apply eval_checkin.
  - apply eval_preflightCheckin.
  - by apply eval_for_caller.
  - apply eval_for_caller. intros a. cbn -[ApplyStarted WaitForMaster]. by destruct (as_Hostname a =? _)%string.
  - by apply eval_for_caller.
  - destruct q; [apply eval_for_claimed|done].
  - destruct q; [apply eval_for_claimed|done].
  - destruct q as [q|]; [|done]. cbn. by destruct (named _ _).
  - destruct q as [q|]; [|done]. cbn -[PreflightReport]. by destruct (named _ _).
  - destruct q as [[cid host]|]; [|done]. cbn -[GreenLight1]. destruct (named _ _); [|done]. cbn -[GreenLight1].
    unfold on_mgr. cbn [run_op]. by destruct (GreenLight1 _ _ _).
  - by destruct q as [[[cid ok] msg]|].
  - done.
  - unfold cancel_p, cancel. by destruct (pathValue id).
  - unfold release_p, release. destruct (pathValue id); [|done]. destruct (pathValue host); [|done]. cbn -[ReleaseNode].
    unfold on_mgr. cbn [run_op]. by destruct (ReleaseNode _ _ _ _).
  - unfold advanceStep_p, advanceStep. destruct (pathValue id); [|done]. cbn -[AdvanceStep].
    unfold on_mgr. cbn [run_op]. by destruct (AdvanceStep _ _) as [m [st e]].
  - unfold rekickPreflight_p, rekickPreflight. destruct (pathValue id); [|done]. destruct (pathValue host); [|done].
    cbn -[RekickPreflight]. unfold on_mgr. cbn [run_op]. by destruct (RekickPreflight _ _ _) as [m [[]|e]].
  - unfold getSetReady_p, getSetReady. destruct (pathValue id); [|done]. cbn -[GetSetReady].
    unfold on_mgr. cbn [run_op]. by destruct (GetSetReady _ _).
  - unfold submitSetReady_p, submitSetReady. destruct (pathValue id); [|done]. destruct q as [i|]; [|done].
    cbn -[SubmitSetReady]. by destruct (detail_of _ _ _).
Qed.

(** The sections lose nothing: any request of the deploy API, served without
    another one in between, answers and leaves the driver as its handler's
    function says. *)
Theorem request_alone {A} (r : request A) dr :
  solo (Asked (handler box Marshal Unmarshal zip bytes r)) dr (whole box Marshal Unmarshal zip bytes r dr).
Proof. rewrite <- eval_handler. apply solo_eval. Qed.
End Requests.

(** ** What an answer rests on, whatever happens meanwhile *)

(** A request whose sections met the drivers [ds], one each, in this order. *)
Definition met {A} (ds : list driver) (x : req A) : req A :=
  foldl (fun x dr => match req_step x dr with Some (_, x') => x' | None => x end) x ds.

(** [answers p ds a]: [p] met [ds] and answered [a]. *)
Definition answers {A} (p : prog A) (ds : list driver) (a : A) : Prop := met ds (Asked p) = Asked (Done a).

Definition req_bind {A D} (x : req A) (f : A → prog D) : req D :=
  match x with Asked p => Asked (p ≫= f) | Waits t p => Waits t (p ≫= f) end.

Lemma section_bind {A D} t (p : prog A) (f : A → prog D) dr :
  section_of t (p ≫= f) dr = ((section_of t p dr).1, req_bind (section_of t p dr).2 f).
Proof. unfold section_of. destruct (task_step t (dr_mgr dr)) as [m [t'|]]; done. Qed.

Lemma met_req_bind {A D} ds (x : req A) (f : A → prog D) b :
  met ds (req_bind x f) = Asked (Done b) →
  ∃ a ds1 ds2, ds = ds1 ++ ds2 ∧ met ds1 x = Asked (Done a) ∧ answers (f a) ds2 b.
Proof.
  revert x. induction ds as [|d ds IH]; intros x Hm.
  { destruct x as [[a|k|o k|g k]|t p]; try done. exists a, [], []. done. }
  assert ((∃ a, x = Asked (Done a)) ∨ ∃ x', met (d :: ds) (req_bind x f) = met ds (req_bind x' f)
    ∧ ∀ ds, met (d :: ds) x = met ds x') as [[a ->]|(x' & He & Hx)].
  { destruct x as [[a|k|o k|g k]|t p]; [by left; exists a|right..].
    - by exists (Asked (k d)).
    - exists (section_of (TCall o) (k (dr_mgr d)) d).2. split; [|intros ds'; unfold met; cbn [foldl req_step]; by destruct (section_of _ _ _)].
      unfold met. cbn [foldl req_bind mbind prog_bind req_step]. by rewrite (section_bind (TCall o) (k (dr_mgr d)) f).
    - by exists (Asked k).
    - exists (section_of t p d).2. split; [|intros ds'; unfold met; cbn [foldl req_step]; by destruct (section_of _ _ _)].
      unfold met. cbn [foldl req_bind req_step]. by rewrite section_bind. }
  - by exists a, [], (d :: ds).
  - rewrite He in Hm. destruct (IH x' Hm) as (a & ds1 & ds2 & -> & Ha & Hb). exists a, (d :: ds1), ds2.
    by rewrite Hx.
Qed.

Lemma answers_bind {A D} (p : prog A) (f : A → prog D) ds b :
  answers (p ≫= f) ds b → ∃ a ds1 ds2, ds = ds1 ++ ds2 ∧ answers p ds1 a ∧ answers (f a) ds2 b.
Proof. apply (met_req_bind ds (Asked p)). Qed.

Lemma answers_done {A} (a b : A) ds : answers (mret a) ds b → b = a.
Proof. unfold answers, met. induction ds as [|d ds IH]; cbn in *; [by intros [= ->]|exact IH]. Qed.

Lemma answers_look {A} (f : driver → A) ds a : answers (look f) ds a → ∃ d, d ∈ ds ∧ a = f d.
Proof.
  destruct ds as [|d ds]; [done|]. intros Ha. exists d. split; [by left|]. by apply (answers_done (f d) a ds).
Qed.

Lemma answers_reads {A} (f : Manager → A) ds a : answers (reads f) ds a → ∃ d, d ∈ ds ∧ a = f d.(dr_mgr).
Proof. apply (answers_look (fun dr => f dr.(dr_mgr))). Qed.

Lemma answers_resolve l primary ds a :
  answers (resolveAssignment_p l primary) ds (Some a) → a ∈ l ∨ primary = Some a.
Proof.
  revert ds. induction l as [|b l IH]; intros ds; cbn [resolveAssignment_p].
  { intros Ha%answers_done. by right. }
  intros (active & ds1 & ds2 & -> & _ & Ha)%answers_bind. destruct active.
  - apply answers_done in Ha as [= ->]. left. by left.
  - destruct (IH _ Ha) as [?|?]; [left; by right|by right].
Qed.

Section Sight.
Context (Unmarshal : string → option ClusterDetail).

(** Who a request is matched to holds its node when the machines were read. *)
Lemma answers_matchNode macs serial ds m a :
  answers (matchNode_p macs serial) ds (Some (m, Some a)) →
  ∃ d, d ∈ ds ∧ is_caller macs serial m = true ∧ holder d.(dr_machines) a.(as_ClusterID) a.(as_Hostname) m a.
Proof.
  intros (ms & ds1 & ds2 & -> & (d & Hd & ->)%answers_look & Ha)%answers_bind.
  destruct (find _ _) as [m'|] eqn:Ef; [|by apply answers_done in Ha].
  apply answers_bind in Ha as (o & ds3 & ds4 & -> & Ho & [= <- <-]%answers_done). apply find_elem in Ef as [Hin Hc].
  exists d. split; [set_solver|]. split; [by destruct (mc_Assignment m)|]. split_and!; [done| |done..].
  apply answers_resolve in Ho as [Ho|Ho]; [done|]. destruct (proj1 (Machine_List_elem _ _) Hin) as (id & r & _ & ->).
  cbn in *. destruct (assignments r); [done|]. injection Ho as ->. by left.
Qed.

(** The look at the inspects: of a caller the driver knows, none is under way. *)
Definition not_inspected (q : CheckinRequest) (ds : list driver) : Prop :=
  ∃ d, d ∈ ds ∧ match matchAnyMachine q.(cq_MACs) q.(cq_Serial) d with
                | Some am => ∃ d', d' ∈ ds ∧ IsInspecting am.(mc_ID) d'.(dr_mgr) = false
                | None => True
                end.

(** C10. However other requests, goroutines and edits of the stores interleave with it,
    a check-in that is answered with an appointment rests on what it saw on its
    way: that the machine it answers to was not under inspection, a machine that
    answers to the caller and held the node, alone, with the system disk it is
    told, and later, an active deploy of the node's cluster, and later, that
    deploy's master. *)
Theorem appointed_on_sight q wt ds code ans :
  Forall (fun d => well_assigned d.(dr_machines)) ds →
  answers (preflightCheckin_p Unmarshal (Some q) wt) ds (OK code ans) → ans.(pc_Appointed) = true →
  ∃ l0 l1 l2 l3 d1 d2 d3 m a, ds = l0 ++ l1 ++ l2 ++ l3 ∧ d1 ∈ l1 ∧ d2 ∈ l2 ∧ d3 ∈ l3
    ∧ not_inspected q l0
    ∧ is_caller q.(cq_MACs) q.(cq_Serial) m = true
    ∧ holder d1.(dr_machines) ans.(pc_ClusterID) ans.(pc_Hostname) m a
    ∧ (∀ m' a', holder d1.(dr_machines) ans.(pc_ClusterID) ans.(pc_Hostname) m' a' → m' = m ∧ a' = a)
    ∧ ans.(pc_OSDisk) = a.(as_OSDisk)
    ∧ HasActiveDeploy ans.(pc_ClusterID) d2.(dr_mgr) = true
    ∧ ans.(pc_IsMaster) = bool_decide (ans.(pc_Hostname) = Master ans.(pc_ClusterID) d3.(dr_mgr)).
Proof.
  intros Hw. unfold preflightCheckin_p.
  intros (am & l1 & ds1 & -> & (d0 & Hd0 & Ham)%answers_look & Ha)%answers_bind.
  apply answers_bind in Ha as (insp & l2 & ds2 & -> & Hi & Ha).
  intros Happ. destruct insp; [apply answers_done in Ha as [= -> ->]; done|].
  assert (not_inspected q (l1 ++ l2)) as Hno.
  { exists d0. split; [set_solver|]. rewrite <- Ham. destruct am as [am|]; [|done].
    apply answers_reads in Hi as (d' & Hd' & Hi). exists d'. split; [set_solver|done]. }
  apply answers_bind in Ha as ([[m [a|]]|] & l3 & ds3 & -> & Hm & Ha); try (by apply answers_done in Ha as [= -> ->]).
  apply answers_matchNode in Hm as (d1 & Hd1 & Hcall & Hh).
  apply answers_bind in Ha as (active & l4 & ds4 & -> & (d2 & Hd2 & ->)%answers_reads & Ha).
  destruct (HasActiveDeploy _ _) eqn:Hact; [|by apply answers_done in Ha as [= -> ->]]. cbn [negb] in Ha.
  apply answers_bind in Ha as (det & l5 & ds5 & -> & _ & Ha). destruct det as [det|]; [|by apply answers_done in Ha].
  apply answers_bind in Ha as (u & l6 & ds6 & -> & _ & Ha). apply answers_bind in Ha as (now & l7 & ds7 & -> & _ & Ha).
  apply answers_bind in Ha as (ma & l8 & ds8 & -> & (d3 & Hd3 & ->)%answers_reads & Ha).
  apply answers_bind in Ha as (rep & l9 & ds9 & -> & _ & Ha). apply answers_bind in Ha as (air & l10 & ds10 & -> & _ & Ha).
  apply answers_done in Ha as [= -> ->]. cbn in *.
  exists (l1 ++ l2), l3, l4, (l5 ++ l6 ++ l7 ++ l8 ++ l9 ++ l10 ++ ds10), d1, d2, d3, m, a.
  rewrite <- !app_assoc. split_and!; try done; [set_solver..| |apply eqb_bool_decide].
  intros m' a' Hm'. rewrite Forall_forall in Hw. eapply holder_unique; [apply (Hw d1); set_solver|done|done].
Qed.
End Sight.

(** ** All requests and goroutines *)

Section Site.
Context `{AEAD} (box : string).
Context (Marshal : ClusterDetail → string) (Unmarshal : string → option ClusterDetail).
Context (zip : archive → string) (bytes : string → string).

(** Every call of [p] is one of [P]. *)
Fixpoint calls_only {A} (P : Op → Prop) (p : prog A) : Prop :=
  match p with
  | Done _ => True
  | Look k => ∀ dr, calls_only P (k dr)
  | Call o k => P o ∧ ∀ m, calls_only P (k m)
  | Keep _ k => calls_only P k
  end.

Lemma calls_only_bind {A D} P (p : prog A) (f : A → prog D) :
  calls_only P p → (∀ a, calls_only P (f a)) → calls_only P (p ≫= f).
Proof.
  intros Hp Hf. induction p as [a|k IH|o k IH|g k IH]; cbn in *;
    [apply Hf|intros dr; by apply IH|destruct Hp; split; [done|intros m; by apply IH]|by apply IH].
Qed.

Lemma calls_only_matchNode P macs serial : calls_only P (matchNode_p macs serial).
Proof.
  intros dr. cbn. destruct (find _ _) as [m|]; [|done]. apply calls_only_bind; [|done].
  induction (mc_Assignments m) as [|a l IH]; [done|]. intros dr'. cbn. by destruct (HasActiveDeploy _ _).
Qed.

Lemma calls_only_conflict P l id : calls_only P (activeConflict_p Unmarshal l id).
Proof.
  induction l as [|a l IH]; [done|]. cbn. destruct (_ =? _)%string; [done|]. intros dr. cbn. by destruct (HasActiveDeploy _ _).
Qed.

Lemma calls_only_plan_nodes P id byHost nodes : calls_only P (plan_nodes_p box Unmarshal id byHost nodes).
Proof.
  induction nodes as [|n l IH]; [done|]. cbn. destruct (byHost !! nc_Hostname n) as [m|]; [|by apply calls_only_bind].
  intros dr. cbn. destruct (Credentials _ _ _) as [[[addr user] pass]|]; [|done].
  apply calls_only_bind; [apply calls_only_conflict|]. intros c. by apply calls_only_bind.
Qed.

Lemma calls_only_buildNodes P id : calls_only P (buildNodes_p box Unmarshal id).
Proof.
  intros dr. cbn. destruct (detail_of _ _ _) as [d|]; [|done]. intros dr'.
  apply calls_only_bind; [apply calls_only_plan_nodes|done].
Qed.

Definition releasing {A} (r : request A) : bool := match r with QRelease _ _ _ => true | _ => false end.

Lemma for_caller_calls {A} P q (u : A) p : (∀ a, calls_only P (p a)) → calls_only P (for_caller_p q u p).
Proof.
  intros Hp. destruct q as [q|]; [|done]. apply calls_only_bind; [apply calls_only_matchNode|].
  intros [[m [a|]]|]; [|done..]. by apply calls_only_bind.
Qed.

Lemma for_claimed_calls P q o : (∀ c h, P (o c h)) → calls_only P (for_claimed q o).
Proof.
  intros Ho. apply calls_only_bind; [apply calls_only_matchNode|]. intros [[m [a|]]|]; cbn; auto.
Qed.

Lemma start_calls P id body anchor flip :
  (∀ a, P (OpStart id a anchor flip)) → calls_only P (start_p box Unmarshal id body anchor flip).
Proof.
  intros Ho. unfold start_p. destruct (pathValue id); [|done]. destruct (sb_Confirm body); [|done]. cbn [negb].
  apply calls_only_bind; [apply calls_only_buildNodes|]. intros [p|e]; [|done]. destruct (dp_allAssigned p); [|done].
  cbn [negb]. destruct (find _ _); [done|]. destruct (selected _ _) as [|n l]; [done|].
  intros dr. cbn. destruct (check_network _ _ _); [|done]. intros dr'. cbn. split; [done|].
  intros m. by destruct (flip_answer _ _ _ _).
Qed.

Lemma checkin_calls P q wt : (∀ c h, P (OpCheckIn c h)) → calls_only P (checkin_p Unmarshal q wt).
Proof.
  intros Ho. destruct q as [q|]; [|done]. apply calls_only_bind; [apply calls_only_matchNode|].
  intros [[m [a|]]|]; [|done..]. intros dr. cbn. by destruct (HasActiveDeploy _ _).
Qed.

Lemma preflightCheckin_calls P q wt : (∀ c h, P (OpPreflightProgress c h)) → calls_only P (preflightCheckin_p Unmarshal q wt).
Proof.
  intros Ho. destruct q as [q|]; [|done]. apply calls_only_bind; [done|]. intros am.
  apply calls_only_bind; [by destruct am|].
  intros []; [done|]. apply calls_only_bind; [apply calls_only_matchNode|].
  intros [[m [a|]]|]; [|done..]. intros dr'. cbn. destruct (HasActiveDeploy _ _); [|done].
  intros dr''. cbn. by destruct (detail_of _ _ _).
Qed.

(** Only [release] lets a node apply ahead of the master. *)
Lemma handler_calls {A} (r : request A) :
  releasing r = false → calls_only no_release (handler box Marshal Unmarshal zip bytes r).
Proof.
  destruct r; intros Hr; try done; cbn [handler];
    try (by apply for_caller_calls); try (destruct q as [q|]; [by apply for_claimed_calls|done]).
  - unfold plan_p. destruct (pathValue id); [|done]. apply calls_only_bind; [apply calls_only_buildNodes|done].
  - by apply start_calls.
  - by apply checkin_calls.
  - by apply preflightCheckin_calls.
  - apply for_caller_calls. intros a dr. cbn. intros dr'. by case_match.
  - destruct q as [q|]; [|done]. cbn. by destruct (named _ _).
  - destruct q as [q|]; [|done]. cbn. by destruct (named _ _).
  - destruct q as [[c h]|]; [|done]. cbn. by destruct (named _ _).
  - by destruct q as [[[c ok] msg]|].
  - unfold cancel_p. by destruct (pathValue id).
  - unfold advanceStep_p. by destruct (pathValue id).
  - unfold rekickPreflight_p. destruct (pathValue id); [|done]. destruct (pathValue host); [|done]. cbn.
    split; [done|]. intros m. by destruct (RekickPreflight _ _ _).2.
  - unfold getSetReady_p. by destruct (pathValue id).
  - unfold submitSetReady_p. destruct (pathValue id); [|done]. destruct q as [i|]; [|done]. cbn.
    split; [done|]. intros _ dr. by destruct (detail_of _ _ _).
Qed.
(** The driver with its requests and goroutines under way. *)
Inductive active : Type :=
| Active {A : Type} (x : req A).

Record site : Type := mkSite {
  si_dr : driver;
  si_reqs : list active;
  si_tasks : list task
}.

Definition waiting (x : active) : option task := match x with Active (Waits t _) => Some t | _ => None end.

(** The section of the manager a request would run next. *)
Definition next_task (x : active) : option task :=
  match x with
  | Active (Waits t _) => Some t
  | Active (Asked (Call o _)) => Some (TCall o)
  | _ => None
  end.

Definition tasks_of (s : site) : list task := s.(si_tasks) ++ omap waiting s.(si_reqs).

Definition serve (x : active) (dr : driver) : option (driver * active) :=
  match x with Active x => (fun r => (r.1, Active r.2)) <$> req_step x dr end.

Inductive smove : Type :=
| SAsk {A} (r : request A)                     (** a request comes in *)
| SServe (i : nat)                             (** a step of the request at [i] *)
| SCall (o : Op)                               (** a goroutine calls the manager *)
| SRun (i : nat)                               (** a section of the call at [i] *)
| SStores (ms : machines) (cs : filestore).    (** the other handlers on the stores *)

Definition smove1 (mv : smove) (s : site) : option site :=
  let '(mkSite dr rs ts) := s in
  match mv with
  | SAsk r => Some (mkSite dr (rs ++ [Active (Asked (handler box Marshal Unmarshal zip bytes r))]) ts)
  | SServe i =>
      x ← rs !! i; '(dr', x') ← serve x dr;
      Some (mkSite dr' (take i rs ++ x' :: drop (S i) rs) ts)
  | SCall o => Some (mkSite dr rs (ts ++ [TCall o]))
  | SRun i =>
      t ← ts !! i;
      let '(m', t') := task_step t dr.(dr_mgr) in
      Some (mkSite (set_dr_mgr m' dr) rs (take i ts ++ option_list t' ++ drop (S i) ts))
  | SStores ms cs => Some (mkSite (mkDriver ms cs dr.(dr_mgr)) rs ts)
  end.

(** No forced release, and [Start]s that register are [apart]. *)
Definition smove_proper (mv : smove) (s : site) : bool :=
  let '(mkSite dr rs ts) := s in
  match mv with
  | SAsk r => negb (releasing r)
  | SServe i =>
      match x ← rs !! i; next_task x with
      | Some t => apart t (ts ++ omap waiting (take i rs ++ drop (S i) rs))
      | None => true
      end
  | SCall o => negb (is_release o)
  | SRun i =>
      match ts !! i with
      | Some t => apart t ((take i ts ++ drop (S i) ts) ++ omap waiting rs)
      | None => false
      end
  | SStores _ _ => true
  end.

Fixpoint site_after (l : list smove) (s : site) : option site :=
  match l with [] => Some s | mv :: l => s ← smove1 mv s; site_after l s end.

Fixpoint managers (l : list smove) (s : site) : list Manager :=
  match l with
  | [] => []
  | mv :: l => match smove1 mv s with Some s => s.(si_dr).(dr_mgr) :: managers l s | None => [] end
  end.

Fixpoint site_proper (l : list smove) (s : site) : bool :=
  match l with
  | [] => true
  | mv :: l => smove_proper mv s && match smove1 mv s with Some s => site_proper l s | None => false end
  end.

(** ** The order of a deploy, under any requests *)

Definition serves (x : active) : Prop :=
  match x with Active (Asked p) | Active (Waits _ p) => calls_only no_release p end.

Definition site_ok (past : list Manager) (s : site) : Prop :=
  conc_ok past (s.(si_dr).(dr_mgr), tasks_of s) ∧ Forall serves s.(si_reqs).

(** The section [t] of a request, begun or not. *)
Lemma serve_section {A} past t (p : prog A) dr l1 l2 dr' x' :
  conc_ok past (dr.(dr_mgr), l1 ++ t :: l2) → apart t (l1 ++ l2) = true → section_of t p dr = (dr', x') →
  calls_only no_release p →
  conc_ok (past ++ [dr'.(dr_mgr)]) (dr'.(dr_mgr), l1 ++ option_list (waiting (Active x')) ++ l2) ∧ serves (Active x').
Proof.
  intros Hc Hap Hs Hp. unfold section_of in Hs. destruct (task_step t (dr_mgr dr)) as [m t'] eqn:Ht. injection Hs as <- <-. cbn.
  split; [|by destruct t'].
  pose proof (conc_ok_step past (dr_mgr dr, l1 ++ t :: l2) (m, l1 ++ option_list t' ++ l2) Hc
    (cs_run _ _ _ _ _ _ _ _ Hap Ht)) as Hc'. by destruct t'.
Qed.

Lemma omap_app_cons {A D} (f : A → option D) l1 x l2 : omap f (l1 ++ x :: l2) = omap f l1 ++ option_list (f x) ++ omap f l2.
Proof. rewrite omap_app. cbn. by destruct (f x). Qed.

Lemma serve_ok past dr rs ts i s' :
  site_ok past (mkSite dr rs ts) → smove_proper (SServe i) (mkSite dr rs ts) = true →
  smove1 (SServe i) (mkSite dr rs ts) = Some s' → site_ok (past ++ [s'.(si_dr).(dr_mgr)]) s'.
Proof.
  intros [Hc Hs] Hp Hm. cbn in Hp, Hm, Hc, Hs. destruct (rs !! i) as [x|] eqn:Hi; [|done]. cbn in Hp, Hm.
  pose proof (take_drop_middle rs i x Hi) as Hrs. rewrite <- Hrs in Hc, Hs.
  set (l1 := take i rs) in *. set (l2 := drop (S i) rs) in *. clearbody l1 l2. clear Hrs Hi.
  destruct (serve x dr) as [[dr' x']|] eqn:Hx; [|done]. injection Hm as <-. unfold tasks_of in *. cbn in *.
  rewrite omap_app_cons in Hc. rewrite omap_app in Hp. apply Forall_app in Hs as [Hs1 [Hsx Hs2]%Forall_cons].
  assert (conc_ok (past ++ [dr_mgr dr'])
    (dr_mgr dr', (ts ++ omap waiting l1) ++ option_list (waiting x') ++ omap waiting l2) ∧ serves x') as [Hc' Hsx'].
  { rewrite (assoc_L (++)) in Hc, Hp. destruct x as [A [[a|k|o k|g k]|t p]]; cbn in *; try done.
    - injection Hx as <- <-. split; [by apply conc_stay|apply Hsx].
    - destruct (section_of (TCall o) (k (dr_mgr dr)) dr) as [d y] eqn:Hsec. injection Hx as <- <-.
      eapply serve_section; [apply conc_arrive; [apply Hsx|exact Hc]|exact Hp|exact Hsec|apply Hsx].
    - injection Hx as <- <-. split; [by apply conc_stay|done].
    - destruct (section_of t p dr) as [d y] eqn:Hsec. injection Hx as <- <-.
      by eapply serve_section. }
  split; cbn.
  - unfold tasks_of. cbn. by rewrite omap_app_cons, (assoc_L (++)).
  - apply Forall_app. by repeat constructor.
Qed.

Lemma smove1_ok past mv s s' :
  site_ok past s → smove_proper mv s = true → smove1 mv s = Some s' → site_ok (past ++ [s'.(si_dr).(dr_mgr)]) s'.
Proof.
  intros Hok Hp Hm. destruct s as [dr rs ts], mv as [A r|i|o|i|ms cs]; [|by eapply serve_ok|..];
    destruct Hok as [Hc Hs]; unfold tasks_of in Hc; cbn in Hp, Hm, Hc, Hs.
  - injection Hm as <-. split; unfold tasks_of; cbn.
    + rewrite omap_app, app_nil_r. by apply conc_stay.
    + apply Forall_app. repeat constructor; [done|]. cbn. apply handler_calls. by apply negb_true_iff in Hp.
  - injection Hm as <-. split; [|done]. unfold tasks_of. cbn. rewrite <- (assoc_L (++)).
    apply conc_stay, conc_arrive; [by apply negb_true_iff in Hp|done].
  - destruct (ts !! i) as [t|] eqn:Hi; [|done]. cbn in Hm. destruct (task_step t (dr_mgr dr)) as [m' t'] eqn:Ht.
    injection Hm as <-. split; [|done]. unfold tasks_of. cbn. rewrite <- !(assoc_L (++)).
    rewrite <- (take_drop_middle ts i t) in Hc by done. rewrite <- (assoc_L (++)) in Hp, Hc. cbn in Hc.
    exact (conc_ok_step past _ (m', _) Hc (cs_run _ _ _ _ _ _ _ _ Hp Ht)).
  - injection Hm as <-. split; [|done]. by apply conc_stay.
Qed.

Lemma site_invariant l past s s' :
  site_ok past s → site_proper l s = true → site_after l s = Some s' → site_ok (past ++ managers l s) s'.
Proof.
  revert past s. induction l as [|mv l IH]; intros past s Hok Hp Hl; cbn in Hp, Hl |- *.
  { injection Hl as <-. by rewrite app_nil_r. }
  apply andb_true_iff in Hp as [Hmv Hp]. destruct (smove1 mv s) as [s1|] eqn:Hm; [|done]. cbn in Hl.
  replace (past ++ dr_mgr (si_dr s1) :: managers l s1) with ((past ++ [dr_mgr (si_dr s1)]) ++ managers l s1)
    by by rewrite <- app_assoc.
  apply IH; [by eapply smove1_ok|done|done].
Qed.

(** C2. The order of a deploy holds for the whole deploy API: whatever requests
    the agents and the operator send, other than a forced release, however the
    sections of their handlers interleave with each other, with the calls of the driver's
    goroutines and with edits of the machine and cluster stores, a stage in a
    node's ledger was granted up front by [Start] in automatic mode, or its
    barrier held in an earlier state of that very run; provided a [Start]
    registers while no other one of its cluster, and no handoff to its peers, is
    midway. *)
Theorem requests_keep_order l dr0 s c d h nd stage :
  idle dr0.(dr_mgr) → site_proper l (mkSite dr0 [] []) = true → site_after l (mkSite dr0 [] []) = Some s →
  s.(si_dr).(dr_mgr).(m_deploys) !! c = Some d → d.(d_Nodes) !! h = Some nd → stage ∈ nd.(nd_Gates) →
  up_front d h stage
  ∨ ∃ m1 d1, m1 ∈ dr0.(dr_mgr) :: managers l (mkSite dr0 [] []) ∧ m1.(m_deploys) !! c = Some d1 ∧ same_run d d1
      ∧ barrier (fun d => fabricReadyLocked d m1) d1 h stage.
Proof.
  intros Hi Hp Hl Hd Hn Hg.
  destruct (site_invariant l [dr_mgr dr0] (mkSite dr0 [] []) s) as [Hc _]; [|done|done|by apply (co_earned _ _ Hc c d h nd)].
  split; [|done]. by apply (crun_ok (dr_mgr dr0)), crun_nil.
Qed.
End Site.

(** ** Schedules *)

#[local] Existing Instance plain_aead.

Definition demo_zip (a : archive) : string := Join a.*2 "|".
Definition demo_bytes (p : string) : string := p.

(** Steps of the site of DeployApiProps.v, with a chosen store of machines. *)
Definition site_of (ms : machines) : site := mkSite (mkDriver ms demo_driver.(dr_clusters) demo_manager) [] [].
Definition site_run (l : list smove) (s : site) : option site :=
  site_after "k" demo_marshal demo_unmarshal demo_zip demo_bytes l s.

Definition ask_start (id : string) (manual : bool) : smove :=
  SAsk (QStart id (mkStartBody true [] manual "" false false) (fun _ => 7) demo_flip).
Definition serves_of (i n : nat) : list smove := replicate n (SServe i).

(** The start of the cluster; then the master's report that it has applied and
    the peer's preflight report, in turns. *)
Definition busy_site : list smove :=
  ask_start "c" false :: serves_of 0 14
  ++ [SAsk (QApplied (Some (mkOsReport "" "" "" ["aa:00"] "")));
      SAsk (QPreflightReport (Some (mkPreflightReportRequest "c" "cc2" true 0%Q [] true)))]
  ++ serves_of 1 3 ++ serves_of 2 1 ++ serves_of 1 1 ++ serves_of 2 1 ++ serves_of 1 1.

Lemma requests_keep_order_witness :
  ∃ s d nd, site_run busy_site (site_of demo_machines) = Some s
    ∧ s.(si_dr).(dr_mgr).(m_deploys) !! "c" = Some d ∧ d.(d_Nodes) !! "cc2" = Some nd ∧ gateStageApply ∈ nd.(nd_Gates)
    ∧ (up_front d "cc2" gateStageApply
       ∨ ∃ m1 d1, m1 ∈ demo_manager :: managers "k" demo_marshal demo_unmarshal demo_zip demo_bytes busy_site (site_of demo_machines)
           ∧ m1.(m_deploys) !! "c" = Some d1 ∧ same_run d d1
           ∧ barrier (fun d => fabricReadyLocked d m1) d1 "cc2" gateStageApply).
Proof.
  destruct (site_run busy_site (site_of demo_machines)) as [s|] eqn:Es; [|vm_compute in Es; discriminate Es].
  destruct (holds_at_true "c" "cc2" (fun _ nd => contains nd.(nd_Gates) gateStageApply) s.(si_dr).(dr_mgr)) as (d & nd & Hd & Hn & Hg).
  { assert (from_option (fun s => holds_at "c" "cc2" (fun _ nd => contains nd.(nd_Gates) gateStageApply) s.(si_dr).(dr_mgr))
      false (site_run busy_site (site_of demo_machines)) = true) as Hc by (vm_compute; reflexivity).
    rewrite Es in Hc. exact Hc. }
  apply contains_true in Hg. exists s, d, nd. split; [reflexivity|]. split; [exact Hd|]. split; [exact Hn|]. split; [exact Hg|].
  apply (requests_keep_order "k" demo_marshal demo_unmarshal demo_zip demo_bytes busy_site (site_of demo_machines).(si_dr) s "c" d "cc2" nd);
    [exact demo_idle|vm_compute; reflexivity|exact Es|exact Hd|exact Hn|exact Hg].
Defined.

(** A check-in that meets the reports of others on its way. *)
Definition sighted : list driver :=
  replicate 5 (demo_started []).1
  ++ replicate 9 (on_mgr (PreflightReport "c" "cc1" demo_pf) (demo_started []).1).

Lemma appointed_on_sight_witness :
  ∃ d1 m a, d1 ∈ sighted ∧ holder d1.(dr_machines) "c" "cc2" m a ∧ a.(as_OSDisk) = "/dev/sda".
Proof.
  destruct (met sighted (Asked (preflightCheckin_p demo_unmarshal (from_mac "bb:00" "") demo_to))) as [[[code ans|code e]|k|o k|g k]|t p] eqn:E;
    try (vm_compute in E; discriminate E).
  assert (ans.(pc_Appointed) = true ∧ ans.(pc_ClusterID) = "c" ∧ ans.(pc_Hostname) = "cc2" ∧ ans.(pc_OSDisk) = "/dev/sda") as (Ha & Hc & Hh & Ho).
  { vm_compute in E. injection E as _ <-. auto. }
  destruct (appointed_on_sight demo_unmarshal (mkCheckinRequest ["bb:00"] "") demo_to sighted code ans)
    as (l0 & l1 & l2 & l3 & d1 & d2 & d3 & m & a & Hl & Hd1 & _ & _ & _ & _ & Hm & _ & Hd & _); [|exact E|exact Ha|].
  - apply Forall_app. split; apply Forall_replicate; exact demo_well_assigned.
  - exists d1, m, a. rewrite <- Hc, <- Hh, <- Hd. split; [rewrite Hl; apply elem_of_app; right; apply elem_of_app; by left|]. split; [exact Hm|exact Ho].
Defined.

(** ** What the handlers do not guard *)

(** Two clusters that share their machines are started at once: each start looks
    for an active deploy of the other before either has registered. *)
Definition shared_record (id label serial mac h : string) : option record :=
  Some (mkRecord id label (mkBMC "10.0.0.1" "admin" 3) "" (Some (demo_inventory serial mac)) (Some FetchOK) "" None
    [mkAssignment "c" h "/dev/sda"; mkAssignment "e" h "/dev/sda"]).

Definition shared_site : site :=
  mkSite (mkDriver {["1" := shared_record "1" "alpha" "S1" "aa:00" "cc1"; "2" := shared_record "2" "beta" "S2" "bb:00" "cc2"]}
            (mkFilestore {["c" := mkClusterdir (Some "x") ∅; "e" := mkClusterdir (Some "x") ∅]} ∅ ∅ ∅ false) demo_manager) [] [].

Definition both_active (s : site) : bool :=
  HasActiveDeploy "c" s.(si_dr).(dr_mgr) && HasActiveDeploy "e" s.(si_dr).(dr_mgr).

Example starts_race :
  from_option both_active false
    (site_run (ask_start "c" false :: ask_start "e" false :: serves_of 0 8 ++ serves_of 1 8 ++ serves_of 0 8 ++ serves_of 1 8)
       shared_site) = true
  ∧ from_option (fun s => negb (both_active s)) false
      (site_run (ask_start "c" false :: ask_start "e" false :: serves_of 0 16 ++ serves_of 1 6) shared_site) = true.
Proof. split; vm_compute; reflexivity. Qed.

(** Submitting the set_ready parameters reads the cluster's definition and saves
    it back: an edit saved in between is undone. *)
Definition by_name (raw : string) : option ClusterDetail :=
  Some (mkClusterDetail (mkClusterInfo "0123456789abcdef" raw) demo_pair.(cd_ClusterConfig) demo_pair.(cd_NodeData)).
Definition name_only (d : ClusterDetail) : string := d.(cd_ClusterInfo).(ci_Name).
Definition named_store (name : string) : filestore := mkFilestore {[ShortID demo_pair := mkClusterdir (Some name) ∅]} ∅ ∅ ∅ false.

Definition edited : list smove :=
  [SAsk (QSubmitSetReady (ShortID demo_pair) (Some zero_SetReadyInput) (saves (hosts_of demo_pair) AllWritten)); SServe 0; SServe 0;
   SStores ∅ (named_store "renamed"); SServe 0].

Example edit_undone :
  from_option (fun s => match detail_of by_name s.(si_dr) (ShortID demo_pair) with
                        | Ok d => (d.(cd_ClusterInfo).(ci_Name) =? "lab")%string
                        | Err _ => false
                        end) false
    (site_after "k" name_only by_name demo_zip demo_bytes edited (mkSite (mkDriver ∅ (named_store "lab") demo_manager) [] []))
  = true.
Proof. vm_compute. reflexivity. Qed.

(** A re-run of one node's preflight is asked for while another is still at its
    own.  The agent asks for the count with its next round's report, which still
    comes from the run that passed and passes the node again; when the other
    passes, the fabric is ready, before the re-run has begun. *)
Definition round (h : string) (passed : bool) : smove :=
  SAsk (QPreflightReport (Some (mkPreflightReportRequest "c" h true 0%Q [] passed))).
Definition rekicked : list smove :=
  ask_start "c" true :: serves_of 0 14
  ++ round "cc1" true :: serves_of 1 2 ++ round "cc2" false :: serves_of 2 2
  ++ SAsk (QRekickPreflight "c" "cc1") :: serves_of 3 2
  ++ round "cc1" true :: serves_of 4 2 ++ round "cc2" true :: serves_of 5 2.

Example old_round_passes :
  from_option (fun s => match s.(si_dr).(dr_mgr).(m_deploys) !! "c" with
                        | Some d => canAdvance d s.(si_dr).(dr_mgr)
                        | None => false
                        end) false (site_run rekicked (site_of demo_machines)) = true.
Proof. vm_compute. reflexivity. Qed.
