(* ===== verification/AgentInstall.v ===== *)
(** * The installer phase around the preflight (cmd/phone-home-agent main.go)

    What the agent leaves on the node for the restored system (its identity,
    its snapshot, the set-ready parameters), the calls to the driver with the
    answers they are read from, the check for an inspection before the image
    is fetched, the wait for the reboot gate and the report an operator can
    read offline. *)
From S2P Require Import Prelude GoStrings DeployModel SelCodec Orchestrator AgentSel AgentApply AgentPreflight DeployApi DeployDemo.
From Stdlib Require Import Ascii QArith.

Open Scope string_scope.
Open Scope list_scope.
Open Scope Z_scope.

(** ** The identity stamped for the OS phase *)

Definition bit (b : bool) : string := if b then "1" else "0".

Definition env_lines (host cluster : string) (isMaster : bool) (osDisk : string) (optOutRepair simulateAirgap : bool)
    : list (string * string) :=
  [("CUBE_HOSTNAME", host); ("CUBE_CLUSTER_ID", cluster); ("IS_MASTER", bit isMaster);
   ("CUBE_OS_DISK", osDisk); ("OPT_OUT_REPAIR", bit optOutRepair); ("SIMULATE_AIRGAP", bit simulateAirgap)].

Definition line_feed : ascii := "010"%char.

Fixpoint env_text (kvs : list (string * string)) : string :=
  match kvs with
  | [] => ""
  | (k, v) :: kvs => k +:+ "=" +:+ v +:+ String line_feed (env_text kvs)
  end.

(** The two files: the environment, and the disk to restore to when one was
    picked. *)
Definition stampEnv (host cluster : string) (isMaster : bool) (osDisk : string) (optOutRepair simulateAirgap : bool)
    : string * option string :=
  (env_text (env_lines host cluster isMaster osDisk optOutRepair simulateAirgap),
   if is_empty osDisk then None else Some (osDisk +:+ String line_feed "")).

(** What [runLocalApply] and [startAirgapSim] read from the environment. *)
Record identity : Type := mkIdentity {
  id_isMaster : bool;
  id_host : string;
  id_cluster : string;
  id_optOut : bool;
  id_airgap : bool
}.

(** Letters, digits and the marks of names and device paths. *)
Definition plain_char (c : ascii) : bool :=
  let n := Z.of_nat (nat_of_ascii c) in
  (48 <=? n) && (n <=? 57) || (65 <=? n) && (n <=? 90) || (97 <=? n) && (n <=? 122)
  || (45 <=? n) && (n <=? 47) || (n =? 95) || (n =? 58).

Fixpoint plain (s : string) : bool :=
  match s with "" => true | String c s => plain_char c && plain s end.

(** systemd's EnvironmentFile: lines of [KEY=VALUE] define the variables (values
    here need no quoting), the last one of a key counts. *)
Class EnvFile : Type := { getenv : string → string → string }.

Definition assigned (kvs : list (string * string)) (k : string) : string :=
  default "" (snd <$> last (List.filter (fun kv => (kv.1 =? k)%string) kvs)).

Class EnvFileLaws `{EnvFile} : Prop := {
  getenv_lines kvs k : Forall (fun kv => plain kv.1 = true ∧ plain kv.2 = true) kvs →
    getenv (env_text kvs) k = assigned kvs k
}.

Definition read_identity `{EnvFile} (file : string) : identity :=
  mkIdentity (getenv file "IS_MASTER" =? "1")%string (getenv file "CUBE_HOSTNAME")
    (getenv file "CUBE_CLUSTER_ID") (getenv file "OPT_OUT_REPAIR" =? "1")%string
    (getenv file "SIMULATE_AIRGAP" =? "1")%string.

(** The identity the preflight stamped is the one the OS phase reads. *)
Lemma identity_survives `{EnvFileLaws} host cluster isMaster osDisk optOut airgap :
  plain host = true → plain cluster = true → plain osDisk = true →
  read_identity (stampEnv host cluster isMaster osDisk optOut airgap).1
  = mkIdentity isMaster host cluster optOut airgap.
Proof.
  intros Hh Hc Hd. unfold read_identity, stampEnv. cbn [fst].
  assert (Forall (fun kv => plain kv.1 = true ∧ plain kv.2 = true)
    (env_lines host cluster isMaster osDisk optOut airgap)) as Hl
    by (repeat constructor; try done; by destruct isMaster, optOut, airgap).
  rewrite !(getenv_lines _ _ Hl). cbn. by destruct isMaster, optOut, airgap.
Qed.

(** ** Files fetched over HTTP *)

(** What became of a request: no answer, or a status and what the body decodes
    to. *)
Inductive answer (A : Type) : Type := Unreachable | Answered (status : Z) (body : A).
Arguments Unreachable {A}.
Arguments Answered {A} status body.

(** A body as it arrives: its bytes, and whether the copy broke off. *)
Record stream : Type := mkStream { bytes : string; broken : option string }.

(** [fetchSnapshot] and [download]: the error, and the file at the target
    afterwards ([old]: before); [create]: making the file works. *)
Definition fetch (url : string) (a : answer stream) (create : option string) (old : option string)
    : option string * option string :=
  match a with
  | Unreachable => (Some ("Get " +:+ Quote url), old)
  | Answered status body =>
      if negb (status =? 200) then (Some ("download " +:+ url +:+ ": HTTP " +:+ Itoa status), old)
      else match create with
           | Some e => (Some e, old)
           | None => (body.(broken), Some body.(bytes))
           end
  end.
Definition fetchSnapshot := fetch.
Definition download := fetch.

Lemma fetch_whole url a create old :
  (fetch url a create old).1 = None →
  ∃ s, a = Answered 200 (mkStream s None) ∧ (fetch url a create old).2 = Some s.
Proof.
  unfold fetch. destruct a as [|status [s o]]; [done|]. destruct (Z.eqb_spec status 200) as [->|]; cbn; [|done].
  destruct create; [done|]. cbn. intros ->. by exists s.
Qed.

(** ** Set-ready parameters *)

(** The driver's record as the agent decodes it: the fields of the same names. *)
Definition decoded (i : SetReadyInput) : setReadyInput :=
  mkSetReadyInput i.(sr_Trigger) i.(sr_CreateExternal) i.(sr_CIDR) i.(sr_Gateway) i.(sr_IPRange).

(** [fetchSetReadyParams]: the error and the staged file; [None] in the body is
    text that does not decode. *)
Definition fetchSetReadyParams (a : answer (result (option setReadyInput))) (write : option string)
    (old : option setReadyInput) : option string * option setReadyInput :=
  match a with
  | Unreachable => (Some "unreachable", old)
  | Answered _ (Err e) => (Some e, old)
  | Answered _ (Ok None) => (None, old)
  | Answered _ (Ok (Some sr)) =>
      if is_empty sr.(si_CIDR) && is_empty sr.(si_Gateway) && is_empty sr.(si_IPRange) then (None, old)
      else match write with
           | Some e => (Some e, old)
           | None => (None, Some sr)
           end
  end.

Definition pollSetReady (a : answer (option setReadyInput)) : setReadyInput * bool :=
  match a with
  | Answered _ (Some sr) => (sr, true)
  | _ => (mkSetReadyInput false false "" "" "", false)
  end.

(** ** The role the driver tells *)

(** [reportApplyStarted]: reachable, proceed, isMaster, optOutRepair; a body that
    does not decode leaves zero values. *)
Definition reportApplyStarted (a : answer (option applyStartedReply)) : bool * bool * bool * bool :=
  match a with
  | Unreachable => (false, false, false, false)
  | Answered _ None => (true, false, false, false)
  | Answered _ (Some r) => (true, r.(ap_proceed), r.(ap_isMaster), r.(ap_optOutRepair))
  end.

(** [b_started] of AgentApply.v. *)
Definition started_of (a : answer (option applyStartedReply)) : option bool :=
  let '(reachable, _, isMaster, _) := reportApplyStarted a in
  if reachable : bool then Some isMaster else None.

(** The role [runLocalApply] goes on with. *)
Definition role (env : bool) (a : answer (option applyStartedReply)) : bool :=
  match started_of a with Some m => m | None => env end.

(** The driver's answer to a caller it cannot place, an error page of a
    proxy: either takes a master's role away, and with it the only node that
    runs set_ready. *)
Example role_lost :
  role true (Answered 200 (Some (mkApplyStartedReply false false false false))) = false
  ∧ role true (Answered 502 None) = false
  ∧ role true Unreachable = true.
Proof. done. Qed.

(** ** Looking for an inspection before the image is fetched *)

Definition Second : Z := 1000000000.

(** One check-in: it took so long, and what came of it. *)
Inductive attempt : Type :=
| NoRequest                                  (** [http.NewRequest] fails *)
| Failed (took : Z)                          (** no answer, or one that does not decode *)
| Told (took : Z) (inspect : bool).

Inductive verdict : Type := Install | Inventory.

Fixpoint inspect_check (fuel : nat) (now deadline : Z) (i : nat) (at_ : nat → attempt) : option (verdict * Z) :=
  match fuel with
  | O => None
  | S fuel =>
      if deadline <=? now then Some (Install, now)
      else match at_ i with
           | NoRequest => Some (Install, now)
           | Failed took => inspect_check fuel (now + took + 5 * Second) deadline (S i) at_
           | Told took inspect => Some (if inspect : bool then Inventory else Install, now + took)
           end
  end.

Definition runInspectCheck (at_ : nat → attempt) (now : Z) : option (verdict * Z) :=
  inspect_check 19 now (now + 90 * Second) 0 at_.

Definition took (a : attempt) : Z := match a with NoRequest => 0 | Failed t | Told t _ => t end.

(** When the [k]-th attempt from the [i]-th begins, if all before it fail. *)
Fixpoint begins (at_ : nat → attempt) (now : Z) (i k : nat) : Z :=
  match k with
  | O => now
  | S k => begins at_ (now + took (at_ i) + 5 * Second) (S i) k
  end.

Lemma begins_later at_ now i k : (∀ j, 0 <= took (at_ j)) → now <= begins at_ now i k.
Proof.
  intros Ht. revert now i. induction k as [|k IH]; intros now i; cbn; [lia|].
  specialize (IH (now + took (at_ i) + 5 * Second) (S i)). specialize (Ht i). unfold Second in *. lia.
Qed.

(** The [k]-th attempt from the [i]-th is made and is the last. *)
Definition reached (at_ : nat → attempt) (now deadline : Z) (i k : nat) : Prop :=
  begins at_ now i k < deadline ∧ ∀ j, (j < k)%nat → ∃ t, at_ (i + j)%nat = Failed t.

Lemma reached_S at_ now deadline i k t :
  at_ i = Failed t →
  reached at_ now deadline i (S k) ↔ reached at_ (now + t + 5 * Second) deadline (S i) k.
Proof.
  intros Ha. unfold reached. cbn. rewrite Ha. cbn. split; intros [Hb Hf]; split; try done.
  - intros j Hj. destruct (Hf (S j)) as [x Hx]; [lia|]. exists x. rewrite <- Hx. f_equal. lia.
  - intros [|j] Hj; [exists t; by rewrite Nat.add_0_r|]. destruct (Hf j) as [x Hx]; [lia|].
    exists x. rewrite <- Hx. f_equal. lia.
Qed.

(** Enough fuel for what is left of the deadline, and never more time than that
    and one more attempt. *)
Lemma inspect_check_ends fuel now deadline i at_ :
  (∀ j, 0 <= took (at_ j) <= 8 * Second) → deadline - now <= 5 * Second * (Z.of_nat fuel - 1) → (0 < fuel)%nat →
  ∃ v t, inspect_check fuel now deadline i at_ = Some (v, t)
    ∧ now <= t <= Z.max now (deadline + 13 * Second)
    ∧ (v = Inventory ↔ ∃ k tk, at_ (i + k)%nat = Told tk true ∧ reached at_ now deadline i k).
Proof.
  intros Ht. revert now i. induction fuel as [|fuel IH]; intros now i Hd Hf; [lia|]. cbn [inspect_check].
  assert (∀ k, reached at_ now deadline i k → now < deadline) as Hnow.
  { intros k [Hb _]. pose proof (begins_later at_ now i k (fun j => proj1 (Ht j))). lia. }
  destruct (Z.leb_spec deadline now) as [Hle|Hlt].
  { exists Install, now. split; [done|]. split; [lia|]. split; [done|].
    intros (k & tk & _ & Hr). apply Hnow in Hr. lia. }
  pose proof (Ht i) as Hti. destruct (at_ i) as [|t|t ins] eqn:Ha; cbn in Hti.
  - exists Install, now. split; [done|]. split; [lia|]. split; [done|].
    intros ([|k] & tk & Hk & _ & Hr); [by rewrite Nat.add_0_r, Ha in Hk|].
    destruct (Hr 0%nat) as [x Hx]; [lia|]. by rewrite Nat.add_0_r, Ha in Hx.
  - destruct (IH (now + t + 5 * Second) (S i)) as (v & t' & -> & Hb & Hv); [unfold Second in *; lia..|].
    exists v, t'. split; [done|]. split; [unfold Second in *; lia|]. rewrite Hv. split.
    + intros (k & tk & Hk & Hr). exists (S k), tk. split; [rewrite <- Hk; f_equal; lia|]. by eapply reached_S.
    + intros ([|k] & tk & Hk & Hr); [by rewrite Nat.add_0_r, Ha in Hk|].
      exists k, tk. split; [rewrite <- Hk; f_equal; lia|]. by eapply reached_S.
  - exists (if ins then Inventory else Install), (now + t). split; [done|].
    split; [unfold Second in *; lia|]. split.
    + destruct ins; [|done]. intros _. exists 0%nat, t. rewrite Nat.add_0_r. split; [done|].
      split; [done|]. intros j Hj. lia.
    + intros ([|k] & tk & Hk & _ & Hr).
      * rewrite Nat.add_0_r, Ha in Hk. by injection Hk as _ ->.
      * destruct (Hr 0%nat) as [x Hx]; [lia|]. by rewrite Nat.add_0_r, Ha in Hx.
Qed.

(** The look before the install is bounded.  With requests that give up
    after 8 seconds, the check-in loop ends, at most 103 seconds after it began;
    it ends in an inventory exactly when the first answer it got, to an
    attempt begun within 90 seconds, marked the node for inspection, and in
    every other case (the driver silent, a request that cannot be made, any other
    answer) the install goes on. *)
Theorem inspect_check_bounded at_ now :
  (∀ j, 0 <= took (at_ j) <= 8 * Second) →
  ∃ v t, runInspectCheck at_ now = Some (v, t)
    ∧ now <= t <= now + 103 * Second
    ∧ (v = Inventory ↔ ∃ k tk, at_ k = Told tk true ∧ reached at_ now (now + 90 * Second) 0 k)
    ∧ (v = Install ↔ v ≠ Inventory).
Proof.
  intros Ht. destruct (inspect_check_ends 19 now (now + 90 * Second) 0 at_) as (v & t & He & Hb & Hv);
    [done|unfold Second; lia..|].
  exists v, t. split; [done|]. split; [unfold Second in *; lia|]. split; [done|]. by destruct v.
Qed.

Lemma inspect_check_bounded_witness :
  ∃ t, runInspectCheck (fun j => if (j <? 3)%nat then Failed (8 * Second) else Told Second true) 0
       = Some (Inventory, t) ∧ t = 40 * Second.
Proof.
  destruct (inspect_check_bounded (fun j => if (j <? 3)%nat then Failed (8 * Second) else Told Second true) 0)
    as (v & t & He & _ & Hv & _).
  - intros j. destruct (j <? 3)%nat; vm_compute; split; discriminate.
  - assert (v = Inventory) as ->.
    { apply Hv. exists 3%nat, Second. split; [reflexivity|]. split; [vm_compute; reflexivity|].
      intros j Hj. exists (8 * Second). cbn -[Nat.ltb]. destruct (Nat.ltb_spec j 3); [reflexivity|lia]. }
    exists t. split; [exact He|]. vm_compute in He. injection He as <-. vm_compute. reflexivity.
Defined.

(** ** The reboot gate *)

(** [looks]: what each look at the BMC's log found; [None] while it still waits. *)
Fixpoint waitSELGate (stage : Z) (looks : list log) : option nat :=
  match looks with
  | [] => None
  | l :: looks => if selGatePresent l stage then Some O else S <$> waitSELGate stage looks
  end.

Lemma waitSELGate_spec stage looks n :
  waitSELGate stage looks = Some n ↔
  ∃ l, looks !! n = Some l ∧ selGatePresent l stage = true
    ∧ ∀ j l', (j < n)%nat → looks !! j = Some l' → selGatePresent l' stage = false.
Proof.
  revert n. induction looks as [|l looks IH]; intros n; cbn; [split; [done|by intros (? & ? & _)]|].
  destruct (selGatePresent l stage) eqn:E.
  - split.
    + intros [= <-]. exists l. split; [done|]. split; [done|]. intros j l' Hj. lia.
    + intros (l' & Hl & Hg & Hb). destruct n as [|n]; [done|].
      specialize (Hb 0%nat l ltac:(lia) eq_refl). congruence.
  - split.
    + intros (n' & Hn' & ->)%fmap_Some. apply IH in Hn' as (l' & Hl & Hg & Hb).
      exists l'. split; [done|]. split; [done|]. intros [|j] x Hj Hx; cbn in Hx; [congruence|].
      apply (Hb j); [lia|done].
    + intros (l' & Hl & Hg & Hb). destruct n as [|n]; cbn in Hl; [congruence|].
      assert (waitSELGate stage looks = Some n) as H; [|by rewrite H].
      apply IH. exists l'. split; [done|]. split; [done|].
      intros j x Hj Hx. apply (Hb (S j)); [lia|done].
Qed.

(** [reportRestoreDone]: the record on the BMC and the post, then the wait. *)
Inductive install_act : Type := WroteSEL (phase result detail : string) | PostedRestoreDone | Returned.

Definition reportRestoreDone (looks : list log) : list install_act :=
  [WroteSEL "restore-done" "ok" ""; PostedRestoreDone]
  ++ (match waitSELGate gateStageReboot looks with Some _ => [Returned] | None => [] end).

(** ** The parameters the operator gave are the ones the master runs with *)

Definition given (i : SetReadyInput) : list string :=
  List.filter (fun a => negb (is_empty a)) [i.(sr_CIDR); i.(sr_Gateway); i.(sr_IPRange)].

Lemma submit_got id i mgr :
  ∃ trigger, decoded (GetSetReady id (SubmitSetReady id i mgr)).2
  = mkSetReadyInput trigger (submitted i).(sr_CreateExternal) (submitted i).(sr_CIDR)
      (submitted i).(sr_Gateway) (submitted i).(sr_IPRange).
Proof.
  unfold GetSetReady, SubmitSetReady. cbn. rewrite lookup_insert_eq. cbn.
  repeat case_match; cbn; by eexists.
Qed.

(** C40. What the operator submits for set_ready is what the master runs.  Let the
    preflight fetch the parameters after the operator submitted them, the driver
    answer it, the file /run/set-ready.json be written, and the installer have put what was there
    ([file]; [old]: what was there before) where the installed system looks for it, in
    /var/support.  If a shared external network is asked for, with some parameter, then whatever was
    there before, the master, once its gate is open, runs [hex_cli -c cluster -c set_ready]
    with exactly the parameters given, in order, and answers YES.  If
    none is asked for and nothing was there before, nothing is there after, and a master
    that the driver does not answer then runs nothing and waits. *)
Theorem set_ready_travels id i mgr old e file b k :
  let asked := (GetSetReady id (SubmitSetReady id i mgr)).2 in
  fetchSetReadyParams (Answered 200 (Ok (Some (decoded asked)))) None old = (e, file) →
  k.(dk_setready) = file →
  (i.(sr_CreateExternal) = true → given i ≠ [] → b.(b_go_setready) = true →
     ∃ rest, runSetReady b k
       = (ASetReady (["-c"; "cluster"; "-c"; "set_ready"] ++ given i) ("YES" +:+ String line_feed "") :: rest, Exits))
  ∧ (i.(sr_CreateExternal) = false → old = None →
     file = None ∧ (b.(b_poll) = None → runSetReady b k = ([], Waits))).
Proof.
  cbv zeta. destruct (submit_got id i mgr) as [trigger ->]. intros Hf Hk.
  unfold submitted in Hf. split.
  - intros He Hg Hgo. rewrite He in Hf. cbn -[is_empty] in Hf.
    destruct (is_empty (sr_CIDR i) && is_empty (sr_Gateway i) && is_empty (sr_IPRange i)) eqn:E; cbn in Hf.
    { exfalso. apply Hg. apply andb_true_iff in E as [[E1 E2]%andb_true_iff E3].
      unfold given. cbn -[is_empty]. by rewrite E1, E2, E3. }
    injection Hf as _ <-. unfold runSetReady. rewrite Hk, Hgo. unfold run_set_ready. destruct (b_cli b) as [ok out].
    eexists. unfold setready_args. reflexivity.
  - intros He ->. rewrite He in Hf. cbn in Hf. injection Hf as _ <-. split; [done|]. intros Hp.
    unfold runSetReady. by rewrite Hk, Hp.
Qed.

Definition ex_input : SetReadyInput := Orchestrator.mkSetReadyInput false true "10.1.0.0/24" "10.1.0.1" "" false "".

Definition ex_boot (sr : option setReadyInput) : Boot :=
  mkBoot true "cc1" false (Some true) true (FetchFailed "" false) true true true
    (fun _ => mkHexRun (Some 0) "" true) true None (true, "") true false.

Lemma set_ready_travels_witness :
  ∃ e sr rest,
    fetchSetReadyParams (Answered 200 (Ok (Some (decoded (GetSetReady "c" (SubmitSetReady "c" ex_input demo_manager)).2))))
      None None = (e, Some sr)
    ∧ runSetReady (ex_boot None) (mkDisk true false None None None false (Some sr) ∅)
      = (ASetReady ["-c"; "cluster"; "-c"; "set_ready"; "10.1.0.0/24"; "10.1.0.1"] ("YES" +:+ String line_feed "")
           :: rest, Exits).
Proof.
  destruct (fetchSetReadyParams _ _ _) as [e [sr|]] eqn:E; [|exfalso; vm_compute in E; discriminate E].
  destruct (proj1 (set_ready_travels "c" ex_input demo_manager None e (Some sr) (ex_boot None)
    (mkDisk true false None None None false (Some sr) ∅) E eq_refl)) as [rest H];
    [reflexivity|vm_compute; discriminate|reflexivity|].
  exists e, sr, rest. split; [reflexivity|exact H].
Defined.

(** A file that was there stays when the operator now asks for no network, and
    the master runs with its parameters. *)
Example stale_parameters_run :
  let declined := Orchestrator.mkSetReadyInput false false "" "" "" false "" in
  let old := decoded ex_input in
  let file := (fetchSetReadyParams (Answered 200 (Ok (Some (decoded
                 (GetSetReady "c" (SubmitSetReady "c" declined demo_manager)).2)))) None (Some old)).2 in
  file = Some old
  ∧ head (runSetReady (ex_boot None) (mkDisk true false None None None false file ∅)).1
    = Some (ASetReady ["-c"; "cluster"; "-c"; "set_ready"; "10.1.0.0/24"; "10.1.0.1"] ("YES" +:+ String line_feed "")).
Proof. split; vm_compute; reflexivity. Qed.

(** ** The report an operator reads on the node *)

Definition esc (code : string) : string := String "027" ("[" +:+ code +:+ "m").
Definition red : string := esc "31".
Definition green : string := esc "32".
Definition bold : string := esc "1".
Definition reset : string := esc "0".

Definition detail_of (m : PreflightResult) : string :=
  if is_empty m.(pr_Detail) then "" else " — " +:+ m.(pr_Detail).
Definition problem_line (m : PreflightResult) : string :=
  "  " +:+ red +:+ "✗ " +:+ m.(pr_Target) +:+ reset +:+ detail_of m.
Definition check_row (m : PreflightResult) : string :=
  "  " +:+ (if m.(pr_OK) then green +:+ "✓" else red +:+ "✗") +:+ reset +:+ " " +:+ m.(pr_Target) +:+ detail_of m.

(** What the file holds: nothing, text that does not decode, or a report with its
    time. *)
Inductive savedReport : Type := NoFile | Garbage (err data : string) | Saved (r : PreflightReportRequest) (savedAt : string).

(** [savePreflightReport]: written beside and renamed. *)
Definition savePreflightReport (r : PreflightReportRequest) (now : string) (writeOk renameOk : bool) (old : savedReport) : savedReport :=
  if writeOk && renameOk then Saved r now else old.

Section report.
Variable fmt_skew : Q → string.    (** [%+.2f] *)

(** The lines of [printPreflightReport]; [durable] is the copy in the restored
    system. *)
Definition report_lines (r : PreflightReportRequest) (savedAt : string) : list string :=
  let verdict := if r.(pq_Passed) then green +:+ "PASSED" +:+ reset else red +:+ "NOT PASSED" +:+ reset in
  let fails := List.filter (fun m => negb m.(pr_OK)) r.(pq_Matrix) in
  [bold +:+ "PREFLIGHT REPORT" +:+ reset +:+ "  node " +:+ r.(pq_Hostname) +:+ "  cluster " +:+ r.(pq_ClusterID)
     +:+ "  saved " +:+ savedAt +:+ "  " +:+ verdict;
   "clock skew vs driver: " +:+ fmt_skew r.(pq_ClockSkewSec) +:+ "s   carrier: "
     +:+ (if r.(pq_CarrierOK) then "true" else "false"); ""]
  ++ (match fails with
      | [] => []
      | _ => (bold +:+ red +:+ "PROBLEMS (" +:+ Itoa (Z.of_nat (length fails)) +:+ "):" +:+ reset)
             :: (problem_line <$> fails) ++ [""]
      end)
  ++ (bold +:+ "ALL CHECKS (" +:+ Itoa (Z.of_nat (length r.(pq_Matrix))) +:+ "):" +:+ reset)
     :: (check_row <$> r.(pq_Matrix)).

Definition printPreflightReport (file durable : savedReport) : list string :=
  match (match file with NoFile => durable | _ => file end) with
  | NoFile =>
      ["no preflight report at /run/preflight-report.json or /var/support/preflight-report.json — preflight has not run (or this node was never appointed).";
       "see /run/autoinstall.log for the installer progress log."]
  | Garbage err data => ["unreadable report (" +:+ err +:+ "); raw contents:"; data]
  | Saved r savedAt => report_lines r savedAt
  end.

(** Every failed check is named among the problems, and every check has its row. *)
Lemma report_shows r at_ m old durable :
  m ∈ r.(pq_Matrix) →
  let shown := printPreflightReport (savePreflightReport r at_ true true old) durable in
  check_row m ∈ shown ∧ (m.(pr_OK) = false → problem_line m ∈ shown).
Proof.
  intros Hin shown. subst shown. cbn [savePreflightReport andb printPreflightReport].
  unfold report_lines. split.
  - apply elem_of_app. right. apply elem_of_app. right. right. by apply list_elem_of_fmap_2.
  - intros Hok. apply elem_of_app. right. apply elem_of_app. left.
    assert (m ∈ List.filter (fun m => negb (pr_OK m)) (pq_Matrix r)) as Hf
      by (apply list_elem_of_In, filter_In; rewrite Hok; split; [by apply list_elem_of_In|done]).
    destruct (List.filter _ _) as [|x l] eqn:El; [by apply not_elem_of_nil in Hf|]. rewrite <- El in *.
    right. apply elem_of_app. left. by apply list_elem_of_fmap_2.
Qed.
End report.

(** ** A reader of environment files *)

Fixpoint cut_eq (s : string) : option (string * string) :=
  match s with
  | "" => None
  | String c s => if Ascii.eqb c "=" then Some ("", s)
                  else match cut_eq s with Some (a, b) => Some (String c a, b) | None => None end
  end.

Definition simple_getenv (file k : string) : string :=
  foldl (fun acc line => match cut_eq line with
                         | Some (k', v) => if (k' =? k)%string then v else acc
                         | None => acc
                         end) "" (Split file line_feed).

#[export] Instance simple_env : EnvFile := { getenv := simple_getenv }.

Lemma plain_free s c : plain s = true → plain_char c = false → free_of c s.
Proof.
  induction s as [|x s IH]; [done|]. cbn. intros [Hx Hs]%andb_true_iff Hc. apply free_of_cons.
  split; [|by apply IH]. intros ->. congruence.
Qed.

Lemma cut_eq_line k v : plain k = true → cut_eq (k +:+ "=" +:+ v) = Some (k, v).
Proof.
  intros Hk. apply plain_free with (c := "="%char) in Hk; [|done]. induction k as [|c k IH]; [done|].
  apply free_of_cons in Hk as [Hc Hk]. autorewrite with cube_str. cbn.
  destruct (Ascii.eqb_spec c "="); [done|]. autorewrite with cube_str in IH. by rewrite IH.
Qed.

#[export] Instance simple_env_laws : EnvFileLaws.
Proof.
  split. intros kvs k Hk. cbn. unfold simple_getenv, assigned.
  set (f := fun acc line => _).
  assert (∀ acc, foldl f acc (Split (env_text kvs) line_feed)
    = default acc (snd <$> last (List.filter (fun kv => (kv.1 =? k)%string) kvs))) as H; [|apply H].
  induction Hk as [|[a v] kvs [Ha Hv] Hk IH]; intros acc; [done|]. cbn [env_text].
  cbn in Ha, Hv. replace (a +:+ "=" +:+ v +:+ String line_feed (env_text kvs))
    with ((a +:+ "=" +:+ v) +:+ String line_feed (env_text kvs)) by by rewrite !app_assoc_str.
  rewrite Split_app.
  2: { rewrite free_of_app. split; [by apply plain_free|]. rewrite append_cons, append_nil, free_of_cons.
       split; [done|by apply plain_free]. }
  cbn [foldl List.filter fst]. rewrite IH. subst f. cbn beta. rewrite cut_eq_line by done.
  destruct (a =? k)%string; [|done]. rewrite last_cons. by destruct (last _).
Qed.

Example identity_read :
  read_identity (stampEnv "cc1" "c-01" true "/dev/sda" false true).1 = mkIdentity true "cc1" "c-01" false true.
Proof. apply identity_survives; reflexivity. Qed.
