(* ===== verification/Routes.v ===== *)
(** * The driver's HTTP surface (internal/api server.go, webui.go, cmd/cube-cos-driver)

    The table of routes with the patterns as the code writes them, read and
    matched as net/http's ServeMux does: segments, [{wildcards}], a trailing
    slash for a subtree, GET for HEAD, and of several matching patterns the most specific.
    The table registers without a conflict, every request has one handler,
    and a filled-in pattern reaches its own.  Then what [newHandler] and [main] settle
    from their settings, and the files of the browser application. *)
From S2P Require Import Prelude GoStrings Secret Machines GoNet ClusterModel Generator Storage DeployModel SelCodec AgentPreflight AgentRun Orchestrator OrchestratorOps DeployDemo OrchestratorInspect DeployApi HostFs.
From Stdlib Require Import Ascii.

Open Scope string_scope.
Open Scope list_scope.

(** ** Patterns and requests *)

Inductive seg :=
| Lit (s : string)
| Wild (name : string).

#[export] Instance seg_eq : EqDecision seg.
Proof. solve_decision. Defined.

(** [p_multi]: the pattern ends in a slash and stands for the subtree. *)
Record pattern : Type := mkPattern {
  p_method : option string;
  p_segs : list seg;
  p_multi : bool
}.

#[export] Instance pattern_eq : EqDecision pattern.
Proof. solve_decision. Defined.

(** A clean, decoded path: its elements, and whether it ends in a slash. *)
Record request : Type := mkRequest {
  rq_method : string;
  rq_segs : list string;
  rq_slash : bool
}.

Definition wildcard (e : string) : option string :=
  if HasPrefix e "{" && HasSuffix e "}" then Some (TrimSuffix (TrimPrefix e "{") "}") else None.

Definition read_seg (e : string) : seg :=
  match wildcard e with Some n => Wild n | None => Lit e end.

(** The elements of a path that begins with a slash. *)
Definition path_elems (p : string) : option (list string * bool) :=
  match Split p "/" with
  | "" :: es =>
      match rev es with
      | "" :: r => Some (rev r, true)
      | _ => Some (es, false)
      end
  | _ => None
  end.

Definition parsePattern (s : string) : option pattern :=
  let '(m, p) := match Split s " " with
                 | [m; p] => (Some m, p)
                 | _ => (None, s)
                 end in
  '(es, multi) ← path_elems p;
  Some (mkPattern m (read_seg <$> es) multi).

Fixpoint match_segs (ps : list seg) (multi : bool) (ss : list string) (slash : bool) :
    option (list (string * string)) :=
  match ps, ss with
  | [], [] => if Bool.eqb multi slash then Some [] else None
  | [], _ :: _ => if multi then Some [] else None
  | _ :: _, [] => None
  | Lit l :: ps, s :: ss => if (l =? s)%string then match_segs ps multi ss slash else None
  | Wild n :: ps, s :: ss => (fun vs => (n, s) :: vs) <$> match_segs ps multi ss slash
  end.

Definition method_fits (pm : option string) (m : string) : bool :=
  match pm with
  | None => true
  | Some x => (x =? m)%string || (x =? "GET")%string && (m =? "HEAD")%string
  end.

(** The values of the pattern's wildcards, if the request matches. *)
Definition matches (p : pattern) (r : request) : option (list (string * string)) :=
  if method_fits p.(p_method) r.(rq_method)
  then match_segs p.(p_segs) p.(p_multi) r.(rq_segs) r.(rq_slash) else None.

(** ** How patterns compare *)

(** [covers p q]: [p] matches whatever [q] matches; [meets p q]: some request
    matches both. *)
Fixpoint covers_segs (ps : list seg) (pm : bool) (qs : list seg) (qm : bool) : bool :=
  match ps, qs with
  | [], [] => Bool.eqb pm qm
  | [], _ :: _ => pm
  | _ :: _, [] => false
  | Lit a :: ps, Lit b :: qs => (a =? b)%string && covers_segs ps pm qs qm
  | Lit _ :: _, Wild _ :: _ => false
  | Wild _ :: ps, _ :: qs => covers_segs ps pm qs qm
  end.

Fixpoint meets_segs (ps : list seg) (pm : bool) (qs : list seg) (qm : bool) : bool :=
  match ps, qs with
  | [], [] => Bool.eqb pm qm
  | [], _ :: _ => pm
  | _ :: _, [] => qm
  | Lit a :: ps, Lit b :: qs => (a =? b)%string && meets_segs ps pm qs qm
  | _ :: ps, _ :: qs => meets_segs ps pm qs qm
  end.

Definition covers_method (p q : option string) : bool :=
  match p, q with
  | None, _ => true
  | Some _, None => false
  | Some x, Some y => (x =? y)%string || (x =? "GET")%string && (y =? "HEAD")%string
  end.

Definition meets_method (p q : option string) : bool := covers_method p q || covers_method q p.

Definition covers (p q : pattern) : bool :=
  covers_method p.(p_method) q.(p_method) && covers_segs p.(p_segs) p.(p_multi) q.(p_segs) q.(p_multi).

Definition meets (p q : pattern) : bool :=
  meets_method p.(p_method) q.(p_method) && meets_segs p.(p_segs) p.(p_multi) q.(p_segs) q.(p_multi).

(** Two patterns that meet must differ in how specific they are. *)
Definition conflicts (p q : pattern) : bool := meets p q && Bool.eqb (covers p q) (covers q p).

(** ** The mux *)

Section Mux.
Context {H : Type}.

Definition mux : Type := list (pattern * H).

(** [HandleFunc] panics on a pattern it cannot read or that conflicts. *)
Definition HandleFunc (s : string) (h : H) (m : mux) : option mux :=
  p ← parsePattern s;
  if existsb (fun e => conflicts e.1 p) m then None else Some ((p, h) :: m).

Fixpoint register (l : list (string * H)) (m : mux) : option mux :=
  match l with
  | [] => Some m
  | (s, h) :: l => m ← HandleFunc s h m; register l m
  end.

(** The most specific of the patterns that match. *)
Definition best (m : mux) (r : request) : option (pattern * H) :=
  List.find (fun e => bool_decide (is_Some (matches e.1 r))
                      && forallb (fun e' => negb (bool_decide (is_Some (matches e'.1 r)))
                                            || covers e'.1 e.1) m) m.

Inductive served : Type :=
| Handled (h : H) (vs : list (string * string))
| Redirected           (** to the same path with a slash at its end *)
| NotFound.

(** The pattern ends where the path does. *)
Definition exactMatch (n : option (pattern * H)) (r : request) : bool :=
  match n with
  | None => false
  | Some (p, _) => negb p.(p_multi) || r.(rq_slash) && (length p.(p_segs) =? length r.(rq_segs))%nat
  end.

Definition with_slash (r : request) : request := mkRequest r.(rq_method) r.(rq_segs) true.

Definition serve (m : mux) (r : request) : served :=
  if negb (exactMatch (best m r) r) && negb r.(rq_slash) && exactMatch (best m (with_slash r)) (with_slash r)
  then Redirected
  else match best m r with
       | Some (p, h) => Handled h (default [] (matches p r))
       | None => NotFound
       end.
End Mux.
Arguments mux : clear implicits.
Arguments served : clear implicits.

#[export] Instance served_eq {H} `{EqDecision H} : EqDecision (served H).
Proof. solve_decision. Defined.

(** ** Matching and comparing agree *)

Lemma method_covers p q m : covers_method p q = true → method_fits q m = true → method_fits p m = true.
Proof.
  destruct p as [x|], q as [y|]; cbn; try done. rewrite !orb_true_iff, !andb_true_iff, !String.eqb_eq.
  intuition congruence.
Qed.

Lemma method_meets p q m : method_fits p m = true → method_fits q m = true → meets_method p q = true.
Proof.
  unfold meets_method. destruct p as [x|], q as [y|]; cbn; try done.
  rewrite !orb_true_iff, !andb_true_iff, !String.eqb_eq. intuition congruence.
Qed.

Lemma method_trans p q r : covers_method p q = true → covers_method q r = true → covers_method p r = true.
Proof.
  destruct p as [x|], q as [y|], r as [z|]; cbn; try done.
  rewrite !orb_true_iff, !andb_true_iff, !String.eqb_eq. intuition congruence.
Qed.

(** One element of the pattern against one of the path. *)
Ltac seg_case :=
  repeat match goal with
  | K : is_Some None |- _ => by destruct K
  | K : is_Some (_ <$> _) |- _ => apply fmap_is_Some in K
  | |- is_Some (_ <$> _) => apply fmap_is_Some
  | K : is_Some (if ?b then _ else _) |- _ => destruct b eqn:?
  | K : _ && _ = true |- _ => apply andb_true_iff in K as [? ?]
  | K : Bool.eqb _ _ = true |- _ => apply Bool.eqb_prop in K; subst
  | K : (_ =? _)%string = true |- _ => apply String.eqb_eq in K; subst
  | K : ?b = true |- _ => is_var b; subst b
  | K : ?b = false |- _ => is_var b; subst b
  | |- context [Bool.eqb ?b ?b] => rewrite Bool.eqb_reflx
  | |- context [(?a =? ?a)%string] => rewrite String.eqb_refl
  end; cbn [andb]; try done.

Lemma segs_covers ps pm qs qm ss slash :
  covers_segs ps pm qs qm = true → is_Some (match_segs qs qm ss slash) → is_Some (match_segs ps pm ss slash).
Proof.
  revert qs ss. induction ps as [|[a|n] ps IH]; intros [|[b|k] qs] [|s ss]; cbn; intros Hc Hq; seg_case;
    try by apply (IH qs ss).
Qed.

Lemma segs_meets ps pm qs qm ss slash :
  is_Some (match_segs ps pm ss slash) → is_Some (match_segs qs qm ss slash) → meets_segs ps pm qs qm = true.
Proof.
  revert qs ss. induction ps as [|[a|n] ps IH]; intros [|[b|k] qs] [|s ss]; cbn; intros Hp Hq; seg_case;
    try by apply (IH qs ss).
Qed.

Lemma segs_trans ps pm qs qm rs rm :
  covers_segs ps pm qs qm = true → covers_segs qs qm rs rm = true → covers_segs ps pm rs rm = true.
Proof.
  revert qs rs. induction ps as [|[a|n] ps IH]; intros [|[b|k] qs] [|[c|l] rs]; cbn; intros H1 H2; seg_case;
    try by apply (IH qs rs).
Qed.

Lemma covers_matches p q r : covers p q = true → is_Some (matches q r) → is_Some (matches p r).
Proof.
  unfold covers, matches. intros [Hm Hs]%andb_true_iff Hq.
  destruct (method_fits (p_method q) _) eqn:E; [|by destruct Hq].
  rewrite (method_covers _ _ _ Hm E). by apply (segs_covers _ _ (p_segs q) (p_multi q)).
Qed.

Lemma matches_meet p q r : is_Some (matches p r) → is_Some (matches q r) → meets p q = true.
Proof.
  unfold meets, matches. intros Hp Hq.
  destruct (method_fits (p_method p) _) eqn:Ep; [|by destruct Hp].
  destruct (method_fits (p_method q) _) eqn:Eq; [|by destruct Hq].
  rewrite (method_meets _ _ _ Ep Eq). by apply (segs_meets _ _ _ _ (rq_segs r) (rq_slash r)).
Qed.

Lemma covers_trans p q r : covers p q = true → covers q r = true → covers p r = true.
Proof.
  unfold covers. intros [H1 H2]%andb_true_iff [H3 H4]%andb_true_iff. apply andb_true_iff.
  split; [by eapply method_trans|by eapply segs_trans].
Qed.

Lemma covers_refl p : covers p p = true.
Proof.
  unfold covers. apply andb_true_iff. split.
  - destruct (p_method p); cbn; [|done]. by rewrite String.eqb_refl.
  - induction (p_segs p) as [|[a|n] l IH]; cbn; [apply Bool.eqb_reflx|by rewrite String.eqb_refl|done].
Qed.

(** ** A mux without conflicts has one handler for a request *)

Section Best.
Context {H : Type} `{EqDecision H}.
Implicit Types (m : mux H) (e : pattern * H).

Fixpoint consistent m : Prop :=
  match m with
  | [] => True
  | e :: m => Forall (fun e' => conflicts e'.1 e.1 = false) m ∧ consistent m
  end.

Lemma register_consistent l m m' : consistent m → register l m = Some m' → consistent m'.
Proof.
  revert m. induction l as [|[s h] l IH]; intros m Hm; cbn; [by intros [= <-]|].
  unfold HandleFunc. destruct (parsePattern s) as [p|]; [|done]. cbn.
  destruct (existsb _ m) eqn:E; [done|]. cbn. apply IH. split; [|done].
  apply Forall_forall. intros e He. apply not_true_iff_false. intros Hc.
  apply not_true_iff_false in E. apply E, existsb_exists. exists e. by split; [apply list_elem_of_In|].
Qed.

(** Of two patterns that match, exactly one is the more specific. *)
Lemma one_narrower m e e' r :
  consistent m → e ∈ m → e' ∈ m → e ≠ e' →
  is_Some (matches e.1 r) → is_Some (matches e'.1 r) → covers e.1 e'.1 = negb (covers e'.1 e.1).
Proof.
  intros Hm He He' Hne Hr Hr'. induction m as [|x m IH]; [by apply not_elem_of_nil in He|].
  destruct Hm as [Hx Hm]. rewrite Forall_forall in Hx.
  assert (∀ a b : pattern * H, is_Some (matches a.1 r) → is_Some (matches b.1 r) →
    conflicts a.1 b.1 = false → covers a.1 b.1 = negb (covers b.1 a.1)) as Hab.
  { intros a b Ha Hb. unfold conflicts. rewrite (matches_meet _ _ _ Ha Hb). cbn.
    by destruct (covers a.1 b.1), (covers b.1 a.1). }
  apply elem_of_cons in He as [-> |He], He' as [-> |He'].
  - done.
  - by rewrite (Hab e' x Hr' Hr (Hx _ He')), negb_involutive.
  - by apply Hab, Hx.
  - by apply IH.
Qed.

Definition most_specific m r e : Prop :=
  e ∈ m ∧ is_Some (matches e.1 r) ∧ ∀ e', e' ∈ m → is_Some (matches e'.1 r) → covers e'.1 e.1 = true.

Lemma most_specific_one m r e e' :
  consistent m → most_specific m r e → most_specific m r e' → e = e'.
Proof.
  intros Hm (He & Hr & Hc) (He' & Hr' & Hc'). destruct (decide (e = e')) as [|Hne]; [done|].
  pose proof (one_narrower m e e' r Hm He He' Hne Hr Hr') as Hx.
  by rewrite (Hc' e He Hr), (Hc e' He' Hr') in Hx.
Qed.

Lemma most_specific_ex m r :
  consistent m → (∃ e, e ∈ m ∧ is_Some (matches e.1 r)) → ∃ e, most_specific m r e.
Proof.
  intros Hm Hex. induction m as [|x m IH]; [by destruct Hex as (? & ?%not_elem_of_nil & _)|].
  destruct (decide (Exists (fun e => is_Some (matches e.1 r)) m)) as [Hin%Exists_exists|Hno].
  - destruct Hm as [Hx Hm]. destruct (IH Hm Hin) as (b & Hb & Hbr & Hbc).
    destruct (decide (is_Some (matches x.1 r))) as [Hxr|Hxr].
    + rewrite Forall_forall in Hx. pose proof (Hx b Hb) as Hc. unfold conflicts in Hc.
      rewrite (matches_meet _ _ _ Hbr Hxr) in Hc. cbn in Hc.
      destruct (covers b.1 x.1) eqn:Ebx.
      * exists x. split; [by left|]. split; [done|]. intros e' [-> |He']%elem_of_cons Hr'; [apply covers_refl|].
        eapply covers_trans; [by apply Hbc|done].
      * exists b. split; [by right|]. split; [done|]. intros e' [-> |He']%elem_of_cons Hr'; [|by apply Hbc].
        by destruct (covers x.1 b.1).
    + exists b. split; [by right|]. split; [done|]. by intros e' [-> |He']%elem_of_cons Hr'; [|apply Hbc].
  - rewrite Exists_exists in Hno. destruct Hex as (e0 & [-> |He0]%elem_of_cons & Hr0); [|by destruct Hno; exists e0].
    exists x. split; [by left|]. split; [done|]. intros e' [-> |He']%elem_of_cons Hr'; [apply covers_refl|].
    by destruct Hno; exists e'.
Qed.

Lemma best_most_specific m r e : consistent m → best m r = Some e ↔ most_specific m r e.
Proof.
  intros Hm. unfold best, most_specific.
  assert (∀ e, bool_decide (is_Some (matches e.1 r))
      && forallb (fun e' => negb (bool_decide (is_Some (matches e'.1 r))) || covers e'.1 e.1) m = true
    ↔ is_Some (matches e.1 r) ∧ ∀ e', e' ∈ m → is_Some (matches e'.1 r) → covers e'.1 e.1 = true) as Ht.
  { intros x. rewrite andb_true_iff, bool_decide_eq_true, forallb_forall.
    setoid_rewrite orb_true_iff. setoid_rewrite negb_true_iff. setoid_rewrite bool_decide_eq_false.
    setoid_rewrite <- list_elem_of_In. split; intros [H1 H2]; (split; [done|]); intros e' He'.
    - intros Hr. by destruct (H2 e' He').
    - destruct (decide (is_Some (matches e'.1 r))); [right; by apply H2|by left]. }
  split.
  - intros [Hin%list_elem_of_In Hp]%find_some. split; [done|]. by apply Ht.
  - intros (He & Hr & Hc). destruct (List.find _ m) as [e'|] eqn:E.
    + apply find_some in E as [Hin%list_elem_of_In Hp]. apply Ht in Hp. f_equal.
      apply (most_specific_one m r); [done|by split|by split].
    + eapply find_none in E; [|by apply list_elem_of_In]. by rewrite (proj2 (Ht e)) in E.
Qed.

(** A pattern is best where no narrower one matches. *)
Lemma best_unless m r e :
  consistent m → e ∈ m → is_Some (matches e.1 r) →
  (∀ e', e' ∈ m → covers e.1 e'.1 = true → is_Some (matches e'.1 r) → e' = e) → best m r = Some e.
Proof.
  intros Hm He Hr Hn. apply best_most_specific; [done|]. split; [done|]. split; [done|].
  intros e' He' Hr'. destruct (decide (e = e')) as [-> |Hne]; [apply covers_refl|].
  destruct (covers e'.1 e.1) eqn:E; [done|]. pose proof (one_narrower m e e' r Hm He He' Hne Hr Hr') as Hx.
  rewrite E in Hx. by rewrite (Hn e' He' Hx Hr') in Hne.
Qed.
End Best.

(** ** The driver's routes *)

(** A handler, by the name of its method. *)
Inductive handler :=
| HHealthz | HVersion | HFsDirs | HFsDevices | HFsMount | HClusterList | HClusterDetail
| HClusterSave | HClusterDelete | HClusterDownloadZip | HClusterDownloadSnapshot | HNoEndpoint
| HMachineList | HMachineCreate | HMachineGet | HMachineUpdate | HMachineDelete | HMachineFetch
| HMachineAssign | HMachineUnassign | HMachineInventoryReport | HMachineImportFile
| HMachineImportTemplate | HDeployPlan | HDeployStart | HDeployStatus | HDeployCancel
| HDeployRelease | HDeployCheckin | HDeployReport | HDeployPreflightCheckin | HDeployPreflightReport
| HDeployGreenlight | HDeployRestoreDone | HDeployApplyStarted | HDeployWaitMaster
| HDeployAgentBinary | HDeployAgentBinarySHA | HDeployApplyFailed | HDeployApplied | HDeployReady
| HDeploySubmitSetReady | HDeployGetSetReady | HDeployRekickPreflight | HDeployAdvanceStep
| HDeployStartInspect | HDeployPxeImages | HDeployInspectStatus | HEntArtifacts | HEntGetDir
| HEntMatrix | HEntSetDir | HEntInstalls | HEntStepStats | HEntClusterInfo | HEntStart
| HEntUninstall | HEntStatus | HEntNext | HEntCancel | HWebui.

#[export] Instance handler_eq : EqDecision handler.
Proof. solve_decision. Defined.

(** [newHandler], server.go *)
Definition server_routes : list (string * handler) :=
  [("GET /healthz", HHealthz);
   ("GET /api/v1/version", HVersion);
   ("GET /api/v1/fs/dirs", HFsDirs);
   ("GET /api/v1/fs/devices", HFsDevices);
   ("POST /api/v1/fs/mount", HFsMount)].

(** [handlers.register], handlers.go: unknown paths of the API do not reach the browser application *)
Definition cluster_routes : list (string * handler) :=
  [("GET /api/v1/clusters", HClusterList);
   ("GET /api/v1/clusters/{id}", HClusterDetail);
   ("PUT /api/v1/clusters/{id}", HClusterSave);
   ("DELETE /api/v1/clusters/{id}", HClusterDelete);
   ("GET /api/v1/clusters/{id}/download", HClusterDownloadZip);
   ("GET /api/v1/clusters/{id}/nodes/{hostname}/download", HClusterDownloadSnapshot);
   ("/api/", HNoEndpoint)].

(** [machineHandlers.register], machines.go *)
Definition machine_routes : list (string * handler) :=
  [("GET /api/v1/machines", HMachineList);
   ("POST /api/v1/machines", HMachineCreate);
   ("GET /api/v1/machines/{id}", HMachineGet);
   ("PUT /api/v1/machines/{id}", HMachineUpdate);
   ("DELETE /api/v1/machines/{id}", HMachineDelete);
   ("POST /api/v1/machines/{id}/fetch", HMachineFetch);
   ("PUT /api/v1/machines/{id}/assignment", HMachineAssign);
   ("DELETE /api/v1/machines/{id}/assignment", HMachineUnassign);
   ("POST /api/v1/machines/inventory-report", HMachineInventoryReport);
   ("POST /api/v1/machines/import", HMachineImportFile);
   ("GET /api/v1/machines/import/template", HMachineImportTemplate)].

(** [deployHandlers.register], deploy.go *)
Definition deploy_routes : list (string * handler) :=
  [("GET /api/v1/clusters/{id}/deploy/plan", HDeployPlan);
   ("POST /api/v1/clusters/{id}/deploy", HDeployStart);
   ("GET /api/v1/clusters/{id}/deploy", HDeployStatus);
   ("POST /api/v1/clusters/{id}/deploy/cancel", HDeployCancel);
   ("POST /api/v1/clusters/{id}/deploy/release/{hostname}", HDeployRelease);
   ("POST /api/v1/agents/checkin", HDeployCheckin);
   ("POST /api/v1/agents/report", HDeployReport);
   ("POST /api/v1/agents/preflight/checkin", HDeployPreflightCheckin);
   ("POST /api/v1/agents/preflight/report", HDeployPreflightReport);
   ("POST /api/v1/agents/preflight/greenlight", HDeployGreenlight);
   ("POST /api/v1/agents/restore-done", HDeployRestoreDone);
   ("POST /api/v1/agents/apply-started", HDeployApplyStarted);
   ("POST /api/v1/agents/wait-master", HDeployWaitMaster);
   ("GET /api/v1/agents/binary", HDeployAgentBinary);
   ("GET /api/v1/agents/binary.sha256", HDeployAgentBinarySHA);
   ("POST /api/v1/agents/apply-failed", HDeployApplyFailed);
   ("POST /api/v1/agents/applied", HDeployApplied);
   ("POST /api/v1/agents/ready", HDeployReady);
   ("POST /api/v1/clusters/{id}/set-ready", HDeploySubmitSetReady);
   ("GET /api/v1/clusters/{id}/set-ready", HDeployGetSetReady);
   ("POST /api/v1/clusters/{id}/deploy/preflight/rekick/{hostname}", HDeployRekickPreflight);
   ("POST /api/v1/clusters/{id}/deploy/step/next", HDeployAdvanceStep);
   ("POST /api/v1/machines/inspect", HDeployStartInspect);
   ("GET /api/v1/pxe/images", HDeployPxeImages);
   ("GET /api/v1/machines/inspect", HDeployInspectStatus)].

(** [enterpriseHandlers.register], enterprise.go *)
Definition ent_routes : list (string * handler) :=
  [("GET /api/v1/enterprise/artifacts", HEntArtifacts);
   ("GET /api/v1/enterprise/dir", HEntGetDir);
   ("GET /api/v1/enterprise/matrix", HEntMatrix);
   ("PUT /api/v1/enterprise/dir", HEntSetDir);
   ("GET /api/v1/enterprise/installs", HEntInstalls);
   ("GET /api/v1/enterprise/step-stats", HEntStepStats);
   ("POST /api/v1/clusters/{id}/enterprise/cluster-info", HEntClusterInfo);
   ("POST /api/v1/clusters/{id}/enterprise/install", HEntStart);
   ("POST /api/v1/clusters/{id}/enterprise/uninstall", HEntUninstall);
   ("GET /api/v1/clusters/{id}/enterprise/install", HEntStatus);
   ("POST /api/v1/clusters/{id}/enterprise/install/step/next", HEntNext);
   ("POST /api/v1/clusters/{id}/enterprise/install/cancel", HEntCancel)].

(** The order in which [newHandler] registers them. *)
Definition routes : list (string * handler) :=
  server_routes ++ cluster_routes ++ machine_routes ++ deploy_routes ++ ent_routes ++ [("/", HWebui)].

(** The mux [newHandler] answers with, if no registration panics. *)
Definition driver_mux : option (mux handler) := register routes [].

Definition driver_table : mux handler := default [] driver_mux.

Lemma driver_mux_ok : driver_mux = Some driver_table.
Proof.
  unfold driver_table. destruct driver_mux eqn:E; [done|].
  assert (bool_decide (is_Some driver_mux) = true) as Hs by by vm_compute.
  by rewrite E in Hs.
Qed.

Lemma driver_consistent : consistent driver_table.
Proof. eapply (register_consistent routes []); [done|]. apply driver_mux_ok. Qed.

(** A request has a path that begins with a slash: at least one element or the slash. *)
Definition proper (r : request) : Prop := r.(rq_segs) = [] → r.(rq_slash) = true.

Definition web_pattern : pattern := mkPattern None [] true.
Definition api_pattern : pattern := mkPattern None [Lit "api"] true.

(** ** Who answers *)

#[local] Arguments String.eqb : simpl never.

Definition under_api (r : request) : Prop :=
  ∃ rest, r.(rq_segs) = "api" :: rest ∧ (rest ≠ [] ∨ r.(rq_slash) = true).

Lemma api_matches r : is_Some (matches api_pattern r) ↔ under_api r.
Proof.
  unfold matches, under_api, api_pattern. destruct r as [m ss sl]. cbn.
  destruct ss as [|s ss]; cbn; [split; [by intros [? ?]|by intros (? & ? & _)]|].
  destruct (String.eqb_spec "api" s) as [<- |Hne].
  - destruct ss as [|s' ss]; cbn; [|split; [intros _; exists (s' :: ss); by split; [|left]|done]].
    destruct sl; cbn; [split; [intros _; exists []; by split; [|right]|done]|].
    split; [by intros [? ?]|]. by intros (rest & [= <-] & [?|?]).
  - split; [by intros [? ?]|]. by intros (rest & [= -> _] & _).
Qed.

Lemma web_matches r : proper r → is_Some (matches web_pattern r).
Proof. unfold matches, proper. destruct r as [m [|s ss] sl]; cbn; [intros ->|]; done. Qed.

Lemma in_table p h : bool_decide ((p, h) ∈ driver_table) = true → (p, h) ∈ driver_table.
Proof. apply bool_decide_eq_true. Qed.

Lemma table_all (f : pattern * handler → bool) e :
  forallb f driver_table = true → e ∈ driver_table → f e = true.
Proof. intros Hf He. rewrite forallb_forall in Hf. by apply Hf, list_elem_of_In. Qed.

Lemma table_best r : proper r → ∃ e, best driver_table r = Some e.
Proof.
  intros Hr. destruct (most_specific_ex driver_table r driver_consistent) as [e He].
  - exists (web_pattern, HWebui). split; [by apply in_table; vm_compute|by apply web_matches].
  - exists e. by apply best_most_specific; [apply driver_consistent|].
Qed.

(** What the patterns of the table look like, by handler. *)
Definition shape (e : pattern * handler) : bool :=
  match e.2 with
  | HWebui => bool_decide (e.1 = web_pattern)
  | HHealthz => bool_decide (e.1 = mkPattern (Some "GET") [Lit "healthz"] false)
  | _ => covers api_pattern e.1
  end.

Lemma table_shape e : e ∈ driver_table → shape e = true.
Proof. apply table_all. vm_compute. reflexivity. Qed.

Lemma table_multi e : e ∈ driver_table → e.1.(p_multi) = true → e.1 = web_pattern ∨ e.1 = api_pattern.
Proof.
  intros He Hm. apply (table_all (fun e => negb e.1.(p_multi) || bool_decide (e.1 = web_pattern ∨ e.1 = api_pattern))) in He;
    [|vm_compute; reflexivity].
  rewrite Hm in He. by apply bool_decide_eq_true in He.
Qed.

Lemma healthz_only r :
  is_Some (matches (mkPattern (Some "GET") [Lit "healthz"] false) r) → r.(rq_segs) = ["healthz"].
Proof.
  unfold matches. destruct (method_fits _ _); [|by intros [? ?]].
  destruct r as [m [|s [|s' ss]] sl]; cbn; try (by intros [? ?]);
    destruct (String.eqb_spec "healthz" s) as [<- |]; try (by intros [? ?]); done.
Qed.

Lemma redirected_only r : proper r → r.(rq_slash) = false →
  exactMatch (best driver_table (with_slash r)) (with_slash r) = true → r.(rq_segs) = ["api"].
Proof.
  intros Hr Hsl. destruct (best driver_table (with_slash r)) as [[p h]|] eqn:Hb; [|done].
  apply best_most_specific in Hb as (Hin & Hm & _); [|apply driver_consistent]. cbn.
  destruct (p_multi p) eqn:Hp; cbn.
  - intros Hl%Nat.eqb_eq. destruct (table_multi _ Hin Hp) as [Ha|Ha]; cbn in Ha; subst p; cbn in Hl.
    + destruct (rq_segs r) eqn:E; [|done]. by rewrite (Hr E) in Hsl.
    + apply api_matches in Hm as (rest & Hs & _). cbn in Hs. rewrite Hs in Hl |- *.
      by destruct rest.
  - intros _. exfalso. destruct p as [pm ps pl]. cbn in Hp. subst pl. unfold matches in Hm. cbn in Hm.
    destruct (method_fits _ _); [|by destruct Hm]. revert Hm. clear Hin. generalize (rq_segs r).
    induction ps as [|[l|n] ps IH]; intros [|s ss]; cbn; try (by intros [? ?]).
    + destruct (l =? s)%string; [exact (IH ss)|by intros [? ?]].
    + intros Hm%fmap_is_Some. by apply (IH ss).
Qed.

(** C13. The server comes up with all its routes and answers every request:
    no two patterns conflict, so that registering them does not panic; each
    request has exactly one most specific handler, or is the API's root without
    its slash and redirected; and no request to the API falls through to the
    browser application, known or not. *)
Theorem every_request_handled :
  driver_mux = Some driver_table
  ∧ ∀ r, proper r →
    match serve driver_table r with
    | Handled HWebui _ => ¬ under_api r
    | Handled HHealthz _ => r.(rq_segs) = ["healthz"]
    | Handled _ _ => under_api r
    | Redirected => r.(rq_segs) = ["api"]
    | NotFound => False
    end.
Proof.
  split; [apply driver_mux_ok|]. intros r Hr.
  destruct (table_best r Hr) as [[p h] Hb]. unfold serve.
  destruct (negb (exactMatch (best driver_table r) r) && negb (rq_slash r)
    && exactMatch (best driver_table (with_slash r)) (with_slash r)) eqn:Er.
  - apply andb_true_iff in Er as [[_ Hsl%negb_true_iff]%andb_true_iff He]. by apply redirected_only.
  - rewrite Hb. apply best_most_specific in Hb as (Hin & Hm & Hc); [|apply driver_consistent].
    pose proof (table_shape _ Hin) as Hsh. cbn [fst] in Hm.
    assert (covers api_pattern p = true → under_api r) as Hapi.
    { intros Hcov. apply api_matches. by apply (covers_matches _ p). }
    destruct h; try (by apply Hapi, Hsh); unfold shape in Hsh; cbn [fst snd] in Hsh;
      apply bool_decide_eq_true in Hsh; subst p; [by apply healthz_only|].
    intros Hu%api_matches. specialize (Hc (api_pattern, HNoEndpoint)).
    by assert (covers api_pattern web_pattern = true) by (apply Hc; [apply in_table; by vm_compute|done]).
Qed.

(** ** A route is reached by its own address *)

Fixpoint fill_segs (ps : list seg) (vs : list string) : list string :=
  match ps, vs with
  | [], _ => []
  | Lit l :: ps, _ => l :: fill_segs ps vs
  | Wild _ :: ps, v :: vs => v :: fill_segs ps vs
  | Wild _ :: ps, [] => []
  end.

Definition wilds (ps : list seg) : list string :=
  omap (fun s => match s with Wild n => Some n | Lit _ => None end) ps.

(** The request for a pattern with values for its wildcards. *)
Definition fill (p : pattern) (vs : list string) : request :=
  mkRequest (default "GET" p.(p_method)) (fill_segs p.(p_segs) vs) false.

Lemma fill_matches p vs :
  p.(p_multi) = false → length vs = length (wilds p.(p_segs)) →
  matches p (fill p vs) = Some (zip (wilds p.(p_segs)) vs).
Proof.
  destruct p as [pm ps multi]. cbn. intros -> Hl. unfold matches. cbn.
  assert (method_fits pm (default "GET" pm) = true) as ->.
  { destruct pm; cbn; [by rewrite String.eqb_refl|done]. }
  revert vs Hl. induction ps as [|[l|n] ps IH]; intros vs; cbn.
  - by destruct vs.
  - intros Hl. rewrite String.eqb_refl. by apply IH.
  - destruct vs as [|v vs]; [done|]. intros [= Hl]. cbn. by rewrite (IH vs Hl).
Qed.

(** [HandleFunc] puts what it reads at the front. *)
Lemma register_mono {H} l (m m' : mux H) e : register l m = Some m' → e ∈ m → e ∈ m'.
Proof.
  revert m. induction l as [|[s h] l IH]; intros m; cbn; [by intros [= ->]|].
  destruct (HandleFunc s h m) as [m1|] eqn:Hh; [|done]. cbn. intros Hr He. apply (IH m1 Hr).
  unfold HandleFunc in Hh. destruct (parsePattern s) as [p|]; [|done]. cbn in Hh.
  destruct (existsb _ m); [done|]. injection Hh as <-. by right.
Qed.

Lemma registered {H} l (m m' : mux H) s h :
  register l m = Some m' → (s, h) ∈ l → ∃ p, parsePattern s = Some p ∧ (p, h) ∈ m'.
Proof.
  revert m. induction l as [|[s' h'] l IH]; intros m; cbn; [by intros _ ?%not_elem_of_nil|].
  destruct (HandleFunc s' h' m) as [m1|] eqn:Hh; [|done]. cbn.
  intros Hr [[= -> ->]|Hin]%elem_of_cons; [|by apply (IH m1)].
  unfold HandleFunc in Hh. destruct (parsePattern s') as [p|]; [|done]. cbn in Hh.
  destruct (existsb _ m); [done|]. injection Hh as <-. exists p. split; [done|].
  eapply register_mono; [done|by left].
Qed.

(** Patterns of the table that another is narrower than: the subtrees and one. *)
Definition narrowed (e : pattern * handler) : bool :=
  existsb (fun e' => covers e.1 e'.1 && negb (bool_decide (e' = e))) driver_table.

Definition inspect_pattern : pattern :=
  mkPattern (Some "GET") [Lit "api"; Lit "v1"; Lit "machines"; Lit "inspect"] false.
Definition get_pattern : pattern :=
  mkPattern (Some "GET") [Lit "api"; Lit "v1"; Lit "machines"; Wild "id"] false.

Lemma table_narrowed e :
  e ∈ driver_table → e.1.(p_multi) = false →
  ∀ e', e' ∈ driver_table → covers e.1 e'.1 = true → e' = e
    ∨ (e = (get_pattern, HMachineGet) ∧ e' = (inspect_pattern, HDeployInspectStatus)).
Proof.
  intros He Hm e' He' Hc.
  assert (forallb (fun e => e.1.(p_multi) || forallb (fun e' => negb (covers e.1 e'.1) || bool_decide (e' = e)
    || bool_decide (e = (get_pattern, HMachineGet) ∧ e' = (inspect_pattern, HDeployInspectStatus))) driver_table)
    driver_table = true) as Hall by (vm_compute; reflexivity).
  pose proof (table_all _ _ Hall He) as Hf. cbn in Hf. rewrite Hm in Hf.
  pose proof (table_all _ _ Hf He') as Hg. cbn in Hg. rewrite Hc in Hg. cbn in Hg.
  apply orb_true_iff in Hg as [?%bool_decide_eq_true|?%bool_decide_eq_true]; auto.
Qed.

Lemma route_serves s h p vs :
  (s, h) ∈ routes → parsePattern s = Some p → p.(p_multi) = false →
  length vs = length (wilds p.(p_segs)) → ¬ (h = HMachineGet ∧ vs = ["inspect"]) →
  serve driver_table (fill p vs) = Handled h (zip (wilds p.(p_segs)) vs).
Proof.
  intros Hin Hp Hm Hl Hx. destruct (registered _ _ _ _ _ driver_mux_ok Hin) as (p' & Hp' & He).
  rewrite Hp in Hp'. injection Hp' as <-. pose proof (fill_matches p vs Hm Hl) as Hf.
  assert (best driver_table (fill p vs) = Some (p, h)) as Hb.
  { apply best_unless; [apply driver_consistent|done|by exists (zip (wilds (p_segs p)) vs)|].
    intros e' He' Hc Hr. destruct (table_narrowed _ He Hm e' He' Hc) as [|[[= -> ->] ->]]; [done|].
    exfalso. destruct vs as [|v [|]]; try done. cbn in Hr. unfold matches in Hr. cbn in Hr.
    destruct (String.eqb_spec "inspect" v) as [<- |]; [by apply Hx|by destruct Hr]. }
  unfold serve. rewrite Hb. cbn [exactMatch]. rewrite Hm. cbn. by rewrite Hf.
Qed.

(** Every handler is reached by the address its route spells: filling the
    wildcards of a registered pattern with any elements gives a
    request that goes to that route's handler with exactly those values;
    the one exception is the machine whose id is the word inspect, whose
    address is the status of the inspects. *)
Theorem route_reached s h p vs :
  (s, h) ∈ routes → parsePattern s = Some p → p.(p_multi) = false →
  length vs = length (wilds p.(p_segs)) →
  serve driver_table (fill p vs)
  = if bool_decide (h = HMachineGet ∧ vs = ["inspect"]) then Handled HDeployInspectStatus []
    else Handled h (zip (wilds p.(p_segs)) vs).
Proof.
  intros Hin Hp Hm Hl. case_bool_decide as Hx; [|by apply (route_serves s)].
  destruct Hx as [-> ->]. assert (p = get_pattern) as ->; [|vm_compute; reflexivity].
  destruct (registered _ _ _ _ _ driver_mux_ok Hin) as (p' & Hp' & He).
  rewrite Hp in Hp'. injection Hp' as <-.
  apply (table_all (fun e => negb (bool_decide (e.2 = HMachineGet)) || bool_decide (e.1 = get_pattern))) in He;
    [|vm_compute; reflexivity]. cbn in He. by apply bool_decide_eq_true in He.
Qed.

Lemma route_reached_witness :
  serve driver_table (mkRequest "POST" ["api"; "v1"; "clusters"; "c1"; "deploy"; "release"; "node-2"] false)
  = Handled HDeployRelease [("id", "c1"); ("hostname", "node-2")].
Proof.
  apply (route_reached "POST /api/v1/clusters/{id}/deploy/release/{hostname}" HDeployRelease
    (mkPattern (Some "POST") [Lit "api"; Lit "v1"; Lit "clusters"; Wild "id"; Lit "deploy"; Lit "release"; Wild "hostname"] false)
    ["c1"; "node-2"]).
  - apply (bool_decide_eq_true_1 (("POST /api/v1/clusters/{id}/deploy/release/{hostname}", HDeployRelease) ∈ routes)).
    vm_compute. reflexivity.
  - vm_compute. reflexivity.
  - reflexivity.
  - reflexivity.
Defined.

(** A registered route serves its address, in the form agents spell it. *)
Lemma address_served s h p vs x es :
  bool_decide ((s, h) ∈ routes) = true → parsePattern s = Some p → p.(p_multi) = false →
  length vs = length (wilds p.(p_segs)) → h ≠ HMachineGet →
  fill_segs p.(p_segs) vs = es ++ [x] → Forall (free_of "/") (es ++ [x]) → x ≠ "" →
  serve driver_table <$> ('(es, slash) ← path_elems (Join ("" :: es ++ [x]) "/");
                          Some (mkRequest (default "GET" p.(p_method)) es slash))
  = Some (Handled h (zip (wilds p.(p_segs)) vs)).
Proof.
  intros Hin%bool_decide_eq_true Hp Hm Hl Hh Hs Hf Hx.
  assert (path_elems (Join ("" :: es ++ [x]) "/") = Some (es ++ [x], false)) as ->.
  { unfold path_elems. rewrite Split_Join by (try done; by constructor). rewrite rev_app_distr. by destruct x. }
  cbn. f_equal. rewrite <- Hs. apply (route_serves s h p vs); try done. by intros [? _].
Qed.

(** ** The agents find the driver's handlers *)

(** A request for a path of a URL. *)
Definition request_for (method path : string) : option request :=
  '(es, slash) ← path_elems path; Some (mkRequest method es slash).

(** What cmd/phone-home-agent and internal/agent send, by method and path. *)
Definition agent_calls : list (string * string * handler) :=
  [("POST", "/api/v1/agents/checkin", HDeployCheckin);
   ("POST", "/api/v1/agents/report", HDeployReport);
   ("POST", "/api/v1/agents/preflight/checkin", HDeployPreflightCheckin);
   ("POST", "/api/v1/agents/preflight/report", HDeployPreflightReport);
   ("POST", "/api/v1/agents/preflight/greenlight", HDeployGreenlight);
   ("POST", "/api/v1/agents/restore-done", HDeployRestoreDone);
   ("POST", "/api/v1/agents/apply-started", HDeployApplyStarted);
   ("POST", "/api/v1/agents/apply-failed", HDeployApplyFailed);
   ("POST", "/api/v1/agents/applied", HDeployApplied);
   ("POST", "/api/v1/agents/ready", HDeployReady);
   ("POST", "/api/v1/machines/inventory-report", HMachineInventoryReport)].

Definition answered_by (method path : string) (h : handler) (vs : list (string * string)) : Prop :=
  serve driver_table <$> request_for method path = Some (Handled h vs).

(** C14. The two programs agree on addresses: every call the agents make,
    with the method they make it with, reaches the handler that is meant for it;
    and for a cluster id and a hostname that the API takes in an address
    (pathValue), the address of the snapshot that a check-in hands out is served by
    the download of that node of that cluster, and the one the agent builds for
    the operator's set_ready parameters by the cluster's set-ready.  (A definition may
    name a host otherwise, and then the address it hands out is refused:
    refused_hostname of ClusterApi.v, a finding.) *)
Theorem agents_served :
  (∀ m p h, (m, p, h) ∈ agent_calls → answered_by m p h [])
  ∧ ∀ wt cid host, pathValue cid = true → pathValue host = true →
    (∃ path, snapshot_url wt cid host
               = (if wt.(wt_TLS) then "https://" else "http://") +:+ wt.(wt_Host) +:+ path
       ∧ answered_by "GET" path HClusterDownloadSnapshot [("id", cid); ("hostname", host)])
    ∧ answered_by "GET" ("/api/v1/clusters/" +:+ cid +:+ "/set-ready") HDeployGetSetReady [("id", cid)].
Proof.
  split.
  - intros m p h Hin. unfold answered_by.
    assert (forallb (fun c => bool_decide (serve driver_table <$> request_for c.1.1 c.1.2 = Some (Handled c.2 [])))
      agent_calls = true) as Hall by (vm_compute; reflexivity).
    rewrite forallb_forall in Hall. apply list_elem_of_In in Hin. apply Hall in Hin.
    by apply bool_decide_eq_true in Hin.
  - intros wt cid host Hc%pathValue_free Hh%pathValue_free. split.
    + exists ("/api/v1/clusters/" +:+ cid +:+ "/nodes/" +:+ host +:+ "/download"). split; [done|].
      apply (address_served "GET /api/v1/clusters/{id}/nodes/{hostname}/download" HClusterDownloadSnapshot
        (mkPattern (Some "GET") [Lit "api"; Lit "v1"; Lit "clusters"; Wild "id"; Lit "nodes"; Wild "hostname"; Lit "download"] false)
        [cid; host] "download" ["api"; "v1"; "clusters"; cid; "nodes"; host]);
        try reflexivity; try done; repeat constructor; done.
    + apply (address_served "GET /api/v1/clusters/{id}/set-ready" HDeployGetSetReady
        (mkPattern (Some "GET") [Lit "api"; Lit "v1"; Lit "clusters"; Wild "id"; Lit "set-ready"] false)
        [cid] "set-ready" ["api"; "v1"; "clusters"; cid]);
        try reflexivity; try done; repeat constructor; done.
Qed.

Lemma agents_served_witness :
  answered_by "POST" "/api/v1/agents/ready" HDeployReady []
  ∧ answered_by "GET" "/api/v1/clusters/lab-1/set-ready" HDeployGetSetReady [("id", "lab-1")].
Proof.
  split.
  - apply (proj1 agents_served). apply (bool_decide_eq_true_1 (("POST", "/api/v1/agents/ready", HDeployReady) ∈ agent_calls)).
    vm_compute. reflexivity.
  - refine (proj2 (proj2 agents_served (mkWhereTo "10.0.0.5:3001" false) "lab-1" "node-1" _ _)); reflexivity.
Defined.

Lemma every_request_handled_witness :
  under_api (mkRequest "GET" ["api"; "v1"; "nothing"] false)
  ∧ serve driver_table (mkRequest "GET" ["api"; "v1"; "nothing"] false) = Handled HNoEndpoint [].
Proof.
  assert (serve driver_table (mkRequest "GET" ["api"; "v1"; "nothing"] false) = Handled HNoEndpoint []) as H
    by (vm_compute; reflexivity).
  split; [|exact H].
  pose proof (proj2 every_request_handled (mkRequest "GET" ["api"; "v1"; "nothing"] false) ltac:(discriminate)) as Hr.
  rewrite H in Hr. exact Hr.
Defined.

(** ** What [newHandler] settles *)

Record ServerConfig : Type := mkConfig {
  cf_Version : string;
  cf_DataDir : string;
  cf_ExportDir : string;
  cf_EnterpriseDir : string;
  cf_SecretKey : string;
  cf_SecretKeyFile : string;
  cf_Advertise : string;
  cf_PXERoot : string;
  cf_AgentBinPath : string;
  cf_Discoverer : bool;        (** overridden *)
  cf_DeployExecutor : bool
}.

(** The parts, as far as settings reach them. *)
Record Wiring : Type := mkWiring {
  wr_clusters : string * string;   (** data and export directories *)
  wr_machines : string;
  wr_deploys : string;
  wr_installs : string;
  wr_realHW : bool;            (** the IPMI executor, SEL observer and gate writer *)
  wr_manualGate : bool;
  wr_advertise : option (list Z * Z);
  wr_flipper : option string;
  wr_version : string;
  wr_agentBin : string;
  wr_discoverer : bool;        (** the real one *)
  wr_entDir : string
}.

Section NewHandler.
Context (secret_load : string → string → result unit) (MkdirAll : string → result unit).
Context (Getenv : string → string) (Executable : result string) (Stat : string → result unit).

(** An empty path where there is no agent to serve. *)
Definition agent_bin (cfg : ServerConfig) : string :=
  let bin := if is_empty cfg.(cf_AgentBinPath) then
               match Executable with Ok exe => PathJoin [parent_dir exe; "phone-home-agent"] | Err _ => "" end
             else cfg.(cf_AgentBinPath) in
  if is_empty bin then bin
  else match Stat bin with Err _ => "" | Ok _ => bin end.

Definition newHandler (cfg : ServerConfig) : result Wiring :=
  let keyFile := if is_empty cfg.(cf_SecretKeyFile) then PathJoin [cfg.(cf_DataDir); ".secret-key"]
                 else cfg.(cf_SecretKeyFile) in
  let? _ := secret_load cfg.(cf_SecretKey) keyFile in
  let machines := PathJoin [cfg.(cf_DataDir); "machines"] in
  let? _ := MkdirAll machines in
  let realHW := negb cfg.(cf_DeployExecutor) in
  let deploys := PathJoin [cfg.(cf_DataDir); "deploys"] in
  let? _ := MkdirAll deploys in
  let? advertise := if is_empty cfg.(cf_Advertise) then Ok None
                    else match ParseAdvertise cfg.(cf_Advertise) with
                         | Err e => Err ("advertise " +:+ Quote cfg.(cf_Advertise) +:+ ": " +:+ e)
                         | Ok a => Ok (Some a)
                         end in
  let installs := PathJoin [cfg.(cf_DataDir); "installs"] in
  let? _ := MkdirAll installs in
  let entSeed := if is_empty cfg.(cf_EnterpriseDir) then PathJoin [cfg.(cf_DataDir); "enterprise"]
                 else cfg.(cf_EnterpriseDir) in
  Ok (mkWiring (cfg.(cf_DataDir), cfg.(cf_ExportDir)) machines deploys installs realHW (realHW && (Getenv "MANUAL_GATE" =? "1")%string) advertise
        (if is_empty cfg.(cf_PXERoot) then None else Some cfg.(cf_PXERoot))
        (if is_empty cfg.(cf_Version) then "dev" else cfg.(cf_Version))
        (agent_bin cfg) (negb cfg.(cf_Discoverer)) entSeed).

(** [flag.String(name, envOr(key, def))]. *)
Definition envOr (key def : string) : string :=
  let v := Getenv key in if is_empty v then def else v.

Context (given : string → option string) (simulated : option bool).

Definition flag (name key def : string) : string := default (envOr key def) (given name).

(** [main] of cube-cos-driver up to the listener; an error is fatal. *)
Definition driver_main (version : string) : result Wiring :=
  let dataDir := flag "data-dir" "DATA_DIR" "./storage/snapshot" in
  let exportDir := flag "export-dir" "EXPORT_DIR" "" in
  let simulate := default (negb (is_empty (envOr "SIMULATE" ""))) simulated in
  let? _ := match MkdirAll dataDir with Err e => Err ("data dir: " +:+ e) | Ok _ => Ok tt end in
  let? _ := if is_empty exportDir then Ok tt
            else match MkdirAll exportDir with Err e => Err ("export dir: " +:+ e) | Ok _ => Ok tt end in
  let cfg := mkConfig version dataDir exportDir (flag "enterprise-dir" "ENTERPRISE_DIR" "")
               (Getenv "SNAPSHOT_SECRET_KEY") (flag "secret-key-file" "SECRET_KEY_FILE" "")
               (flag "advertise" "ADVERTISE" "") (flag "pxe-root" "PXE_ROOT" "")
               (flag "agent-binary" "AGENT_BINARY" "") simulate simulate in
  match newHandler cfg with Err e => Err ("init: " +:+ e) | Ok w => Ok w end.

(** A simulated driver touches no hardware, not even a gate by hand; a driver
    that comes up has read its advertised address whole. *)
Lemma driver_main_wiring version w :
  driver_main version = Ok w →
  w.(wr_realHW) = negb (default (negb (is_empty (envOr "SIMULATE" ""))) simulated)
  ∧ w.(wr_discoverer) = w.(wr_realHW)
  ∧ (w.(wr_manualGate) = true → w.(wr_realHW) = true)
  ∧ (flag "advertise" "ADVERTISE" "" = "" ∧ w.(wr_advertise) = None
     ∨ ∃ a, ParseAdvertise (flag "advertise" "ADVERTISE" "") = Ok a ∧ w.(wr_advertise) = Some a).
Proof.
  unfold driver_main, newHandler. cbn [cf_SecretKeyFile cf_SecretKey cf_DataDir cf_DeployExecutor cf_Discoverer cf_Advertise].
  set (adv := flag "advertise" "ADVERTISE" ""). set (sim := default _ simulated).
  destruct (match MkdirAll (flag "data-dir" _ _) with Ok _ => _ | Err _ => _ end); cbn [result_bind]; [|done].
  destruct (if is_empty (flag "export-dir" _ _) then _ else _); cbn [result_bind]; [|done].
  destruct (secret_load _ _); cbn [result_bind]; [|done].
  destruct (MkdirAll (PathJoin [_; "machines"])); cbn [result_bind]; [|done].
  destruct (MkdirAll (PathJoin [_; "deploys"])); cbn [result_bind]; [|done].
  destruct (is_empty adv) eqn:Ea; cbn [result_bind].
  - destruct (MkdirAll (PathJoin [_; "installs"])); cbn [result_bind]; [|done]. intros [= <-]. cbn.
    apply is_empty_true in Ea. split_and!; [done|done|by intros [? _]%andb_true_iff|by left].
  - destruct (ParseAdvertise adv) as [x|e] eqn:Ep; cbn [result_bind]; [|done].
    destruct (MkdirAll (PathJoin [_; "installs"])); cbn [result_bind]; [|done]. intros [= <-]. cbn.
    split_and!; [done|done|by intros [? _]%andb_true_iff|right; by exists x].
Qed.
End NewHandler.

(** ** The browser application *)

Inductive web_answer : Type :=
| File (path : string) (immutable : bool)     (** http.FileServer's answer for the path *)
| IndexPage                                   (** index.html, never cached *)
| NotBuilt.                                   (** 404 *)

(** [opens]: the embedded tree has this name. *)
Definition web_serve (opens : string → bool) (url_path : string) : web_answer :=
  let path := TrimPrefix url_path "/" in
  if negb (is_empty path) && opens path then File path (HasPrefix path "assets/")
  else if opens "index.html" then IndexPage else NotBuilt.

(** Any address of the application that is not a file of it shows the application,
    and only its hashed assets are cached for good. *)
Lemma web_serve_spec opens p :
  opens "index.html" = true →
  web_serve opens ("/" +:+ p)
  = if negb (is_empty p) && opens p then File p (HasPrefix p "assets/") else IndexPage.
Proof. intros Hi. unfold web_serve. rewrite TrimPrefix_app, Hi. done. Qed.
