(* ===== verification/MachineApi.v ===== *)
(** * The machine API (internal/api/machines.go)

    Registering, editing, discovering, importing and assigning machines.  The
    hardware discovery of a BMC is what [Discover] answers; a request is [None]
    where its body did not decode. *)
From S2P Require Import Prelude GoStrings Secret Machines GoNet ClusterModel Generator Storage DeployModel SelCodec AgentPreflight AgentRun Orchestrator OrchestratorOps DeployDemo OrchestratorInspect DeployApi DeployApiProps.
From Stdlib Require Import Ascii.

Open Scope string_scope.
Open Scope list_scope.
Open Scope Z_scope.

Record machineInput : Type := mkMachineInput {
  mi_Label : string;
  mi_Address : string;
  mi_Username : string;
  mi_Password : option string;
  mi_Cipher : Z
}.

Definition strOrEmpty (p : option string) : string := default "" p.

Definition to_input (i : machineInput) : Input :=
  mkInput i.(mi_Label) i.(mi_Address) i.(mi_Username) i.(mi_Cipher) i.(mi_Password).

Definition invalid_bmc (e : string) : string := "BMC verification failed — check the address and credentials: " +:+ e.

(** The report of an inspect boot. *)
Record hwReport : Type := mkHwReport {
  hr_Serial : string;
  hr_MACs : list string;
  hr_Manufacturer : string;
  hr_Model : string;
  hr_CPUModel : string;
  hr_CPUCount : Z;
  hr_MemoryBytes : Z;
  hr_NICs : list NIC;
  hr_Disks : list HwDisk;
  hr_Cards : list Card
}.

Definition inventory_of (now : string) (q : hwReport) : Inventory :=
  mkInventory now "inspect" q.(hr_Manufacturer) q.(hr_Model) q.(hr_Serial) q.(hr_CPUModel) q.(hr_CPUCount) 0
    q.(hr_MemoryBytes) q.(hr_NICs) q.(hr_Disks) q.(hr_Cards).

Definition norm_mac (s : string) : string := ToLower (TrimSpace s).

(** The first machine with the serial or one of the addresses; the serial of a
    machine ends the search. *)
Fixpoint report_target (serial : string) (want : list string) (ms : list Machine) : string :=
  match ms with
  | [] => ""
  | m :: ms =>
      match m.(mc_Inventory) with
      | None => report_target serial want ms
      | Some inv =>
          if negb (is_empty serial) && (normSerial inv.(inv_Serial) =? serial)%string then m.(mc_ID)
          else
            let id := if existsb (fun nic => negb (is_empty nic.(nic_MAC)) && contains want (norm_mac nic.(nic_MAC))) inv.(inv_NICs)
                      then m.(mc_ID) else "" in
            if is_empty id then report_target serial want ms else id
      end
  end.

Section Api.
Context `{AEAD} (box : string) (writable : string → bool).
Context (Discover : string → string → string → result Inventory).
Context (readXLSX readCSV : string → result (list (list string))).

Definition on_machines {A} (f : machines → machines * A) (dr : driver) : driver * A :=
  let '(ms, a) := f dr.(dr_machines) in (mkDriver ms dr.(dr_clusters) dr.(dr_mgr), a).

(** What [Get] says after the inventory was saved, or what was known before. *)
Definition refreshed (id : string) (inv : Inventory) (m : Machine) (dr : driver) : driver * Machine :=
  let '(dr, _) := on_machines (SetInventory writable id inv) dr in
  (dr, match Machine_Get id dr.(dr_machines) with Ok got => got | Err _ => m end).

Definition not_found_or {A} (id : string) (code : Z) (e : string) : reply A :=
  if (e =? ErrMachineNotFound)%string then Fail 404 ("machine " +:+ id +:+ " not found") else Fail code e.

Definition api_list (dr : driver) : reply (list Machine) := OK 200 (Machine_List dr.(dr_machines)).

Definition api_get (id : string) (dr : driver) : reply Machine :=
  if negb (pathValue id) then bad_path "id" else
  match Machine_Get id dr.(dr_machines) with Ok m => OK 200 m | Err e => not_found_or id 500 e end.

(** [id], [nonce]: what the store draws. *)
Definition api_create (id nonce : string) (req : option machineInput) (dr : driver) : driver * reply Machine :=
  match req with
  | None => (dr, Fail 400 "invalid JSON")
  | Some i =>
      if is_empty i.(mi_Label) || is_empty i.(mi_Address) then (dr, Fail 400 "label and bmc address are required")
      else
        match Discover i.(mi_Address) i.(mi_Username) (strOrEmpty i.(mi_Password)) with
        | Err e => (dr, Fail 502 (invalid_bmc e))
        | Ok inv =>
            match on_machines (Machine_Create box writable id nonce (to_input i)) dr with
            | (dr, Err e) => (dr, Fail 400 e)
            | (dr, Ok m) => let '(dr, m) := refreshed m.(mc_ID) inv m dr in (dr, OK 201 m)
            end
        end
  end.

(** A blank password is tried as the stored one. *)
Definition tried_password (id : string) (i : machineInput) (dr : driver) : string :=
  let p := strOrEmpty i.(mi_Password) in
  if is_empty p then match Credentials box id dr.(dr_machines) with Ok (_, _, sp) => sp | Err _ => p end else p.

Definition api_update (nonce id : string) (req : option machineInput) (dr : driver) : driver * reply Machine :=
  if negb (pathValue id) then (dr, bad_path "id") else
  match req with
  | None => (dr, Fail 400 "invalid JSON")
  | Some i =>
      match Discover i.(mi_Address) i.(mi_Username) (tried_password id i dr) with
      | Err e => (dr, Fail 502 (invalid_bmc e))
      | Ok inv =>
          match on_machines (Machine_Update box writable nonce id (to_input i)) dr with
          | (dr, Err e) => (dr, not_found_or id 400 e)
          | (dr, Ok m) => let '(dr, m) := refreshed id inv m dr in (dr, OK 200 m)
          end
      end
  end.

Definition api_delete (id : string) (dr : driver) : driver * reply unit :=
  if negb (pathValue id) then (dr, bad_path "id") else
  let '(dr, e) := on_machines (Machine_Delete writable id) dr in
  (dr, match e with Ok _ => OK 204 tt | Err e => not_found_or id 500 e end).

Definition api_assign (id : string) (req : option Assignment) (dr : driver) : driver * reply Machine :=
  if negb (pathValue id) then (dr, bad_path "id") else
  match req with
  | None => (dr, Fail 400 "invalid JSON")
  | Some a =>
      if is_empty a.(as_ClusterID) || is_empty a.(as_Hostname) then (dr, Fail 400 "clusterId and hostname are required")
      else
        let '(dr, e) := on_machines (Assign writable id a.(as_ClusterID) a.(as_Hostname) a.(as_OSDisk)) dr in
        (dr, match e with Ok m => OK 200 m | Err e => not_found_or id 500 e end)
  end.

Definition api_unassign (id : string) (dr : driver) : driver * reply Machine :=
  if negb (pathValue id) then (dr, bad_path "id") else
  let '(dr, e) := on_machines (Unassign writable id) dr in
  (dr, match e with Ok m => OK 200 m | Err e => not_found_or id 500 e end).

Definition inventoryReport (now : string) (req : option hwReport) (dr : driver) : driver * reply bool :=
  match req with
  | None => (dr, Fail 400 "invalid JSON")
  | Some q =>
      let want := List.filter (fun v => negb (is_empty v)) (norm_mac <$> q.(hr_MACs)) in
      let target := report_target (normSerial q.(hr_Serial)) want (Machine_List dr.(dr_machines)) in
      if is_empty target then (dr, OK 200 false)
      else
        match on_machines (SetInventory writable target (inventory_of now q)) dr with
        | (dr, Err e) => (dr, Fail 500 e)
        | (dr, Ok _) => (on_mgr (InspectReported target) dr, OK 200 true)
        end
  end.

(** A multipart form whose [file] field has a name and content. *)
Inductive upload := NoForm | NoFile | File (name content : string).

(** [rands]: the id and nonce each machine draws. *)
Definition importFile (rands : list (string * string)) (up : upload) (dr : driver)
    : driver * reply (Z * list RowError) :=
  match up with
  | NoForm => (dr, Fail 400 "invalid upload")
  | NoFile => (dr, Fail 400 "missing file field")
  | File name content =>
      let name := ToLower name in
      let parsed :=
        if HasSuffix name ".xlsx" then Some (let? rows := readXLSX content in parse_rows "empty sheet" rows)
        else if HasSuffix name ".csv" then Some (let? rows := readCSV content in parse_rows "empty file" rows)
        else None in
      match parsed with
      | None => (dr, Fail 400 "unsupported file type (use .xlsx or .csv)")
      | Some (Err e) => (dr, Fail 400 e)
      | Some (Ok res) =>
          let '(ms, n, errs) := ImportMany box writable rands res dr.(dr_machines) in
          (mkDriver ms dr.(dr_clusters) dr.(dr_mgr), OK 200 (n, errs))
      end
  end.

(** ** Fetching: a request marks the machine, a goroutine per machine finishes it *)

Record fetching : Type := mkFetching {
  ft_driver : driver;
  ft_inflight : gmap string (string * string * string)     (* the goroutines, with their login *)
}.

Inductive fetch_answer := FetchStarted | FetchRunning.

Definition api_fetch (id : string) (f : fetching) : fetching * reply fetch_answer :=
  if negb (pathValue id) then (f, bad_path "id") else
  match Credentials box id f.(ft_driver).(dr_machines) with
  | Err e => (f, not_found_or id 500 e)
  | Ok login =>
      match f.(ft_inflight) !! id with
      | Some _ => (f, OK 202 FetchRunning)
      | None =>
          match on_machines (SetFetchState writable id FetchFetching "") f.(ft_driver) with
          | (dr, Err e) => (mkFetching dr f.(ft_inflight), Fail 500 e)
          | (dr, Ok _) => (mkFetching dr (<[id := login]> f.(ft_inflight)), OK 202 FetchStarted)
          end
      end
  end.

(** The end of a machine's goroutine. *)
Definition runFetch (id : string) (f : fetching) : fetching :=
  match f.(ft_inflight) !! id with
  | None => f
  | Some (address, username, password) =>
      let dr :=
        match Discover address username password with
        | Err e => (on_machines (SetFetchState writable id FetchError e) f.(ft_driver)).1
        | Ok inv => (on_machines (SetInventory writable id inv) f.(ft_driver)).1
        end in
      mkFetching dr (delete id f.(ft_inflight))
  end.

End Api.

(** ** What is stored was tried *)

Section Logins.
Context `{AEAD} (box : string) (writable : string → bool).
Context (Discover : string → string → string → result Inventory).

Definition files_named (s : machines) : Prop := ∀ i r, s !! i = Some (Some r) → r.(rc_ID) = i.

Lemma Credentials_file id s r :
  s !! id = Some (Some r) →
  Credentials box id s =
    if is_empty r.(rc_PasswordEnc) then Ok (r.(rc_BMC).(bmc_Address), r.(rc_BMC).(bmc_Username), "")
    else match Decrypt box r.(rc_PasswordEnc) with
         | Ok p => Ok (r.(rc_BMC).(bmc_Address), r.(rc_BMC).(bmc_Username), p)
         | Err e => Err ("decrypt password: " +:+ e)
         end.
Proof. intros Hr. unfold Credentials. by rewrite (proj2 (readRecord_Ok id s r) Hr). Qed.

Lemma sealed_credentials id s r nonce p :
  String.length nonce = NonceSize → s !! id = Some (Some r) →
  r.(rc_PasswordEnc) = (if is_empty p then "" else Encrypt box nonce p) →
  Credentials box id s = Ok (r.(rc_BMC).(bmc_Address), r.(rc_BMC).(bmc_Username), p).
Proof.
  intros Hn Hr Hp. rewrite (Credentials_file id s r Hr), Hp. destruct (is_empty p) eqn:Ep.
  - apply is_empty_true in Ep as ->. done.
  - pose proof (Decrypt_Encrypt box nonce p Hn) as Hd. destruct (is_empty (Encrypt box nonce p)) eqn:Ee.
    + apply is_empty_true in Ee. rewrite Ee in Hd. discriminate Hd.
    + by rewrite Hd.
Qed.

(** Saving hardware facts leaves every login as it was. *)
Lemma SetInventory_login id inv s j :
  files_named s → Credentials box j (SetInventory writable id inv s).1 = Credentials box j s.
Proof.
  intros Hn. unfold SetInventory. destruct (readRecord id s) as [r|] eqn:Er; [|done]. apply readRecord_Ok in Er.
  set (r' := set_rc_inventory _ r). destruct (writeRecord writable r' s) as [s1 e] eqn:Ew. cbn.
  apply writeRecord_cases in Ew as [[-> _]|[-> _]]; [|done]. change (rc_ID r') with (rc_ID r). rewrite (Hn _ _ Er).
  destruct (decide (j = id)) as [->|Hj].
  - by rewrite (Credentials_file id _ r' (lookup_insert_eq _ _ _)), (Credentials_file id s r Er).
  - unfold Credentials, readRecord. by rewrite lookup_insert_ne by done.
Qed.

Lemma write_named r s s' e : files_named s → writeRecord writable r s = (s', e) → files_named s'.
Proof.
  intros Hn [[-> _]|[-> _]]%writeRecord_cases; [|done]. by intros i q [[<- [= <-]]|[_ Hq]]%lookup_insert_Some; [|by apply Hn].
Qed.

Lemma save_cases r s s' e :
  save writable r s = (s', e) → (s' = <[r.(rc_ID) := Some r]> s ∧ e = Ok (toMachine r)) ∨ (s' = s ∧ is_ok e = false).
Proof.
  unfold save. destruct (writeRecord writable r s) as [s1 e1] eqn:Ew. apply writeRecord_cases in Ew as [[-> ->]|[-> He]]; intros [= <- <-].
  - by left.
  - right. split; [done|]. by destruct e1 as [[]|].
Qed.

Lemma refreshed_login id inv m dr j :
  files_named dr.(dr_machines) →
  Credentials box j (refreshed writable id inv m dr).1.(dr_machines) = Credentials box j dr.(dr_machines).
Proof.
  intros Hn. unfold refreshed, on_machines. pose proof (SetInventory_login id inv dr.(dr_machines) j Hn) as Hl.
  by destruct (SetInventory writable id inv (dr_machines dr)).
Qed.

Lemma insert_named id r s : files_named s → r.(rc_ID) = id → files_named (<[id := Some r]> s).
Proof. intros Hn Hr i q [[<- [= <-]]|[_ Hq]]%lookup_insert_Some; [done|by apply Hn]. Qed.

(** What a request may answer: the stored login is the tried one, or nothing
    changed. *)
Definition login_tried (id : string) (i : machineInput) (p : string) (dr dr' : driver) (r : reply Machine) : Prop :=
  match r with
  | OK _ _ => Credentials box id dr'.(dr_machines) = Ok (i.(mi_Address), i.(mi_Username), p)
              ∧ is_ok (Discover i.(mi_Address) i.(mi_Username) p) = true
  | Fail _ _ => dr'.(dr_machines) = dr.(dr_machines)
  end.

Lemma refused_tried id i p dr dr' code e :
  dr'.(dr_machines) = dr.(dr_machines) → login_tried id i p dr dr' (not_found_or id code e).
Proof. unfold not_found_or. by destruct (e =? ErrMachineNotFound)%string. Qed.

(** C35. Registering or editing a machine through its form stores only a login that
    the machine's BMC accepted: afterwards its stored address, user and password are
    those the discovery was run with, an absent password on an edit meaning the
    stored one; a request that is refused leaves the store as it was.  Two edits are
    excepted: with a blank password, and without one where the stored password does
    not decrypt.  Import is not covered: it stores the logins of its file untried. *)
Theorem stored_login_verified id nonce i dr dr' r :
  files_named dr.(dr_machines) → String.length nonce = NonceSize →
  (api_create box writable Discover id nonce (Some i) dr = (dr', r) →
   login_tried id i (strOrEmpty i.(mi_Password)) dr dr' r)
  ∧ (api_update box writable Discover nonce id (Some i) dr = (dr', r) →
     i.(mi_Password) ≠ Some "" →
     (i.(mi_Password) = None → is_ok (Credentials box id dr.(dr_machines)) = true) →
     login_tried id i (tried_password box id i dr) dr dr' r).
Proof.
  intros Hn Hl. split.
  - unfold api_create. destruct (is_empty _ || _); [by intros [= <- <-]|]. destruct (Discover _ _ _) as [inv|] eqn:Ed; [|by intros [= <- <-]].
    unfold on_machines, Machine_Create. destruct (validate_input _); [|by intros [= <- <-]].
    destruct (save _ _ _) as [s1 e] eqn:Es. apply save_cases in Es as [[-> ->]|[-> He]].
    2: { destruct e; [done|]. by intros [= <- <-]. }
    set (dr1 := mkDriver _ _ _). set (rc := mkRecord _ _ _ _ _ _ _ _ _).
    pose proof (refreshed_login id inv (toMachine rc) dr1 id) as Hc. cbn.
    destruct (refreshed writable id inv (toMachine rc) dr1) as [dr2 m2]. intros [= <- <-]. cbn in *. split; [|by rewrite Ed].
    rewrite Hc by by apply insert_named. rewrite (sealed_credentials id _ rc nonce (strOrEmpty i.(mi_Password)) Hl (lookup_insert_eq _ _ _)); [done|].
    cbn. by destruct (mi_Password i).
  - unfold api_update. destruct (pathValue id); cbn [negb]; [|by intros [= <- <-]]. destruct (Discover _ _ _) as [inv|] eqn:Ed; [|by intros [= <- <-]].
    unfold on_machines, Machine_Update. destruct (validate_input _); [|intros [= <- <-] _ _; by apply refused_tried].
    destruct (readRecord id (dr_machines dr)) as [r0|] eqn:Er; [|intros [= <- <-] _ _; by apply refused_tried].
    apply readRecord_Ok in Er. destruct (save _ _ _) as [s1 e] eqn:Es. apply save_cases in Es as [[-> ->]|[-> He]].
    2: { destruct e; [done|]. intros [= <- <-] _ _. by apply refused_tried. }
    set (rc := set_rc_login _ _ _ r0). change (rc_ID rc) with (rc_ID r0). rewrite (Hn _ _ Er). set (dr1 := mkDriver _ _ _).
    pose proof (refreshed_login id inv (toMachine rc) dr1 id) as Hc. destruct (refreshed _ _ _ _ _) as [dr2 m2].
    intros [= <- <-] Hp Hcr. cbn in *. split; [|by rewrite Ed].
    rewrite Hc by (apply insert_named; [done|exact (Hn _ _ Er)]). unfold tried_password, strOrEmpty.
    destruct (mi_Password i) as [p|] eqn:Epw; cbn [from_option]; unfold Datatypes.id.
    + destruct (is_empty p) eqn:Ep; [by apply is_empty_true in Ep as ->|].
      by rewrite (sealed_credentials id _ rc nonce p Hl (lookup_insert_eq _ _ _)) by (unfold rc; cbn; by rewrite ?Epw, Ep).
    + specialize (Hcr eq_refl). rewrite (Credentials_file id _ rc (lookup_insert_eq _ _ _)). rewrite (Credentials_file id _ r0 Er) in Hcr |- *.
      unfold rc. cbn [set_rc_login rc_PasswordEnc to_input in_Password rc_BMC]. rewrite ?Epw. cbn [is_empty]. destruct (is_empty (rc_PasswordEnc r0)); [done|]. by destruct (Decrypt box _).
Qed.

End Logins.

(** ** From an inspect to the next check-in *)

Lemma report_target_in serial want ms id :
  report_target serial want ms = id → id ≠ "" → ∃ m, m ∈ ms ∧ m.(mc_ID) = id ∧ is_Some m.(mc_Inventory).
Proof.
  intros <-. induction ms as [|m ms IH]; [done|]. cbn. intros Hne.
  assert (report_target serial want ms ≠ "" → ∃ m', m' ∈ m :: ms ∧ m'.(mc_ID) = report_target serial want ms
    ∧ is_Some m'.(mc_Inventory)) as Hrest by (intros (m' & ? & ?)%IH; exists m'; split; [by right|done]).
  destruct (mc_Inventory m) as [inv|] eqn:Ei; [|by apply Hrest].
  assert (∃ m', m' ∈ m :: ms ∧ mc_ID m' = mc_ID m ∧ is_Some m'.(mc_Inventory)) as Hm
    by (exists m; split; [by left|split; [done|by rewrite Ei]]).
  destruct (_ && _); [done|]. destruct (existsb _ _); cbv zeta in *; [|by apply Hrest].
  destruct (is_empty (mc_ID m)); [by apply Hrest|done].
Qed.

Section Reports.
Context (writable : string → bool).

(** What an inspect boot reports is what the next boot is recognised by: after
    a report with network cards was taken, some machine of the store answers to
    each of the reported addresses, keeps the bindings to nodes it had, and is no
    longer under inspection, so that its next check-in goes by its assignment. *)
Theorem report_identifies now q dr dr' mac :
  files_named dr.(dr_machines) →
  inventoryReport writable now (Some q) dr = (dr', OK 200 true) →
  mac ∈ nic_MAC <$> q.(hr_NICs) → mac ≠ "" → TrimSpace mac = mac →
  ∃ m0 m, m0 ∈ Machine_List dr.(dr_machines) ∧ m ∈ Machine_List dr'.(dr_machines)
    ∧ m.(mc_ID) = m0.(mc_ID) ∧ m.(mc_Assignments) = m0.(mc_Assignments)
    ∧ is_caller [mac] "" m = true ∧ IsInspecting m.(mc_ID) dr'.(dr_mgr) = false.
Proof.
  intros Hn. unfold inventoryReport, on_machines. set (target := report_target _ _ _). set (inv := inventory_of now q).
  destruct (is_empty target) eqn:Et; [done|]. apply is_empty_false in Et.
  destruct (SetInventory writable target inv _) as [s1 e] eqn:Es. destruct e; [|done]. intros [= <-] Hin Hne Htrim.
  destruct (report_target_in _ _ _ target eq_refl Et) as (m0 & Hm0 & Hid0 & [inv0 Hi0]).
  unfold SetInventory in Es. destruct (readRecord target _) as [r|] eqn:Er; [|done]. apply readRecord_Ok in Er.
  set (r' := set_rc_inventory _ r) in Es. apply writeRecord_cases in Es as [[-> _]|[_ ?]]; [|by destruct a].
  change (rc_ID r') with (rc_ID r). rewrite (Hn _ _ Er).
  assert (m0 = toMachine r) as ->.
  { apply Machine_List_elem in Hm0 as (i & r0 & Hr0 & ->). cbn in Hid0. rewrite (Hn _ _ Hr0) in Hid0. congruence. }
  exists (toMachine r), (toMachine r'). split_and!; try done.
  - apply Machine_List_elem. exists target, r'. split; [apply lookup_insert_eq|done].
  - apply orb_true_iff. left. apply existsb_exists. exists mac. split.
    + unfold macsOf. apply filter_In. split; [|by apply negb_true_iff, is_empty_false]. apply list_elem_of_In.
      cbn. destruct (rc_Inventory r) as [prev|]; cbn; [|done].
      unfold or_prev. destruct (hr_NICs q) as [|n l] eqn:Eq; [by apply elem_of_nil in Hin|done].
    + rewrite contains_true. cbn. rewrite Htrim. by left.
  - cbn. rewrite (Hn _ _ Er). unfold IsInspecting, InspectReported, setInspect, inspect_of. cbn.
    destruct (m_inspects (dr_mgr dr) !! target) as [p|] eqn:Ep; cbn; [|by rewrite Ep].
    rewrite Ep. cbn. rewrite lookup_alter_eq. by destruct (m_istatus (dr_mgr dr) !! p).
Qed.

End Reports.

(** ** Concrete requests *)

#[local] Existing Instance plain_aead.

Definition demo_discover (address user pass : string) : result Inventory :=
  if (pass =? "right")%string then Ok (demo_inventory "S9" "cc:00") else Err "401".

Definition demo_input (pass : option string) : machineInput := mkMachineInput "gamma" "10.0.0.9" "admin" pass 3.
Definition all_writable (id : string) : bool := true.
Definition demo_nonce : string := "abcdefghijkl".

Definition demo_created : driver * reply Machine :=
  api_create "k" all_writable demo_discover "9" demo_nonce (Some (demo_input (Some "right"))) demo_driver.

Lemma demo_named : files_named demo_machines.
Proof. exact (wa_named _ demo_well_assigned). Qed.

Lemma stored_login_verified_witness :
  Credentials "k" "9" demo_created.1.(dr_machines) = Ok ("10.0.0.9", "admin", "right").
Proof.
  destruct (api_create "k" all_writable demo_discover "9" demo_nonce (Some (demo_input (Some "right"))) demo_driver)
    as [dr' r] eqn:E.
  destruct (stored_login_verified "k" all_writable demo_discover "9" demo_nonce (demo_input (Some "right")) demo_driver dr' r
    demo_named eq_refl) as [H _].
  specialize (H E). assert (is_OK r = true) as Hr by (change r with (dr', r).2; rewrite <- E; vm_compute; reflexivity).
  destruct r; [|discriminate Hr]. unfold demo_created. rewrite E. exact (proj1 H).
Defined.

(** A blank password on an edit is tried as the stored one, and then clears it. *)
Example blank_password_clears :
  let '(dr, r) := api_update "k" all_writable demo_discover demo_nonce "9" (Some (demo_input (Some ""))) demo_created.1 in
  is_OK r = true ∧ Credentials "k" "9" dr.(dr_machines) = Ok ("10.0.0.9", "admin", "").
Proof. vm_compute. auto. Qed.

Definition demo_report : hwReport :=
  mkHwReport "s2" [] "" "" "" 2 64 [mkNIC "eno1" "bb:01" "" "" 0 true None] [] [].

Lemma report_identifies_witness :
  ∃ m, m ∈ Machine_List (inventoryReport all_writable "now" (Some demo_report) demo_driver).1.(dr_machines)
    ∧ is_caller ["bb:01"] "" m = true.
Proof.
  destruct (inventoryReport all_writable "now" (Some demo_report) demo_driver) as [dr' r] eqn:E.
  assert (r = OK 200 true) as -> by (change r with (dr', r).2; rewrite <- E; vm_compute; reflexivity).
  destruct (report_identifies all_writable "now" demo_report demo_driver dr' "bb:01" demo_named E) as (m0 & m & _ & Hm & _ & _ & Hc & _).
  - by left.
  - discriminate.
  - vm_compute. reflexivity.
  - exists m. split; [exact Hm|exact Hc].
Defined.
