(* ===== verification/ClusterApi.v ===== *)
(** * The cluster API (internal/api/handlers.go)

    Saving, showing, downloading and deleting cluster definitions, with what
    they do to the deploy manager's set-ready input and to the machines'
    bindings.  A request is [None] where its body did not decode. *)
From S2P Require Import Prelude GoStrings Secret Machines GoNet ClusterModel Generator Storage DeployModel SelCodec AgentPreflight AgentRun Orchestrator OrchestratorOps DeployDemo OrchestratorInspect DeployApi DeployApiProps.

Open Scope string_scope.
Open Scope list_scope.
Open Scope Z_scope.

Section Api.
Context (Marshal : ClusterDetail → string) (Unmarshal : string → option ClusterDetail).
Context (zip : archive → string) (bytes : string → string).
Context (writable : string → bool).

Definition cluster_list (dr : driver) : reply (list Digest) := OK 200 (Cluster_List Unmarshal dr.(dr_clusters)).

Definition no_cluster {A} (id what e : string) : reply A :=
  if (e =? ErrStoreNotFound)%string then Fail 404 ("cluster " +:+ id +:+ " not found") else Fail 500 (what +:+ " failed: " +:+ e).

Definition cluster_detail (id : string) (dr : driver) : reply ClusterDetail :=
  if negb (pathValue id) then bad_path "id" else
  match Cluster_Detail Unmarshal id dr.(dr_clusters) with Ok d => OK 200 d | Err e => no_cluster id "detail" e end.

Definition set_ready_of (sr : SetReadySettings) : SetReadyInput :=
  mkSetReadyInput false sr.(ClusterModel.sr_CreateExternal) sr.(ClusterModel.sr_CIDR) sr.(ClusterModel.sr_Gateway)
    sr.(ClusterModel.sr_IPRange) false "".

(** Seed the manager's set-ready input, unless there is one. *)
Definition seed_set_ready (id : string) (d : ClusterDetail) (m : Manager) : Manager :=
  match d.(cd_ClusterConfig).(cc_SetReady) with
  | Some sr => if HasSetReady id m then m else SubmitSetReady id (set_ready_of sr) m
  | None => m
  end.

Definition cluster_save (id : string) (req : option ClusterDetail) (v : saving) (dr : driver)
    : driver * reply string :=
  if negb (pathValue id) then (dr, bad_path "id") else
  match req with
  | None => (dr, Fail 400 "invalid clusterDetail JSON")
  | Some d =>
      if negb (ShortID d =? id)%string
      then (dr, Fail 400 ("cluster id " +:+ id +:+ " does not match body id " +:+ ShortID d))
      else
        match Validate d with
        | Err e => (dr, Fail 400 e)
        | Ok _ =>
            match Cluster_Save Marshal Unmarshal zip bytes d v dr.(dr_clusters) with
            | (s, Err e) => (set_dr_clusters s dr, Fail 500 ("save failed: " +:+ e))
            | (s, Ok _) => (on_mgr (seed_set_ready id d) (set_dr_clusters s dr), OK 200 "saved")
            end
        end
  end.

Definition cluster_delete (id : string) (dr : driver) : driver * reply unit :=
  if negb (pathValue id) then (dr, bad_path "id") else
  match Cluster_Delete Unmarshal id dr.(dr_clusters) with
  | (s, Err e) => (set_dr_clusters s dr, no_cluster id "delete" e)
  | (s, Ok _) =>
      let dr := set_dr_clusters s dr in
      (mkDriver (UnassignCluster writable id dr.(dr_machines)).1 dr.(dr_clusters) dr.(dr_mgr), OK 204 tt)
  end.

(** The file and the name it is offered under. *)
Definition downloadZip (id : string) (dr : driver) : reply (archive * string) :=
  if negb (pathValue id) then bad_path "id" else
  match ClusterZipPath Unmarshal id dr.(dr_clusters) with Ok z => OK 200 z | Err e => no_cluster id "download" e end.

Definition downloadSnapshot (id hostname : string) (dr : driver) : reply (string * string) :=
  if negb (pathValue id) then bad_path "id"
  else if negb (pathValue hostname) then bad_path "hostname"
  else match SnapshotPath id hostname dr.(dr_clusters) with
       | Ok b => OK 200 (b, hostname +:+ ".snapshot")
       | Err e => if (e =? ErrStoreNotFound)%string then Fail 404 ("snapshot " +:+ id +:+ "/" +:+ hostname +:+ " not found")
                  else Fail 500 ("download failed: " +:+ e)
       end.

(** ** What a save gives back *)

Lemma seed_keeps id d c m : HasSetReady c m = true → (GetSetReady c (seed_set_ready id d m)).2 = (GetSetReady c m).2.
Proof.
  intros Hh. unfold seed_set_ready. destruct (cc_SetReady _) as [sr|]; [|done]. destruct (HasSetReady id m) eqn:Ei; [done|].
  assert (c ≠ id) as Hne by congruence.
  unfold GetSetReady, SubmitSetReady, HasSetReady in *. cbn. rewrite lookup_insert_ne by done.
  destruct (m_setReady m !! c); [done|]. destruct (LoadSetReady c (m_store m)) as [i|] eqn:El; [|done].
  replace (LoadSetReady c _) with (Some i); [done|]. rewrite <- El. unfold LoadSetReady, SaveSetReady.
  destruct (st_ok _); [|done]. cbn. by rewrite lookup_insert_ne.
Qed.

Lemma pathValue_dirname v : pathValue v = true → dirname v.
Proof.
  intros Hv. split; [by apply pathValue_free|]. unfold pathValue in Hv.
  rewrite !andb_true_iff, !negb_true_iff, !String.eqb_neq in Hv. destruct Hv as [[[H0 _] H1] H2].
  split_and!; [by apply is_empty_false|done|done].
Qed.

(** Every hostname is one that the API takes in an address. *)
Definition addressable (d : ClusterDetail) : Prop := Forall (fun n => pathValue n.(nc_Hostname) = true) d.(cd_NodeData).

(** C36. On a disk that works, and when every hostname in it is one that the API
    takes in an address, a saved definition is what the API shows, and what it
    offers a node to download is the snapshot built for that node from it; an input
    an operator already gave for set-ready survives the save of any definition.
    A definition that is refused, under a name that is not its own or for what it
    says, changes nothing.  (Other hostnames validate too, and then nodes can share a
    file or a name leave the folder: names_collide and name_climbs_out of
    Storage.v.) *)
Theorem save_then_served id d v dr dr' r :
  Unmarshal (Marshal d) = Some d → v.(sv_fate) = AllWritten → ranged d v → plain v.(sv_suffix) →
  cluster_save id (Some d) v dr = (dr', r) →
  match r with
  | OK _ _ =>
      id = ShortID d ∧ Validate d = Ok tt
      ∧ (addressable d →
           cluster_detail id dr' = OK 200 d
           ∧ ∀ n, n ∈ d.(cd_NodeData) →
               ∃ b, node_snapshot zip bytes d v.(sv_stamp) n = Ok b
               ∧ downloadSnapshot id n.(nc_Hostname) dr' = OK 200 (b, n.(nc_Hostname) +:+ ".snapshot"))
      ∧ ∀ c, HasSetReady c dr.(dr_mgr) = true → (GetSetReady c dr'.(dr_mgr)).2 = (GetSetReady c dr.(dr_mgr)).2
  | Fail _ _ =>
      (Validate d = Ok tt → addressable d) → dr'.(dr_clusters) = dr.(dr_clusters) ∧ dr'.(dr_mgr) = dr.(dr_mgr)
  end.
Proof.
  intros Hm Hf Hr Hsuf. unfold cluster_save. destruct (pathValue id) eqn:Ep; cbn [negb]; [|by intros [= <- <-]].
  destruct (String.eqb_spec (ShortID d) id) as [Hid|]; cbn [negb]; [|by intros [= <- <-]]. subst id.
  destruct (Validate d) as [[]|] eqn:Ev; [|by intros [= <- <-]].
  destruct (Cluster_Save _ _ _ _ _ _ _) as [s e] eqn:Es.
  pose proof (Save_facts _ _ _ _ _ _ _ _ _ Hm Es) as Hs. rewrite Ev in Hs.
  assert (addressable d → Forall plain (hosts_of d)) as Hp.
  { intros Ha. apply Forall_fmap. eapply Forall_impl; [exact Ha|]. intros x. apply pathValue_free. }
  destruct (first_err ValidateNodeNetwork _) as [[]|] eqn:En.
  - specialize (Hs Hf Hr (pathValue_dirname _ Ep) Hsuf).
    destruct e as [[]|msg]; intros [= <- <-]; [|by intros Ha; destruct (Hs (Hp (Ha eq_refl)))].
    split_and!; [done|done| |].
    + intros Ha. destruct (Hs (Hp Ha)) as (_ & Hd & Hsn & _). split.
      * unfold cluster_detail. rewrite Ep. cbn. by rewrite Hd.
      * intros n Hn. unfold addressable in Ha. rewrite Forall_forall in Ha.
        unfold downloadSnapshot. rewrite Ep, (Ha n Hn). cbn. rewrite Hsn by done.
        rewrite first_err_Ok, Forall_forall in En. unfold node_snapshot, BuildNodeSnapshot. rewrite (En n Hn).
        cbn. eauto.
    + intros c Hc. by apply seed_keeps.
  - destruct Hs as [-> He]. destruct e; [done|]. by intros [= <- <-].
Qed.

End Api.

Section Delete.
Context (Unmarshal : string → option ClusterDetail) (writable : string → bool).

(** Deleting a cluster frees its machines: when every file can be written, no
    machine of the store is bound to it any more, and the bindings to other
    clusters are those of before. *)
Theorem delete_frees id dr dr' code :
  well_assigned dr.(dr_machines) → (∀ i, writable i = true) →
  cluster_delete Unmarshal writable id dr = (dr', OK code tt) →
  cluster_detail Unmarshal id dr' = Fail 404 ("cluster " +:+ id +:+ " not found")
  ∧ ∀ c h i d, bound dr'.(dr_machines) c h i d ↔ bound dr.(dr_machines) c h i d ∧ c ≠ id.
Proof.
  intros Hw Hwr. unfold cluster_delete. destruct (pathValue id) eqn:Ep; cbn [negb]; [|done].
  unfold Cluster_Delete. destruct (detailAt _ _ _) as [d|] eqn:Ed; [|unfold no_cluster; by destruct (msg =? ErrStoreNotFound)%string]. intros [= <- <-]. split.
  - unfold cluster_detail. rewrite Ep. cbn. unfold Cluster_Detail, detailAt. cbn. by rewrite lookup_delete_eq.
  - intros c h i a. cbn. unfold UnassignCluster. destruct (clear_files _ _ _ _) as [s e] eqn:Ec.
    destruct (clear_bound _ _ _ _ _ _ Hw (record_ids_NoDup _) Ec) as (_ & _ & Hok & _).
    rewrite Hok.
    + rewrite elem_of_record_ids. cbn. rewrite String.eqb_neq. split; [|naive_solver].
      intros [Hb Hn]. split; [done|]. apply Hn. destruct Hb as (r & Hr & _). by eexists.
    + by eapply clear_files_ok.
Qed.

End Delete.

(** ** Concrete requests *)


Definition pair_id : string := ShortID demo_pair.

Definition demo_put : driver * reply string :=
  cluster_save demo_marshal demo_unmarshal (fun a => Join a.*2 "|") (fun p => p) pair_id (Some demo_pair) (saves (hosts_of demo_pair) AllWritten)
    (set_dr_clusters no_clusters demo_driver).

Lemma save_then_served_witness :
  cluster_detail demo_unmarshal pair_id demo_put.1 = OK 200 demo_pair.
Proof.
  pose proof (save_then_served demo_marshal demo_unmarshal (fun a => Join a.*2 "|") (fun p => p) pair_id demo_pair
    (saves (hosts_of demo_pair) AllWritten) (set_dr_clusters no_clusters demo_driver) demo_put.1 demo_put.2
    ltac:(vm_compute; reflexivity) eq_refl ltac:(done) ltac:(vm_compute; reflexivity) (surjective_pairing _)) as H.
  assert (is_OK demo_put.2 = true) as Hok by (vm_compute; reflexivity).
  destruct demo_put.2 as [code s|]; [|discriminate Hok]. apply (proj1 (proj2 (proj2 H))).
  repeat (apply Forall_cons; split; [vm_compute; reflexivity|]). by apply Forall_nil.
Defined.

(** A hostname that validates and that the API refuses in an address: the
    snapshot is there, and the address a check-in would give its node is answered
    400. *)
Example refused_hostname :
  let d := named_pair "cc1" "a b" in
  let dr := set_dr_clusters (save_of d AllWritten no_clusters).1 demo_driver in
  Validate d = Ok tt ∧ is_ok (SnapshotPath (ShortID d) "a b" dr.(dr_clusters)) = true
  ∧ downloadSnapshot (ShortID d) "a b" dr = bad_path "hostname".
Proof. split_and!; vm_compute; reflexivity. Qed.

Lemma delete_frees_witness :
  cluster_detail demo_unmarshal "c" (cluster_delete demo_unmarshal (fun _ => true) "c" demo_driver).1
  = Fail 404 "cluster c not found".
Proof.
  destruct (cluster_delete demo_unmarshal (fun _ => true) "c" demo_driver) as [dr' r] eqn:E.
  assert (r = OK 204 tt) as -> by (change r with (dr', r).2; rewrite <- E; vm_compute; reflexivity).
  exact (proj1 (delete_frees demo_unmarshal (fun _ => true) "c" demo_driver dr' 204 demo_well_assigned (fun _ => eq_refl) E)).
Defined.
