(* ===== verification/Ipmi.v ===== *)
(** * Driving a node's BMC and watching its install (internal/orchestrator
    ipmi.go, observer.go, executor.go)

    The go-ipmi client is third-party code: the class [ChassisClient] names
    the calls the driver makes on it, with the passage of time ([wait]: a
    timer or [ctx.Done()]) as one of them.  What is proved of [drivePower] holds
    of every such client; [MegaRAC], a chassis that loses power commands and runs
    out of sessions, is there for the concrete runs. *)
From S2P Require Import Prelude GoStrings DeployModel.
From Stdlib Require Import Ascii.

Open Scope string_scope.
Open Scope list_scope.
Open Scope Z_scope.

Definition bmcConnectAttempts : nat := 6.

Definition isSessionExhausted (err : option string) : bool :=
  match err with
  | None => false
  | Some e => Contains (ToLower e) "insufficient resource"
  end.

(** ** [fmt.Sscanf(s, "%d", &p)]

    Blanks are skipped (a newline is an error), then a sign and digits; what
    follows the digits is ignored. *)
Fixpoint skip_blank (s : string) : option string :=
  match s with
  | String c s' =>
      if Ascii.eqb c "010"%char then None
      else if is_space c then skip_blank s' else Some s
  | "" => Some ""
  end.

Fixpoint take_digits (s : string) : string :=
  match s with
  | String c s' => match digit c with Some _ => String c (take_digits s') | None => "" end
  | "" => ""
  end.

Definition Sscanf_d (s : string) : option Z :=
  match skip_blank s with
  | None => None
  | Some s =>
      let '(sign, body) := match s with
                           | String "-" r => ("-", r)
                           | String "+" r => ("+", r)
                           | _ => ("", s)
                           end in
      Atoi (sign +:+ take_digits body)
  end.

Definition splitHostPort (addr : string) : string * Z :=
  match LastIndexByte addr ":" with
  | None => (addr, 623)
  | Some i =>
      match Sscanf_d (sdrop (S i) addr) with
      | Some p => if 0 <? p then (stake i addr, p) else (addr, 623)
      | None => (addr, 623)
      end
  end.

(** ** The client *)

Class ChassisClient (B : Type) := {
  NewClient : string → Z → string → string → B → B * option string;
  Connect : Z → B → B * option string;   (** the pinned cipher suite, 0 for none *)
  CloseClient : B → B;
  GetChassisStatus : B → B * (string + bool);   (** [PowerIsOn] *)
  ChassisControl : bool → B → B * option string;   (** power up, or down *)
  RawCommand : list Z → B → B * option string;
  wait : Z → B → B * option string   (** a timer in nanoseconds, or [ctx.Done()] *)
}.

Section Driver.
Context {B : Type} `{ChassisClient B}.

Definition Seconds (n : Z) : Z := n * 1000000000.

(** The attempts left; [n] is the node. *)
Fixpoint dial_loop (left : nat) (n : Node) (lastErr : string) (b : B) : B * option string :=
  match left with
  | O => (b, Some ("bmc " +:+ n.(n_BMCAddress) +:+ " session unavailable after "
               +:+ Itoa (Z.of_nat bmcConnectAttempts) +:+ " attempts: " +:+ lastErr))
  | S left' =>
      let '(host, port) := splitHostPort n.(n_BMCAddress) in
      match NewClient host port n.(n_BMCUser) n.(n_BMCPass) b with
      | (b, Some e) => (b, Some e)
      | (b, None) =>
          match Connect (if 0 <? n.(n_BMCCipher) then n.(n_BMCCipher) else 0) b with
          | (b, None) => (b, None)
          | (b, Some e) =>
              let b := CloseClient b in
              if negb (isSessionExhausted (Some e)) then (b, Some e)
              else match wait (Seconds 10) b with
                   | (b, Some ce) => (b, Some ce)
                   | (b, None) => dial_loop left' n e b
                   end
          end
      end
  end.

(** [None] is an open session. *)
Definition dial (n : Node) (b : B) : B * option string :=
  dial_loop bmcConnectAttempts n "" b.

Definition Preflight (n : Node) (b : B) : B * option string :=
  match dial n b with
  | (b, Some e) => (b, Some ("bmc unreachable: " +:+ e))
  | (b, None) =>
      match GetChassisStatus b with
      | (b, inl e) => (CloseClient b, Some ("chassis status: " +:+ e))
      | (b, inr _) => (CloseClient b, None)
      end
  end.

Definition boot_flags (dev : Z) : list Z := [0x05; 0xE0; dev; 0; 0; 0].

Definition setBootFlags (n : Node) (dev : Z) (b : B) : B * option string :=
  match dial n b with
  | (b, Some e) => (b, Some e)
  | (b, None) => let '(b, err) := RawCommand (boot_flags dev) b in (CloseClient b, err)
  end.

Definition SetBootPXE (n : Node) : B → B * option string := setBootFlags n 0x04.
Definition SetBootDisk (n : Node) : B → B * option string := setBootFlags n 0x08.

(** [s.PowerIsOn == on] on a status that was read. *)
Definition at_target (on : bool) (r : string + bool) : bool :=
  match r with inr p => Bool.eqb p on | inl _ => false end.

(** The inner loop: [None] to go on re-issuing, [Some] to return. *)
Fixpoint poll_power (left : nat) (on : bool) (b : B) : B * option (option string) :=
  match left with
  | O => (b, None)
  | S left' =>
      match wait (Seconds 2) b with
      | (b, Some ce) => (b, Some (Some ce))
      | (b, None) =>
          let '(b, r) := GetChassisStatus b in
          if at_target on r then (b, Some None) else poll_power left' on b
      end
  end.

Fixpoint drive_loop (left : nat) (on : bool) (b : B) : B * option string :=
  match left with
  | O => (b, Some (if on then "chassis did not power on after retries"
                   else "chassis did not power off after retries"))
  | S left' =>
      let '(b, r) := GetChassisStatus b in
      if at_target on r then (b, None)
      else match ChassisControl on b with
           | (b, Some e) => (b, Some e)
           | (b, None) =>
               match poll_power 5 on b with
               | (b, Some res) => (b, res)
               | (b, None) => drive_loop left' on b
               end
           end
  end.

Definition drivePower (on : bool) (b : B) : B * option string := drive_loop 6 on b.

Definition PowerCycle (n : Node) (b : B) : B * option string :=
  match dial n b with
  | (b, Some e) => (b, Some e)
  | (b, None) =>
      match drivePower false b with
      | (b, Some e) => (CloseClient b, Some e)
      | (b, None) => let '(b, err) := drivePower true b in (CloseClient b, err)
      end
  end.

Lemma poll_power_confirmed left on b b' :
  poll_power left on b = (b', Some None) →
  ∃ b0 r, GetChassisStatus b0 = (b', r) ∧ at_target on r = true.
Proof.
  revert b. induction left as [|left IH]; intros b; cbn; [done|].
  destruct (wait (Seconds 2) b) as [b1 [ce|]]; [done|].
  destruct (GetChassisStatus b1) as [b2 r] eqn:Eg.
  destruct (at_target on r) eqn:Et; [intros [= <-]; eauto|apply IH].
Qed.

Lemma drive_loop_confirmed left on b b' :
  drive_loop left on b = (b', None) →
  ∃ b0 r, GetChassisStatus b0 = (b', r) ∧ at_target on r = true.
Proof.
  revert b. induction left as [|left IH]; intros b; cbn [drive_loop]; [done|].
  destruct (GetChassisStatus b) as [b1 r] eqn:Eg.
  destruct (at_target on r) eqn:Et; [intros [= <-]; eauto|].
  destruct (ChassisControl on b1) as [b2 [e|]]; [done|].
  destruct (poll_power 5 on b2) as [b3 [[e|]|]] eqn:Ep; [done| |apply IH].
  intros [= <-]. by eapply poll_power_confirmed.
Qed.

(** A power transition is reported done only on evidence: when drivePower
    answers nil, the last call it made is a chassis status read that showed the
    target state, whatever the control commands answered before. *)
Theorem drivePower_confirmed on b b' :
  drivePower on b = (b', None) →
  ∃ b0 r, GetChassisStatus b0 = (b', r) ∧ at_target on r = true.
Proof. apply drive_loop_confirmed. Qed.
End Driver.

(** ** What a power transition sends and reads *)

Inductive power_event :=
| StatusRead (r : string + bool)
| Commanded (on : bool) (e : option string)
| Waited (d : Z) (e : option string).

Section watching.
Context {B : Type} `{ChassisClient B}.

(** The same client with a record of these three calls. *)
Definition watched : ChassisClient (B * list power_event) := {|
  NewClient h p u w s := let '(b, e) := NewClient h p u w s.1 in ((b, s.2), e);
  Connect c s := let '(b, e) := Connect c s.1 in ((b, s.2), e);
  CloseClient s := (CloseClient s.1, s.2);
  GetChassisStatus s := let '(b, r) := GetChassisStatus s.1 in ((b, s.2 ++ [StatusRead r]), r);
  ChassisControl on s := let '(b, e) := ChassisControl on s.1 in ((b, s.2 ++ [Commanded on e]), e);
  RawCommand d s := let '(b, e) := RawCommand d s.1 in ((b, s.2), e);
  wait d s := let '(b, e) := wait d s.1 in ((b, s.2 ++ [Waited d e]), e)
|}.

(** Readings two seconds apart. *)
Definition readings (rs : list (string + bool)) : list power_event :=
  mjoin ((fun r => [Waited (2 * 1000000000) None; StatusRead r]) <$> rs).

Definition off_target (on : bool) (r : string + bool) : Prop := r ≠ inr on.

(** A round that did not bring the chassis to its target: a reading, the
    command, and five readings, none of them of the target state. *)
Definition missed_round (on : bool) (t : list power_event) : Prop :=
  ∃ r rs, off_target on r ∧ length rs = 5%nat ∧ Forall (off_target on) rs
    ∧ t = StatusRead r :: Commanded on None :: readings rs.

(** How it ends after [k] missed rounds. *)
Inductive power_end (on : bool) (k : nat) : list power_event → option string → Prop :=
| end_there : (k < 6)%nat → power_end on k [StatusRead (inr on)] None
| end_reached r rs : (k < 6)%nat → off_target on r → (length rs < 5)%nat → Forall (off_target on) rs →
    power_end on k (StatusRead r :: Commanded on None :: readings (rs ++ [inr on])) None
| end_refused r e : (k < 6)%nat → off_target on r →
    power_end on k [StatusRead r; Commanded on (Some e)] (Some e)
| end_context r rs e : (k < 6)%nat → off_target on r → (length rs < 5)%nat → Forall (off_target on) rs →
    power_end on k (StatusRead r :: Commanded on None :: readings rs ++ [Waited (2 * 1000000000) (Some e)])
      (Some e)
| end_given_up e : k = 6%nat → power_end on k [] (Some e).

Lemma at_target_true on r : at_target on r = true → r = inr on.
Proof. destruct r as [e|p]; [done|]. intros ->%Bool.eqb_prop. done. Qed.

Lemma at_target_false on r : at_target on r = false → off_target on r.
Proof. intros Ht ->. cbn in Ht. by rewrite eqb_reflx in Ht. Qed.

(** The polling: all its readings off target, or the last one on it, or a wait
    that was cut. *)
Lemma poll_power_trace n on b l b' l' res :
  poll_power (H := watched) n on (b, l) = ((b', l'), res) →
  poll_power n on b = (b', res)
  ∧ ∃ rs, Forall (off_target on) rs ∧
      match res with
      | None => length rs = n ∧ l' = l ++ readings rs
      | Some None => (length rs < n)%nat ∧ l' = l ++ readings (rs ++ [inr on])
      | Some (Some e) => (length rs < n)%nat ∧ l' = l ++ readings rs ++ [Waited (2 * 1000000000) (Some e)]
      end.
Proof.
  revert b l. induction n as [|n IH]; intros b l; cbn [poll_power].
  { intros [= <- <- <-]. split; [done|]. exists []. by rewrite app_nil_r. }
  cbn -[Seconds]. destruct (wait (Seconds 2) b) as [b1 [e|]]; cbn -[Seconds].
  { intros [= <- <- <-]. split; [done|]. exists []. split; [done|]. split; [cbn; lia|done]. }
  destruct (GetChassisStatus b1) as [b2 r]. cbn -[Seconds]. destruct (at_target on r) eqn:Et.
  { intros [= <- <- <-]. apply at_target_true in Et as ->. split; [done|]. exists []. split; [done|].
    split; [cbn; lia|]. by rewrite <- app_assoc. }
  apply at_target_false in Et. intros (Hp & rs & Hrs & Hres)%IH. split; [done|].
  exists (r :: rs). split; [by constructor|]. destruct res as [[e|]|]; destruct Hres as [Hl ->];
    (split; [cbn; lia|]); by rewrite <- !app_assoc.
Qed.

Lemma drive_loop_trace n k on b l b' l' res :
  (k + n = 6)%nat → drive_loop (H := watched) n on (b, l) = ((b', l'), res) →
  drive_loop n on b = (b', res)
  ∧ ∃ rounds t, Forall (missed_round on) rounds ∧ l' = l ++ mjoin rounds ++ t
      ∧ power_end on (k + length rounds) t res.
Proof.
  revert k b l. induction n as [|n IH]; intros k b l Hk; cbn [drive_loop].
  { intros [= <- <- <-]. split; [done|]. exists [], []. split; [done|]. rewrite app_nil_r. split; [done|].
    apply end_given_up. cbn. lia. }
  cbn [GetChassisStatus ChassisControl watched fst snd].
  destruct (GetChassisStatus b) as [b1 r]. destruct (at_target on r) eqn:Et.
  { cbv beta iota. intros [= <- <- <-]. apply at_target_true in Et as ->. split; [done|]. exists [], [StatusRead (inr on)].
    split; [done|]. split; [done|]. apply end_there. cbn. lia. }
  apply at_target_false in Et. cbn [fst snd]. destruct (ChassisControl on b1) as [b2 [e|]].
  { cbv beta iota. intros [= <- <- <-]. split; [done|]. exists [], [StatusRead r; Commanded on (Some e)].
    split; [done|]. rewrite <- app_assoc. split; [done|]. apply end_refused; [cbn; lia|done]. }
  cbn [fst snd]. destruct (poll_power (H := watched) 5 on (b2, (l ++ [StatusRead r]) ++ [Commanded on None]))
    as [[b3 l3] pr] eqn:Ep.
  apply poll_power_trace in Ep as (-> & rs & Hrs & Hpr). destruct pr as [[e|]|]; destruct Hpr as [Hlen ->].
  - intros [= <- <- <-]. split; [done|].
    eexists [], _. split; [done|]. rewrite <- !app_assoc. split; [reflexivity|]. apply end_context; [cbn; lia|done..].
  - intros [= <- <- <-]. split; [done|].
    eexists [], _. split; [done|]. rewrite <- !app_assoc. split; [reflexivity|]. apply end_reached; [cbn; lia|done..].
  - intros Hd. apply (IH (S k)) in Hd as (Hd & rounds & t & Hr & -> & He); [|lia]. split; [done|].
    exists ((StatusRead r :: Commanded on None :: readings rs) :: rounds), t.
    split; [constructor; [by exists r, rs|done]|]. split; [cbn; rewrite <- !app_assoc; cbn; by rewrite <- ?app_assoc|].
    cbn. by replace (k + S (length rounds))%nat with (S k + length rounds)%nat by lia.
Qed.

(** C26. A power transition insists until it is seen.  Whatever the BMC answers,
    what [drivePower] sends and reads is a number of rounds that missed (a
    reading of the power, then the command, then five readings two seconds
    apart, none of them showing the target state) and an end:
    it succeeds at the first reading that shows the target state, so a chassis
    that is there already receives no command; it fails when a command is
    refused or its context ends during a wait, with that error, or after six
    missed rounds, and in no other way.  So a command that firmware accepted
    and dropped is sent again, up to six times in all, and success is never
    told without the reading. *)
Theorem drivePower_reliable on b :
  let '((b', tr), res) := drivePower (H := watched) on (b, []) in
  drivePower on b = (b', res)
  ∧ ∃ rounds t, tr = mjoin rounds ++ t ∧ Forall (missed_round on) rounds
      ∧ power_end on (length rounds) t res.
Proof.
  unfold drivePower. destruct (drive_loop (H := watched) 6 on (b, [])) as [[b' tr] res] eqn:E.
  apply (drive_loop_trace 6 0) in E as (Hd & rounds & t & Hr & -> & He); [|done].
  split; [done|]. by exists rounds, t.
Qed.
End watching.

(** ** For the concrete runs: a chassis that drops power commands and sessions *)

Record MegaRAC : Type := mkMegaRAC {
  mr_power : bool;
  mr_drops : nat;               (** power commands it will still lose *)
  mr_connects : list string;    (** session failures before one succeeds *)
  mr_log : list bool;           (** power commands received *)
  mr_boot : list (list Z);      (** boot options received *)
  mr_opened : nat               (** connection attempts *)
}.

#[export] Instance MegaRAC_client : ChassisClient MegaRAC := {
  NewClient _ _ _ _ b := (b, None);
  Connect _ b :=
    (mkMegaRAC b.(mr_power) b.(mr_drops) (tail b.(mr_connects)) b.(mr_log) b.(mr_boot) (S b.(mr_opened)),
     head b.(mr_connects));
  CloseClient b := b;
  GetChassisStatus b := (b, inr b.(mr_power));
  ChassisControl on b :=
    (match b.(mr_drops) with
     | O => mkMegaRAC on 0 b.(mr_connects) (b.(mr_log) ++ [on]) b.(mr_boot) b.(mr_opened)
     | S k => mkMegaRAC b.(mr_power) k b.(mr_connects) (b.(mr_log) ++ [on]) b.(mr_boot) b.(mr_opened)
     end, None);
  RawCommand data b :=
    (mkMegaRAC b.(mr_power) b.(mr_drops) b.(mr_connects) b.(mr_log) (b.(mr_boot) ++ [data]) b.(mr_opened), None);
  wait _ b := (b, None)
}.

Lemma poll_power_MegaRAC left on b :
  poll_power left on b
  = (b, if (left =? 0)%nat then None else if Bool.eqb b.(mr_power) on then Some None else None).
Proof.
  induction left as [|left IH]; [done|].
  cbn [poll_power wait GetChassisStatus MegaRAC_client at_target Nat.eqb].
  rewrite IH. destruct (Bool.eqb (mr_power b) on); [done|]. by destruct left.
Qed.

Lemma eqb_neg b : Bool.eqb (negb b) b = false.
Proof. by destruct b. Qed.

(** From the wrong state: the losses, then the one that works. *)
Lemma drive_loop_drops left on drops cs log boot op :
  (drops < left)%nat →
  drive_loop left on (mkMegaRAC (negb on) drops cs log boot op)
  = (mkMegaRAC on 0 cs (log ++ replicate (S drops) on) boot op, None).
Proof.
  revert drops log. induction left as [|left IH]; intros drops log Hl; [lia|].
  cbn [drive_loop GetChassisStatus MegaRAC_client at_target mr_power].
  rewrite eqb_neg. cbn [ChassisControl MegaRAC_client mr_drops mr_power mr_connects mr_log mr_boot mr_opened].
  destruct drops as [|k]; rewrite poll_power_MegaRAC; cbn [mr_power Nat.eqb].
  - rewrite eqb_reflx. done.
  - rewrite eqb_neg, IH by lia. f_equal. f_equal. rewrite <- app_assoc. done.
Qed.

(** Two commands lost, the third one works; and a chassis that is there already. *)
Example drive_drops :
  drivePower true (mkMegaRAC false 2 [] [] [] 0) = (mkMegaRAC true 0 [] [true; true; true] [] 0, None)
  ∧ drivePower true (mkMegaRAC true 2 [] [] [] 0) = (mkMegaRAC true 2 [] [] [] 0, None)
  ∧ (drivePower true (mkMegaRAC false 6 [] [] [] 0)).2 = Some "chassis did not power on after retries".
Proof. vm_compute. done. Qed.

(** The first failure that is not a shortage of sessions decides. *)
Fixpoint dial_outcome (left : nat) (cs : list string) : nat * bool :=
  match left, cs with
  | S left', e :: cs' =>
      if isSessionExhausted (Some e) then let '(k, ok) := dial_outcome left' cs' in (S k, ok)
      else (1%nat, false)
  | S _, [] => (1%nat, true)
  | O, _ => (0%nat, false)
  end.

Lemma dial_loop_outcome left n le b :
  let '(b', err) := dial_loop left n le b in
  let '(k, ok) := dial_outcome left b.(mr_connects) in
  b'.(mr_opened) = (b.(mr_opened) + k)%nat ∧ b'.(mr_log) = b.(mr_log)
  ∧ b'.(mr_power) = b.(mr_power) ∧ b'.(mr_drops) = b.(mr_drops) ∧ b'.(mr_boot) = b.(mr_boot)
  ∧ (err = None ↔ ok = true).
Proof.
  revert le b. induction left as [|left IH]; intros le b.
  { cbn. repeat split; [lia|done..]. }
  cbn [dial_loop dial_outcome]. destruct (splitHostPort _) as [host port].
  cbn [NewClient Connect CloseClient wait MegaRAC_client]. destruct (mr_connects b) as [|e cs] eqn:Ec; cbn [head tail].
  { cbn. repeat split; [lia|done..]. }
  destruct (isSessionExhausted (Some e)) eqn:Ee; cbn [negb].
  - set (b1 := mkMegaRAC _ _ _ _ _ _). specialize (IH e b1).
    destruct (dial_loop left n e b1) as [b' err]. cbn in IH.
    destruct (dial_outcome left cs) as [k ok]. destruct IH as (H1 & H2 & H3 & H4 & H5 & H6).
    repeat split; try done; [rewrite H1; lia|apply H6|apply H6].
  - cbn. repeat split; [lia|done..].
Qed.

(** A cold cycle really cycles: on a chassis that refuses up to five
    sessions for lack of slots and loses up to five commands, PowerCycle opens
    its session, drives a running node off and then on, in that order, and
    leaves it on; with a session failure of any other kind first, it fails
    after that single attempt and touches the power not at all. *)
Theorem PowerCycle_cold n drops cs boot op :
  (drops ≤ 5)%nat →
  (∀ e, head cs = Some e → isSessionExhausted (Some e) = false →
     ∃ b' err, PowerCycle n (mkMegaRAC true drops cs [] boot op) = (b', Some err)
       ∧ b'.(mr_log) = [] ∧ b'.(mr_power) = true ∧ b'.(mr_opened) = S op)
  ∧ ((length cs ≤ 5)%nat → Forall (fun e => isSessionExhausted (Some e) = true) cs →
     ∃ b', PowerCycle n (mkMegaRAC true drops cs [] boot op) = (b', None)
       ∧ b'.(mr_log) = replicate (S drops) false ++ [true] ∧ b'.(mr_power) = true
       ∧ b'.(mr_opened) = (op + S (length cs))%nat).
Proof.
  intros Hd. unfold PowerCycle, dial.
  pose proof (dial_loop_outcome bmcConnectAttempts n "" (mkMegaRAC true drops cs [] boot op)) as Hdial.
  destruct (dial_loop _ _ _ _) as [[pw dr cs1 lg bt op1] err].
  split.
  - intros e He Hx. destruct cs as [|e' cs']; [done|]. cbn in He. injection He as ->.
    unfold bmcConnectAttempts in Hdial. cbn -[isSessionExhausted] in Hdial. rewrite Hx in Hdial.
    destruct Hdial as (H1 & H2 & H3 & H4 & H5 & H6). destruct err as [err|]; [|by destruct H6; discriminate H].
    eexists _, err. split; [reflexivity|]. cbn. subst. repeat split; lia.
  - intros Hlen Hall.
    assert (∀ left, (length cs < left)%nat → dial_outcome left cs = (S (length cs), true)) as Ho.
    { clear -Hall. induction Hall as [|e cs He Hall IH]; intros [|left] Hl; cbn in Hl |- *; try lia; [done|].
      unfold isSessionExhausted in He. rewrite He, IH by lia. done. }
    cbn [mr_connects] in Hdial. rewrite Ho in Hdial by (unfold bmcConnectAttempts; lia).
    destruct Hdial as (H1 & H2 & H3 & H4 & H5 & [_ H6]). cbn in H1, H2, H3, H4, H5.
    rewrite H6 by done. subst. unfold drivePower.
    rewrite (drive_loop_drops 6 false drops) by lia.
    rewrite (drive_loop_drops 6 true 0) by lia.
    eexists. split; [reflexivity|]. done.
Qed.

Definition megarac_node : Node := mkNode "a" "id" "10.0.0.1:6230" "u" "p" 17 ["AA:bb"] "/dev/sda".

Lemma drivePower_confirmed_witness :
  ∃ b0 r, GetChassisStatus b0 = (mkMegaRAC true 0 [] [true; true; true] [] 0, r)
    ∧ at_target true r = true.
Proof.
  apply (drivePower_confirmed (B := MegaRAC) true (mkMegaRAC false 2 [] [] [] 0)). reflexivity.
Defined.

Lemma PowerCycle_cold_witness :
  ∃ b', PowerCycle megarac_node
          (mkMegaRAC true 2 ["Insufficient resources to create a session"] [] [] 0) = (b', None)
    ∧ b'.(mr_log) = [false; false; false; true] ∧ b'.(mr_power) = true ∧ b'.(mr_opened) = 2%nat.
Proof.
  refine (proj2 (PowerCycle_cold megarac_node 2
    ["Insufficient resources to create a session"] [] 0 _) _ _); [lia|cbn; lia|].
  constructor; [reflexivity|constructor].
Defined.

(** ** BMC addresses *)

Lemma take_digits_all s acc v : digits_val acc s = Some v → take_digits s = s.
Proof.
  revert acc. induction s as [|c s IH]; intros acc; [done|]. cbn.
  destruct (digit c); [|done]. intros Hv. f_equal. by eapply IH.
Qed.

Lemma digit_not c d x : digit c = Some d → digit x = None → c ≠ x.
Proof. intros H1 H2 ->. congruence. Qed.

Lemma digit_not_space c d : digit c = Some d → is_space c = false ∧ Ascii.eqb c "010"%char = false.
Proof. destruct c as [[] [] [] [] [] [] [] []]; vm_compute; intros H; split; congruence. Qed.

Lemma Sscanf_Itoa z : 0 ≤ z ≤ MaxInt64 → Sscanf_d (Itoa z) = Some z.
Proof.
  intros Hz. destruct (Itoa_head z) as (c & s & d & Hs & Hd); [lia|].
  pose proof (udigits_Itoa z ltac:(lia)) as Hu. unfold udigits in Hu.
  assert (take_digits (Itoa z) = Itoa z) as Ht.
  { destruct (is_empty (Itoa z)); [done|]. by eapply take_digits_all. }
  destruct (digit_not_space _ _ Hd) as [Hsp Hnl].
  unfold Sscanf_d. rewrite Hs. cbn [skip_blank]. rewrite Hnl, Hsp.
  assert ((match String c s with String "-" r => ("-", r) | String "+" r => ("+", r)
           | _ => ("", String c s) end) = ("", String c s)) as ->.
  { assert (c ≠ "-"%char ∧ c ≠ "+"%char) as [H1 H2]
      by (split; eapply digit_not; by try exact Hd).
    destruct c as [[] [] [] [] [] [] [] []]; try reflexivity; by (destruct H1 || destruct H2). }
  rewrite <- Hs, Ht. cbn. by apply Atoi_Itoa.
Qed.

(** A BMC address with an explicit port is read back as written, and one
    without a colon gets the IPMI port 623. *)
Theorem splitHostPort_roundtrip host port :
  0 < port ≤ MaxInt64 →
  splitHostPort (host +:+ ":" +:+ Itoa port) = (host, port)
  ∧ (free_of ":" host → splitHostPort host = (host, 623)).
Proof.
  intros Hp. split.
  - unfold splitHostPort. change (":" +:+ Itoa port) with (String ":" (Itoa port)).
    rewrite LastIndexByte_app by (apply Itoa_free; [done|lia]).
    rewrite sdrop_S_app, Sscanf_Itoa by lia. rewrite (proj2 (Z.ltb_lt _ _)) by lia.
    by rewrite stake_app.
  - unfold splitHostPort, free_of. by intros ->.
Qed.

Lemma splitHostPort_roundtrip_witness :
  splitHostPort ("10.0.0.1" +:+ ":" +:+ Itoa 6230) = ("10.0.0.1", 6230)
  ∧ (free_of ":" "10.0.0.1" → splitHostPort "10.0.0.1" = ("10.0.0.1", 623)).
Proof. apply splitHostPort_roundtrip. unfold MaxInt64. lia. Defined.

(** An IPv6 address without a port loses its last group to the port. *)
Example splitHostPort_ipv6 : splitHostPort "fe80::1" = ("fe80:", 1).
Proof. vm_compute. reflexivity. Qed.

(** ** Install progress from the pxeserver's files

    A file is its content, [None] when it cannot be opened.  [bufio.Scanner]
    yields the lines; a line over 64 KiB would stop the scan there. *)
Definition drop_cr (s : string) : string := TrimSuffix s (String "013"%char "").

Fixpoint drop_last_empty (l : list string) : list string :=
  match l with
  | [] => []
  | [x] => if is_empty x then [] else [x]
  | x :: l' => x :: drop_last_empty l'
  end.

Definition scan_lines (content : string) : list string :=
  drop_cr <$> drop_last_empty (Split content "010"%char).

Record LeaseObserver : Type := mkLeaseObserver {
  LeasesPath : string;
  AccessLog : string;
  MediaSuffix : string
}.

Definition DefaultObserver : LeaseObserver :=
  mkLeaseObserver "/var/lib/misc/dnsmasq.leases" "/var/log/lighttpd/access.log" ".pkg".

Definition FS := string → option string.

(** [fields[2]] of the first line whose [fields[1]] is wanted. *)
Definition lease_of (want : list string) (line : string) : option string :=
  match Fields line with
  | _ :: mac :: ip :: _ => if contains want (ToLower mac) then Some ip else None
  | _ => None
  end.

Fixpoint first_lease (want : list string) (lines : list string) : string :=
  match lines with
  | [] => ""
  | l :: ls => match lease_of want l with Some ip => ip | None => first_lease want ls end
  end.

Definition leaseIP (fs : FS) (o : LeaseObserver) (want : list string) : string :=
  match fs o.(LeasesPath) with
  | None => ""
  | Some content => first_lease want (scan_lines content)
  end.

Definition ipFetchingMedia (fs : FS) (o : LeaseObserver) (ip : string) : bool :=
  match fs o.(AccessLog) with
  | None => false
  | Some content =>
      existsb (fun line => Contains line ip && Contains line o.(MediaSuffix)) (scan_lines content)
  end.

Definition observer_Stage (fs : FS) (o : LeaseObserver) (macs : list string) : Stage :=
  let want := (fun m => ToLower (TrimSpace m)) <$> macs in
  let ip := leaseIP fs o want in
  if is_empty ip then StageNone
  else if negb (is_empty o.(AccessLog)) && ipFetchingMedia fs o ip then StageImaging
  else StageDHCP.

(** [IPMIExecutor.Observe]: no observer means no progress is seen. *)
Definition Observe (obs : option LeaseObserver) (fs : FS) (n : Node) : Stage :=
  match obs with
  | None => StageNone
  | Some o => observer_Stage fs o n.(n_MACs)
  end.

Lemma first_lease_spec want lines :
  first_lease want lines
  = match head (omap (lease_of want) lines) with Some ip => ip | None => "" end.
Proof.
  induction lines as [|l ls IH]; [done|]. cbn. destruct (lease_of want l); [done|exact IH].
Qed.

(** The observer never sees an install as finished: on the driver's own
    executor only the agent's check-in moves a node past imaging. *)
Lemma observer_never_done fs o macs : observer_Stage fs o macs ≠ StageDone.
Proof. unfold observer_Stage. by repeat case_match. Qed.

Lemma Contains_app a s b : Contains (a +:+ s +:+ b) s = true.
Proof.
  unfold Contains.
  assert (∃ k, Index (a +:+ s +:+ b) s = Some k) as [k ->]; [|done].
  induction a as [|c a [k Hk]]; autorewrite with cube_str.
  - exists 0%nat. apply Index_prefix, HasPrefix_app.
  - cbn [Index]. rewrite Hk. destruct (HasPrefix _ _); eauto.
Qed.

(** The stage a node is observed at: none until one of its MACs holds a
    lease, DHCP from then on, imaging once a line of the access log contains
    the leased address and the media suffix.  The match on the address is by
    substring, so a request by any host whose address merely contains it (the
    lease 10.0.0.1 and the client 10.0.0.12) counts for this node too. *)
Theorem observer_substring fs o macs content log pre post suf :
  o.(AccessLog) ≠ "" → fs o.(LeasesPath) = Some content → fs o.(AccessLog) = Some log →
  let ip := first_lease ((fun m => ToLower (TrimSpace m)) <$> macs) (scan_lines content) in
  ip ≠ "" →
  (observer_Stage fs o macs = StageImaging ↔
     ∃ line, line ∈ scan_lines log ∧ Contains line ip = true ∧ Contains line o.(MediaSuffix) = true)
  ∧ (((pre +:+ ip +:+ post) +:+ o.(MediaSuffix) +:+ suf) ∈ scan_lines log →
     observer_Stage fs o macs = StageImaging).
Proof.
  intros Ha Hl Hlog ip Hip.
  assert (observer_Stage fs o macs = StageImaging ↔
     ∃ line, line ∈ scan_lines log ∧ Contains line ip = true ∧ Contains line o.(MediaSuffix) = true) as Hiff.
  { unfold observer_Stage, leaseIP. rewrite Hl. fold ip.
    rewrite (proj2 (is_empty_false ip)), (proj2 (is_empty_false (AccessLog o))) by done.
    cbn [negb andb]. unfold ipFetchingMedia. rewrite Hlog.
    destruct (existsb _ _) eqn:E.
    - apply existsb_exists in E as (line & Hin & Hc). to_prop. split; [|done].
      intros _. exists line. split; [by apply list_elem_of_In|tauto].
    - split; [done|]. intros (line & Hin & H1 & H2).
      apply not_true_iff_false in E. destruct E. apply existsb_exists. exists line.
      split; [by apply list_elem_of_In|]. by rewrite H1, H2. }
  split; [done|]. intros Hin. apply Hiff. eexists. split; [exact Hin|].
  split; [|apply Contains_app].
  rewrite !app_assoc_str. apply Contains_app.
Qed.

Definition demo_fs : FS := fun p =>
  if (p =? "/var/lib/misc/dnsmasq.leases")%string then Some "1 aa:bb 10.0.0.1 a *"
  else Some "10.0.0.12 - GET /media/cube.pkg".

(** Another client's download is taken for this node's. *)
Lemma observer_substring_witness :
  observer_Stage demo_fs DefaultObserver ["AA:BB"] = StageImaging.
Proof.
  refine (proj2 (observer_substring demo_fs DefaultObserver ["AA:BB"] "1 aa:bb 10.0.0.1 a *"
    "10.0.0.12 - GET /media/cube.pkg" "" "2 - GET /media/cube" "" _ eq_refl eq_refl _) _).
  - discriminate.
  - vm_compute. discriminate.
  - vm_compute. by left.
Defined.

(** ** The in-memory executor the tests use *)

Record FakeExecutor : Type := mkFakeExecutor {
  fx_observeCalls : gmap string Z;
  fx_bootDisk : gset string;
  fx_FailPreflight : gset string;
  fx_StepsToDone : Z
}.

Definition NewFakeExecutor : FakeExecutor := mkFakeExecutor ∅ ∅ ∅ 3.

Definition fake_Preflight (n : Node) (f : FakeExecutor) : option string :=
  if bool_decide (n.(n_Hostname) ∈ f.(fx_FailPreflight))
  then Some ("bmc preflight failed for " +:+ n.(n_Hostname)) else None.

Definition fake_SetBootDisk (n : Node) (f : FakeExecutor) : FakeExecutor :=
  mkFakeExecutor f.(fx_observeCalls) ({[n.(n_MachineID)]} ∪ f.(fx_bootDisk))
    f.(fx_FailPreflight) f.(fx_StepsToDone).

Definition fake_Observe (n : Node) (f : FakeExecutor) : FakeExecutor * Stage :=
  let c := default 0 (f.(fx_observeCalls) !! n.(n_Hostname)) + 1 in
  let f := mkFakeExecutor (<[n.(n_Hostname) := c]> f.(fx_observeCalls)) f.(fx_bootDisk)
             f.(fx_FailPreflight) f.(fx_StepsToDone) in
  let steps := if f.(fx_StepsToDone) <=? 0 then 3 else f.(fx_StepsToDone) in
  (f, if steps <=? c then StageDone
      else if steps - 1 <=? c then StageImaging
      else if 1 <=? c then StageDHCP else StageNone).
