(* ===== verification/EntModel.v ===== *)
(** * Enterprise installs: the records (internal/enterprise/model.go,
    manifest.go)

    Parameters, steps and install records of the module installer, the planned
    form of a step, and the version manifests that carry the support matrix. *)
From S2P Require Import Prelude GoStrings.

Open Scope string_scope.
Open Scope list_scope.
Open Scope Z_scope.

Definition ModuleAppFW : string := "appfw".
Definition ModuleCMP : string := "cmp".
Definition ModuleAdvisor : string := "advisor".

Inductive StepState := StepPending | StepActive | StepDone | StepError | StepSkipped.

#[export] Instance StepState_eq_dec : EqDecision StepState.
Proof. solve_decision. Defined.

Record InstallParams : Type := mkInstallParams {
  ip_Project : string;
  ip_PublicNet : string;
  ip_MgmtNet : string;
  ip_LBIP : string;
  ip_OSImage : string;
  ip_ExtpackFile : string;
  ip_Framework : string;
  ip_AppFile : string;
  ip_FsImage : string;
  ip_LBImage : string;
  ip_AdvisorFile : string;
  ip_AdvisorLBIP : string;
  ip_AdvisorPool : list string;
  ip_AdvisorBaseURL : string;
  ip_AdvisorProviderURL : string;
  ip_AdvisorProviderModel : string;
  ip_AdvisorProviderKeyFile : string;
  ip_StorageBackend : string
}.

Record Step : Type := mkStep {
  s_Name : string;
  s_Title : string;
  s_State : StepState;
  s_Output : string;
  s_Err : string;
  s_StartedAt : string;
  s_FinishedAt : string
}.

Definition set_s_State (v : StepState) (x : Step) : Step :=
  mkStep x.(s_Name) x.(s_Title) v x.(s_Output) x.(s_Err) x.(s_StartedAt) x.(s_FinishedAt).
Definition set_s_Output (v : string) (x : Step) : Step :=
  mkStep x.(s_Name) x.(s_Title) x.(s_State) v x.(s_Err) x.(s_StartedAt) x.(s_FinishedAt).
Definition set_s_Err (v : string) (x : Step) : Step :=
  mkStep x.(s_Name) x.(s_Title) x.(s_State) x.(s_Output) v x.(s_StartedAt) x.(s_FinishedAt).
Definition set_s_StartedAt (v : string) (x : Step) : Step :=
  mkStep x.(s_Name) x.(s_Title) x.(s_State) x.(s_Output) x.(s_Err) v x.(s_FinishedAt).
Definition set_s_FinishedAt (v : string) (x : Step) : Step :=
  mkStep x.(s_Name) x.(s_Title) x.(s_State) x.(s_Output) x.(s_Err) x.(s_StartedAt) v.

(** [State] of an install: a plain string in the code. *)
Record Install : Type := mkInstall {
  i_ClusterID : string;
  i_Module : string;
  i_Op : string;
  i_Host : string;
  i_StartedAt : string;
  i_Manual : bool;
  i_SimulateAirgap : bool;
  i_Params : InstallParams;
  i_Steps : list Step;
  i_Current : nat;
  i_State : string;
  i_Portal : string;
  i_Warnings : list string;
  i_Manifest : string;
  i_Lab : bool
}.

Definition set_i_Steps (v : list Step) (x : Install) : Install :=
  mkInstall x.(i_ClusterID) x.(i_Module) x.(i_Op) x.(i_Host) x.(i_StartedAt) x.(i_Manual)
    x.(i_SimulateAirgap) x.(i_Params) v x.(i_Current) x.(i_State) x.(i_Portal)
    x.(i_Warnings) x.(i_Manifest) x.(i_Lab).
Definition set_i_Current (v : nat) (x : Install) : Install :=
  mkInstall x.(i_ClusterID) x.(i_Module) x.(i_Op) x.(i_Host) x.(i_StartedAt) x.(i_Manual)
    x.(i_SimulateAirgap) x.(i_Params) x.(i_Steps) v x.(i_State) x.(i_Portal)
    x.(i_Warnings) x.(i_Manifest) x.(i_Lab).
Definition set_i_State (v : string) (x : Install) : Install :=
  mkInstall x.(i_ClusterID) x.(i_Module) x.(i_Op) x.(i_Host) x.(i_StartedAt) x.(i_Manual)
    x.(i_SimulateAirgap) x.(i_Params) x.(i_Steps) x.(i_Current) v x.(i_Portal)
    x.(i_Warnings) x.(i_Manifest) x.(i_Lab).
Definition set_i_Portal (v : string) (x : Install) : Install :=
  mkInstall x.(i_ClusterID) x.(i_Module) x.(i_Op) x.(i_Host) x.(i_StartedAt) x.(i_Manual)
    x.(i_SimulateAirgap) x.(i_Params) x.(i_Steps) x.(i_Current) x.(i_State) v
    x.(i_Warnings) x.(i_Manifest) x.(i_Lab).

(** [Kind] of a planned step. *)
Inductive Kind := KRun | KScpRun | KAirgap | KFramework | KDetect | KComplete.

#[export] Instance Kind_eq_dec : EqDecision Kind.
Proof. solve_decision. Defined.

Record plannedStep : Type := mkPlanned {
  ps_Name : string;
  ps_Title : string;
  ps_Kind : Kind;
  ps_Cmd : string;
  ps_LocalPath : string;
  ps_RemotePath : string;
  ps_ImageName : string;
  ps_Present : string;
  ps_Framework : string;
  ps_LBIP : string
}.

(** The composite literals of plan.go, by the fields they set. *)
Definition step_of (name title : string) (kind : Kind) (cmd : string) : plannedStep :=
  mkPlanned name title kind cmd "" "" "" "" "" "".
Definition scp_step (name title cmd localPath remotePath imageName present : string) : plannedStep :=
  mkPlanned name title KScpRun cmd localPath remotePath imageName present "" "".
Definition framework_step (name title cmd framework lbip : string) : plannedStep :=
  mkPlanned name title KFramework cmd "" "" "" "" framework lbip.

(** ** Manifests *)

Record ModuleEntry : Type := mkModuleEntry {
  me_Version : string;
  me_Status : string;
  me_Reason : string;
  me_Link : string
}.

Record Appfw : Type := mkAppfw { af_Extpack : option string; af_OSImage : string }.

Record Manifest : Type := mkManifest {
  mf_Name : string;
  mf_MatchVersion : string;
  mf_MatchCommit : string;
  mf_MatchBuild : string;
  mf_Appctl : string;
  mf_AirgapSupported : option bool;
  mf_Appfw : option Appfw;
  mf_ImportTenant : string;
  mf_ImportVisibility : string;
  mf_ImportStorageBackend : string;
  mf_ImportOS : string;
  mf_Schema : Z;
  mf_AdvisorReleaseKey : option (string * string);   (** [Trust], its key's two PEM texts *)
  mf_Modules : gmap string (list ModuleEntry)
}.
