(* ===== verification/EntManifest.v ===== *)
(** * Version manifests and the support matrix (internal/enterprise
    manifest.go, matrixversion.go, gate.go)

    Which manifest a cluster gets, how files on disk override the embedded
    ones, and whether a module version may be installed. *)
From S2P Require Import Prelude GoStrings EntModel.
From Stdlib Require Import Ascii OrdersEx.

Open Scope string_scope.
Open Scope list_scope.
Open Scope Z_scope.

(** [if v != "" { x = v }]. *)
Definition or_default (v d : string) : string := if is_empty v then d else v.

Definition importDefaults (m : option Manifest) : string * string * string * string :=
  match m with
  | None => ("admin", "public", "CubeStorage", "Others")
  | Some m => (or_default m.(mf_ImportTenant) "admin",
               or_default m.(mf_ImportVisibility) "public",
               or_default m.(mf_ImportStorageBackend) "CubeStorage",
               or_default m.(mf_ImportOS) "Others")
  end.

(** ** Overrides *)

Definition by_name (l : list Manifest) (acc : gmap string Manifest) : gmap string Manifest :=
  foldl (fun acc m => <[m.(mf_Name) := m]> acc) acc l.

(** One turn of the override loop. *)
Definition override_one (acc : gmap string Manifest) (m : Manifest) : gmap string Manifest :=
  match acc !! m.(mf_Name) with
  | Some b => if m.(mf_Schema) <? b.(mf_Schema) then acc else <[m.(mf_Name) := m]> acc
  | None => <[m.(mf_Name) := m]> acc
  end.

Definition name_le (a b : Manifest) : Prop := String.leb a.(mf_Name) b.(mf_Name) = true.

#[export] Instance name_le_dec : RelDecision name_le.
Proof. intros a b. unfold name_le. apply _. Defined.

Definition mergeManifests (base override : list Manifest) : list Manifest :=
  merge_sort name_le (snd <$> map_to_list (foldl override_one (by_name base ∅) override)).

(** A directory entry; [df_Content]: reading and decoding it. *)
Record dirFile : Type := mkDirFile { df_Name : string; df_IsDir : bool; df_Content : result Manifest }.

(** Unreadable, malformed and nameless files are skipped; [None]: no directory. *)
Definition load_entry (e : dirFile) : option Manifest :=
  if e.(df_IsDir) || negb (HasSuffix e.(df_Name) ".json") then None
  else match e.(df_Content) with
       | Ok m => if is_empty m.(mf_Name) then None else Some m
       | Err _ => None
       end.

Definition loadDir (entries : option (list dirFile)) : list Manifest :=
  match entries with Some l => omap load_entry l | None => [] end.

Definition LoadManifests (embedded root : option (list dirFile)) : list Manifest :=
  mergeManifests (loadDir embedded) (loadDir root).

(** ** Picking the manifest of a cluster *)

(** [parts[0]], [parts[1]], [parts[2]] when present. *)
Definition ParseVersion (etcVersion : string) : string * string * string :=
  let parts := Split (TrimPrefix (TrimSpace etcVersion) "CUBE_") "_"%char in
  (nth 0 parts "", nth 1 parts "", nth 2 parts "").

Definition buildStamp (b : string) : Z := (ParseInt (ReplaceAll b "-"%char "")).1.

(** [int64] subtraction wraps around. *)
Definition wrap64 (z : Z) : Z := (z + 2 ^ 63) mod 2 ^ 64 - 2 ^ 63.

Definition absDiff (a b : Z) : Z := if b <? a then wrap64 (a - b) else wrap64 (b - a).

(** The first manifest of the closest build. *)
Fixpoint closest (target : Z) (best : Manifest) (bestDiff : Z) (l : list Manifest) : Manifest :=
  match l with
  | [] => best
  | m :: l' =>
      let d := absDiff target (buildStamp m.(mf_MatchBuild)) in
      if d <? bestDiff then closest target m d l' else closest target best bestDiff l'
  end.

(** The scan of the list: an exact commit returns at once. *)
Fixpoint scan_same (ms : list Manifest) (version commit : string) (same : list Manifest)
    : Manifest + list Manifest :=
  match ms with
  | [] => inr (rev same)
  | m :: ms' =>
      if negb (m.(mf_MatchVersion) =? version)%string then scan_same ms' version commit same
      else if negb (is_empty commit) && (m.(mf_MatchCommit) =? commit)%string then inl m
      else scan_same ms' version commit (m :: same)
  end.

Definition MatchManifest (ms : list Manifest) (version build commit : string) : option Manifest :=
  match scan_same ms version commit [] with
  | inl m => Some m
  | inr [] => None
  | inr (m0 :: rest) =>
      let target := buildStamp build in
      Some (closest target m0 (absDiff target (buildStamp m0.(mf_MatchBuild))) rest)
  end.

Definition ManifestNames (ms : list Manifest) : list string := mf_Name <$> ms.

Definition FindManifest (ms : list Manifest) (name : string) : option Manifest :=
  find (fun m => (m.(mf_Name) =? name)%string) ms.

(** ** Module versions *)

(** [\d+], greedily: the digits and the rest. *)
Fixpoint span_digits (s : string) : string * string :=
  match s with
  | String c s' =>
      match digit c with
      | Some _ => let '(d, r) := span_digits s' in (String c d, r)
      | None => ("", s)
      end
  | "" => ("", "")
  end.

(** [\d+\.\d+\.\d+] at the start of [s]. *)
Definition match_version (s : string) : option (string * string) :=
  let '(a, s1) := span_digits s in
  if is_empty a then None else
  match s1 with
  | String "." s1 =>
      let '(b, s2) := span_digits s1 in
      if is_empty b then None else
      match s2 with
      | String "." s2 =>
          let '(c, s3) := span_digits s2 in
          if is_empty c then None else Some (a +:+ "." +:+ b +:+ "." +:+ c, s3)
      | _ => None
      end
  | _ => None
  end.

(** The rest of the name: an optional build tag, introduced by a plus or a minus
    and without a slash, then [.pigz]. *)
Definition match_tail (s : string) : bool :=
  (s =? ".pigz")%string ||
  match s with
  | String c r =>
      (Ascii.eqb c "+"%char || Ascii.eqb c "-"%char) && HasSuffix r ".pigz"
      && match LastIndexByte (TrimSuffix r ".pigz") "/"%char with Some _ => false | None => true end
  | "" => false
  end.

Definition artifactPrefix (module : string) : option string :=
  if (module =? ModuleCMP)%string then Some "cube-portal-"
  else if (module =? ModuleAdvisor)%string then Some "cube-advisor-" else None.

Definition ArtifactVersion (module file : string) : result string :=
  match artifactPrefix module with
  | None => Err ("module " +:+ Quote module +:+ " has no versioned artifact")
  | Some pre =>
      let bad := Err ("can't read a " +:+ module +:+ " version from " +:+ Quote file) in
      if HasPrefix file pre then
        match match_version (TrimPrefix file pre) with
        | Some (v, rest) => if match_tail rest then Ok v else bad
        | None => bad
        end
      else bad
  end.

Definition entries_of (m : Manifest) (module : string) : list ModuleEntry :=
  default [] (m.(mf_Modules) !! module).

Definition Constrains (m : option Manifest) (module : string) : bool :=
  match m with
  | None => false
  | Some m => negb (bool_decide (entries_of m module = []))
  end.

Definition Entry (m : option Manifest) (module version : string) : option ModuleEntry :=
  match m with
  | None => None
  | Some m => find (fun e => (e.(me_Version) =? version)%string) (entries_of m module)
  end.

#[export] Instance ModuleEntry_eq_dec : EqDecision ModuleEntry.
Proof. solve_decision. Defined.

(** The warning and the error of the Go pair. *)
Definition CheckModule (mf : option Manifest) (module file : string) (lab : bool) : result string :=
  let name := match mf with Some m => m.(mf_Name) | None => "" end in
  if (negb (module =? ModuleCMP)%string && negb (module =? ModuleAdvisor)%string)
     || negb (Constrains mf module) then Ok ""
  else
    let? ver := ArtifactVersion module file in
    match Entry mf module ver with
    | None =>
        let msg := module +:+ " " +:+ ver +:+ " is not in the " +:+ name +:+ " support matrix" in
        if lab then Ok (msg +:+ " (lab install, continuing)")
        else Err (msg +:+ " (tick Lab install to override)")
    | Some e =>
        let st := e.(me_Status) in
        if (st =? "blocked")%string then
          Err (module +:+ " " +:+ ver +:+ " is blocked on " +:+ name +:+ ": "
               +:+ e.(me_Reason) +:+ " " +:+ e.(me_Link))
        else if (st =? "deprecated")%string || (st =? "untested")%string then
          let w := module +:+ " " +:+ ver +:+ " is " +:+ st +:+ " on " +:+ name in
          Ok (if is_empty e.(me_Reason) then w else w +:+ ": " +:+ e.(me_Reason))
        else if (st =? "supported")%string then Ok ""
        else Err (module +:+ " " +:+ ver +:+ " has unknown status " +:+ Quote st +:+ " in " +:+ name)
    end.

(** ** The merge *)

Lemma by_name_lookup l acc n :
  by_name l acc !! n
  = match last (List.filter (fun m => (m.(mf_Name) =? n)%string) l) with
    | Some m => Some m
    | None => acc !! n
    end.
Proof.
  unfold by_name. revert acc. induction l as [|m l IH]; intros acc; [done|]. cbn [foldl].
  rewrite IH. cbn [List.filter]. destruct (String.eqb_spec (mf_Name m) n) as [<-|Hne].
  - rewrite last_cons. destruct (last _); [done|]. by rewrite lookup_insert_eq.
  - destruct (last _); [done|]. by rewrite lookup_insert_ne.
Qed.

Definition keyed (g : gmap string Manifest) : Prop := ∀ n m, g !! n = Some m → m.(mf_Name) = n.

Lemma by_name_keyed l acc : keyed acc → keyed (by_name l acc).
Proof.
  revert acc. induction l as [|m l IH]; intros acc Hk; [done|]. cbn. apply IH.
  intros n x. destruct (decide (mf_Name m = n)) as [<-|]; [rewrite lookup_insert_eq; congruence|].
  rewrite lookup_insert_ne by done. apply Hk.
Qed.

Lemma override_keyed l acc : keyed acc → keyed (foldl override_one acc l).
Proof.
  revert acc. induction l as [|m l IH]; intros acc Hk; [done|]. cbn [foldl]. apply IH.
  assert (keyed (<[mf_Name m := m]> acc)) as Hi.
  { intros n x. destruct (decide (mf_Name m = n)) as [<-|]; [rewrite lookup_insert_eq; congruence|].
    rewrite lookup_insert_ne by done. apply Hk. }
  unfold override_one. repeat case_match; done.
Qed.

Lemma override_lookup_ne l acc n :
  Forall (fun m => m.(mf_Name) ≠ n) l → foldl override_one acc l !! n = acc !! n.
Proof.
  intros Hl. revert acc. induction Hl as [|m l Hm Hl IH]; intros acc; [done|]. cbn [foldl].
  rewrite IH. unfold override_one. repeat case_match; rewrite ?lookup_insert_ne by done; done.
Qed.

(** What the last of several overrides of one name is compared with is the
    running winner; with one override per name it is the embedded manifest. *)
Lemma override_lookup l acc m :
  NoDup (mf_Name <$> l) → m ∈ l →
  foldl override_one acc l !! m.(mf_Name)
  = match acc !! m.(mf_Name) with
    | Some b => if m.(mf_Schema) <? b.(mf_Schema) then Some b else Some m
    | None => Some m
    end.
Proof.
  intros Hnd Hin. revert acc. induction l as [|x l IH]; intros acc; [by apply elem_of_nil in Hin|].
  cbn [fmap list_fmap] in Hnd. apply NoDup_cons in Hnd as [Hx Hnd]. cbn [foldl].
  apply elem_of_cons in Hin as [->|Hin].
  - rewrite override_lookup_ne.
    + unfold override_one. destruct (acc !! mf_Name x) as [b|] eqn:E; [|by rewrite lookup_insert_eq].
      destruct (_ <? _); [done|by rewrite lookup_insert_eq].
    + apply Forall_forall. intros y Hy Heq. apply Hx. rewrite <- Heq. by apply list_elem_of_fmap_2.
  - rewrite IH by done. assert (mf_Name x ≠ mf_Name m) as Hne.
    { intros Heq. apply Hx. rewrite Heq. by apply list_elem_of_fmap_2. }
    unfold override_one. repeat case_match; rewrite ?lookup_insert_ne in * by done; congruence.
Qed.

#[export] Instance leb_total : Total name_le.
Proof.
  intros a b. unfold name_le. destruct (String.leb_total (mf_Name a) (mf_Name b)); auto.
Qed.

Lemma elem_of_merge base override m :
  m ∈ mergeManifests base override
  ↔ foldl override_one (by_name base ∅) override !! m.(mf_Name) = Some m.
Proof.
  unfold mergeManifests. set (g := foldl _ _ _).
  assert (keyed g) as Hk by (by apply override_keyed, by_name_keyed; intros ??).
  rewrite merge_sort_Permutation, list_elem_of_fmap. split.
  - intros ([n x] & -> & Hin). apply elem_of_map_to_list in Hin. cbn. by rewrite (Hk _ _ Hin).
  - intros Hl. exists (m.(mf_Name), m). split; [done|]. by apply elem_of_map_to_list.
Qed.

Lemma merge_names_NoDup base override : NoDup (mf_Name <$> mergeManifests base override).
Proof.
  unfold mergeManifests. set (g := foldl _ _ _).
  assert (keyed g) as Hk by (by apply override_keyed, by_name_keyed; intros ??).
  rewrite merge_sort_Permutation. rewrite <- list_fmap_compose.
  assert ((mf_Name ∘ snd) <$> map_to_list g = fst <$> map_to_list g) as ->; [|apply NoDup_fst_map_to_list].
  apply list_fmap_ext. intros i [n x] Hi. cbn. apply Hk.
  apply elem_of_map_to_list. by eapply list_elem_of_lookup_2.
Qed.

Lemma find_name l m : NoDup (mf_Name <$> l) → m ∈ l → FindManifest l m.(mf_Name) = Some m.
Proof.
  unfold FindManifest. induction l as [|x l IH]; [by intros _ ?%not_elem_of_nil|]. cbn.
  intros [Hx Hnd]%NoDup_cons [-> |Hin]%elem_of_cons; [by rewrite String.eqb_refl|].
  destruct (String.eqb_spec (mf_Name x) (mf_Name m)) as [Heq|]; [|by apply IH].
  exfalso. apply Hx. rewrite Heq. by apply list_elem_of_fmap_2.
Qed.

(** An embedded manifest that nothing overrides is found by its name. *)
Lemma load_embedded base m :
  m ∈ base → (∀ x, x ∈ base → x.(mf_Name) = m.(mf_Name) → x = m) →
  FindManifest (mergeManifests base []) m.(mf_Name) = Some m.
Proof.
  intros Hin Hu. apply find_name; [apply merge_names_NoDup|]. apply elem_of_merge. cbn [foldl].
  rewrite by_name_lookup, lookup_empty.
  assert (m ∈ List.filter (fun x => (mf_Name x =? mf_Name m)%string) base) as Hf
    by (apply list_elem_of_In, filter_In; split; [by apply list_elem_of_In|apply String.eqb_refl]).
  destruct (last _) as [x|] eqn:El; [|apply last_None in El; by rewrite El in Hf; apply not_elem_of_nil in Hf].
  apply last_Some_elem_of, list_elem_of_In, filter_In in El as [Hx%list_elem_of_In Hn%String.eqb_eq].
  f_equal. by apply Hu.
Qed.

#[export] Instance name_le_trans : Transitive name_le.
Proof. intros a b c. apply leb_trans. Qed.

(** The merged manifest list is a lookup table by name, in name order and
    without duplicates: with one override per name, a name maps to the
    override unless its schema is lower than the embedded manifest's, which it
    then keeps; names only one side has are all there. *)
Theorem mergeManifests_spec base override m :
  NoDup (mf_Name <$> override) →
  let embedded := last (List.filter (fun x => (x.(mf_Name) =? m.(mf_Name))%string) base) in
  NoDup (mf_Name <$> mergeManifests base override)
  ∧ StronglySorted name_le (mergeManifests base override)
  ∧ (m ∈ override →
     m ∈ mergeManifests base override
     ↔ match embedded with Some b => b.(mf_Schema) ≤ m.(mf_Schema) ∨ b = m | None => True end)
  ∧ (Forall (fun x => x.(mf_Name) ≠ m.(mf_Name)) override →
     m ∈ mergeManifests base override ↔ embedded = Some m).
Proof.
  intros Hnd embedded. split; [apply merge_names_NoDup|]. split.
  { unfold mergeManifests. apply (StronglySorted_merge_sort name_le). }
  split.
  - intros Hin. rewrite elem_of_merge, (override_lookup _ _ _ Hnd Hin), by_name_lookup.
    fold embedded. rewrite lookup_empty. destruct embedded as [b|]; [|done].
    destruct (Z.ltb_spec (mf_Schema m) (mf_Schema b)); split; intros; intuition (congruence || lia).
  - intros Hne. rewrite elem_of_merge, override_lookup_ne by done. rewrite by_name_lookup.
    fold embedded. rewrite lookup_empty. by destruct embedded.
Qed.

Definition no_names : list Manifest := [].

Definition mk_mf (name version commit build : string) (schema : Z)
    (mods : gmap string (list ModuleEntry)) : Manifest :=
  mkManifest name version commit build "" None None "" "" "" "" schema None mods.

Lemma mergeManifests_spec_witness :
  NoDup (mf_Name <$> [mk_mf "a" "3.1.0" "" "" 1 ∅])
  ∧ NoDup (mf_Name <$> mergeManifests [mk_mf "a" "3.0.0" "" "" 2 ∅] [mk_mf "a" "3.1.0" "" "" 1 ∅]).
Proof.
  assert (NoDup (mf_Name <$> [mk_mf "a" "3.1.0" "" "" 1 ∅])) as H by (apply NoDup_singleton).
  split; [exact H|].
  exact (proj1 (mergeManifests_spec [mk_mf "a" "3.0.0" "" "" 2 ∅] [mk_mf "a" "3.1.0" "" "" 1 ∅]
    (mk_mf "a" "3.1.0" "" "" 1 ∅) H)).
Defined.

(** ** The match *)

Lemma digit_minus : digit "-"%char = None.
Proof. reflexivity. Qed.

Lemma ReplaceAll_no_sep s sep : (LastIndexByte (ReplaceAll s sep "") sep) = None.
Proof.
  induction s as [|c s IH]; [done|]. cbn. destruct (Ascii.eqb c sep) eqn:E; [exact IH|].
  cbn. by rewrite IH, E.
Qed.

Lemma ParseInt_nonneg s :
  LastIndexByte s "-"%char = None → 0 ≤ (ParseInt s).1 ≤ MaxInt64.
Proof.
  intros Hs. unfold ParseInt.
  set (nb := match s with String "-" r => (true, r) | String "+" r => (false, r) | _ => (false, s) end).
  assert (nb.1 = false) as Hn.
  { subst nb. destruct s as [|[[] [] [] [] [] [] [] []] s]; try reflexivity. exfalso. cbn in Hs.
    by destruct (LastIndexByte s "-"%char). }
  destruct nb as [neg body]. cbn in Hn. subst neg. unfold udigits.
  destruct (is_empty body); [cbn; unfold MaxInt64; lia|].
  destruct (digits_val 0 body) as [v|] eqn:Ev; [|cbn; unfold MaxInt64; lia].
  apply digits_val_nonneg in Ev; [|lia].
  destruct (Z.ltb_spec MaxInt64 v); cbn; [unfold MaxInt64; lia|].
  destruct (Z.ltb_spec v MinInt64); cbn; unfold MinInt64, MaxInt64 in *; lia.
Qed.

Lemma buildStamp_range b : 0 ≤ buildStamp b ≤ MaxInt64.
Proof. apply ParseInt_nonneg, ReplaceAll_no_sep. Qed.

(** No overflow: build stamps are never negative. *)
Lemma absDiff_abs a b :
  absDiff (buildStamp a) (buildStamp b) = Z.abs (buildStamp a - buildStamp b).
Proof.
  pose proof (buildStamp_range a). pose proof (buildStamp_range b).
  unfold absDiff, wrap64, MaxInt64 in *. destruct (Z.ltb_spec (buildStamp b) (buildStamp a));
    rewrite Z.mod_small; lia.
Qed.

Definition distance (build : string) (m : Manifest) : Z :=
  Z.abs (buildStamp build - buildStamp m.(mf_MatchBuild)).

Lemma closest_spec build best l :
  let r := closest (buildStamp build) best (distance build best) l in
  (r = best ∨ r ∈ l) ∧ distance build r ≤ distance build best
  ∧ Forall (fun m => distance build r ≤ distance build m) l.
Proof.
  revert best. induction l as [|m l IH]; intros best; cbn [closest].
  { split; [by left|]. split; [done|constructor]. }
  rewrite absDiff_abs. fold (distance build m).
  destruct (Z.ltb_spec (distance build m) (distance build best)) as [Hlt|Hge].
  - destruct (IH m) as (H1 & H2 & H3). split; [set_solver|]. split; [lia|]. by constructor.
  - destruct (IH best) as (H1 & H2 & H3). split; [set_solver|]. split; [done|].
    constructor; [lia|done].
Qed.

Definition same_version (version : string) (m : Manifest) : bool := (m.(mf_MatchVersion) =? version)%string.
Definition exact_commit (version commit : string) (m : Manifest) : bool :=
  same_version version m && negb (is_empty commit) && (m.(mf_MatchCommit) =? commit)%string.

Lemma scan_same_spec ms version commit acc :
  scan_same ms version commit acc
  = match find (exact_commit version commit) ms with
    | Some m => inl m
    | None => inr (rev acc ++ List.filter (same_version version) ms)
    end.
Proof.
  revert acc. induction ms as [|m ms IH]; intros acc; cbn [scan_same find List.filter].
  { by rewrite app_nil_r. }
  unfold exact_commit, same_version in *. destruct (mf_MatchVersion m =? version)%string; cbn [negb andb]; [|apply IH].
  destruct (negb (is_empty commit) && (mf_MatchCommit m =? commit)%string); [done|].
  rewrite IH. destruct (find _ ms); [done|]. cbn [rev]. by rewrite <- app_assoc.
Qed.

(** A cluster gets the right manifest: one is found exactly when some
    manifest names its version; an exact commit wins (the first such entry);
    otherwise the answer has the version and, among all manifests of that
    version, a build stamp at the least distance from the cluster's, with no
    overflow in the comparison. *)
Theorem MatchManifest_spec ms version build commit :
  match MatchManifest ms version build commit with
  | None => Forall (fun m => m.(mf_MatchVersion) ≠ version) ms
  | Some m =>
      m ∈ ms ∧ m.(mf_MatchVersion) = version
      ∧ (find (exact_commit version commit) ms = Some m
         ∨ find (exact_commit version commit) ms = None
           ∧ ∀ m', m' ∈ ms → m'.(mf_MatchVersion) = version → distance build m ≤ distance build m')
  end.
Proof.
  unfold MatchManifest. rewrite scan_same_spec. cbn [rev app].
  destruct (find (exact_commit version commit) ms) as [m|] eqn:Ef.
  { apply find_some in Ef as Hf. destruct Hf as [Hin Hm]. unfold exact_commit, same_version in Hm.
    to_prop. split; [by apply list_elem_of_In|]. split; [tauto|by left]. }
  assert (∀ m', m' ∈ List.filter (same_version version) ms ↔ m' ∈ ms ∧ mf_MatchVersion m' = version) as Hs.
  { intros m'. rewrite !list_elem_of_In, filter_In. unfold same_version. by rewrite String.eqb_eq. }
  destruct (List.filter (same_version version) ms) as [|m0 rest] eqn:El.
  { apply Forall_forall. intros m Hin Hv. pose proof (proj2 (Hs m) (conj Hin Hv)) as Hx. by apply elem_of_nil in Hx. }
  rewrite absDiff_abs. fold (distance build m0).
  destruct (closest_spec build m0 rest) as (Hr & Hb & Hall). set (r := closest _ _ _ _) in *.
  assert (r ∈ m0 :: rest) as Hin by (destruct Hr as [->|Hr]; [by left|by right]).
  apply Hs in Hin as [Hin Hv]. split; [done|]. split; [done|]. right. split; [done|].
  intros m' Hin' Hv'. pose proof (proj2 (Hs m') (conj Hin' Hv')) as Hm'.
  apply elem_of_cons in Hm' as [->|Hm']; [done|].
  rewrite Forall_forall in Hall. by apply Hall.
Qed.

(** ** The gate *)

(** The support matrix is enforced: an install is let through only if the
    module or the manifest carries no constraints, the version is listed with a
    status other than blocked, or it is not listed at all and this is a lab
    install; a blocked version is refused even for a lab install, and the
    warning is empty exactly for supported or unconstrained versions. *)
Theorem CheckModule_gate mf module file lab w :
  CheckModule (Some mf) module file lab = Ok w →
  (module ≠ ModuleCMP ∧ module ≠ ModuleAdvisor ∧ w = "")
  ∨ (entries_of mf module = [] ∧ w = "")
  ∨ ∃ ver, ArtifactVersion module file = Ok ver
      ∧ match Entry (Some mf) module ver with
        | None => lab = true ∧ w ≠ ""
        | Some e => e.(me_Status) ≠ "blocked"
                    ∧ (e.(me_Status) = "supported" ∧ w = ""
                       ∨ (e.(me_Status) = "deprecated" ∨ e.(me_Status) = "untested") ∧ w ≠ "")
        end.
Proof.
  assert (∀ a b : string, a ≠ "" → a +:+ b ≠ "") as Happ 
    by (intros [|c a] b Ha; [by destruct Ha|by rewrite append_cons]).
  assert (module = ModuleCMP ∨ module = ModuleAdvisor → module ≠ "") as Hm by (intros [->| ->]; done).
  unfold CheckModule. destruct (_ || _) eqn:Ec.
  { intros [= <-]. apply orb_true_iff in Ec as [Ec|Ec].
    - left. to_prop. tauto.
    - right. left. split; [|done]. unfold Constrains in Ec. rewrite negb_involutive in Ec.
      by apply bool_decide_eq_true in Ec. }
  apply orb_false_iff in Ec as [Ec _].
  assert (module ≠ "") as Hne.
  { apply Hm. destruct (String.eqb_spec module ModuleCMP); [by left|].
    destruct (String.eqb_spec module ModuleAdvisor); [by right|done]. }
  destruct (ArtifactVersion module file) as [ver|e] eqn:Ev; cbn [result_bind]; [|done].
  intros H. right. right. exists ver. split; [done|].
  destruct (Entry (Some mf) module ver) as [e|].
  - destruct (String.eqb_spec (me_Status e) "blocked"); [done|]. split; [done|].
    destruct (String.eqb_spec (me_Status e) "deprecated"), (String.eqb_spec (me_Status e) "untested"),
      (String.eqb_spec (me_Status e) "supported"); cbn in H; try done;
      injection H as <-; try (by left); right; (split; [tauto|]); case_match; by repeat apply Happ.
  - destruct lab; [|done]. injection H as <-. split; [done|]. rewrite app_assoc_str. by apply Happ.
Qed.

Definition mf_ex : Manifest :=
  mk_mf "3.1.0" "3.1.0" "" "20260313-1639" 1
    {["cmp" := [mkModuleEntry "2.1.0" "untested" "new" ""]]}.

Lemma CheckModule_gate_witness :
  ∃ ver, ArtifactVersion "cmp" "cube-portal-2.1.0+b7.pigz" = Ok ver ∧ ver = "2.1.0".
Proof.
  assert (CheckModule (Some mf_ex) "cmp" "cube-portal-2.1.0+b7.pigz" false
    = Ok "cmp 2.1.0 is untested on 3.1.0: new") as H by (vm_compute; reflexivity).
  destruct (CheckModule_gate _ _ _ _ _ H) as [(Hm & _)|[(He & _)|(ver & Hv & _)]].
  - exfalso. by apply Hm.
  - exfalso. revert He. vm_compute. discriminate.
  - exists ver. split; [exact Hv|]. revert Hv. vm_compute. congruence.
Defined.
