(* ===== verification/ManifestGen.v ===== *)
(** * Building the embedded manifests (cmd/manifestgen main.go)

    [generate] joins the support matrix with a release's facts into the
    manifests that EntManifest.v reads at run time.  The decoded YAML and JSON
    and the key files are arguments; the two [range] loops over maps take the
    order they visit as an argument.  What is generated makes the
    installer's gate decide as the matrix says. *)
From S2P Require Import Prelude GoStrings EntModel EntManifest.
From Stdlib Require Import Ascii.

Open Scope string_scope.
Open Scope list_scope.
Open Scope Z_scope.
Open Scope go_scope.

Record facts : Type := mkFacts {
  ft_Version : string;
  ft_AirgapSupported : option bool;
  ft_Import : option (result (string * string * string * string));  (** its decoding, if present *)
  ft_Appfw : option Appfw;
  ft_AdvisorReleaseKey : option (string * string)  (** names of the key files *)
}.

Record Matrix : Type := mkMatrix {
  mx_Intermediate : list string;
  mx_Releases : gmap string (gmap string (list ModuleEntry))
}.

(** What the directories hold: a facts file's bytes may be unreadable (the
    outer error) or not decode (the inner one). *)
Record Inputs : Type := mkInputs {
  in_facts : string → result (result facts);
  in_key : string → result string
}.

Definition plainVersion (v : string) : bool :=
  match match_version v with Some (_, r) => is_empty r | None => false end.

Definition statuses (s : string) : bool :=
  contains ["supported"; "untested"; "deprecated"; "blocked"] s.

Definition check_entry (ver module : string) (seen : list string) (e : ModuleEntry) : result unit :=
  if negb (plainVersion e.(me_Version)) then
    Err (ver +:+ " " +:+ module +:+ ": version " +:+ Quote e.(me_Version)
         +:+ " must be MAJOR.MINOR.PATCH (no build tag)")
  else if negb (statuses e.(me_Status)) then
    Err (ver +:+ " " +:+ module +:+ " " +:+ e.(me_Version) +:+ ": unknown status " +:+ Quote e.(me_Status))
  else if ((e.(me_Status) =? "blocked")%string || (e.(me_Status) =? "deprecated")%string)
          && is_empty e.(me_Reason) then
    Err (ver +:+ " " +:+ module +:+ " " +:+ e.(me_Version) +:+ ": " +:+ e.(me_Status) +:+ " needs a reason")
  else if contains seen e.(me_Version) then
    Err (ver +:+ " " +:+ module +:+ ": version " +:+ e.(me_Version) +:+ " listed twice")
  else Ok tt.

Fixpoint check_entries (ver module : string) (seen : list string) (l : list ModuleEntry) : result unit :=
  match l with
  | [] => Ok tt
  | e :: l => let? _ := check_entry ver module seen e in
              check_entries ver module (e.(me_Version) :: seen) l
  end.

(** [fmt.Errorf] around an error. *)
Definition wrap {A} (word : string → string) (r : result A) : result A :=
  match r with Ok a => Ok a | Err e => Err (word e) end.

Section generate.
Context (inp : Inputs).

(** One turn of the loop over the releases; [mods] is the order in which the
    inner loop visits the modules. *)
Definition generate_release (ver : string) (modules : gmap string (list ModuleEntry)) (mods : list string) :
    result Manifest :=
  let? fb := wrap (fun e => "release " +:+ ver +:+ ": no facts (" +:+ e +:+ ")") (in_facts inp ver) in
  let? f := wrap (fun e => "cos-" +:+ ver +:+ ".json: " +:+ e) fb in
  let? imp := default (Ok ("", "", "", "")) f.(ft_Import) in
  let '(tenant, visibility, backend, os) := imp in
  let? trust := match f.(ft_AdvisorReleaseKey) with
                | None => Ok None
                | Some (p384, mldsa) =>
                    let? p := in_key inp p384 in
                    let? ml := in_key inp mldsa in
                    Ok (Some (p, ml))
                end in
  let m := mkManifest ("v" +:+ ver) ver "" "" "" f.(ft_AirgapSupported) f.(ft_Appfw)
             tenant visibility backend os 2 trust modules in
  let? _ := first_err (fun md => check_entries ver md [] (default [] (modules !! md))) mods in
  Ok m.

Definition file_name (ver : string) : string := "v" +:+ ver +:+ ".json".

Fixpoint generate_loop (rel : gmap string (gmap string (list ModuleEntry))) (mods : string → list string)
    (vers : list string) (out : gmap string Manifest) : result (gmap string Manifest) :=
  match vers with
  | [] => Ok out
  | ver :: vers =>
      let? m := generate_release ver (default ∅ (rel !! ver)) (mods ver) in
      generate_loop rel mods vers (<[file_name ver := m]> out)
  end.

Definition generate (mx : Matrix) (vers : list string) (mods : string → list string) :
    result (gmap string Manifest) :=
  let? _ := first_err (fun v => match mx.(mx_Releases) !! v with
                                | Some _ => Err (v +:+ " is intermediate (upgrade hop only) and must not have module rows")
                                | None => Ok tt
                                end) mx.(mx_Intermediate) in
  generate_loop mx.(mx_Releases) mods vers ∅.
End generate.

(** [vers] and [mods] are orders in which Go may visit the matrix. *)
Record visits (mx : Matrix) (vers : list string) (mods : string → list string) : Prop := mk_visits {
  vs_nodup : NoDup vers;
  vs_vers : ∀ v, v ∈ vers ↔ is_Some (mx.(mx_Releases) !! v);
  vs_mods : ∀ v ms, mx.(mx_Releases) !! v = Some ms → ∀ m, m ∈ mods v ↔ is_Some (ms !! m)
}.

(** ** What a generated manifest holds *)

Definition known (e : ModuleEntry) : Prop :=
  plainVersion e.(me_Version) = true ∧ statuses e.(me_Status) = true
  ∧ ((e.(me_Status) = "blocked" ∨ e.(me_Status) = "deprecated") → e.(me_Reason) ≠ "").

Lemma check_entry_ok ver md seen e :
  check_entry ver md seen e = Ok tt ↔ known e ∧ e.(me_Version) ∉ seen.
Proof.
  unfold check_entry, known.
  destruct (plainVersion (me_Version e)); cbn [negb]; [|by split; [|intros [[? _] _]]].
  destruct (statuses (me_Status e)); cbn [negb]; [|by split; [|intros [(_ & ? & _) _]]].
  assert (((me_Status e =? "blocked")%string || (me_Status e =? "deprecated")%string) && is_empty (me_Reason e) = false
    ↔ (me_Status e = "blocked" ∨ me_Status e = "deprecated" → me_Reason e ≠ "")) as Hr.
  { unfold is_empty. destruct (String.eqb_spec (me_Status e) "blocked"),
      (String.eqb_spec (me_Status e) "deprecated"), (String.eqb_spec (me_Reason e) ""); cbn; intuition congruence. }
  destruct (_ && _); [split; [done|]; intros [(_ & _ & H) _]; by apply Hr in H|].
  pose proof (contains_true seen (me_Version e)) as Hc. destruct (contains seen (me_Version e)).
  - split; [done|]. intros [_ H]. exfalso. by apply H, Hc.
  - split; [|done]. intros _. split; [split_and!; [done|done|by apply Hr]|]. intros H%Hc. done.
Qed.

Lemma check_entries_ok ver md l seen :
  check_entries ver md seen l = Ok tt ↔
  Forall known l ∧ NoDup (me_Version <$> l) ∧ ∀ v, v ∈ me_Version <$> l → v ∉ seen.
Proof.
  revert seen. induction l as [|e l IH]; intros seen; cbn.
  { split; [intros _; repeat constructor; set_solver|done]. }
  rewrite Forall_cons, NoDup_cons. pose proof (check_entry_ok ver md seen e) as He.
  destruct (check_entry ver md seen e) as [[]|x]; cbn.
  - destruct (proj1 He eq_refl) as [Hk Hn]. rewrite IH. clear IH He. split.
    + intros (Hl & Hd & Hs). split_and!; try done.
      * intros Hin. apply (Hs _ Hin). by left.
      * intros v [-> |Hin]%elem_of_cons; [done|]. intros Hv. apply (Hs _ Hin). by right.
    + intros ([_ Hl] & [Hnin Hd] & Hs). split_and!; try done.
      intros v Hin [-> |Hv]%elem_of_cons; [done|]. apply (Hs v); [by right|done].
  - split; [done|]. intros ([Hk _] & _ & Hs). exfalso.
    assert (@Err unit x = Ok tt) by (apply He; split; [done|apply Hs; by left]). done.
Qed.

(** All rows of a release pass. *)
Definition rows_ok (modules : gmap string (list ModuleEntry)) : Prop :=
  ∀ md l, modules !! md = Some l → Forall known l ∧ NoDup (me_Version <$> l).

Lemma rows_checked ver modules mods :
  (∀ md, md ∈ mods ↔ is_Some (modules !! md)) →
  first_err (fun md => check_entries ver md [] (default [] (modules !! md))) mods = Ok tt ↔ rows_ok modules.
Proof.
  intros Hm. rewrite first_err_Ok, Forall_forall. split.
  - intros H md l Hl. specialize (H md ltac:(apply Hm; by exists l)). rewrite Hl in H.
    apply check_entries_ok in H. tauto.
  - intros H md Hin. apply Hm in Hin as [l Hl]. rewrite Hl. cbn. apply check_entries_ok.
    destruct (H md l Hl). split_and!; [done|done|]. intros v _ Hv. by apply not_elem_of_nil in Hv.
Qed.

(** The manifest of a release, if its rows pass. *)
Definition manifest_of (inp : Inputs) (ver : string) (modules : gmap string (list ModuleEntry)) : result Manifest :=
  generate_release inp ver modules [].

Lemma generate_release_eq inp ver modules mods m :
  (∀ md, md ∈ mods ↔ is_Some (modules !! md)) →
  generate_release inp ver modules mods = Ok m ↔ manifest_of inp ver modules = Ok m ∧ rows_ok modules.
Proof.
  intros Hm. rewrite <- (rows_checked ver modules mods Hm). unfold manifest_of, generate_release.
  destruct (wrap _ (in_facts inp ver)) as [fb|e]; cbn; [|naive_solver].
  destruct (wrap _ fb) as [f|e]; cbn; [|naive_solver].
  destruct (default _ (ft_Import f)) as [[[[t v] b] o]|e]; cbn; [|naive_solver].
  destruct (match ft_AdvisorReleaseKey f with None => _ | Some _ => _ end) as [tr|e]; cbn; [|naive_solver].
  destruct (first_err _ mods) as [[]|e]; cbn; naive_solver.
Qed.

Lemma manifest_of_fields inp ver modules m :
  manifest_of inp ver modules = Ok m →
  m.(mf_Name) = "v" +:+ ver ∧ m.(mf_MatchVersion) = ver ∧ m.(mf_Modules) = modules.
Proof.
  unfold manifest_of, generate_release.
  destruct (wrap _ (in_facts inp ver)) as [fb|e]; cbn; [|done].
  destruct (wrap _ fb) as [f|e]; cbn; [|done].
  destruct (default _ (ft_Import f)) as [[[[t v] b] o]|e]; cbn; [|done].
  destruct (match ft_AdvisorReleaseKey f with None => _ | Some _ => _ end) as [tr|e]; cbn; [|done].
  by intros [= <-].
Qed.

#[export] Instance file_name_inj : Inj (=) (=) file_name.
Proof.
  intros a b H. unfold file_name in H. autorewrite with cube_str in H. injection H as H.
  rewrite <- (TrimSuffix_app a ".json"), <- (TrimSuffix_app b ".json"). by f_equal.
Qed.

Section loop.
Context (inp : Inputs) (mx : Matrix).

(** A release passes with manifest [m]. *)
Definition release_ok (v : string) (m : Manifest) : Prop :=
  manifest_of inp v (default ∅ (mx.(mx_Releases) !! v)) = Ok m ∧ rows_ok (default ∅ (mx.(mx_Releases) !! v)).

Lemma generate_loop_ok mods vers out g :
  NoDup vers →
  (∀ v md, v ∈ vers → md ∈ mods v ↔ is_Some (default ∅ (mx.(mx_Releases) !! v) !! md)) →
  generate_loop inp mx.(mx_Releases) mods vers out = Ok g ↔
  (∀ v, v ∈ vers → ∃ m, release_ok v m ∧ g !! file_name v = Some m)
  ∧ (∀ n, n ∉ file_name <$> vers → g !! n = out !! n).
Proof.
  revert out. induction vers as [|v vers IH]; intros out Hnd Hm; cbn [generate_loop].
  { split; [intros [= <-]; split; [by intros v ?%not_elem_of_nil|done]|].
    intros [_ H]. f_equal. apply map_eq. intros n. symmetry. apply H, not_elem_of_nil. }
  apply NoDup_cons in Hnd as [Hv Hnd].
  pose proof (generate_release_eq inp v (default ∅ (mx_Releases mx !! v)) (mods v)) as Heq.
  destruct (generate_release _ _ _ _) as [m|e]; cbn [result_bind].
  - destruct (proj1 (Heq m ltac:(intros; apply Hm; by left)) eq_refl) as [H1 H2].
    assert (file_name v ∉ file_name <$> vers) as Hfv.
    { intros (w & ->%file_name_inj & ?)%list_elem_of_fmap. done. }
    rewrite IH by (try done; intros; apply Hm; by right). split.
    + intros [Ha Hb]. split.
      * intros w [-> |Hw]%elem_of_cons; [|by apply Ha]. exists m. split; [done|].
        rewrite Hb by done. apply lookup_insert_eq.
      * intros n [Hn1 Hn2]%not_elem_of_cons. rewrite Hb by done. by rewrite lookup_insert_ne.
    + intros [Ha Hb]. split; [intros w Hw; apply Ha; by right|]. intros n Hn.
      destruct (decide (n = file_name v)) as [-> |Hne].
      * destruct (Ha v ltac:(by left)) as (m' & [Hm' _] & ->). rewrite H1 in Hm'.
        injection Hm' as ->. by rewrite lookup_insert_eq.
      * rewrite lookup_insert_ne by done. apply Hb. by apply not_elem_of_cons.
  - split; [done|]. intros [Ha _]. destruct (Ha v ltac:(by left)) as (m & [H1 H2] & _). exfalso.
    assert (Err e = Ok m) by (apply Heq; [intros; apply Hm; by left|done]). done.
Qed.

Definition hops_bare : Prop := Forall (fun v => mx.(mx_Releases) !! v = None) mx.(mx_Intermediate).

Lemma generate_ok vers mods g :
  visits mx vers mods →
  generate inp mx vers mods = Ok g ↔
  hops_bare
  ∧ (∀ v, is_Some (mx.(mx_Releases) !! v) → ∃ m, release_ok v m ∧ g !! file_name v = Some m)
  ∧ (∀ n, (∀ v, n = file_name v → mx.(mx_Releases) !! v = None) → g !! n = None).
Proof.
  intros [Hnd Hv Hm]. unfold generate.
  assert (first_err (fun v => match mx_Releases mx !! v with
      | Some _ => Err (v +:+ " is intermediate (upgrade hop only) and must not have module rows")
      | None => Ok tt end) (mx_Intermediate mx) = Ok tt ↔ hops_bare) as Hh.
  { rewrite first_err_Ok. unfold hops_bare. rewrite !Forall_forall. split; intros H v Hin;
      specialize (H v Hin); by destruct (mx_Releases mx !! v). }
  destruct (first_err _ _) as [[]|e]; cbn [result_bind].
  - rewrite generate_loop_ok; [|done|].
    + split.
      * intros [Ha Hb]. split; [by apply Hh|]. split; [intros v Hs; by apply Ha, Hv|].
        intros n Hn. rewrite Hb; [done|]. intros (v & -> & Hin)%list_elem_of_fmap.
        apply Hv in Hin as [x Hx]. by rewrite (Hn v eq_refl) in Hx.
      * intros (_ & Ha & Hb). split; [intros v Hin; by apply Ha, Hv|]. intros n Hn. rewrite lookup_empty.
        apply Hb. intros v ->. destruct (mx_Releases mx !! v) eqn:E; [|done]. exfalso. apply Hn.
        apply list_elem_of_fmap_2, Hv. by rewrite E.
    + intros v md Hin. apply Hv in Hin as [ms Hms]. rewrite Hms. by apply Hm.
  - split; [done|]. intros [Hb _]. by apply Hh in Hb.
Qed.
End loop.

(** The order in which Go happens to visit the matrix does not matter:
    if one order of the two map loops succeeds, every other one succeeds with the
    same manifests. *)
Theorem generate_order inp mx vers mods vers' mods' g :
  visits mx vers mods → visits mx vers' mods' →
  generate inp mx vers mods = Ok g → generate inp mx vers' mods' = Ok g.
Proof.
  intros Hv Hv' Hg. apply (generate_ok inp mx vers mods g Hv) in Hg. by apply generate_ok.
Qed.

(** What [main] writes, and the driver embeds. *)
Definition written (g : gmap string Manifest) : list dirFile :=
  (fun f => mkDirFile f.1 false (Ok f.2)) <$> map_to_list g.

Lemma written_loaded g m :
  (∀ n x, g !! n = Some x → ∃ ver, n = file_name ver ∧ x.(mf_Name) = "v" +:+ ver) →
  m ∈ loadDir (Some (written g)) ↔ ∃ n, g !! n = Some m.
Proof.
  intros Hg. unfold loadDir, written. rewrite list_elem_of_omap. split.
  - intros (e & ([n x] & -> & Hin%elem_of_map_to_list)%list_elem_of_fmap & He). exists n.
    unfold load_entry in He. cbn in He. repeat case_match; by simplify_eq.
  - intros [n Hn]. exists (mkDirFile n false (Ok m)). split.
    + apply list_elem_of_fmap. exists (n, m). split; [done|]. by apply elem_of_map_to_list.
    + destruct (Hg _ _ Hn) as (ver & -> & Hname). unfold load_entry. cbn. rewrite Hname.
      assert (HasSuffix (file_name ver) ".json" = true) as ->; [|by autorewrite with cube_str].
      unfold file_name. rewrite <- app_assoc_str. apply HasSuffix_app.
Qed.

(** The driver finds the manifest of every release of the matrix by its name. *)
Lemma generated_found inp mx vers mods g ver :
  visits mx vers mods → generate inp mx vers mods = Ok g → is_Some (mx.(mx_Releases) !! ver) →
  ∃ m, FindManifest (LoadManifests (Some (written g)) None) ("v" +:+ ver) = Some m ∧ release_ok inp mx ver m.
Proof.
  intros Hv Hg Hs. apply (generate_ok inp mx vers mods g Hv) in Hg as (_ & Hg & Hnone).
  assert (∀ n x, g !! n = Some x → ∃ ver', n = file_name ver' ∧ x.(mf_Name) = "v" +:+ ver') as Hnames.
  { intros n x Hn. destruct (decide (n ∈ file_name <$> vers)) as [Hin|Hin].
    - apply list_elem_of_fmap in Hin as (v & -> & Hin). apply (vs_vers _ _ _ Hv) in Hin.
      destruct (Hg v Hin) as (x' & [Hx' _] & Hgx). rewrite Hn in Hgx. injection Hgx as <-.
      exists v. split; [done|]. by apply manifest_of_fields in Hx' as (-> & _).
    - rewrite Hnone in Hn; [done|]. intros v ->. destruct (mx_Releases mx !! v) eqn:E; [|done].
      exfalso. apply Hin. apply list_elem_of_fmap_2, (vs_vers _ _ _ Hv). by rewrite E. }
  destruct (Hg ver Hs) as (m & Hrel & Hgm). exists m. split; [|done].
  destruct Hrel as [Hm _]. apply manifest_of_fields in Hm as (Hname & _ & _). rewrite <- Hname.
  apply load_embedded; [by apply written_loaded; eauto|].
  intros x (n & Hx)%(written_loaded _ _ Hnames) Heq. destruct (Hnames _ _ Hx) as (v & -> & Hxn).
  rewrite Hxn, Hname in Heq. autorewrite with cube_str in Heq. injection Heq as ->. congruence.
Qed.

(** ** The gate decides as the matrix says *)

Lemma span_digits_app s d r c t :
  span_digits s = (d, r) → digit c = None →
  s = d +:+ r ∧ span_digits (s +:+ String c t) = (d, r +:+ String c t).
Proof.
  revert d r. induction s as [|x s IH]; intros d r; cbn.
  - intros [= <- <-] Hc. autorewrite with cube_str. cbn. by rewrite Hc.
  - destruct (digit x) eqn:Ex.
    + destruct (span_digits s) as [d' r'] eqn:Es. intros [= <- <-] Hc.
      destruct (IH d' r' eq_refl Hc) as [-> H]. autorewrite with cube_str. cbn. rewrite Ex.
      split; [done|]. autorewrite with cube_str in H |- *. by rewrite H.
    + intros [= <- <-] Hc. autorewrite with cube_str. cbn. by rewrite Ex.
Qed.

Lemma plain_match v c t :
  plainVersion v = true → digit c = None → match_version (v +:+ String c t) = Some (v, String c t).
Proof.
  intros Hp Hc. unfold plainVersion, match_version in Hp |- *.
  destruct (span_digits v) as [a s1] eqn:E1.
  destruct (span_digits_app _ _ _ c t E1 Hc) as [-> ->]. clear E1.
  destruct (is_empty a); [done|]. destruct s1 as [|x s1]; [done|].
  destruct (Ascii.eqb_spec x "."%char) as [->|Hx].
  2: { exfalso. destruct x as [[] [] [] [] [] [] [] []]; done. }
  autorewrite with cube_str. cbn in Hp.
  destruct (span_digits s1) as [b s2] eqn:E2. destruct (span_digits_app _ _ _ c t E2 Hc) as [-> ->]. clear E2.
  destruct (is_empty b); [done|]. destruct s2 as [|x s2]; [done|].
  destruct (Ascii.eqb_spec x "."%char) as [->|Hx].
  2: { exfalso. destruct x as [[] [] [] [] [] [] [] []]; done. }
  autorewrite with cube_str.
  destruct (span_digits s2) as [d s3] eqn:E3. destruct (span_digits_app _ _ _ c t E3 Hc) as [-> ->].
  destruct (is_empty d); [done|]. destruct s3; [|done].
  rewrite app_nil_r_str. by autorewrite with cube_str.
Qed.

Definition artifact (module ver : string) : string := default "" (artifactPrefix module) +:+ ver +:+ ".pigz".

Lemma artifact_version module ver :
  is_Some (artifactPrefix module) → plainVersion ver = true → ArtifactVersion module (artifact module ver) = Ok ver.
Proof.
  intros [pre Hpre] Hv. unfold ArtifactVersion, artifact. rewrite Hpre. cbn [default].
  rewrite HasPrefix_app, TrimPrefix_app. rewrite plain_match by done. done.
Qed.

Lemma entry_found (m : Manifest) md l e :
  m.(mf_Modules) !! md = Some l → NoDup (me_Version <$> l) → e ∈ l → Entry (Some m) md e.(me_Version) = Some e.
Proof.
  intros Hl Hnd Hin. unfold Entry, entries_of. rewrite Hl. cbn [default]. clear Hl.
  induction l as [|x l IH]; [by apply not_elem_of_nil in Hin|]. cbn in Hnd |- *.
  apply NoDup_cons in Hnd as [Hx Hnd].
  destruct (String.eqb_spec (me_Version x) (me_Version e)) as [Heq|Hne].
  - apply elem_of_cons in Hin as [-> |Hin]; [done|]. exfalso. apply Hx. rewrite Heq.
    by apply list_elem_of_fmap_2.
  - apply elem_of_cons in Hin as [-> |Hin]; [done|by apply IH].
Qed.

(** C39. What the matrix says is what the installer's gate does.  Once the
    generator has accepted the matrix, in whatever order Go visited it, a driver
    with those files embedded and nothing overriding them finds the manifest of
    every release by its name, and in it every row by its version; and for the
    artifact of that version the gate's answer follows the row's status:
    supported, yes; untested or deprecated, yes with a warning; blocked, no, even
    for a lab install, and with a reason to show. *)
Theorem generated_gate inp mx vers mods g ver md l e lab :
  visits mx vers mods → generate inp mx vers mods = Ok g →
  (ms ← mx.(mx_Releases) !! ver; ms !! md) = Some l → e ∈ l → md = ModuleCMP ∨ md = ModuleAdvisor →
  ∃ m, FindManifest (LoadManifests (Some (written g)) None) ("v" +:+ ver) = Some m ∧ m.(mf_MatchVersion) = ver
    ∧ Entry (Some m) md e.(me_Version) = Some e
    ∧ let answer := CheckModule (Some m) md (artifact md e.(me_Version)) lab in
      (e.(me_Status) = "supported" ∧ answer = Ok "")
      ∨ ((e.(me_Status) = "untested" ∨ e.(me_Status) = "deprecated") ∧ ∃ w, answer = Ok w ∧ w ≠ "")
      ∨ (e.(me_Status) = "blocked" ∧ e.(me_Reason) ≠ "" ∧ is_ok answer = false).
Proof.
  intros Hv Hg Hl He Hmd. destruct (mx_Releases mx !! ver) as [ms|] eqn:Er; cbn in Hl; [|done].
  destruct (generated_found inp mx vers mods g ver Hv Hg ltac:(by rewrite Er)) as (m & Hfind & [Hm Hrows]).
  rewrite Er in Hm, Hrows. cbn in Hm, Hrows.
  apply manifest_of_fields in Hm as (Hname & Hver & Hmods). destruct (Hrows md l Hl) as [Hk Hnd].
  rewrite Forall_forall in Hk. destruct (Hk e He) as (Hp & Hs & Hr).
  assert (Entry (Some m) md (me_Version e) = Some e) as Hent by (eapply entry_found; [by rewrite Hmods|done|done]).
  exists m. do 3 (split; [done|]). cbv zeta. unfold CheckModule.
  assert (is_Some (artifactPrefix md)) as Hpre by (destruct Hmd as [-> | ->]; by eexists).
  rewrite artifact_version by done.
  assert (Constrains (Some m) md = true) as ->.
  { cbn. unfold entries_of. rewrite Hmods, Hl. cbn. apply negb_true_iff, bool_decide_eq_false.
    intros ->. by apply not_elem_of_nil in He. }
  replace (negb (md =? ModuleCMP)%string && negb (md =? ModuleAdvisor)%string) with false
    by (destruct Hmd as [-> | ->]; reflexivity).
  cbn [orb negb result_bind]. rewrite Hent.
  apply contains_true in Hs. rewrite !elem_of_cons in Hs.
  destruct Hs as [Hs|[Hs|[Hs|[Hs|Hs]]]]; [..|by apply not_elem_of_nil in Hs]; rewrite Hs; cbn.
  - by left.
  - right; left. split; [by left|]. eexists. split; [done|]. destruct Hmd as [-> | ->]; by case_match.
  - right; left. split; [by right|]. eexists. split; [done|]. destruct Hmd as [-> | ->]; by case_match.
  - right; right. split; [done|]. split; [apply Hr; by left|done].
Qed.

(** ** A small matrix *)

Definition ex_row : ModuleEntry := mkModuleEntry "1.2.0" "blocked" "loses volumes" "https://kb/1".
Definition ex_modules : gmap string (list ModuleEntry) :=
  <[ModuleCMP := [mkModuleEntry "1.1.0" "supported" "" ""; ex_row]]>
    (<[ModuleAdvisor := [mkModuleEntry "2.0.1" "untested" "" ""]]> ∅).
Definition ex_mx : Matrix := mkMatrix ["2.5.0"] (<["3.0.0" := ex_modules]> ∅).
Definition ex_in : Inputs :=
  mkInputs (fun _ => Ok (Ok (mkFacts "3.0.0" (Some true) None None (Some ("a.pem", "b.pem"))))) (fun n => Ok n).

Lemma ex_visits mods : (∀ md, md ∈ mods ↔ md = ModuleCMP ∨ md = ModuleAdvisor) →
  visits ex_mx ["3.0.0"] (fun _ => mods).
Proof.
  intros Hm. split.
  - apply NoDup_singleton.
  - intros v. cbn. rewrite lookup_insert_is_Some', lookup_empty, list_elem_of_singleton, is_Some_alt.
    naive_solver.
  - cbn. intros v ms [[_ <-]|[_ H]]%lookup_insert_Some md; [|by rewrite lookup_empty in H].
    rewrite Hm. unfold ex_modules. rewrite !lookup_insert_is_Some', lookup_empty, is_Some_alt. naive_solver.
Qed.

Lemma generate_order_witness :
  ∃ g, generate ex_in ex_mx ["3.0.0"] (fun _ => [ModuleCMP; ModuleAdvisor]) = Ok g
    ∧ generate ex_in ex_mx ["3.0.0"] (fun _ => [ModuleAdvisor; ModuleCMP]) = Ok g
    ∧ g !! "v3.0.0.json" ≠ None.
Proof.
  destruct (generate ex_in ex_mx ["3.0.0"] (fun _ => [ModuleCMP; ModuleAdvisor])) as [g|e] eqn:E;
    [|exfalso; vm_compute in E; discriminate E].
  exists g. split; [reflexivity|]. split.
  - refine (generate_order ex_in ex_mx ["3.0.0"] _ ["3.0.0"] _ g _ _ E); apply ex_visits; intros md;
      rewrite !elem_of_cons, elem_of_nil; tauto.
  - vm_compute in E. injection E as <-. vm_compute. discriminate.
Defined.

Lemma generated_gate_witness :
  ∃ g m, generate ex_in ex_mx ["3.0.0"] (fun _ => [ModuleCMP; ModuleAdvisor]) = Ok g
    ∧ FindManifest (LoadManifests (Some (written g)) None) "v3.0.0" = Some m
    ∧ Entry (Some m) ModuleCMP "1.2.0" = Some ex_row
    ∧ is_ok (CheckModule (Some m) ModuleCMP "cube-portal-1.2.0.pigz" true) = false.
Proof.
  destruct (generate ex_in ex_mx ["3.0.0"] (fun _ => [ModuleCMP; ModuleAdvisor])) as [g|e] eqn:E;
    [|exfalso; vm_compute in E; discriminate E].
  destruct (generated_gate ex_in ex_mx ["3.0.0"] (fun _ => [ModuleCMP; ModuleAdvisor]) g "3.0.0" ModuleCMP
    [mkModuleEntry "1.1.0" "supported" "" ""; ex_row] ex_row true) as (m & Hm & _ & He & Ha).
  - apply ex_visits. intros md. rewrite !elem_of_cons, elem_of_nil. tauto.
  - exact E.
  - vm_compute. reflexivity.
  - right. left.
  - left. reflexivity.
  - exists g, m. split; [reflexivity|]. split; [exact Hm|]. split; [exact He|].
    destruct Ha as [[H _]|[[[H|H] _]|(_ & _ & H)]]; [discriminate H..|exact H].
Defined.
