(* ===== verification/EntPlan.v ===== *)
(** * Install and uninstall plans (internal/enterprise/plan.go)

    The ordered steps of an install or an uninstall, with the command lines
    they run on the cluster.  Shell text is copied with [dq]: an [@] stands
    for a double quote.  The embedded Keycloak script (an asset file) is a
    parameter, by its base64 text; [exists_] is [fileExists]. *)
From S2P Require Import Prelude GoStrings EntModel EntManifest.
From Stdlib Require Import Ascii.

Open Scope string_scope.
Open Scope list_scope.
Open Scope Z_scope.

Definition cephfsGlance : string := "/mnt/cephfs/glance".
Definition cephfsUpdate : string := "/mnt/cephfs/update".
Definition portalInstallScriptName : string := "cube-portal-install.sh".
Definition portalUninstallScriptName : string := "cube-portal-uninstall.sh".
Definition advisorInstallScriptName : string := "cube-advisor-install.sh".
Definition advisorUninstallScriptName : string := "cube-advisor-uninstall.sh".

Definition nl : string := String "010"%char "".
Definition lines (l : list string) : string := Join l nl +:+ nl.

Definition frameworkLBSweep (fw : string) : string := dq (lines [
  "source /etc/admin-openrc.sh 2>/dev/null";
  "fw=" +:+ fw;
  "found=0";
  "for lb in $(openstack loadbalancer list -f value -c id -c name 2>/dev/null | awk -v p=@kube_service_${fw}_@ '$2 ~ (@^@ p){print $1}'); do";
  "  found=1";
  "  vip=$(openstack loadbalancer show @$lb@ -f value -c vip_address 2>/dev/null)";
  "  for fip in $(openstack floating ip list --fixed-ip-address @$vip@ -f value -c ID 2>/dev/null); do";
  "    openstack floating ip delete @$fip@ 2>/dev/null && echo @freed floating IP mapped to $vip@";
  "  done";
  "  openstack loadbalancer delete @$lb@ --cascade 2>/dev/null && echo @deleted orphaned ingress LB $lb@";
  "done";
  "[ @$found@ = 0 ] && echo @no orphaned kube_service_${fw}_* load balancers to reap@"]).

Definition advisorLBSweep (fw : string) : string := dq (lines [
  "source /etc/admin-openrc.sh 2>/dev/null";
  "fw=" +:+ fw;
  "found=0";
  "for lb in $(openstack loadbalancer list -f value -c id -c name 2>/dev/null | awk -v n=@kube_service_${fw}_cube-advisor_cube-advisor@ '$2 == n {print $1}'); do";
  "  found=1";
  "  vip=$(openstack loadbalancer show @$lb@ -f value -c vip_address 2>/dev/null)";
  "  for fip in $(openstack floating ip list --fixed-ip-address @$vip@ -f value -c ID 2>/dev/null); do";
  "    openstack floating ip delete @$fip@ 2>/dev/null && echo @freed floating IP mapped to $vip@";
  "  done";
  "  openstack loadbalancer delete @$lb@ --cascade 2>/dev/null && echo @deleted advisor LB $lb@";
  "done";
  "[ @$found@ = 0 ] && echo @no advisor load balancer to reap@";
  "exit 0"]).

Definition extpackPresent (osImage : string) : string :=
  Join ["source /etc/admin-openrc.sh 2>/dev/null &&";
        "openstack image show manila-service-image >/dev/null 2>&1 &&";
        "openstack image show amphora-x64-haproxy >/dev/null 2>&1 &&";
        "openstack image show " +:+ osImage +:+ " >/dev/null 2>&1 &&";
        dq "curl -sf http://localhost:5080/v2/rancher/rancher-agent/tags/list | grep -q '@tags@:\[@'"] nl.

Definition localPath (root sub file : string) : string := PathJoin [root; sub; file].

Definition imageNameOf (file : string) : string := TrimSuffix file (Ext file).

(** [strings.ReplaceAll(v, "'", `'\''`)] in single quotes. *)
Definition shellQuote (v : string) : string := "'" +:+ ReplaceAll v "'"%char "'\''" +:+ "'".

Definition advisorBaseURL (p : InstallParams) : string :=
  let s := TrimSpace p.(ip_AdvisorBaseURL) in
  if negb (is_empty s) then TrimRightFunc (fun c => Ascii.eqb c "/"%char) s
  else "https://" +:+ p.(ip_AdvisorLBIP).

Section Plan.
Variable exists_ : string → bool.
Variable keycloak_b64 : string.

Definition airgap_steps (airgap : bool) : list plannedStep :=
  if airgap then
    [step_of "airgap-apply" "Apply air-gap simulation" KAirgap
       (dq "cubectl node exec -p 'if grep -rqw airgap_sim_apply /usr/lib/hex_sdk/modules/; then hex_sdk airgap_sim_apply; else echo @airgap_sim_apply not on this image — air-gap simulation skipped@; fi'")]
  else [].

Definition appctl_steps (dataDir : string) (m : option Manifest) : list plannedStep :=
  match m with
  | Some m =>
      if negb (is_empty m.(mf_Appctl)) then
        let appctl := localPath dataDir "appfw" m.(mf_Appctl) in
        if exists_ appctl then
          [scp_step "update_appctl" ("Update appctl (" +:+ m.(mf_Name) +:+ " signing-key fix)")
             "chmod +x /usr/local/bin/appctl && hex_cli -c app -c framework_list"
             appctl "/usr/local/bin" "" ""]
        else []
      else []
  | None => []
  end.

(** Whether the plan creates an App-Framework. *)
Definition makes_framework (module : string) (p : InstallParams) : bool :=
  (module =? ModuleAppFW)%string || negb (is_empty p.(ip_OSImage)).

Definition import_steps (module : string) (p : InstallParams) (dataDir : string)
    (m : option Manifest) : list plannedStep :=
  let osImageName := TrimSuffix p.(ip_OSImage) ".raw" in
  let '(tenant, visibility, storage, osName) := importDefaults m in
  let storage := if negb (is_empty p.(ip_StorageBackend)) then p.(ip_StorageBackend) else storage in
  if makes_framework module p && negb (is_empty p.(ip_ExtpackFile)) then
    [scp_step "import_extpack" "Import App-Framework images (extpack)"
       ("hex_cli -c iaas -c image -c import_extpack local " +:+ shellQuote p.(ip_ExtpackFile))
       (localPath dataDir "appfw" p.(ip_ExtpackFile)) cephfsGlance ""
       (extpackPresent (shellQuote osImageName))]
  else if makes_framework module p then
    [scp_step "import_fs" "Import Manila filesystem image"
       ("hex_cli -c iaas -c image -c import_fs local " +:+ p.(ip_FsImage))
       (localPath dataDir "appfw" p.(ip_FsImage)) cephfsGlance "manila-service-image" "";
     scp_step "import_lb" "Import Amphora load balancer image"
       ("hex_cli -c iaas -c image -c import_lb local " +:+ p.(ip_LBImage))
       (localPath dataDir "appfw" p.(ip_LBImage)) cephfsGlance "amphora-x64-haproxy" "";
     scp_step "import" "Import Rancher cluster image"
       ("hex_cli -c iaas -c image -c import local " +:+ p.(ip_OSImage) +:+ " " +:+ osImageName
        +:+ " default " +:+ tenant +:+ " 'from Bigstack' " +:+ visibility +:+ " " +:+ storage
        +:+ " " +:+ osName)
       (localPath dataDir "appfw" p.(ip_OSImage)) cephfsGlance osImageName ""]
  else [].

Definition framework_steps (module : string) (p : InstallParams) : list plannedStep :=
  if makes_framework module p then
    [framework_step "framework_create" "Create app framework"
       ("hex_cli -c app -c framework_create " +:+ p.(ip_Project) +:+ " " +:+ p.(ip_PublicNet)
        +:+ " " +:+ p.(ip_MgmtNet) +:+ " " +:+ p.(ip_LBIP) +:+ " " +:+ TrimSuffix p.(ip_OSImage) ".raw")
       p.(ip_Project) p.(ip_LBIP)]
  else [].

Definition complete_step : plannedStep := step_of "complete" "Installation complete" KComplete "".

Definition cmp_app_steps (p : InstallParams) (dataDir : string) : list plannedStep :=
  let chartVer := TrimSuffix (TrimPrefix p.(ip_AppFile) "cube-portal-") ".pigz" in
  let kc := "keycloak-extensions-" +:+ chartVer +:+ ".tgz" in
  [scp_step "app_register" "Register CubeCMP application"
     ("hex_cli -c app -c app_register " +:+ cephfsUpdate +:+ "/" +:+ p.(ip_AppFile) +:+ " "
      +:+ p.(ip_Framework) +:+ " skip_flavor")
     (localPath dataDir "cubecmp" p.(ip_AppFile)) cephfsUpdate "" ""]
  ++ (if exists_ (localPath dataDir "cubecmp" kc) then
        [scp_step "keycloak_extensions" "Add CubeCMP Keycloak extensions"
           ("echo " +:+ keycloak_b64 +:+ " | base64 -d | bash -s -- " +:+ shellQuote ("/tmp/" +:+ kc))
           (localPath dataDir "cubecmp" kc) "/tmp" "" ""]
      else [])
  ++ [scp_step "install_portal" "Deploy + verify CubeCMP portal"
        ("bash /tmp/" +:+ portalInstallScriptName +:+ " " +:+ p.(ip_Project) +:+ " " +:+ p.(ip_LBIP)
         +:+ " " +:+ chartVer)
        (localPath dataDir "cubecmp" portalInstallScriptName) "/tmp" "" ""].

Definition cmp_steps (p : InstallParams) (dataDir : string) : list plannedStep :=
  cmp_app_steps p dataDir ++ [complete_step].

Definition remote_key (p : InstallParams) : string :=
  if negb (is_empty p.(ip_AdvisorProviderKeyFile))
  then "/tmp/" +:+ Base p.(ip_AdvisorProviderKeyFile) else "".

Definition advisor_app_steps (p : InstallParams) (dataDir : string) : list plannedStep :=
  let chartVer := TrimSuffix (TrimPrefix p.(ip_AdvisorFile) "cube-advisor-") ".pigz" in
  let remoteKey := remote_key p in
  [scp_step "advisor_register" "Register Cube AI Advisor application"
     ("hex_sdk app_import " +:+ cephfsUpdate +:+ "/" +:+ p.(ip_AdvisorFile) +:+ " "
      +:+ p.(ip_Framework) +:+ " skip_flavor")
     (localPath dataDir "advisor" p.(ip_AdvisorFile)) cephfsUpdate "" ""]
  ++ (if negb (is_empty p.(ip_AdvisorProviderKeyFile)) then
        [scp_step "advisor_provider_key" "Stage the inference provider key"
           ("chmod 0600 " +:+ shellQuote remoteKey) p.(ip_AdvisorProviderKeyFile) "/tmp" "" ""]
      else [])
  ++ [scp_step "install_advisor" "Deploy + verify Cube AI Advisor"
        (Join ["bash /tmp/" +:+ advisorInstallScriptName; p.(ip_Project); p.(ip_AdvisorLBIP);
               chartVer; advisorBaseURL p; shellQuote (Join p.(ip_AdvisorPool) ",");
               shellQuote "advisor"; shellQuote remoteKey; shellQuote p.(ip_AdvisorProviderURL);
               shellQuote p.(ip_AdvisorProviderModel)] " ")
        (localPath dataDir "advisor" advisorInstallScriptName) "/tmp" "" ""].

Definition advisor_steps (p : InstallParams) (dataDir : string) : list plannedStep :=
  advisor_app_steps p dataDir ++ [complete_step].

Definition BuildPlan (module : string) (p : InstallParams) (airgap : bool) (dataDir : string)
    (m : option Manifest) : list plannedStep :=
  [step_of "preflight" "Preflight checks" KDetect ""]
  ++ airgap_steps airgap ++ appctl_steps dataDir m
  ++ import_steps module p dataDir m ++ framework_steps module p
  ++ (if (module =? ModuleCMP)%string then cmp_steps p dataDir else [])
  ++ (if (module =? ModuleAdvisor)%string then advisor_steps p dataDir else []).
End Plan.

Definition BuildUninstallPlan (module : string) (p : InstallParams) (dataDir : string)
    : list plannedStep :=
  [step_of "preflight" "Preflight checks" KDetect ""]
  ++ (if (module =? ModuleCMP)%string then
        let fw := or_default p.(ip_Framework) p.(ip_Project) in
        [scp_step "uninstall_portal" "Uninstall CubeCMP portal"
           ("bash /tmp/" +:+ portalUninstallScriptName +:+ " " +:+ fw)
           (localPath dataDir "cubecmp" portalUninstallScriptName) "/tmp" "" ""]
      else if (module =? ModuleAdvisor)%string then
        let fw := or_default p.(ip_Framework) p.(ip_Project) in
        [scp_step "uninstall_advisor" "Uninstall Cube AI Advisor"
           ("bash /tmp/" +:+ advisorUninstallScriptName +:+ " " +:+ fw)
           (localPath dataDir "advisor" advisorUninstallScriptName) "/tmp" "" "";
         step_of "advisor_lb_sweep" "Reap the advisor's leaked load balancer" KRun (advisorLBSweep fw)]
      else if (module =? ModuleAppFW)%string then
        let fw := or_default p.(ip_Project) p.(ip_Framework) in
        [step_of "framework_delete" "Delete app framework (removes all apps on it)" KRun
           ("hex_cli -c app -c framework_delete " +:+ fw);
         step_of "lb_sweep" "Reap orphaned ingress load balancers" KRun (frameworkLBSweep fw)]
      else [])
  ++ [step_of "complete" "Uninstall complete" KComplete ""].

(** ** Quoting

    A reference reader of the shell's word splitting: single quotes, a
    backslash, blanks, and the characters that mean nothing to a shell.
    Anything else (a dollar sign, a double quote, a semicolon) is refused. *)

Definition sh_plain (c : ascii) : bool :=
  let n := nat_of_ascii c in
  ((48 <=? n) && (n <=? 57) || (65 <=? n) && (n <=? 90) || (97 <=? n) && (n <=? 122))%nat
  || Ascii.eqb c "/"%char || Ascii.eqb c "."%char || Ascii.eqb c "-"%char
  || Ascii.eqb c "_"%char || Ascii.eqb c ":"%char || Ascii.eqb c "+"%char
  || Ascii.eqb c ","%char || Ascii.eqb c "="%char || Ascii.eqb c "@"%char.

Fixpoint plain (s : string) : bool :=
  match s with "" => true | String c s' => sh_plain c && plain s' end.

(** [cur] is the word being read, [q] whether a single quote is open. *)
Fixpoint sh_split (cur : option string) (q : bool) (s : string) : option (list string) :=
  match s with
  | "" => if q then None else Some (match cur with Some w => [w] | None => [] end)
  | String c r =>
      let add d := Some (default "" cur +:+ String d "") in
      if q then
        if Ascii.eqb c "'"%char then sh_split cur false r else sh_split (add c) true r
      else if Ascii.eqb c "'"%char then sh_split (Some (default "" cur)) true r
      else if Ascii.eqb c "\"%char then
        match r with String d r' => sh_split (add d) false r' | "" => None end
      else if Ascii.eqb c " "%char then
        ((fun l => match cur with Some w => w :: l | None => l end) <$> sh_split None false r)
      else if sh_plain c then sh_split (add c) false r else None
  end.

Lemma sh_split_quoted v a t :
  sh_split (Some a) true (ReplaceAll v "'"%char "'\''" +:+ "'" +:+ t) = sh_split (Some (a +:+ v)) false t.
Proof.
  revert a. induction v as [|c v IH]; intros a.
  { cbn. by rewrite app_nil_r_str. }
  cbn [ReplaceAll]. destruct (Ascii.eqb_spec c "'"%char) as [->|Hc].
  - rewrite app_assoc_str. autorewrite with cube_str. cbn. autorewrite with cube_str in IH.
    rewrite IH, app_assoc_str. by autorewrite with cube_str.
  - autorewrite with cube_str in *. cbn. destruct (Ascii.eqb_spec c "'"%char); [done|].
    rewrite IH, app_assoc_str. by autorewrite with cube_str.
Qed.

Lemma sh_split_shellQuote v t :
  sh_split None false (shellQuote v +:+ t) = sh_split (Some v) false t.
Proof.
  unfold shellQuote. rewrite !app_assoc_str. autorewrite with cube_str. cbn.
  pose proof (sh_split_quoted v "" t) as H. autorewrite with cube_str in H. exact H.
Qed.

Lemma sh_plain_inv c :
  sh_plain c = true → Ascii.eqb c "'"%char = false ∧ Ascii.eqb c "\"%char = false
                      ∧ Ascii.eqb c " "%char = false.
Proof. intros H. split_and!; apply Ascii.eqb_neq; intros ->; discriminate H. Qed.

Lemma sh_split_plain w a t :
  plain w = true → sh_split (Some a) false (w +:+ t) = sh_split (Some (a +:+ w)) false t.
Proof.
  revert a. induction w as [|c w IH]; intros a; cbn [plain].
  { intros _. by rewrite app_nil_r_str. }
  intros [Hc Hw]%andb_true_iff. autorewrite with cube_str. cbn.
  destruct (sh_plain_inv c Hc) as (-> & -> & ->). rewrite Hc, IH, app_assoc_str by done.
  by autorewrite with cube_str.
Qed.

Lemma sh_split_plain_head w t :
  plain w = true → w ≠ "" → sh_split None false (w +:+ t) = sh_split (Some w) false t.
Proof.
  destruct w as [|c w]; [done|]. cbn [plain]. intros [Hc Hw]%andb_true_iff _.
  autorewrite with cube_str. cbn. destruct (sh_plain_inv c Hc) as (-> & -> & ->). rewrite Hc.
  by rewrite sh_split_plain by done.
Qed.

(** A word of a command line: written plain, or quoted. *)
Inductive shell_word : string → string → Prop :=
  | sw_plain w : plain w = true → w ≠ "" → shell_word w w
  | sw_quoted v : shell_word (shellQuote v) v.

Lemma sh_split_Join ws vs :
  Forall2 shell_word ws vs → sh_split None false (Join ws " ") = Some vs.
Proof.
  intros H. induction H as [|w v ws vs Hw Hws IH]; [done|].
  assert (∀ t, sh_split None false (w +:+ t) = sh_split (Some v) false t) as Hhead
    by (intros t; destruct Hw; [by apply sh_split_plain_head|apply sh_split_shellQuote]).
  destruct ws as [|w' ws].
  - apply Forall2_nil_inv_l in Hws as ->. cbn [Join]. rewrite <- (app_nil_r_str w), Hhead. done.
  - change (Join (w :: w' :: ws) " ") with (w +:+ " " +:+ Join (w' :: ws) " ").
    rewrite Hhead. autorewrite with cube_str. cbn -[Join]. by rewrite IH.
Qed.

Section PlanProps.
Variable exists_ : string → bool.
Variable keycloak_b64 : string.

Definition install_advisor_cmd (p : InstallParams) (dataDir : string) : list string :=
  ps_Cmd <$> List.filter (fun s => (s.(ps_Name) =? "install_advisor")%string) (advisor_steps p dataDir).

(** The arguments the advisor's install script is meant to get. *)
Definition advisor_args (p : InstallParams) : list string :=
  ["bash"; "/tmp/" +:+ advisorInstallScriptName; p.(ip_Project); p.(ip_AdvisorLBIP);
   TrimSuffix (TrimPrefix p.(ip_AdvisorFile) "cube-advisor-") ".pigz"; advisorBaseURL p;
   Join p.(ip_AdvisorPool) ","; "advisor"; remote_key p;
   p.(ip_AdvisorProviderURL); p.(ip_AdvisorProviderModel)].

Definition plain_word (w : string) : Prop := plain w = true ∧ w ≠ "".

(** No parameter can break out of the advisor's install command: whatever
    bytes the console pool, the key path, the provider URL and the model hold,
    the cluster's shell splits the command into exactly the intended words.
    The four words the code leaves unquoted need to be plain ones. *)
Theorem install_advisor_args p dataDir :
  plain_word p.(ip_Project) → plain_word p.(ip_AdvisorLBIP) →
  plain_word (TrimSuffix (TrimPrefix p.(ip_AdvisorFile) "cube-advisor-") ".pigz") →
  plain_word (advisorBaseURL p) →
  ∃ cmd, install_advisor_cmd p dataDir = [cmd] ∧ sh_split None false cmd = Some (advisor_args p).
Proof.
  intros [H1 N1] [H2 N2] [H3 N3] [H4 N4]. eexists. split.
  { unfold install_advisor_cmd, advisor_steps, advisor_app_steps. by destruct (negb _). }
  unfold advisor_args.
  unfold scp_step. cbn [ps_Cmd].
  match goal with |- context [Join (?a :: ?l) " "] =>
    change (Join (a :: l) " ") with (Join ("bash" :: ("/tmp/" +:+ advisorInstallScriptName) :: l) " ") end.
  apply sh_split_Join.
  repeat (apply Forall2_cons; split; [first [by apply sw_quoted | by apply sw_plain]|]). by apply Forall2_nil.
Qed.

(** ** The shape of the plans *)

Definition install_order : list string :=
  ["preflight"; "airgap-apply"; "update_appctl"; "import_extpack"; "import_fs"; "import_lb";
   "import"; "framework_create"; "app_register"; "keycloak_extensions"; "install_portal";
   "advisor_register"; "advisor_provider_key"; "install_advisor"; "complete"].

Ltac not_in_list := match goal with |- ?P => apply (bool_decide_unpack P); vm_compute; exact I end.

Ltac solve_sublist :=
  repeat first [apply sublist_nil | apply sublist_skip | apply sublist_cons].

(** A plan whose [complete] step, if any, is its last one. *)
Definition completes_last (plan : list plannedStep) : Prop :=
  ∀ i s, plan !! i = Some s → s.(ps_Kind) = KComplete → S i = length plan.

Lemma completes_last_app a b :
  Forall (fun s => s.(ps_Kind) ≠ KComplete) a → completes_last b → completes_last (a ++ b).
Proof.
  intros Ha Hb i s Hi Hk. rewrite length_app. apply lookup_app_Some in Hi as [Hi|[Hle Hi]].
  - exfalso. rewrite Forall_lookup in Ha. by eapply Ha.
  - specialize (Hb _ _ Hi Hk). lia.
Qed.

Lemma completes_last_cons x b :
  x.(ps_Kind) ≠ KComplete → completes_last b → completes_last (x :: b).
Proof. intros Hx. apply (completes_last_app [x]). by constructor. Qed.

Lemma completes_last_nil : completes_last [].
Proof. intros i s H. by rewrite lookup_nil in H. Qed.

Lemma completes_last_single x : completes_last [x].
Proof. intros [|i] s H; [done|]. by rewrite lookup_cons in H. Qed.

(** What the sections of a plan contribute: their step names, none of them the
    completing step. *)
Definition section_names (l : list plannedStep) (names : list string) : Prop :=
  (ps_Name <$> l) `sublist_of` names ∧ Forall (fun s => s.(ps_Kind) ≠ KComplete) l.

Ltac solve_section :=
  repeat case_match; simplify_eq; (split; [solve_sublist|by repeat constructor]).

Lemma airgap_section a : section_names (airgap_steps a) ["airgap-apply"].
Proof. unfold airgap_steps. solve_section. Qed.

Lemma appctl_section d m : section_names (appctl_steps exists_ d m) ["update_appctl"].
Proof. unfold appctl_steps. solve_section. Qed.

Lemma import_section module p d m :
  section_names (import_steps module p d m) ["import_extpack"; "import_fs"; "import_lb"; "import"].
Proof. unfold import_steps. destruct (importDefaults m) as [[[? ?] ?] ?]. solve_section. Qed.

Lemma framework_section module p : section_names (framework_steps module p) ["framework_create"].
Proof. unfold framework_steps. solve_section. Qed.

Lemma section_misses l names x :
  section_names l names → x ∉ names → x ∉ (ps_Name <$> l).
Proof. intros [Hs _] Hx Hin. apply Hx. by eapply elem_of_sublist. Qed.

Lemma section_app a b la lb :
  section_names a la → section_names b lb → section_names (a ++ b) (la ++ lb).
Proof.
  intros [Ha1 Ha2] [Hb1 Hb2]. split; [rewrite fmap_app; by apply sublist_app|by apply Forall_app].
Qed.

(** The part of a plan before the application's own steps. *)
Definition base_plan (module : string) (p : InstallParams) (airgap : bool) (dataDir : string)
    (m : option Manifest) : list plannedStep :=
  [step_of "preflight" "Preflight checks" KDetect ""]
  ++ airgap_steps airgap ++ appctl_steps exists_ dataDir m
  ++ import_steps module p dataDir m ++ framework_steps module p.

Lemma base_section module p airgap d m :
  section_names (base_plan module p airgap d m) (take 8 install_order).
Proof.
  change (take 8 install_order) with
    (["preflight"] ++ ["airgap-apply"] ++ ["update_appctl"]
     ++ ["import_extpack"; "import_fs"; "import_lb"; "import"] ++ ["framework_create"]).
  repeat apply section_app; [solve_section|apply airgap_section|apply appctl_section
    |apply import_section|apply framework_section].
Qed.

(** The application's steps, after the base plan. *)
Definition app_plan (module : string) (p : InstallParams) (dataDir : string) : list plannedStep :=
  (if (module =? ModuleCMP)%string then cmp_steps exists_ keycloak_b64 p dataDir else [])
  ++ (if (module =? ModuleAdvisor)%string then advisor_steps p dataDir else []).

Lemma BuildPlan_split module p airgap d m :
  BuildPlan exists_ keycloak_b64 module p airgap d m
  = base_plan module p airgap d m ++ app_plan module p d.
Proof. unfold BuildPlan, base_plan, app_plan. by rewrite <- !app_assoc. Qed.

Definition app_names : list string :=
  ["app_register"; "keycloak_extensions"; "install_portal"; "advisor_register";
   "advisor_provider_key"; "install_advisor"].

Lemma cmp_section p d : section_names (cmp_app_steps exists_ keycloak_b64 p d) app_names.
Proof. unfold cmp_app_steps. destruct (exists_ _); (split; [solve_sublist|by repeat constructor]). Qed.

Lemma advisor_section p d : section_names (advisor_app_steps p d) app_names.
Proof. unfold advisor_app_steps. destruct (negb _); (split; [solve_sublist|by repeat constructor]). Qed.

Lemma app_plan_cases module p d :
  app_plan module p d = [] ∧ ¬ (module = ModuleCMP ∨ module = ModuleAdvisor)
  ∨ (module = ModuleCMP ∨ module = ModuleAdvisor)
    ∧ ∃ b, app_plan module p d = b ++ [complete_step] ∧ section_names b app_names.
Proof.
  unfold app_plan. destruct (String.eqb_spec module ModuleCMP) as [->|Hc].
  - right. split; [by left|]. eexists. split; [by apply app_nil_r|apply cmp_section].
  - destruct (String.eqb_spec module ModuleAdvisor) as [->|Ha].
    + right. split; [by right|]. eexists. split; [reflexivity|apply advisor_section].
    + left. split; [done|tauto].
Qed.

Lemma framework_steps_spec module p :
  framework_steps module p = [] ∧ makes_framework module p = false
  ∨ ps_Name <$> framework_steps module p = ["framework_create"] ∧ makes_framework module p = true.
Proof. unfold framework_steps. destruct (makes_framework module p); [by right|by left]. Qed.

Lemma BuildPlan_completes_last module p airgap dataDir m :
  completes_last (BuildPlan exists_ keycloak_b64 module p airgap dataDir m).
Proof.
  rewrite BuildPlan_split. apply completes_last_app; [apply base_section|].
  destruct (app_plan_cases module p dataDir) as [[-> _]|(_ & b & -> & [_ Hs])];
    [apply completes_last_nil|].
  apply completes_last_app; [done|apply completes_last_single].
Qed.

(** The steps of an install: whatever is picked and staged, they are some of
    the fifteen known ones in the fixed order (so none runs twice and images
    come before the framework, the framework before the application on it);
    the preflight is first; the framework is created exactly for an
    App-Framework install or when an OS image is given; and the completing step
    is there, once and last, exactly for the two application modules. *)
Theorem BuildPlan_spec module p airgap dataDir m :
  let plan := BuildPlan exists_ keycloak_b64 module p airgap dataDir m in
  (ps_Name <$> plan) `sublist_of` install_order
  ∧ ps_Name <$> head plan = Some "preflight"
  ∧ ("framework_create" ∈ (ps_Name <$> plan) ↔ makes_framework module p = true)
  ∧ (ps_Name <$> last plan = Some "complete" ↔ module = ModuleCMP ∨ module = ModuleAdvisor)
  ∧ completes_last plan.
Proof.
  intros plan. subst plan. rewrite BuildPlan_split.
  destruct (base_section module p airgap dataDir m) as [Hb Hbc].
  pose proof (app_plan_cases module p dataDir) as Ha. split_and!.
  - rewrite fmap_app. change install_order with (take 8 install_order ++ drop 8 install_order).
    apply sublist_app; [done|]. destruct Ha as [[-> _]|(_ & b & -> & [Hs _])]; [apply sublist_nil_l|].
    rewrite fmap_app. change (drop 8 install_order) with (app_names ++ ["complete"]).
    by apply sublist_app.
  - done.
  - rewrite fmap_app, elem_of_app. split.
    + intros [H|H].
      * unfold base_plan in H. rewrite !fmap_app, !elem_of_app in H.
        destruct (framework_steps_spec module p) as [[Hf ?]|[_ ?]]; [|done]. rewrite Hf in H.
        exfalso. destruct H as [H|[H|[H|[H|H]]]]; revert H.
        -- eapply section_misses with (names := ["preflight"]); [solve_section|not_in_list].
        -- eapply section_misses; [apply airgap_section|not_in_list].
        -- eapply section_misses; [apply appctl_section|not_in_list].
        -- eapply section_misses; [apply import_section|not_in_list].
        -- apply not_elem_of_nil.
      * exfalso. destruct Ha as [[Ha _]|(_ & b & Ha & Hs)]; rewrite Ha in H; [by apply elem_of_nil in H|].
        rewrite fmap_app, elem_of_app in H. destruct H as [H|H]; revert H;
          [eapply section_misses; [exact Hs|not_in_list]|not_in_list].
    + intros Hf. left. unfold base_plan. rewrite !fmap_app, !elem_of_app.
      destruct (framework_steps_spec module p) as [[_ ?]|[-> _]]; [congruence|].
      do 4 right. apply list_elem_of_singleton. done.
  - destruct Ha as [[-> Hm]|(Hm & b & -> & Hs)].
    + rewrite app_nil_r. split; [|tauto].
      destruct (last (base_plan module p airgap dataDir m)) as [x|] eqn:El; [|done].
      cbn [fmap option_fmap option_map]. intros [= Hx]. exfalso.
      apply last_Some_elem_of, (list_elem_of_fmap_2 ps_Name) in El. rewrite Hx in El. revert El.
      eapply section_misses; [split; [exact Hb|exact Hbc]|not_in_list].
    + by rewrite app_assoc, last_snoc.
  - rewrite <- BuildPlan_split. apply BuildPlan_completes_last.
Qed.

End PlanProps.

Lemma BuildUninstallPlan_completes_last module p dataDir :
  completes_last (BuildUninstallPlan module p dataDir).
Proof.
  unfold BuildUninstallPlan. rewrite app_assoc. apply completes_last_app; [|apply completes_last_single].
  repeat case_match; by repeat constructor.
Qed.

Definition params_ex : InstallParams :=
  mkInstallParams "fw" "public" "public" "10.0.0.5" "" "" "fw" "" "" "" "cube-advisor-1.2.0.pigz"
    "10.0.0.6" ["10.0.0.7"; "10.0.0.8"] "" "https://p/$(reboot)" "it's; a model" "/data/key 1" "".

Lemma install_advisor_args_witness :
  ∃ cmd, install_advisor_cmd params_ex "/data" = [cmd]
         ∧ sh_split None false cmd = Some (advisor_args params_ex).
Proof.
  apply install_advisor_args; (split; [vm_compute; reflexivity|vm_compute; discriminate]).
Defined.
