(* ===== verification/EntRun.v ===== *)
(** * Running an install (internal/enterprise/manager.go, store.go)

    The installer's manager as a transition system.  Every [*Install] is a
    location of a heap; the manager's maps hold locations.  Each section of
    code under the manager's lock is one transition, and so is each
    unlocked read of a context: a dial and a step's remote work lie between
    two transitions, with the transitions of all other goroutines in between.
    A transition names the goroutine it belongs to and carries what the
    outside world answers: the time, whether a write to disk worked, and how
    the remote work ended. *)
From S2P Require Import Prelude GoStrings EntModel EntManifest EntPlan.
From Stdlib Require Import Ascii.

Open Scope string_scope.
Open Scope list_scope.
Open Scope Z_scope.

(** ** State *)

Inductive kind := TLaunch | TAuto | TNext | TCancel.

#[export] Instance kind_eq_dec : EqDecision kind.
Proof. solve_decision. Defined.

(** Where a goroutine stands, by its next section.  A launch carries the
    manifest its plan is built from. *)
Inductive pc :=
  | PDial (m : option Manifest)   (** launch: dialing *)
  | PCommit (m : option Manifest) (** launch: the client is up *)
  | PRollback                     (** launch: free the reservation *)
  | PLoop                         (** runAll: the top of its loop *)
  | PIndex                        (** runAll: read the current index *)
  | PBegin (idx : nat)            (** execStep: mark the step active *)
  | PRemote (idx : nat)           (** execStep: the step's remote work *)
  | PAdvance                      (** runAll: after a step *)
  | PFinal                        (** runAll: all steps ran *)
  | PNextEnd (err : bool)         (** Next: after its step *)
  | PCall (ctx : nat)             (** Cancel: call the cancel function *)
  | PTerm                         (** terminate, then cleanup *)
  | PClean.                       (** cleanup *)

(** Clients and contexts are named by the install whose launch made them. *)
Record thread : Type := mkThread {
  th_kind : kind;
  th_k : string;
  th_p : nat;
  th_plan : list plannedStep;
  th_client : option nat;
  th_pc : pc
}.

Definition at_pc (c : pc) (th : thread) : thread :=
  mkThread th.(th_kind) th.(th_k) th.(th_p) th.(th_plan) th.(th_client) c.

Record EM : Type := mkEM {
  em_heap : gmap nat Install;
  em_next : nat;
  em_installs : gmap string nat;
  em_cancels : gmap string nat;
  em_clients : gmap string nat;
  em_plans : gmap string (list plannedStep);
  em_busy : gset string;
  em_cancelReq : gset string;
  em_cancelled : gset nat;         (** contexts that are done *)
  em_closed : gset nat;            (** clients that are closed *)
  em_keys_removed : list (nat * string);   (** provider key files removed, with the run *)
  em_disk : gmap string Install;   (** file name to record *)
  em_threads : gmap nat thread;
  em_tid : nat
}.

Definition set_heap v s := mkEM v s.(em_next) s.(em_installs) s.(em_cancels) s.(em_clients)
  s.(em_plans) s.(em_busy) s.(em_cancelReq) s.(em_cancelled) s.(em_closed) s.(em_keys_removed)
  s.(em_disk) s.(em_threads) s.(em_tid).
Definition set_next v s := mkEM s.(em_heap) v s.(em_installs) s.(em_cancels) s.(em_clients)
  s.(em_plans) s.(em_busy) s.(em_cancelReq) s.(em_cancelled) s.(em_closed) s.(em_keys_removed)
  s.(em_disk) s.(em_threads) s.(em_tid).
Definition set_maps i c cl p b r s := mkEM s.(em_heap) s.(em_next) i c cl p b r
  s.(em_cancelled) s.(em_closed) s.(em_keys_removed) s.(em_disk) s.(em_threads) s.(em_tid).
Definition set_ends ca cl kr s := mkEM s.(em_heap) s.(em_next) s.(em_installs) s.(em_cancels)
  s.(em_clients) s.(em_plans) s.(em_busy) s.(em_cancelReq) ca cl kr
  s.(em_disk) s.(em_threads) s.(em_tid).
Definition set_disk v s := mkEM s.(em_heap) s.(em_next) s.(em_installs) s.(em_cancels)
  s.(em_clients) s.(em_plans) s.(em_busy) s.(em_cancelReq) s.(em_cancelled) s.(em_closed)
  s.(em_keys_removed) v s.(em_threads) s.(em_tid).
Definition set_threads v s := mkEM s.(em_heap) s.(em_next) s.(em_installs) s.(em_cancels)
  s.(em_clients) s.(em_plans) s.(em_busy) s.(em_cancelReq) s.(em_cancelled) s.(em_closed)
  s.(em_keys_removed) s.(em_disk) v s.(em_tid).
Definition set_tid v s := mkEM s.(em_heap) s.(em_next) s.(em_installs) s.(em_cancels)
  s.(em_clients) s.(em_plans) s.(em_busy) s.(em_cancelReq) s.(em_cancelled) s.(em_closed)
  s.(em_keys_removed) s.(em_disk) s.(em_threads) v.

Definition set_installs v s :=
  set_maps v s.(em_cancels) s.(em_clients) s.(em_plans) s.(em_busy) s.(em_cancelReq) s.
Definition set_cancels v s :=
  set_maps s.(em_installs) v s.(em_clients) s.(em_plans) s.(em_busy) s.(em_cancelReq) s.
Definition set_clients v s :=
  set_maps s.(em_installs) s.(em_cancels) v s.(em_plans) s.(em_busy) s.(em_cancelReq) s.
Definition set_plans v s :=
  set_maps s.(em_installs) s.(em_cancels) s.(em_clients) v s.(em_busy) s.(em_cancelReq) s.
Definition set_busy v s :=
  set_maps s.(em_installs) s.(em_cancels) s.(em_clients) s.(em_plans) v s.(em_cancelReq) s.
Definition set_cancelReq v s :=
  set_maps s.(em_installs) s.(em_cancels) s.(em_clients) s.(em_plans) s.(em_busy) v s.

Definition upd (p : nat) (f : Install → Install) (s : EM) : EM :=
  set_heap (alter f p s.(em_heap)) s.
Definition goto (t : nat) (c : pc) (s : EM) : EM :=
  set_threads (alter (at_pc c) t s.(em_threads)) s.
Definition stop (t : nat) (s : EM) : EM := set_threads (delete t s.(em_threads)) s.
Definition spawn (th : thread) (s : EM) : EM :=
  set_tid (S s.(em_tid)) (set_threads (<[s.(em_tid) := th]> s.(em_threads)) s).

Definition key (clusterID module : string) : string := clusterID +:+ "/" +:+ module.

(** ** The store *)

Definition path (clusterID module : string) : string := clusterID +:+ "-" +:+ module +:+ ".json".

(** The provider key file's path is not written to the file. *)
Definition strip_key (p : InstallParams) : InstallParams :=
  mkInstallParams p.(ip_Project) p.(ip_PublicNet) p.(ip_MgmtNet) p.(ip_LBIP) p.(ip_OSImage)
    p.(ip_ExtpackFile) p.(ip_Framework) p.(ip_AppFile) p.(ip_FsImage) p.(ip_LBImage)
    p.(ip_AdvisorFile) p.(ip_AdvisorLBIP) p.(ip_AdvisorPool) p.(ip_AdvisorBaseURL)
    p.(ip_AdvisorProviderURL) p.(ip_AdvisorProviderModel) "" p.(ip_StorageBackend).

Definition on_disk (x : Install) : Install :=
  mkInstall x.(i_ClusterID) x.(i_Module) x.(i_Op) x.(i_Host) x.(i_StartedAt) x.(i_Manual)
    x.(i_SimulateAirgap) (strip_key x.(i_Params)) x.(i_Steps) x.(i_Current) x.(i_State)
    x.(i_Portal) x.(i_Warnings) x.(i_Manifest) x.(i_Lab).

(** [Store.Save(in)]: [saved] is whether the write worked. *)
Definition Save (saved : bool) (p : nat) (s : EM) : EM :=
  match s.(em_heap) !! p with
  | Some x => if saved then set_disk (<[path x.(i_ClusterID) x.(i_Module) := on_disk x]> s.(em_disk)) s else s
  | None => s
  end.

(** [Store.Delete]. *)
Definition Delete (clusterID module : string) (s : EM) : EM :=
  set_disk (delete (path clusterID module) s.(em_disk)) s.

(** ** Steps of an install *)

Definition upd_step (idx : nat) (f : Step → Step) (x : Install) : Install :=
  set_i_Steps (alter f idx x.(i_Steps)) x.

Definition begin_step (now : string) (st : Step) : Step :=
  set_s_StartedAt now (set_s_State StepActive st).

(** [cliFailureMarker]. *)
Definition cliFailureMarker (output : string) : string :=
  if Contains output "Invalid arguments." then "cluster rejected the command (invalid arguments)"
  else if Contains output "openpgp: key expired" then
    "app-framework tooling failed: signing key expired on the cluster"
  else if Contains output "failed to init" then "app-framework failed to initialize on the cluster"
  else "".

(** How a step's remote work ended: its error text and whether it is
    [ErrConnectionLost], and whether the step was skipped. *)
Record outcome : Type := mkOutcome { o_err : option (string * bool); o_skipped : bool }.

Definition checks_marker (k : Kind) : bool :=
  match k with KRun | KScpRun => true | _ => false end.
Definition closes_narration (k : Kind) : bool :=
  match k with KAirgap | KRun | KScpRun | KFramework => true | _ => false end.

(** The error [execStep] settles on. *)
Definition step_error (ps : plannedStep) (st : Step) (o : outcome) : option (string * bool) :=
  match o.(o_err) with
  | Some e => Some e
  | None =>
      if negb o.(o_skipped) && checks_marker ps.(ps_Kind)
         && negb (is_empty (cliFailureMarker st.(s_Output)))
      then Some (cliFailureMarker st.(s_Output) +:+ " (see output)", false) else None
  end.

Definition lost_note : string :=
  " -- the command may have finished, or still be running on the cluster; check there before re-running this step".

Definition portal_of (x : Install) : string :=
  if (x.(i_Module) =? ModuleAdvisor)%string then advisorBaseURL x.(i_Params) +:+ "/"
  else "https://" +:+ x.(i_Params).(ip_LBIP) +:+ "/portal".

(** A failed step: [ctxErr] is whether the run's context is done. *)
Definition fail_step (now : string) (e : string * bool) (ctxErr : bool) (st : Step) : Step :=
  set_s_Err (if ctxErr then "cancelled" else if e.2 then e.1 +:+ lost_note else e.1)
    (set_s_State StepError (set_s_FinishedAt now st)).

Definition finish_step (now : string) (ps : plannedStep) (skipped : bool) (st : Step) : Step :=
  let st := set_s_FinishedAt now st in
  if skipped then set_s_State StepSkipped st
  else
    let st := set_s_State StepDone st in
    if closes_narration ps.(ps_Kind)
    then set_s_Output (st.(s_Output) +:+ "✓ " +:+ st.(s_Title) +:+ " — done." +:+ nl) st else st.

Definition complete_install (x : Install) : Install :=
  set_i_State "done"
    (if negb (x.(i_Op) =? "uninstall")%string then set_i_Portal (portal_of x) x else x).

(** The second locked section of [execStep], on the install: the new record
    and whether it returns an error. *)
Definition end_step (now : string) (ps : plannedStep) (idx : nat) (o : outcome) (ctxErr : bool)
    (x : Install) : option (Install * bool) :=
  st ← x.(i_Steps) !! idx;
  match step_error ps st o with
  | Some e =>
      Some (set_i_State (if ctxErr then "cancelled" else "error")
              (upd_step idx (fail_step now e ctxErr) x), true)
  | None =>
      let x := upd_step idx (finish_step now ps o.(o_skipped)) x in
      Some (if bool_decide (ps.(ps_Kind) = KComplete) then complete_install x else x, false)
  end.

(** [terminate], on the install. *)
Definition mark_active (state : string) (st : Step) : Step :=
  if bool_decide (st.(s_State) = StepActive)
  then set_s_Err state (set_s_State StepError st) else st.

Definition terminated (state : string) (x : Install) : Install :=
  set_i_Steps (mark_active state <$> x.(i_Steps)) (set_i_State state x).

Definition terminate (saved : bool) (p : nat) (state : string) (s : EM) : EM :=
  Save saved p (upd p (terminated state) s).

(** ** The cascade of an uninstall *)

(** Whether the record at [q] depends on the App-Framework [x]. *)
Definition depends (heap : gmap nat Install) (x : Install) (q : nat) : bool :=
  match heap !! q with
  | Some dep =>
      negb (dep.(i_Module) =? ModuleAppFW)%string
      && ((dep.(i_ClusterID) =? x.(i_ClusterID))%string
          || negb (is_empty x.(i_Host)) && (dep.(i_Host) =? x.(i_Host))%string)
  | None => false
  end.

Definition dependents (x : Install) (s : EM) : gmap string nat :=
  filter (fun e => depends s.(em_heap) x e.2 = true) s.(em_installs).

Definition cascades (x : Install) : bool :=
  (x.(i_Op) =? "uninstall")%string && (x.(i_State) =? "done")%string
  && (x.(i_Module) =? ModuleAppFW)%string.

(** One turn of the loop over the map. *)
Definition drop_dependent (ck : string) (q : nat) (s : EM) : EM :=
  match s.(em_heap) !! q with
  | Some dep => Delete dep.(i_ClusterID) dep.(i_Module) (set_installs (delete ck s.(em_installs)) s)
  | None => s
  end.

Definition cascadeAfterUninstall (p : nat) (s : EM) : EM :=
  match s.(em_heap) !! p with
  | Some x =>
      if cascades x
      then foldr (fun e s => drop_dependent e.1 e.2 s) s (map_to_list (dependents x s)) else s
  | None => s
  end.

(** ** The requests *)

Section Manager.
Variable keycloak_b64 : string.

Definition is_running (x : Install) : bool := (x.(i_State) =? "running")%string.

Definition new_install (clusterID module op vip now : string) (manual airgap lab : bool)
    (warnings : list string) (manifest : string) (p : InstallParams) : Install :=
  mkInstall clusterID module op vip now manual airgap p [] 0 "running" "" warnings manifest lab.

(** The first section of [launch]: reserve the key. *)
Definition launch (clusterID module vip now : string) (p : InstallParams)
    (manual airgap lab : bool) (warnings : list string) (manifest op : string)
    (m : option Manifest) (s : EM) : EM * result unit :=
  let k := key clusterID module in
  let busy := match s.(em_installs) !! k ≫= fun q => s.(em_heap) !! q with
              | Some ex => if is_running ex then Some ex else None
              | None => None
              end in
  match busy with
  | Some ex => (s, Err (ex.(i_Op) +:+ " already running for " +:+ clusterID +:+ "/" +:+ module))
  | None =>
      let x := new_install clusterID module op vip now manual airgap lab warnings manifest p in
      let q := s.(em_next) in
      let s := set_next (S q) (set_heap (<[q := x]> s.(em_heap)) s) in
      (spawn (mkThread TLaunch k q [] None (PDial m)) (set_installs (<[k := q]> s.(em_installs)) s), Ok tt)
  end.

Definition StartLab (clusterID module vip now : string) (p : InstallParams)
    (manual airgap lab : bool) (warnings : list string) (m : option Manifest) : EM → EM * result unit :=
  launch clusterID module vip now p manual airgap lab warnings
    (match m with Some m => m.(mf_Name) | None => "" end) "install" m.

Definition StartUninstall (clusterID module vip now : string) (p : InstallParams) (manual : bool)
    : EM → EM * result unit :=
  launch clusterID module vip now p manual false false [] "" "uninstall" None.

(** The closures [StartLab] and [StartUninstall] pass to [launch]. *)
Definition buildPlan (exists_ : string → bool) (dataDir : string) (m : option Manifest) (x : Install)
    : list plannedStep :=
  if (x.(i_Op) =? "uninstall")%string then BuildUninstallPlan x.(i_Module) x.(i_Params) dataDir
  else BuildPlan exists_ keycloak_b64 x.(i_Module) x.(i_Params) x.(i_SimulateAirgap) dataDir m.

Definition pending_step (ps : plannedStep) : Step :=
  mkStep ps.(ps_Name) ps.(ps_Title) StepPending "" "" "" "".

(** The second section of [launch], by the goroutine [t]. *)
Definition launch_commit (t : nat) (k : string) (p : nat) (plan : list plannedStep) (saved : bool)
    (s : EM) : EM :=
  let s := upd p (set_i_Steps (pending_step <$> plan)) s in
  let s := set_clients (<[k := p]> s.(em_clients)) s in
  let s := set_plans (<[k := plan]> s.(em_plans)) s in
  if saved then
    let s := Save true p s in
    match s.(em_heap) !! p with
    | Some x =>
        if x.(i_Manual) then stop t s
        else spawn (mkThread TAuto k p plan (Some p) PLoop)
               (stop t (set_cancels (<[k := p]> s.(em_cancels)) s))
    | None => s
    end
  else set_threads (<[t := mkThread TLaunch k p [] (Some p) PRollback]> s.(em_threads)) s.

Definition close_client (c : option nat) (s : EM) : EM :=
  match c with
  | Some c => set_ends s.(em_cancelled) ({[c]} ∪ s.(em_closed)) s.(em_keys_removed) s
  | None => s
  end.

Definition rollback (k : string) (p : nat) (client : option nat) (s : EM) : EM :=
  let s :=
    if bool_decide (s.(em_installs) !! k = Some p) then
      set_maps (delete k s.(em_installs)) s.(em_cancels) (delete k s.(em_clients))
        (delete k s.(em_plans)) s.(em_busy) s.(em_cancelReq) s
    else s in
  close_client client s.

Definition cleanup (k : string) (p : nat) (cancel : bool) (client : option nat) (s : EM) : EM :=
  let s := if cancel then set_ends ({[p]} ∪ s.(em_cancelled)) s.(em_closed) s.(em_keys_removed) s else s in
  let f := match s.(em_heap) !! p with
           | Some x => x.(i_Params).(ip_AdvisorProviderKeyFile) | None => "" end in
  let s := if is_empty f then s
           else set_ends s.(em_cancelled) s.(em_closed) ((p, f) :: s.(em_keys_removed)) s in
  let s :=
    if bool_decide (s.(em_installs) !! k = Some p) then
      set_maps s.(em_installs) (delete k s.(em_cancels)) (delete k s.(em_clients))
        (delete k s.(em_plans)) (s.(em_busy) ∖ {[k]}) (s.(em_cancelReq) ∖ {[k]}) s
    else s in
  close_client client s.

(** The first section of [Next]. *)
Definition Next (clusterID module : string) (s : EM) : EM * result unit :=
  let k := key clusterID module in
  match s.(em_installs) !! k with
  | None => (s, Err ("no install for " +:+ clusterID +:+ "/" +:+ module))
  | Some p =>
      match s.(em_heap) !! p with
      | None => (s, Err "")
      | Some x =>
          if negb (is_running x) then (s, Ok tt)
          else if negb x.(i_Manual) then
            (s, Err (x.(i_Op) +:+ " for " +:+ clusterID +:+ "/" +:+ module
                     +:+ " is not manual; its steps run automatically"))
          else if bool_decide (k ∈ s.(em_busy)) then
            (s, Err ("step already in progress for " +:+ clusterID +:+ "/" +:+ module))
          else
            let plan := default [] (s.(em_plans) !! k) in
            if (length plan <=? x.(i_Current))%nat then (s, Ok tt)
            else
              (spawn (mkThread TNext k p plan (s.(em_clients) !! k) (PBegin x.(i_Current)))
                 (set_busy ({[k]} ∪ s.(em_busy)) s), Ok tt)
      end
  end.

(** The first section of [Cancel]. *)
Definition Cancel (clusterID module : string) (s : EM) : EM :=
  let k := key clusterID module in
  match s.(em_cancels) !! k with
  | Some c => spawn (mkThread TCancel k c [] None (PCall c)) s
  | None =>
      match s.(em_installs) !! k with
      | None => s
      | Some p =>
          match s.(em_heap) !! p with
          | None => s
          | Some x =>
              if negb (is_running x) then s
              else if bool_decide (k ∈ s.(em_busy)) then
                set_cancelReq ({[k]} ∪ s.(em_cancelReq)) s
              else spawn (mkThread TCancel k p [] (s.(em_clients) !! k) PTerm)
                     (upd p (set_i_State "cancelled") s)
          end
      end
  end.

Definition Status (clusterID module : string) (s : EM) : option Install :=
  s.(em_installs) !! key clusterID module ≫= fun p => s.(em_heap) !! p.

(** ** The goroutines *)

(** What a section learns from outside. *)
Record answer : Type := mkAnswer {
  a_now : string;
  a_saved : bool;
  a_dial : bool;
  a_dataDir : string;
  a_exists : string → bool;
  a_outcome : outcome
}.

(** [execStep], first section. *)
Definition exec_begin (t : nat) (th : thread) (idx : nat) (a : answer) (s : EM) : option EM :=
  x ← s.(em_heap) !! th.(th_p);
  _ ← th.(th_plan) !! idx;
  _ ← x.(i_Steps) !! idx;
  Some (goto t (PRemote idx) (Save a.(a_saved) th.(th_p)
    (upd th.(th_p) (upd_step idx (begin_step a.(a_now))) s))).

(** [execStep], last section, with the locked part of its caller's return. *)
Definition exec_end (t : nat) (th : thread) (idx : nat) (a : answer) (s : EM) : option EM :=
  x ← s.(em_heap) !! th.(th_p);
  ps ← th.(th_plan) !! idx;
  let ctxErr := bool_decide (th.(th_kind) = TAuto) && bool_decide (th.(th_p) ∈ s.(em_cancelled)) in
  r ← end_step a.(a_now) ps idx a.(a_outcome) ctxErr x;
  let '(x, err) := r in
  let s := Save a.(a_saved) th.(th_p) (upd th.(th_p) (fun _ => x) s) in
  let s := if err : bool then s else cascadeAfterUninstall th.(th_p) s in
  Some (goto t (match th.(th_kind) with
                | TNext => PNextEnd err
                | _ => if err then PClean else PAdvance end) s).

Definition advance_install (x : Install) : Install := set_i_Current (S x.(i_Current)) x.

Definition run_advance (t : nat) (th : thread) (a : answer) (s : EM) : option EM :=
  x ← s.(em_heap) !! th.(th_p);
  if negb (is_running x) then Some (goto t PClean s)
  else Some (goto t PLoop (Save a.(a_saved) th.(th_p) (upd th.(th_p) advance_install s))).

Definition run_final (t : nat) (th : thread) (a : answer) (s : EM) : EM :=
  goto t PClean (cascadeAfterUninstall th.(th_p)
    (Save a.(a_saved) th.(th_p) (upd th.(th_p) (set_i_State "done") s))).

(** [Next], last section. *)
Definition next_install (plan : list plannedStep) (x : Install) : Install :=
  let x := advance_install x in
  if (length plan <=? x.(i_Current))%nat then set_i_State "done" x else x.

Definition next_end (t : nat) (th : thread) (err : bool) (a : answer) (s : EM) : option EM :=
  let k := th.(th_k) in
  let cancelled := bool_decide (k ∈ s.(em_cancelReq)) in
  let s := set_cancelReq (s.(em_cancelReq) ∖ {[k]}) (set_busy (s.(em_busy) ∖ {[k]}) s) in
  x ← s.(em_heap) !! th.(th_p);
  let s := if negb cancelled && negb err && is_running x
           then Save a.(a_saved) th.(th_p) (upd th.(th_p) (next_install th.(th_plan)) s) else s in
  x ← s.(em_heap) !! th.(th_p);
  Some (if cancelled then goto t PTerm s
        else if negb (is_running x) then goto t PClean s else stop t s).

(** One section of the goroutine [t]. *)
Definition thread_step (t : nat) (a : answer) (s : EM) : option EM :=
  th ← s.(em_threads) !! t;
  let p := th.(th_p) in
  match th.(th_pc) with
  | PDial m => Some (goto t (if a.(a_dial) then PCommit m else PRollback) s)
  | PCommit m =>
      x ← s.(em_heap) !! p;
      Some (launch_commit t th.(th_k) p (buildPlan a.(a_exists) a.(a_dataDir) m x) a.(a_saved) s)
  | PRollback => Some (stop t (rollback th.(th_k) p th.(th_client) s))
  | PLoop => Some (goto t (if bool_decide (p ∈ s.(em_cancelled)) then PTerm else PIndex) s)
  | PIndex =>
      x ← s.(em_heap) !! p;
      Some (goto t (if (length th.(th_plan) <=? x.(i_Current))%nat then PFinal
                    else PBegin x.(i_Current)) s)
  | PBegin idx => exec_begin t th idx a s
  | PRemote idx => exec_end t th idx a s
  | PAdvance => run_advance t th a s
  | PFinal => Some (run_final t th a s)
  | PNextEnd err => next_end t th err a s
  | PCall c => Some (stop t (set_ends ({[c]} ∪ s.(em_cancelled)) s.(em_closed) s.(em_keys_removed) s))
  | PTerm => Some (goto t PClean (terminate a.(a_saved) p "cancelled" s))
  | PClean => Some (stop t (cleanup th.(th_k) p (bool_decide (th.(th_kind) = TAuto)) th.(th_client) s))
  end.

(** [onLine], while a step's remote work is on. *)
Definition on_line (t : nat) (l : string) (s : EM) : option EM :=
  th ← s.(em_threads) !! t;
  match th.(th_pc) with
  | PRemote idx =>
      Some (upd th.(th_p) (upd_step idx (fun st => set_s_Output (st.(s_Output) +:+ l +:+ nl) st)) s)
  | _ => None
  end.

(** ** Restart *)

Definition interrupt_step (st : Step) : Step :=
  if bool_decide (st.(s_State) = StepActive) then
    let st := set_s_State StepError st in
    if is_empty st.(s_Err) then set_s_Err "driver restarted while this step was running" st else st
  else st.

Definition interrupted (x : Install) : Install :=
  if is_running x then set_i_Steps (interrupt_step <$> x.(i_Steps)) (set_i_State "error" x) else x.

Definition empty_EM (disk : gmap string Install) : EM :=
  mkEM ∅ 0 ∅ ∅ ∅ ∅ ∅ ∅ ∅ ∅ [] disk ∅ 0.

Definition load_one (saved : string → bool) (x : Install) (s : EM) : EM :=
  let y := interrupted x in
  let p := s.(em_next) in
  let s := set_next (S p) (set_heap (<[p := y]> s.(em_heap)) s) in
  let s := if is_running x then Save (saved (path y.(i_ClusterID) y.(i_Module))) p s else s in
  set_installs (<[key y.(i_ClusterID) y.(i_Module) := p]> s.(em_installs)) s.

(** [Store.List]: the records with a cluster id. *)
Definition List_disk (disk : gmap string Install) : list Install :=
  List.filter (fun x => negb (is_empty x.(i_ClusterID))) (snd <$> map_to_list disk).

Definition rehydrate (saved : string → bool) (disk : gmap string Install) : EM :=
  foldl (fun s x => load_one saved x s) (empty_EM disk) (List_disk disk).

(** ** Transitions *)

Inductive event :=
  | EStart (clusterID module vip now : string) (p : InstallParams) (manual airgap lab : bool)
      (warnings : list string) (m : option Manifest)
  | EUninstall (clusterID module vip now : string) (p : InstallParams) (manual : bool)
  | ENext (clusterID module : string)
  | ECancel (clusterID module : string)
  | EThread (t : nat) (a : answer)
  | ELine (t : nat) (l : string)
  | ERestart (saved : string → bool).

Definition estep (s : EM) (e : event) : option EM :=
  match e with
  | EStart c md vip now p manual airgap lab ws m =>
      Some (StartLab c md vip now p manual airgap lab ws m s).1
  | EUninstall c md vip now p manual => Some (StartUninstall c md vip now p manual s).1
  | ENext c md => Some (Next c md s).1
  | ECancel c md => Some (Cancel c md s)
  | EThread t a => thread_step t a s
  | ELine t l => on_line t l s
  | ERestart saved => Some (rehydrate saved s.(em_disk))
  end.

Fixpoint erun (s : EM) (es : list event) : option EM :=
  match es with
  | [] => Some s
  | e :: es => s ← estep s e; erun s es
  end.

(** The states the manager can be in, from an empty store. *)
Inductive reachable : EM → Prop :=
  | r_init : reachable (empty_EM ∅)
  | r_step s e s' : reachable s → estep s e = Some s' → reachable s'.
End Manager.
