(* ===== verification/EntStats.v ===== *)
(** * Figures for the dashboard (internal/enterprise manager.go)

    The list of installs and the typical duration of a step.  Go ranges over
    the map of installs in any order: the order is an argument ([visit]), and the
    figures are shown not to depend on it. *)
From S2P Require Import Prelude GoStrings EntModel EntPlan EntRun.
From Stdlib Require Import QArith.

Open Scope string_scope.
Open Scope list_scope.
Open Scope Z_scope.

(** The installs of the manager's map, in an order of visiting its keys. *)
Definition visited (keys : list string) (s : EM) : list Install :=
  omap (fun k => s.(em_installs) !! k ≫= fun p => s.(em_heap) !! p) keys.

(** ** List *)

Definition newer (a b : Install) : Prop := String.leb b.(i_StartedAt) a.(i_StartedAt) = true.

#[export] Instance newer_dec : RelDecision newer.
Proof. intros a b. unfold newer. apply _. Defined.

#[export] Instance newer_total : Total newer.
Proof. intros a b. apply (String.leb_total b.(i_StartedAt) a.(i_StartedAt)). Qed.

#[export] Instance newer_trans : Transitive newer.
Proof. intros a b c Hab Hbc. by eapply (string_le_trans c.(i_StartedAt) b.(i_StartedAt) a.(i_StartedAt)). Qed.

(** [sort.Slice] is not stable: of installs started at the same time any may
    come first; this takes the one visited first. *)
Definition List (keys : list string) (s : EM) : list Install := merge_sort newer (visited keys s).

(** ** StepDurations *)

Section durations.
(** [time.Parse] of an RFC 3339 time, in nanoseconds. *)
Variable parse : string → option Z.

(** [Time.Sub] saturates. *)
Definition Sub (t1 t0 : Z) : Z := Z.min (2 ^ 63 - 1) (Z.max (- 2 ^ 63) (t1 - t0)).

(** The span of a step that did its work. *)
Definition span (st : Step) : option Z :=
  if negb (bool_decide (st.(s_State) = StepDone)) then None
  else if is_empty st.(s_StartedAt) || is_empty st.(s_FinishedAt) then None
  else match parse st.(s_StartedAt), parse st.(s_FinishedAt) with
       | Some t0, Some t1 => if 0 <? Sub t1 t0 then Some (Sub t1 t0) else None
       | _, _ => None
       end.

Definition add_sample (m : gmap string (list Z)) (st : Step) : gmap string (list Z) :=
  match span st with
  | Some d => <[st.(s_Name) := default [] (m !! st.(s_Name)) ++ [d]]> m
  | None => m
  end.

Definition by_step (visit : list Install) : gmap string (list Z) :=
  foldl (fun m x => foldl add_sample m x.(i_Steps)) ∅ visit.

(** The median, in nanoseconds. *)
Definition median (ds : list Z) : Q :=
  let ds := merge_sort Z.le ds in
  let n := length ds in
  if Nat.odd n then inject_Z (nth (n / 2) ds 0)
  else (inject_Z (nth (n / 2 - 1) ds 0) + inject_Z (nth (n / 2) ds 0)) / 2.

Definition StepDurations (visit : list Install) : gmap string Q := median <$> by_step visit.

(** ** What the figures are *)

(** The samples of a step, straight from the installs. *)
Definition samples (name : string) (visit : list Install) : list Z :=
  omap (fun st => if (st.(s_Name) =? name)%string then span st else None) (visit ≫= i_Steps).

Definition some_list (l : list Z) : option (list Z) := match l with [] => None | _ => Some l end.

Lemma some_list_app acc l : default [] (some_list acc) ++ l = acc ++ l.
Proof. by destruct acc. Qed.

Lemma foldl_samples sts (m : gmap string (list Z)) name acc :
  m !! name = some_list acc →
  foldl add_sample m sts !! name
  = some_list (acc ++ omap (fun st => if (st.(s_Name) =? name)%string then span st else None) sts).
Proof.
  revert m acc. induction sts as [|st sts IH]; intros m acc Hm; cbn [foldl omap list_omap]; [by rewrite app_nil_r|].
  unfold add_sample at 2. destruct (String.eqb_spec (s_Name st) name) as [<-|Hne].
  - destruct (span st) as [d|]; [|by apply IH].
    rewrite (IH _ (acc ++ [d])), <- app_assoc; [done|]. rewrite lookup_insert_eq, Hm.
    destruct acc; done.
  - destruct (span st) as [d|]; [|by apply IH]. apply IH. by rewrite lookup_insert_ne.
Qed.

Lemma by_step_samples visit name : by_step visit !! name = some_list (samples name visit).
Proof.
  unfold by_step, samples. change (some_list ?l) with (some_list ([] ++ l)).
  assert (∀ (m : gmap string (list Z)) acc, m !! name = some_list acc →
    foldl (fun m x => foldl add_sample m (i_Steps x)) m visit !! name
    = some_list (acc ++ omap (fun st => if (st.(s_Name) =? name)%string then span st else None) (visit ≫= i_Steps))) as H;
    [|by apply H].
  induction visit as [|x visit IH]; intros m acc Hm; cbn; [by rewrite app_nil_r|].
  rewrite omap_app, app_assoc. by apply IH, foldl_samples.
Qed.

Lemma sorted_perm (l l' : list Z) : l ≡ₚ l' → merge_sort Z.le l = merge_sort Z.le l'.
Proof.
  intros Hp. apply (StronglySorted_unique Z.le); [apply StronglySorted_merge_sort; apply _..|].
  by rewrite !merge_sort_Permutation.
Qed.

(** The figures do not depend on the order of the map. *)
Lemma StepDurations_order v v' : v ≡ₚ v' → StepDurations v = StepDurations v'.
Proof.
  intros Hp. apply map_eq. intros name. unfold StepDurations. rewrite !lookup_fmap, !by_step_samples.
  assert (samples name v ≡ₚ samples name v') as Hs by (unfold samples; by rewrite Hp).
  destruct (samples name v) as [|d l].
  - apply Permutation_nil_l in Hs. by rewrite <- Hs.
  - destruct (samples name v') as [|d' l']; [by apply Permutation_nil_r in Hs|]. cbn. f_equal.
    unfold median. by rewrite (sorted_perm _ _ Hs).
Qed.
End durations.
