(* ===== verification/EntApi.v ===== *)
(** * The enterprise API (internal/api/enterprise.go)

    What the browser calls to install and remove modules: the checks before the
    installer's manager is asked, and the two secrets a request leaves on disk,
    the advisor's inference key and the sealed password.  A handler that waits for
    the manager (its dial, a step) is split at that point.  The manager is
    EntRun.v's; the files are those of the data folder that hold the secrets. *)
From S2P Require Import Prelude GoStrings Secret GoNet ClusterModel Generator Storage DeployApi EntModel EntManifest EntPlan EntRun EntStats.
From Stdlib Require Import Ascii.

Open Scope string_scope.
Open Scope list_scope.
Open Scope Z_scope.

Record ent : Type := mkEnt {
  en_mgr : EM;
  en_files : gmap string string
}.

Definition on_em (f : EM → EM) (w : ent) : ent := mkEnt (f w.(en_mgr)) w.(en_files).
Definition set_files (f : gmap string string) (w : ent) : ent := mkEnt w.(en_mgr) f.

Record StartReq : Type := mkStartReq {
  sq_Module : string;
  sq_Params : InstallParams;
  sq_Manual : bool;
  sq_SimulateAirgap : bool;
  sq_Password : string;
  sq_Manifest : string;
  sq_Lab : bool;
  sq_Vip : string;
  sq_ProviderKey : string
}.

Definition defaultPassword (host : string) : string :=
  let parts := Split host "."%char in
  if (length parts <? 4)%nat then "Cube@" +:+ host else "Cube@" +:+ Join (drop 2 parts) ".".

(** The first address of the node's management interface. *)
Definition mgmt_addr (n : NodeConfig) : option string :=
  if_IPAddr <$> find (fun f => (f.(if_ID) =? n.(nc_RoleSettings).(rs_MgmtIF).(info_ID))%string
                               && negb (is_empty f.(if_IPAddr))) (AllIFs n).

Definition connectHost (d : ClusterDetail) : string :=
  let vip := d.(cd_ClusterConfig).(cc_HASettings).(ha_VirtualIP) in
  if negb (is_empty vip) then vip else default "" (head (omap mgmt_addr d.(cd_NodeData))).

Definition known_module (m : string) : bool :=
  (m =? ModuleAppFW)%string || (m =? ModuleCMP)%string || (m =? ModuleAdvisor)%string.

Definition set_names (project framework : string) (p : InstallParams) : InstallParams :=
  mkInstallParams project p.(ip_PublicNet) p.(ip_MgmtNet) p.(ip_LBIP) p.(ip_OSImage)
    p.(ip_ExtpackFile) framework p.(ip_AppFile) p.(ip_FsImage) p.(ip_LBImage)
    p.(ip_AdvisorFile) p.(ip_AdvisorLBIP) p.(ip_AdvisorPool) p.(ip_AdvisorBaseURL)
    p.(ip_AdvisorProviderURL) p.(ip_AdvisorProviderModel) p.(ip_AdvisorProviderKeyFile) p.(ip_StorageBackend).

Definition set_key_file (f : string) (p : InstallParams) : InstallParams :=
  mkInstallParams p.(ip_Project) p.(ip_PublicNet) p.(ip_MgmtNet) p.(ip_LBIP) p.(ip_OSImage)
    p.(ip_ExtpackFile) p.(ip_Framework) p.(ip_AppFile) p.(ip_FsImage) p.(ip_LBImage)
    p.(ip_AdvisorFile) p.(ip_AdvisorLBIP) p.(ip_AdvisorPool) p.(ip_AdvisorBaseURL)
    p.(ip_AdvisorProviderURL) p.(ip_AdvisorProviderModel) f p.(ip_StorageBackend).

(** Each of the two names of the framework stands in for the other. *)
Definition fill_names (p : InstallParams) : InstallParams :=
  let p := if is_empty p.(ip_Project) then set_names p.(ip_Framework) p.(ip_Framework) p else p in
  if is_empty p.(ip_Framework) then set_names p.(ip_Project) p.(ip_Project) p else p.

Definition uninstall_names (p : InstallParams) : InstallParams :=
  let p := if is_empty p.(ip_Project) then set_names "appfw" p.(ip_Framework) p else p in
  if is_empty p.(ip_Framework) then set_names p.(ip_Project) p.(ip_Project) p else p.

(** What [start] asks of the parameters, in its order. *)
Definition check_params (module : string) (p0 : InstallParams) : result InstallParams :=
  if negb (known_module module) then Err ("unknown module " +:+ Quote module)
  else if is_empty p0.(ip_OSImage) && (module =? ModuleAppFW)%string
  then Err "params.OSImage is required (the rancher cluster image .raw)"
  else
    let p := fill_names p0 in
    if is_empty p.(ip_Project) then Err "params.Project is required (the app-framework name)"
    else if (module =? ModuleCMP)%string && is_empty p.(ip_AppFile)
    then Err "params.AppFile is required (the cube-portal .pigz basename)"
    else if (module =? ModuleAdvisor)%string && is_empty p.(ip_AdvisorFile)
    then Err "params.AdvisorFile is required (the cube-advisor .pigz basename)"
    else if (module =? ModuleAdvisor)%string && is_empty p.(ip_AdvisorLBIP)
    then Err "params.AdvisorLBIP is required (the advisor service LB IP)"
    else Ok p.

(** ** The two secrets *)

Definition safe_char (c : ascii) : ascii :=
  let n := nat_of_ascii c in
  if ((97 <=? n) && (n <=? 122) || (65 <=? n) && (n <=? 90) || (48 <=? n) && (n <=? 57)
      || (n =? 46) || (n =? 45))%nat then c else "_"%char.

Definition safe_name (id : string) : string :=
  String.string_of_list_ascii (safe_char <$> String.list_ascii_of_string id).

Definition keyPath (dataDir id : string) : string :=
  PathJoin [PathJoin [dataDir; "advisor"]; ".provider-key-" +:+ safe_name id].

Definition pwPath (dataDir id module : string) : string :=
  PathJoin [dataDir; "installs"; id +:+ "-" +:+ module +:+ ".pw"].

Section Api.
Context `{AEAD} (box dataDir : string).
Context (Unmarshal : string → option ClusterDetail).
(** The manifests [LoadManifests] finds, and whether a file can be written. *)
Context (manifests : list Manifest) (writable : string → bool).

Definition resolveHost (clusters : filestore) (id vip : string) : reply string :=
  let v := TrimSpace vip in
  if negb (is_empty v) then OK 0 v
  else match Cluster_Detail Unmarshal id clusters with
       | Err e => if (e =? ErrStoreNotFound)%string then Fail 404 ("cluster " +:+ id +:+ " not found") else Fail 500 e
       | Ok d =>
           let host := connectHost d in
           if is_empty host then Fail 400 "cluster has no reachable VIP or management IP" else OK 0 host
       end.

Definition fileProviderKey (id key : string) (w : ent) : ent * result string :=
  let path := keyPath dataDir id in
  if writable path then (set_files (<[path := key]> w.(en_files)) w, Ok path)
  else (w, Err ("open " +:+ path +:+ ": permission denied")).

Definition persistPassword (id module password nonce : string) (w : ent) : ent :=
  let p := pwPath dataDir id module in
  if writable p then set_files (<[p := Encrypt box nonce password]> w.(en_files)) w else w.

(** [os.Remove] *)
Definition remove_file (f : string) (w : ent) : ent :=
  if is_empty f then w else set_files (delete f w.(en_files)) w.

(** How far a handler got: answered, or the manager is at work for it, with the provider
    key's file and the password it will file. *)
Inductive handling :=
  | Replied (r : reply Install)
  | Working (keyFile password : string).

(** The part of [start] before the secrets: the host, the password, the parameters,
    the manifest and the warnings the manager is to be given. *)
Definition start_plan (clusters : filestore) (id : string) (req : StartReq)
    : reply (string * string * InstallParams * option Manifest * list string) :=
  match check_params req.(sq_Module) req.(sq_Params) with
  | Err e => Fail 400 e
  | Ok p =>
  match resolveHost clusters id req.(sq_Vip) with
  | Fail c e => Fail c e
  | OK _ host =>
      let password := or_default req.(sq_Password) (defaultPassword host) in
      let manifest := FindManifest manifests req.(sq_Manifest) in
      if negb (is_empty req.(sq_Manifest)) && negb (bool_decide (is_Some manifest))
      then Fail 400 ("unknown manifest " +:+ Quote req.(sq_Manifest))
      else
        let file := if (req.(sq_Module) =? ModuleAdvisor)%string then p.(ip_AdvisorFile) else p.(ip_AppFile) in
        match CheckModule manifest req.(sq_Module) file req.(sq_Lab) with
        | Err e => Fail 400 e
        | Ok warn => OK 0 (host, password, p, manifest, if is_empty warn then [] else [warn])
        end
  end
  end.

(** [start] from the manager's answer on. *)
Definition start_end (id module keyFile password nonce : string) (launched : result Install) (w : ent)
    : ent * reply Install :=
  match launched with
  | Err e => (remove_file keyFile w, Fail 409 e)
  | Ok x => (persistPassword id module password nonce w, OK 202 x)
  end.

Definition start (clusters : filestore) (id : string) (req : option StartReq) (now : string) (w : ent)
    : ent * handling :=
  if negb (pathValue id) then (w, Replied (bad_path "id")) else
  match req with
  | None => (w, Replied (Fail 400 "invalid JSON"))
  | Some req =>
  match start_plan clusters id req with
  | Fail c e => (w, Replied (Fail c e))
  | OK _ (host, password, p, manifest, warnings) =>
      let '(w, staged) :=
        if (req.(sq_Module) =? ModuleAdvisor)%string && negb (is_empty req.(sq_ProviderKey))
        then match fileProviderKey id req.(sq_ProviderKey) w with
             | (w, Ok f) => (w, Ok (set_key_file f p))
             | (w, Err e) => (w, Err ("could not stage the provider key: " +:+ e))
             end
        else (w, Ok p) in
      match staged with
      | Err e => (w, Replied (Fail 500 e))
      | Ok p =>
          let '(s, launched) := StartLab id req.(sq_Module) host now p req.(sq_Manual)
            req.(sq_SimulateAirgap) req.(sq_Lab) warnings manifest w.(en_mgr) in
          let w := mkEnt s w.(en_files) in
          match launched with
          | Err e =>
              let '(w, r) := start_end id req.(sq_Module) p.(ip_AdvisorProviderKeyFile) password "" (Err e) w in
              (w, Replied r)
          | Ok _ => (w, Working p.(ip_AdvisorProviderKeyFile) password)
          end
      end
  end
  end.

Record UninstallReq : Type := mkUninstallReq {
  uq_Module : string;
  uq_Params : InstallParams;
  uq_Manual : bool;
  uq_Password : string;
  uq_Vip : string
}.

Definition uninstall (clusters : filestore) (id : string) (req : option UninstallReq) (now : string) (w : ent)
    : ent * handling :=
  if negb (pathValue id) then (w, Replied (bad_path "id")) else
  match req with
  | None => (w, Replied (Fail 400 "invalid JSON"))
  | Some req =>
      if negb (known_module req.(uq_Module))
      then (w, Replied (Fail 400 ("unknown module " +:+ Quote req.(uq_Module))))
      else match resolveHost clusters id req.(uq_Vip) with
           | Fail c e => (w, Replied (Fail c e))
           | OK _ host =>
               let password := or_default req.(uq_Password) (defaultPassword host) in
               let '(s, launched) := StartUninstall id req.(uq_Module) host now
                 (uninstall_names req.(uq_Params)) req.(uq_Manual) w.(en_mgr) in
               let w := mkEnt s w.(en_files) in
               match launched with
               | Err e => (w, Replied (Fail 409 e))
               | Ok _ => (w, Working "" password)
               end
           end
  end.

Definition uninstall_end (id module password nonce : string) (launched : result Install) (w : ent)
    : ent * reply Install := start_end id module "" password nonce launched w.

Definition status (id module : string) (w : ent) : reply Install :=
  if negb (pathValue id) then bad_path "id" else
  match Status id module w.(en_mgr) with
  | Some x => OK 200 x
  | None => Fail 404 ("no install for " +:+ id +:+ "/" +:+ module)
  end.

(** [None]: the step is at work. *)
Definition next (id module : string) (w : ent) : ent * option (reply (option Install)) :=
  if negb (pathValue id) then (w, Some (bad_path "id")) else
  match Next id module w.(en_mgr) with
  | (s, Err e) => (mkEnt s w.(en_files), Some (Fail 409 e))
  | (s, Ok _) =>
      let w' := mkEnt s w.(en_files) in
      (w', if decide (em_tid s = em_tid w.(en_mgr)) then Some (OK 200 (Status id module s)) else None)
  end.

Definition next_end (id module : string) (stepped : result unit) (w : ent) : reply (option Install) :=
  match stepped with
  | Err e => Fail 409 e
  | Ok _ => OK 200 (Status id module w.(en_mgr))
  end.

Definition cancel (id module : string) (w : ent) : ent * reply string :=
  if negb (pathValue id) then (w, bad_path "id") else (on_em (Cancel id module) w, OK 202 "cancelled").

(** [Introspect]: what the cluster at a host says for a password and a framework
    (EntPreflight.v).  The request holds a password, a host and a framework; a body
    that does not decode counts as blank. *)
Definition clusterInfo {Q} (Introspect : string → string → string → result Q) (clusters : filestore)
    (id : string) (body : option (string * string * string)) : reply Q :=
  if negb (pathValue id) then bad_path "id" else
  let '(password, vip, framework) := default ("", "", "") body in
  match resolveHost clusters id vip with
  | Fail c e => Fail c e
  | OK _ host =>
      match Introspect host (or_default password (defaultPassword host)) framework with
      | Err e => Fail 502 ("cluster query failed: " +:+ e)
      | Ok q => OK 200 q
      end
  end.

(** The dashboard's list and figures; [keys]: how Go visits the map. *)
Definition installs (keys : list string) (w : ent) : reply (list Install) := OK 200 (EntStats.List keys w.(en_mgr)).
Definition stepStats (parse : string → option Z) (keys : list string) (w : ent) : reply (gmap string QArith_base.Q) :=
  OK 200 (StepDurations parse (visited keys w.(en_mgr))).

Definition matrix : reply (list Manifest) := OK 200 manifests.

(** The manager's own steps, with the files they remove. *)
Variable keycloak_b64 : string.

Definition removed (s s' : EM) : list string :=
  (take (length s'.(em_keys_removed) - length s.(em_keys_removed)) s'.(em_keys_removed)).*2.

Definition ent_step (w : ent) (e : event) : option ent :=
  s ← estep keycloak_b64 w.(en_mgr) e;
  Some (mkEnt s (foldr delete w.(en_files) (removed w.(en_mgr) s))).

(** ** What reaches the manager *)

(** The parameters the handler insists on.  App-Framework's two service images are
    not among them, although its plan pushes them ([blank_images_pass]). *)
Definition required_given (module : string) (p : InstallParams) : Prop :=
  known_module module = true ∧ p.(ip_Project) ≠ "" ∧ p.(ip_Framework) ≠ ""
  ∧ (module = ModuleAppFW → p.(ip_OSImage) ≠ "")
  ∧ (module = ModuleCMP → p.(ip_AppFile) ≠ "")
  ∧ (module = ModuleAdvisor → p.(ip_AdvisorFile) ≠ "" ∧ p.(ip_AdvisorLBIP) ≠ "").

Lemma fill_names_spec p :
  let f := fill_names p in
  f = set_names f.(ip_Project) f.(ip_Framework) p
  ∧ (f.(ip_Project) ≠ "" → f.(ip_Framework) ≠ "").
Proof.
  unfold fill_names, is_empty. destruct p as [pr ? ? ? ? ? fw]. cbn [ip_Project].
  destruct (String.eqb_spec pr "") as [->|Hp]; unfold set_names; cbn -[String.eqb];
    destruct (String.eqb_spec fw "") as [->|Hf]; cbn -[String.eqb]; by split.
Qed.

Lemma check_params_ok module p0 p :
  check_params module p0 = Ok p → p = fill_names p0 ∧ required_given module p.
Proof.
  unfold check_params. destruct (fill_names_spec p0) as [Hf Hfw].
  destruct (known_module module) eqn:Hk; [|done]. cbn [negb].
  destruct (is_empty (ip_OSImage p0) && _) eqn:Ho; [done|].
  destruct (is_empty (ip_Project (fill_names p0))) eqn:Hp; [done|].
  destruct ((module =? ModuleCMP)%string && _) eqn:Hc; [done|].
  destruct ((module =? ModuleAdvisor)%string && is_empty (ip_AdvisorFile _)) eqn:Ha; [done|].
  destruct ((module =? ModuleAdvisor)%string && is_empty (ip_AdvisorLBIP _)) eqn:Hl; [done|].
  intros [= <-]. split; [done|]. apply is_empty_false in Hp. split; [done|]. split; [done|].
  split; [by apply Hfw|]. split_and!; intros ->; rewrite ?String.eqb_refl, ?andb_true_r in *; cbn [andb] in *.
  - rewrite Hf. by apply is_empty_false.
  - by apply is_empty_false.
  - by split; apply is_empty_false.
Qed.

Lemma resolveHost_ok cs id vip c host : resolveHost cs id vip = OK c host → host ≠ "".
Proof.
  unfold resolveHost. destruct (is_empty (TrimSpace vip)) eqn:Ev; cbn [negb].
  - destruct (Cluster_Detail Unmarshal id cs) as [d|e]; [|by destruct (e =? _)%string].
    destruct (is_empty (connectHost d)) eqn:Eh; [done|]. intros [= _ <-]. by apply is_empty_false.
  - intros [= _ <-]. by apply is_empty_false.
Qed.

(** What is settled before the manager is asked. *)
Definition planned (cs : filestore) (id : string) (req : StartReq) (host password : string)
    (p : InstallParams) (m : option Manifest) (ws : list string) : Prop :=
  (∃ c, resolveHost cs id req.(sq_Vip) = OK c host) ∧ host ≠ ""
  ∧ password = or_default req.(sq_Password) (defaultPassword host) ∧ password ≠ ""
  ∧ p = fill_names req.(sq_Params) ∧ required_given req.(sq_Module) p
  ∧ m = FindManifest manifests req.(sq_Manifest) ∧ (req.(sq_Manifest) ≠ "" → is_Some m)
  ∧ ∃ warn, CheckModule m req.(sq_Module)
              (if (req.(sq_Module) =? ModuleAdvisor)%string then p.(ip_AdvisorFile) else p.(ip_AppFile))
              req.(sq_Lab) = Ok warn
            ∧ ws = if is_empty warn then [] else [warn].

Lemma defaultPassword_nonempty host : defaultPassword host ≠ "".
Proof. unfold defaultPassword. by destruct (_ <? _)%nat. Qed.

Lemma start_plan_ok cs id req c host password p m ws :
  start_plan cs id req = OK c (host, password, p, m, ws) → planned cs id req host password p m ws.
Proof.
  unfold start_plan. destruct (check_params _ _) as [p'|] eqn:Hp; [|done].
  destruct (resolveHost _ _ _) as [c' host'|] eqn:Hh; [|done].
  destruct (negb (is_empty (sq_Manifest req)) && _) eqn:Hm; [done|].
  destruct (CheckModule _ _ _ _) as [warn|] eqn:Hc; [|done]. intros [= _ <- <- <- <- <-].
  apply check_params_ok in Hp as [-> Hl].
  split; [by exists c'|]. split; [by eapply resolveHost_ok|]. split; [done|]. split.
  { unfold or_default. destruct (is_empty (sq_Password req)) eqn:E;
      [apply defaultPassword_nonempty|by apply is_empty_false]. }
  split; [done|]. split; [done|]. split; [done|]. split; [|by exists warn].
  intros Hne%is_empty_false. rewrite Hne in Hm. cbn [negb andb] in Hm. to_prop. done.
Qed.

Lemma planned_no_key cs id req host password p m ws :
  planned cs id req host password p m ws →
  req.(sq_Params).(ip_AdvisorProviderKeyFile) = "" → p.(ip_AdvisorProviderKeyFile) = "".
Proof. intros (_ & _ & _ & _ & -> & _). by rewrite (proj1 (fill_names_spec _)). Qed.

(** The record the manager holds while it dials. *)
Definition launched_install (id host now : string) (req : StartReq) (p : InstallParams)
    (m : option Manifest) (ws : list string) : Install :=
  new_install id req.(sq_Module) "install" host now req.(sq_Manual) req.(sq_SimulateAirgap) req.(sq_Lab) ws
    (match m with Some m => m.(mf_Name) | None => "" end) p.

Definition not_running (x : option Install) : Prop := ∀ i, x = Some i → is_running i = false.

Lemma StartLab_cases id module host now p manual airgap lab ws m s s' r :
  StartLab id module host now p manual airgap lab ws m s = (s', r) →
  (∃ e, r = Err e ∧ s' = s ∧ ¬ not_running (Status id module s))
  ∨ (r = Ok tt ∧ not_running (Status id module s)
     ∧ Status id module s' = Some (new_install id module "install" host now manual airgap lab ws
                                     (match m with Some m => m.(mf_Name) | None => "" end) p)).
Proof.
  unfold StartLab, launch, Status, not_running.
  destruct (_ ≫= _) as [ex|]; [destruct (is_running ex) eqn:Er|]; intros [= <- <-].
  - left. eexists. split; [done|]. split; [done|]. intros Hn. specialize (Hn _ eq_refl). congruence.
  - right. split; [done|]. split; [by intros i [= <-]|]. cbn. by rewrite lookup_insert_eq; cbn; rewrite lookup_insert_eq.
  - right. split; [done|]. split; [done|]. cbn. by rewrite lookup_insert_eq; cbn; rewrite lookup_insert_eq.
Qed.

(** The provider key is filed, or there is none. *)
Definition key_filed (id : string) (req : StartReq) (kf : string) (files files' : gmap string string) : Prop :=
  kf = "" ∧ files' = files
  ∨ req.(sq_Module) = ModuleAdvisor ∧ req.(sq_ProviderKey) ≠ "" ∧ kf = keyPath dataDir id
    ∧ files' = <[kf := req.(sq_ProviderKey)]> files.

(** The path of a key file is not part of a request: its JSON tag is a dash. *)
Definition no_key_path (req : option StartReq) : Prop :=
  match req with Some r => r.(sq_Params).(ip_AdvisorProviderKeyFile) = "" | None => True end.

(** C34. An install request that reaches the manager has settled its host and its
    password, a module the plans know, a project and a framework, the module's main
    artifact (the OS image of App-Framework, the bundle of the portal or of the
    advisor) and the advisor's address, a manifest that exists if one was named
    and lets the module's version through; no run of the same module was going on, the
    manager's record of the new one says exactly this, and the advisor's key is in
    the file the plan stages and nowhere else.  The two service images that
    App-Framework's plan also pushes are not checked: they may be blank, which is a
    finding (blank_images_pass).  The request itself names no key file: the field is
    not decoded from JSON. *)
Theorem start_launched cs id req now w w' kf password :
  no_key_path req →
  start cs id req now w = (w', Working kf password) →
  ∃ r host p m ws,
    req = Some r ∧ planned cs id r host password p m ws
    ∧ not_running (Status id r.(sq_Module) w.(en_mgr))
    ∧ Status id r.(sq_Module) w'.(en_mgr)
      = Some (launched_install id host now r (set_key_file kf p) m ws)
    ∧ key_filed id r kf w.(en_files) w'.(en_files).
Proof.
  unfold start. destruct (pathValue id); [|done]. cbn [negb]. destruct req as [r|]; [|done]. cbn [no_key_path]. intros Hkf.
  destruct (start_plan cs id r) as [c [[[[host pw] p] m] ws]|] eqn:Hp; [|done].
  apply start_plan_ok in Hp. intros Hs. exists r, host.
  destruct ((sq_Module r =? ModuleAdvisor)%string && _) eqn:Hk.
  - unfold fileProviderKey in Hs. destruct (writable (keyPath dataDir id)); [|done].
    destruct (StartLab _ _ _ _ _ _ _ _ _ _ _) as [s' l] eqn:Hl. apply StartLab_cases in Hl.
    destruct l as [[]|e]; [|done]. destruct Hl as [(? & ? & _)|(_ & Hn & Hst)]; [done|].
    injection Hs as <- <- <-. exists p, m, ws. split; [done|]. split; [done|]. split; [done|].
    split; [done|]. right. to_prop. destruct Hk as [Hk1 Hk2]. split_and!; try done. all: by apply is_empty_false.
  - destruct (StartLab _ _ _ _ _ _ _ _ _ _ _) as [s' l] eqn:Hl. apply StartLab_cases in Hl.
    destruct l as [[]|e]; [|done]. destruct Hl as [(? & ? & _)|(_ & Hn & Hst)]; [done|].
    pose proof (planned_no_key _ _ _ _ _ _ _ _ Hp Hkf) as Hb.
    injection Hs as <- <- <-. exists p, m, ws. split; [done|]. split; [done|]. split; [done|].
    rewrite Hb. split; [|by left]. unfold launched_install. cbn [en_mgr]. rewrite Hst. do 2 f_equal. by destruct p; cbn in *; subst.
Qed.

(** A request that is refused at once changes nothing of the manager's, and no file
    but the provider key's. *)
Theorem start_refused cs id req now w w' r :
  no_key_path req → start cs id req now w = (w', Replied r) →
  is_OK r = false ∧ w'.(en_mgr) = w.(en_mgr)
  ∧ ∀ f, f ≠ keyPath dataDir id → w'.(en_files) !! f = w.(en_files) !! f.
Proof.
  unfold start. destruct (pathValue id); cbn [negb]; [|by intros _ [= <- <-]].
  destruct req as [q|]; [|by intros _ [= <- <-]]. cbn [no_key_path]. intros Hkf.
  destruct (start_plan cs id q) as [c [[[[host pw] p] m] ws]|] eqn:Hp; [|by intros [= <- <-]].
  apply start_plan_ok in Hp. destruct (_ && _).
  - unfold fileProviderKey. destruct (writable _); [|by intros [= <- <-]].
    destruct (StartLab _ _ _ _ _ _ _ _ _ _ _) as [s' l] eqn:Hl. apply StartLab_cases in Hl.
    destruct l as [[]|e]; [done|]. destruct Hl as [(? & _ & -> & _)|(? & _)]; [|done].
    intros [= <- <-]. unfold remove_file. cbn [ip_AdvisorProviderKeyFile set_key_file].
    destruct (is_empty (keyPath dataDir id)); (split; [done|]; split; [done|]; intros f Hf; cbn).
    + by rewrite lookup_insert_ne.
    + by rewrite lookup_delete_ne, lookup_insert_ne.
  - destruct (StartLab _ _ _ _ _ _ _ _ _ _ _) as [s' l] eqn:Hl. apply StartLab_cases in Hl.
    destruct l as [[]|e]; [done|]. destruct Hl as [(? & _ & -> & _)|(? & _)]; [|done].
    pose proof (planned_no_key _ _ _ _ _ _ _ _ Hp Hkf) as Hb.
    unfold start_end. rewrite Hb. by intros [= <- <-].
Qed.

(** The manager's answer decides what stays on disk: the sealed password of a run
    that started, nothing of one that did not. *)
Theorem start_end_files id module keyFile password nonce launched w :
  String.length nonce = NonceSize → keyFile ≠ "" →
  let '(w', r) := start_end id module keyFile password nonce launched w in
  match launched with
  | Ok x =>
      r = OK 202 x ∧ (writable (pwPath dataDir id module) = true →
        ∃ text, w'.(en_files) !! pwPath dataDir id module = Some text ∧ Decrypt box text = Ok password)
  | Err e => r = Fail 409 e ∧ w'.(en_mgr) = w.(en_mgr) ∧ w'.(en_files) = delete keyFile w.(en_files)
  end.
Proof.
  intros Hn Hk%is_empty_false. unfold start_end. destruct launched as [x|e].
  - split; [done|]. intros Hw. unfold persistPassword. rewrite Hw. eexists.
    split; [apply lookup_insert_eq|]. by apply Decrypt_Encrypt.
  - unfold remove_file. by rewrite Hk.
Qed.
End Api.

(** ** A lab cluster *)

Module Demo.
#[local] Existing Instance plain_aead.

Definition params (osImage appFile advisorFile : string) : InstallParams :=
  mkInstallParams "" "public" "mgmt" "10.0.0.4" osImage "" "lab-fw" appFile "" "" advisorFile "10.0.0.6"
    [] "" "" "" "" "".

Definition req (module : string) (p : InstallParams) (key : string) : StartReq :=
  mkStartReq module p false false "" "" false " 10.32.10.140 " key.

Definition no_clusters : filestore := mkFilestore ∅ ∅ ∅ ∅ false.
Definition w0 : ent := mkEnt (empty_EM ∅) ∅.
Definition start_ (r : StartReq) : ent → ent * handling :=
  start demo_key "/data" (fun _ => None) [] (fun _ => true) no_clusters "lab" (Some r) "09:00".

Definition advisor : StartReq := req ModuleAdvisor (params "" "" "cube-advisor-1.2.0.pigz") "sk-1".
Definition w1 : ent := (start_ advisor w0).1.
Definition key_file : string := "/data/advisor/.provider-key-lab".

Example started :
  (start_ advisor w0).2 = Working key_file "Cube@10.140" ∧ w1.(en_files) !! key_file = Some "sk-1".
Proof. by vm_compute. Qed.

(** The same request while the run is on is refused, and takes the running
    install's key with it: the file was overwritten, then removed. *)
Example second_start_steals_key :
  let again := start_ (req ModuleAdvisor (params "" "" "cube-advisor-1.2.0.pigz") "sk-2") w1 in
  again.2 = Replied (Fail 409 "install already running for lab/advisor")
  ∧ again.1.(en_files) !! key_file = None
  ∧ (fun x => (i_State x, ip_AdvisorProviderKeyFile (i_Params x))) <$> Status "lab" ModuleAdvisor again.1.(en_mgr)
    = Some ("running", key_file).
Proof. by vm_compute. Qed.

Definition steps (w : ent) (es : list event) : option ent :=
  foldl (fun w e => w ≫= fun w => ent_step "" w e) (Some w) es.
Definition up : answer := mkAnswer "09:01" true true "/data" (fun _ => true) (mkOutcome None false).

(** A restart of the driver ends the run and leaves its key on disk: the record
    that survives does not name the file. *)
Example restart_keeps_key :
  (fun w => (w.(en_files) !! key_file,
             (fun x => (i_State x, ip_AdvisorProviderKeyFile (i_Params x))) <$> Status "lab" ModuleAdvisor w.(en_mgr)))
  <$> steps w1 [EThread 0 up; EThread 0 up; ERestart (fun _ => true)]
  = Some (Some "sk-1", Some ("error", "")).
Proof. by vm_compute. Qed.

(** Blank names of the two service images pass: their steps push the image
    folder itself. *)
Example blank_images_pass :
  let p := params "rancher.raw" "" "" in
  (∃ pw, (start_ (req ModuleAppFW p "") w0).2 = Working "" pw)
  ∧ (fun s => (ps_Name s, ps_LocalPath s))
    <$> List.filter (fun s => (ps_LocalPath s =? "/data/appfw")%string)
          (BuildPlan (fun _ => false) "" ModuleAppFW (fill_names p) false "/data" None)
    = [("import_fs", "/data/appfw"); ("import_lb", "/data/appfw")].
Proof. split; [eexists|]; by vm_compute. Qed.
End Demo.

(** The hypotheses of [start_launched] hold of the advisor's request. *)
Lemma start_launched_witness :
  no_key_path (Some Demo.advisor) ∧ ∃ r host p m ws,
    Some Demo.advisor = Some r
    ∧ planned (fun _ => None) [] Demo.no_clusters "lab" r host "Cube@10.140" p m ws
    ∧ not_running (Status "lab" r.(sq_Module) Demo.w0.(en_mgr))
    ∧ Status "lab" r.(sq_Module) Demo.w1.(en_mgr)
      = Some (launched_install "lab" host "09:00" r (set_key_file Demo.key_file p) m ws)
    ∧ key_filed "/data" "lab" r Demo.key_file Demo.w0.(en_files) Demo.w1.(en_files).
Proof.
  split; [reflexivity|].
  apply (@start_launched plain_aead demo_key "/data" (fun _ => None) [] (fun _ => true)); [reflexivity|vm_compute; reflexivity].
Defined.
