(* ===== verification/EntInv.v ===== *)
(** * Automatic installs, under every interleaving

    The invariant of the manager's transition system: an automatic run has one
    goroutine, its steps run in order, one at a time, and it is reported done
    only when every step did its work or was skipped.  The other goroutines
    (launches and manual steps of other keys, cancels, restarts) take their
    sections anywhere in between. *)
From S2P Require Import Prelude GoStrings EntModel EntManifest EntPlan EntRun.

Open Scope string_scope.
Open Scope list_scope.
Open Scope Z_scope.

(** ** What holds of a run *)

Definition settled (st : Step) : Prop := st.(s_State) = StepDone ∨ st.(s_State) = StepSkipped.
Definition pending (st : Step) : Prop := st.(s_State) = StepPending.
Definition in_hand (st : Step) : Prop := st.(s_State) = StepActive ∨ st.(s_State) = StepError.

(** Settled before [c], [P] at [c], pending after. *)
Definition steps_at (c : nat) (P : Step → Prop) (l : list Step) : Prop :=
  ∀ i st, l !! i = Some st →
    ((i < c)%nat → settled st) ∧ (i = c → P st) ∧ ((c < i)%nat → pending st).

Definition is_done (x : Install) : Prop := x.(i_State) = "done".
Definition done_ok (x : Install) : Prop := is_done x → Forall settled x.(i_Steps).

Definition aligned (th : thread) (x : Install) : Prop :=
  length x.(i_Steps) = length th.(th_plan) ∧ completes_last th.(th_plan).

(** Where the run stands, by the next section of its goroutine. *)
Definition run_ok (th : thread) (x : Install) : Prop :=
  let n := length th.(th_plan) in
  let c := x.(i_Current) in
  match th.(th_kind), th.(th_pc) with
  | TLaunch, (PDial _ | PCommit _) => x.(i_Steps) = [] ∧ c = 0%nat ∧ ¬ is_done x
  | TLaunch, PRollback => ¬ is_done x
  | TAuto, (PLoop | PIndex) =>
      aligned th x ∧ (c <= n)%nat ∧ steps_at c pending x.(i_Steps) ∧ ¬ is_done x
  | TAuto, PBegin idx =>
      aligned th x ∧ idx = c ∧ (c < n)%nat ∧ steps_at c pending x.(i_Steps) ∧ ¬ is_done x
  | TAuto, PRemote idx =>
      aligned th x ∧ idx = c ∧ (c < n)%nat ∧ steps_at c in_hand x.(i_Steps) ∧ ¬ is_done x
  | TAuto, PAdvance =>
      aligned th x ∧ (c < n)%nat ∧ steps_at (S c) pending x.(i_Steps)
      ∧ (is_done x → S c = n)
  | TAuto, PFinal => Forall settled x.(i_Steps)
  | TAuto, PTerm => True
  | TAuto, PClean => True
  | _, _ => False
  end.

Definition owner (th : thread) : Prop := th.(th_kind) = TLaunch ∨ th.(th_kind) = TAuto.

Definition launching (th : thread) : Prop :=
  match th.(th_kind), th.(th_pc) with
  | TLaunch, (PDial _ | PCommit _ | PRollback) => True
  | _, _ => False
  end.

(** The other goroutines never touch the progress of an automatic run. *)
Definition guest_ok (th : thread) (x : Install) : Prop :=
  match th.(th_kind), th.(th_pc) with
  | TNext, (PBegin _ | PRemote _ | PNextEnd _ | PTerm | PClean) => x.(i_Manual) = true
  | TCancel, (PTerm | PClean) => True
  | _, _ => False
  end.

Definition thread_ok (th : thread) (heap : gmap nat Install) : Prop :=
  (th.(th_kind) = TCancel ∧ ∃ c, th.(th_pc) = PCall c)
  ∨ ∃ x, heap !! th.(th_p) = Some x
      ∧ (owner th ∧ (x.(i_Manual) = false → run_ok th x)
           ∧ (x.(i_Manual) = true → launching th)
         ∨ ¬ owner th ∧ guest_ok th x).

Record Inv (s : EM) : Prop := {
  inv_heap p x : s.(em_heap) !! p = Some x → (p < s.(em_next))%nat;
  inv_tid t th : s.(em_threads) !! t = Some th → (t < s.(em_tid))%nat;
  inv_thread t th : s.(em_threads) !! t = Some th → thread_ok th s.(em_heap);
  inv_one t t' th th' :
    s.(em_threads) !! t = Some th → s.(em_threads) !! t' = Some th' →
    owner th → owner th' → th.(th_p) = th'.(th_p) → t = t';
  inv_done p x : s.(em_heap) !! p = Some x → x.(i_Manual) = false → done_ok x;
  inv_disk f y : s.(em_disk) !! f = Some y → y.(i_Manual) = false → done_ok y
}.

(** ** Frame lemmas *)

Lemma Save_heap b p s : (Save b p s).(em_heap) = s.(em_heap).
Proof. unfold Save. by repeat case_match. Qed.
Lemma Save_next b p s : (Save b p s).(em_next) = s.(em_next).
Proof. unfold Save. by repeat case_match. Qed.
Lemma Save_threads b p s : (Save b p s).(em_threads) = s.(em_threads).
Proof. unfold Save. by repeat case_match. Qed.
Lemma Save_tid b p s : (Save b p s).(em_tid) = s.(em_tid).
Proof. unfold Save. by repeat case_match. Qed.

(** What the disk of [s'] holds comes from the disk of [s] or from its heap. *)
Definition disk_from (s s' : EM) : Prop :=
  ∀ f y, s'.(em_disk) !! f = Some y →
    s.(em_disk) !! f = Some y ∨ ∃ p x, s.(em_heap) !! p = Some x ∧ y = on_disk x.

Lemma Save_disk b p s : disk_from s (Save b p s).
Proof.
  intros f y. unfold Save. destruct (em_heap s !! p) as [x|] eqn:E; [|by left].
  destruct b; [|by left]. cbn. intros [[_ <-]|[_ H]]%lookup_insert_Some; [right; by eauto|by left].
Qed.

(** Everything but the maps and the disk. *)
Definition same_core (s s' : EM) : Prop :=
  s'.(em_heap) = s.(em_heap) ∧ s'.(em_next) = s.(em_next) ∧ s'.(em_threads) = s.(em_threads)
  ∧ s'.(em_tid) = s.(em_tid).

#[export] Instance same_core_trans : Transitive same_core.
Proof. intros s1 s2 s3 (? & ? & ? & ?) (? & ? & ? & ?). split_and!; congruence. Qed.

Lemma Save_core b p s : same_core s (Save b p s).
Proof. split_and!; [apply Save_heap|apply Save_next|apply Save_threads|apply Save_tid]. Qed.

Lemma disk_from_trans s1 s2 s3 :
  same_core s1 s2 → disk_from s1 s2 → disk_from s2 s3 → disk_from s1 s3.
Proof.
  intros (Hh & _) H12 H23 f y H. apply H23 in H as [H|(p & x & H & ->)]; [by apply H12|].
  right. rewrite Hh in H. by eauto.
Qed.

Lemma drop_dependent_frame ck q s :
  same_core s (drop_dependent ck q s) ∧ disk_from s (drop_dependent ck q s).
Proof.
  unfold drop_dependent. destruct (em_heap s !! q); (split; [done|]).
  - intros f y. cbn. intros [_ H]%lookup_delete_Some. by left.
  - by left.
Qed.

Lemma cascade_frame p s :
  same_core s (cascadeAfterUninstall p s) ∧ disk_from s (cascadeAfterUninstall p s).
Proof.
  assert (same_core s s ∧ disk_from s s) as Hrefl by (split; [done|by left]).
  unfold cascadeAfterUninstall. destruct (em_heap s !! p) as [x|]; [|done].
  destruct (cascades x); [|done]. induction (map_to_list _) as [|e l [IH1 IH2]]; [done|]. cbn [foldr].
  destruct (drop_dependent_frame e.1 e.2 (foldr (fun e s => drop_dependent e.1 e.2 s) s l)) as [H1 H2].
  split; [by etrans|by eapply disk_from_trans].
Qed.

Lemma Inv_frame s s' : same_core s s' → disk_from s s' → Inv s → Inv s'.
Proof.
  intros (Hh & Hn & Ht & Hi) Hd [I1 I2 I3 I4 I5 I6].
  split; rewrite ?Hh, ?Hn, ?Ht, ?Hi; try done.
  intros f y Hy Hm. apply Hd in Hy as [Hy|(p & x & Hx & ->)]; [by eapply I6|].
  exact (I5 _ _ Hx Hm).
Qed.

Lemma alter_as_insert {A} (f : A → A) p (h : gmap nat A) x :
  h !! p = Some x → alter f p h = <[p := f x]> h.
Proof.
  intros Hx. apply map_eq. intros q. destruct (decide (p = q)) as [<-|Hne].
  - by rewrite lookup_alter_eq, Hx, lookup_insert_eq.
  - by rewrite lookup_alter_ne, lookup_insert_ne.
Qed.

Lemma upd_insert p f s x :
  s.(em_heap) !! p = Some x → upd p f s = set_heap (<[p := f x]> s.(em_heap)) s.
Proof. intros Hx. unfold upd. by rewrite (alter_as_insert _ _ _ _ Hx). Qed.

Definition put (t : nat) (th : thread) (s : EM) : EM := set_threads (<[t := th]> s.(em_threads)) s.

Lemma goto_put t c s th :
  s.(em_threads) !! t = Some th → goto t c s = put t (at_pc c th) s.
Proof. intros Ht. unfold goto, put. by rewrite (alter_as_insert _ _ _ _ Ht). Qed.

Lemma Inv_stop t s : Inv s → Inv (stop t s).
Proof.
  intros [I1 I2 I3 I4 I5 I6]. split; try done; cbn.
  - intros t' th [_ H]%lookup_delete_Some. by eapply I2.
  - intros t' th [_ H]%lookup_delete_Some. by eapply I3.
  - intros t1 t2 th1 th2 [_ H1]%lookup_delete_Some [_ H2]%lookup_delete_Some. by eapply I4.
Qed.

(** No other goroutine owns the install of [th]. *)
Definition alone (t : nat) (th : thread) (s : EM) : Prop :=
  owner th → ∀ t' th', s.(em_threads) !! t' = Some th' → owner th' →
    th'.(th_p) = th.(th_p) → t' = t.

Lemma Inv_put t th s :
  Inv s → (t < s.(em_tid))%nat → thread_ok th s.(em_heap) → alone t th s → Inv (put t th s).
Proof.
  intros [I1 I2 I3 I4 I5 I6] Ht Hok Ha. split; try done; cbn.
  - intros t' th' [[<- <-]|[_ H]]%lookup_insert_Some; [done|by eapply I2].
  - intros t' th' [[<- <-]|[_ H]]%lookup_insert_Some; [done|by eapply I3].
  - intros t1 t2 th1 th2 [[<- <-]|[N1 H1]]%lookup_insert_Some [[<- <-]|[N2 H2]]%lookup_insert_Some O1 O2 E.
    + done.
    + symmetry. by eapply Ha.
    + by eapply Ha.
    + by eapply I4.
Qed.

Lemma Inv_goto t c th s :
  Inv s → s.(em_threads) !! t = Some th → thread_ok (at_pc c th) s.(em_heap) → Inv (goto t c s).
Proof.
  intros I Ht Hok. rewrite (goto_put _ _ _ _ Ht). apply Inv_put; [done|by eapply inv_tid|done|].
  intros O t' th' Ht' O' E. by eapply inv_one.
Qed.

Lemma Inv_spawn th s :
  Inv s → thread_ok th s.(em_heap) →
  (owner th → ∀ t' th', s.(em_threads) !! t' = Some th' → owner th' → th'.(th_p) ≠ th.(th_p)) →
  Inv (spawn th s).
Proof.
  intros [I1 I2 I3 I4 I5 I6] Hok Ha. split; try done; cbn.
  - intros t' th' [[<- <-]|[_ H]]%lookup_insert_Some; [lia|]. apply I2 in H. lia.
  - intros t' th' [[<- <-]|[_ H]]%lookup_insert_Some; [done|by eapply I3].
  - intros t1 t2 th1 th2 [[<- <-]|[N1 H1]]%lookup_insert_Some [[<- <-]|[N2 H2]]%lookup_insert_Some O1 O2 E.
    + done.
    + exfalso. by eapply Ha.
    + exfalso. by eapply Ha.
    + by eapply I4.
Qed.

Lemma thread_ok_upd th h p x y :
  h !! p = Some x → y.(i_Manual) = x.(i_Manual) →
  (th.(th_p) = p → owner th → x.(i_Manual) = false → run_ok th y) →
  thread_ok th h → thread_ok th (<[p := y]> h).
Proof.
  intros Hx Hm Hr [Hc|(z & Hz & Hok)]; [by left|]. right.
  destruct (decide (th.(th_p) = p)) as [Hp|Hp].
  - exists y. rewrite Hp, lookup_insert_eq. split; [done|]. rewrite Hp, Hx in Hz. injection Hz as <-.
    destruct Hok as [(O & H1 & H2)|[O G]]; [left; rewrite Hm; auto|right].
    split; [done|]. unfold guest_ok in *. rewrite Hm. done.
  - exists z. by rewrite lookup_insert_ne.
Qed.

Lemma Inv_upd s p x y :
  Inv s → s.(em_heap) !! p = Some x → y.(i_Manual) = x.(i_Manual) →
  (x.(i_Manual) = false → done_ok y) →
  (∀ t th, s.(em_threads) !! t = Some th → th.(th_p) = p → owner th → x.(i_Manual) = false → run_ok th y) →
  Inv (set_heap (<[p := y]> s.(em_heap)) s).
Proof.
  intros [I1 I2 I3 I4 I5 I6] Hx Hm Hd Hr. split; try done; cbn.
  - intros q z [[<- <-]|[_ H]]%lookup_insert_Some; by eapply I1.
  - intros t th Ht. eapply thread_ok_upd; [done|done| |by eapply I3]. by eapply Hr.
  - intros q z [[<- <-]|[_ H]]%lookup_insert_Some; [rewrite Hm; done|by eapply I5].
Qed.

(** A runner's install is automatic and where the runner says. *)
Lemma auto_install s t th :
  Inv s → s.(em_threads) !! t = Some th → th.(th_kind) = TAuto →
  ∃ x, s.(em_heap) !! th.(th_p) = Some x ∧ x.(i_Manual) = false ∧ run_ok th x.
Proof.
  intros I Ht Hk. destruct (inv_thread s I t th Ht) as [[H _]|(x & Hx & [(_ & H1 & H2)|[H _]])].
  - congruence.
  - exists x. unfold launching in H2. rewrite Hk in H2. destruct (i_Manual x); [by destruct H2|auto].
  - exfalso. apply H. by right.
Qed.

(** A section of the goroutine that runs an install. *)
Lemma Inv_own_step t c th s x y :
  Inv s → s.(em_threads) !! t = Some th → th.(th_kind) = TAuto →
  s.(em_heap) !! th.(th_p) = Some x → y.(i_Manual) = x.(i_Manual) →
  done_ok y → run_ok (at_pc c th) y →
  Inv (goto t c (set_heap (<[th.(th_p) := y]> s.(em_heap)) s)).
Proof.
  intros I Ht Hk Hx Hm Hd Hr. assert (owner th) as O by by right.
  destruct (auto_install s t th I Ht Hk) as (x' & Hx' & Hman & _). rewrite Hx in Hx'. injection Hx' as <-.
  rewrite (goto_put _ _ _ th) by done.
  assert (put t (at_pc c th) (set_heap (<[th.(th_p) := y]> s.(em_heap)) s)
    = put t (at_pc c th) (set_heap (<[th.(th_p) := y]> (stop t s).(em_heap)) (stop t s))) as ->.
  { unfold put, stop. cbn. unfold set_threads. cbn. by rewrite insert_delete_eq. }
  apply Inv_put.
  - eapply Inv_upd; [by apply Inv_stop|done|done|done|].
    intros t' th' Ht' E O'. cbn in Ht'. apply lookup_delete_Some in Ht' as [Hne Ht']. exfalso. apply Hne. by eapply inv_one.
  - cbn. by eapply inv_tid.
  - right. exists y. cbn. rewrite lookup_insert_eq. split; [done|]. left. split_and!; [done|done|congruence].
  - intros O1 t' th' Ht' O2 E. cbn in Ht'. apply lookup_delete_Some in Ht' as [Hne Ht']. exfalso. apply Hne. by eapply inv_one.
Qed.

(** ** Updates that leave the progress of a run as it is *)

Definition step_quiet (a b : Step) : Prop :=
  (settled a → settled b) ∧ (pending a → pending b) ∧ (in_hand a → in_hand b).

Definition quiet (x y : Install) : Prop :=
  y.(i_Manual) = x.(i_Manual) ∧ y.(i_Current) = x.(i_Current) ∧ (is_done y → is_done x)
  ∧ Forall2 step_quiet x.(i_Steps) y.(i_Steps).

Lemma step_quiet_refl l : Forall2 step_quiet l l.
Proof. by induction l; constructor. Qed.

Lemma step_quiet_alter f idx l :
  (∀ st, step_quiet st (f st)) → Forall2 step_quiet l (alter f idx l).
Proof.
  intros Hf. revert idx. induction l as [|st l IH]; intros [|idx]; cbn; constructor; try done;
    first [apply step_quiet_refl|apply IH].
Qed.

Lemma step_quiet_fmap f l : (∀ st, step_quiet st (f st)) → Forall2 step_quiet l (f <$> l).
Proof. intros Hf. induction l; cbn; by constructor. Qed.

Lemma steps_at_quiet c (P Q : Step → Prop) l l' :
  (∀ a b, step_quiet a b → P a → Q b) → Forall2 step_quiet l l' → steps_at c P l → steps_at c Q l'.
Proof.
  intros HPQ Hl Hs i st Hi. destruct (Forall2_lookup_r _ _ _ _ _ Hl Hi) as (a & Ha & Hq).
  destruct (Hs _ _ Ha) as (H1 & H2 & H3). pose proof Hq as (Q1 & Q2 & Q3).
  split_and!; intros; [auto|eauto|auto].
Qed.

Lemma Forall_quiet l l' : Forall2 step_quiet l l' → Forall settled l → Forall settled l'.
Proof.
  intros H. induction H as [|a b l l' Hab H IH]; [done|]. rewrite !Forall_cons.
  intros [Ha Hl]. split; [by apply Hab|auto].
Qed.

Lemma done_ok_quiet x y : quiet x y → done_ok x → done_ok y.
Proof. intros (_ & _ & Hd & Hs) Hx Hy. eapply Forall_quiet; [done|]. by apply Hx, Hd. Qed.

Lemma run_ok_quiet th x y : quiet x y → run_ok th x → run_ok th y.
Proof.
  intros (_ & Hc & Hd & Hs) H.
  assert (∀ c, steps_at c pending (i_Steps x) → steps_at c pending (i_Steps y)) as Sp.
  { intros c. apply steps_at_quiet; [|done]. by intros a b (_ & Q & _). }
  assert (∀ c, steps_at c in_hand (i_Steps x) → steps_at c in_hand (i_Steps y)) as Sh.
  { intros c. apply steps_at_quiet; [|done]. by intros a b (_ & _ & Q). }
  assert (aligned th x → aligned th y) as Al.
  { unfold aligned. by rewrite (Forall2_length _ _ _ Hs). }
  assert (i_Steps x = [] → i_Steps y = []) as Hn.
  { intros E. rewrite E in Hs. by apply Forall2_nil_inv_l in Hs. }
  unfold run_ok in *. rewrite Hc. destruct (th_kind th), (th_pc th); try done;
    try (eapply Forall_quiet; eassumption); naive_solver.
Qed.

Lemma Inv_quiet s p f x :
  Inv s → s.(em_heap) !! p = Some x → quiet x (f x) → Inv (upd p f s).
Proof.
  intros I Hx Hq. rewrite (upd_insert _ _ _ _ Hx). eapply Inv_upd; [done|done|apply Hq| |].
  - intros Hm. eapply done_ok_quiet; [done|by eapply inv_done].
  - intros t th Ht E O Hm. eapply run_ok_quiet; [done|].
    destruct (inv_thread s I t th Ht) as [[Hk _]|(z & Hz & [(_ & H1 & _)|[H _]])];
      [exfalso; destruct O; congruence| |done].
    rewrite E, Hx in Hz. injection Hz as <-. auto.
Qed.

(** ** The sections, one by one *)

Lemma quiet_state v x : v ≠ "done" → quiet x (set_i_State v x).
Proof. intros Hv. split_and!; try done. apply step_quiet_refl. Qed.

Lemma quiet_step f idx x : (∀ st, (f st).(s_State) = st.(s_State)) → quiet x (upd_step idx f x).
Proof.
  intros Hf. split_and!; try done. apply step_quiet_alter. intros st.
  unfold step_quiet, settled, pending, in_hand. by rewrite Hf.
Qed.

Lemma mark_active_quiet v st : step_quiet st (mark_active v st).
Proof.
  unfold mark_active. destruct (bool_decide_reflect (s_State st = StepActive)) as [E|]; [|done].
  unfold step_quiet, settled, pending, in_hand. cbn. rewrite E. naive_solver.
Qed.

Lemma quiet_terminated v x : v ≠ "done" → quiet x (terminated v x).
Proof. intros Hv. split_and!; try done. apply step_quiet_fmap, mark_active_quiet. Qed.

Section Manager.
Variable keycloak_b64 : string.
Notation estep := (estep keycloak_b64).
Notation thread_step := (thread_step keycloak_b64).

Lemma buildPlan_completes_last ex dir m x : completes_last (buildPlan keycloak_b64 ex dir m x).
Proof.
  unfold buildPlan. destruct (_ =? _)%string;
    [apply BuildUninstallPlan_completes_last|apply BuildPlan_completes_last].
Qed.

Lemma Inv_maps i c cl p b r s : Inv s → Inv (set_maps i c cl p b r s).
Proof. apply Inv_frame; [done|by left]. Qed.
Lemma Inv_ends ca cl kr s : Inv s → Inv (set_ends ca cl kr s).
Proof. apply Inv_frame; [done|by left]. Qed.
Lemma Inv_Save b p s : Inv s → Inv (Save b p s).
Proof. apply Inv_frame; [apply Save_core|apply Save_disk]. Qed.
Lemma Inv_cascade p s : Inv s → Inv (cascadeAfterUninstall p s).
Proof. apply Inv_frame; apply cascade_frame. Qed.

Lemma Inv_close c s : Inv s → Inv (close_client c s).
Proof. intros I. destruct c; [by apply Inv_ends|done]. Qed.

Lemma Inv_rollback k p c s : Inv s → Inv (rollback k p c s).
Proof. intros I. apply Inv_close. destruct (bool_decide _); [by apply Inv_maps|done]. Qed.

Lemma Inv_cleanup k p b c s : Inv s → Inv (cleanup k p b c s).
Proof.
  intros I. apply Inv_close. repeat case_match; repeat first [apply Inv_maps|apply Inv_ends]; done.
Qed.

Lemma Inv_terminate b p v s : v ≠ "done" → Inv s → Inv (terminate b p v s).
Proof.
  intros Hv I. apply Inv_Save. destruct (s.(em_heap) !! p) as [x|] eqn:E.
  - eapply Inv_quiet; [done|done|by apply quiet_terminated].
  - eapply Inv_frame; [| |exact I]; [|by left]. split_and!; try done. cbn. apply map_eq. intros q.
    destruct (decide (p = q)) as [<-|]; [by rewrite lookup_alter_eq, E|by rewrite lookup_alter_ne].
Qed.

(** [Save] and the cascade may be moved past the choice of the next section. *)
Lemma Inv_goto_frame t c s s' :
  same_core s s' → disk_from s s' → Inv (goto t c s) → Inv (goto t c s').
Proof.
  intros (Hh & Hn & Ht & Hi) Hd. apply Inv_frame; [|exact Hd].
  split_and!; cbn; congruence.
Qed.

Lemma Inv_launch c md vip now p manual airgap lab ws mf op m s :
  Inv s → Inv (launch c md vip now p manual airgap lab ws mf op m s).1.
Proof.
  intros I. unfold launch. destruct (match _ ≫= _ with Some ex => _ | None => None end); [done|]. cbn.
  set (x := new_install _ _ _ _ _ _ _ _ _ _ _).
  assert (∀ t th, s.(em_threads) !! t = Some th → owner th → th.(th_p) ≠ s.(em_next)) as Hold.
  { intros t th Ht O E. destruct (inv_thread s I t th Ht) as [[Hk _]|(z & Hz & _)].
    - destruct O; congruence.
    - apply (inv_heap s I) in Hz. lia. }
  apply Inv_spawn; cbn.
  - apply Inv_maps. destruct I as [I1 I2 I3 I4 I5 I6]. split; try done; cbn.
    + intros q z [[<- <-]|[_ H]]%lookup_insert_Some; [lia|]. apply I1 in H. lia.
    + intros t th Ht. destruct (I3 t th Ht) as [Hc|(z & Hz & Hok)]; [by left|]. right.
      exists z. rewrite lookup_insert_ne; [done|]. apply I1 in Hz. lia.
    + intros q z [[<- <-]|[_ H]]%lookup_insert_Some; [by constructor|by eapply I5].
  - right. exists x. rewrite lookup_insert_eq. split; [done|]. left. split; [by left|done].
  - intros _ t th Ht O. by apply Hold with t.
Qed.

(** What a goroutine's own install is, for an owner and for a guest. *)
Lemma owner_install s t th :
  Inv s → s.(em_threads) !! t = Some th → owner th →
  ∃ x, s.(em_heap) !! th.(th_p) = Some x ∧ (x.(i_Manual) = false → run_ok th x)
       ∧ (x.(i_Manual) = true → launching th).
Proof.
  intros I Ht O. destruct (inv_thread s I t th Ht) as [[Hk _]|(x & Hx & [(_ & H)|[H _]])];
    [exfalso; destruct O; congruence|by exists x|done].
Qed.

Lemma pending_steps_at plan : steps_at 0 pending (pending_step <$> plan).
Proof.
  intros i st Hi. apply list_lookup_fmap_Some in Hi as (ps & -> & _).
  split_and!; intros; try lia; done.
Qed.

Lemma Inv_launch_commit t th m plan saved s :
  Inv s → s.(em_threads) !! t = Some th → th.(th_kind) = TLaunch → th.(th_pc) = PCommit m →
  completes_last plan → Inv (launch_commit t th.(th_k) th.(th_p) plan saved s).
Proof.
  intros I Ht Hk Hpc Hplan. destruct (owner_install s t th I Ht) as (x & Hx & Hr & Hman); [by left|].
  unfold run_ok in Hr. rewrite Hk, Hpc in Hr. unfold launch_commit.
  set (p := th.(th_p)) in *. set (y := set_i_Steps (pending_step <$> plan) x).
  set (s1 := upd p _ s).
  assert (Inv (stop t s1)) as I1.
  { unfold s1. rewrite (upd_insert _ _ _ _ Hx). fold y.
    change (Inv (set_heap (<[p := y]> (stop t s).(em_heap)) (stop t s))).
    eapply Inv_upd; [by apply Inv_stop|done|done|intros Hm Hd; by destruct (Hr Hm) as (_ & _ & [])|].
    intros t' th' Ht' E O' _. cbn in Ht'. apply lookup_delete_Some in Ht' as [Hne Ht'].
    exfalso. apply Hne. eapply (inv_one s I); [done|done|by left|done|by rewrite E]. }
  assert (Hy : s1.(em_heap) !! p = Some y).
  { unfold s1. rewrite (upd_insert _ _ _ _ Hx). apply lookup_insert_eq. }
  assert (∀ t' th', (stop t s1).(em_threads) !! t' = Some th' → owner th' → th'.(th_p) ≠ p) as Hother.
  { intros t' th' Ht' O' E. cbn in Ht'. apply lookup_delete_Some in Ht' as [Hne Ht'].
    apply Hne. eapply (inv_one s I); [done|done|by left|done|by rewrite E]. }
  destruct saved.
  - rewrite Save_heap. cbn [em_heap set_plans set_clients set_maps]. rewrite Hy.
    set (s2 := Save true p _).
    assert (Inv (stop t s2)) as I2.
    { eapply Inv_frame; [| |exact I1].
      - unfold s2. split_and!; cbn; by rewrite ?Save_heap, ?Save_next, ?Save_threads, ?Save_tid.
      - intros f z Hz. cbn in Hz. apply Save_disk in Hz as [Hz|Hz]; [by left|by right]. }
    destruct (i_Manual y) eqn:Em; [done|]. apply Inv_spawn.
    + eapply Inv_frame; [| |exact I2]; [done|by left].
    + right. exists y. split; [cbn; unfold s2; rewrite Save_heap; exact Hy|]. left.
      split; [by right|]. split; [|congruence]. intros _. destruct (Hr Em) as (_ & Hc & Hd).
      unfold run_ok, aligned. cbn. rewrite length_fmap, Hc. split_and!; try done; [lia|].
      apply pending_steps_at.
    + intros _ t' th' Ht' O'. apply (Hother t'); [|done].
      cbn in Ht' |- *. unfold s2 in Ht'. by rewrite Save_threads in Ht'.
  - set (s2 := set_plans _ _).
    assert (∀ th', set_threads (<[t := th']> s2.(em_threads)) s2 = put t th' (set_maps s1.(em_installs)
      s1.(em_cancels) (<[th_k th := p]> s1.(em_clients)) (<[th_k th := plan]> s1.(em_plans)) s1.(em_busy)
      s1.(em_cancelReq) (stop t s1))) as ->.
    { intros th'. unfold put, set_threads. cbn. by rewrite insert_delete_eq. }
    apply Inv_put.
    + by apply Inv_maps.
    + cbn. by eapply (inv_tid s I).
    + right. exists y. split; [exact Hy|]. left. split; [by left|]. split; [|done].
      intros Hm. by destruct (Hr Hm) as (_ & _ & ?).
    + intros _ t' th' Ht' O' E. exfalso. by eapply Hother.
Qed.

Lemma Inv_Next c md s : Inv s → Inv (Next c md s).1.
Proof.
  intros I. unfold Next. repeat case_match; try done. cbn. to_prop.
  apply Inv_spawn; [by apply Inv_maps| |intros []; done].
  right. eexists. split; [cbn; eassumption|]. right. split; [by intros []|]. done.
Qed.

Lemma Inv_Cancel c md s : Inv s → Inv (Cancel c md s).
Proof.
  intros I. unfold Cancel. repeat case_match; try done.
  - apply Inv_spawn; [done|left; by eauto|intros []; done].
  - by apply Inv_maps.
  - apply Inv_spawn; [|right|intros []; done].
    + eapply Inv_quiet; [done|eassumption|by apply quiet_state].
    + match goal with H : em_heap s !! _ = Some ?x |- _ =>
        exists (set_i_State "cancelled" x); cbn; rewrite lookup_alter_eq, H end.
      split; [done|]. right. split; [by intros []|done].
Qed.

(** A guest of a manual install may do as it likes with it. *)
Lemma Inv_guest_upd s t th p f x :
  Inv s → s.(em_threads) !! t = Some th → th.(th_kind) = TNext → th.(th_p) = p →
  s.(em_heap) !! p = Some x → (f x).(i_Manual) = x.(i_Manual) → Inv (upd p f s).
Proof.
  intros I Ht Hk <- Hx Hm. rewrite (upd_insert _ _ _ _ Hx).
  assert (i_Manual x = true) as Hman.
  { destruct (inv_thread s I t th Ht) as [[H _]|(z & Hz & [([H|H] & _)|[_ G]])]; try congruence.
    rewrite Hx in Hz. injection Hz as <-. unfold guest_ok in G. rewrite Hk in G. by destruct (th_pc th). }
  eapply Inv_upd; [done|done|done| |]; intros; congruence.
Qed.

Lemma guest_goto t c th s :
  Inv s → s.(em_threads) !! t = Some th → th.(th_kind) = TNext →
  match c with PBegin _ | PRemote _ | PNextEnd _ | PTerm | PClean => True | _ => False end →
  Inv (goto t c s).
Proof.
  intros I Ht Hk Hc. eapply Inv_goto; [done|done|].
  destruct (inv_thread s I t th Ht) as [[H _]|(z & Hz & [([H|H] & _)|[O G]])]; try congruence.
  right. exists z. split; [done|]. right. split; [done|]. unfold guest_ok in *. cbn. rewrite Hk in *.
  destruct c, (th_pc th); done.
Qed.

(** The section of a step's end, on a run that has [idx] in hand. *)
Lemma steps_at_alter c P Q f l :
  steps_at c P l → (∀ st, P st → Q (f st)) → steps_at c Q (alter f c l).
Proof.
  intros Hs HPQ i st Hi. destruct (decide (i = c)) as [->|Hne].
  - rewrite list_lookup_alter_eq in Hi. destruct (l !! c) as [a|] eqn:E; [|done]. injection Hi as <-.
    destruct (Hs _ _ E) as (_ & HP & _). split_and!; intros; [lia|auto|lia].
  - rewrite list_lookup_alter_ne in Hi by done. destruct (Hs _ _ Hi) as (H1 & _ & H3).
    split_and!; [done|done|done].
Qed.

Lemma steps_at_settled c l : steps_at c settled l → steps_at (S c) pending l.
Proof.
  intros Hs i st Hi. destruct (Hs _ _ Hi) as (H1 & H2 & H3). split_and!; intros.
  - destruct (decide (i = c)); [auto|apply H1; lia].
  - apply H3. lia.
  - apply H3. lia.
Qed.

Lemma steps_at_all c P l : steps_at c P l → (length l <= c)%nat → Forall settled l.
Proof.
  intros Hs Hc. apply Forall_lookup. intros i st Hi. apply (Hs _ _ Hi).
  apply lookup_lt_Some in Hi. lia.
Qed.

Lemma end_step_ok th now ps idx o ctxErr x y err :
  run_ok th x → th.(th_kind) = TAuto → th.(th_pc) = PRemote idx →
  th.(th_plan) !! idx = Some ps → end_step now ps idx o ctxErr x = Some (y, err) →
  y.(i_Manual) = x.(i_Manual) ∧ done_ok y ∧ run_ok (at_pc (if err then PClean else PAdvance) th) y.
Proof.
  unfold run_ok. intros H Hk Hpc Hps. cbn. rewrite Hk, Hpc in *. destruct H as ([Hl Hlast] & -> & Hc & Hs & Hd).
  unfold end_step. destruct (i_Steps x !! i_Current x) as [st|] eqn:Est; [|done]. cbn.
  destruct (step_error ps st o) as [e|].
  - intros [= <- <-]. split; [done|]. split; [|done]. intros Hx. cbn in Hx. by destruct ctxErr.
  - set (f := finish_step now ps (o_skipped o)). intros [= <- <-].
    assert (steps_at (i_Current x) settled (alter f (i_Current x) (i_Steps x))) as Hs'.
    { eapply steps_at_alter; [exact Hs|]. intros a _. unfold f, finish_step, settled.
      destruct (o_skipped o); [by right|]. left. by destruct (closes_narration _). }
    destruct (bool_decide_reflect (ps_Kind ps = KComplete)) as [Ek|Ek].
    + assert (S (i_Current x) = length (th_plan th)) as Hn by (by eapply Hlast).
      unfold complete_install. split; [by destruct (negb _)|].
      assert (Forall settled (alter f (i_Current x) (i_Steps x))) as Hall.
      { eapply steps_at_all; [by apply steps_at_settled|]. rewrite length_alter. lia. }
      split; [intros _; by destruct (negb _)|].
      split_and!; unfold aligned; destruct (negb _); cbn; rewrite ?length_alter; try done;
        by apply steps_at_settled.
    + split; [done|]. split; [intros Hx; by destruct Hd|]. unfold aligned. cbn. rewrite length_alter.
      split_and!; try done. by apply steps_at_settled.
Qed.

Lemma Inv_own_upd t c th s s' f x :
  Inv s → s.(em_threads) !! t = Some th → th.(th_kind) = TAuto →
  s.(em_heap) !! th.(th_p) = Some x → (f x).(i_Manual) = x.(i_Manual) →
  done_ok (f x) → run_ok (at_pc c th) (f x) →
  same_core (upd th.(th_p) f s) s' → disk_from (upd th.(th_p) f s) s' → Inv (goto t c s').
Proof.
  intros I Ht Hk Hx Hm Hd Hr Hc Hf. eapply Inv_goto_frame; [exact Hc|exact Hf|].
  rewrite (upd_insert _ _ _ _ Hx). by eapply Inv_own_step.
Qed.

(** Whose section it is. *)
Lemma pc_kind s t th :
  Inv s → s.(em_threads) !! t = Some th →
  match th.(th_pc) with
  | PDial _ | PCommit _ | PRollback => th.(th_kind) = TLaunch
  | PLoop | PIndex | PAdvance | PFinal => th.(th_kind) = TAuto
  | PBegin _ | PRemote _ => th.(th_kind) = TAuto ∨ th.(th_kind) = TNext
  | PNextEnd _ => th.(th_kind) = TNext
  | PCall _ | PTerm | PClean => True
  end.
Proof.
  intros I Ht. destruct (inv_thread s I t th Ht) as [[_ [c H]]|(x & _ & [([O|O] & H1 & H2)|[O G]])].
  - by rewrite H.
  - unfold run_ok, launching in *. rewrite O in *. destruct (th_pc th), (i_Manual x); naive_solver.
  - unfold run_ok, launching in *. rewrite O in *. destruct (th_pc th), (i_Manual x); naive_solver.
  - unfold guest_ok in G. destruct (th_kind th), (th_pc th); try done; by right.
Qed.

(** Only a runner and a manual step run [execStep]. *)
Lemma exec_kind s t th :
  Inv s → s.(em_threads) !! t = Some th →
  match th.(th_pc) with PBegin _ | PRemote _ => True | _ => False end →
  th.(th_kind) = TAuto ∨ th.(th_kind) = TNext.
Proof. intros I Ht Hpc. pose proof (pc_kind s t th I Ht). by destruct (th_pc th). Qed.

Lemma Inv_exec_begin t th idx a s s' :
  Inv s → s.(em_threads) !! t = Some th → th.(th_pc) = PBegin idx →
  exec_begin t th idx a s = Some s' → Inv s'.
Proof.
  intros I Ht Hpc. unfold exec_begin. destruct (em_heap s !! th_p th) as [x|] eqn:Hx; [|done]. cbn.
  destruct (th_plan th !! idx); [|done]. cbn. destruct (i_Steps x !! idx) as [st|]; [|done]. cbn.
  intros [= <-]. destruct (exec_kind s t th I Ht) as [Hk|Hk]; [by rewrite Hpc| |].
  - destruct (auto_install s t th I Ht Hk) as (x' & Hx' & Hman & Hr). rewrite Hx in Hx'. injection Hx' as <-.
    unfold run_ok in Hr. rewrite Hk, Hpc in Hr. destruct Hr as ([Hl Hp] & -> & Hc & Hs & Hd).
    eapply Inv_own_upd; [done|done|done|done| | | |apply Save_core|apply Save_disk]; [done|by intros ?|].
    unfold run_ok, aligned. cbn. rewrite Hk, length_alter. split_and!; try done.
    eapply steps_at_alter; [exact Hs|]. by left.
  - eapply guest_goto; [|by rewrite Save_threads|done|done].
    apply Inv_Save. by eapply Inv_guest_upd.
Qed.

Lemma Inv_exec_end t th idx a s s' :
  Inv s → s.(em_threads) !! t = Some th → th.(th_pc) = PRemote idx →
  exec_end t th idx a s = Some s' → Inv s'.
Proof.
  intros I Ht Hpc. unfold exec_end. destruct (em_heap s !! th_p th) as [x|] eqn:Hx; [|done]. cbn.
  destruct (th_plan th !! idx) as [ps|] eqn:Hps; [|done]. cbn.
  destruct (end_step _ _ _ _ _ x) as [[y err]|] eqn:He; [|done]. cbn.
  intros [= <-].
  assert (∀ s1, same_core s1 (if err then s1 else cascadeAfterUninstall (th_p th) s1)
                ∧ disk_from s1 (if err then s1 else cascadeAfterUninstall (th_p th) s1)) as Hcas.
  { intros s1. destruct err; [split; [done|by left]|apply cascade_frame]. }
  destruct (exec_kind s t th I Ht) as [Hk|Hk]; [by rewrite Hpc| |]; rewrite Hk.
  - destruct (auto_install s t th I Ht Hk) as (x' & Hx' & Hman & Hr). rewrite Hx in Hx'. injection Hx' as <-.
    destruct (end_step_ok th _ _ _ _ _ _ _ _ Hr Hk Hpc Hps He) as (Hm & Hd & Hr').
    eapply (Inv_own_upd t _ th s _ (fun _ => y)); [done|done|done|done|done|done|done| |].
    + etrans; [apply Save_core|apply Hcas].
    + eapply disk_from_trans; [apply Save_core|apply Save_disk|apply Hcas].
  - assert (i_Manual y = i_Manual x) as Hm.
    { revert He. unfold end_step. destruct (i_Steps x !! idx); [|done]. cbn.
      destruct (step_error _ _ _); intros [= <- _]; [done|]. unfold complete_install. by repeat case_match. }
    eapply (guest_goto t _ th); [|by rewrite (proj1 (proj2 (proj2 (proj1 (Hcas _))))), Save_threads|done|done].
    assert (Inv (Save (a_saved a) (th_p th) (upd (th_p th) (λ _ : Install, y) s)))
      by (apply Inv_Save; by eapply Inv_guest_upd).
    destruct err; [done|by apply Inv_cascade].
Qed.

Lemma Inv_run_advance t th a s s' :
  Inv s → s.(em_threads) !! t = Some th → th.(th_kind) = TAuto → th.(th_pc) = PAdvance →
  run_advance t th a s = Some s' → Inv s'.
Proof.
  intros I Ht Hk Hpc. destruct (auto_install s t th I Ht Hk) as (x & Hx & Hman & Hr).
  unfold run_advance. rewrite Hx. cbn. unfold run_ok in Hr. rewrite Hk, Hpc in Hr.
  destruct Hr as ([Hl Hp] & Hc & Hs & Hd). unfold is_running.
  destruct (String.eqb_spec (i_State x) "running") as [E|E]; cbn [negb]; intros [= <-].
  - assert (¬ is_done x) as Hnd by (unfold is_done; congruence).
    eapply (Inv_own_upd t _ th s _ advance_install);
      [done|done|done|done|done|by intros ?| |apply Save_core|apply Save_disk].
    unfold run_ok, aligned. cbn. rewrite Hk. split_and!; try done; lia.
  - eapply Inv_goto; [done|done|]. right. exists x. split; [done|]. left.
    split; [by right|]. unfold run_ok, launching. cbn. rewrite Hk. split; [done|congruence].
Qed.

Lemma Inv_run_final t th a s :
  Inv s → s.(em_threads) !! t = Some th → th.(th_kind) = TAuto → th.(th_pc) = PFinal →
  Inv (run_final t th a s).
Proof.
  intros I Ht Hk Hpc. destruct (auto_install s t th I Ht Hk) as (x & Hx & Hman & Hr).
  unfold run_ok in Hr. rewrite Hk, Hpc in Hr. unfold run_final.
  eapply (Inv_own_upd t _ th s _ (set_i_State "done")); [done|done|done|done|done|by intros _| | |].
  - unfold run_ok. cbn. by rewrite Hk.
  - etrans; [apply Save_core|apply cascade_frame].
  - eapply disk_from_trans; [apply Save_core|apply Save_disk|apply cascade_frame].
Qed.

Lemma Inv_next_end t th err a s s' :
  Inv s → s.(em_threads) !! t = Some th → th.(th_kind) = TNext →
  next_end t th err a s = Some s' → Inv s'.
Proof.
  intros I Ht Hk. unfold next_end. cbn [em_heap set_cancelReq set_busy set_maps].
  destruct (em_heap s !! th_p th) as [x|] eqn:Hx; [|done]. cbn [mbind option_bind].
  set (s1 := set_cancelReq _ _). set (s2 := if _ && _ then _ else s1).
  assert (Inv s1) as I1 by by apply Inv_maps, Inv_maps.
  assert (Inv s2 ∧ s2.(em_threads) = s.(em_threads)) as [I2 Ht2].
  { unfold s2. destruct (_ && _); [|done]. rewrite Save_threads. split; [|done].
    apply Inv_Save. eapply (Inv_guest_upd s1 t th _ _ x); [done|done|done|done|done|].
    unfold next_install. by case_match. }
  destruct (em_heap s2 !! th_p th); [|done]. cbn [mbind option_bind]. intros [= <-].
  clearbody s2. destruct (bool_decide _); [eapply guest_goto; [done|by rewrite Ht2|done|done]|].
  destruct (negb _); [eapply guest_goto; [done|by rewrite Ht2|done|done]|by apply Inv_stop].
Qed.

Lemma Inv_thread_step t a s s' : Inv s → thread_step t a s = Some s' → Inv s'.
Proof.
  intros I. unfold thread_step. destruct (em_threads s !! t) as [th|] eqn:Ht; [|done]. cbn.
  pose proof (pc_kind s t th I Ht) as Hkind.
  destruct (th_pc th) as [m|m| | | |idx|idx| | |err|c| |] eqn:Hpc.
  - intros [= <-].
    destruct (owner_install s t th I Ht) as (x & Hx & Hr & Hm); [by left|].
    eapply Inv_goto; [done|done|]. right. exists x. split; [done|]. left.
    unfold run_ok, launching in *. cbn. rewrite Hkind, Hpc in *.
    split_and!; [by left|intros E; destruct (Hr E) as (? & ? & ?); by destruct (a_dial a)|].
    intros E. by destruct (a_dial a).
  - destruct (em_heap s !! th_p th) as [x|] eqn:Hx; [|done]. cbn.
    intros [= <-]. eapply Inv_launch_commit; [done|done|done|done|apply buildPlan_completes_last].
  - intros [= <-]. by apply Inv_stop, Inv_rollback.
  - intros [= <-]. destruct (auto_install s t th I Ht Hkind) as (x & Hx & Hm & Hr).
    eapply Inv_goto; [done|done|]. right. exists x. split; [done|]. left.
    unfold run_ok, launching in *. cbn. rewrite Hkind, Hpc in *.
    split_and!; [by right|intros _; by destruct (bool_decide _)|congruence].
  - destruct (auto_install s t th I Ht Hkind) as (x & Hx & Hm & Hr).
    rewrite Hx. cbn. intros [= <-]. eapply Inv_goto; [done|done|]. right. exists x. split; [done|]. left.
    unfold run_ok, launching in *. cbn. rewrite Hkind, Hpc in *. destruct Hr as ([Hl Hp] & Hc & Hs & Hd).
    split_and!; [by right|intros _|congruence]. destruct (Nat.leb_spec (length (th_plan th)) (i_Current x)).
    + eapply steps_at_all; [done|lia].
    + done.
  - intros H. by eapply Inv_exec_begin.
  - intros H. by eapply Inv_exec_end.
  - intros H. by eapply Inv_run_advance.
  - intros [= <-]. by apply Inv_run_final.
  - intros H. by eapply Inv_next_end.
  - intros [= <-]. by apply Inv_stop, Inv_ends.
  - intros [= <-]. destruct (inv_thread s I t th Ht) as [[_ [c H]]|(x & Hx & Hok)]; [congruence|].
    assert (Inv (terminate (a_saved a) (th_p th) "cancelled" s)) as I' by by apply Inv_terminate.
    eapply Inv_goto; [done|unfold terminate; by rewrite Save_threads|].
    right. unfold terminate. rewrite Save_heap. cbn. rewrite lookup_alter_eq, Hx.
    exists (terminated "cancelled" x). split; [done|]. unfold run_ok, launching, guest_ok in *. cbn.
    destruct Hok as [(O & H1 & H2)|[O G]]; [left|right].
    + split_and!; [by destruct O; [left|right]| |]; intros Hm; rewrite Hpc in *; cbn in Hm.
      * specialize (H1 Hm). by destruct (th_kind th).
      * specialize (H2 Hm). by destruct (th_kind th).
    + split; [by intros [H|H]; apply O; [left|right]|]. rewrite Hpc in G. by destruct (th_kind th).
  - intros [= <-]. by apply Inv_stop, Inv_cleanup.
Qed.

Lemma Inv_on_line t l s s' : Inv s → on_line t l s = Some s' → Inv s'.
Proof.
  intros I. unfold on_line. destruct (em_threads s !! t) as [th|] eqn:Ht; [|done]. cbn.
  destruct (th_pc th) eqn:Hpc; try done. intros [= <-].
  destruct (inv_thread s I t th Ht) as [[_ [c H]]|(x & Hx & _)]; [congruence|].
  eapply Inv_quiet; [done|done|]. by apply quiet_step.
Qed.

(** ** Restart *)

Lemma interrupted_quiet x : quiet x (interrupted x).
Proof.
  unfold interrupted. destruct (is_running x).
  - split_and!; try done. apply step_quiet_fmap. intros st. unfold interrupt_step.
    destruct (bool_decide_reflect (s_State st = StepActive)) as [E|]; [|done].
    unfold step_quiet, settled, pending, in_hand. rewrite E. destruct (is_empty _); cbn; naive_solver.
  - split_and!; try done. apply step_quiet_refl.
Qed.

Lemma Inv_load_one saved x s :
  Inv s → (x.(i_Manual) = false → done_ok x) → s.(em_threads) = ∅ → Inv (load_one saved x s).
Proof.
  intros I Hx Ht. unfold load_one.
  assert (Inv (set_next (S s.(em_next)) (set_heap (<[s.(em_next) := interrupted x]> s.(em_heap)) s))) as I1.
  { destruct I as [I1 I2 I3 I4 I5 I6]. split; try done; cbn.
    - intros q z [[<- <-]|[_ H]]%lookup_insert_Some; [lia|]. apply I1 in H. lia.
    - intros t th H. by rewrite Ht, lookup_empty in H.
    - intros q z [[<- <-]|[_ H]]%lookup_insert_Some; [|by eapply I5].
      pose proof (interrupted_quiet x) as Hq. intros Hm. eapply done_ok_quiet; [done|].
      apply Hx. by rewrite <- (proj1 Hq). }
  apply Inv_maps. destruct (is_running x); [by apply Inv_Save|done].
Qed.

Lemma load_one_threads saved x s : (load_one saved x s).(em_threads) = s.(em_threads).
Proof. unfold load_one. cbn. destruct (is_running x); [by rewrite Save_threads|done]. Qed.

Lemma Inv_rehydrate saved disk :
  (∀ f y, disk !! f = Some y → y.(i_Manual) = false → done_ok y) → Inv (rehydrate saved disk).
Proof.
  intros Hd. unfold rehydrate.
  assert (Forall (fun x => x.(i_Manual) = false → done_ok x) (List_disk disk)) as Hl.
  { apply Forall_forall. intros x Hx. unfold List_disk in Hx.
    apply list_elem_of_In, filter_In in Hx as [Hx _]. apply list_elem_of_In in Hx.
    apply list_elem_of_fmap in Hx as ([f y] & -> & Hy). apply elem_of_map_to_list in Hy. by eapply Hd. }
  assert (Inv (empty_EM disk) ∧ (empty_EM disk).(em_threads) = ∅) as [I0 T0].
  { split; [|done]. split; try done; cbn; intros; by rewrite lookup_empty in *. }
  revert I0 T0. generalize (empty_EM disk). induction Hl as [|x l Hx Hl IH]; intros s Is Ts; [done|].
  cbn [foldl]. apply IH; [by apply Inv_load_one|by rewrite load_one_threads].
Qed.

Lemma Inv_step s e s' : Inv s → estep s e = Some s' → Inv s'.
Proof.
  intros I. destruct e; cbn.
  - intros [= <-]. by apply Inv_launch.
  - intros [= <-]. by apply Inv_launch.
  - intros [= <-]. by apply Inv_Next.
  - intros [= <-]. by apply Inv_Cancel.
  - by apply Inv_thread_step.
  - by apply Inv_on_line.
  - intros [= <-]. apply Inv_rehydrate. apply (inv_disk s I).
Qed.

Lemma reachable_Inv s : reachable keycloak_b64 s → Inv s.
Proof.
  intros H. induction H as [|s e s' H IH Hs]; [|by eapply Inv_step].
  split; try done; cbn; intros; by rewrite lookup_empty in *.
Qed.

End Manager.
