(* ===== verification/EntProps.v ===== *)
(** * What the installer promises

    Order and completeness of automatic runs, their end, the cascade of an
    uninstall, restarts, and what two overlapping requests can still do. *)
From S2P Require Import Prelude GoStrings EntModel EntManifest EntPlan EntRun EntInv.
From Stdlib Require Import Ascii.

Open Scope string_scope.
Open Scope list_scope.
Open Scope Z_scope.

(** ** Ground for the witnesses: traces and tests on states *)

Definition test {A} (o : option A) (f : A → bool) : bool :=
  match o with Some a => f a | None => false end.

Lemma test_true {A} (o : option A) f : test o f = true → ∃ a, o = Some a ∧ f a = true.
Proof. destruct o as [a|]; [eauto|done]. Qed.

Lemma erun_reachable kb s es s' : reachable kb s → erun kb s es = Some s' → reachable kb s'.
Proof.
  revert s. induction es as [|e es IH]; intros s Hs; cbn; [by intros [= <-]|].
  destruct (estep kb s e) as [s1|] eqn:E; [|done]. cbn. apply IH. by eapply r_step.
Qed.

Definition ok_answer : answer :=
  mkAnswer "t" true true "/data" (fun _ => true) (mkOutcome None false).
Definition fail_answer : answer :=
  mkAnswer "t" true true "/data" (fun _ => true) (mkOutcome (Some ("exit 1", false)) false).
Definition go (t : nat) : event := EThread t ok_answer.
Definition start (md : string) (manual : bool) : event :=
  EStart "c1" md "10.0.0.1" "now" params_ex manual false false [] None.
Definition uninstall (md : string) (manual : bool) : event :=
  EUninstall "c1" md "10.0.0.1" "now" params_ex manual.

(** ** Order *)

Section Manager.
Variable keycloak_b64 : string.
Notation estep := (estep keycloak_b64).
Notation reachable := (reachable keycloak_b64).

(** C27. An automatic install or uninstall is sound under every interleaving of
    launches, manual steps, cancels, restarts and the runs of other modules:
    whenever it is reported done, every one of its steps did its work or was
    skipped; while the commands of a step run, that step is the current one,
    every earlier step is settled and no later one has started; and no second
    goroutine ever runs it. *)
Theorem auto_run_order s p x :
  reachable s → s.(em_heap) !! p = Some x → x.(i_Manual) = false →
  (x.(i_State) = "done" → Forall settled x.(i_Steps))
  ∧ (∀ t th idx, s.(em_threads) !! t = Some th → th.(th_p) = p → th.(th_pc) = PRemote idx →
       idx = x.(i_Current) ∧ steps_at idx in_hand x.(i_Steps)
       ∧ length x.(i_Steps) = length th.(th_plan))
  ∧ (∀ t t' th th', s.(em_threads) !! t = Some th → s.(em_threads) !! t' = Some th' →
       th.(th_kind) = TAuto → th'.(th_kind) = TAuto → th.(th_p) = p → th'.(th_p) = p → t = t').
Proof.
  intros I%reachable_Inv Hx Hm. split; [by apply (inv_done s I p)|]. split.
  - intros t th idx Ht Hp Hpc. destruct (exec_kind s t th I Ht) as [Hk|Hk]; [by rewrite Hpc| |].
    + destruct (auto_install s t th I Ht Hk) as (x' & Hx' & _ & Hr).
      rewrite Hp, Hx in Hx'. injection Hx' as <-. unfold run_ok in Hr. rewrite Hk, Hpc in Hr.
      destruct Hr as ([Hl _] & -> & _ & Hs & _). done.
    + exfalso. destruct (inv_thread s I t th Ht) as [[? _]|(z & Hz & [([?|?] & _)|[_ G]])]; try congruence.
      rewrite Hp, Hx in Hz. injection Hz as <-. unfold guest_ok in G. rewrite Hk, Hpc in G. congruence.
  - intros t t' th th' Ht Ht' Hk Hk' Hp Hp'. eapply (inv_one s I); try done; [by right|by right|congruence].
Qed.

(** ** The end of a run *)

(** The lock sections a runner has left, at most. *)
Definition work (th : thread) (x : Install) : nat :=
  let left := (5 * (length th.(th_plan) - x.(i_Current)))%nat in
  match th.(th_pc) with
  | PLoop => left + 4
  | PIndex => left + 3
  | PBegin _ => left + 2
  | PRemote _ => left + 1
  | PAdvance => left
  | PFinal | PTerm => 2
  | PClean => 1
  | _ => 0
  end.

Lemma heap_goto t c s : (goto t c s).(em_heap) = s.(em_heap).
Proof. done. Qed.

Lemma threads_goto t c s th :
  s.(em_threads) !! t = Some th → (goto t c s).(em_threads) !! t = Some (at_pc c th).
Proof. intros Ht. cbn. by rewrite lookup_alter_eq, Ht. Qed.

(** A section that leaves the goroutine at [c] and its install at [y]. *)
Lemma own_result s' t c th y :
  s'.(em_threads) !! t = Some (at_pc c th) → s'.(em_heap) !! th.(th_p) = Some y →
  ∀ w, (work (at_pc c th) y < w)%nat →
  ∃ th', s'.(em_threads) !! t = Some th' ∧ th'.(th_kind) = th.(th_kind) ∧ th'.(th_p) = th.(th_p)
    ∧ ∃ y, s'.(em_heap) !! th.(th_p) = Some y ∧ (work th' y < w)%nat.
Proof. intros Ht Hy w Hw. exists (at_pc c th). split_and!; try done. by exists y. Qed.

Lemma cascade_heap p s : (cascadeAfterUninstall p s).(em_heap) = s.(em_heap).
Proof. apply cascade_frame. Qed.
Lemma cascade_threads p s : (cascadeAfterUninstall p s).(em_threads) = s.(em_threads).
Proof. apply cascade_frame. Qed.

Lemma upd_heap p f s x : s.(em_heap) !! p = Some x → (upd p f s).(em_heap) !! p = Some (f x).
Proof. intros Hx. cbn. by rewrite lookup_alter_eq, Hx. Qed.

Lemma end_step_runs now ps idx o ctxErr x st :
  x.(i_Steps) !! idx = Some st →
  ∃ y err, end_step now ps idx o ctxErr x = Some (y, err) ∧ y.(i_Current) = x.(i_Current).
Proof.
  intros Hst. unfold end_step. rewrite Hst. cbn. destruct (step_error _ _ _).
  - by eexists _, _.
  - eexists _, _. split; [done|]. unfold complete_install. by repeat case_match.
Qed.

(** *** The other goroutines *)

(** [s'] keeps the goroutine [t] and the index of the install at [p]. *)
Definition keeps (t p : nat) (s s' : EM) : Prop :=
  s'.(em_threads) !! t = s.(em_threads) !! t
  ∧ i_Current <$> s'.(em_heap) !! p = i_Current <$> s.(em_heap) !! p.

Lemma keeps_refl t p s : keeps t p s s.
Proof. done. Qed.

Lemma keeps_trans t p s1 s2 s3 : keeps t p s1 s2 → keeps t p s2 s3 → keeps t p s1 s3.
Proof. intros [? ?] [? ?]. split; congruence. Qed.

Lemma keeps_core t p s s' : same_core s s' → keeps t p s s'.
Proof. intros (Hh & _ & Ht & _). split; by rewrite ?Hh, ?Ht. Qed.

Lemma keeps_goto t p t' c s : t' ≠ t → keeps t p s (goto t' c s).
Proof. intros Hne. split; [cbn; by rewrite lookup_alter_ne|done]. Qed.

Lemma keeps_stop t p t' s : t' ≠ t → keeps t p s (stop t' s).
Proof. intros Hne. split; [cbn; by rewrite lookup_delete_ne|done]. Qed.

Lemma keeps_spawn t p th s : (t < s.(em_tid))%nat → keeps t p s (spawn th s).
Proof. intros Hlt. split; [cbn; rewrite lookup_insert_ne by lia; done|done]. Qed.

Lemma keeps_upd t p q f s :
  (∀ x, q = p → s.(em_heap) !! p = Some x → (f x).(i_Current) = x.(i_Current)) → keeps t p s (upd q f s).
Proof.
  intros Hf. split; [done|]. cbn. destruct (decide (q = p)) as [->|Hne].
  - rewrite lookup_alter_eq. destruct (em_heap s !! p) as [x|] eqn:E; [|done]. cbn. f_equal. by apply Hf.
  - by rewrite lookup_alter_ne.
Qed.

Lemma cleanup_core k p b c s : same_core s (cleanup k p b c s).
Proof. unfold cleanup, close_client. repeat case_match; done. Qed.

Lemma rollback_core k p c s : same_core s (rollback k p c s).
Proof. unfold rollback, close_client. repeat case_match; done. Qed.

Lemma Next_core t p c md s : (t < s.(em_tid))%nat → keeps t p s (Next c md s).1.
Proof.
  intros Hlt. unfold Next. repeat case_match; try apply keeps_refl. by apply (keeps_spawn t p _ (set_busy _ s)).
Qed.

Lemma Cancel_core t p c md s : (t < s.(em_tid))%nat → keeps t p s (Cancel c md s).
Proof.
  intros Hlt. unfold Cancel. repeat case_match; try apply keeps_refl; try (by apply keeps_spawn); try done.
  match goal with |- keeps _ _ _ (spawn _ ?u) =>
    apply (keeps_trans t p s u); [by apply keeps_upd|by apply keeps_spawn] end.
Qed.

Lemma launch_keeps t p c md vip now ps manual airgap lab ws mf op m s :
  (t < s.(em_tid))%nat → (p < s.(em_next))%nat →
  keeps t p s (launch c md vip now ps manual airgap lab ws mf op m s).1.
Proof.
  intros Ht Hp. unfold launch. destruct (match _ ≫= _ with Some ex => _ | None => None end);
    [apply keeps_refl|]. split; cbn; rewrite lookup_insert_ne by lia; done.
Qed.

Lemma launch_commit_keeps t p t' k q plan saved s :
  (t < s.(em_tid))%nat → t' ≠ t → keeps t p s (launch_commit t' k q plan saved s).
Proof.
  intros Hlt Hne. unfold launch_commit.
  set (s1 := upd q _ s). assert (keeps t p s s1) as K1 by by apply keeps_upd.
  destruct saved.
  - set (s2 := Save true q _). assert (keeps t p s s2) as K2.
    { eapply keeps_trans; [exact K1|]. eapply keeps_trans; [|apply keeps_core, Save_core]. by apply keeps_core. }
    assert (em_tid s2 = em_tid s) as Htid by (unfold s2; by rewrite Save_tid).
    clearbody s2. destruct (em_heap s2 !! q) as [x|]; [|done]. destruct (i_Manual x).
    + eapply keeps_trans; [exact K2|by apply keeps_stop].
    + eapply keeps_trans; [exact K2|]. match goal with |- keeps _ _ _ (spawn _ ?u) =>
        apply (keeps_trans t p s2 u); [|apply keeps_spawn; cbn; lia] end.
      split; [cbn; by rewrite lookup_delete_ne|done].
  - eapply keeps_trans; [exact K1|]. split; [cbn; by rewrite lookup_insert_ne|done].
Qed.

Lemma next_end_keeps t p t' th err a s s' :
  Inv s → s.(em_threads) !! t' = Some th → th.(th_kind) = TNext → t' ≠ t →
  (∀ x, s.(em_heap) !! p = Some x → x.(i_Manual) = false) →
  next_end t' th err a s = Some s' → keeps t p s s'.
Proof.
  intros I Ht Hk Hne Hm. unfold next_end. cbn [em_heap set_cancelReq set_busy set_maps].
  destruct (em_heap s !! th_p th) as [x|] eqn:Hx; [|done]. cbn [mbind option_bind].
  set (s1 := set_cancelReq _ _). set (s2 := if _ && _ then _ else s1).
  assert (keeps t p s s2) as K2.
  { apply (keeps_trans t p s s1); [by apply keeps_core|].
    unfold s2. destruct (_ && _); [|apply keeps_refl].
    eapply keeps_trans; [|apply keeps_core, Save_core]. apply keeps_upd. intros y E Hy. exfalso.
    specialize (Hm y Hy).
    destruct (inv_thread s I t' th Ht) as [[? _]|(z & Hz & [([?|?] & _)|[_ G]])]; try congruence.
    rewrite E in Hz. change (em_heap s !! p = Some y) in Hy. rewrite Hy in Hz. injection Hz as <-.
    unfold guest_ok in G. rewrite Hk in G. destruct (th_pc th); congruence || done. }
  clearbody s2. destruct (em_heap s2 !! th_p th); [|done]. cbn [mbind option_bind]. intros [= <-].
  eapply keeps_trans; [exact K2|].
  destruct (bool_decide _); [by apply keeps_goto|].
  destruct (negb _); [by apply keeps_goto|by apply keeps_stop].
Qed.

(** No other goroutine's section touches a runner or its index. *)
Lemma exec_begin_keeps s t p t' th' idx a s' :
  t' ≠ t → exec_begin t' th' idx a s = Some s' → keeps t p s s'.
Proof.
  intros Hne. unfold exec_begin. destruct (em_heap s !! th_p th') as [x'|]; [|done]. cbn.
  destruct (th_plan th' !! idx); [|done]. cbn. destruct (i_Steps x' !! idx); [|done]. cbn. intros [= <-].
  eapply keeps_trans; [|by apply keeps_goto]. eapply keeps_trans; [|apply keeps_core, Save_core]. by apply keeps_upd.
Qed.

Lemma exec_end_keeps s t p t' th' idx a s' :
  t' ≠ t → exec_end t' th' idx a s = Some s' → keeps t p s s'.
Proof.
  intros Hne. unfold exec_end. destruct (em_heap s !! th_p th') as [x'|] eqn:Hx'; [|done]. cbn.
  destruct (th_plan th' !! idx) as [ps|]; [|done]. cbn.
  destruct (end_step _ _ _ _ _ x') as [[y err]|] eqn:Ee; [|done]. cbn. intros [= <-].
  eapply keeps_trans; [|by apply keeps_goto].
  eapply keeps_trans; [apply (keeps_upd _ _ (th_p th') (fun _ => y))|].
  { intros x1 E H1. rewrite <- E, Hx' in H1. injection H1 as <-. unfold end_step in Ee.
    destruct (i_Steps x' !! idx) as [st|] eqn:Es; [|done].
    destruct (end_step_runs (a_now a) ps idx (a_outcome a) (bool_decide (th_kind th' = TAuto)
      && bool_decide (th_p th' ∈ em_cancelled s)) x' st Es) as (y' & err' & E1 & E2).
    unfold end_step in E1. rewrite Es in E1. rewrite E1 in Ee. by injection Ee as <- _. }
  destruct err; [apply keeps_core, Save_core|].
  eapply keeps_trans; apply keeps_core; [apply Save_core|apply cascade_frame].
Qed.

(** A restart leaves no goroutine. *)
Lemma rehydrate_threads saved d t : (rehydrate saved d).(em_threads) !! t = None.
Proof.
  unfold rehydrate. assert (em_threads (empty_EM d) !! t = None) as H0 by apply lookup_empty. revert H0.
  generalize (empty_EM d). induction (List_disk d) as [|z l IH]; intros s0 H0; [done|].
  cbn [foldl]. apply IH. by rewrite load_one_threads.
Qed.

Lemma others_keep s t th e s' :
  Inv s → s.(em_threads) !! t = Some th → th.(th_kind) = TAuto → (∀ a, e ≠ EThread t a) →
  estep s e = Some s' → s'.(em_threads) !! t = None ∨ keeps t th.(th_p) s s'.
Proof.
  intros I Ht Hk He. pose proof (inv_tid s I t th Ht) as Hlt.
  destruct (auto_install s t th I Ht Hk) as (x & Hx & Hm & _).
  pose proof (inv_heap s I _ x Hx) as Hp.
  destruct e as [c md vip now p manual airgap lab ws m|c md vip now p manual|c md|c md|t' a|t' l|saved]; cbn.
  - intros [= <-]. right. by apply launch_keeps.
  - intros [= <-]. right. by apply launch_keeps.
  - intros [= <-]. right. by apply Next_core.
  - intros [= <-]. right. by apply Cancel_core.
  - intros H. right. assert (t' ≠ t) as Hne by (intros ->; by apply (He a)). revert H.
    unfold thread_step. destruct (em_threads s !! t') as [th'|] eqn:Ht'; [|done]. cbn.
    pose proof (pc_kind s t' th' I Ht') as Hk'.
    destruct (th_pc th') as [m|m| | | |idx|idx| | |err|c| |] eqn:Hpc.
    + intros [= <-]. by apply keeps_goto.
    + destruct (em_heap s !! th_p th') as [x'|]; [|done]. cbn. intros [= <-]. by apply launch_commit_keeps.
    + intros [= <-]. eapply keeps_trans; [apply keeps_core, rollback_core|by apply keeps_stop].
    + intros [= <-]. by apply keeps_goto.
    + destruct (em_heap s !! th_p th') as [x'|]; [|done]. cbn. intros [= <-]. by apply keeps_goto.
    + by apply exec_begin_keeps.
    + by apply exec_end_keeps.
    + unfold run_advance. destruct (em_heap s !! th_p th') as [x'|] eqn:Hx'; [|done]. cbn.
      destruct (negb _); intros [= <-]; [by apply keeps_goto|].
      eapply keeps_trans; [|by apply keeps_goto]. eapply keeps_trans; [|apply keeps_core, Save_core].
      apply keeps_upd. intros x1 E _. exfalso. apply Hne.
      eapply (inv_one s I); [done|done|by right|by right|done].
    + intros [= <-]. unfold run_final. eapply keeps_trans; [|by apply keeps_goto].
      eapply keeps_trans; [|apply keeps_core, cascade_frame].
      eapply keeps_trans; [|apply keeps_core, Save_core]. by apply keeps_upd.
    + intros H. eapply next_end_keeps; try done. intros z Hz. congruence.
    + intros [= <-]. eapply keeps_trans; [|by apply keeps_stop]. by apply keeps_core.
    + intros [= <-]. eapply keeps_trans; [|by apply keeps_goto]. unfold terminate.
      eapply keeps_trans; [|apply keeps_core, Save_core]. by apply keeps_upd.
    + intros [= <-]. eapply keeps_trans; [apply keeps_core, cleanup_core|by apply keeps_stop].
  - unfold on_line. destruct (em_threads s !! t') as [th'|]; [|done]. cbn. destruct (th_pc th'); try done.
    intros [= <-]. right. by apply keeps_upd.
  - intros [= <-]. left. apply rehydrate_threads.
Qed.

(** A section of the goroutine [t] was its last, or left less to do. *)
Definition closer (t : nat) (th : thread) (w : nat) (s' : EM) : Prop :=
  s'.(em_threads) !! t = None
  ∨ ∃ th', s'.(em_threads) !! t = Some th' ∧ th'.(th_kind) = th.(th_kind) ∧ th'.(th_p) = th.(th_p)
    ∧ ∃ y, s'.(em_heap) !! th.(th_p) = Some y ∧ (work th' y < w)%nat.

Section OwnStep.
Variables (s : EM) (t : nat) (th : thread) (x : Install) (a : answer).
Hypotheses (Ht : s.(em_threads) !! t = Some th) (Hx : s.(em_heap) !! th.(th_p) = Some x).
Hypothesis (Hl : aligned th x) (Hc : (x.(i_Current) < length th.(th_plan))%nat).

Lemma current_step : ∃ ps st, th.(th_plan) !! x.(i_Current) = Some ps ∧ x.(i_Steps) !! x.(i_Current) = Some st.
Proof using Hl Hc.
  destruct Hl as [Hlen _]. destruct (lookup_lt_is_Some_2 (th_plan th) (i_Current x)) as [ps Hps]; [lia|].
  destruct (lookup_lt_is_Some_2 (i_Steps x) (i_Current x)) as [st Hst]; [lia|]. by exists ps, st.
Qed.

Lemma exec_begin_closer :
  th.(th_pc) = PBegin x.(i_Current) →
  ∃ s', exec_begin t th x.(i_Current) a s = Some s' ∧ closer t th (work th x) s'.
Proof using Ht Hx Hl Hc.
  intros Hpc. destruct current_step as (ps & st & Hps & Hst). unfold exec_begin. rewrite Hx. cbn [mbind option_bind].
  rewrite Hps. cbn [mbind option_bind]. rewrite Hst. cbn [mbind option_bind]. eexists. split; [done|]. right.
  eapply own_result; [apply threads_goto; by rewrite Save_threads| |].
  - rewrite heap_goto, Save_heap. by apply upd_heap.
  - unfold work. rewrite Hpc. cbn. lia.
Qed.

Lemma exec_end_closer :
  th.(th_kind) = TAuto → th.(th_pc) = PRemote x.(i_Current) →
  ∃ s', exec_end t th x.(i_Current) a s = Some s' ∧ closer t th (work th x) s'.
Proof using Ht Hx Hl Hc.
  intros Hk Hpc. destruct current_step as (ps & st & Hps & Hst). unfold exec_end. rewrite Hx. cbn [mbind option_bind].
  rewrite Hps. cbn [mbind option_bind]. rewrite Hk.
  edestruct (end_step_runs (a_now a) ps (i_Current x) (a_outcome a)) as (y & err & -> & Hy); [exact Hst|].
  cbn [mbind option_bind]. eexists. split; [done|]. right.
  eapply (own_result _ _ _ th y).
  - apply threads_goto. destruct err; rewrite ?cascade_threads, Save_threads; exact Ht.
  - rewrite heap_goto. destruct err; rewrite ?cascade_heap, Save_heap; by apply (upd_heap _ (fun _ => y) _ x).
  - unfold work. rewrite Hpc, <- Hy. destruct err; cbn; lia.
Qed.

Lemma run_advance_closer :
  th.(th_pc) = PAdvance → ∃ s', run_advance t th a s = Some s' ∧ closer t th (work th x) s'.
Proof using Ht Hx Hc.
  intros Hpc. unfold run_advance. rewrite Hx. cbn [mbind option_bind].
  destruct (negb _); eexists; (split; [done|]); right.
  - eapply own_result; [by apply threads_goto|exact Hx|]. unfold work. rewrite Hpc. cbn. lia.
  - eapply own_result; [apply threads_goto; by rewrite Save_threads| |].
    + rewrite heap_goto, Save_heap. by apply upd_heap.
    + unfold work. rewrite Hpc. cbn. lia.
Qed.

End OwnStep.

Lemma own_step_closer s t th x a :
  Inv s → s.(em_threads) !! t = Some th → th.(th_kind) = TAuto → s.(em_heap) !! th.(th_p) = Some x →
  ∃ s', thread_step keycloak_b64 t a s = Some s' ∧ closer t th (work th x) s'.
Proof.
  intros I Ht Hk Hx. destruct (auto_install s t th I Ht Hk) as (x' & Hx' & _ & Hr). rewrite Hx in Hx'. injection Hx' as <-.
  unfold run_ok in Hr. rewrite Hk in Hr. unfold thread_step. rewrite Ht.
  cbn [mbind option_bind]. destruct (th_pc th) as [m|m| | | |idx|idx| | |err|c| |] eqn:Hpc; try done.
  - eexists. split; [done|]. right. eapply own_result; [by apply threads_goto|exact Hx|].
    unfold work. rewrite Hpc. destruct (bool_decide _); cbn; lia.
  - rewrite Hx. cbn [mbind option_bind]. eexists. split; [done|]. right.
    eapply own_result; [by apply threads_goto|exact Hx|]. unfold work. rewrite Hpc. destruct (_ <=? _)%nat; cbn; lia.
  - destruct Hr as (Hl & -> & Hc & _). by apply exec_begin_closer.
  - destruct Hr as (Hl & -> & Hc & _). by apply exec_end_closer.
  - destruct Hr as (_ & Hc & _). by apply run_advance_closer.
  - eexists. split; [done|]. right. unfold run_final. eapply own_result.
    + apply threads_goto. by rewrite cascade_threads, Save_threads.
    + rewrite heap_goto, cascade_heap, Save_heap. by apply upd_heap.
    + unfold work. rewrite Hpc. cbn. lia.
  - eexists. split; [done|]. right. unfold terminate. eapply own_result.
    + apply threads_goto. by rewrite Save_threads.
    + rewrite heap_goto, Save_heap. by apply upd_heap.
    + unfold work. rewrite Hpc. cbn. lia.
  - eexists. split; [done|]. left. cbn. apply lookup_delete_eq.
Qed.

(** C28. An automatic run ends: each locked section of its goroutine is enabled
    whenever it is reached (no step or plan index is out of range, whatever
    the cluster answers), and either is the goroutine's last or brings it
    closer to its end, by a measure of at most five per step plus four that no
    transition of anything else changes (a restart ends the goroutine). *)
Theorem auto_run_ends s t th x a :
  reachable s → s.(em_threads) !! t = Some th → th.(th_kind) = TAuto →
  s.(em_heap) !! th.(th_p) = Some x →
  (work th x <= 5 * length th.(th_plan) + 4)%nat
  ∧ (∃ s', estep s (EThread t a) = Some s' ∧ closer t th (work th x) s')
  ∧ ∀ e s', (∀ a, e ≠ EThread t a) → estep s e = Some s' →
        s'.(em_threads) !! t = None
        ∨ s'.(em_threads) !! t = Some th
          ∧ ∃ y, s'.(em_heap) !! th.(th_p) = Some y ∧ work th y = work th x.
Proof.
  intros I%reachable_Inv Ht Hk Hx. split_and!.
  - unfold work. destruct (th_pc th); lia.
  - by apply own_step_closer.
  - intros e s' He Hs. destruct (others_keep s t th e s' I Ht Hk He Hs) as [H|[Ht' Hc]]; [by left|right].
    split; [congruence|]. rewrite Hx in Hc. destruct (em_heap s' !! th_p th) as [y|]; [|done].
    injection Hc as Hc. exists y. split; [done|]. unfold work. by rewrite Hc.
Qed.

End Manager.

(** ** The cascade *)

Lemma drop_list_spec x s l :
  Forall (fun e => depends s.(em_heap) x e.2 = true) l →
  let s' := foldr (fun e s => drop_dependent e.1 e.2 s) s l in
  s'.(em_heap) = s.(em_heap)
  ∧ (∀ k q, s'.(em_installs) !! k = Some q ↔ s.(em_installs) !! k = Some q ∧ k ∉ l.*1)
  ∧ (∀ f y, s'.(em_disk) !! f = Some y ↔
       s.(em_disk) !! f = Some y
       ∧ ∀ k q dep, (k, q) ∈ l → s.(em_heap) !! q = Some dep → f ≠ path dep.(i_ClusterID) dep.(i_Module)).
Proof.
  intros Hl. induction Hl as [|[ck q0] l Hd Hl (IH0 & IH1 & IH2)].
  { split; [done|]. split; intros; (split; [|tauto]); intros; split; try done.
    - apply not_elem_of_nil.
    - intros ? ? ? Hin. by apply not_elem_of_nil in Hin. }
  cbn [foldr fst snd]. cbn zeta in IH0, IH1, IH2. set (s1 := foldr _ s l) in *.
  cbn [snd] in Hd. unfold drop_dependent. rewrite IH0. unfold depends in Hd.
  destruct (em_heap s !! q0) as [dep|] eqn:Eq; [|done]. split; [done|]. split.
  - intros k q. cbn. rewrite lookup_delete_Some, IH1, not_elem_of_cons. naive_solver.
  - intros f y. cbn. rewrite lookup_delete_Some, IH2. split.
    + intros (Hf & Hy & Hall). split; [done|]. intros k q d [[= -> ->]|Hin]%elem_of_cons Hq; [|by eapply Hall].
      rewrite Eq in Hq. injection Hq as <-. congruence.
    + intros (Hy & Hall). split_and!; [|done|].
      * intros <-. eapply (Hall ck q0 dep); [by left|done|done].
      * intros k q d Hin. eapply Hall. by right.
Qed.

(** Removing the App-Framework drops exactly the records that lived on it:
    of the manager's entries, those of another module with the same cluster or
    the same dialed host, and of the files, those of these records; every other
    entry and file stays, and so does every record in memory. *)
Theorem cascade_exact s p x :
  s.(em_heap) !! p = Some x → cascades x = true →
  let s' := cascadeAfterUninstall p s in
  s'.(em_heap) = s.(em_heap)
  ∧ (∀ k q, s'.(em_installs) !! k = Some q ↔
       s.(em_installs) !! k = Some q ∧ depends s.(em_heap) x q = false)
  ∧ (∀ f y, s'.(em_disk) !! f = Some y ↔
       s.(em_disk) !! f = Some y
       ∧ ∀ k q dep, s.(em_installs) !! k = Some q → s.(em_heap) !! q = Some dep →
           depends s.(em_heap) x q = true → f ≠ path dep.(i_ClusterID) dep.(i_Module)).
Proof.
  intros Hx Hc s'. subst s'. unfold cascadeAfterUninstall. rewrite Hx, Hc.
  assert (∀ k q, (k, q) ∈ map_to_list (dependents x s) ↔
    s.(em_installs) !! k = Some q ∧ depends s.(em_heap) x q = true) as Hdep.
  { intros k q. rewrite elem_of_map_to_list. unfold dependents. rewrite map_lookup_filter_Some. tauto. }
  destruct (drop_list_spec x s (map_to_list (dependents x s))) as (H0 & H1 & H2).
  { apply Forall_forall. intros [k q] Hin. by apply Hdep in Hin as [_ H]. }
  split; [done|]. split.
  - intros k q. rewrite H1. split; intros [Hk Hn]; (split; [done|]).
    + apply not_true_iff_false. intros Ht. apply Hn, list_elem_of_fmap. exists (k, q).
      split; [done|]. by apply Hdep.
    + intros ([k' q'] & -> & Hin)%list_elem_of_fmap. apply Hdep in Hin as [Hq Ht]. cbn in *. congruence.
  - intros f y. rewrite H2. split; intros [Hf Hall]; (split; [done|]).
    + intros k q dep Hk Hq Hd. eapply Hall; [by apply Hdep|done].
    + intros k q dep [Hk Hd]%Hdep Hq. by eapply Hall.
Qed.

(** ** Restarts *)

Lemma split_last_eq sep a b a' b' :
  free_of sep b → free_of sep b' → a +:+ String sep b = a' +:+ String sep b' → a = a' ∧ b = b'.
Proof.
  intros Hb Hb' E. pose proof (LastIndexByte_app sep a b Hb) as L. rewrite E in L.
  rewrite (LastIndexByte_app sep a' b' Hb') in L. injection L as L.
  assert (a = a') as <- by (rewrite <- (stake_app a (String sep b)), E, <- L; apply stake_app).
  split; [done|]. rewrite <- (sdrop_S_app a sep b), E. apply sdrop_S_app.
Qed.

Definition status_of (k : string) (s : EM) : option Install :=
  s.(em_installs) !! k ≫= fun p => s.(em_heap) !! p.

Definition keyed_by (k : string) (x : Install) : bool := (key x.(i_ClusterID) x.(i_Module) =? k)%string.

Lemma interrupted_ends x : is_running (interrupted x) = false.
Proof. unfold interrupted. destruct (is_running x) eqn:E; done. Qed.

Lemma interrupted_key x : key (interrupted x).(i_ClusterID) (interrupted x).(i_Module) = key x.(i_ClusterID) x.(i_Module).
Proof. unfold interrupted. by destruct (is_running x). Qed.

(** No map entry points outside the heap; nothing runs. *)
Definition fresh_ok (s : EM) : Prop :=
  (∀ k q, s.(em_installs) !! k = Some q → (q < s.(em_next))%nat)
  ∧ (∀ p x, s.(em_heap) !! p = Some x → is_running x = false)
  ∧ s.(em_threads) = ∅.

Lemma load_one_view saved x s :
  (load_one saved x s).(em_heap) = <[s.(em_next) := interrupted x]> s.(em_heap)
  ∧ (load_one saved x s).(em_next) = S s.(em_next)
  ∧ (load_one saved x s).(em_installs) = <[key x.(i_ClusterID) x.(i_Module) := s.(em_next)]> s.(em_installs)
  ∧ (load_one saved x s).(em_threads) = s.(em_threads).
Proof.
  rewrite <- interrupted_key. unfold load_one, Save. cbn. rewrite lookup_insert_eq.
  destruct (is_running x); [|done]. by destruct (saved _).
Qed.

Lemma load_one_spec saved x s k :
  fresh_ok s →
  fresh_ok (load_one saved x s)
  ∧ status_of k (load_one saved x s) = if keyed_by k x then Some (interrupted x) else status_of k s.
Proof.
  intros (H1 & H2 & H3). destruct (load_one_view saved x s) as (Hh & Hn & Hi & Ht). split.
  - split_and!; [| |by rewrite Ht]; rewrite ?Hh, ?Hn, ?Hi.
    + intros k' q [[_ <-]|[_ H]]%lookup_insert_Some; [lia|]. apply H1 in H. lia.
    + intros q y [[_ <-]|[_ H]]%lookup_insert_Some; [apply interrupted_ends|by eapply H2].
  - unfold status_of, keyed_by. rewrite Hh, Hi. destruct (String.eqb_spec (key (i_ClusterID x) (i_Module x)) k) as [<-|Hne].
    + rewrite lookup_insert_eq. cbn. by rewrite lookup_insert_eq.
    + rewrite lookup_insert_ne by done. destruct (em_installs s !! k) as [q|] eqn:E; [|done]. cbn.
      apply H1 in E. rewrite lookup_insert_ne by lia. done.
Qed.

Lemma load_spec saved l s k :
  fresh_ok s →
  fresh_ok (foldl (fun s x => load_one saved x s) s l)
  ∧ status_of k (foldl (fun s x => load_one saved x s) s l)
    = match last (List.filter (keyed_by k) l) with Some x => Some (interrupted x) | None => status_of k s end.
Proof.
  revert s. induction l as [|x l IH]; intros s Hs; [done|]. cbn [foldl List.filter].
  destruct (load_one_spec saved x s k Hs) as [Hf Hk]. destruct (IH _ Hf) as [Hf' ->]. split; [done|].
  rewrite Hk. destruct (keyed_by k x); [|done]. rewrite last_cons. by destruct (last _).
Qed.

(** A store directory the driver wrote: each record under its own name. *)
Definition filed (disk : gmap string Install) : Prop :=
  ∀ f y, disk !! f = Some y →
    f = path y.(i_ClusterID) y.(i_Module) ∧ free_of "/"%char y.(i_Module) ∧ free_of "-"%char y.(i_Module).

Lemma path_inj c md c' md' :
  free_of "-"%char md → free_of "-"%char md' → path c md = path c' md' → c = c' ∧ md = md'.
Proof.
  intros Hm Hm' E. unfold path in E. rewrite <- !app_assoc_str in E.
  assert ((c +:+ "-") +:+ md = (c' +:+ "-") +:+ md') as E'.
  { rewrite <- (TrimSuffix_app ((c +:+ "-") +:+ md) ".json"), E. apply TrimSuffix_app. }
  rewrite !app_assoc_str in E'. apply (split_last_eq "-"%char) in E'; try done.
Qed.

(** A step as a restart shows it: what was under way has failed. *)
Definition step_after_restart (st st' : Step) : Prop :=
  if bool_decide (st.(s_State) = StepActive) then
    st'.(s_State) = StepError
    ∧ st'.(s_Err) = (if is_empty st.(s_Err) then "driver restarted while this step was running" else st.(s_Err))
    ∧ (st'.(s_Name), st'.(s_Title), st'.(s_StartedAt), st'.(s_FinishedAt), st'.(s_Output))
      = (st.(s_Name), st.(s_Title), st.(s_StartedAt), st.(s_FinishedAt), st.(s_Output))
  else st' = st.

(** A record as a restart shows it. *)
Definition after_restart (x y : Install) : Prop :=
  if (x.(i_State) =? "running")%string then
    y = set_i_State "error" (set_i_Steps y.(i_Steps) x) ∧ Forall2 step_after_restart x.(i_Steps) y.(i_Steps)
  else y = x.

Lemma interrupted_after x : after_restart x (interrupted x).
Proof.
  unfold after_restart, interrupted, is_running. destruct (i_State x =? "running")%string; [|done].
  split; [reflexivity|]. cbn. apply Forall2_fmap_r. induction (i_Steps x) as [|st l IH]; constructor; [|exact IH].
  unfold step_after_restart, interrupt_step. destruct st as [? ? stt ? er ? ?]. cbn -[is_empty]. case_bool_decide; [|done].
  destruct (is_empty er); done.
Qed.

(** C30. A restart loses nothing and leaves nothing hanging: for a store
    directory the driver wrote, the status of a module after the restart is the saved
    record as it is, unless a run was going on: then its state is "error", the step
    under way failed with "driver restarted while this step was running" (if it
    had no error yet), and the rest is as saved; no install is running, and nothing
    is left to interfere with a new one. *)
Theorem restart_shows saved disk c md :
  filed disk → c ≠ "" → free_of "/"%char md → free_of "-"%char md →
  let s := rehydrate saved disk in
  match disk !! path c md with
  | Some x => ∃ y, Status c md s = Some y ∧ after_restart x y
  | None => Status c md s = None
  end
  ∧ (∀ p x, s.(em_heap) !! p = Some x → is_running x = false)
  ∧ s.(em_threads) = ∅.
Proof.
  intros Hf Hc Hmd Hmd' s. subst s. unfold rehydrate.
  assert (fresh_ok (empty_EM disk)) as H0 by (split_and!; cbn; intros; by rewrite ?lookup_empty in *).
  destruct (load_spec saved (List_disk disk) (empty_EM disk) (key c md) H0) as [(_ & H2 & H3) Hk].
  split; [|by split].
  assert (Status c md (foldl (fun s x => load_one saved x s) (empty_EM disk) (List_disk disk))
    = interrupted <$> disk !! path c md) as ->;
    [|destruct (disk !! path c md) as [x|]; [|done]; eexists; split; [done|apply interrupted_after]].
  change (Status c md ?s) with (status_of (key c md) s). rewrite Hk. clear Hk H2 H3.
  assert (∀ x, x ∈ List.filter (keyed_by (key c md)) (List_disk disk) ↔ disk !! path c md = Some x) as Hin.
  { intros x. unfold List_disk. rewrite list_elem_of_In, !filter_In, <- list_elem_of_In, list_elem_of_fmap.
    unfold keyed_by. split.
    - intros ((([f y] & -> & Hy%elem_of_map_to_list) & _) & Hk). cbn in *.
      destruct (Hf _ _ Hy) as (-> & Hs & _). apply String.eqb_eq in Hk. unfold key in Hk.
      by apply (split_last_eq "/"%char) in Hk as [<- <-].
    - intros Hx. destruct (Hf _ _ Hx) as (Hp & _ & Hd). apply path_inj in Hp as [-> ->]; [|done|done].
      split; [split|by apply String.eqb_eq].
      + exists (path (i_ClusterID x) (i_Module x), x). split; [done|]. by apply elem_of_map_to_list.
      + by destruct (is_empty (i_ClusterID x)) eqn:E; [apply is_empty_true in E|]. }
  destruct (last (List.filter _ _)) as [x|] eqn:El.
  - apply last_Some_elem_of, Hin in El. by rewrite El.
  - apply last_None in El. rewrite El in Hin. destruct (disk !! path c md) as [x|]; [|done].
    exfalso. apply (not_elem_of_nil x). by apply Hin.
Qed.

(** ** Runs on concrete inputs *)

Definition kc : string := "a2M=".
Definition trace (es : list event) : option EM := erun kc (empty_EM ∅) es.

Lemma trace_reachable es s : trace es = Some s → reachable kc s.
Proof. apply erun_reachable, r_init. Qed.

Lemma trace_test es f : test (trace es) f = true → ∃ s, reachable kc s ∧ f s = true.
Proof. intros (s & Hs & Hf)%test_true. exists s. split; [by eapply trace_reachable|done]. Qed.

Definition install_at (p : nat) (s : EM) (f : Install → bool) : bool := test (s.(em_heap) !! p) f.
Definition thread_at (t : nat) (s : EM) (f : thread → bool) : bool := test (s.(em_threads) !! t) f.
Definition is_auto (th : thread) : bool := match th.(th_kind) with TAuto => true | _ => false end.

(** An App-Framework install, to its end. *)
Definition full_run : list event :=
  [start ModuleAppFW false; go 0; go 0] ++ replicate 29 (go 1).

Lemma full_run_done :
  test (trace full_run) (fun s => install_at 0 s (fun x =>
    (x.(i_State) =? "done")%string && negb x.(i_Manual) && (length x.(i_Steps) =? 5)%nat)
    && bool_decide (s.(em_threads) = ∅)) = true.
Proof. vm_compute. reflexivity. Qed.

Lemma auto_run_order_witness :
  ∃ s x, reachable kc s ∧ s.(em_heap) !! 0%nat = Some x ∧ x.(i_State) = "done"
         ∧ length x.(i_Steps) = 5%nat ∧ Forall settled x.(i_Steps).
Proof.
  destruct (trace_test _ _ full_run_done) as (s & Hr & H). apply andb_true_iff in H as [H _].
  destruct (test_true _ _ H) as (x & Hx & Hb). rewrite !andb_true_iff in Hb. destruct Hb as [[Hd Hm] Hl].
  apply String.eqb_eq in Hd. apply negb_true_iff in Hm. apply Nat.eqb_eq in Hl.
  exists s, x.
  split_and!; [exact Hr|exact Hx|exact Hd|exact Hl|].
  exact (proj1 (auto_run_order kc s 0%nat x Hr Hx Hm) Hd).
Defined.

Lemma auto_run_ends_witness :
  ∃ s th s', reachable kc s ∧ s.(em_threads) !! 1%nat = Some th ∧ estep kc s (EThread 1 fail_answer) = Some s'.
Proof.
  assert (test (trace ([start ModuleAppFW false; go 0; go 0] ++ replicate 3 (go 1)))
    (fun s => thread_at 1 s is_auto && install_at 0 s (fun _ => true)
              && thread_at 1 s (fun th => (th.(th_p) =? 0)%nat)) = true) as H by (vm_compute; reflexivity).
  destruct (trace_test _ _ H) as (s & Hr & Hb). clear H. rewrite !andb_true_iff in Hb. destruct Hb as [[H1 H2] H3].
  destruct (test_true _ _ H1) as (th & Ht & Hk). destruct (test_true _ _ H2) as (x & Hx & _).
  destruct (test_true _ _ H3) as (th' & Ht' & Hp). assert (th' = th) as -> by congruence.
  apply Nat.eqb_eq in Hp.
  assert (th_kind th = TAuto) as Hk' by (unfold is_auto in Hk; by destruct (th_kind th)).
  rewrite <- Hp in Hx.
  destruct (auto_run_ends kc s 1%nat th x fail_answer Hr Ht Hk' Hx) as (_ & (s' & Hs' & _) & _).
  by exists s, th, s'.
Defined.

(** A manager that knows a finished App-Framework uninstall and a CMP install
    on the same cluster. *)
Definition fw_gone : Install :=
  set_i_State "done" (new_install "c1" ModuleAppFW "uninstall" "10.0.0.1" "now" false false false [] "" params_ex).
Definition on_fw : Install :=
  new_install "c1" ModuleCMP "install" "10.0.0.1" "now" false false false [] "" params_ex.
Definition fw_state : EM :=
  set_installs {["c1/appfw" := 0%nat; "c1/cmp" := 1%nat]}
    (set_disk {["c1-cmp.json" := on_fw]} (set_heap {[0%nat := fw_gone; 1%nat := on_fw]} (empty_EM ∅))).

Lemma cascade_exact_witness :
  (cascadeAfterUninstall 0 fw_state).(em_installs) !! "c1/cmp" = None
  ∧ (cascadeAfterUninstall 0 fw_state).(em_installs) !! "c1/appfw" = Some 0%nat.
Proof.
  assert (fw_state.(em_heap) !! 0%nat = Some fw_gone) as Hx by (vm_compute; reflexivity).
  assert (cascades fw_gone = true) as Hc by (vm_compute; reflexivity).
  destruct (cascade_exact fw_state 0%nat fw_gone Hx Hc) as (_ & H & _). split.
  - destruct (_ !! "c1/cmp") as [q|] eqn:E; [|reflexivity]. exfalso. apply H in E as [Hq Hd].
    assert (fw_state.(em_installs) !! "c1/cmp" = Some 1%nat) as Hq' by (vm_compute; reflexivity).
    rewrite Hq' in Hq. injection Hq as <-. revert Hd. vm_compute. discriminate.
  - apply H. split; vm_compute; reflexivity.
Defined.

Definition saved_ex : gmap string Install := {["c1-cmp.json" := on_disk on_fw]}.

Lemma restart_shows_witness :
  ∃ y, Status "c1" "cmp" (rehydrate (fun _ => true) saved_ex) = Some y ∧ y.(i_State) = "error".
Proof.
  destruct (restart_shows (fun _ => true) saved_ex "c1" "cmp") as [H _].
  - intros f y Hy. unfold saved_ex in Hy. apply lookup_singleton_Some in Hy as [<- <-]. split_and!; reflexivity.
  - discriminate.
  - reflexivity.
  - reflexivity.
  - assert (saved_ex !! path "c1" "cmp" = Some (on_disk on_fw)) as Hs by (vm_compute; reflexivity).
    rewrite Hs in H. destruct H as (y & Hy & Ha). exists y. split; [exact Hy|].
    assert (((on_disk on_fw).(i_State) =? "running")%string = true) as Hr by (vm_compute; reflexivity).
    unfold after_restart in Ha. rewrite Hr in Ha. rewrite (proj1 Ha). reflexivity.
Defined.

(** ** Overlapping requests *)

(** The installer does not keep to one goroutine per cluster and module:
    removing the App-Framework drops the record of an application install that
    is still running without stopping it, so the install can be started again
    and two goroutines then run the same module's steps at once. *)
Theorem two_runners_one_module :
  ∃ s, reachable kc s ∧
    ∃ th th' x x', s.(em_threads) !! 1%nat = Some th ∧ s.(em_threads) !! 5%nat = Some th'
      ∧ th.(th_kind) = TAuto ∧ th'.(th_kind) = TAuto ∧ th.(th_k) = th'.(th_k)
      ∧ s.(em_heap) !! th.(th_p) = Some x ∧ s.(em_heap) !! th'.(th_p) = Some x'
      ∧ is_running x = true ∧ is_running x' = true ∧ th.(th_p) ≠ th'.(th_p).
Proof.
  assert (test (trace ([start ModuleCMP false; go 0; go 0; go 1; go 1; go 1]
    ++ [uninstall ModuleAppFW false; go 2; go 2] ++ replicate 20 (go 3)
    ++ [start ModuleCMP false; go 4; go 4; go 5; go 5; go 5]))
    (fun s => thread_at 1 s (fun th => is_auto th && (th.(th_k) =? "c1/cmp")%string
                && (th.(th_p) =? 0)%nat && install_at th.(th_p) s is_running)
              && thread_at 5 s (fun th => is_auto th && (th.(th_k) =? "c1/cmp")%string
                && (th.(th_p) =? 2)%nat && install_at th.(th_p) s is_running)) = true) as H
    by (vm_compute; reflexivity).
  destruct (trace_test _ _ H) as (s & Hr & Hb). clear H. apply andb_true_iff in Hb as [H1 H2].
  destruct (test_true _ _ H1) as (th & Ht & Hb). rewrite !andb_true_iff in Hb. destruct Hb as [[[Ha Hk] Hp] Hi].
  destruct (test_true _ _ H2) as (th' & Ht' & Hb). rewrite !andb_true_iff in Hb. destruct Hb as [[[Ha' Hk'] Hp'] Hi'].
  destruct (test_true _ _ Hi) as (x & Hx & Hrun). destruct (test_true _ _ Hi') as (x' & Hx' & Hrun').
  apply String.eqb_eq in Hk, Hk'. apply Nat.eqb_eq in Hp, Hp'.
  exists s. split; [exact Hr|]. exists th, th', x, x'.
  unfold is_auto in *. split_and!; try done; try congruence; [by destruct (th_kind th)|by destruct (th_kind th')].
Qed.

(** A cancel while a launch is still dialing frees the module for another
    request, and the first launch, once it has dialed, replaces that request's
    plan with its own: the next manual step of an uninstall then runs the
    commands of an install. *)
Theorem stale_launch_plan :
  ∃ s, reachable kc s ∧
    ∃ th x, s.(em_threads) !! 3%nat = Some th ∧ th.(th_kind) = TNext
      ∧ s.(em_heap) !! th.(th_p) = Some x ∧ x.(i_Op) = "uninstall"
      ∧ "install_portal" ∈ (ps_Name <$> th.(th_plan)).
Proof.
  assert (test (trace [start ModuleCMP true; ECancel "c1" ModuleCMP; go 1; go 1;
      uninstall ModuleCMP true; go 2; go 2; go 0; go 0; ENext "c1" ModuleCMP])
    (fun s => thread_at 3 s (fun th => match th.(th_kind) with TNext => true | _ => false end
        && bool_decide ("install_portal" ∈ (ps_Name <$> th.(th_plan)))
        && install_at th.(th_p) s (fun x => (x.(i_Op) =? "uninstall")%string))) = true) as H
    by (vm_compute; reflexivity).
  destruct (trace_test _ _ H) as (s & Hr & Hb). clear H. destruct (test_true _ _ Hb) as (th & Ht & Hb').
  rewrite !andb_true_iff in Hb'. destruct Hb' as [[Hk Hp] Hi]. destruct (test_true _ _ Hi) as (x & Hx & Ho).
  exists s. split; [exact Hr|]. exists th, x. apply String.eqb_eq in Ho.
  split_and!; try done; [by destruct (th_kind th)|by apply bool_decide_eq_true in Hp].
Qed.

(** A cancel that arrives during a manual step is honoured only one section
    after the step's claim is given back: a [Next] in between starts the
    same step over. *)
Theorem cancelled_step_runs_again :
  ∃ s, reachable kc s ∧
    ∃ th th', s.(em_threads) !! 1%nat = Some th ∧ th.(th_kind) = TNext ∧ th.(th_pc) = PTerm
      ∧ s.(em_threads) !! 2%nat = Some th' ∧ th'.(th_kind) = TNext ∧ th'.(th_pc) = PRemote 0
      ∧ th.(th_p) = th'.(th_p).
Proof.
  assert (test (trace [start ModuleCMP true; go 0; go 0; ENext "c1" ModuleCMP; go 1;
      ECancel "c1" ModuleCMP; go 1; go 1; ENext "c1" ModuleCMP; go 2])
    (fun s => thread_at 1 s (fun th => match th.(th_kind), th.(th_pc) with TNext, PTerm => true | _, _ => false end
                && (th.(th_p) =? 0)%nat)
        && thread_at 2 s (fun th => match th.(th_kind), th.(th_pc) with TNext, PRemote 0 => true | _, _ => false end
                && (th.(th_p) =? 0)%nat)) = true) as H by (vm_compute; reflexivity).
  destruct (trace_test _ _ H) as (s & Hr & Hb). clear H. apply andb_true_iff in Hb as [H1 H2].
  destruct (test_true _ _ H1) as (th & Ht & Hb1). destruct (test_true _ _ H2) as (th' & Ht' & Hb2).
  apply andb_true_iff in Hb1 as [Hk1 Hp1]. apply andb_true_iff in Hb2 as [Hk2 Hp2].
  apply Nat.eqb_eq in Hp1, Hp2. exists s. split; [exact Hr|]. exists th, th'.
  destruct (th_kind th), (th_pc th); try done. destruct (th_kind th'), (th_pc th') as [| | | | |?|[|]| | | | | |]; try done.
  split_and!; try done. congruence.
Qed.
