(* ===== verification/EntKeys.v ===== *)
(** * The provider key of a run

    The advisor's inference key is a file that should live only for the run.
    Under every interleaving, once a run is no longer running and the goroutines
    that work on it are gone, its key file has been removed; and no key's path is
    ever written to the disk. *)
From S2P Require Import Prelude GoStrings EntModel EntManifest EntPlan EntRun EntInv.

Open Scope string_scope.
Open Scope list_scope.
Open Scope Z_scope.

Definition key_file (x : Install) : string := x.(i_Params).(ip_AdvisorProviderKeyFile).

(** A goroutine that leaves a run which is not running through [cleanup]. *)
Definition finishing (th : thread) : bool :=
  match th.(th_pc) with PDial _ | PCommit _ | PRollback | PCall _ => false | _ => true end.

(** Where the key of the run at [p] stands. *)
Definition kept_or_removed (s : EM) (p : nat) (x : Install) : Prop :=
  is_running x = true ∨ (p, key_file x) ∈ s.(em_keys_removed)
  ∨ ∃ t th, s.(em_threads) !! t = Some th ∧ th.(th_p) = p ∧ finishing th = true.

Definition unkeyed (disk : gmap string Install) : Prop := ∀ f x, disk !! f = Some x → key_file x = "".

Record Keys (s : EM) : Prop := {
  ks_heap p x : s.(em_heap) !! p = Some x → key_file x ≠ "" → kept_or_removed s p x;
  ks_disk : unkeyed s.(em_disk);
  ks_tid t th : s.(em_threads) !! t = Some th → (t < s.(em_tid))%nat
}.

(** ** What a section may do *)

(** [s'] comes from [s] by sections that answer for the runs in [P] only: no
    other run ends, loses a goroutine that finishes it, or changes its key. *)
Record moves (P : nat → Prop) (s s' : EM) : Prop := {
  mv_heap p x' : s'.(em_heap) !! p = Some x' →
    is_running x' = true ∨ P p
    ∨ ∃ x, s.(em_heap) !! p = Some x ∧ key_file x' = key_file x ∧ is_running x = false;
  mv_removed f : f ∈ s.(em_keys_removed) → f ∈ s'.(em_keys_removed);
  mv_threads t th : s.(em_threads) !! t = Some th → finishing th = true →
    P th.(th_p) ∨ ∃ th', s'.(em_threads) !! t = Some th' ∧ th'.(th_p) = th.(th_p) ∧ finishing th' = true;
  mv_disk : unkeyed s.(em_disk) → unkeyed s'.(em_disk);
  mv_tid : (∀ t th, s.(em_threads) !! t = Some th → (t < s.(em_tid))%nat) →
           ∀ t th, s'.(em_threads) !! t = Some th → (t < s'.(em_tid))%nat
}.

Definition none (p : nat) : Prop := False.

Lemma Keys_moves P s s' :
  Keys s → moves P s s' →
  (∀ p x', P p → s'.(em_heap) !! p = Some x' → key_file x' ≠ "" → kept_or_removed s' p x') → Keys s'.
Proof.
  intros [K1 K2 K3] [M1 M2 M3 M4 M5] HP. split.
  - intros p x' Hx' Hk. destruct (M1 p x' Hx') as [Hr|[Hp|(x & Hx & He & Hr)]]; [by left|by apply HP|].
    rewrite He in Hk. destruct (K1 p x Hx Hk) as [Hr'|[Hf|(t & th & Ht & Hp & Hf)]]; [congruence| |].
    + right; left. rewrite He. by apply M2.
    + destruct (M3 t th Ht Hf) as [Hp'|(th' & Ht' & Hp' & Hf')].
      * rewrite Hp in Hp'. apply HP; [done|done|by rewrite He].
      * right; right. exists t, th'. split_and!; congruence.
  - by apply M4.
  - by apply M5.
Qed.

Lemma moves_none s s' : Keys s → moves none s s' → Keys s'.
Proof. intros K M. eapply Keys_moves; [exact K|exact M|done]. Qed.

(** The goroutine of the run itself is still there. *)
Lemma Keys_own s s' t th p :
  Keys s → moves (eq p) s s' → s'.(em_threads) !! t = Some th → th.(th_p) = p → finishing th = true → Keys s'.
Proof.
  intros K M Ht Hp Hf. eapply Keys_moves; [exact K|exact M|]. intros q x <- _ _. right; right. by exists t, th.
Qed.

Lemma disk_from_unkeyed s s' : disk_from s s' → unkeyed s.(em_disk) → unkeyed s'.(em_disk).
Proof. intros Hd Hu f y [Hy|(p & x & _ & ->)]%Hd; [by eapply Hu|done]. Qed.

(** Nothing but the maps and the disk. *)
Lemma moves_core s s' :
  same_core s s' → s'.(em_keys_removed) = s.(em_keys_removed) → disk_from s s' → moves none s s'.
Proof.
  intros (Hh & _ & Ht & Hi) Hr Hd. split; rewrite ?Hh, ?Ht, ?Hi, ?Hr; try done; [| |by apply disk_from_unkeyed].
  - intros p x Hx. destruct (is_running x) eqn:E; [by left|right; right; by exists x].
  - intros t th Hth Hf. right. by exists th.
Qed.

Lemma moves_trans P s1 s2 s3 : moves P s1 s2 → moves P s2 s3 → moves P s1 s3.
Proof.
  intros [A1 A2 A3 A4 A5] [B1 B2 B3 B4 B5]. split; [|intros f Hf; by apply B2, A2| |intros Hu; by apply B4, A4|intros Hlt; by apply B5, A5].
  - intros p x3 H3. destruct (B1 p x3 H3) as [?|[?|(x2 & H2 & He & Hr)]]; [by left|by right; left|].
    destruct (A1 p x2 H2) as [?|[?|(x1 & H1 & He1 & Hr1)]]; [congruence|by right; left|].
    right; right. exists x1. split_and!; congruence.
  - intros t th Ht Hf. destruct (A3 t th Ht Hf) as [?|(th2 & H2 & Hp2 & Hf2)]; [by left|].
    destruct (B3 t th2 H2 Hf2) as [?|(th3 & H3 & Hp3 & Hf3)]; [left; congruence|].
    right. exists th3. split_and!; congruence.
Qed.

Lemma moves_mono (P Q : nat → Prop) s s' : (∀ p, P p → Q p) → moves P s s' → moves Q s s'.
Proof.
  intros HPQ [M1 M2 M3 M4 M5]. split; [|done| |done|done].
  - intros p x Hx. destruct (M1 p x Hx) as [?|[?|?]]; auto.
  - intros t th Ht Hf. destruct (M3 t th Ht Hf) as [?|?]; auto.
Qed.

(** ** The parts of a section *)

Lemma moves_refl P s : moves P s s.
Proof. eapply moves_mono; [|apply moves_core; [done|done|by left]]. done. Qed.

Lemma moves_maps P i c cl pl b r s : moves P s (set_maps i c cl pl b r s).
Proof. eapply moves_mono; [|apply moves_core; [done|done|by left]]. done. Qed.

Lemma moves_Save P b p s : moves P s (Save b p s).
Proof.
  eapply moves_mono; [|apply moves_core; [apply Save_core| |apply Save_disk]]; [done|].
  unfold Save. by repeat case_match.
Qed.

Lemma cascade_removed p s : (cascadeAfterUninstall p s).(em_keys_removed) = s.(em_keys_removed).
Proof.
  unfold cascadeAfterUninstall. repeat case_match; try done.
  induction (map_to_list _) as [|e l IH]; [done|]. cbn [foldr]. unfold drop_dependent. by case_match.
Qed.

Lemma cascade_keeps_threads p s : (cascadeAfterUninstall p s).(em_threads) = s.(em_threads).
Proof. apply cascade_frame. Qed.

Lemma moves_cascade P p s : moves P s (cascadeAfterUninstall p s).
Proof.
  eapply moves_mono; [|apply moves_core; [apply cascade_frame|apply cascade_removed|apply cascade_frame]]. done.
Qed.

Lemma moves_ends P ca cl kr s : s.(em_keys_removed) ⊆ kr → moves P s (set_ends ca cl kr s).
Proof.
  intros Hk. split; cbn; try done.
  - intros p x Hx. destruct (is_running x) eqn:E; [by left|right; right; by exists x].
  - intros t th Ht Hf. right. by exists th.
Qed.

(** An update that keeps the key, and the run running, unless it is answered for. *)
Definition harmless (f : Install → Install) : Prop :=
  ∀ x, key_file (f x) = key_file x ∧ (is_running x = true → is_running (f x) = true).

Lemma moves_upd (P : nat → Prop) p f s : P p ∨ harmless f → moves P s (upd p f s).
Proof.
  intros Hr. split; cbn; try done.
  - intros q y. destruct (decide (p = q)) as [<-|Hne].
    + rewrite lookup_alter_eq. intros (x & Hx & ->)%fmap_Some. destruct Hr as [?|Hr]; [by right; left|].
      destruct (Hr x) as [Hk Hrun], (is_running (f x)) eqn:E; [by left|]. right; right. exists x. split_and!; [done|done|].
      destruct (is_running x); [by discriminate Hrun|done].
    + rewrite lookup_alter_ne by done. intros Hx. destruct (is_running y) eqn:E; [by left|right; right; by exists y].
  - intros t th Ht Hf. right. by exists th.
Qed.

Lemma moves_heap_same P s s' :
  s'.(em_heap) = s.(em_heap) → s'.(em_keys_removed) = s.(em_keys_removed) → s'.(em_disk) = s.(em_disk) →
  (∀ t th, s.(em_threads) !! t = Some th → finishing th = true →
    P th.(th_p) ∨ ∃ th', s'.(em_threads) !! t = Some th' ∧ th'.(th_p) = th.(th_p) ∧ finishing th' = true) →
  ((∀ t th, s.(em_threads) !! t = Some th → (t < s.(em_tid))%nat) →
   ∀ t th, s'.(em_threads) !! t = Some th → (t < s'.(em_tid))%nat) →
  moves P s s'.
Proof.
  intros Hh Hr Hd Ht Hi. split; rewrite ?Hh, ?Hr, ?Hd; try done.
  intros p x Hx. destruct (is_running x) eqn:E; [by left|right; right; by exists x].
Qed.

(** The goroutine [t] goes on to a section that finishes its run, or it did not
    finish one. *)
Lemma moves_goto P t c s th :
  s.(em_threads) !! t = Some th → (finishing (at_pc c th) = true ∨ finishing th = false ∨ P th.(th_p)) →
  moves P s (goto t c s).
Proof.
  intros Ht Hc. apply moves_heap_same; try done; cbn.
  - intros t' th' Ht' Hf. destruct (decide (t = t')) as [<-|Hne].
    + rewrite Ht in Ht'. injection Ht' as <-. rewrite lookup_alter_eq, Ht. cbn.
      destruct Hc as [Hc|[Hc|Hc]]; [right; by eexists|congruence|by left].
    + rewrite lookup_alter_ne by done. right. by exists th'.
  - intros Hlt t' th'. destruct (decide (t = t')) as [<-|Hne]; [intros _; by eapply Hlt|].
    rewrite lookup_alter_ne by done. apply Hlt.
Qed.

Lemma moves_stop P t s th :
  s.(em_threads) !! t = Some th → finishing th = false ∨ P th.(th_p) → moves P s (stop t s).
Proof.
  intros Ht Hc. apply moves_heap_same; try done; cbn.
  - intros t' th' Ht' Hf. destruct (decide (t = t')) as [<-|Hne].
    + rewrite Ht in Ht'. injection Ht' as <-. destruct Hc as [Hc|Hc]; [congruence|by left].
    + rewrite lookup_delete_ne by done. right. by exists th'.
  - intros Hlt t' th' [_ Ht']%lookup_delete_Some. by eapply Hlt.
Qed.

Lemma moves_spawn P th s :
  (∀ t th, s.(em_threads) !! t = Some th → (t < s.(em_tid))%nat) → moves P s (spawn th s).
Proof.
  intros Hlt. apply moves_heap_same; try done; cbn.
  - intros t' th' Ht' Hf. right. exists th'. rewrite lookup_insert_ne; [done|]. apply Hlt in Ht'. lia.
  - intros _ t' th' [[<- <-]|[_ Ht']]%lookup_insert_Some; [lia|]. apply Hlt in Ht'. lia.
Qed.

Lemma moves_put P t th th' s :
  s.(em_threads) !! t = Some th → finishing th = false → moves P s (put t th' s).
Proof.
  intros Ht Hf. apply moves_heap_same; try done; cbn.
  - intros t' th1 Ht' Hf'. destruct (decide (t = t')) as [<-|Hne]; [congruence|].
    right. exists th1. by rewrite lookup_insert_ne.
  - intros Hlt t' th1 [[<- <-]|[_ Ht']]%lookup_insert_Some; by eapply Hlt.
Qed.

Lemma moves_new P p x n s : is_running x = true → moves P s (set_next n (set_heap (<[p := x]> s.(em_heap)) s)).
Proof.
  intros Hx. split; cbn; try done.
  - intros q y [[<- <-]|[_ Hy]]%lookup_insert_Some; [by left|].
    destruct (is_running y) eqn:E; [by left|right; right; by exists y].
  - intros t th Ht Hf. right. by exists th.
Qed.

(** ** Every transition *)

Lemma Keys_launch c md vip now p manual airgap lab ws mf op m s :
  Keys s → Keys (launch c md vip now p manual airgap lab ws mf op m s).1.
Proof.
  intros K. unfold launch. destruct (match _ ≫= _ with Some ex => _ | None => None end); [done|]. cbn [fst].
  eapply moves_none; [exact K|]. eapply moves_trans; [|apply moves_spawn, (ks_tid s K)].
  eapply moves_trans; [|apply moves_maps]. by apply moves_new.
Qed.

Lemma Keys_Next c md s : Keys s → Keys (Next c md s).1.
Proof.
  intros K. unfold Next. repeat case_match; try done. cbn [fst]. eapply moves_none; [exact K|].
  eapply moves_trans; [apply moves_maps|apply moves_spawn, (ks_tid s K)].
Qed.

Lemma Keys_Cancel c md s : Keys s → Keys (Cancel c md s).
Proof.
  intros K. unfold Cancel. repeat case_match; try done.
  - eapply moves_none; [exact K|]. apply moves_spawn, (ks_tid s K).
  - eapply moves_none; [exact K|]. apply moves_maps.
  - match goal with H : em_installs s !! _ = Some ?p |- _ => eapply (Keys_own s _ s.(em_tid) _ p) end;
      [exact K| |cbn; by rewrite lookup_insert_eq|done|done].
    eapply moves_trans; [by apply moves_upd; left|apply moves_spawn, (ks_tid s K)].
Qed.

Lemma harmless_steps g : harmless (fun x => set_i_Steps (g x) x).
Proof. by intros x. Qed.

(** A section of the goroutine [t] of the run at [p], which stays. *)
Lemma Keys_section s s1 t th c :
  Keys s → s.(em_threads) !! t = Some th → moves (eq th.(th_p)) s s1 → s1.(em_threads) = s.(em_threads) →
  finishing (at_pc c th) = true → Keys (goto t c s1).
Proof.
  intros K Ht M Hs Hc. eapply (Keys_own s _ t (at_pc c th) th.(th_p)); [exact K| | |done|exact Hc].
  - eapply moves_trans; [exact M|]. eapply moves_goto; [by rewrite Hs|by left].
  - cbn. by rewrite lookup_alter_eq, Hs, Ht.
Qed.

Lemma Keys_exec_begin t th idx a s s' :
  Keys s → s.(em_threads) !! t = Some th → exec_begin t th idx a s = Some s' → Keys s'.
Proof.
  intros K Ht. unfold exec_begin. destruct (em_heap s !! _); [|done]. cbn.
  destruct (th_plan th !! _); [|done]. cbn. destruct (i_Steps _ !! _); [|done]. cbn. intros [= <-].
  eapply Keys_section; [exact K|exact Ht| |by rewrite Save_threads|done].
  eapply moves_trans; [apply moves_upd; left; done|apply moves_Save].
Qed.

Lemma Keys_exec_end t th idx a s s' :
  Keys s → s.(em_threads) !! t = Some th → exec_end t th idx a s = Some s' → Keys s'.
Proof.
  intros K Ht. unfold exec_end. destruct (em_heap s !! _); [|done]. cbn. destruct (th_plan th !! _); [|done]. cbn.
  destruct (end_step _ _ _ _ _ _) as [[y err]|]; [|done]. cbn. intros [= <-].
  eapply Keys_section; [exact K|exact Ht| | |by destruct (th_kind th), err].
  - eapply moves_trans; [apply moves_upd; left; done|]. eapply moves_trans; [apply moves_Save|].
    destruct err; [apply moves_refl|apply moves_cascade].
  - destruct err; [by rewrite Save_threads|]. by rewrite cascade_keeps_threads, Save_threads.
Qed.

Lemma Keys_run_advance t th a s s' :
  Keys s → s.(em_threads) !! t = Some th → run_advance t th a s = Some s' → Keys s'.
Proof.
  intros K Ht. unfold run_advance. destruct (em_heap s !! _); [|done]. cbn. destruct (negb _); intros [= <-].
  - by eapply Keys_section; [exact K|exact Ht|apply moves_refl|..].
  - eapply Keys_section; [exact K|exact Ht| |by rewrite Save_threads|done].
    eapply moves_trans; [apply moves_upd; left; done|apply moves_Save].
Qed.

Lemma Keys_run_final t th a s : Keys s → s.(em_threads) !! t = Some th → Keys (run_final t th a s).
Proof.
  intros K Ht. unfold run_final. eapply Keys_section; [exact K|exact Ht| | |done].
  - eapply moves_trans; [apply moves_upd; left; done|]. eapply moves_trans; [apply moves_Save|apply moves_cascade].
  - by rewrite cascade_keeps_threads, Save_threads.
Qed.

Lemma Keys_next_end t th err a s s' :
  Keys s → s.(em_threads) !! t = Some th → next_end t th err a s = Some s' → Keys s'.
Proof.
  intros K Ht. unfold next_end. cbn [em_heap set_cancelReq set_busy set_maps].
  destruct (em_heap s !! _); [|done]. cbn [mbind option_bind]. set (s1 := set_cancelReq _ _). set (s2 := if _ && _ then _ else s1).
  assert (moves (eq th.(th_p)) s s2 ∧ s2.(em_threads) = s.(em_threads)) as [M Ht2].
  { assert (moves (eq th.(th_p)) s s1) as M1 by (eapply moves_trans; apply moves_maps). unfold s2.
    destruct (_ && _); [|done]. rewrite Save_threads. split; [|done].
    eapply moves_trans; [exact M1|]. eapply moves_trans; [apply moves_upd; left; done|apply moves_Save]. }
  clearbody s2. destruct (em_heap s2 !! th_p th) as [x|] eqn:Hx; [|done]. cbn [mbind option_bind]. intros [= <-].
  destruct (bool_decide _); [by eapply Keys_section|].
  destruct (is_running x) eqn:Hr; cbn [negb]; [|by eapply Keys_section].
  eapply Keys_moves; [exact K|eapply moves_trans; [exact M|by eapply moves_stop; [rewrite Ht2|right]]|].
  intros p x' <- Hx' _. cbn in Hx'. rewrite Hx in Hx'. injection Hx' as <-. by left.
Qed.

Lemma cleanup_spec k p b c s :
  (cleanup k p b c s).(em_heap) = s.(em_heap) ∧ (cleanup k p b c s).(em_threads) = s.(em_threads)
  ∧ ∀ x, s.(em_heap) !! p = Some x → key_file x ≠ "" → (p, key_file x) ∈ (cleanup k p b c s).(em_keys_removed).
Proof.
  unfold cleanup, close_client. destruct b, c, (em_heap s !! p) as [x|] eqn:Hx; cbn; rewrite ?Hx; cbn;
    destruct (bool_decide _); cbn; repeat (destruct (is_empty _) eqn:He; cbn);
    (split_and!; [done|done|]); intros y [= <-] Hk; first [by left|by apply is_empty_true in He].
Qed.

Lemma Keys_launch_commit t th k p plan saved s :
  Keys s → s.(em_threads) !! t = Some th → finishing th = false → Keys (launch_commit t k p plan saved s).
Proof.
  intros K Ht Hf. unfold launch_commit. set (s1 := set_plans _ _).
  assert (moves none s s1) as M1.
  { do 2 (eapply moves_trans; [|apply moves_maps]). by apply moves_upd; right. }
  assert (s1.(em_threads) = s.(em_threads)) as Ht1 by done. clearbody s1. rewrite <- Ht1 in Ht.
  assert (moves none s (Save true p s1)) as M2 by (eapply moves_trans; [exact M1|apply moves_Save]).
  assert ((Save true p s1).(em_threads) !! t = Some th) as Ht2 by by rewrite Save_threads.
  destruct saved; [|eapply moves_none, moves_trans; [exact K|exact M1|by eapply moves_put]].
  destruct (em_heap _ !! p) as [x|]; [|by eapply moves_none]. destruct (i_Manual x).
  - eapply moves_none, moves_trans; [exact K|exact M2|]. by eapply moves_stop; [|left].
  - assert (moves none s (stop t (set_cancels (<[k := p]> (Save true p s1).(em_cancels)) (Save true p s1)))) as M3.
    { eapply moves_trans; [exact M2|]. eapply moves_trans; [apply moves_maps|]. by eapply moves_stop; [|left]. }
    eapply moves_none, moves_trans; [exact K|exact M3|]. apply moves_spawn. apply (ks_tid _ (moves_none _ _ K M3)).
Qed.

Lemma rollback_moves k p c s : moves none s (rollback k p c s) ∧ (rollback k p c s).(em_threads) = s.(em_threads).
Proof.
  unfold rollback, close_client. set (s1 := if bool_decide _ then _ else s).
  assert (moves none s s1 ∧ s1.(em_threads) = s.(em_threads)) as [M1 H1].
  { unfold s1. destruct (bool_decide _); [split; [apply moves_maps|done]|split; [apply moves_refl|done]]. }
  destruct c; [|done]. split; [|done]. eapply moves_trans; [exact M1|]. by apply moves_ends.
Qed.

(** [cleanup] answers for the run it cleans up after. *)
Lemma Keys_clean t th b s :
  Keys s → s.(em_threads) !! t = Some th → Keys (stop t (cleanup th.(th_k) th.(th_p) b th.(th_client) s)).
Proof.
  intros K Ht. destruct (cleanup_spec th.(th_k) th.(th_p) b th.(th_client) s) as (Hh & Hts & Hkey).
  eapply (Keys_moves (eq th.(th_p))); [exact K| |].
  - eapply moves_trans; [|by eapply moves_stop; [rewrite Hts|right]].
    unfold cleanup, close_client. destruct b, th.(th_client); repeat case_match;
      repeat first [apply moves_refl|eapply moves_trans; [|apply moves_maps]|eapply moves_trans; [|apply moves_ends; set_solver]].
  - intros p x <- Hx Hk. right; left. cbn in Hx |- *. rewrite Hh in Hx. by apply Hkey.
Qed.

Section Manager.
Variable keycloak_b64 : string.

Lemma Keys_thread_step t a s s' : Keys s → thread_step keycloak_b64 t a s = Some s' → Keys s'.
Proof.
  intros K. unfold thread_step. destruct (em_threads s !! t) as [th|] eqn:Ht; [|done]. cbn.
  destruct (th_pc th) as [m|m| | | |idx|idx| | |err|c| |] eqn:Hpc;
    assert (finishing th = match th_pc th with PDial _ | PCommit _ | PRollback | PCall _ => false | _ => true end) as Hf by done;
    rewrite Hpc in Hf.
  - intros [= <-]. eapply moves_none; [exact K|]. eapply moves_goto; [done|by right; left].
  - destruct (em_heap s !! _); [|done]. cbn. intros [= <-]. by eapply Keys_launch_commit.
  - intros [= <-]. destruct (rollback_moves th.(th_k) th.(th_p) th.(th_client) s) as [M Hts].
    eapply moves_none, moves_trans; [exact K|exact M|]. by eapply moves_stop; [rewrite Hts|left].
  - intros [= <-]. eapply Keys_section; [exact K|exact Ht|apply moves_refl|done|]. by destruct (bool_decide _).
  - destruct (em_heap s !! _); [|done]. cbn. intros [= <-]. eapply Keys_section; [exact K|exact Ht|apply moves_refl|done|].
    by destruct (_ <=? _)%nat.
  - by apply Keys_exec_begin.
  - by apply Keys_exec_end.
  - by apply Keys_run_advance.
  - intros [= <-]. by apply Keys_run_final.
  - by apply Keys_next_end.
  - intros [= <-]. eapply moves_none, moves_trans; [exact K| |by eapply moves_stop; [|left]]. by apply moves_ends.
  - intros [= <-]. eapply Keys_section; [exact K|exact Ht| |by unfold terminate; rewrite Save_threads|done].
    eapply moves_trans; [by apply moves_upd; left|apply moves_Save].
  - intros [= <-]. by apply Keys_clean.
Qed.

(** A restart finds no key: the paths are not on the disk. *)
Lemma Keys_rehydrate saved disk : unkeyed disk → Keys (rehydrate saved disk).
Proof.
  intros Hu. set (Q := fun s : EM => (∀ p x, s.(em_heap) !! p = Some x → key_file x = "") ∧ unkeyed s.(em_disk) ∧ s.(em_threads) = ∅).
  assert (Forall (fun x => key_file x = "") (List_disk disk)) as Hl.
  { apply Forall_forall. intros x Hx%list_elem_of_In. unfold List_disk in Hx. apply filter_In in Hx as [Hx _].
    apply list_elem_of_In, list_elem_of_fmap in Hx as ([f y] & -> & Hy). apply elem_of_map_to_list in Hy. by eapply Hu. }
  assert (Q (rehydrate saved disk)) as (H1 & H2 & H3).
  { unfold rehydrate. assert (Q (empty_EM disk)) as HQ by (split_and!; [intros p x; cbn; by rewrite lookup_empty|done|done]).
    revert HQ. generalize (empty_EM disk). induction Hl as [|x l Hx Hl IH]; intros s HQ; [done|]. cbn [foldl]. apply IH.
    destruct HQ as (Q1 & Q2 & Q3). split_and!.
    - intros p y. unfold load_one. cbn [em_heap set_installs set_maps].
      destruct (is_running x) eqn:Er; [rewrite Save_heap|]; cbn;
        (intros [[_ <-]|[_ Hy]]%lookup_insert_Some; [unfold interrupted; by rewrite Er|by eapply Q1]).
    - unfold load_one. cbn [em_disk set_installs set_maps]. destruct (is_running x); [|done].
      eapply disk_from_unkeyed; [apply Save_disk|done].
    - by rewrite load_one_threads. }
  split; [intros p x Hx Hk; by rewrite (H1 p x Hx) in Hk|done|]. intros t th Ht. by rewrite H3, lookup_empty in Ht.
Qed.

Lemma Keys_step s e s' : Keys s → estep keycloak_b64 s e = Some s' → Keys s'.
Proof.
  intros K. destruct e; cbn.
  - intros [= <-]. by apply Keys_launch.
  - intros [= <-]. by apply Keys_launch.
  - intros [= <-]. by apply Keys_Next.
  - intros [= <-]. by apply Keys_Cancel.
  - by apply Keys_thread_step.
  - unfold on_line. destruct (em_threads s !! t); [|done]. cbn. destruct (th_pc _); try done. intros [= <-].
    eapply moves_none; [exact K|]. by apply moves_upd; right.
  - intros [= <-]. apply Keys_rehydrate, (ks_disk s K).
Qed.

Lemma reachable_Keys s : reachable keycloak_b64 s → Keys s.
Proof.
  intros H. induction H as [|s e s' H IH Hs]; [|by eapply Keys_step].
  split; [intros p x|intros f x|intros t th]; cbn; by rewrite lookup_empty.
Qed.

(** C29. A provider key does not outlive its run.  Whatever starts, manual steps,
    cancels and goroutines interleave: once a run is no longer running and none of
    the goroutines that work on it is left, its own cleanup has removed the key
    file it was started with; and no record on the disk names a key file, so that a
    restart of the driver knows of none. *)
Theorem key_ends_with_run s p x :
  reachable keycloak_b64 s → s.(em_heap) !! p = Some x → key_file x ≠ "" →
  x.(i_State) ≠ "running" → (∀ t th, s.(em_threads) !! t = Some th → th.(th_p) ≠ p) →
  (p, key_file x) ∈ s.(em_keys_removed) ∧ ∀ f y, s.(em_disk) !! f = Some y → key_file y = "".
Proof.
  intros [K1 K2 _]%reachable_Keys Hx Hk Hs Ht. split; [|exact K2].
  destruct (K1 p x Hx Hk) as [Hr|[Hr|(t & th & Hth & Hp & _)]]; [|done|by destruct (Ht t th)].
  unfold is_running in Hr. by apply String.eqb_eq in Hr.
Qed.
End Manager.

(** ** Concrete runs *)

From S2P Require Import Secret Storage EntApi EntProps.

Module Demo.
#[local] Existing Instance plain_aead.

Definition manual_req (providerKey : string) : StartReq :=
  mkStartReq ModuleAdvisor (EntApi.Demo.params "" "" "cube-advisor-1.2.0.pigz") true false "" "" false " 10.32.10.140 " providerKey.

Definition begun (providerKey : string) (w : ent) : ent := (EntApi.Demo.start_ (manual_req providerKey) w).1.
Definition up (t : nat) : event := EThread t EntApi.Demo.up.
Definition after (w : ent) (es : list event) : ent := default w (EntApi.Demo.steps w es).
Definition file (w : ent) : option string := w.(en_files) !! EntApi.Demo.key_file.
Definition run_state (w : ent) : option string := i_State <$> Status "lab" ModuleAdvisor w.(en_mgr).

(** A manual run, started and cancelled; its cleanup is still to come. *)
Definition cancelled : ent :=
  after (begun "sk-1" EntApi.Demo.w0) [up 0; up 0; ECancel "lab" ModuleAdvisor; up 1].

(** The cleanup alone takes the key with it. *)
Example cleanup_takes_key :
  (file cancelled, run_state cancelled) = (Some "sk-1", Some "cancelled") ∧ file (after cancelled [up 1]) = None.
Proof. by vm_compute. Qed.

(** A run cancelled by hand reads "cancelled" before its cleanup, so the next
    run may start in between; both file their key under the cluster's one name,
    and the first run's cleanup removes the second run's key. *)
Example late_cleanup_steals_key :
  let w := begun "sk-2" cancelled in
  (file w, run_state w) = (Some "sk-2", Some "running")
  ∧ let w := after w [up 1] in
    (file w, run_state w, (fun x => ip_AdvisorProviderKeyFile (i_Params x)) <$> Status "lab" ModuleAdvisor w.(en_mgr))
    = (None, Some "running", Some EntApi.Demo.key_file).
Proof. by vm_compute. Qed.

(** The same cancelled run in the manager's own steps. *)
Definition keyed : InstallParams := set_key_file EntApi.Demo.key_file params_ex.
Definition cancelled_run : list event :=
  [EStart "lab" ModuleAdvisor "10.0.0.1" "now" keyed true false false [] None;
   EntProps.go 0; EntProps.go 0; ECancel "lab" ModuleAdvisor; EntProps.go 1; EntProps.go 1].
End Demo.

(** The hypotheses of [key_ends_with_run] hold once the cancelled run has been
    cleaned up. *)
Lemma key_ends_with_run_witness :
  ∃ s x, reachable kc s ∧ s.(em_heap) !! 0%nat = Some x ∧ key_file x = EntApi.Demo.key_file
         ∧ x.(i_State) = "cancelled" ∧ (0%nat, key_file x) ∈ s.(em_keys_removed).
Proof.
  assert (test (trace Demo.cancelled_run) (fun s => install_at 0 s (fun x =>
    (key_file x =? EntApi.Demo.key_file)%string && (x.(i_State) =? "cancelled")%string)
    && bool_decide (s.(em_threads) = ∅)) = true) as H by (vm_compute; reflexivity).
  destruct (trace_test _ _ H) as (s & Hr & Hb). clear H. apply andb_true_iff in Hb as [Hb Ht].
  destruct (test_true _ _ Hb) as (x & Hx & Hc). apply andb_true_iff in Hc as [Hk Hs].
  apply String.eqb_eq in Hk, Hs. apply bool_decide_eq_true in Ht.
  exists s, x. split_and!; [exact Hr|exact Hx|exact Hk|exact Hs|].
  apply (key_ends_with_run kc s 0%nat x Hr Hx).
  - rewrite Hk. discriminate.
  - rewrite Hs. discriminate.
  - intros t th Hth. rewrite Ht, lookup_empty in Hth. discriminate.
Defined.
