(* ===== verification/EntRemote.v ===== *)
(** * The work of a step on the cluster (internal/enterprise/manager.go)

    Pushing and importing artifacts, and creating the App-Framework and waiting
    for it, over the SSH client (package clusterssh) as an interface: running a
    command gives its output lines and an error, pushing a file an error, and
    both may change the cluster.  Each function returns what it let the
    operator see and did, in order. *)
From S2P Require Import Prelude GoStrings EntModel EntPlan EntRun.
From Stdlib Require Import Ascii.

Open Scope string_scope.
Open Scope list_scope.
Open Scope Z_scope.

(** ** The client, and functions over it *)

(** An error's text, and whether it is [ErrConnectionLost]. *)
Definition goerr : Type := string * bool.
Definition errorf (msg : string) : goerr := (msg, false).

(** Times in nanoseconds. *)
Class Cluster (W : Type) : Type := {
  cl_run : string → W → list string * option goerr * W;
  cl_push : string → string → W → option goerr * W;
  cl_wait : Z → W → option goerr * W;   (** [time.After], or the context's error *)
  cl_now : W → Z
}.

(** Time passes; a wait that is not cut short takes as long as it says. *)
Class ClusterLaws (W : Type) `{Cluster W} : Prop := {
  run_clock cmd w : cl_now w <= cl_now (cl_run cmd w).2;
  wait_clock d w : (cl_wait d w).1 = None → cl_now w + d <= cl_now (cl_wait d w).2
}.

Inductive obs : Type :=
  | OLine (l : string)                  (** a line shown to the operator *)
  | ORun (cmd : string) (ok : bool)     (** a command that ended *)
  | OPush (src dst : string) (ok : bool).

Definition M (W A : Type) : Type := W → list obs * A * W.
Definition mret {W A} (a : A) : M W A := fun w => ([], a, w).
Definition mlet {W A B} (m : M W A) (f : A → M W B) : M W B :=
  fun w => let '(o, a, w) := m w in let '(o', b, w) := f a w in (o ++ o', b, w).

Declare Scope remote_scope.
Delimit Scope remote_scope with remote.
Notation "'let!' x := m 'in' k" := (mlet m (fun x => k))
  (at level 10, x binder, m at level 100, k at level 200) : remote_scope.
Open Scope remote_scope.

Section Remote.
Context {W : Type} `{Cluster W}.
(** [os.Stat] on the driver: the size of a file. *)
Variable fs_size : string → option Z.

Definition onLine (l : string) : M W unit := fun w => ([OLine l], tt, w).

(** [client.Run] with a callback that keeps the lines to itself. *)
Definition run (cmd : string) : M W (list string * option goerr) :=
  fun w => let '(ls, e, w) := cl_run cmd w in
           ([ORun cmd (match e with None => true | _ => false end)], (ls, e), w).

(** [client.Run] that shows each line. *)
Definition run_shown (cmd : string) : M W (list string * option goerr) :=
  fun w => let '(ls, e, w) := cl_run cmd w in
           ((OLine <$> ls) ++ [ORun cmd (match e with None => true | _ => false end)], (ls, e), w).

Definition push (src dst : string) : M W (option goerr) :=
  fun w => let '(e, w) := cl_push src dst w in
           ([OPush src dst (match e with None => true | _ => false end)], e, w).

Definition now : M W Z := fun w => ([], cl_now w, w).
Definition wait (d : Z) : M W (option goerr) := fun w => let '(e, w) := cl_wait d w in ([], e, w).

(** The trimmed, non-empty lines. *)
Definition tidy (ls : list string) : list string :=
  List.filter (fun s => negb (is_empty s)) (TrimSpace <$> ls).

Definition passes (e : option goerr) : bool := match e with None => true | _ => false end.

(** ** Importing *)

Definition show_cmd (image : string) : string :=
  "source /etc/admin-openrc.sh && openstack image show " +:+ image.

Definition remoteFileSize (p : string) : M W Z :=
  let! r := run ("stat -c %s " +:+ Quote p +:+ " 2>/dev/null || true") in
  mret match tidy r.1 with
       | [] => -1
       | x :: _ => let '(n, ok) := ParseInt x in if ok : bool then n else -1
       end.

(** The checks before an import: whether it is all there already. *)
Definition scp_check_image (ps : plannedStep) : M W bool :=
  if is_empty ps.(ps_ImageName) then mret false
  else
    let! _ := onLine ("Checking if image " +:+ Quote ps.(ps_ImageName) +:+ " already exists…") in
    let! r := run (show_cmd ps.(ps_ImageName)) in
    if passes r.2 then
      let! _ := onLine ("Image " +:+ Quote ps.(ps_ImageName) +:+ " already exists — skipping import.") in
      mret true
    else
      let! _ := onLine ("Image " +:+ Quote ps.(ps_ImageName) +:+ " not found — importing.") in
      mret false.

Definition scp_check_present (ps : plannedStep) : M W bool :=
  if is_empty ps.(ps_Present) then mret false
  else
    let file := Base ps.(ps_LocalPath) in
    let! _ := onLine ("Checking whether " +:+ file +:+ " is already imported…") in
    let! r := run ps.(ps_Present) in
    if passes r.2 then
      let! _ := onLine ("Everything " +:+ file +:+ " carries is already on the cluster — skipping.") in
      mret true
    else mret false.

Definition scp_upload (ps : plannedStep) : M W (option goerr) :=
  let file := Base ps.(ps_LocalPath) in
  let upload :=
    let! _ := onLine ("Uploading " +:+ file +:+ " to " +:+ ps.(ps_RemotePath) +:+ "…") in
    push ps.(ps_LocalPath) ps.(ps_RemotePath) in
  match fs_size ps.(ps_LocalPath) with
  | Some size =>
      let! n := remoteFileSize (ps.(ps_RemotePath) +:+ "/" +:+ file) in
      if n =? size then
        let! _ := onLine (file +:+ " already staged on the cluster — skipping upload.") in mret None
      else upload
  | None => upload
  end.

Definition scp_confirm_present (ps : plannedStep) : M W (option goerr) :=
  if is_empty ps.(ps_Present) then mret None
  else
    let file := Base ps.(ps_LocalPath) in
    let! r := run ps.(ps_Present) in
    if passes r.2 then let! _ := onLine (file +:+ " imported and confirmed.") in mret None
    else mret (Some (errorf ("import of " +:+ file
      +:+ " finished but its images are not all on the cluster (check the command output)"))).

Definition scp_confirm_image (ps : plannedStep) : M W (option goerr) :=
  if is_empty ps.(ps_ImageName) then mret None
  else
    let! _ := onLine ("Verifying image " +:+ Quote ps.(ps_ImageName) +:+ " was created…") in
    let! r := run (show_cmd ps.(ps_ImageName)) in
    if passes r.2 then
      let! _ := onLine ("Image " +:+ Quote ps.(ps_ImageName) +:+ " confirmed.") in mret None
    else mret (Some (errorf ("import finished but image " +:+ Quote ps.(ps_ImageName)
      +:+ " was not created (check the command output)"))).

(** [scpRun]: whether it skipped, and the error. *)
Definition scpRun (ps : plannedStep) : M W (bool * option goerr) :=
  let! there := scp_check_image ps in
  if there : bool then mret (true, None) else
  let! there := scp_check_present ps in
  if there : bool then mret (true, None) else
  let! e := scp_upload ps in
  match e with
  | Some e => mret (false, Some e)
  | None =>
      let verb := if is_empty ps.(ps_ImageName) then "Installing" else "Importing" in
      let! _ := onLine (verb +:+ " " +:+ Base ps.(ps_LocalPath) +:+ "…") in
      let! r := run_shown ps.(ps_Cmd) in
      match r.2 with
      | Some e => mret (false, Some e)
      | None =>
          let! e := scp_confirm_present ps in
          match e with
          | Some e => mret (false, Some e)
          | None => let! e := scp_confirm_image ps in mret (false, e)
          end
      end
  end.

(** ** The App-Framework *)

Definition second : Z := 10 ^ 9.
Definition frameworkReadyTimeout : Z := 3600 * second.
Definition frameworkPollInterval : Z := 30 * second.
Definition frameworkRegisterGrace : Z := 120 * second.
Definition registryReadyTimeout : Z := 300 * second.
Definition registryPollInterval : Z := 15 * second.

(** [Duration.Round(time.Second)], in seconds, and [Duration.String] of whole
    seconds. *)
Definition round_seconds (d : Z) : Z := (d + second / 2) / second.
Definition seconds_string (t : Z) : string :=
  if 3600 <=? t then Itoa (t / 3600) +:+ "h" +:+ Itoa (t / 60 mod 60) +:+ "m" +:+ Itoa (t mod 60) +:+ "s"
  else if 60 <=? t then Itoa (t / 60) +:+ "m" +:+ Itoa (t mod 60) +:+ "s"
  else Itoa t +:+ "s".
Definition duration (d : Z) : string := seconds_string (d / second).

Inductive fw_state := FwReady | FwWorking | FwError.

#[export] Instance fw_state_eq_dec : EqDecision fw_state.
Proof. solve_decision. Defined.

Definition frameworkStates (s : string) : option fw_state :=
  if (s =? "active")%string then Some FwReady
  else if contains ["updating"; "provisioning"; "creating"; "reconciling"; "pending"; "waiting"] s
  then Some FwWorking
  else if contains ["error"; "failed"; "unavailable"; "removing"] s then Some FwError
  else None.

(** The first row that names the framework decides. *)
Fixpoint status_of_rows (name : string) (ls : list string) : string * bool :=
  match ls with
  | [] => ("", false)
  | l :: ls =>
      let fields := Fields l in
      if contains fields name then
        match find (fun f => match frameworkStates (ToLower f) with Some _ => true | None => false end) fields with
        | Some f => (ToLower f, true)
        | None => ("", true)
        end
      else status_of_rows name ls
  end.

Definition list_cmd : string := "hex_cli -c app -c framework_list".

Definition frameworkStatus (name : string) : M W (string * bool) :=
  let! r := run list_cmd in mret (status_of_rows name r.1).

Definition statusLabel (st : string) : string := if is_empty st then "unknown" else st.

Definition frameworkKubectl : string := "KUBECONFIG=/etc/rancher/k3s/k3s.yaml kubectl".

Definition ingressLBName (name : string) : string :=
  "kube_service_" +:+ name +:+ "_kube-system_ingress-lb".

Definition registry_host (name : string) : string := name +:+ ".registry.cubecos.com".

Definition registry_cmd (name lbip : string) : string :=
  "curl -sk -o /dev/null -w '%{http_code}' --resolve " +:+ registry_host name +:+ ":443:" +:+ lbip
  +:+ " --max-time 15 https://" +:+ registry_host name +:+ "/api/v2.0/systeminfo 2>/dev/null".

Definition registryProbe (name lbip : string) : M W string :=
  let! r := run (registry_cmd name lbip) in mret (Join (TrimSpace <$> r.1) "").

Definition frameworkPostNodeProgress (name lbip : string) : M W string :=
  let! lb := run ("source /etc/admin-openrc.sh && openstack loadbalancer list --name "
    +:+ ingressLBName name +:+ " -f value -c provisioning_status 2>/dev/null") in
  let parts := match tidy lb.1 with x :: _ => ["ingress LB " +:+ x] | [] => ["ingress LB not created yet"] end in
  let! parts :=
    (if is_empty lbip then mret parts
     else let! code := registryProbe name lbip in mret (parts ++ ["registry HTTP " +:+ code])) in
  let! pods := run (dq "KUBECONFIG=/opt/appfw/kubeconfig kubectl get pods -A --no-headers 2>/dev/null | grep -viE 'running|completed' | awk '{print $2@=@$4}' | head -3") in
  let pending := tidy pods.1 in
  mret (Join (parts ++ (if bool_decide (pending = []) then [] else ["pods pending: " +:+ Join pending ", "])) "; ").

(** The phases other than Running, counted, each once, in the order of their
    printed form. *)
Definition count_of (p : string) (l : list string) : Z := Z.of_nat (length (List.filter (String.eqb p) l)).
Definition phase_counts (phases : list string) : list string :=
  SortStrings
    ((fun p => Itoa (count_of p phases) +:+ " " +:+ p)
     <$> List.filter (fun p => negb (p =? "Running")%string) (remove_dups phases)).

Definition machines_cmd (name tail : string) : string :=
  frameworkKubectl +:+ " get machines.cluster.x-k8s.io -A -l cluster.x-k8s.io/cluster-name=" +:+ name
  +:+ " " +:+ tail +:+ " 2>/dev/null".

Definition frameworkProgress (name lbip : string) : M W string :=
  let! r := run (machines_cmd name "--no-headers -o custom-columns=P:.status.phase") in
  let phases := List.filter (fun s => negb (s =? "<none>")%string) (tidy r.1) in
  if bool_decide (phases = []) then mret ""
  else
    let running := count_of "Running" phases in
    let parts := ["nodes " +:+ Itoa running +:+ "/" +:+ Itoa (Z.of_nat (length phases)) +:+ " ready"]
      ++ (let pb := phase_counts phases in if bool_decide (pb = []) then [] else [Join pb ", "]) in
    let! r := run (machines_cmd name (dq "-o jsonpath='{range .items[0].status.conditions[*]}{.message}{@\n@}{end}'")) in
    let out := Join parts "; "
      +:+ match last (tidy r.1) with Some m => " — " +:+ m | None => "" end in
    if running =? Z.of_nat (length phases) then
      let! post := frameworkPostNodeProgress name lbip in
      mret (if is_empty post then out else out +:+ "; " +:+ post)
    else mret out.

Definition ensureAmphoraTag : M W (option goerr) :=
  let! r := run "source /etc/admin-openrc.sh && openstack image show amphora-x64-haproxy -f value -c tags 2>/dev/null" in
  if Contains (Join r.1 " ") "amphora" then mret None
  else
    let! _ := onLine "Amphora image is missing the 'amphora' tag Octavia requires — tagging it…" in
    let! r := run_shown "source /etc/admin-openrc.sh && openstack image set --tag amphora amphora-x64-haproxy" in
    mret r.2.

(** The retries of [verifyFrameworkRegistry], with fuel; [None] is out of fuel. *)
Fixpoint verify_loop (fuel : nat) (name lbip : string) (start : Z) : M W (option (option goerr)) :=
  match fuel with
  | O => mret None
  | S fuel =>
      let! code := registryProbe name lbip in
      if (code =? "200")%string then
        let! _ := onLine "App-framework registry reachable." in mret (Some None)
      else
        let! t := now in
        if registryReadyTimeout <=? t - start then
          mret (Some (Some (errorf ("app-framework registry (Harbor at " +:+ registry_host name +:+ " → "
            +:+ lbip +:+ ":443) not reachable after " +:+ duration registryReadyTimeout +:+ " (last HTTP "
            +:+ Quote code +:+ "); appctl's registry setup did not complete, so app_register will produce broken image refs — check the ingress Octavia LB (openstack loadbalancer list) and the amphora image tag"))))
        else
          let! _ := onLine ("Registry not serving yet (HTTP " +:+ Quote code +:+ ") — ingress LB + Harbor still starting; retrying…") in
          let! e := wait registryPollInterval in
          match e with
          | Some e => mret (Some (Some e))
          | None => verify_loop fuel name lbip start
          end
  end.

Definition registry_fuel : nat := 21.

Definition verifyFrameworkRegistry (name lbip : string) : M W (option (option goerr)) :=
  if is_empty lbip then mret (Some None)
  else
    let! _ := onLine "Verifying the app-framework registry (Harbor) is reachable…" in
    let! start := now in
    verify_loop registry_fuel name lbip start.

Definition appctlLastError : M W string :=
  let! r := run ("grep -aiE 'erro|error|failed|conflict|[0-9]{3} instead' /var/log/appctl/appctl.log 2>/dev/null | sed 's/\x1b\[[0-9;]*m//g' | tail -n 2") in
  mret match tidy r.1 with
       | [] => "(see /var/log/appctl/appctl.log on the cluster)"
       | l => Join l " | "
       end.

(** What a verified framework step returns. *)
Definition with_skip (sk : bool) (r : option (option goerr)) : option (bool * option goerr) :=
  (fun e => (sk, e)) <$> r.

Definition fw_timeout_error (name st progress : string) : goerr :=
  errorf ("WARNING: app-framework " +:+ Quote name +:+ " not active after " +:+ duration frameworkReadyTimeout
    +:+ " (last state: " +:+ statusLabel st +:+ ")"
    +:+ (if is_empty progress then "" else " [" +:+ progress +:+ "]")
    +:+ "; provisioning may still be in progress — verify with `hex_cli -c app -c framework_list` and inspect the RKE2 nodes (kubectl get machines -A), then re-run to resume or delete the framework to start over").

(** The polls of [runFramework], with fuel. *)
Fixpoint poll_loop (fuel : nat) (name lbip : string) (created everFound : bool) (start : Z)
    : M W (option (bool * option goerr)) :=
  match fuel with
  | O => mret None
  | S fuel =>
      let! s := frameworkStatus name in
      let '(st, found) := s in
      let everFound := everFound || found in
      if found && (st =? "active")%string then
        let! _ := onLine ("App-framework " +:+ Quote name +:+ " is active.") in
        let! v := verifyFrameworkRegistry name lbip in mret (with_skip false v)
      else if found && bool_decide (frameworkStates st = Some FwError) then
        mret (Some (false, Some (errorf ("app-framework " +:+ Quote name +:+ " entered state " +:+ Quote st
          +:+ " — check `hex_cli -c app -c framework_list` and the Rancher cluster"))))
      else
        let! t := now in
        let elapsed := t - start in
        if created && negb everFound && (frameworkRegisterGrace <=? elapsed) then
          let! last := appctlLastError in
          mret (Some (false, Some (errorf ("app-framework " +:+ Quote name
            +:+ " was not created: framework_create returned but the framework never registered within "
            +:+ duration frameworkRegisterGrace +:+ " — it failed silently. Last appctl error: " +:+ last))))
        else
          let! progress := frameworkProgress name lbip in
          if frameworkReadyTimeout <=? elapsed then
            mret (Some (false, Some (fw_timeout_error name st progress)))
          else
            let! _ := onLine ("Waiting for app-framework " +:+ Quote name +:+ " to become active — state: "
              +:+ statusLabel st +:+ ", " +:+ seconds_string (round_seconds elapsed) +:+ " elapsed"
              +:+ (if is_empty progress then "" else "; " +:+ progress) +:+ "…") in
            let! e := wait frameworkPollInterval in
            match e with
            | Some e => mret (Some (false, Some e))
            | None => poll_loop fuel name lbip created everFound start
            end
  end.

Definition poll_fuel : nat := 121.

(** The poll from here on. *)
Definition poll (ps : plannedStep) (created found : bool) : M W (option (bool * option goerr)) :=
  let! start := now in
  poll_loop poll_fuel ps.(ps_Framework) ps.(ps_LBIP) created found start.

(** [runFramework]; the goroutine that narrates progress while the create
    command blocks only adds lines, and is left out. *)
Definition runFramework (ps : plannedStep) : M W (option (bool * option goerr)) :=
  let name := ps.(ps_Framework) in
  let! e := ensureAmphoraTag in
  match e with
  | Some e => mret (Some (false, Some e))
  | None =>
      let! s := frameworkStatus name in
      let '(st, found) := s in
      if found && (st =? "active")%string then
        let! _ := onLine ("App-framework " +:+ Quote name +:+ " is already active — skipping creation.") in
        let! v := verifyFrameworkRegistry name ps.(ps_LBIP) in mret (with_skip true v)
      else if found : bool then
        let! _ := onLine ("App-framework " +:+ Quote name +:+ " already exists (state: " +:+ statusLabel st
          +:+ ") — not recreating; waiting for it to become active.") in
        poll ps false true
      else
        let! _ := onLine ("Creating app-framework " +:+ Quote name
          +:+ " (this provisions an RKE2 cluster and can take many minutes)…") in
        let! r := run_shown ps.(ps_Cmd) in
        match r.2 with
        | Some e => mret (Some (false, Some e))
        | None =>
            let marker := cliFailureMarker (Join r.1 nl) in
            if is_empty marker then poll ps true false
            else mret (Some (false, Some (errorf (marker +:+ " (see output)"))))
        end
  end.
End Remote.

(** ** Reasoning about runs of these functions *)

Section Laws.
Context {W : Type} `{ClusterLaws W}.
Variable fs_size : string → option Z.

Lemma mlet_inv {A B} (m : M W A) (f : A → M W B) w o b w' :
  mlet m f w = (o, b, w') →
  ∃ o1 a w1 o2, m w = (o1, a, w1) ∧ f a w1 = (o2, b, w') ∧ o = o1 ++ o2.
Proof.
  unfold mlet. destruct (m w) as [[o1 a] w1] eqn:E1. destruct (f a w1) as [[o2 b'] w2] eqn:E2.
  intros [= <- <- <-]. by exists o1, a, w1, o2.
Qed.

(** What a function may do, as a predicate on each thing it does. *)
Definition does {A} (P : obs → Prop) (m : M W A) : Prop := ∀ w o a w', m w = (o, a, w') → Forall P o.

Lemma does_ret {A} P (a : A) : does P (mret a).
Proof. intros w o b w' [= <- <- <-]. constructor. Qed.

Lemma does_let {A B} P (m : M W A) (f : A → M W B) :
  does P m → (∀ a, does P (f a)) → does P (mlet m f).
Proof.
  intros Hm Hf w o b w' (o1 & a & w1 & o2 & H1 & H2 & ->)%mlet_inv. apply Forall_app.
  split; [by eapply Hm|by eapply Hf].
Qed.

Lemma does_line P l : P (OLine l) → does P (onLine l).
Proof. intros Hl w o b w' [= <- <- <-]. by repeat constructor. Qed.

Lemma does_run P cmd : (∀ ok, P (ORun cmd ok)) → does P (run cmd).
Proof.
  intros Hp w o b w'. unfold run. destruct (cl_run cmd w) as [[ls e] w1]. intros [= <- <- <-].
  by repeat constructor.
Qed.

(** The clock never goes back. *)
Definition ticks {A} (m : M W A) : Prop := ∀ w o a w', m w = (o, a, w') → cl_now w <= cl_now w'.

Lemma ticks_ret {A} (a : A) : ticks (mret a).
Proof. intros w o b w' [= <- <- <-]. lia. Qed.

Lemma ticks_let {A B} (m : M W A) (f : A → M W B) : ticks m → (∀ a, ticks (f a)) → ticks (mlet m f).
Proof.
  intros Hm Hf w o b w' (o1 & a & w1 & o2 & H1 & H2 & ->)%mlet_inv.
  apply Hm in H1. apply Hf in H2. lia.
Qed.

Lemma ticks_line l : ticks (onLine l).
Proof. intros w o b w' [= <- <- <-]. lia. Qed.

Lemma ticks_now : ticks now.
Proof. intros w o b w' [= <- <- <-]. lia. Qed.

Lemma ticks_run cmd : ticks (run cmd).
Proof.
  intros w o b w'. unfold run. pose proof (run_clock cmd w) as Hc. destruct (cl_run cmd w) as [[ls e] w1].
  intros [= <- <- <-]. exact Hc.
Qed.

Create HintDb ticks.
#[local] Hint Resolve ticks_ret ticks_line ticks_now ticks_run : ticks.
Ltac ticks := repeat (apply ticks_let; [auto with ticks|intros ?]); repeat case_match;
  auto with ticks; repeat (apply ticks_let; [auto with ticks|intros ?]); auto with ticks.

Lemma ticks_registryProbe name lbip : ticks (registryProbe name lbip).
Proof. unfold registryProbe. ticks. Qed.
Lemma ticks_status name : ticks (frameworkStatus name).
Proof. unfold frameworkStatus. ticks. Qed.
#[local] Hint Resolve ticks_registryProbe ticks_status : ticks.

Lemma ticks_postNode name lbip : ticks (frameworkPostNodeProgress name lbip).
Proof.
  unfold frameworkPostNodeProgress. apply ticks_let; [auto with ticks|intros lb].
  apply ticks_let; [destruct (is_empty lbip); ticks|intros parts]. ticks.
Qed.
#[local] Hint Resolve ticks_postNode : ticks.

Lemma ticks_progress name lbip : ticks (frameworkProgress name lbip).
Proof.
  unfold frameworkProgress. apply ticks_let; [auto with ticks|intros r].
  destruct (bool_decide _); [auto with ticks|]. apply ticks_let; [auto with ticks|intros r'].
  destruct (_ =? _); ticks.
Qed.

Lemma ticks_appctl : ticks appctlLastError.
Proof. unfold appctlLastError. ticks. Qed.

(** *** Imports *)

Definition is_push (x : obs) : Prop := match x with OPush _ _ _ => True | _ => False end.

(** Narration, or one of the read-only checks of the step. *)
Definition checks_only (ps : plannedStep) (x : obs) : Prop :=
  match x with
  | OLine _ => True
  | ORun cmd _ => cmd = show_cmd ps.(ps_ImageName) ∨ cmd = ps.(ps_Present)
  | OPush _ _ _ => False
  end.

Lemma does_check_image ps : does (checks_only ps) (scp_check_image ps).
Proof.
  unfold scp_check_image. destruct (is_empty _); [apply does_ret|].
  apply does_let; [by apply does_line|intros _]. apply does_let; [apply does_run; intros; by left|intros r].
  destruct (passes r.2); apply does_let; try (by apply does_line); intros; apply does_ret.
Qed.

Lemma does_check_present ps : does (checks_only ps) (scp_check_present ps).
Proof.
  unfold scp_check_present. destruct (is_empty _); [apply does_ret|].
  apply does_let; [by apply does_line|intros _]. apply does_let; [apply does_run; intros; by right|intros r].
  destruct (passes r.2); [|apply does_ret]. apply does_let; [by apply does_line|intros; apply does_ret].
Qed.

Lemma confirm_present_ok ps w o w' :
  scp_confirm_present ps w = (o, None, w') → ps.(ps_Present) ≠ "" → ORun ps.(ps_Present) true ∈ o.
Proof.
  unfold scp_confirm_present. intros Hr Hne. destruct (is_empty (ps_Present ps)) eqn:E; [by apply is_empty_true in E|].
  apply mlet_inv in Hr as (o1 & [ls e] & w1 & o2 & H1 & H2 & ->). unfold run in H1.
  destruct (cl_run (ps_Present ps) w) as [[ls' e'] w2]. injection H1 as <- <- <- <-.
  destruct e'; cbn in H2; [discriminate H2|]. set_solver.
Qed.

Lemma confirm_image_ok ps w o w' :
  scp_confirm_image ps w = (o, None, w') → ps.(ps_ImageName) ≠ "" →
  ORun (show_cmd ps.(ps_ImageName)) true ∈ o.
Proof.
  unfold scp_confirm_image. intros Hr Hne. destruct (is_empty (ps_ImageName ps)) eqn:E; [by apply is_empty_true in E|].
  apply mlet_inv in Hr as (o0 & [] & w0 & o' & _ & Hr & ->).
  apply mlet_inv in Hr as (o1 & [ls e] & w1 & o2 & H1 & H2 & ->). unfold run in H1.
  destruct (cl_run _ w0) as [[ls' e'] w2]. injection H1 as <- <- <- <-.
  destruct e'; cbn in H2; [discriminate H2|]. set_solver.
Qed.

Lemma run_shown_ok cmd w o ls w' :
  run_shown cmd w = (o, (ls, None), w') → o = (OLine <$> ls) ++ [ORun cmd true].
Proof.
  unfold run_shown. destruct (cl_run cmd w) as [[ls' e'] w2]. by intros [= <- <- -> <-].
Qed.

(** Imports are idempotent and confirmed.  When the step reports that it
    skipped, it only looked: it pushed nothing and ran nothing but the two
    checks.  When it reports success without skipping, its command ran and
    succeeded, and after it the presence check and the image check, each if
    the step has one, passed on the cluster: the command's exit code alone is
    never trusted. *)
Theorem scpRun_confirmed ps w o sk w' :
  scpRun fs_size ps w = (o, (sk, None), w') →
  if sk : bool then Forall (checks_only ps) o
  else ∃ o1 o2, o = o1 ++ ORun ps.(ps_Cmd) true :: o2
       ∧ (ps.(ps_Present) ≠ "" → ORun ps.(ps_Present) true ∈ o2)
       ∧ (ps.(ps_ImageName) ≠ "" → ORun (show_cmd ps.(ps_ImageName)) true ∈ o2).
Proof.
  unfold scpRun. intros (oa & a & wa & o' & Ha & Hr & ->)%mlet_inv.
  pose proof (does_check_image ps _ _ _ _ Ha) as Da. destruct a.
  { injection Hr as <- <- <-. by rewrite app_nil_r. }
  apply mlet_inv in Hr as (ob & b & wb & o'' & Hb & Hr & ->).
  pose proof (does_check_present ps _ _ _ _ Hb) as Db. destruct b.
  { injection Hr as <- <- <-. rewrite app_nil_r. by apply Forall_app. }
  apply mlet_inv in Hr as (ou & [e|] & wu & o3 & Hu & Hr & ->); [discriminate Hr|].
  apply mlet_inv in Hr as (ol & [] & wl & o4 & Hl & Hr & ->).
  apply mlet_inv in Hr as (orn & [ls e] & wr & o5 & Hrun & Hr & ->).
  cbn [snd] in Hr. destruct e as [e|]; [discriminate Hr|]. apply run_shown_ok in Hrun as ->.
  apply mlet_inv in Hr as (op & [e|] & wp & o6 & Hp & Hr & ->); [discriminate Hr|].
  apply mlet_inv in Hr as (oi & e & wi & o7 & Hi & Hr & ->). injection Hr as <- <- -> <-.
  exists (oa ++ ob ++ ou ++ ol ++ (OLine <$> ls)), (op ++ oi ++ []). split.
  { rewrite !app_assoc. cbn. rewrite <- !app_assoc. done. }
  split; intros Hne; rewrite !elem_of_app.
  - left. by eapply confirm_present_ok.
  - right. left. by eapply confirm_image_ok.
Qed.

(** *** The framework *)

(** It comes to a result: the fuel is enough. *)
Definition ends {A} (m : M W (option A)) (w : W) : Prop := (m w).1.2 ≠ None.

Lemma ends_let {A B} (m : M W A) (f : A → M W (option B)) w :
  (∀ o a w', m w = (o, a, w') → ends (f a) w') → ends (mlet m f) w.
Proof.
  unfold ends, mlet. intros Hf. destruct (m w) as [[o a] w1] eqn:E. specialize (Hf o a w1 eq_refl).
  by destruct (f a w1) as [[o2 b] w2].
Qed.

Lemma ends_ret {A} (a : A) w : ends (mret (Some a)) w.
Proof. done. Qed.

Lemma wait_inv d w o w' : wait d w = (o, None, w') → cl_now w + d <= cl_now w'.
Proof.
  unfold wait. pose proof (wait_clock d w) as Hc. destruct (cl_wait d w) as [e w1].
  intros [= <- -> <-]. by apply Hc.
Qed.

Lemma verify_loop_ends n name lbip start w :
  registryReadyTimeout <= cl_now w - start + registryPollInterval * Z.of_nat n - registryPollInterval →
  (0 < n)%nat → ends (verify_loop n name lbip start) w.
Proof.
  revert w. induction n as [|n IH]; intros w Hb Hn; [lia|]. cbn [verify_loop].
  apply ends_let. intros o code w1 Hp. apply ticks_registryProbe in Hp.
  destruct (code =? "200")%string; [by apply ends_let|].
  apply ends_let. intros o2 t w2 [= <- <- <-].
  destruct (Z.leb_spec registryReadyTimeout (cl_now w1 - start)); [apply ends_ret|].
  apply ends_let. intros o3 [] w3 [= <- <-]. apply ends_let. intros o4 [e|] w4 Hw; [apply ends_ret|].
  apply wait_inv in Hw. unfold registryPollInterval, registryReadyTimeout, second in *.
  apply IH; lia.
Qed.

Lemma verify_ends name lbip w : ends (verifyFrameworkRegistry name lbip) w.
Proof.
  unfold verifyFrameworkRegistry. destruct (is_empty lbip); [apply ends_ret|].
  apply ends_let. intros o1 [] w1 [= <- <-]. apply ends_let. intros o2 t w2 [= <- <- <-].
  apply verify_loop_ends; [|unfold registry_fuel; lia].
  unfold registryPollInterval, registryReadyTimeout, registry_fuel, second. lia.
Qed.

Lemma verified_ends sk name lbip w :
  ends (mlet (verifyFrameworkRegistry name lbip) (fun v => mret (with_skip sk v))) w.
Proof.
  pose proof (verify_ends name lbip w) as He. apply ends_let. intros o v w' Hv.
  unfold ends in He. rewrite Hv in He. cbn in He. by destruct v.
Qed.

Lemma poll_loop_ends n name lbip created found start w :
  frameworkReadyTimeout <= cl_now w - start + frameworkPollInterval * Z.of_nat n - frameworkPollInterval →
  (0 < n)%nat → ends (poll_loop n name lbip created found start) w.
Proof.
  revert found w. induction n as [|n IH]; intros found w Hb Hn; [lia|]. cbn [poll_loop].
  apply ends_let. intros o [st fnd] w1 Hs. apply ticks_status in Hs.
  destruct (fnd && (st =? "active")%string).
  { apply ends_let. intros o2 [] w2 _. apply verified_ends. }
  destruct (fnd && _); [apply ends_ret|].
  apply ends_let. intros o2 t w2 [= <- <- <-]. destruct (created && _ && _).
  { apply ends_let. intros. apply ends_ret. }
  apply ends_let. intros o3 progress w3 Hp. apply ticks_progress in Hp.
  destruct (Z.leb_spec frameworkReadyTimeout (cl_now w1 - start)); [apply ends_ret|].
  apply ends_let. intros o4 [] w4 [= <- <-]. apply ends_let. intros o5 [e|] w5 Hw; [apply ends_ret|].
  apply wait_inv in Hw. unfold frameworkPollInterval, frameworkReadyTimeout, second in *.
  apply IH; lia.
Qed.

Lemma poll_ends ps created found w : ends (poll ps created found) w.
Proof.
  unfold poll. apply ends_let. intros o t w' [= <- <- <-]. apply poll_loop_ends; [|unfold poll_fuel; lia].
  unfold frameworkPollInterval, frameworkReadyTimeout, poll_fuel, second. lia.
Qed.

Lemma runFramework_ends ps w : ends (runFramework ps) w.
Proof.
  unfold runFramework. apply ends_let. intros o1 [e|] w1 _; [apply ends_ret|].
  apply ends_let. intros o2 [st found] w2 _. destruct (found && _).
  { apply ends_let. intros o3 [] w3 _. apply verified_ends. }
  destruct found; apply ends_let; intros o3 [] w3 _; [apply poll_ends|].
  apply ends_let. intros o4 [ls [e|]] w4 _; [apply ends_ret|]. cbn [snd].
  destruct (is_empty _); [apply poll_ends|apply ends_ret].
Qed.

(** The cluster's listing, asked for in [w1], has a row that names the framework and
    says "active". *)
Definition listed_active (name : string) (w1 w2 : W) : Prop :=
  ∃ rows e l, cl_run list_cmd w1 = (rows, e, w2) ∧ l ∈ rows
    ∧ name ∈ Fields l ∧ "active" ∈ ToLower <$> Fields l.

(** The request to the framework's registry, sent not before [w2], printed 200 and left
    the cluster as [w']. *)
Definition registry_200 (name lbip : string) (w2 w' : W) : Prop :=
  ∃ w3 ls e, cl_now w2 <= cl_now w3 ∧ cl_run (registry_cmd name lbip) w3 = (ls, e, w')
    ∧ Join (TrimSpace <$> ls) "" = "200".

(** A success leaves an active framework whose registry answers, where its address
    is known. *)
Definition ready (ps : plannedStep) (w' : W) : Prop :=
  ∃ w1 w2, listed_active ps.(ps_Framework) w1 w2
    ∧ (ps.(ps_LBIP) = "" ∨ registry_200 ps.(ps_Framework) ps.(ps_LBIP) w2 w').

Lemma status_active name w o w' :
  frameworkStatus name w = (o, ("active", true), w') → listed_active name w w'.
Proof.
  unfold frameworkStatus, mlet, run, mret. destruct (cl_run list_cmd w) as [[ls e] w1] eqn:Er. cbn [fst].
  intros Heq. injection Heq as _ Hs <-. exists ls, e.
  enough (∃ l, l ∈ ls ∧ name ∈ Fields l ∧ "active" ∈ ToLower <$> Fields l) as (l & Hl) by by exists l.
  clear Er. induction ls as [|l ls IH]; [done|]. cbn [status_of_rows] in Hs.
  destruct (contains (Fields l) name) eqn:Ec; [|destruct (IH Hs) as (x & Hx & ?); exists x; split; [by right|done]].
  exists l. split; [by left|]. split; [by apply contains_true|].
  destruct (find _ (Fields l)) as [f|] eqn:Ef; [|done]. injection Hs as Hf. apply find_some in Ef as [Hin _].
  rewrite <- Hf. by apply list_elem_of_fmap_2, list_elem_of_In.
Qed.

Lemma verify_loop_200 n name lbip start w2 w o w' :
  cl_now w2 <= cl_now w → verify_loop n name lbip start w = (o, Some None, w') → registry_200 name lbip w2 w'.
Proof.
  revert w o. induction n as [|n IH]; intros w o Hc; cbn [verify_loop]; [by intros [=]|].
  intros (o1 & code & w1 & o2 & Hp & Hr & ->)%mlet_inv. pose proof (ticks_registryProbe _ _ _ _ _ _ Hp) as Ht.
  destruct (String.eqb_spec code "200") as [->|_].
  - unfold registryProbe, mlet, run, mret in Hp. destruct (cl_run _ w) as [[ls e] w3] eqn:Er. cbn in Hp.
    injection Hp as _ Hj ->. injection Hr as _ <-. by exists w, ls, e.
  - apply mlet_inv in Hr as (o3 & t & w3 & o4 & Hn & Hr & ->). injection Hn as _ _ <-.
    destruct (registryReadyTimeout <=? t - start); [by injection Hr|].
    apply mlet_inv in Hr as (o5 & [] & w5 & o6 & Hl & Hr & ->). apply ticks_line in Hl.
    apply mlet_inv in Hr as (o7 & [e|] & w7 & o8 & Hw & Hr & ->); [by injection Hr|].
    apply wait_inv in Hw. unfold registryPollInterval, second in Hw. eapply IH; [|exact Hr]. lia.
Qed.

Lemma verify_200 name lbip w2 w o w' :
  cl_now w2 <= cl_now w → verifyFrameworkRegistry name lbip w = (o, Some None, w') →
  lbip = "" ∨ registry_200 name lbip w2 w'.
Proof.
  intros Hc. unfold verifyFrameworkRegistry. destruct (is_empty lbip) eqn:E; [left; by apply is_empty_true|].
  intros (o1 & [] & w3 & o2 & Hl & Hr & ->)%mlet_inv. apply ticks_line in Hl.
  apply mlet_inv in Hr as (o3 & t & w4 & o4 & Hn & Hr & ->). apply ticks_now in Hn.
  right. eapply verify_loop_200; [|exact Hr]. lia.
Qed.

(** The result of a polling function: it skipped nothing, and its success is
    real. *)
Definition polled (ps : plannedStep) (r : option (bool * option goerr)) (w' : W) : Prop :=
  ∀ sk e, r = Some (sk, e) → sk = false ∧ (e = None → ready ps w').

Lemma polled_err ps e w' : polled ps (Some (false, Some e)) w'.
Proof. by intros sk e' [= <- <-]. Qed.

Lemma verified_ready ps w1 o1 w2 w3 o w' sk r :
  frameworkStatus ps.(ps_Framework) w1 = (o1, ("active", true), w2) → cl_now w2 <= cl_now w3 →
  mlet (verifyFrameworkRegistry ps.(ps_Framework) ps.(ps_LBIP)) (fun v => mret (with_skip sk v)) w3
    = (o, r, w') →
  ∀ sk' e, r = Some (sk', e) → sk' = sk ∧ (e = None → ready ps w').
Proof.
  intros Hs Hc (o2 & v & w4 & o3 & Hv & Hr & ->)%mlet_inv sk' e ->. injection Hr as <- Hw <-.
  destruct v as [v|]; [|discriminate Hw]. injection Hw as -> ->. split; [done|]. intros ->.
  exists w1, w2. split; [by eapply status_active|by eapply verify_200].
Qed.

(** Decide the test a run starts with. *)
Ltac split_if H := match type of H with (if ?b then _ else _) _ = _ => destruct b end.

Lemma poll_loop_polled n ps created found start w o r w' :
  poll_loop n ps.(ps_Framework) ps.(ps_LBIP) created found start w = (o, r, w') → polled ps r w'.
Proof.
  revert found w o. induction n as [|n IH]; intros found w o; cbn [poll_loop]; [by intros [= <- <- <-]|].
  intros (o1 & [st fnd] & w1 & o2 & Hs & Hr & ->)%mlet_inv. destruct (fnd && (st =? "active")%string) eqn:Ea.
  { apply andb_true_iff in Ea as [-> ->%String.eqb_eq].
    apply mlet_inv in Hr as (o3 & [] & w3 & o4 & Hl & Hr & ->). apply ticks_line in Hl.
    intros sk e Hsk. by eapply verified_ready. }
  split_if Hr.
  { injection Hr as <- <- <-; apply polled_err. }
  apply mlet_inv in Hr as (o3 & t & w3 & o4 & _ & Hr & ->). split_if Hr.
  { apply mlet_inv in Hr as (o5 & e & w5 & o6 & _ & Hr & _). injection Hr as <- <- <-. apply polled_err. }
  apply mlet_inv in Hr as (o5 & p & w5 & o6 & _ & Hr & ->).
  split_if Hr; [injection Hr as <- <- <-; apply polled_err|].
  apply mlet_inv in Hr as (o7 & [] & w7 & o8 & _ & Hr & ->).
  apply mlet_inv in Hr as (o9 & [e|] & w9 & o10 & _ & Hr & ->);
    [injection Hr as <- <- <-; apply polled_err|by eapply IH].
Qed.

Lemma poll_polled ps created found w o r w' : poll ps created found w = (o, r, w') → polled ps r w'.
Proof. intros (o1 & t & w1 & o2 & _ & Hr & _)%mlet_inv. by eapply poll_loop_polled. Qed.

(** What follows a first listing that does not show it active. *)
Lemma create_polled ps st found w o r w' :
  (if found : bool then
     let! _ := onLine ("App-framework " +:+ Quote ps.(ps_Framework) +:+ " already exists (state: " +:+ statusLabel st
       +:+ ") — not recreating; waiting for it to become active.") in
     poll ps false true
   else
     let! _ := onLine ("Creating app-framework " +:+ Quote ps.(ps_Framework)
       +:+ " (this provisions an RKE2 cluster and can take many minutes)…") in
     let! r := run_shown ps.(ps_Cmd) in
     match r.2 with
     | Some e => mret (Some (false, Some e))
     | None =>
         let marker := cliFailureMarker (Join r.1 nl) in
         if is_empty marker then poll ps true false
         else mret (Some (false, Some (errorf (marker +:+ " (see output)"))))
     end) w = (o, r, w') → polled ps r w'.
Proof.
  destruct found; intros (o1 & [] & w1 & o2 & _ & Hr & ->)%mlet_inv; [by eapply poll_polled|].
  apply mlet_inv in Hr as (o3 & [ls [e|]] & w3 & o4 & _ & Hr & ->); cbn [snd] in Hr.
  - injection Hr as <- <- <-. apply polled_err.
  - cbn zeta in Hr. split_if Hr; [by eapply poll_polled|injection Hr as <- <- <-; apply polled_err].
Qed.

(** C33. Creating the App-Framework always comes to an end, with the polls the
    two time limits allow, on any cluster whose clock advances and whose commands all
    return (one that hangs is waited for as long as its context lasts); and
    when it reports success a row of the cluster's listing had named the framework
    and said "active", and the request to its registry, sent after that, printed
    200 (if its address is known).  It reports a skip exactly
    when the very first listing already showed the framework active. *)
Theorem runFramework_spec ps w :
  ∃ o sk e w', runFramework ps w = (o, Some (sk, e), w')
    ∧ (e = None → ready ps w')
    ∧ (sk = true ↔ ∃ o1 w1 o2 w2, ensureAmphoraTag w = (o1, None, w1)
                     ∧ frameworkStatus ps.(ps_Framework) w1 = (o2, ("active", true), w2)).
Proof.
  pose proof (runFramework_ends ps w) as He. unfold ends in He.
  destruct (runFramework ps w) as [[o [[sk e]|]] w'] eqn:E; [clear He|done].
  exists o, sk, e, w'. split; [done|]. revert E. unfold runFramework.
  intros (o1 & e1 & w1 & o2 & H1 & Hr & ->)%mlet_inv. rewrite H1. destruct e1 as [e1|].
  { injection Hr as <- <- <- <-. split; [done|]. split; [done|]. by intros (? & ? & ? & ? & ? & ?). }
  apply mlet_inv in Hr as (o3 & [st found] & w2 & o4 & H2 & Hr & ->).
  destruct (found && (st =? "active")%string) eqn:Ea.
  - apply andb_true_iff in Ea as [-> ->%String.eqb_eq].
    apply mlet_inv in Hr as (o5 & [] & w3 & o6 & Hl & Hr & ->). apply ticks_line in Hl.
    edestruct (verified_ready ps w1 o3 w2 w3) as [-> Hr']; [exact H2|exact Hl|exact Hr|done|].
    split; [done|]. split; [|done]. intros _. by exists o1, w1, o3, w2.
  - apply create_polled in Hr. destruct (Hr sk e eq_refl) as [-> Hready]. split; [done|]. split; [done|].
    intros (? & ? & ? & ? & [= <- <-] & Hs). rewrite H2 in Hs. injection Hs as _ -> -> _. discriminate Ea.
Qed.

End Laws.

(** ** A cluster to run them on: it knows the framework, and its clock is the
    state *)

Definition demo_run (cmd : string) (w : Z) : list string * option goerr * Z :=
  ((if (cmd =? list_cmd)%string then ["NAME PROVIDER STATUS"; "fw  -  Active"]
    else if HasPrefix cmd "curl" then ["200"]
    else if Contains cmd "amphora" then ["amphora"] else []), None, w + second).

#[export] Instance demo_cluster : Cluster Z := {
  cl_run := demo_run;
  cl_push := fun _ _ w => (None, w + second);
  cl_wait := fun d w => (None, w + d);
  cl_now := fun w => w
}.

#[export] Instance demo_cluster_laws : ClusterLaws Z.
Proof. split; intros; cbn; unfold second; lia. Qed.

Lemma scpRun_confirmed_witness :
  ∃ o w' o1 o2, scpRun (W:=Z) (fun _ => None) (scp_step "app_register" "Register" "hex_cli" "/d/a.pigz" "/mnt" "" "") 0
      = (o, (false, None), w')
    ∧ o = o1 ++ ORun "hex_cli" true :: o2.
Proof.
  destruct (scpRun (W:=Z) (fun _ => None) (scp_step "app_register" "Register" "hex_cli" "/d/a.pigz" "/mnt" "" "") 0)
    as [[o [sk e]] w'] eqn:E.
  assert (sk = false ∧ e = None) as [-> ->].
  { assert ((scpRun (W:=Z) (fun _ => None)
      (scp_step "app_register" "Register" "hex_cli" "/d/a.pigz" "/mnt" "" "") 0).1.2 = (false, None)) as H
      by (vm_compute; reflexivity). rewrite E in H. injection H as -> ->. done. }
  destruct (scpRun_confirmed _ _ _ _ _ _ E) as (o1 & o2 & Ho & _ & _).
  exists o, w', o1, o2. split; [reflexivity|exact Ho].
Defined.

Lemma runFramework_spec_witness :
  ∃ o e w', runFramework (W:=Z) (framework_step "framework_create" "Create" "create" "fw" "10.0.0.5") 0
    = (o, Some (true, e), w').
Proof.
  destruct (runFramework_spec (W:=Z) (framework_step "framework_create" "Create" "create" "fw" "10.0.0.5") 0)
    as (o & sk & e & w' & E & _ & _).
  assert ((runFramework (W:=Z) (framework_step "framework_create" "Create" "create" "fw" "10.0.0.5") 0).1.2
    = Some (true, None)) as H by (vm_compute; reflexivity).
  rewrite E in H. injection H as -> ->. by exists o, None, w'.
Defined.
