(* ===== verification/ClusterSsh.v ===== *)
(** * The SSH client of the installer (internal/clusterssh client.go)

    [Run] tells a command that failed from a connection that was lost under
    it; [Push] copies a file through [scp -t].  A session of
    golang.org/x/crypto/ssh answers through inputs and the [Session] class,
    whose laws say how its operations keep the order of what was sent and read;
    nothing is assumed of what the remote scp does with it.  At the
    end the client is an instance of the interface that EntRemote.v is
    written against. *)
From S2P Require Import Prelude GoStrings EntRemote.
From Stdlib Require Import Ascii.

Open Scope string_scope.
Open Scope list_scope.
Open Scope Z_scope.

(** ** Errors, and what [errors.Is] and [errors.As] find in them *)

Inductive cause := ExitMissing | ExitStatus (n : Z) | IsEOF | NetClosed | ConnectionLost | CtxEnded.

#[export] Instance cause_eq_dec : EqDecision cause.
Proof. solve_decision. Defined.

Record error : Type := mkError { e_text : string; e_is : list cause }.

(** [fmt.Errorf] with one [%w]. *)
Definition wrap (pre : string) (e : error) (post : string) : error :=
  mkError (pre +:+ e.(e_text) +:+ post) e.(e_is).

Definition err_is (e : error) (c : cause) : bool := contains e.(e_is) c.

Definition ErrConnectionLost : error :=
  mkError "connection lost while the command was running" [ConnectionLost].

Definition isTransportLoss (err : option error) : bool :=
  match err with
  | None => false
  | Some e => err_is e ExitMissing || err_is e IsEOF || err_is e NetClosed
  end.

(** ** Lines of the output ([bufio.Scanner] with its default buffer) *)

Definition MaxScanTokenSize : Z := 65536.
Definition newline : ascii := "010"%char.
Definition dropCR (s : string) : string := TrimSuffix s (String "013" "").
Definition ErrTooLong : error := mkError "bufio.Scanner: token too long" [].

(** The pieces between newlines, up to one that does not fit. *)
Fixpoint tokens (l : list string) : list string * bool :=
  match l with
  | [] => ([], false)
  | x :: l' =>
      if MaxScanTokenSize <=? Z.of_nat (String.length x) then ([], true)
      else match l' with
           | [] => (if is_empty x then [] else [dropCR x], false)
           | _ => let '(ls, long) := tokens l' in (dropCR x :: ls, long)
           end
  end.

(** What the scanner hands out of [out], and its error after it. *)
Definition scan (out : string) (read_err : option error) : list string * option error :=
  let '(ls, long) := tokens (Split out newline) in
  (ls, if long : bool then Some ErrTooLong else read_err).

(** ** Run *)

(** What the session answers; [ra_ctx]: the context ended first, with so many
    lines handed on by then. *)
Record RunAns : Type := mkRunAns {
  ra_new : option error;
  ra_pipe : option error;
  ra_start : option error;
  ra_stdout : string;
  ra_read : option error;
  ra_wait : option error;
  ra_stderr : string;
  ra_ctx : option (nat * error)
}.

(** The goroutine's result. *)
Definition run_done (scanErr waitErr : option error) : option error :=
  match scanErr with
  | None => waitErr
  | Some s => match waitErr with
              | Some w => Some (wrap "" w ("; stdout scan: " +:+ s.(e_text)))
              | None => Some (wrap "stdout scan: " s "")
              end
  end.

Definition Run (cmd : string) (a : RunAns) : list string * option error :=
  match a.(ra_new), a.(ra_pipe), a.(ra_start) with
  | Some e, _, _ => ([], Some (wrap "clusterssh: new session: " e ""))
  | _, Some e, _ => ([], Some (wrap "clusterssh: stdout pipe: " e ""))
  | _, _, Some e => ([], Some (wrap ("clusterssh: start " +:+ Quote cmd +:+ ": ") e ""))
  | None, None, None =>
      let '(ls, scanErr) := scan a.(ra_stdout) a.(ra_read) in
      match a.(ra_ctx) with
      | Some (k, e) => (take k ls, Some e)
      | None =>
          (ls, match run_done scanErr a.(ra_wait) with
               | None => None
               | Some e =>
                   if isTransportLoss (Some e) then Some (wrap (cmd +:+ ": ") ErrConnectionLost "")
                   else Some (wrap (cmd +:+ ": ") e (" (" +:+ a.(ra_stderr) +:+ ")"))
               end)
      end
  end.

Definition lost (r : option error) : bool :=
  match r with Some e => err_is e ConnectionLost | None => false end.

Definition started (a : RunAns) : Prop := a.(ra_new) = None ∧ a.(ra_pipe) = None ∧ a.(ra_start) = None.

(** How a channel that closed under a command shows in an error: no exit status
    came, the stream ended early, or the connection was closed. *)
Definition channel_broke (e : error) : Prop :=
  ExitMissing ∈ e.(e_is) ∨ IsEOF ∈ e.(e_is) ∨ NetClosed ∈ e.(e_is).

(** The driver's sentinel comes from the driver alone. *)
Definition foreign (e : option error) : Prop := lost e = false.

Definition foreign_ans (a : RunAns) : Prop :=
  foreign a.(ra_new) ∧ foreign a.(ra_pipe) ∧ foreign a.(ra_start) ∧ foreign a.(ra_read)
  ∧ foreign a.(ra_wait) ∧ foreign (snd <$> a.(ra_ctx)).

Definition whole_output (a : RunAns) : bool :=
  negb (tokens (Split a.(ra_stdout) newline)).2 && bool_decide (a.(ra_read) = None).

Lemma lost_wrap pre e post : lost (Some (wrap pre e post)) = lost (Some e).
Proof. done. Qed.

Lemma transport_loss e : isTransportLoss (Some e) = true ↔ channel_broke e.
Proof.
  unfold isTransportLoss, err_is, channel_broke. rewrite !orb_true_iff, !contains_true. tauto.
Qed.

Lemma run_done_None scanErr waitErr : run_done scanErr waitErr = None ↔ scanErr = None ∧ waitErr = None.
Proof. destruct scanErr, waitErr; cbn; naive_solver. Qed.

Lemma scan_err out e :
  (scan out e).2 = if (tokens (Split out newline)).2 then Some ErrTooLong else e.
Proof. unfold scan. by destruct (tokens _). Qed.

(** The loss of the goroutine's result is that of [Wait], or of the reading
    where [Wait] had nothing to say. *)
Lemma run_done_loss out rd waitErr e :
  run_done (scan out rd).2 waitErr = Some e →
  (channel_broke e ↔
     (∃ w, waitErr = Some w ∧ channel_broke w)
     ∨ (waitErr = None ∧ (tokens (Split out newline)).2 = false ∧ ∃ r, rd = Some r ∧ channel_broke r)).
Proof.
  rewrite scan_err. unfold channel_broke. destruct (tokens _).2, rd, waitErr; cbn; intros [= <-]; cbn;
    rewrite ?elem_of_nil; naive_solver.
Qed.

Lemma run_done_wait scanErr w : ∃ e, run_done scanErr (Some w) = Some e ∧ e.(e_is) = w.(e_is).
Proof. destruct scanErr; cbn; eauto. Qed.

Lemma tokens_fit l :
  Forall (fun x => Z.of_nat (String.length x) < MaxScanTokenSize) l → (tokens l).2 = false.
Proof.
  induction 1 as [|x l Hx Hl IH]; [done|]. cbn [tokens].
  rewrite (proj2 (Z.leb_gt _ _)) by done. destruct l; [done|]. by destruct (tokens _).
Qed.

Lemma scan_None a : (scan a.(ra_stdout) a.(ra_read)).2 = None ↔ whole_output a = true.
Proof.
  unfold scan, whole_output. destruct (tokens _) as [ls []]; cbn; [done|].
  by rewrite bool_decide_eq_true.
Qed.

Lemma scan_foreign out e : foreign e → foreign (scan out e).2.
Proof. intros He. unfold scan. by destruct (tokens _) as [ls []]. Qed.

Lemma run_done_foreign s w : foreign s → foreign w → foreign (run_done s w).
Proof. by destruct s, w. Qed.

Ltac settled :=
  unfold foreign in *; cbn -[lost wrap isTransportLoss] in *; rewrite ?lost_wrap; intuition congruence.

(** C37. A command is reported as done, failed or lost as it was.  [Run]
    returns no error exactly when the session was opened and the command
    started, its context lasted, its whole output was read (no line over the
    scanner's 64 KiB) and it exited with status 0, and then every line was
    handed on.  The error is [ErrConnectionLost] exactly when the command was
    started and not cut short by its context, and either waiting for it found no
    exit status, an end of file or a closed connection, or the exit status was
    0 and reading the output (with no line over the limit) broke off that way.
    Any other error of waiting, such as another exit status, is handed on as
    itself, so a command that failed is never reported as lost, nor is one that
    never started.  (No error of the SSH library carries the driver's own
    sentinel.) *)
Theorem Run_tells cmd a :
  foreign_ans a →
  let '(ls, r) := Run cmd a in
  (r = None ↔ started a ∧ a.(ra_ctx) = None ∧ whole_output a = true ∧ a.(ra_wait) = None)
  ∧ (r = None → ls = (tokens (Split a.(ra_stdout) newline)).1)
  ∧ (lost r = true ↔
       started a ∧ a.(ra_ctx) = None
       ∧ ((∃ w, a.(ra_wait) = Some w ∧ channel_broke w)
          ∨ (a.(ra_wait) = None ∧ (tokens (Split a.(ra_stdout) newline)).2 = false
             ∧ ∃ e, a.(ra_read) = Some e ∧ channel_broke e)))
  ∧ (∀ w, started a → a.(ra_ctx) = None → a.(ra_wait) = Some w → ¬ channel_broke w →
       ∃ e, r = Some e ∧ e.(e_is) = w.(e_is)).
Proof.
  intros (Hn & Hp & Hs & Hr & Hw & Hc). unfold Run, started.
  destruct (ra_new a) as [e|]; [settled|]. destruct (ra_pipe a) as [e|]; [settled|].
  destruct (ra_start a) as [e|]; [settled|].
  pose proof (scan_None a) as Hwo. pose proof (scan_foreign (ra_stdout a) _ Hr) as Hsf.
  pose proof (run_done_loss (ra_stdout a) (ra_read a) (ra_wait a)) as Hdl.
  assert ((scan (ra_stdout a) (ra_read a)).1 = (tokens (Split (ra_stdout a) newline)).1) as Hls
    by (unfold scan; by destruct (tokens _)).
  destruct (scan (ra_stdout a) (ra_read a)) as [ls se]. cbn -[lost isTransportLoss] in Hls, Hsf, Hwo, Hdl |- *. subst ls.
  destruct (ra_ctx a) as [[k e]|].
  { settled. }
  pose proof (run_done_None se (ra_wait a)) as Hdn. pose proof (run_done_foreign _ _ Hsf Hw) as Hdf.
  pose proof (run_done_wait se) as Hdw.
  destruct (run_done se (ra_wait a)) as [e|] eqn:Ed; [specialize (Hdl e eq_refl)|].
  - destruct (isTransportLoss (Some e)) eqn:El.
    + apply transport_loss in El. split; [settled|]. split; [done|]. split; [tauto|].
      intros w _ _ Hw' Hb. exfalso. apply Hb. apply Hdl in El as [(w' & E & ?)|[E _]]; congruence.
    + assert (¬ channel_broke e) as Hnb by (intros H%transport_loss; congruence).
      split; [settled|]. split; [done|]. split; [rewrite lost_wrap; unfold foreign in Hdf; split; [congruence|tauto]|].
      intros w _ _ Hw' _. rewrite Hw' in Ed. destruct (Hdw w) as (e' & E & He). rewrite Ed in E. injection E as <-.
      by eexists.
  - destruct Hdn as [[-> Hwn] _]; [done|]. rewrite Hwn in *. split; [naive_solver|]. split; [done|]. split.
    + split; [done|]. intros (_ & _ & [(w & [=] & _)|(_ & Ht & e & He & _)]). exfalso.
      assert (whole_output a = true) as Hwo' by (by apply Hwo). unfold whole_output in Hwo'.
      rewrite Ht, He in Hwo'. done.
    + done.
Qed.

(** The shape seen on a cluster: two lines, then a channel without a status. *)
Definition lost_ans : RunAns :=
  mkRunAns None None None ("one" +:+ String newline "two") None
    (Some (wrap "wait: " (mkError "remote command exited without exit status or exit signal" [ExitMissing]) ""))
    "" None.

Lemma Run_tells_witness :
  (Run "bash /tmp/install.sh" lost_ans).1 = ["one"; "two"]
  ∧ lost (Run "bash /tmp/install.sh" lost_ans).2 = true
  ∧ lost (Run "false" (mkRunAns None None None "" None
            (Some (mkError "Process exited with status 1" [ExitStatus 1])) "no" None)).2 = false.
Proof.
  split; [vm_compute; reflexivity|]. split.
  - pose proof (Run_tells "bash /tmp/install.sh" lost_ans) as H.
    destruct (Run _ lost_ans) as [ls r]. apply H; [repeat split|]. split; [repeat split|].
    split; [reflexivity|]. left. eexists. split; [reflexivity|]. left. by left.
  - vm_compute. reflexivity.
Defined.

(** ** Push *)

(** A session: starting a command on the remote host, writing to its standard
    input, reading a byte and a line of its output, and its exit.  [sk_cmd] is the
    command it runs, [sk_in] what was written to it so far and [sk_got] the bytes
    [sk_byte] gave so far. *)
Class Session (S : Type) : Type := {
  sk_start : string → S → option error * S;
  sk_put : string → S → option error * S;
  sk_byte : S → result Z * S;
  sk_line : S → string * S;
  sk_wait : S → option error;
  sk_cmd : S → option string;
  sk_in : S → string;
  sk_got : S → list Z
}.

(** What is relied on: an operation changes these records as it says and no
    other way; a write that is refused has sent at most a part, and from then on
    all writes are refused. *)
Definition deaf {S : Type} `{Session S} (s : S) : Prop := ∀ y, y ≠ "" → (sk_put y s).1 ≠ None.

Class SessionLaws (S : Type) `{Session S} : Prop := {
  start_runs c s o s' : sk_start c s = (o, s') →
    sk_in s' = sk_in s ∧ sk_got s' = sk_got s ∧ (o = None → sk_cmd s' = Some c);
  put_keeps x s : sk_cmd (sk_put x s).2 = sk_cmd s ∧ sk_got (sk_put x s).2 = sk_got s;
  put_in x s s' : sk_put x s = (None, s') → sk_in s' = sk_in s +:+ x;
  put_refused x s e s' : sk_put x s = (Some e, s') →
    deaf s' ∧ ∃ y z, x = y +:+ z ∧ sk_in s' = sk_in s +:+ y;
  byte_keeps s : sk_in (sk_byte s).2 = sk_in s ∧ sk_cmd (sk_byte s).2 = sk_cmd s
    ∧ (deaf s → deaf (sk_byte s).2);
  byte_got s : sk_got (sk_byte s).2
    = sk_got s ++ match (sk_byte s).1 with Ok b => [b] | Err _ => [] end;
  line_keeps s : sk_in (sk_line s).2 = sk_in s ∧ sk_got (sk_line s).2 = sk_got s
}.

Section push.
Context {S : Type} `{SessionLaws S}.

Definition readAck (s : S) : option error * S :=
  match sk_byte s with
  | (Err e, s) => (Some (mkError ("read ack: " +:+ e) []), s)
  | (Ok b, s) =>
      if b =? 0 then (None, s)
      else let '(msg, s) := sk_line s in (Some (mkError ("scp: " +:+ TrimSpace msg) []), s)
  end.

(** [%04o] of permission bits (below 8^4). *)
Definition octal4 (mode : Z) : string :=
  let d k := Itoa (mode / 8 ^ k mod 8) in d 3 +:+ d 2 +:+ d 1 +:+ d 0.

Definition control (mode size : Z) (name : string) : string :=
  "C" +:+ octal4 mode +:+ " " +:+ Itoa size +:+ " " +:+ name +:+ String newline "".

(** [io.Copy]: [data] is what reading the file gave, then [read_err]. *)
Definition copy (data : string) (read_err : option error) (s : S) : option error * S :=
  if is_empty data then (read_err, s)
  else match sk_put data s with
       | (Some e, s) => (Some e, s)
       | (None, s) => (read_err, s)
       end.

(** The goroutine: the errors of the two [Fprint] are dropped. *)
Definition dialogue (mode size : Z) (name data : string) (read_err : option error) (s : S) :
    option error * S :=
  let '(_, s) := sk_put (control mode size name) s in
  match readAck s with
  | (Some e, s) => (Some e, s)
  | (None, s) =>
      match copy data read_err s with
      | (Some e, s) => (Some e, s)
      | (None, s) => let '(_, s) := sk_put (String "000" "") s in readAck s
      end
  end.

(** The other answers; [pa_ctx]: the context ended first, with the session as
    the cut left it. *)
Record PushAns : Type := mkPushAns {
  pa_open : result (Z * Z * string * option error);  (** mode, size, contents *)
  pa_new : option error;
  pa_pipes : option (string * error);
  pa_ctx : option (error * S);
  pa_stderr : string
}.

Definition Push (localPath remotePath : string) (a : PushAns) (s : S) : option error * S :=
  match a.(pa_open), a.(pa_new), a.(pa_pipes) with
  | Err e, _, _ => (Some (mkError ("clusterssh: " +:+ e) []), s)
  | _, Some e, _ => (Some (wrap "clusterssh: new session: " e ""), s)
  | _, _, Some (which, e) => (Some (wrap ("clusterssh: " +:+ which +:+ " pipe: ") e ""), s)
  | Ok (mode, size, data, read_err), None, None =>
      match sk_start ("scp -t " +:+ remotePath) s with
      | (Some e, s) => (Some (wrap "clusterssh: start scp sink: " e ""), s)
      | (None, s) =>
          match a.(pa_ctx) with
          | Some (e, s) => (Some e, s)
          | None =>
              match dialogue mode size (Base localPath) data read_err s with
              | (Some e, s) => (Some (wrap ("clusterssh: send " +:+ localPath +:+ ": ") e ""), s)
              | (None, s) =>
                  match sk_wait s with
                  | Some e => (Some (wrap ("clusterssh: scp " +:+ localPath +:+ " -> " +:+ remotePath +:+ ": ") e
                                       (" (" +:+ a.(pa_stderr) +:+ ")")), s)
                  | None => (None, s)
                  end
              end
          end
      end
  end.
End push.

Section push_proofs.
Context {S : Type} `{SessionLaws S}.

(** An acknowledgement read without error is a zero byte; one with an error may
    have read a line as well. *)
Lemma readAck_ok s s' :
  readAck s = (None, s') →
  sk_in s' = sk_in s ∧ sk_cmd s' = sk_cmd s ∧ sk_got s' = sk_got s ++ [0] ∧ (deaf s → deaf s').
Proof.
  unfold readAck. destruct (byte_keeps s) as (Hi & Hc & Hd). pose proof (byte_got s) as Hg.
  destruct (sk_byte s) as [[b|e] s1]; [|done]. destruct (Z.eqb_spec b 0) as [->|]; [|by destruct (sk_line s1)].
  by intros [= <-].
Qed.

Lemma readAck_err s e s' :
  readAck s = (Some e, s') →
  sk_in s' = sk_in s ∧ (sk_got s' = sk_got s ∨ ∃ b, b ≠ 0 ∧ sk_got s' = sk_got s ++ [b]).
Proof.
  unfold readAck. destruct (byte_keeps s) as (Hi & _). pose proof (byte_got s) as Hg.
  destruct (sk_byte s) as [[b|e1] s1]; cbn in *.
  - destruct (Z.eqb_spec b 0) as [->|]; [done|]. destruct (line_keeps s1) as [Hl Hm].
    destruct (sk_line s1) as [l s2]. cbn in *. intros [= _ <-]. rewrite Hl, Hm. eauto.
  - intros [= _ <-]. rewrite Hg, app_nil_r. eauto.
Qed.

(** Writing: all of it or an initial part. *)
Lemma put_part x s o s' :
  sk_put x s = (o, s') →
  sk_cmd s' = sk_cmd s ∧ sk_got s' = sk_got s
  ∧ ∃ y z, x = y +:+ z ∧ sk_in s' = sk_in s +:+ y ∧ (z = "" ∨ deaf s').
Proof.
  intros E. destruct (put_keeps x s) as [Hc Hg]. rewrite E in Hc, Hg. do 2 (split; [done|]).
  destruct o as [e|].
  - apply put_refused in E as (Hd & y & z & ? & ?). exists y, z. eauto.
  - apply put_in in E. exists x, "". rewrite app_nil_r_str. eauto.
Qed.

Lemma copy_sent data read_err s s' :
  data ≠ "" → copy data read_err s = (None, s') →
  read_err = None ∧ ¬ deaf s ∧ sk_in s' = sk_in s +:+ data ∧ sk_cmd s' = sk_cmd s ∧ sk_got s' = sk_got s.
Proof.
  intros Hd. unfold copy. destruct (is_empty data) eqn:Ee; [by apply is_empty_true in Ee|].
  destruct (sk_put data s) as [[e|] s1] eqn:E; [done|]. intros [= -> <-]. split; [done|].
  destruct (put_part _ _ _ _ E) as (Hc & Hg & _). split; [|by rewrite (put_in _ _ _ E)].
  intros Hs. apply (Hs data Hd). by rewrite E.
Qed.

(** A dialogue without error has sent the control line, the data and (unless
    that write was refused) the zero byte, and read two zero bytes. *)
Lemma dialogue_sent mode size name data read_err s s' :
  data ≠ "" → dialogue mode size name data read_err s = (None, s') →
  read_err = None ∧ sk_cmd s' = sk_cmd s ∧ sk_got s' = sk_got s ++ [0; 0]
  ∧ ∃ t, (t = "" ∨ t = String "000" "")
      ∧ sk_in s' = ((sk_in s +:+ control mode size name) +:+ data) +:+ t.
Proof.
  intros Hd. unfold dialogue. destruct (sk_put (control mode size name) s) as [o1 s1] eqn:E1.
  apply put_part in E1 as (Hc1 & Hg1 & y & z & Hyz & Hi1 & Hz).
  destruct (readAck s1) as [[e|] s2] eqn:E2; [done|]. apply readAck_ok in E2 as (Hi2 & Hc2 & Hg2 & Hd2).
  destruct (copy data read_err s2) as [[e|] s3] eqn:E3; [done|].
  apply copy_sent in E3 as (Hre & Hdeaf & Hi3 & Hc3 & Hg3); [|done].
  destruct (sk_put (String "000" "") s3) as [o4 s4] eqn:E4. apply put_part in E4 as (Hc4 & Hg4 & t & u & Ht & Hi4 & _).
  intros (Hi5 & Hc5 & Hg5 & _)%readAck_ok. split; [done|]. split; [congruence|].
  split; [rewrite Hg5, Hg4, Hg3, Hg2, Hg1, <- app_assoc; done|]. exists t. split.
  - destruct t as [|c [|]]; [by left| |by destruct u]. injection Ht as <- _. by right.
  - destruct Hz as [->|Hz]; [|tauto]. rewrite app_nil_r_str in Hyz. by rewrite Hi5, Hi4, Hi3, Hi2, Hi1, Hyz.
Qed.

(** A dialogue whose first acknowledgement is not zero fails, and has sent
    nothing but the control line. *)
Lemma dialogue_refused mode size name data read_err s r s' b l :
  dialogue mode size name data read_err s = (r, s') → sk_got s' = sk_got s ++ b :: l → b ≠ 0 →
  r ≠ None ∧ ∃ y z, control mode size name = y +:+ z ∧ sk_in s' = sk_in s +:+ y.
Proof.
  unfold dialogue. destruct (sk_put (control mode size name) s) as [o1 s1] eqn:E1.
  apply put_part in E1 as (_ & Hg1 & y & z & Hyz & Hi1 & _).
  destruct (readAck s1) as [[e|] s2] eqn:E2.
  { intros [= <- <-] _ _. split; [done|]. apply readAck_err in E2 as [-> _]. eauto. }
  apply readAck_ok in E2 as (_ & _ & Hg2 & _). intros Hr Hg Hb. exfalso. rewrite Hg1 in Hg2.
  enough (∃ l', sk_got s' = (sk_got s ++ [0]) ++ l') as (l' & E).
  { rewrite Hg, <- app_assoc in E. apply app_inv_head in E. by injection E as ->. }
  rewrite <- Hg2. clear Hg2 Hg. revert Hr. unfold copy.
  destruct (is_empty data); [|destruct (sk_put data s2) as [[e|] s3] eqn:E3;
    apply put_part in E3 as (_ & Hg3 & _); [intros [= _ <-]; exists []; by rewrite app_nil_r|rewrite <- Hg3; clear Hg3 s2]; rename s3 into s2].
  all: destruct read_err as [e|]; [intros [= _ <-]; exists []; by rewrite app_nil_r|].
  all: destruct (sk_put (String "000" "") s2) as [o4 s4] eqn:E4; apply put_part in E4 as (_ & <- & _).
  all: destruct r as [e|]; [intros [_ [->|(c & _ & ->)]]%readAck_err|intros (_ & _ & -> & _)%readAck_ok];
    eauto; exists []; by rewrite app_nil_r.
Qed.

(** A session nothing was done with yet. *)
Definition fresh (s : S) : Prop := sk_cmd s = None ∧ sk_in s = "" ∧ sk_got s = [].

(** C38. A push speaks the sink's protocol to [scp -t] at the remote path.  If
    [Push] returns no error on a file that is not empty, then the session runs
    [scp -t] with that path, its input was the control line (with the
    mode, the size the file had when it was opened and its base name), then
    everything the file held, and then a zero byte or nothing (that
    last write's error is dropped, as is the control line's), reading the file
    met no error, both acknowledgements were the zero byte and the command
    exited with status 0.  If the first acknowledgement is another byte, [Push]
    fails and no byte of the file was sent. *)
Theorem Push_sends lp rp a s r s' mode size data read_err :
  fresh s → Push lp rp a s = (r, s') → a.(pa_ctx) = None →
  a.(pa_open) = Ok (mode, size, data, read_err) →
  (r = None → data ≠ "" →
     sk_cmd s' = Some ("scp -t " +:+ rp)
     ∧ (∃ t, (t = "" ∨ t = String "000" "")
          ∧ sk_in s' = (control mode size (Base lp) +:+ data) +:+ t)
     ∧ read_err = None ∧ sk_got s' = [0; 0] ∧ sk_wait s' = None)
  ∧ (∀ b l, sk_got s' = b :: l → b ≠ 0 →
       r ≠ None ∧ ∃ z, control mode size (Base lp) = sk_in s' +:+ z).
Proof.
  intros (Hc & Hi & Hg) Hp Hx Ho. unfold Push in Hp. rewrite Ho, Hx in Hp.
  destruct (pa_new a). { injection Hp as <- <-. rewrite Hg. done. }
  destruct (pa_pipes a) as [[]|]. { injection Hp as <- <-. rewrite Hg. done. }
  destruct (sk_start _ s) as [o s1] eqn:Es. apply start_runs in Es as (Hi1 & Hg1 & Hc1).
  destruct o as [e|]. { injection Hp as <- <-. rewrite Hg1, Hg. done. }
  specialize (Hc1 eq_refl). rewrite Hi in Hi1. rewrite Hg in Hg1.
  destruct (dialogue _ _ _ _ _ _) as [o s2] eqn:Ed.
  assert (s' = s2 ∧ (o ≠ None → r ≠ None) ∧ (r = None → o = None ∧ sk_wait s2 = None)) as (-> & Hor & Hro).
  { destruct o; [by injection Hp as <- <-|]. destruct (sk_wait s2); by injection Hp as <- <-. }
  clear Hp. split.
  - intros [-> Hw]%Hro Hd. apply dialogue_sent in Ed as (Hre & Hc2 & Hg2 & t & Ht & Hi2); [|done].
    rewrite Hc2, Hg2, Hg1. split; [done|]. split; [|done]. exists t. split; [done|]. by rewrite Hi2, Hi1.
  - intros b l Hb Hb0. destruct (dialogue_refused _ _ _ _ _ _ _ _ b l Ed) as (Hr & y & z & Hy & Hin); [by rewrite Hg1|done|].
    split; [by apply Hor|]. exists z. by rewrite Hin, Hi1.
Qed.
End push_proofs.

(** A session kept in memory: the command, what was written, what was read,
    the bytes still to come, and how it exits. *)
Record MemSession : Type := mkMemSession {
  ms_cmd : option string;
  ms_in : string;
  ms_got : list Z;
  ms_acks : list Z;
  ms_exit : option error
}.

#[export] Instance mem_session : Session MemSession := {
  sk_start c s := (None, mkMemSession (Some c) s.(ms_in) s.(ms_got) s.(ms_acks) s.(ms_exit));
  sk_put x s := (None, mkMemSession s.(ms_cmd) (s.(ms_in) +:+ x) s.(ms_got) s.(ms_acks) s.(ms_exit));
  sk_byte s := match s.(ms_acks) with
               | [] => (Err "EOF", s)
               | b :: l => (Ok b, mkMemSession s.(ms_cmd) s.(ms_in) (s.(ms_got) ++ [b]) l s.(ms_exit))
               end;
  sk_line s := ("no such directory", s);
  sk_wait := ms_exit;
  sk_cmd := ms_cmd;
  sk_in := ms_in;
  sk_got := ms_got
}.

#[export] Instance mem_session_laws : SessionLaws MemSession.
Proof.
  split; try done.
  - by intros c s o s' [= <- <-].
  - by intros x s s' [= <-].
  - intros [c i g [|b l] e]; done.
  - intros [c i g [|b l] e]; cbn; by rewrite ?app_nil_r.
Qed.

Definition new_mem (acks : list Z) (exit : option error) : MemSession := mkMemSession None "" [] acks exit.

Definition ex_push : PushAns (S := MemSession) := mkPushAns (Ok (420, 5, "hello", None)) None None None "".

Lemma Push_sends_witness :
  (∃ s', Push "/srv/a.qcow2" "/tmp" ex_push (new_mem [0; 0] None) = (None, s')
         ∧ sk_cmd s' = Some "scp -t /tmp"
         ∧ sk_in s' = "C0644 5 a.qcow2" +:+ String newline ("hello" +:+ String "000" ""))
  ∧ ∃ e s', Push "/srv/a.qcow2" "/nowhere/" ex_push (new_mem [1] None) = (Some e, s')
         ∧ ∃ z, control 420 5 "a.qcow2" = sk_in s' +:+ z.
Proof.
  split.
  - eexists. split; [vm_compute; reflexivity|]. split; [|vm_compute; reflexivity].
    refine (proj1 (proj1 (Push_sends "/srv/a.qcow2" "/tmp" ex_push (new_mem [0; 0] None) None _ 420 5 "hello" None
      _ _ eq_refl eq_refl) eq_refl _)); [repeat split|vm_compute; reflexivity|discriminate].
  - do 2 eexists. split; [vm_compute; reflexivity|].
    refine (proj2 (proj2 (Push_sends "/srv/a.qcow2" "/nowhere/" ex_push (new_mem [1] None) _ _ 420 5 "hello" None
      _ _ eq_refl eq_refl) 1 [] _ _)); [repeat split|vm_compute; reflexivity|vm_compute; reflexivity|discriminate].
Defined.

(** ** The client as EntRemote.v sees it *)

(** What an operator's message can tell of an error. *)
Definition goerr_of (e : error) : goerr := (e.(e_text), err_is e ConnectionLost).

Section client.
Context {W S : Type} `{Session S}.
(** The answers of the network to a command and to a push (with the new session and
    where it leaves the world), waiting, and the clock. *)
Context (run_ans : string → W → RunAns * W).
Context (push_ans : string → string → W → PushAns (S := S) * S * (S → W)).
Context (wait : Z → W → option goerr * W) (now : W → Z).

Definition ssh_cluster : Cluster W := {|
  cl_run cmd w := let '(a, w) := run_ans cmd w in
                  let '(ls, e) := Run cmd a in (ls, goerr_of <$> e, w);
  cl_push lp rp w := let '(a, s, leave) := push_ans lp rp w in
                     let '(e, s) := Push lp rp a s in (goerr_of <$> e, leave s);
  cl_wait := wait;
  cl_now := now
|}.

Lemma ssh_cluster_laws :
  (∀ cmd w, now w <= now (run_ans cmd w).2) →
  (∀ d w, (wait d w).1 = None → now w + d <= now (wait d w).2) →
  @ClusterLaws W ssh_cluster.
Proof.
  intros Hr Hw. split; cbn; [|done]. intros cmd w. specialize (Hr cmd w).
  destruct (run_ans cmd w) as [a w1]. by destruct (Run cmd a).
Qed.
End client.

(** The double the unit tests use. *)
Record MockClient : Type := mkMockClient {
  mc_Runs : list string;
  mc_Pushes : list (string * string);
  mc_Script : option (string → list string * option error)
}.

Definition mock_Run (cmd : string) (m : MockClient) : list string * option error * MockClient :=
  let m := mkMockClient (m.(mc_Runs) ++ [cmd]) m.(mc_Pushes) m.(mc_Script) in
  match m.(mc_Script) with
  | None => ([], None, m)
  | Some script => let '(lines, err) := script cmd in (lines, err, m)
  end.

Definition mock_Push (lp rp : string) (m : MockClient) : option error * MockClient :=
  (None, mkMockClient m.(mc_Runs) (m.(mc_Pushes) ++ [(lp, rp)]) m.(mc_Script)).
