(* ===== verification/EntPreflight.v ===== *)
(** * The installer's preflight and the install form (internal/enterprise/manager.go)

    What is verified before an install touches the cluster, and what is
    gathered to fill in the form.  The driver's own files are looked at
    through [fs_size] ([os.Stat]), [fs_read] ([os.ReadFile]) and [fs_md5]
    ([fileMD5], an md5 in hex); the manifests that [LoadManifests] finds and
    the signature check of an advisor bundle are arguments. *)
From S2P Require Import Prelude GoStrings GoNet EntModel EntManifest EntPlan EntRun EntRemote.
From Stdlib Require Import Ascii.

Open Scope string_scope.
Open Scope list_scope.
Open Scope Z_scope.
Open Scope remote_scope.

(** ** Probes *)

Definition lbIPTakenProbe (addr : string) : string :=
  "source /etc/admin-openrc.sh && addr=" +:+ addr +:+ dq " && { openstack port list --fixed-ip ip-address=@$addr@ -f value -c id 2>/dev/null; openstack floating ip list --floating-ip-address @$addr@ -f value -c id 2>/dev/null; } | grep -q . && echo taken || { dev=$(ip -o route get @$addr@ 2>/dev/null | sed -n @s/.* dev \([^ ]*\).*/\1/p@); [ -n @$dev@ ] && arping -c2 -w2 -I @$dev@ @$addr@ >/dev/null 2>&1 && echo taken || echo free; }".

Definition advisorConsoleAddrProbe : string :=
  "source /etc/admin-openrc.sh && openstack loadbalancer list -f value -c name 2>/dev/null | sed -n 's/.*cube-advisor-web-\([0-9-]*\)$/\1/p' | tr '-' '.'".

(** [regexp.QuoteMeta]. *)
Definition is_meta (c : ascii) : bool :=
  contains ["\"; "."; "+"; "*"; "?"; "("; ")"; "|"; "["; "]"; "{"; "}"; "^"; "$"]%char c.
Fixpoint QuoteMeta (s : string) : string :=
  match s with
  | "" => ""
  | String c s' => if is_meta c then String "\" (String c (QuoteMeta s')) else String c (QuoteMeta s')
  end.

Definition advisorLBAddrProbe (fw : string) : string :=
  let name := if is_empty fw then ".*" else QuoteMeta fw in
  let re := "^kube_service_" +:+ name +:+ "_cube-advisor_cube-advisor$" in
  "source /etc/admin-openrc.sh && for v in $(openstack loadbalancer list -f json 2>/dev/null | jq -r --arg n "
  +:+ shellQuote re
  +:+ dq " '.[] | select(.name | test($n)) | .id'); do openstack loadbalancer show @$v@ -f json 2>/dev/null | jq -r '@vip \(.vip_address) \(.vip_port_id)@' | while read -r _ a p; do echo @vip $a@; openstack floating ip list --port @$p@ -f value -c @Floating IP Address@ 2>/dev/null | sed 's/^/fip /'; done; done".

Definition lbIPPoolProbe (want : nat) : string := Join (dq <$> [
  "source /etc/admin-openrc.sh && sub=$(openstack subnet list --network public -f value -c ID | head -1) && [ -n @$sub@ ] && python3 -c '";
  "import json,subprocess,ipaddress,re,sys";
  "from concurrent.futures import ThreadPoolExecutor";
  "sub=sys.argv[1]";
  "subj=json.loads(subprocess.check_output([@openstack@,@subnet@,@show@,sub,@-f@,@json@]))";
  "pools=subj.get(@allocation_pools@) or []";
  "portj=json.loads(subprocess.check_output([@openstack@,@port@,@list@,@--network@,@public@,@-f@,@json@]))";
  "used=set(re.findall(r@\d+\.\d+\.\d+\.\d+@, json.dumps(portj)))";
  "def live(ip):";
  "    try:";
  "        out=subprocess.check_output([@ip@,@-o@,@route@,@get@,ip],text=True)";
  "    except Exception:";
  "        return False";
  "    m=re.search(r@ dev (\S+)@, out)";
  "    if not m:";
  "        return False";
  "    return subprocess.call([@arping@,@-c2@,@-w2@,@-I@,m.group(1),ip],stdout=subprocess.DEVNULL,stderr=subprocess.DEVNULL)==0";
  "cands=[]";
  "for p in pools:";
  "    a=int(ipaddress.ip_address(p[@start@])); b=int(ipaddress.ip_address(p[@end@]))";
  "    for i in range(a,b+1):";
  "        ip=str(ipaddress.ip_address(i))";
  "        if ip not in used:";
  "            cands.append(ip)";
  "        if len(cands)>=64:";
  "            break";
  "    if len(cands)>=64:";
  "        break";
  "want=int(sys.argv[2]) if len(sys.argv)>2 else 1";
  "found=[]";
  "with ThreadPoolExecutor(max_workers=32) as ex:";
  "    for ip,busy in zip(cands,ex.map(live,cands)):";
  "        if not busy:";
  "            found.append(ip)";
  "            if len(found)>=want:";
  "                break";
  "for ip in found:";
  "    print(ip)";
  "' @$sub@ @" +:+ Itoa (Z.of_nat want) +:+ "@"]) nl.

Definition storageProbe : string :=
  "source /etc/admin-openrc.sh && { openstack volume type list --default -f value -c Name 2>/dev/null; openstack volume type list -f value -c Name 2>/dev/null; } | grep -v '^$' | head -1".

Definition existingFrameworkLBProbe (framework : string) : string :=
  "ip=$(hostname -I | awk '{print $1}'); dig @$ip +short " +:+ framework
  +:+ ".registry.cubecos.com 2>/dev/null | grep -oE '^([0-9]+\.){3}[0-9]+$' | head -1".

(** ** Addresses *)

(** The loop over the console pool: [seen] are the addresses before. *)
Fixpoint check_pool (p : InstallParams) (seen : list string) (pool : list string) : result (list string) :=
  match pool with
  | [] => Ok seen
  | a :: pool =>
      if is_empty a then check_pool p seen pool
      else match ParseIP a with
      | None => Err ("web-console address " +:+ Quote a +:+ " is not an IP address")
      | Some _ =>
          if (a =? p.(ip_AdvisorLBIP))%string then
            Err ("Advisor LB IP " +:+ a +:+ " is also in the web-console pool — the advisor and each console origin need their own address")
          else if contains seen a then
            Err ("web-console address " +:+ a +:+ " is listed twice — each console origin needs its own address")
          else check_pool p (a :: seen) pool
      end
  end.

Definition checkAdvisorAddrs (p : InstallParams) : result unit :=
  if negb (is_empty p.(ip_AdvisorLBIP))
     && match ParseIP p.(ip_AdvisorLBIP) with None => true | Some _ => false end then
    Err ("Advisor LB IP " +:+ Quote p.(ip_AdvisorLBIP) +:+ " is not an IP address")
  else
    let? seen := check_pool p [] p.(ip_AdvisorPool) in
    if negb (is_empty p.(ip_LBIP)) && (p.(ip_LBIP) =? p.(ip_AdvisorLBIP))%string then
      Err ("Advisor LB IP " +:+ p.(ip_LBIP) +:+ " is the app-framework's LB IP — pick a separate free address")
    else if negb (is_empty p.(ip_LBIP)) && contains seen p.(ip_LBIP) then
      Err ("web-console address " +:+ p.(ip_LBIP) +:+ " is the app-framework's LB IP — pick a separate free address")
    else Ok tt.

(** [parseOwnLBAddrs]: every address, and the one the install was given. *)
Fixpoint own_addrs (all : list string) (given vip : string) (lines : list string) : list string * string :=
  match lines with
  | [] => (all, if is_empty given then vip else given)
  | l :: lines =>
      match Fields l with
      | [tag; a] =>
          let all := all ++ [a] in
          if (tag =? "fip")%string && is_empty given then own_addrs all a vip lines
          else if (tag =? "vip")%string && is_empty vip then own_addrs all given a lines
          else own_addrs all given vip lines
      | _ => own_addrs all given vip lines
      end
  end.
Definition parseOwnLBAddrs (lines : list string) : list string * string := own_addrs [] "" "" lines.

(** [take()]: the next free address, or none. *)
Definition take_addr (rest : list string) : string * list string :=
  match rest with [] => ("", []) | a :: rest => (a, rest) end.

Definition suggestAddrs (free : list string) (fwLB ownLB : string) (ownConsole : list string) (n : nat)
    : string * string * list string :=
  let rest := List.filter (fun a => negb (a =? fwLB)%string && negb (a =? ownLB)%string
                                    && negb (contains ownConsole a)) free in
  let '(fwLB, rest) := if is_empty fwLB then take_addr rest else (fwLB, rest) in
  let '(ownLB, rest) := if is_empty ownLB then take_addr rest else (ownLB, rest) in
  match ownConsole with
  | _ :: _ => (fwLB, ownLB, ownConsole)
  | [] => (fwLB, ownLB, take n rest)
  end.

(** ** Small helpers *)

Definition planHasStep (plan : list plannedStep) (name : string) : bool :=
  existsb (fun ps => (ps.(ps_Name) =? name)%string) plan.

Definition listHasName (lines : list string) (name : string) : bool :=
  existsb (fun l => contains (Fields l) name) lines.

(** [humanSize], exact below 2^53 bytes (where [float64(n)] is exact). *)
Fixpoint human_exp (fuel : nat) (x div : Z) (exp : nat) : Z * nat :=
  match fuel with
  | O => (div, exp)
  | S fuel => if 1024 <=? x then human_exp fuel (x / 1024) (div * 1024) (S exp) else (div, exp)
  end.
(** A quotient rounded to the nearest integer, ties to even. *)
Definition div_even (a b : Z) : Z :=
  let q := a / b in let r := a mod b in
  if 2 * r <? b then q else if b <? 2 * r then q + 1 else if Z.even q then q else q + 1.
Definition humanSize (n : Z) : string :=
  if n <? 1024 then Itoa n +:+ " B"
  else
    let '(div, exp) := human_exp 6 (n / 1024) 1024 0 in
    let t := div_even (10 * n) div in
    Itoa (t / 10) +:+ "." +:+ Itoa (t mod 10) +:+ " " +:+ String.substring exp 1 "KMGTPE" +:+ "iB".

Section Preflight.
Context {W : Type} `{Cluster W}.
Variable fs_size : string → option Z.
Variable fs_read : string → result string.
Variable fs_md5 : string → result string.
Variable manifests : list Manifest.
Variable dataDir : string.
(** [VerifyAdvisorBundle] of a bundle against a release key: the releases. *)
Variable VerifyAdvisorBundle : string → string * string → result (list string).

(** Early return of an error. *)
Definition mthen (m k : M W (option goerr)) : M W (option goerr) :=
  let! e := m in match e with Some e => mret (Some e) | None => k end.
Infix ";;?" := mthen (at level 60, right associativity).

Definition fails (msg : string) : M W (option goerr) := mret (Some (errorf msg)).
Definition fine : M W (option goerr) := mret None.
Definition say (l : string) : M W (option goerr) := let! _ := onLine l in fine.

Fixpoint each {A} (f : A → M W (option goerr)) (l : list A) : M W (option goerr) :=
  match l with [] => fine | x :: l => f x ;;? each f l end.

Definition sshList (cmd : string) : M W (list string * option goerr) :=
  let! r := run cmd in mret (tidy r.1, r.2).

Definition probeTaken (addr : string) : M W bool :=
  let! r := run (lbIPTakenProbe addr) in
  mret (passes r.2 && contains (TrimSpace <$> r.1) "taken").

Definition readMD5Sidecar (p : string) : result string :=
  let? b := fs_read p in
  match Fields b with [] => Err "empty md5 file" | f :: _ => Ok (ToLower f) end.

Definition enforceMatrix (x : Install) : M W (option goerr) :=
  let advisor := (x.(i_Module) =? ModuleAdvisor)%string in
  let! r := sshList "cat /etc/version" in
  match r with
  | (v :: _, None) =>
      let '(version, build, commit) := ParseVersion v in
      match MatchManifest manifests version build commit with
      | None =>
          if advisor then
            say "⚠ advisor bundle signature not checked: no support-matrix manifest matches this cluster's version"
          else fine
      | Some mf =>
          (if negb (is_empty x.(i_Manifest)) && negb (x.(i_Manifest) =? mf.(mf_Name))%string then
             let msg := "requested manifest " +:+ Quote x.(i_Manifest) +:+ " differs from "
               +:+ Quote mf.(mf_Name) +:+ ", the one matching this cluster" in
             if negb x.(i_Lab) then fails (msg +:+ " (tick Lab install to override)")
             else say ("⚠ " +:+ msg +:+ " (lab install, continuing)")
           else fine) ;;?
          let file := if advisor then x.(i_Params).(ip_AdvisorFile) else x.(i_Params).(ip_AppFile) in
          match CheckModule (Some mf) x.(i_Module) file x.(i_Lab) with
          | Err e => fails e
          | Ok warn =>
              (if is_empty warn then fine else say ("⚠ " +:+ warn)) ;;?
              if negb advisor then fine
              else match mf.(mf_AdvisorReleaseKey) with
              | None => say ("⚠ advisor bundle signature not checked: no trusted release key for manifest "
                             +:+ dq "@" +:+ mf.(mf_Name) +:+ dq "@")
              | Some key =>
                  say ("Verifying the advisor bundle is signed with " +:+ mf.(mf_Name) +:+ "'s release key…") ;;?
                  match VerifyAdvisorBundle (localPath dataDir "advisor" x.(i_Params).(ip_AdvisorFile)) key with
                  | Err e => fails e
                  | Ok vs => say ("  ✓ agent release(s) " +:+ Join vs ", " +:+ " verify")
                  end
              end
          end
      end
  | (_, e) =>
      fails ("cannot read the cluster version (/etc/version) to apply the support matrix: "
             +:+ match e with Some e => e.1 | None => "empty" end)
  end.

(** The framework has to be there, or the plan creates it on a free address. *)
Definition pf_framework (x : Install) (plan : list plannedStep) (fw : list string) : M W (option goerr) :=
  let p := x.(i_Params) in
  let creates := planHasStep plan "framework_create" in
  (if negb creates && negb (x.(i_Module) =? ModuleAppFW)%string && negb (x.(i_Op) =? "uninstall")%string then
     let name := or_default p.(ip_Framework) p.(ip_Project) in
     if is_empty name || negb (listHasName fw name) then
       fails ("App-framework " +:+ Quote name +:+ " is not on this cluster — install App-Framework first, or pick an OS image to create it as part of this install")
     else say ("App-framework " +:+ Quote name +:+ " present — installing onto it.")
   else fine) ;;?
  if negb creates then fine
  else
    let name := p.(ip_Project) in
    if negb (is_empty name) && listHasName fw name then
      say ("App-framework " +:+ Quote name +:+ " already present — the create step will verify it's active (or wait), not recreate it.")
    else if is_empty p.(ip_LBIP) then fine
    else
      say ("Checking LB IP " +:+ p.(ip_LBIP) +:+ " is free…") ;;?
      let! taken := probeTaken p.(ip_LBIP) in
      if taken : bool then
        fails ("LB IP " +:+ p.(ip_LBIP) +:+ " is already in use (a port or floating IP on this cluster holds it, or it answers ARP on the provider network — e.g. another cluster's load balancer) — pick a free address in the external range")
      else fine.

Definition taken_note : string :=
  " is already in use (a port or floating IP on this cluster holds it, or it answers ARP on the provider network) — pick a free address in the external range".

Definition pf_advisor (x : Install) : M W (option goerr) :=
  let p := x.(i_Params) in
  if (x.(i_Module) =? ModuleAdvisor)%string && negb (x.(i_Op) =? "uninstall")%string then
    match checkAdvisorAddrs p with
    | Err e => fails e
    | Ok _ =>
        let addr := p.(ip_AdvisorLBIP) in
        if is_empty addr then fine
        else
          let! r := run (advisorLBAddrProbe (or_default p.(ip_Framework) p.(ip_Project))) in
          let '(own, _) := parseOwnLBAddrs r.1 in
          if contains own addr then
            say ("Advisor LB IP " +:+ addr +:+ " is already this advisor's own — not probing it.")
          else
            say ("Checking Advisor LB IP " +:+ addr +:+ " is free…") ;;?
            let! taken := probeTaken addr in
            if taken : bool then fails ("Advisor LB IP " +:+ addr +:+ taken_note) else fine
    end
  else fine.

Definition pf_pool_addr (mine : list string) (addr : string) : M W (option goerr) :=
  if is_empty addr then fine
  else if contains mine addr then
    say ("Web-console address " +:+ addr +:+ " is already this advisor's own — not probing it.")
  else
    say ("Checking web-console address " +:+ addr +:+ " is free…") ;;?
    let! taken := probeTaken addr in
    if taken : bool then fails ("web-console address " +:+ addr +:+ taken_note) else fine.

Definition pf_pool (x : Install) : M W (option goerr) :=
  match x.(i_Params).(ip_AdvisorPool) with
  | [] => fine
  | pool =>
      let! r := run advisorConsoleAddrProbe in
      each (pf_pool_addr (tidy r.1)) pool
  end.

Definition ok_line (name : string) (size : Z) (suffix : string) : string :=
  "  ✓ " +:+ name +:+ " (" +:+ humanSize size +:+ suffix +:+ ")".

(** A file that is there: not empty, and as its checksum says. *)
Definition pf_file (name p : string) (size : Z) : M W (option goerr) :=
  if size =? 0 then fails ("artifact is empty (0 bytes): " +:+ name)
  else
    let md5 := p +:+ ".md5" in
    match fs_size md5 with
    | None => say (ok_line name size "")
    | Some _ =>
        match readMD5Sidecar md5 with
        | Err e => fails ("cannot read " +:+ name +:+ ".md5: " +:+ e)
        | Ok want =>
            say ("  checking integrity of " +:+ name +:+ " (" +:+ humanSize size +:+ ")…") ;;?
            match fs_md5 p with
            | Err e => fails ("cannot hash " +:+ name +:+ ": " +:+ e)
            | Ok got =>
                if negb (EqualFold got want) then
                  fails ("artifact " +:+ name +:+ " failed integrity check (md5 " +:+ got +:+ ", expected "
                    +:+ want +:+ ") — the staged file is truncated or corrupt; re-copy it from the source")
                else say (ok_line name size ", md5 ok")
            end
        end
    end.

Definition pf_artifact (ps : plannedStep) : M W (option goerr) :=
  if negb (bool_decide (ps.(ps_Kind) = KScpRun)) || is_empty ps.(ps_LocalPath) then fine
  else
    let name := Base ps.(ps_LocalPath) in
    match fs_size ps.(ps_LocalPath) with
    | Some size => pf_file name ps.(ps_LocalPath) size
    | None =>
        if negb (is_empty ps.(ps_Present)) then
          let! r := run ps.(ps_Present) in
          if passes r.2 then say ("  ✓ " +:+ name +:+ " already imported — not needed")
          else fails ("missing artifact: " +:+ name)
        else if negb (is_empty ps.(ps_ImageName)) then
          let! r := run (show_cmd ps.(ps_ImageName)) in
          if passes r.2 then
            say ("  ✓ " +:+ ps.(ps_ImageName) +:+ " already in glance (extpack) — " +:+ name +:+ " not needed")
          else fails ("missing artifact: " +:+ name +:+ " (stage it, or import the extpack first: hex_cli -c iaas -c image -c import_extpack local <file>)")
        else fails ("missing artifact: " +:+ name)
    end.

(** Run a command whose failure ends the preflight, showing its output. *)
Definition run_checked (cmd : string) : M W (option goerr * list string) :=
  let! r := run_shown cmd in mret (r.2, r.1).

Definition preflight (x : Install) (plan : list plannedStep) : M W (option goerr) :=
  each (fun w => say ("⚠ " +:+ w)) x.(i_Warnings) ;;?
  (if ((x.(i_Module) =? ModuleCMP)%string || (x.(i_Module) =? ModuleAdvisor)%string)
      && negb (x.(i_Op) =? "uninstall")%string then enforceMatrix x else fine) ;;?
  say "Checking cluster reachability…" ;;?
  (let! r := run_checked "cubectl node exec -p 'hostname'" in mret r.1) ;;?
  say "Listing existing app frameworks…" ;;?
  (let! r := run_checked list_cmd in
   match r.1 with
   | Some e => mret (Some e)
   | None =>
       pf_framework x plan r.2 ;;?
       pf_advisor x ;;?
       pf_pool x ;;?
       say "Verifying staged artifacts…" ;;?
       each pf_artifact plan ;;?
       say "Preflight checks passed."
   end).

(** ** The install form *)

Record ClusterQuery : Type := mkClusterQuery {
  q_Projects : list string;
  q_Networks : list string;
  q_AirgapSupported : bool;
  q_SuggestedLBIP : string;
  q_SuggestedStorage : string;
  q_Version : string;
  q_Manifest : string;
  q_ManifestOSImage : string;
  q_Manifests : list string;
  q_SuggestedAdvisorLBIP : string;
  q_SuggestedAdvisorPool : list string
}.

Definition advisorPoolSize : nat := 3.

(** [Introspect], after the dial. *)
Definition Introspect (framework : string) : M W (goerr + ClusterQuery) :=
  let! projects := sshList "hex_sdk os_list_project_by_domain_basic default" in
  match projects.2 with
  | Some e => mret (inl e)
  | None =>
      let! networks := sshList "source /etc/admin-openrc.sh && openstack network list -f value -c Name" in
      match networks.2 with
      | Some e => mret (inl e)
      | None =>
          let! out := sshList "grep -rlqw airgap_sim_apply /usr/lib/hex_sdk/modules/ && echo yes || echo no" in
          let airgap := match out.1 with x :: _ => (x =? "yes")%string | [] => false end in
          let! fwLB :=
            (if is_empty framework then mret ""
             else let! ip := sshList (existingFrameworkLBProbe framework) in
                  mret (match ip.1 with x :: _ => x | [] => "" end)) in
          let! ownLB := sshList (advisorLBAddrProbe framework) in
          let! ownConsole := sshList advisorConsoleAddrProbe in
          let want := if is_empty fwLB then S advisorPoolSize else advisorPoolSize in
          let! free := sshList (lbIPPoolProbe want) in
          let '(_, own) := parseOwnLBAddrs ownLB.1 in
          let '(lb, advLB, pool) := suggestAddrs free.1 fwLB own ownConsole.1 (advisorPoolSize - 1) in
          let! st := sshList storageProbe in
          let storage := match st.1 with x :: _ => x | [] => "" end in
          let! ver := sshList "cat /etc/version" in
          match ver.1 with
          | [] => mret (inr (mkClusterQuery projects.1 networks.1 airgap lb storage "" "" ""
                               (ManifestNames manifests) advLB pool))
          | v :: _ =>
              let '(version, build, commit) := ParseVersion v in
              match MatchManifest manifests version build commit with
              | None => mret (inr (mkClusterQuery projects.1 networks.1 airgap lb storage version "" ""
                                     (ManifestNames manifests) advLB pool))
              | Some mf =>
                  mret (inr (mkClusterQuery projects.1 networks.1
                    (default airgap mf.(mf_AirgapSupported)) lb storage version mf.(mf_Name)
                    (match mf.(mf_Appfw) with Some a => a.(af_OSImage) | None => "" end)
                    (ManifestNames manifests) advLB pool))
              end
          end
      end
  end.
End Preflight.

(** ** The addresses *)

Definition named (l : list string) : list string := List.filter (fun a => negb (is_empty a)) l.
Definition is_ip (a : string) : Prop := is_Some (ParseIP a).

Lemma named_cons a l : named (a :: l) = if is_empty a then named l else a :: named l.
Proof. unfold named. cbn. by destruct (is_empty a). Qed.

Lemma check_pool_spec p seen pool out :
  check_pool p seen pool = Ok out ↔
    out = rev (named pool) ++ seen ∧ Forall is_ip (named pool)
    ∧ p.(ip_AdvisorLBIP) ∉ named pool ∧ NoDup (named pool) ∧ (∀ a, a ∈ named pool → a ∉ seen).
Proof.
  revert seen. induction pool as [|a pool IH]; intros seen; cbn [check_pool].
  { split; [intros [= <-]|by intros (-> & _)]. split_and!; try done; [apply not_elem_of_nil|constructor|intros a Ha; by apply not_elem_of_nil in Ha]. }
  rewrite named_cons. destruct (is_empty a) eqn:Ea; [apply IH|]. destruct (ParseIP a) as [ip|] eqn:Ep.
  2:{ split; [done|]. intros (_ & Hf & _). apply Forall_cons in Hf as [[? H] _]. congruence. }
  destruct (String.eqb_spec a (ip_AdvisorLBIP p)) as [->|Hne].
  { split; [done|]. intros (_ & _ & H & _). exfalso. apply H. by left. }
  destruct (contains seen a) eqn:Es.
  { apply contains_true in Es. split; [done|]. intros (_ & _ & _ & _ & H). exfalso. apply (H a); [by left|done]. }
  apply contains_false in Es. rewrite IH. cbn [rev]. rewrite <- app_assoc, Forall_cons, NoDup_cons, not_elem_of_cons.
  assert (is_ip a) as Hip by by eexists. split.
  - intros (-> & Hf & Hl & Hn & Hs). split_and!; try done.
    + intros Hin. apply (Hs a Hin). by left.
    + intros b [->|Hb]%elem_of_cons; [done|]. intros Hb'. apply (Hs b Hb). by right.
  - intros (-> & [_ Hf] & [_ Hl] & [Hna Hn] & Hs). split_and!; try done.
    intros b Hb [->|Hb']%elem_of_cons; [done|]. eapply Hs; [by right|done].
Qed.

Lemma named_nonempty l : "" ∉ named l.
Proof. unfold named. rewrite list_elem_of_In, filter_In. by intros [_ H]. Qed.

(** Two addresses that may be unnamed, and others, pairwise different. *)
Lemma distinct_named lb adv l :
  "" ∉ l →
  NoDup (named [lb; adv] ++ l) ↔ adv ∉ l ∧ NoDup l ∧ (lb ≠ "" → lb ≠ adv ∧ lb ∉ l).
Proof.
  intros Hne. rewrite !named_cons. cbn [named List.filter].
  destruct (is_empty lb) eqn:El, (is_empty adv) eqn:Ea;
    first [apply is_empty_true in El; subst lb|apply is_empty_false in El];
    first [apply is_empty_true in Ea; subst adv|apply is_empty_false in Ea]; cbn [app];
    rewrite ?NoDup_cons, ?not_elem_of_cons; intuition congruence.
Qed.

(** The check read off the code. *)
Lemma checkAdvisorAddrs_iff p :
  let lb := p.(ip_LBIP) in let adv := p.(ip_AdvisorLBIP) in let pool := named p.(ip_AdvisorPool) in
  checkAdvisorAddrs p = Ok tt ↔
    (adv = "" ∨ is_ip adv) ∧ Forall is_ip pool ∧ adv ∉ pool ∧ NoDup pool
    ∧ (lb ≠ "" → lb ≠ adv ∧ lb ∉ pool).
Proof.
  intros lb adv pool. unfold checkAdvisorAddrs. fold adv lb.
  destruct (negb (is_empty adv) && match ParseIP adv with None => true | Some _ => false end) eqn:E1.
  { split; [done|]. intros ([H|[ip H]] & _); exfalso; apply andb_true_iff in E1 as [E1 E2].
    - by rewrite H in E1.
    - by rewrite H in E2. }
  assert (adv = "" ∨ is_ip adv) as Hadv.
  { destruct (is_empty adv) eqn:E; [left; by apply is_empty_true|right]. cbn in E1. unfold is_ip.
    destruct (ParseIP adv); [by eexists|done]. }
  destruct (check_pool p [] (ip_AdvisorPool p)) as [seen|e] eqn:Ep; cbn [result_bind].
  - apply check_pool_spec in Ep as (-> & Hf & Hl & Hn & _). fold pool adv in Hf, Hl, Hn |- *.
    assert (∀ x, contains (rev pool ++ []) x = contains pool x) as ->.
    { intros x. rewrite app_nil_r. unfold contains. apply bool_decide_ext. by rewrite !list_elem_of_In, <- in_rev. }
    destruct (is_empty lb) eqn:El; cbn [negb andb]; [apply is_empty_true in El; tauto|].
    apply is_empty_false in El. pose proof (contains_true pool lb) as Hc.
    destruct (String.eqb_spec lb adv), (contains pool lb); intuition congruence.
  - split; [done|]. intros (_ & Hf & Hl & Hn & _). exfalso.
    assert (check_pool p [] (ip_AdvisorPool p) = Ok (rev pool ++ [])) as Hok; [|congruence].
    apply check_pool_spec. split_and!; try done. intros. apply not_elem_of_nil.
Qed.

(** The addresses of an advisor install are accepted exactly when they can
    all be given out: the Advisor LB IP, if named, and every console address
    are IP addresses, and the framework's LB IP, the Advisor LB IP and the
    console addresses are pairwise different. *)
Theorem checkAdvisorAddrs_ok p :
  checkAdvisorAddrs p = Ok tt ↔
    (p.(ip_AdvisorLBIP) = "" ∨ is_ip p.(ip_AdvisorLBIP))
    ∧ Forall is_ip (named p.(ip_AdvisorPool))
    ∧ NoDup (named [p.(ip_LBIP); p.(ip_AdvisorLBIP)] ++ named p.(ip_AdvisorPool)).
Proof. rewrite checkAdvisorAddrs_iff, distinct_named by apply named_nonempty. tauto. Qed.

(** ** Artifacts, and the preflight as a whole *)

Section Checked.
Context {W : Type} `{Cluster W}.
Variable fs_size : string → option Z.
Variable fs_read : string → result string.
Variable fs_md5 : string → result string.
Variable manifests : list Manifest.
Variable dataDir : string.
Variable VerifyAdvisorBundle : string → string * string → result (list string).
Notation preflight := (preflight fs_size fs_read fs_md5 manifests dataDir VerifyAdvisorBundle).
Notation enforceMatrix := (enforceMatrix manifests dataDir VerifyAdvisorBundle).
Notation pf_artifact := (pf_artifact fs_size fs_read fs_md5).

Lemma mthen_inv (m k : M W (option goerr)) w o w' :
  mthen m k w = (o, None, w') →
  ∃ o1 w1 o2, m w = (o1, None, w1) ∧ k w1 = (o2, None, w') ∧ o = o1 ++ o2.
Proof.
  intros (o1 & [e|] & w1 & o2 & H1 & H2 & ->)%mlet_inv; [discriminate H2|].
  by exists o1, w1, o2.
Qed.

Lemma fails_inv msg (w : W) o w' : fails msg w = (o, None, w') → False.
Proof. discriminate. Qed.

Lemma run_passes cmd (w : W) o ls e w' :
  run cmd w = (o, (ls, e), w') → passes e = true → ORun cmd true ∈ o.
Proof.
  unfold run. destruct (cl_run cmd w) as [[ls' e'] w1]. intros [= <- <- <- <-].
  destruct e'; [done|]. intros _. by left.
Qed.

(** The checksum file, when there is one, names the file's md5. *)
Definition md5_matches (p : string) : Prop :=
  fs_size (p +:+ ".md5") = None
  ∨ ∃ want got, readMD5Sidecar fs_read (p +:+ ".md5") = Ok want ∧ fs_md5 p = Ok got ∧ EqualFold got want = true.

(** What is known of an artifact after a preflight that did [o]. *)
Definition artifact_ok (o : list obs) (ps : plannedStep) : Prop :=
  ps.(ps_Kind) = KScpRun → ps.(ps_LocalPath) ≠ "" →
  match fs_size ps.(ps_LocalPath) with
  | Some size => size ≠ 0 ∧ md5_matches ps.(ps_LocalPath)
  | None =>
      if is_empty ps.(ps_Present)
      then ps.(ps_ImageName) ≠ "" ∧ ORun (show_cmd ps.(ps_ImageName)) true ∈ o
      else ORun ps.(ps_Present) true ∈ o
  end.

Lemma artifact_ok_mono o o' ps : o ⊆ o' → artifact_ok o ps → artifact_ok o' ps.
Proof.
  intros Ho Ha Hk Hl. specialize (Ha Hk Hl). destruct (fs_size _); [done|].
  destruct (is_empty (ps_Present ps)); [|by apply Ho]. destruct Ha as [H1 H2].
  split; [done|by apply Ho].
Qed.

Lemma pf_file_ok name p size (w : W) o w' :
  pf_file fs_size fs_read fs_md5 name p size w = (o, None, w') → size ≠ 0 ∧ md5_matches p.
Proof.
  unfold pf_file, md5_matches. destruct (Z.eqb_spec size 0) as [|Hs]; [by intros ?%fails_inv|].
  destruct (fs_size (p +:+ ".md5")) as [n|] eqn:E; [|intros _; split; [done|by left]].
  destruct (readMD5Sidecar fs_read _) as [want|e] eqn:Er; [|by intros ?%fails_inv].
  intros (o1 & w1 & o2 & _ & Hr & _)%mthen_inv.
  destruct (fs_md5 p) as [got|e] eqn:Em; [|by apply fails_inv in Hr].
  destruct (EqualFold got want) eqn:Ef; cbn [negb] in Hr; [|by apply fails_inv in Hr].
  split; [done|]. right. by exists want, got.
Qed.

Lemma pf_artifact_ok ps (w : W) o w' : pf_artifact ps w = (o, None, w') → artifact_ok o ps.
Proof.
  unfold EntPreflight.pf_artifact, artifact_ok. intros Hr Hk Hl.
  rewrite Hk in Hr. destruct (is_empty (ps_LocalPath ps)) eqn:El; [by apply is_empty_true in El|].
  cbn [bool_decide decide negb orb] in Hr.
  destruct (bool_decide_reflect (KScpRun = KScpRun)) as [_|]; [|done]. cbn [negb orb] in Hr.
  destruct (fs_size (ps_LocalPath ps)) as [size|]; [by eapply pf_file_ok|].
  destruct (is_empty (ps_Present ps)); cbn [negb] in Hr.
  - destruct (is_empty (ps_ImageName ps)) eqn:Ei; cbn [negb] in Hr; [by apply fails_inv in Hr|].
    apply is_empty_false in Ei. split; [done|].
    apply mlet_inv in Hr as (o1 & [ls e] & w1 & o2 & H1 & Hr & ->). cbn [snd] in Hr.
    destruct (passes e) eqn:Ee; [|by apply fails_inv in Hr].
    apply elem_of_app. left. by eapply run_passes.
  - apply mlet_inv in Hr as (o1 & [ls e] & w1 & o2 & H1 & Hr & ->). cbn [snd] in Hr.
    destruct (passes e) eqn:Ee; [|by apply fails_inv in Hr].
    apply elem_of_app. left. by eapply run_passes.
Qed.

Lemma each_ok {A} (f : A → M W (option goerr)) (P : list obs → A → Prop) l w o w' :
  (∀ o o' a, o ⊆ o' → P o a → P o' a) →
  (∀ a w o w', f a w = (o, None, w') → P o a) →
  each f l w = (o, None, w') → Forall (P o) l.
Proof.
  intros Hm Hf. revert w o. induction l as [|a l IH]; intros w o; [constructor|]. cbn [each].
  intros (o1 & w1 & o2 & H1 & H2 & ->)%mthen_inv. constructor.
  - eapply Hm; [|by eapply Hf]. set_solver.
  - eapply Forall_impl; [by eapply IH|]. intros b. apply Hm. set_solver.
Qed.

(** The support matrix, for the version that the first line of the cluster's own
    /etc/version gave when it was asked in [w]. *)
Definition matrix_ok (x : Install) (w : W) : Prop :=
  ∃ ls v vs w1, cl_run "cat /etc/version" w = (ls, None, w1) ∧ tidy ls = v :: vs ∧
  ∀ mf, (let '(version, build, commit) := ParseVersion v in
              MatchManifest manifests version build commit) = Some mf →
    (x.(i_Manifest) = "" ∨ x.(i_Manifest) = mf.(mf_Name) ∨ x.(i_Lab) = true)
    ∧ (∃ warn, CheckModule (Some mf) x.(i_Module)
         (if (x.(i_Module) =? ModuleAdvisor)%string then x.(i_Params).(ip_AdvisorFile)
          else x.(i_Params).(ip_AppFile)) x.(i_Lab) = Ok warn)
    ∧ (x.(i_Module) = ModuleAdvisor → ∀ k, mf.(mf_AdvisorReleaseKey) = Some k →
         is_ok (VerifyAdvisorBundle (localPath dataDir "advisor" x.(i_Params).(ip_AdvisorFile)) k) = true).

Lemma enforceMatrix_ok x (w : W) o w' : enforceMatrix x w = (o, None, w') → matrix_ok x w.
Proof.
  unfold EntPreflight.enforceMatrix. intros (o1 & [vs e] & w1 & o2 & Hver & Hr & ->)%mlet_inv.
  destruct vs as [|v vs]; [by apply fails_inv in Hr|]. destruct e as [e|]; [by apply fails_inv in Hr|].
  unfold sshList, mlet, run, mret in Hver. destruct (cl_run "cat /etc/version" w) as [[ls e'] w2] eqn:Ec.
  injection Hver as _ Hls -> ->. exists ls, v, vs, w1. split; [done|]. split; [done|]. clear Ec Hls.
  destruct (ParseVersion v) as [[version build] commit]. intros mf Hmf. rewrite Hmf in Hr.
  apply mthen_inv in Hr as (o3 & w3 & o4 & H1 & Hr & ->). split.
  { destruct (String.eqb_spec (i_Manifest x) "") as [E|E]; [by left|right].
    destruct (String.eqb_spec (i_Manifest x) (mf_Name mf)) as [E'|E']; [by left|right].
    unfold is_empty in H1. rewrite (proj2 (String.eqb_neq _ _) E) in H1. cbn [negb andb] in H1.
    destruct (i_Lab x); [done|]. by apply fails_inv in H1. }
  destruct (CheckModule _ _ _ _) as [warn|e]; [|by apply fails_inv in Hr]. split; [by eexists|].
  intros Hm k Hk. apply mthen_inv in Hr as (o5 & w5 & o6 & _ & Hr & ->). rewrite Hm, Hk in Hr. cbn [negb] in Hr.
  rewrite String.eqb_refl in Hr. cbn [negb] in Hr.
  apply mthen_inv in Hr as (o7 & w7 & o8 & _ & Hr & ->).
  destruct (VerifyAdvisorBundle _ k); [done|]. by apply fails_inv in Hr.
Qed.

(** Narration does not touch the cluster. *)
Lemma each_say_world {A} (f : A → string) l (w : W) o e w' :
  each (fun a => say (f a)) l w = (o, e, w') → w' = w.
Proof.
  revert o. induction l as [|a l IH]; intros o; [by intros [=]|].
  cbn. destruct (each _ l w) as [[o1 e1] w1]. intros [= _ -> ->]. by eapply IH.
Qed.

(** The framework is listed, or it is the plan's to create. *)
Definition framework_ok (x : Install) (plan : list plannedStep) (fw : list string) : Prop :=
  planHasStep plan "framework_create" = true ∨ x.(i_Module) = ModuleAppFW ∨ x.(i_Op) = "uninstall"
  ∨ listHasName fw (or_default x.(i_Params).(ip_Framework) x.(i_Params).(ip_Project)) = true.

Lemma pf_framework_ok x plan fw (w : W) o w' :
  pf_framework x plan fw w = (o, None, w') → framework_ok x plan fw.
Proof.
  unfold pf_framework, framework_ok. intros (o1 & w1 & o2 & H1 & _ & _)%mthen_inv.
  destruct (planHasStep plan "framework_create"); [by left|]. right.
  destruct (String.eqb_spec (i_Module x) ModuleAppFW); [by left|right].
  destruct (String.eqb_spec (i_Op x) "uninstall"); [by left|right]. cbn [negb andb] in H1.
  destruct (listHasName fw _); [done|]. rewrite orb_true_r in H1. by apply fails_inv in H1.
Qed.

Lemma pf_advisor_ok x (w : W) o w' :
  pf_advisor x w = (o, None, w') → x.(i_Module) = ModuleAdvisor → x.(i_Op) ≠ "uninstall" →
  checkAdvisorAddrs x.(i_Params) = Ok tt.
Proof.
  unfold pf_advisor. intros Hr Hm Ho%String.eqb_neq. rewrite Hm, Ho in Hr.
  rewrite String.eqb_refl in Hr. cbn [negb andb] in Hr. destruct (checkAdvisorAddrs _) as [[]|e]; [done|]. by apply fails_inv in Hr.
Qed.

(** C31. An install or uninstall that passes its preflight can be carried out:
    every file the plan pushes is there, not empty and as its checksum says, or
    its content was found on the cluster already; the framework it goes onto
    was in the lines of the cluster's listing or the plan creates it; and for an
    install of an application module the cluster answered with its version, and the
    manifest that matches that version, if one does, lets the install through (the
    advisor's bundle verifies with its key); the advisor's addresses are good. *)
Theorem preflight_ok x plan (w : W) o w' :
  preflight x plan w = (o, None, w') →
  Forall (artifact_ok o) plan
  ∧ (∃ oa fw ob, o = oa ++ (OLine <$> fw) ++ ORun list_cmd true :: ob ∧ framework_ok x plan fw)
  ∧ (x.(i_Module) = ModuleCMP ∨ x.(i_Module) = ModuleAdvisor → x.(i_Op) ≠ "uninstall" → matrix_ok x w)
  ∧ (x.(i_Module) = ModuleAdvisor → x.(i_Op) ≠ "uninstall" → checkAdvisorAddrs x.(i_Params) = Ok tt).
Proof.
  unfold EntPreflight.preflight.
  intros (o1 & w1 & r1 & Hw & Hr & ->)%mthen_inv. apply each_say_world in Hw as ->.
  apply mthen_inv in Hr as (o2 & w2 & r2 & Hmx & Hr & ->).
  apply mthen_inv in Hr as (o3 & w3 & r3 & _ & Hr & ->).
  apply mthen_inv in Hr as (o4 & w4 & r4 & _ & Hr & ->).
  apply mthen_inv in Hr as (o5 & w5 & r5 & _ & Hr & ->).
  apply mlet_inv in Hr as (o6 & [e fw] & w6 & r6 & Hl & Hr & ->). cbn [fst snd] in Hr.
  destruct e as [e|]; [discriminate Hr|].
  apply mthen_inv in Hr as (o7 & w7 & r7 & Hfw & Hr & ->).
  apply mthen_inv in Hr as (o8 & w8 & r8 & Hadv & Hr & ->).
  apply mthen_inv in Hr as (o9 & w9 & r9 & _ & Hr & ->).
  apply mthen_inv in Hr as (o10 & w10 & r10 & _ & Hr & ->).
  apply mthen_inv in Hr as (o11 & w11 & r11 & Hart & _ & ->).
  unfold run_checked in Hl. apply mlet_inv in Hl as (oa & [ls e] & wa & ob & Hrun & Hl & ->).
  cbn [fst snd] in Hl. injection Hl as <- -> -> <-. apply run_shown_ok in Hrun as ->. split_and!.
  - apply (each_ok _ artifact_ok) in Hart; [|apply artifact_ok_mono|apply pf_artifact_ok].
    eapply Forall_impl; [exact Hart|]. intros ps. apply artifact_ok_mono. set_solver.
  - exists (o1 ++ o2 ++ o3 ++ o4 ++ o5), fw. eexists. split; [|by eapply pf_framework_ok].
    rewrite <- !app_assoc. cbn. reflexivity.
  - intros Hm Ho. apply String.eqb_neq in Ho.
    assert ((i_Module x =? ModuleCMP)%string || (i_Module x =? ModuleAdvisor)%string = true) as Hb.
    { rewrite orb_true_iff, !String.eqb_eq. done. }
    rewrite Hb, Ho in Hmx. by eapply enforceMatrix_ok.
  - by eapply pf_advisor_ok.
Qed.
End Checked.

(** ** A preflight on the demo cluster *)

Definition demo_size (p : string) : option Z := if HasSuffix p ".md5" then None else Some 1048576.

Definition demo_plan : list plannedStep :=
  BuildPlan (fun _ => true) "a2M=" ModuleAppFW params_ex false "/data" None.

Definition demo_preflight : list obs * option goerr * Z :=
  preflight (W:=Z) demo_size (fun _ => Err "no such file") (fun _ => Err "no such file") [] "/data"
    (fun _ _ => Err "no bundle")
    (new_install "c1" ModuleAppFW "install" "10.0.0.1" "now" false false false [] "" params_ex) demo_plan 0.

Lemma preflight_ok_witness :
  ∃ o w', demo_preflight = (o, None, w') ∧ Forall (artifact_ok demo_size (fun _ => Err "no such file") (fun _ => Err "no such file") o) demo_plan.
Proof.
  destruct demo_preflight as [[o e] w'] eqn:E.
  assert (e = None) as ->.
  { assert (demo_preflight.1.2 = None) as H by (vm_compute; reflexivity). rewrite E in H. exact H. }
  exists o, w'. split; [reflexivity|]. unfold demo_preflight in E.
  exact (proj1 (preflight_ok _ _ _ _ _ _ _ _ _ _ _ E)).
Defined.

(** The sizes the operator reads. *)
Example human_sizes :
  humanSize 512 = "512 B" ∧ humanSize 1536 = "1.5 KiB" ∧ humanSize 5368709120 = "5.0 GiB".
Proof. split_and!; vm_compute; reflexivity. Qed.

(** ** Suggested addresses *)

(** A current address is kept, else the next free one is taken. *)
Lemma take_or cur rest a rest' :
  (if is_empty cur then take_addr rest else (cur, rest)) = (a, rest') →
  NoDup rest → "" ∉ rest → cur ∉ rest →
  NoDup rest' ∧ rest' ⊆ rest ∧ a ∉ rest' ∧ (cur ≠ "" → a = cur) ∧ (cur = "" → a ≠ "" → a ∈ rest).
Proof.
  intros E Hn He Hc. destruct (is_empty cur) eqn:Ec.
  - apply is_empty_true in Ec. destruct rest as [|x rest]; injection E as <- <-.
    + split_and!; try done; apply not_elem_of_nil.
    + apply NoDup_cons in Hn as [Hx Hn]. split_and!; try done; [set_solver|intros _ _; by left].
  - apply is_empty_false in Ec. injection E as <- <-. by split_and!.
Qed.

Lemma filter_NoDup {A} (f : A → bool) l : NoDup l → NoDup (List.filter f l).
Proof. rewrite !NoDup_ListNoDup. apply List.NoDup_filter. Qed.

(** The suggestions of the install form can be used as they are: with a free
    list without repetitions and current addresses that differ, the framework's
    address, the Advisor's and the console's are pairwise different, and the
    current ones are kept. *)
Lemma suggestAddrs_distinct free fwLB ownLB n lb adv pool :
  NoDup free → "" ∉ free → (fwLB = "" ∨ fwLB ≠ ownLB) →
  suggestAddrs free fwLB ownLB [] n = (lb, adv, pool) →
  NoDup (named [lb; adv] ++ pool) ∧ (fwLB ≠ "" → lb = fwLB) ∧ (ownLB ≠ "" → adv = ownLB)
  ∧ (length pool <= n)%nat.
Proof.
  intros Hn He Hd. unfold suggestAddrs. set (rest := List.filter _ free).
  assert (∀ a, a ∈ rest → a ∈ free ∧ a ≠ fwLB ∧ a ≠ ownLB) as Hin.
  { intros a. unfold rest. rewrite list_elem_of_In, filter_In, <- list_elem_of_In, !andb_true_iff, !negb_true_iff.
    rewrite !String.eqb_neq. tauto. }
  assert (NoDup rest) as Hr by by apply filter_NoDup.
  clearbody rest.
  destruct (if is_empty fwLB then take_addr rest else (fwLB, rest)) as [l1 r1] eqn:E1.
  destruct (if is_empty ownLB then take_addr r1 else (ownLB, r1)) as [a1 r2] eqn:E2.
  intros [= <- <- <-].
  destruct (take_or _ _ _ _ E1) as (N1 & S1 & L1 & K1 & T1); [done|by intros (? & _)%Hin|by intros (_ & ? & _)%Hin|].
  destruct (take_or _ _ _ _ E2) as (N2 & S2 & A2 & K2 & T2); [done|by intros (? & _)%S1%Hin|by intros (_ & _ & ?)%S1%Hin|].
  assert (∀ x, x ∈ take n r2 → x ∈ r2) as Ht by (intros x (i & Hi & _)%elem_of_take; by eapply list_elem_of_lookup_2).
  split_and!; try done; [|rewrite length_take; lia].
  apply distinct_named; [by intros (? & _)%Ht%S2%S1%Hin|]. split_and!; [by intros H%Ht| |].
  - rewrite <- (take_drop n r2) in N2. by apply NoDup_app in N2 as [N2 _].
  - intros Hl. split; [|by intros H%Ht%S2]. intros ->.
    destruct (decide (ownLB = "")) as [Ho|Ho]; [by apply L1, T2|]. rewrite K2 in Hl, T1, K1 by done.
    destruct (decide (fwLB = "")) as [Hf|Hf]; [destruct (Hin ownLB); tauto|].
    destruct Hd; [done|]. by rewrite K1 in *.
Qed.
